(* ===== verification/_CoqProject ===== *)
-Q . S2P
Prelude.v
Hashmap.v
Mem.v
Strset.v
Nlattr.v
Zip.v
ProgLinfo.v
BtfTypes.v
Btf.v
BtfFind.v
BtfParse.v
BtfRaw.v
BtfWrite.v
BtfBuild.v
BtfAppend.v
BtfOps.v
BtfRun.v
Ringbuf.v
RingbufUser.v
CoreTypes.v
CoreDemo.v
CoreCompat.v
CoreMatch.v
CoreSpec.v
CoreField.v
CoreMember.v
CoreCalc.v
CorePatch.v
CoreCands.v
DedupTypes.v
Dedup.v
DedupState.v
DedupWrite.v
DedupPrim.v
DedupEquiv.v
DedupSame.v
DedupStruct.v
DedupFwd.v
DedupRef.v
DedupFields.v
DedupCompact.v
DedupStrings.v
DedupInit.v
DedupWhole.v
DedupMerge.v
DedupRun.v
DedupDemo.v
DedupSpec.v
Sha256.v
ProgSec.v
LibUtil.v
