(* ===== verification/Prelude.v ===== *)
(** * A verification development of libbpf

    libbpf ([src/src]) is the user-space library for BPF programs.  This development
    models the parts of it that are plain computation on memory - containers, the
    parsing and writing of binary formats, and BTF, the type information of BPF
    programs - as executable functions, and proves what they promise.

    ** The program and the files

    - [Prelude]: machine integers, C strings, little-endian words, allocation, lists
      indexed by [Z], and the lemmas and tactics on them that the other files share.
    - [Hashmap] ([hashmap.c], [hashmap.h]): the chained hash table keyed by words.
      The hash and equality functions are a class with the laws the code relies on.
    - [Mem] ([libbpf_add_mem], [libbpf_ensure_mem] of [btf.c]): growable arrays.
    - [Strset] ([strset.c]): the set of strings in one block of memory, indexed by a
      hash table whose keys are offsets.  It is a client of [Hashmap] and [Mem].
    - [Nlattr] ([nlattr.c], [nlattr.h]): netlink attributes, parsed and built.
    - [Zip] ([zip.c]): the archive reader used to find libraries inside packages.
    - [ProgLinfo] ([bpf_prog_linfo.c]): the line info of jitted programs.
    - [BtfTypes] ([btf.h], [btf_iter.c] and the uapi header): the encoding of BTF types,
      their sizes, byte order, and the iterator over the references of a type.
    - [Btf], [BtfFind] ([btf.c]): [struct btf], its invariant [btf_ok], and the queries:
      types and strings by number along the chain of base objects, sizes, lookup by
      name.
    - [BtfParse], [BtfRaw] ([btf.c]): [btf_new] with all its checks, [btf_get_raw_data],
      and that the second is read back by the first.
    - [BtfWrite] ([btf.c]): making an object modifiable, strings, and the whole
      [btf__add_*] family; [BtfBuild], [BtfAppend], [BtfOps], [BtfRun]: what these do,
      from the strings up to whole sequences of calls.
    - [Ringbuf], [RingbufUser] ([ringbuf.c]): the ring buffers shared with the kernel,
      consumed in [Ringbuf] and filled in [RingbufUser].
    - [CoreTypes], [CoreCompat], [CoreMatch] ([relo_core.c], [libbpf.c]): names with flavors
      and the three ways in which CO-RE compares a local with a target type, with the
      relations they decide; [CoreDemo] is an example of a program and a kernel.
    - [CoreSpec], [CoreField], [CoreMember] ([relo_core.c]): access strings, the specs they
      are parsed to, and the search for the same access in a target type.
    - [CoreCalc], [CorePatch] ([relo_core.c]): the values of relocations, and the
      instructions they are patched into.
    - [CoreCands] ([libbpf.c], [relo_core.c]): the candidates of a type, the cache that
      keeps them, and the choice among them.
    - [Dedup] ([btf__dedup] of [btf.c]): the state of the deduplication and its passes, over
      the hashes and comparisons of [DedupTypes].  [DedupState] has the invariant of the
      state (the map links every type to one that may stand for it and ends; the table holds
      the representatives), [DedupSame] the relation between types that may be merged;
      [DedupInit], [DedupPrim], [DedupEquiv] with [DedupStruct],
      [DedupFwd], [DedupRef], [DedupStrings] and [DedupCompact] have the passes, where
      [DedupWrite] and [DedupFields] are about words rewritten in place; [DedupWhole],
      [DedupMerge] and [DedupRun] put them together, and [DedupDemo] and [DedupSpec] have
      examples and the final theorems.
    - [Sha256] ([libbpf_utils.c]): the hash of programs.
    - [ProgSec] ([libbpf.c]): program types by section name, and handlers for more of them.
    - [LibUtil] ([libbpf.c]): patterns of names, processor masks, ring buffer sizes.

    ** Correspondence

    A C function is a function with the same name.  Structures are records with the
    same fields.  A w-bit integer is a [Z] in its range, and every place where the code
    can wrap is written with [u8] ... [u64], [s32].  Memory that a function reads is a
    list of bytes ([Z] in [0 .. 255]) or of words; a read outside it is undefined
    behaviour, the outer [None] of results.  Error codes are [Err e] or the negative
    value the code returns.  Every allocation takes one outcome from an [oracle] (a
    list of booleans, exhausted meaning success), so the theorems cover every pattern
    of failures.  Loops are structural recursion over what they consume, or have fuel
    that is a bound on their steps, and the theorems show that the fuel is enough: they
    state that a result is given, never only what it is if there is one.

    ** What the theorems show

    - Containers: the hash table refines finite maps on every branch, and its append
      mode a multimap with the order in which growth leaves the entries; the growable
      array keeps its contents; the string set refines a map from strings to offsets,
      also for arguments that point into its own memory.
    - Parsers: every input is accepted or refused without a read outside it; what is
      accepted satisfies the invariant of the format.  Attributes, archives and line
      info are looked up as specified.
    - BTF: sizes agree with the layout table and do not overflow; the field iterator
      lists exactly the references of every kind; swapping byte order twice is the
      identity; lookup by name is the first match whether it is found by binary search
      or by a scan; [btf_new] validates every type; objects are read back from what is
      written in either byte order.
    - Construction: each of the 32 functions that append is compared with one
      specification on every path, and what any successful sequence builds is read back
      with the same types and names.
    - Ring buffers: with the kernel running between any two accesses to the shared
      memory under its documented protocol, records are delivered once and in order and
      released when taken; a reservation appends one record and a commit changes that
      record only; what is sent is what was written.

    - CO-RE: the comparisons of types always return and decide inductive relations written
      after their comments (where the code differs from the comment of
      [bpf_core_types_are_compat], at the root and for integers with an offset, the relation
      follows the code); a spec matched in a target is the one parsing its path would
      give, with the same fields by name, and "no match" means that there is none; the
      byte offset, size and shifts of a field read exactly its bits; candidates that disagree
      are never chosen among; patching changes the operand and nothing else.  The class
      [CoreBtf] states what these functions rely on in a BTF object (references exist,
      modifiers and arrays are not cyclic), and follows from the checks of [btf_new] but
      for the acyclicity and the return types of prototypes; [UniqueMembers] states what C
      promises of field names.
    - Deduplication: the comparisons decide equality of the words of types, and the hashes
      respect it; every pass returns, and maps the types of its kinds to ones that may stand
      for them; the whole keeps the strings that names denote, takes every type to one of the
      result by a renaming of identifiers, and leaves exactly compared types once.  What a
      type may stand for is the relation [stands_for]: the same words, the same shape but for
      identifiers, a definition for its forward declaration, and, only where a name is forward
      declared, another structure of that name.  What is merged is moreover related by
      [same_type], the largest bisimulation: the words agree, and the identifiers at the same
      places name types that are related in the same way; a forward declaration excepts the
      types of its kind and name.  That this exception is real, and that without
      the assumption [chains_end] the comparison of graphs may not return, is shown by two
      objects.
    - Helpers: [libbpf_sha256] is the hash of the standard; a section name fits one entry of
      the table at most, and handlers come and go under different identifiers; patterns,
      processor masks and ring buffer sizes are what they denote.

    ** Bounds

    Hypotheses that bound sizes are those under which the C code does not overflow an
    [int] it returns (string offsets and identifiers up to [INT_MAX]); the checks the
    code makes itself are not assumed.  [dedup_input] states what deduplication relies on:
    identifiers and string offsets that exist, also where [btf_new] does not check them, a
    base that does not refer to later types, and chains of reference types that end.  The
    fuel of the comparison of graphs is one more than the types it can enter, that of the
    comparison of identical types 16 chains through every pair of types.

    Where C gives a computation no meaning that the model has to choose (reading past a
    header the caller has checked, a key that is no string of the set), or keeps a cache that
    the model leaves out (the pointer size of an object), the definition says so.

    ** Not modelled

    System calls, files, mapping of memory (also as the source of [btf_new]) and ELF (which is read through libelf) are
    not modelled: [bpf.c], [features.c], [libbpf_probes.c], [netlink.c], [elf.c], and the
    parts of [libbpf.c], [linker.c], [usdt.c] that drive them.  Freeing of memory is not
    modelled, except where a pointer that was freed could be used.  Of [btf.c],
    [.BTF.ext] (also as an option of deduplication), permutation and distillation, and
    copying between objects are not modelled yet; neither are [btf_relocate.c], [btf_dump.c] and
    [gen_loader.c].  Of [relo_core.c] only the text of log messages is left out. *)
From Stdlib Require Export ZArith Lia ZifyBool Bool.
From stdpp Require Export base tactics option numbers list_numbers.
From stdpp Require Export list.
Open Scope Z_scope.

(** ** Machine integers *)

(** Unsigned and two's-complement truncation to [w] bits. *)
Definition uwrap (w : Z) (z : Z) : Z := z mod 2 ^ w.
Definition swrap (w : Z) (z : Z) : Z := (z + 2 ^ (w - 1)) mod 2 ^ w - 2 ^ (w - 1).

Abbreviation u8 := (uwrap 8).
Abbreviation u16 := (uwrap 16).
Abbreviation u32 := (uwrap 32).
Abbreviation u64 := (uwrap 64).
Abbreviation s8 := (swrap 8).
Abbreviation s32 := (swrap 32).
Abbreviation s64 := (swrap 64).

Definition UINT32_MAX : Z := 4294967295.
Definition SIZE_MAX : Z := 18446744073709551615.
Definition INT_MIN : Z := -2147483648.
Definition INT_MAX : Z := 2147483647.
Definition UINT_MAX : Z := 4294967295.

(** ** errno values (a C return of [-E] is the integer [- E]) *)
Definition ENOENT : Z := 2.
Definition ESRCH : Z := 3.
Definition EINTR : Z := 4.
Definition E2BIG : Z := 7.
Definition EBUSY : Z := 16.
Definition EAGAIN : Z := 11.
Definition ENOMEM : Z := 12.
Definition EEXIST : Z := 17.
Definition EINVAL : Z := 22.
Definition ENOSPC : Z := 28.
Definition EDOM : Z := 33.
Definition ERANGE : Z := 34.
Definition ELOOP : Z := 40.
Definition ENODATA : Z := 61.
Definition ENOTSUP : Z := 95.
Definition EOPNOTSUPP : Z := 95.
Definition EUCLEAN : Z := 117.

(** ** Results of fallible operations

    [Err e] stands for a C return of [-e] (or an [ERR_PTR(-e)]). *)
Inductive result (A : Type) : Type :=
| Ok (a : A)
| Err (e : Z).
Arguments Ok {A} a.
Arguments Err {A} e.

Definition res_bind {A B} (r : result A) (k : A -> result B) : result B :=
  match r with Ok a => k a | Err e => Err e end.

Declare Scope res_scope.
Delimit Scope res_scope with res.
Notation "'let?' x ':=' c 'in' k" := (res_bind c (fun x => k))
  (at level 10, x pattern, k at level 200) : res_scope.
Notation "'guard?' b 'else' e 'in' k" := (if (b : bool) then k else Err e)
  (at level 10, k at level 200) : res_scope.

(** ** Memory allocation

    An allocation may fail.  The outcomes of the successive allocations an
    operation performs are read from a list, so that every finite pattern of
    failures is an input; an exhausted list means success. *)
Definition oracle := list bool.

Definition alloc (o : oracle) : bool * oracle :=
  match o with [] => (true, []) | b :: o' => (b, o') end.

(** [calloc(n, sz)] and [libbpf_reallocarray(p, n, sz)] also fail when
    [n * sz] does not fit in [size_t]. *)
Definition alloc_array (n sz : Z) (o : oracle) : bool * oracle :=
  if SIZE_MAX <? n * sz then (false, o) else alloc o.

(** ** Arrays indexed by machine integers *)
Definition znth {A} (l : list A) (i : Z) : option A :=
  if i <? 0 then None else l !! Z.to_nat i.

Definition zupd {A} (l : list A) (i : Z) (x : A) : list A :=
  if i <? 0 then l else <[Z.to_nat i := x]> l.

Definition zlen {A} (l : list A) : Z := Z.of_nat (length l).

Definition zdrop {A} (i : Z) (l : list A) : list A := drop (Z.to_nat i) l.
Definition ztake {A} (i : Z) (l : list A) : list A := take (Z.to_nat i) l.

(** ** C strings: the bytes before the terminating NUL *)

(** [None] is a read past the end of the object. *)
Fixpoint cstr (l : list Z) : option (list Z) :=
  match l with
  | [] => None
  | b :: l' => if b =? 0 then Some [] else
               match cstr l' with Some s => Some (b :: s) | None => None end
  end.

Definition cstr_at (data : list Z) (off : Z) : option (list Z) :=
  if off <? 0 then None else cstr (zdrop off data).

(** [strcmp]: the difference of the first pair of bytes that differ, the
    terminating NUL counting as 0. *)
Fixpoint strcmp (a b : list Z) : Z :=
  match a, b with
  | [], [] => 0
  | [], y :: _ => - y
  | x :: _, [] => x
  | x :: a', y :: b' => if x =? y then strcmp a' b' else x - y
  end.

(** The bytes a C string may hold. *)
Definition no_nul (s : list Z) : Prop := Forall (fun b => b <> 0) s.

(** ** Little-endian loads *)
Fixpoint le_combine (l : list Z) : Z :=
  match l with [] => 0 | b :: l' => b + 256 * le_combine l' end.

Definition is_byte (b : Z) : Prop := 0 <= b < 256.

(** [n] bytes at [off], or [None] out of bounds *)
Definition slice (data : list Z) (off n : Z) : option (list Z) :=
  if (0 <=? off) && (0 <=? n) && (off + n <=? zlen data)
  then Some (ztake n (zdrop off data)) else None.

Definition load (data : list Z) (off n : Z) : option Z :=
  le_combine <$> slice data off n.

(** The [n] bytes of [z], least significant first. *)
Fixpoint le_split (n : nat) (z : Z) : list Z :=
  match n with O => [] | S n' => z mod 256 :: le_split n' (z / 256) end.

(** [data] with the bytes [bs] written at [pos]. *)
Definition memcpy (data : list Z) (pos : Z) (bs : list Z) : list Z :=
  ztake pos data ++ bs ++ zdrop (pos + zlen bs) data.

(** ** Tactics *)

(** Let [lia] reason about [/] and [mod]. *)
Ltac Zify.zify_post_hook ::= Z.to_euclidean_division_equations.

(** Case on the condition of the first conditional of the goal. *)
Ltac case_if :=
  match goal with
  | |- context [if ?b then _ else _] => destruct b eqn:?
  end.

(** The same in a hypothesis. *)
Ltac case_if_in H :=
  match type of H with
  | context [if ?b then _ else _] => destruct b eqn:?
  end.

(** Turn boolean connectives into propositions; the comparisons themselves
    are left to [lia]. *)
Ltac bools :=
  repeat match goal with
  | H : (_ && _)%bool = true |- _ => apply andb_true_iff in H as [? ?]
  | H : (_ || _)%bool = false |- _ => apply orb_false_iff in H as [? ?]
  | H : negb _ = true |- _ => apply negb_true_iff in H
  | H : negb _ = false |- _ => apply negb_false_iff in H
  end.

(** Destruct the innermost scrutinee of a [match] in the hypotheses. *)
Ltac inv_matches H :=
  repeat (case_match; simplify_eq/=; try discriminate H).

Create HintDb libbpf.
Create Rewrite HintDb zlen.

(** ** Lemmas on machine integers *)

Lemma uwrap_range w z : 0 <= w -> 0 <= uwrap w z < 2 ^ w.
Proof. intros Hw. apply Z.mod_pos_bound. apply Z.pow_pos_nonneg; lia. Qed.

Lemma uwrap_small w z : 0 <= z < 2 ^ w -> uwrap w z = z.
Proof. intros Hz. by apply Z.mod_small. Qed.

Lemma swrap_small w z : 0 < w -> - 2 ^ (w - 1) <= z < 2 ^ (w - 1) -> swrap w z = z.
Proof.
  intros Hw Hz. unfold swrap. assert (2 ^ w = 2 * 2 ^ (w - 1)) as Hp.
  { rewrite <- Z.pow_succ_r by lia. f_equal. lia. }
  rewrite Z.mod_small; lia.
Qed.

Lemma u32_small z : 0 <= z < 4294967296 -> u32 z = z.
Proof. intros. by apply uwrap_small. Qed.

Lemma u64_small z : 0 <= z < 18446744073709551616 -> u64 z = z.
Proof. intros. by apply uwrap_small. Qed.

Lemma s32_small z : -2147483648 <= z < 2147483648 -> s32 z = z.
Proof. intros. by apply swrap_small. Qed.

Lemma u32_range z : 0 <= u32 z < 4294967296.
Proof. by apply (uwrap_range 32). Qed.

Lemma u64_range z : 0 <= u64 z < 18446744073709551616.
Proof. by apply (uwrap_range 64). Qed.

(** ** Lemmas on indexed lists *)

Lemma zlen_nonneg {A} (l : list A) : 0 <= zlen l.
Proof. unfold zlen. lia. Qed.

Lemma zlen_app {A} (l k : list A) : zlen (l ++ k) = zlen l + zlen k.
Proof. unfold zlen. rewrite length_app. lia. Qed.

Lemma zlen_cons {A} (x : A) l : zlen (x :: l) = 1 + zlen l.
Proof. unfold zlen. cbn [length]. lia. Qed.

Lemma zlen_snoc {A} (l : list A) x : zlen (l ++ [x]) = zlen l + 1.
Proof. unfold zlen. rewrite length_app. cbn [length]. lia. Qed.

Lemma zlen_nil {A} : zlen (@nil A) = 0.
Proof. done. Qed.

Lemma zlen_replicate {A} (n : nat) (x : A) : zlen (replicate n x) = Z.of_nat n.
Proof. unfold zlen. by rewrite length_replicate. Qed.

Lemma znth_Some {A} (l : list A) i x : znth l i = Some x -> 0 <= i < zlen l.
Proof.
  unfold znth, zlen. case_if; [done |]. intros H%lookup_lt_Some. lia.
Qed.

Lemma znth_is_Some {A} (l : list A) i : 0 <= i < zlen l -> is_Some (znth l i).
Proof.
  unfold znth, zlen. intros H. case_if; [lia |].
  apply lookup_lt_is_Some. lia.
Qed.

Lemma znth_None {A} (l : list A) i : ~ (0 <= i < zlen l) -> znth l i = None.
Proof.
  unfold znth, zlen. intros H. case_if; [done |]. apply lookup_ge_None. lia.
Qed.

Lemma zlen_zupd {A} (l : list A) i x : zlen (zupd l i x) = zlen l.
Proof. unfold zupd, zlen. case_if; [done |]. by rewrite length_insert. Qed.

Lemma znth_zupd_eq {A} (l : list A) i x : 0 <= i < zlen l -> znth (zupd l i x) i = Some x.
Proof.
  unfold znth, zupd, zlen. intros H. case_if; [lia |].
  apply list_lookup_insert_eq. lia.
Qed.

Lemma znth_zupd_ne {A} (l : list A) i j x : i <> j -> znth (zupd l i x) j = znth l j.
Proof.
  unfold znth, zupd. intros H. case_if; [done |]. case_if; [done |].
  apply list_lookup_insert_ne. lia.
Qed.

Lemma filter_ext_elem {A} (P Q : A -> Prop) `{forall x, Decision (P x)} `{forall x, Decision (Q x)} (l : list A) :
  (forall x, x ∈ l -> P x <-> Q x) -> filter P l = filter Q l.
Proof.
  induction l as [|x l IH]; intros Hl; [done |].
  rewrite !filter_cons, IH by (intros; apply Hl; by constructor).
  destruct (Hl x ltac:(by constructor)). repeat case_decide; done || tauto.
Qed.

Lemma mjoin_cons {A} (x : list A) ls : mjoin (x :: ls) = x ++ mjoin ls.
Proof. done. Qed.

#[export] Hint Resolve zlen_nonneg : libbpf.
#[export] Hint Rewrite @zlen_app @zlen_cons @zlen_nil @zlen_zupd @zlen_replicate : zlen.

(** ** Lemmas on C strings *)

Lemma cstr_app s l : no_nul s -> cstr (s ++ 0 :: l) = Some s.
Proof.
  induction 1 as [|b s Hb Hs IH]; [done |].
  cbn [cstr app]. case_if; [lia |]. by rewrite IH.
Qed.

Lemma cstr_split l s : cstr l = Some s -> exists l', l = s ++ 0 :: l'.
Proof.
  revert s. induction l as [|b l IH]; intros s; cbn [cstr]; [done |].
  case_if; intros H.
  - simplify_eq. exists l. replace b with 0 by lia. done.
  - destruct (cstr l) as [s'|]; [|done]. simplify_eq.
    destruct (IH s' eq_refl) as [l' ->]. by exists l'.
Qed.

Lemma cstr_no_nul l s : cstr l = Some s -> no_nul s.
Proof.
  revert s. induction l as [|b l IH]; intros s; cbn [cstr]; [done |].
  case_if; intros H; [simplify_eq; by constructor |].
  destruct (cstr l) as [s'|]; [|done]. simplify_eq. constructor; [lia | by apply IH].
Qed.

(** Reading a string only looks at the bytes up to its NUL. *)
Lemma cstr_prefix l s k : cstr l = Some s -> cstr (l ++ k) = Some s.
Proof.
  revert s. induction l as [|b l IH]; intros s; cbn [cstr app]; [done |].
  case_if; [done |]. destruct (cstr l) as [s'|]; [|done].
  intros. by rewrite (IH s').
Qed.

Lemma cstr_length l s : cstr l = Some s -> (length s < length l)%nat.
Proof. intros [l' ->]%cstr_split. rewrite length_app. cbn. lia. Qed.

Lemma strcmp_refl s : strcmp s s = 0.
Proof. induction s as [|x s IH]; cbn; [done |]. by rewrite Z.eqb_refl. Qed.

Lemma strcmp_eq a b : no_nul a -> no_nul b -> strcmp a b = 0 -> a = b.
Proof.
  revert b. induction a as [|x a IH]; intros [|y b] Ha Hb; cbn; intros H;
    inversion Ha; inversion Hb; subst; try lia; [done |].
  case_if_in H; [|lia]. f_equal; [lia |]. by apply IH.
Qed.

Lemma cstr_at_no_nul data k s : cstr_at data k = Some s -> no_nul s.
Proof. unfold cstr_at. case_if; [done |]. apply cstr_no_nul. Qed.

(** A string read from a prefix of the data is the string of the data. *)
Lemma cstr_at_prefix l k off s : cstr_at l off = Some s -> cstr_at (l ++ k) off = Some s.
Proof.
  unfold cstr_at, zdrop. case_if; [done |]. intros H.
  assert (off < zlen l).
  { apply cstr_length in H. rewrite length_drop in H. unfold zlen. lia. }
  rewrite drop_app_le by (unfold zlen in *; lia). by apply cstr_prefix.
Qed.

Lemma cstr_at_range l off s : cstr_at l off = Some s -> 0 <= off /\ off + zlen s < zlen l.
Proof.
  unfold cstr_at, zdrop, zlen. case_if; [done |]. intros H%cstr_length.
  rewrite length_drop in H. lia.
Qed.

Lemma cstr_at_app l s k : no_nul s -> cstr_at (l ++ s ++ 0 :: k) (zlen l) = Some s.
Proof.
  intros Hs. unfold cstr_at, zdrop, zlen. case_if; [lia |].
  rewrite Nat2Z.id, drop_app_length. by apply cstr_app.
Qed.

(** ** Prefixes and slices *)
Lemma ztake_all {A} (l : list A) n : zlen l <= n -> ztake n l = l.
Proof. unfold ztake, zlen. intros. apply take_ge. lia. Qed.

Lemma zlen_ztake {A} n (l : list A) : 0 <= n <= zlen l -> zlen (ztake n l) = n.
Proof. unfold zlen, ztake. intros. rewrite length_take. lia. Qed.

Lemma ztake_zdrop {A} n (l : list A) : ztake n l ++ zdrop n l = l.
Proof. apply take_drop. Qed.

Lemma ztake_app_le {A} n (l k : list A) : n <= zlen l -> ztake n (l ++ k) = ztake n l.
Proof. unfold ztake, zlen. intros. rewrite take_app_le; [done | lia]. Qed.

Lemma zdrop_app_zlen {A} (l k : list A) : zdrop (zlen l) (l ++ k) = k.
Proof. unfold zdrop, zlen. by rewrite Nat2Z.id, drop_app_length. Qed.

Lemma ztake_app_zlen {A} (l k : list A) : ztake (zlen l) (l ++ k) = l.
Proof. unfold ztake, zlen. by rewrite Nat2Z.id, take_app_length. Qed.

Lemma zlen_fmap {A B} (f : A -> B) (l : list A) : zlen (f <$> l) = zlen l.
Proof. unfold zlen. by rewrite length_fmap. Qed.

(** The bytes of a string and its NUL. *)
Lemma slice_cstr data off s : cstr_at data off = Some s -> slice data off (zlen s + 1) = Some (s ++ [0]).
Proof.
  intros Hs. pose proof (cstr_at_range _ _ _ Hs) as Hr. unfold cstr_at in Hs.
  case_if_in Hs; [done |]. unfold slice. pose proof (zlen_nonneg s).
  replace ((0 <=? off) && (0 <=? zlen s + 1) && (off + (zlen s + 1) <=? zlen data)) with true by lia.
  f_equal. apply cstr_split in Hs as [l' ->]. unfold ztake, zlen.
  replace (Z.to_nat (Z.of_nat (length s) + 1)) with (length s + 1)%nat by lia.
  rewrite take_app_add. done.
Qed.

(** Data that ends with a NUL has a string at every offset. *)
Lemma cstr_terminated l : last l = Some 0 -> is_Some (cstr l).
Proof.
  induction l as [|b l IH]; cbn [cstr]; [done |]. intros H. case_if; [by eexists |].
  destruct l as [|c l]; [cbn in H; simplify_eq; lia |].
  destruct IH as [s ->]; [done | by eexists].
Qed.

Lemma cstr_at_terminated data off :
  last data = Some 0 -> 0 <= off < zlen data -> is_Some (cstr_at data off).
Proof.
  intros Hl Ho. unfold cstr_at, zdrop, zlen in *. case_if; [lia |]. apply cstr_terminated.
  rewrite !last_lookup, lookup_drop, length_drop in *. rewrite <- Hl. f_equal. lia.
Qed.

(** ** Allocation outcomes *)
Lemma alloc_cases o :
  exists o', (forall b, b ∈ o' -> b ∈ o) /\
    (alloc o = (true, o') \/ (alloc o = (false, o') /\ false ∈ o)).
Proof.
  destruct o as [|b o]; cbn; [by exists []; auto |]. exists o.
  split; [intros; by constructor |]. destruct b; [by left | right; split; [done | constructor]].
Qed.

(** ** Writing and reading back *)
Lemma slice_Some data off n bs :
  slice data off n = Some bs -> 0 <= off /\ 0 <= n /\ off + n <= zlen data /\ zlen bs = n.
Proof.
  unfold slice. case_if; [|done]. bools. intros. simplify_eq. unfold ztake, zdrop, zlen in *.
  rewrite length_take, length_drop. lia.
Qed.

Lemma slice_is_Some data off n :
  0 <= off -> 0 <= n -> off + n <= zlen data -> is_Some (slice data off n).
Proof.
  intros. unfold slice. replace (_ && _ && _) with true by lia. by eexists.
Qed.

Lemma zlen_memcpy data pos bs :
  0 <= pos -> pos + zlen bs <= zlen data -> zlen (memcpy data pos bs) = zlen data.
Proof.
  intros. unfold memcpy. autorewrite with zlen. unfold ztake, zdrop, zlen in *.
  rewrite length_take, length_drop. lia.
Qed.

Lemma slice_memcpy_eq data pos bs :
  0 <= pos -> pos + zlen bs <= zlen data ->
  slice (memcpy data pos bs) pos (zlen bs) = Some bs.
Proof.
  intros Hp Hl. pose proof (zlen_nonneg bs). unfold slice. rewrite zlen_memcpy by lia.
  replace (_ && _ && _) with true by lia. f_equal. unfold memcpy, ztake, zdrop, zlen in *.
  rewrite drop_app_ge by (rewrite length_take; lia).
  rewrite length_take, Nat.min_l, Nat.sub_diag by lia. rewrite drop_0.
  rewrite take_app_le by lia. apply take_ge. lia.
Qed.

Lemma slice_memcpy_before data pos bs off n :
  0 <= pos -> pos + zlen bs <= zlen data -> off + n <= pos ->
  slice (memcpy data pos bs) off n = slice data off n.
Proof.
  intros Hp Hl Ho. unfold slice. rewrite zlen_memcpy by lia. case_if; [|done]. f_equal. bools.
  unfold memcpy, ztake, zdrop, zlen in *.
  rewrite drop_app_le by (rewrite length_take; lia).
  rewrite take_app_le by (rewrite length_drop, length_take; lia).
  rewrite <- (take_drop (Z.to_nat pos) data) at 2.
  rewrite drop_app_le by (rewrite length_take; lia).
  by rewrite take_app_le by (rewrite length_drop, length_take; lia).
Qed.

Lemma slice_memcpy_after data pos bs off n :
  0 <= pos -> pos + zlen bs <= zlen data -> pos + zlen bs <= off ->
  slice (memcpy data pos bs) off n = slice data off n.
Proof.
  intros Hp Hl Ho. unfold slice. rewrite zlen_memcpy by lia. case_if; [|done]. f_equal. bools.
  unfold memcpy, ztake, zdrop, zlen in *. f_equal.
  rewrite drop_app_ge by (rewrite length_take; lia). rewrite length_take, Nat.min_l by lia.
  rewrite drop_app_ge by lia. rewrite drop_drop. f_equal. lia.
Qed.

Lemma zlen_le_split n z : zlen (le_split n z) = Z.of_nat n.
Proof. unfold zlen. revert z. induction n as [|n IH]; intros z; cbn [le_split length]; [done |].
  specialize (IH (z / 256)). lia. Qed.

Lemma le_combine_split n z : 0 <= z < 256 ^ Z.of_nat n -> le_combine (le_split n z) = z.
Proof.
  revert z. induction n as [|n IH]; intros z Hz; cbn [le_split le_combine].
  { change (256 ^ Z.of_nat 0) with 1 in Hz. lia. }
  rewrite Nat2Z.inj_succ, Z.pow_succ_r in Hz by lia.
  rewrite IH; [lia |]. set (p := 256 ^ Z.of_nat n) in *. clearbody p. lia.
Qed.

Lemma le_combine_range l : Forall is_byte l -> 0 <= le_combine l < 256 ^ zlen l.
Proof.
  induction 1 as [|b l Hb Hl IH]; [done |]. cbn [le_combine]. unfold is_byte in Hb.
  rewrite zlen_cons, Z.pow_add_r by (pose proof (zlen_nonneg l); lia).
  change (256 ^ 1) with 256. lia.
Qed.

Lemma slice_Forall (P : Z -> Prop) data off n bs :
  Forall P data -> slice data off n = Some bs -> Forall P bs.
Proof.
  unfold slice. case_if; [|done]. intros Hf ?. simplify_eq. unfold ztake, zdrop.
  by apply Forall_take, Forall_drop.
Qed.

Lemma load_range data off n v :
  Forall is_byte data -> load data off n = Some v -> 0 <= v < 256 ^ n.
Proof.
  unfold load. intros Hb. destruct (slice data off n) as [bs|] eqn:Hs; [|done].
  intros [= <-]. pose proof (slice_Forall _ _ _ _ _ Hb Hs) as Hbs.
  apply slice_Some in Hs as (_ & _ & _ & <-). by apply le_combine_range.
Qed.

Lemma load_is_Some data off n :
  0 <= off -> 0 <= n -> off + n <= zlen data -> is_Some (load data off n).
Proof. intros. unfold load. destruct (slice_is_Some data off n) as [bs ->]; try done. Qed.

(** What a load reads after a store of the same width at the same place. *)
Lemma load_store_eq data pos n v :
  0 <= pos -> pos + Z.of_nat n <= zlen data -> 0 <= v < 256 ^ Z.of_nat n ->
  load (memcpy data pos (le_split n v)) pos (Z.of_nat n) = Some v.
Proof.
  intros. unfold load. rewrite <- (zlen_le_split n v).
  rewrite slice_memcpy_eq by (rewrite ?zlen_le_split; lia). cbn. by rewrite le_combine_split.
Qed.

Lemma Forall_memcpy (P : Z -> Prop) data pos bs :
  Forall P data -> Forall P bs -> Forall P (memcpy data pos bs).
Proof.
  intros. unfold memcpy, ztake, zdrop. rewrite !Forall_app.
  split_and!; [by apply Forall_take | done | by apply Forall_drop].
Qed.

Lemma le_split_bytes n z : Forall is_byte (le_split n z).
Proof.
  revert z. induction n as [|n IH]; intros z; constructor; [unfold is_byte; lia | apply IH].
Qed.

(** Deciding that a concrete list holds bytes. *)
Lemma bytes_check l : forallb (fun b => (0 <=? b) && (b <? 256)) l = true -> Forall is_byte l.
Proof. intros H. apply Forall_forall. intros x Hx%list_elem_of_In. unfold is_byte.
  rewrite forallb_forall in H. specialize (H x Hx). cbn beta in H. lia. Qed.

Lemma le_split_combine l : Forall is_byte l -> le_split (length l) (le_combine l) = l.
Proof.
  induction 1 as [|b l Hb Hl IH]; [done |]. cbn [length le_split le_combine]. unfold is_byte in Hb.
  f_equal; [lia |]. by replace ((b + 256 * le_combine l) / 256) with (le_combine l) by lia.
Qed.

(** ** [strcmp] as an order on strings of positive bytes *)
Definition pos_str (s : list Z) : Prop := Forall (fun b => 0 < b) s.

Lemma strcmp_opp a b : strcmp b a = - strcmp a b.
Proof.
  revert b. induction a as [|x a IH]; intros [|y b]; cbn; try lia.
  destruct (x =? y) eqn:E.
  - replace (y =? x) with true by lia. apply IH.
  - replace (y =? x) with false by lia. lia.
Qed.

Lemma strcmp_le_trans a b c :
  pos_str a -> pos_str b -> pos_str c -> strcmp a b <= 0 -> strcmp b c <= 0 -> strcmp a c <= 0.
Proof.
  revert b c. induction a as [|x a IH]; intros [|y b] [|z c] Ha Hb Hc; cbn; try lia;
    inversion Ha; inversion Hb; inversion Hc; subst; try lia.
  repeat case_if; try lia. intros. by apply (IH b).
Qed.

Lemma pos_no_nul s : pos_str s -> no_nul s.
Proof. intros H. eapply Forall_impl; [exact H |]. cbn. lia. Qed.

(** A string of bytes without a NUL. *)
Lemma cstr_pos l s : Forall is_byte l -> cstr l = Some s -> pos_str s.
Proof.
  intros Hb Hs. pose proof (cstr_no_nul _ _ Hs) as Hn. apply cstr_split in Hs as [l' ->].
  apply Forall_app in Hb as [Hb _]. unfold pos_str, no_nul in *.
  rewrite Forall_forall in *. intros x Hx. specialize (Hb x Hx). specialize (Hn x Hx). unfold is_byte in Hb. lia.
Qed.

(** ** Bit fields *)
Lemma lor_shift_add x n a : 0 <= n -> 0 <= a < 2 ^ n -> Z.lor (Z.shiftl x n) a = x * 2 ^ n + a.
Proof.
  intros Hn Ha. rewrite <- Z.shiftl_mul_pow2 by lia. symmetry. apply Z.add_nocarry_lor.
  apply Z.bits_inj'. intros i Hi. rewrite Z.land_spec, Z.bits_0. destruct (decide (i < n)).
  - rewrite Z.shiftl_spec_low by lia. done.
  - rewrite <- (Z.mod_small a (2 ^ n)) by lia. rewrite Z.mod_pow2_bits_high by lia. apply andb_false_r.
Qed.
