(* ===== verification/Hashmap.v ===== *)
(** * Hashmap: the chained hash table of [src/src/hashmap.c] and [hashmap.h]

    A table is an optional array of bucket chains ([buckets == NULL] is
    [None]); a chain is the list of its entries, head first, so that
    [hashmap_add_entry] is a cons and [hashmap_del_entry] removes one position.
    Keys and values are [long]s.  The hash and equality callbacks together with
    their [ctx] argument are the class [hash_ctx]; what a client promises about
    them is the class [HashLaws], on the keys the client calls valid.

    The theorems: the well-formedness invariant (every entry in its bucket,
    [sz] exact, load factor at most 3/4) is preserved by every operation; on
    tables with unique keys every branch of [hashmap_insert], [hashmap_find]
    and [hashmap_delete] behaves as the operations of a finite map; with
    [HASHMAP_APPEND] the table is a multimap whose per-key order is reversed by
    each growth. *)
From S2P Require Import Prelude.
Open Scope Z_scope.

(** ** The callbacks *)
Class hash_ctx := {
  hash_fn : Z -> Z;
  equal_fn : Z -> Z -> bool
}.

Class HashLaws (C : hash_ctx) (valid : Z -> Prop) := {
  equal_refl k : valid k -> equal_fn k k = true;
  equal_sym k1 k2 : valid k1 -> valid k2 -> equal_fn k1 k2 = true -> equal_fn k2 k1 = true;
  equal_trans k1 k2 k3 : valid k1 -> valid k2 -> valid k3 ->
    equal_fn k1 k2 = true -> equal_fn k2 k3 = true -> equal_fn k1 k3 = true;
  equal_hash k1 k2 : valid k1 -> valid k2 -> equal_fn k1 k2 = true -> hash_fn k1 = hash_fn k2
}.

(** ** hashmap.h *)

(** LP64: the upper [bits] bits of the 64-bit product. *)
Definition hash_bits (h : Z) (bits : Z) : Z :=
  if bits =? 0 then 0 else Z.shiftr (u64 (h * 11400714819323198485)) (8 * 8 - bits).

(** [*s] is a (signed) [char]. *)
Definition str_hash (s : list Z) : Z :=
  fold_left (fun h c => u64 (h * 31 + s8 c)) s 0.

Record hashmap_entry := Entry { key : Z; value : Z }.

Record hashmap := Hashmap {
  buckets : option (list (list hashmap_entry));
  cap : Z;
  cap_bits : Z;
  sz : Z
}.

Inductive hashmap_insert_strategy :=
| HASHMAP_ADD | HASHMAP_SET | HASHMAP_UPDATE | HASHMAP_APPEND.

Definition is_append (s : hashmap_insert_strategy) : bool :=
  match s with HASHMAP_APPEND => true | _ => false end.

(** ** hashmap.c *)
Definition HASHMAP_MIN_CAP_BITS : Z := 2.

(** [hashmap_add_entry(&buckets[h], entry)] *)
Definition hashmap_add_entry (bs : list (list hashmap_entry)) (h : Z) (e : hashmap_entry) :
  list (list hashmap_entry) :=
  match znth bs h with Some chain => zupd bs h (e :: chain) | None => bs end.

(** [hashmap_del_entry(pprev, entry)] where [pprev] is the [i]th link of the
    chain of bucket [h] *)
Definition hashmap_del_entry (bs : list (list hashmap_entry)) (h : Z) (i : nat) :
  list (list hashmap_entry) :=
  match znth bs h with Some chain => zupd bs h (delete i chain) | None => bs end.

Definition hashmap__init : hashmap := Hashmap None 0 0 0.

Definition hashmap__new (o : oracle) : result hashmap * oracle :=
  let '(ok, o) := alloc o in
  if negb ok then (Err ENOMEM, o) else (Ok hashmap__init, o).

Definition hashmap__clear (map : hashmap) : hashmap := Hashmap None 0 0 0.

Definition hashmap__size (map : hashmap) : Z := sz map.
Definition hashmap__capacity (map : hashmap) : Z := cap map.

Definition hashmap_needs_to_grow (map : hashmap) : bool :=
  (cap map =? 0) || (cap map <? u64 (u64 (sz map + 1) * 4) / 3).

(** The entries in the order of [hashmap__for_each_entry]. *)
Definition hashmap__for_each_entry (map : hashmap) : list hashmap_entry :=
  match buckets map with None => [] | Some bs => concat (ztake (cap map) bs) end.

Section Operations.
Context `{C : hash_ctx}.

(** The chain [hashmap__for_each_key_entry] walks, and the entries it visits. *)
Definition hashmap_chain (map : hashmap) (k : Z) : list hashmap_entry :=
  match buckets map with
  | None => []
  | Some bs => default [] (znth bs (hash_bits (hash_fn k) (cap_bits map)))
  end.

Definition hashmap__for_each_key_entry (map : hashmap) (k : Z) : list hashmap_entry :=
  filter (fun e => equal_fn (key e) k = true) (hashmap_chain map k).

Definition hashmap_grow (map : hashmap) (o : oracle) : Z * hashmap * oracle :=
  let new_cap_bits := u64 (cap_bits map + 1) in
  let new_cap_bits :=
    if new_cap_bits <? HASHMAP_MIN_CAP_BITS then HASHMAP_MIN_CAP_BITS else new_cap_bits in
  let new_cap := u64 (Z.shiftl 1 new_cap_bits) in
  let '(ok, o) := alloc_array new_cap 8 o in
  if negb ok then (- ENOMEM, map, o) else
  let new_buckets :=
    fold_left
      (fun nb cur => hashmap_add_entry nb (hash_bits (hash_fn (key cur)) new_cap_bits) cur)
      (hashmap__for_each_entry map) (replicate (Z.to_nat new_cap) []) in
  (0, Hashmap (Some new_buckets) new_cap new_cap_bits (sz map), o).

(** Position in the chain (the [pprev] link) and entry. *)
Fixpoint chain_find (k : Z) (chain : list hashmap_entry) : option (nat * hashmap_entry) :=
  match chain with
  | [] => None
  | cur :: next =>
      if equal_fn (key cur) k then Some (O, cur)
      else match chain_find k next with Some (i, e) => Some (S i, e) | None => None end
  end.

Definition hashmap_find_entry (map : hashmap) (k : Z) (hash : Z) : option (nat * hashmap_entry) :=
  match buckets map with
  | None => None
  | Some bs => match znth bs hash with Some chain => chain_find k chain | None => None end
  end.

(** [entry->key = key; entry->value = value] for the [i]th entry of bucket [h] *)
Definition hashmap_set_entry (map : hashmap) (h : Z) (i : nat) (e : hashmap_entry) : hashmap :=
  match buckets map with
  | None => map
  | Some bs =>
      match znth bs h with
      | Some chain => Hashmap (Some (zupd bs h (<[i := e]> chain))) (cap map) (cap_bits map) (sz map)
      | None => map
      end
  end.

Record insert_result := InsertResult {
  ins_ret : Z;
  ins_map : hashmap;
  ins_old_key : Z;
  ins_old_value : Z;
  ins_oracle : oracle
}.

(** The part of [hashmap_insert] after the lookup: grow, allocate, link. *)
Definition hashmap_insert_new (map : hashmap) (k v : Z) (old_key old_value : Z) (o : oracle) :
  insert_result :=
  let '(err, map, o) :=
    if hashmap_needs_to_grow map then hashmap_grow map o else (0, map, o) in
  if negb (err =? 0) then InsertResult err map old_key old_value o else
  let h := hash_bits (hash_fn k) (cap_bits map) in
  let '(ok, o) := alloc o in
  if negb ok then InsertResult (- ENOMEM) map old_key old_value o else
  let map' :=
    match buckets map with
    | Some bs => Hashmap (Some (hashmap_add_entry bs h (Entry k v))) (cap map) (cap_bits map)
                         (u64 (sz map + 1))
    | None => map
    end in
  InsertResult 0 map' old_key old_value o.

Definition hashmap_insert (map : hashmap) (k v : Z) (strategy : hashmap_insert_strategy)
  (o : oracle) : insert_result :=
  let h := hash_bits (hash_fn k) (cap_bits map) in
  match (if is_append strategy then None else hashmap_find_entry map k h) with
  | Some (i, entry) =>
      match strategy with
      | HASHMAP_SET | HASHMAP_UPDATE =>
          InsertResult 0 (hashmap_set_entry map h i (Entry k v)) (key entry) (value entry) o
      | _ => InsertResult (- EEXIST) map (key entry) (value entry) o
      end
  | None =>
      match strategy with
      | HASHMAP_UPDATE => InsertResult (- ENOENT) map 0 0 o
      | _ => hashmap_insert_new map k v 0 0 o
      end
  end.

Definition hashmap_find (map : hashmap) (k : Z) : option Z :=
  let h := hash_bits (hash_fn k) (cap_bits map) in
  match hashmap_find_entry map k h with
  | Some (_, entry) => Some (value entry)
  | None => None
  end.

(** Found flag with the old key and value, and the map. *)
Definition hashmap_delete (map : hashmap) (k : Z) : option (Z * Z) * hashmap :=
  let h := hash_bits (hash_fn k) (cap_bits map) in
  match hashmap_find_entry map k h, buckets map with
  | Some (i, entry), Some bs =>
      (Some (key entry, value entry),
       Hashmap (Some (hashmap_del_entry bs h i)) (cap map) (cap_bits map) (u64 (sz map - 1)))
  | _, _ => (None, map)
  end.
End Operations.

(** ** Invariant and abstraction *)
Section Invariant.
Context {C : hash_ctx} (valid : Z -> Prop).

(** The entries of an array of buckets that a lookup of [k] can see. *)
Definition bucket_entries (bs : list (list hashmap_entry)) (bits k : Z) : list hashmap_entry :=
  filter (fun e => equal_fn (key e) k = true)
         (default [] (znth bs (hash_bits (hash_fn k) bits))).

Record buckets_wf (bs : list (list hashmap_entry)) (bits : Z) : Prop := {
  bwf_bits : HASHMAP_MIN_CAP_BITS <= bits <= 60;
  bwf_len : zlen bs = 2 ^ bits;
  bwf_placed i c e : znth bs i = Some c -> e ∈ c ->
    valid (key e) /\ hash_bits (hash_fn (key e)) bits = i
}.

(** [sz] counts the entries, and [sz * 4 / 3 <= cap]: at most 75% filled. *)
Definition hashmap_wf (m : hashmap) : Prop :=
  match buckets m with
  | None => cap m = 0 /\ cap_bits m = 0 /\ sz m = 0
  | Some bs => buckets_wf bs (cap_bits m) /\ cap m = 2 ^ cap_bits m /\
               sz m = zlen (concat bs) /\ sz m * 4 / 3 <= cap m
  end.

(** Keys are unique up to [equal_fn]. *)
Definition hashmap_unique (m : hashmap) : Prop :=
  forall k, valid k -> (length (hashmap__for_each_key_entry m k) <= 1)%nat.

(** The finite map a table with unique keys stands for. *)
Definition hashmap_lookup (m : hashmap) (k : Z) : option hashmap_entry :=
  head (hashmap__for_each_key_entry m k).
End Invariant.

(** ** Bucket index *)

Lemma hash_bits_range h bits : 0 <= bits <= 64 -> 0 <= hash_bits h bits < 2 ^ bits.
Proof.
  intros Hb. unfold hash_bits. case_if; [pose proof (Z.pow_pos_nonneg 2 bits); lia |].
  rewrite Z.shiftr_div_pow2 by lia.
  pose proof (uwrap_range 64 (h * 11400714819323198485) ltac:(lia)) as Hu.
  pose proof (Z.pow_pos_nonneg 2 (8 * 8 - bits) ltac:(lia) ltac:(lia)).
  split; [apply Z.div_pos; lia |].
  apply Z.div_lt_upper_bound; [lia |].
  rewrite <- Z.pow_add_r by lia. replace (8 * 8 - bits + bits) with 64 by lia. lia.
Qed.

Lemma concat_insert_length {A} (bs : list (list A)) i c c' :
  bs !! i = Some c ->
  (length (concat (<[i := c']> bs)) + length c = length (concat bs) + length c')%nat.
Proof.
  revert i. induction bs as [|b bs IH]; intros [|i] H; simplify_eq/=;
    rewrite !length_app; [lia |]. specialize (IH _ H). lia.
Qed.

Lemma zconcat_zupd {A} (bs : list (list A)) h c c' :
  znth bs h = Some c -> zlen (concat (zupd bs h c')) = zlen (concat bs) - zlen c + zlen c'.
Proof.
  unfold znth, zupd, zlen. case_if; [done |]. intros H.
  pose proof (concat_insert_length bs _ c c' H). lia.
Qed.

Lemma elem_of_znth_concat {A} (bs : list (list A)) (e : A) :
  e ∈ concat bs <-> exists i c, znth bs i = Some c /\ e ∈ c.
Proof.
  rewrite list_elem_of_In, in_concat. split.
  - intros (c & Hc%list_elem_of_In & He%list_elem_of_In).
    apply list_elem_of_lookup in Hc as [i Hi]. exists (Z.of_nat i), c. split; [|done].
    unfold znth. case_if; [lia |]. by rewrite Nat2Z.id.
  - intros (i & c & Hi & He). exists c. rewrite <- !list_elem_of_In. split; [|done].
    unfold znth in Hi. case_if_in Hi; [done |]. by eapply list_elem_of_lookup_2.
Qed.

Section Proofs.
Context {C : hash_ctx} {valid : Z -> Prop} {L : HashLaws C valid}.
Implicit Types (bs : list (list hashmap_entry)) (e : hashmap_entry) (m : hashmap).

(** ** Chains *)
Lemma chain_find_spec k c :
  match chain_find k c with
  | Some (i, e) => c !! i = Some e /\ equal_fn (key e) k = true /\
      Forall (fun e => equal_fn (key e) k = false) (take i c)
  | None => Forall (fun e => equal_fn (key e) k = false) c
  end.
Proof.
  induction c as [|cur next IH]; cbn [chain_find]; [constructor |].
  case_if; [by repeat constructor |].
  destruct (chain_find k next) as [[i e]|]; [|by constructor].
  destruct IH as (? & ? & ?). split_and!; [done.. |]. by constructor.
Qed.

Lemma filter_none k c :
  Forall (fun e => equal_fn (key e) k = false) c ->
  filter (fun e => equal_fn (key e) k = true) c = [].
Proof.
  induction 1 as [|e c He Hc IH]; [done |]. rewrite filter_cons_False; congruence.
Qed.

(** The first matching entry heads the filtered chain. *)
Lemma chain_find_filter k c :
  match chain_find k c with
  | Some (i, e) =>
      filter (fun e => equal_fn (key e) k = true) c =
      e :: filter (fun e => equal_fn (key e) k = true) (drop (S i) c)
  | None => filter (fun e => equal_fn (key e) k = true) c = []
  end.
Proof.
  pose proof (chain_find_spec k c) as H. destruct (chain_find k c) as [[i e]|].
  - destruct H as (Hi & He & Hpre).
    rewrite <- (take_drop_middle c i e Hi) at 1.
    rewrite filter_app, filter_none by done. by rewrite filter_cons_True.
  - by apply filter_none.
Qed.

Lemma find_entry_lookup m k :
  snd <$> hashmap_find_entry m k (hash_bits (hash_fn k) (cap_bits m)) = hashmap_lookup m k.
Proof.
  unfold hashmap_find_entry, hashmap_lookup, hashmap__for_each_key_entry, hashmap_chain.
  destruct (buckets m) as [bs|]; [|done].
  destruct (znth bs _) as [c|]; [|done]. unfold default, id.
  pose proof (chain_find_filter k c) as H.
  destruct (chain_find k c) as [[i e]|]; by rewrite H.
Qed.

Lemma hashmap_find_lookup m k : hashmap_find m k = value <$> hashmap_lookup m k.
Proof.
  rewrite <- find_entry_lookup. unfold hashmap_find.
  by destruct (hashmap_find_entry _ _ _) as [[i e]|].
Qed.

Lemma key_entries_buckets m bs k :
  buckets m = Some bs ->
  hashmap__for_each_key_entry m k = bucket_entries bs (cap_bits m) k.
Proof. intros H. unfold hashmap__for_each_key_entry, hashmap_chain. by rewrite H. Qed.

(** ** Bucket arrays *)
Lemma bwf_znth bs bits k :
  buckets_wf valid bs bits -> is_Some (znth bs (hash_bits (hash_fn k) bits)).
Proof.
  intros [Hb Hl _]. apply znth_is_Some. rewrite Hl. apply hash_bits_range.
  unfold HASHMAP_MIN_CAP_BITS in Hb. lia.
Qed.

Lemma bwf_upd bs bits h c c' :
  buckets_wf valid bs bits -> znth bs h = Some c ->
  (forall e, e ∈ c' -> valid (key e) /\ hash_bits (hash_fn (key e)) bits = h) ->
  buckets_wf valid (zupd bs h c') bits.
Proof.
  intros [Hb Hl Hp] Hc He. split; [done | by rewrite zlen_zupd |].
  intros i ci e Hi Hin. destruct (decide (i = h)) as [->|Hne].
  - rewrite znth_zupd_eq in Hi by (by eapply znth_Some). simplify_eq. by apply He.
  - rewrite znth_zupd_ne in Hi by done. by eapply Hp.
Qed.

Lemma bwf_replicate bits :
  HASHMAP_MIN_CAP_BITS <= bits <= 60 ->
  buckets_wf valid (replicate (Z.to_nat (2 ^ bits)) []) bits.
Proof.
  unfold HASHMAP_MIN_CAP_BITS. intros Hb. split; [done | |].
  - rewrite zlen_replicate. pose proof (Z.pow_pos_nonneg 2 bits). lia.
  - intros i c e Hi He. unfold znth in Hi. case_if_in Hi; [done |].
    apply lookup_replicate in Hi as [-> _]. by apply not_elem_of_nil in He.
Qed.

Lemma add_entry_wf bs bits e :
  buckets_wf valid bs bits -> valid (key e) ->
  buckets_wf valid (hashmap_add_entry bs (hash_bits (hash_fn (key e)) bits) e) bits.
Proof.
  intros Hw Hv. unfold hashmap_add_entry.
  destruct (bwf_znth bs bits (key e) Hw) as [c Hc]. rewrite Hc.
  eapply bwf_upd; [done.. |]. intros e' [->|He']%elem_of_cons; [done |].
  by eapply bwf_placed.
Qed.

Lemma add_entry_count bs bits e :
  buckets_wf valid bs bits ->
  zlen (concat (hashmap_add_entry bs (hash_bits (hash_fn (key e)) bits) e)) =
  zlen (concat bs) + 1.
Proof.
  intros Hw. unfold hashmap_add_entry.
  destruct (bwf_znth bs bits (key e) Hw) as [c Hc]. rewrite Hc.
  rewrite (zconcat_zupd _ _ c) by done. rewrite zlen_cons. lia.
Qed.

Lemma add_entry_entries bs bits e k :
  buckets_wf valid bs bits -> valid (key e) -> valid k ->
  bucket_entries (hashmap_add_entry bs (hash_bits (hash_fn (key e)) bits) e) bits k =
  if equal_fn (key e) k then e :: bucket_entries bs bits k else bucket_entries bs bits k.
Proof.
  intros Hw He Hk. unfold hashmap_add_entry, bucket_entries.
  destruct (bwf_znth bs bits (key e) Hw) as [c Hc]. rewrite Hc.
  destruct (decide (hash_bits (hash_fn (key e)) bits = hash_bits (hash_fn k) bits)) as [Heq|Hne].
  - rewrite <- Heq, znth_zupd_eq by (by eapply znth_Some). rewrite Hc. unfold default, id.
    case_if; [by rewrite filter_cons_True | by rewrite filter_cons_False by congruence].
  - rewrite znth_zupd_ne by done. case_if; [|done].
    exfalso. apply Hne. by rewrite (equal_hash (key e) k).
Qed.

(** Only one bucket holds entries a lookup of [k] can match. *)
Lemma concat_entries bs bits k :
  buckets_wf valid bs bits -> valid k ->
  filter (fun e => equal_fn (key e) k = true) (concat bs) = bucket_entries bs bits k.
Proof.
  intros Hw Hk. unfold bucket_entries.
  destruct (bwf_znth bs bits k Hw) as [c Hc]. rewrite Hc. unfold default, id.
  pose proof Hc as Hr. apply znth_Some in Hr.
  unfold znth in Hc. case_if_in Hc; [done |].
  assert (Hother : forall j cj, bs !! j = Some cj -> j <> Z.to_nat (hash_bits (hash_fn k) bits) ->
    filter (fun e => equal_fn (key e) k = true) cj = []).
  { intros j cj Hj Hne. apply filter_none, Forall_forall. intros e He.
    destruct (equal_fn (key e) k) eqn:E; [|done]. exfalso. apply Hne.
    destruct (bwf_placed _ _ _ Hw (Z.of_nat j) cj e) as [Hv Hh]; [|done|].
    { unfold znth. case_if; [lia |]. by rewrite Nat2Z.id. }
    rewrite (equal_hash (key e) k) in Hh by done. lia. }
  clear Hw Hr. revert Hc Hother. generalize (Z.to_nat (hash_bits (hash_fn k) bits)).
  induction bs as [|b bs IH]; intros [|n] Hc Ho; simplify_eq/=; rewrite filter_app.
  - rewrite (filter_none k (concat bs)); [by rewrite app_nil_r |].
    apply Forall_forall. intros e (j & cj & Hj & He)%elem_of_znth_concat.
    unfold znth in Hj. case_if_in Hj; [done |].
    specialize (Ho (S (Z.to_nat j)) cj Hj ltac:(lia)).
    destruct (equal_fn (key e) k) eqn:E; [|done].
    assert (e ∈ filter (fun e => equal_fn (key e) k = true) cj) as Hin
      by (by apply list_elem_of_filter).
    rewrite Ho in Hin. by apply not_elem_of_nil in Hin.
  - rewrite (Ho 0%nat b) by (done || lia). cbn. apply (IH n); [done |].
    intros j cj Hj Hne. apply (Ho (S j) cj); [done | lia].
Qed.

(** ** Growth *)
Lemma fold_add_wf es bs bits :
  buckets_wf valid bs bits -> Forall (fun e => valid (key e)) es ->
  let bs' := fold_left
    (fun nb cur => hashmap_add_entry nb (hash_bits (hash_fn (key cur)) bits) cur) es bs in
  buckets_wf valid bs' bits /\ zlen (concat bs') = zlen es + zlen (concat bs) /\
  forall k, valid k ->
    bucket_entries bs' bits k =
    reverse (filter (fun e => equal_fn (key e) k = true) es) ++ bucket_entries bs bits k.
Proof.
  intros Hw Hes. revert bs Hw. induction Hes as [|e es He Hes IH]; intros bs Hw; cbn [fold_left].
  { split_and!; [done | rewrite zlen_nil; lia | done]. }
  destruct (IH _ (add_entry_wf bs bits e Hw He)) as (Hw' & Hc & Hk).
  split_and!; [done | rewrite Hc, (add_entry_count bs bits e Hw), zlen_cons; lia |].
  intros k Hv. rewrite Hk, add_entry_entries by done.
  case_if; [|by rewrite filter_cons_False by congruence].
  rewrite filter_cons_True, reverse_cons by done. by rewrite <- app_assoc.
Qed.

Lemma concat_replicate_nil {A} n : concat (replicate n (@nil A)) = [].
Proof. by induction n. Qed.

Lemma bucket_entries_replicate n bits k :
  bucket_entries (replicate n []) bits k = [].
Proof.
  unfold bucket_entries, znth. case_if; [done |].
  destruct (replicate n [] !! _) as [c|] eqn:E; [|done].
  by apply lookup_replicate in E as [-> _].
Qed.

Lemma wf_valid_entries bs bits :
  buckets_wf valid bs bits -> Forall (fun e => valid (key e)) (concat bs).
Proof.
  intros Hw. apply Forall_forall. intros e (i & c & Hi & He)%elem_of_znth_concat.
  by eapply bwf_placed.
Qed.

Lemma for_each_entry_concat m bs :
  hashmap_wf valid m -> buckets m = Some bs -> hashmap__for_each_entry m = concat bs.
Proof.
  unfold hashmap_wf, hashmap__for_each_entry. intros Hw Hb. rewrite Hb in *.
  destruct Hw as (Hw & Hcap & _). unfold ztake. rewrite take_ge; [done |].
  rewrite Hcap, <- (bwf_len _ _ _ Hw). unfold zlen. lia.
Qed.

(** The new capacity after a growth. *)
Definition grown_bits (m : hashmap) : Z := Z.max HASHMAP_MIN_CAP_BITS (cap_bits m + 1).

Lemma wf_cap_bits m : hashmap_wf valid m -> 0 <= cap_bits m <= 60.
Proof.
  unfold hashmap_wf. destruct (buckets m); [|lia].
  intros ([Hb _ _] & _). unfold HASHMAP_MIN_CAP_BITS in Hb. lia.
Qed.

Lemma pow2_le_60 b : 0 <= b <= 60 -> 1 <= 2 ^ b <= 1152921504606846976.
Proof.
  intros Hb. pose proof (Z.pow_pos_nonneg 2 b ltac:(lia) ltac:(lia)).
  pose proof (Z.pow_le_mono_r 2 b 60 ltac:(lia) ltac:(lia)) as H1.
  change (2 ^ 60) with 1152921504606846976 in H1. lia.
Qed.

Lemma alloc_elem o ok o' :
  alloc o = (ok, o') -> (forall b, b ∈ o' -> b ∈ o) /\ (ok = false -> false ∈ o).
Proof.
  destruct o as [|b o]; cbn; intros H; simplify_eq; [done |].
  split; [intros b' ?; by constructor | intros ->; constructor].
Qed.

(** A growth either fails and changes nothing, or doubles the capacity and
    reverses the entries of every key. *)
Lemma hashmap_grow_spec m o :
  hashmap_wf valid m ->
  let '(err, m', o') := hashmap_grow m o in
  (err = - ENOMEM /\ m' = m /\ (false ∈ o \/ cap_bits m = 60)) \/
  (err = 0 /\ (forall b, b ∈ o' -> b ∈ o) /\ exists bs', buckets m' = Some bs' /\
     buckets_wf valid bs' (cap_bits m') /\ cap_bits m' = grown_bits m /\
     cap m' = 2 ^ cap_bits m' /\ sz m' = sz m /\ sz m = zlen (concat bs') /\
     forall k, valid k ->
       hashmap__for_each_key_entry m' k = reverse (hashmap__for_each_key_entry m k)).
Proof.
  intros Hw. pose proof (wf_cap_bits m Hw) as Hcb. unfold hashmap_grow.
  rewrite (u64_small (cap_bits m + 1)) by lia.
  set (nb := if cap_bits m + 1 <? HASHMAP_MIN_CAP_BITS then HASHMAP_MIN_CAP_BITS
             else cap_bits m + 1).
  assert (Hnb : nb = grown_bits m).
  { unfold nb, grown_bits, HASHMAP_MIN_CAP_BITS. case_if; lia. }
  assert (Hr : 2 <= nb <= 61). { rewrite Hnb. unfold grown_bits, HASHMAP_MIN_CAP_BITS. lia. }
  rewrite Z.shiftl_1_l.
  pose proof (Z.pow_pos_nonneg 2 nb ltac:(lia) ltac:(lia)) as Hpos.
  pose proof (Z.pow_le_mono_r 2 nb 61 ltac:(lia) ltac:(lia)) as H61.
  change (2 ^ 61) with 2305843009213693952 in H61.
  rewrite (u64_small (2 ^ nb)) by lia.
  destruct (alloc_array (2 ^ nb) 8 o) as [ok o'] eqn:Ho.
  assert (Hcase : (SIZE_MAX <? 2 ^ nb * 8) = true -> cap_bits m = 60).
  { intros Hmax. destruct (decide (nb = 61)) as [H1|].
    - rewrite Hnb in H1. unfold grown_bits, HASHMAP_MIN_CAP_BITS in H1. lia.
    - pose proof (Z.pow_le_mono_r 2 nb 60 ltac:(lia) ltac:(lia)) as H60'.
      change (2 ^ 60) with 1152921504606846976 in H60'. unfold SIZE_MAX in Hmax. lia. }
  unfold alloc_array in Ho. destruct (SIZE_MAX <? 2 ^ nb * 8) eqn:Hmax.
  { simplify_eq. left. split_and!; [done..|]. right. by apply Hcase. }
  destruct (alloc_elem o ok o' Ho) as [Hsub Hfail].
  destruct ok; cbn [negb]; [|left; auto]. right. split_and!; [done | done |].
  assert (nb <= 60) as H60.
  { destruct (decide (nb = 61)) as [Heq|]; [|lia]. rewrite Heq in Hmax. by vm_compute in Hmax. }
  assert (Hes : exists es, hashmap__for_each_entry m = es /\ zlen es = sz m /\
    Forall (fun e => valid (key e)) es /\
    forall k, valid k -> filter (fun e => equal_fn (key e) k = true) es =
                         hashmap__for_each_key_entry m k).
  { destruct (buckets m) as [bs|] eqn:Hb.
    - exists (concat bs). rewrite (for_each_entry_concat m bs) by done.
      pose proof Hw as Hw0. unfold hashmap_wf in Hw0. rewrite Hb in Hw0.
      destruct Hw0 as (Hbw & _ & Hsz & _). split_and!; [done.. | |].
      + by eapply wf_valid_entries.
      + intros k Hk. rewrite (concat_entries bs (cap_bits m)) by done.
        by rewrite (key_entries_buckets m bs).
    - exists []. unfold hashmap__for_each_entry, hashmap__for_each_key_entry, hashmap_chain.
      unfold hashmap_wf in Hw. rewrite Hb in *.
      split_and!; [done | rewrite zlen_nil; lia | constructor | done]. }
  destruct Hes as (es & -> & Hsz & Hval & Hfil).
  destruct (fold_add_wf es (replicate (Z.to_nat (2 ^ nb)) []) nb) as (Hbw & Hcnt & Hk);
    [apply bwf_replicate; unfold HASHMAP_MIN_CAP_BITS; lia | done |].
  eexists. cbn [buckets cap cap_bits sz]. split_and!; try done.
  - rewrite Hcnt, concat_replicate_nil, zlen_nil. lia.
  - intros k Hv. erewrite key_entries_buckets by done. cbn [cap_bits].
    by rewrite Hk, bucket_entries_replicate, app_nil_r, Hfil.
Qed.

(** ** Insertion of a new entry *)
Lemma wf_sz_bound m : hashmap_wf valid m -> 0 <= sz m <= 1152921504606846976.
Proof.
  intros Hw. pose proof (pow2_le_60 _ (wf_cap_bits m Hw)).
  unfold hashmap_wf in Hw. destruct (buckets m) as [bs|]; [|lia].
  destruct Hw as (_ & Hc & Hs & Hl). pose proof (zlen_nonneg (concat bs)). lia.
Qed.

Lemma needs_to_grow_false m :
  hashmap_wf valid m -> hashmap_needs_to_grow m = false ->
  exists bs, buckets m = Some bs /\ (sz m + 1) * 4 / 3 <= cap m.
Proof.
  intros Hw. pose proof (wf_sz_bound m Hw). unfold hashmap_needs_to_grow.
  rewrite (u64_small (sz m + 1)), u64_small by lia. intros Hg.
  unfold hashmap_wf in Hw. destruct (buckets m) as [bs|]; [|lia].
  exists bs. split; [done | lia].
Qed.

(** Whether the entries of every key were reversed on the way. *)
Definition maybe_reverse (rv : bool) (es : list hashmap_entry) : list hashmap_entry :=
  if rv then reverse es else es.

Definition same_entries (rv : bool) (m m' : hashmap) : Prop :=
  forall k, valid k ->
    hashmap__for_each_key_entry m' k = maybe_reverse rv (hashmap__for_each_key_entry m k).

(** The table [hashmap_insert] links the new entry into. *)
Lemma insert_room m o :
  hashmap_wf valid m ->
  let '(err, m', o') := if hashmap_needs_to_grow m then hashmap_grow m o else (0, m, o) in
  (err = - ENOMEM /\ m' = m /\ (false ∈ o \/ cap_bits m = 60)) \/
  (err = 0 /\ (forall b, b ∈ o' -> b ∈ o) /\ hashmap_wf valid m' /\ sz m' = sz m /\
   same_entries (hashmap_needs_to_grow m) m m' /\
   exists bs, buckets m' = Some bs /\ (sz m + 1) * 4 / 3 <= cap m').
Proof.
  intros Hw. destruct (hashmap_needs_to_grow m) eqn:Hg.
  - pose proof (hashmap_grow_spec m o Hw) as Hs.
    destruct (hashmap_grow m o) as [[err m'] o'].
    destruct Hs as [?|(-> & Hsub & bs' & Hb & Hbw & Hbits & Hcap & Hsz & Hcnt & Hk)]; [by left |].
    right. split; [done |]. split; [done |].
    assert (Hroom : (sz m + 1) * 4 / 3 <= cap m').
    { rewrite Hcap, Hbits. unfold grown_bits, HASHMAP_MIN_CAP_BITS.
      unfold hashmap_wf in Hw. destruct (buckets m) as [bs|].
      - destruct Hw as ([Hr _ _] & Hc & _ & Hl). unfold HASHMAP_MIN_CAP_BITS in Hr.
        rewrite Z.max_r by lia. rewrite Z.pow_add_r by lia.
        pose proof (Z.pow_le_mono_r 2 2 (cap_bits m) ltac:(lia) ltac:(lia)) as H4.
        change (2 ^ 2) with 4 in H4. change (2 ^ 1) with 2. lia.
      - destruct Hw as (_ & -> & ->). by vm_compute. }
    assert (hashmap_wf valid m'); [|split_and!; [done..|by exists bs']].
    unfold hashmap_wf. rewrite Hb. split_and!; [done.. | congruence |].
    rewrite Hsz. etransitivity; [|exact Hroom]. apply Z.div_le_mono; lia.
  - right. destruct (needs_to_grow_false m Hw Hg) as (bs & Hb & Hl).
    split_and!; [done.. | by exists bs].
Qed.

Lemma insert_new_spec m k v ok ov o :
  hashmap_wf valid m -> valid k ->
  let r := hashmap_insert_new m k v ok ov o in
  let g := hashmap_needs_to_grow m in
  ins_old_key r = ok /\ ins_old_value r = ov /\ hashmap_wf valid (ins_map r) /\
  ((ins_ret r = - ENOMEM /\ (false ∈ o \/ cap_bits m = 60) /\ sz (ins_map r) = sz m /\
    exists rv, same_entries rv m (ins_map r)) \/
   (ins_ret r = 0 /\ sz (ins_map r) = sz m + 1 /\
    forall k', valid k' ->
      hashmap__for_each_key_entry (ins_map r) k' =
      (if equal_fn k k' then [Entry k v] else []) ++
      maybe_reverse g (hashmap__for_each_key_entry m k'))).
Proof.
  intros Hw Hk. unfold hashmap_insert_new. pose proof (insert_room m o Hw) as Hr.
  destruct (if hashmap_needs_to_grow m then _ else _) as [[err m1] o1].
  destruct Hr as [(-> & -> & Hf)|(-> & Hsub & Hw1 & Hsz & Hes & bs & Hb & Hroom)].
  { cbn -[sz]. split_and!; [done.. |]. left. split_and!; [done.. |]. by exists false. }
  cbn [Z.eqb negb]. destruct (alloc o1) as [[|] o2] eqn:Ho; cbn [negb].
  2: { destruct (alloc_elem _ _ _ Ho) as [_ Hf]. cbn -[sz]. split_and!; [done.. |]. left.
       split_and!; [done | left; by apply Hsub, Hf | done | by eexists]. }
  rewrite Hb. cbn [ins_ret ins_map ins_old_key ins_old_value sz].
  pose proof (wf_sz_bound m Hw) as Hbound. rewrite Hsz, u64_small by lia.
  pose proof Hw1 as Hw1'. unfold hashmap_wf in Hw1'. rewrite Hb in Hw1'.
  destruct Hw1' as (Hbw & Hcap & Hcnt & Hld).
  split_and!; [done | done | |right; split_and!; [done.. |]].
  - unfold hashmap_wf. cbn [buckets cap cap_bits sz]. split_and!; [|done| |done].
    + by apply (add_entry_wf bs (cap_bits m1) (Entry k v)).
    + pose proof (add_entry_count bs (cap_bits m1) (Entry k v) Hbw) as Hadd.
      cbn [key] in Hadd. lia.
  - intros k' Hk'. erewrite key_entries_buckets by done. cbn [cap_bits].
    pose proof (add_entry_entries bs (cap_bits m1) (Entry k v) k' Hbw Hk Hk') as Hadd.
    cbn [key] in Hadd. rewrite Hadd.
    rewrite <- (key_entries_buckets m1 bs) by done. rewrite Hes by done.
    by case_if.
Qed.

(** How far an insertion can enlarge the table. *)
Lemma insert_new_cap m k v ok ov o :
  hashmap_wf valid m ->
  cap (ins_map (hashmap_insert_new m k v ok ov o)) <=
  Z.max (cap m) (Z.max 4 (2 * ((sz m + 1) * 4 / 3))).
Proof.
  intros Hw. pose proof (wf_sz_bound m Hw) as Hb. unfold hashmap_insert_new.
  destruct (hashmap_needs_to_grow m) eqn:Hg.
  - pose proof (hashmap_grow_spec m o Hw) as Hs. destruct (hashmap_grow m o) as [[err m'] o'].
    assert (Hc : cap m' <= Z.max (cap m) (Z.max 4 (2 * ((sz m + 1) * 4 / 3)))).
    { destruct Hs as [(_ & -> & _)|(_ & _ & bs' & _ & _ & Hbits & Hcap & _)]; [lia |].
      unfold hashmap_needs_to_grow in Hg. rewrite (u64_small (sz m + 1)), u64_small in Hg by lia.
      rewrite Hcap, Hbits. unfold grown_bits, HASHMAP_MIN_CAP_BITS.
      unfold hashmap_wf in Hw. destruct (buckets m) as [bs|].
      - destruct Hw as ([Hr _ _] & Hc & _). unfold HASHMAP_MIN_CAP_BITS in Hr.
        rewrite Z.max_r, Z.pow_add_r by lia. rewrite <- Hc. change (2 ^ 1) with 2.
        pose proof (Z.pow_pos_nonneg 2 (cap_bits m)). lia.
      - destruct Hw as (_ & -> & ->). change (2 ^ Z.max 2 (0 + 1)) with 4. lia. }
    case_if; [done |]. destruct (alloc o') as [[|] o'']; cbn [negb]; [|done].
    by destruct (buckets m').
  - cbn [Z.eqb negb]. destruct (alloc o) as [[|] o'']; cbn [negb]; [|cbn; lia].
    destruct (buckets m); cbn; lia.
Qed.

(** ** Update in place and deletion *)
Lemma find_entry_Some m k i e :
  hashmap_find_entry m k (hash_bits (hash_fn k) (cap_bits m)) = Some (i, e) ->
  exists bs c, buckets m = Some bs /\ znth bs (hash_bits (hash_fn k) (cap_bits m)) = Some c /\
    c !! i = Some e /\ equal_fn (key e) k = true /\
    Forall (fun e => equal_fn (key e) k = false) (take i c).
Proof.
  unfold hashmap_find_entry. destruct (buckets m) as [bs|]; [|done].
  destruct (znth bs _) as [c|] eqn:Hc; [|done]. intros Hf.
  pose proof (chain_find_spec k c) as Hs. rewrite Hf in Hs. by exists bs, c.
Qed.

(** Replacing the [i]th entry [e] of the chain of [k], which equals [k], by a
    list of entries that equal [k]: the effect on the entries of every key. *)
Lemma splice_entries bs bits k i e c mid k' :
  buckets_wf valid bs bits -> valid k -> valid k' ->
  znth bs (hash_bits (hash_fn k) bits) = Some c -> c !! i = Some e ->
  equal_fn (key e) k = true -> Forall (fun e => equal_fn (key e) k = false) (take i c) ->
  Forall (fun e' => valid (key e') /\ equal_fn (key e') k = true) mid ->
  bucket_entries (zupd bs (hash_bits (hash_fn k) bits) (take i c ++ mid ++ drop (S i) c)) bits k' =
  if equal_fn k k' then mid ++ tail (bucket_entries bs bits k') else bucket_entries bs bits k'.
Proof.
  intros Hbw Hk Hk' Hc Hi He Hpre Hmid. unfold bucket_entries.
  destruct (bwf_placed _ _ _ Hbw _ c e Hc) as [Hev _]; [by eapply list_elem_of_lookup_2 |].
  assert (Hcv : forall e', e' ∈ c -> valid (key e')).
  { intros e' He'. by eapply (bwf_placed _ _ _ Hbw _ c e' Hc). }
  destruct (equal_fn k k') eqn:Ekk.
  - rewrite <- (equal_hash k k') by done. rewrite znth_zupd_eq by (by eapply znth_Some).
    rewrite Hc. unfold default, id. rewrite <- (take_drop_middle c i e Hi) at 3.
    rewrite !filter_app.
    rewrite (filter_none k' (take i c)).
    2: { rewrite Forall_forall in Hpre |- *. intros x Hx.
         destruct (equal_fn (key x) k') eqn:E; [|done]. rewrite <- (Hpre x Hx).
         assert (x ∈ c) by (rewrite <- (take_drop i c); apply elem_of_app; by left).
         symmetry. apply (equal_trans (key x) k' k); auto. by apply equal_sym. }
    rewrite filter_cons_True by (by apply (equal_trans (key e) k k')). cbn [app tail]. f_equal.
    induction Hmid as [|x mid [Hx Hxk] Hm IH]; [done |].
    rewrite filter_cons_True by (by apply (equal_trans (key x) k k')). by rewrite IH.
  - destruct (decide (hash_bits (hash_fn k) bits = hash_bits (hash_fn k') bits)) as [Heq|Hne].
    2: by rewrite znth_zupd_ne.
    rewrite <- Heq, znth_zupd_eq by (by eapply znth_Some). rewrite Hc.
    unfold default, id. rewrite <- (take_drop_middle c i e Hi) at 3. rewrite !filter_app.
    assert (Hno : forall x, valid (key x) -> equal_fn (key x) k = true -> equal_fn (key x) k' = false).
    { intros x Hx Hxk. destruct (equal_fn (key x) k') eqn:E; [|done].
      rewrite <- Ekk. symmetry. apply (equal_trans k (key x) k'); auto. by apply equal_sym. }
    rewrite filter_cons_False by (rewrite Hno; done).
    rewrite (filter_none k' mid); [done |].
    eapply Forall_impl; [done |]. intros x [? ?]. by apply Hno.
Qed.

(** Replacing the found entry by [mid], the entries that follow being kept. *)
Lemma splice_wf m k i e mid bs c sz' :
  hashmap_wf valid m -> valid k ->
  buckets m = Some bs -> znth bs (hash_bits (hash_fn k) (cap_bits m)) = Some c ->
  c !! i = Some e ->
  Forall (fun e' => valid (key e') /\ equal_fn (key e') k = true) mid ->
  sz' = sz m - 1 + zlen mid -> zlen mid <= 1 ->
  hashmap_wf valid
    (Hashmap (Some (zupd bs (hash_bits (hash_fn k) (cap_bits m)) (take i c ++ mid ++ drop (S i) c)))
             (cap m) (cap_bits m) sz').
Proof.
  intros Hw Hk Hb Hc Hi Hmid -> Hlen. unfold hashmap_wf in *. rewrite Hb in Hw.
  destruct Hw as (Hbw & Hcap & Hsz & Hld). cbn [buckets cap cap_bits sz].
  split_and!; [|done| |].
  - eapply bwf_upd; [done.. |]. intros x Hx.
    assert (x ∈ c \/ x ∈ mid) as [Hxc|Hxm].
    { rewrite <- (take_drop_middle c i e Hi). rewrite !elem_of_app in *. rewrite elem_of_cons.
      tauto. }
    + by eapply bwf_placed.
    + rewrite Forall_forall in Hmid. destruct (Hmid x Hxm) as [Hv Hq]. split; [done |].
      by rewrite (equal_hash (key x) k).
  - rewrite (zconcat_zupd _ _ c) by done.
    assert (Hl : zlen c = zlen (take i c) + 1 + zlen (drop (S i) c)).
    { rewrite <- (take_drop_middle c i e Hi) at 1. rewrite zlen_app, zlen_cons. lia. }
    rewrite !zlen_app. lia.
  - etransitivity; [|exact Hld]. apply Z.div_le_mono; lia.
Qed.

Lemma set_entry_spec m k v i e :
  hashmap_wf valid m -> valid k ->
  hashmap_find_entry m k (hash_bits (hash_fn k) (cap_bits m)) = Some (i, e) ->
  let m' := hashmap_set_entry m (hash_bits (hash_fn k) (cap_bits m)) i (Entry k v) in
  hashmap_wf valid m' /\ sz m' = sz m /\
  forall k', valid k' ->
    hashmap__for_each_key_entry m' k' =
    if equal_fn k k' then Entry k v :: tail (hashmap__for_each_key_entry m k')
    else hashmap__for_each_key_entry m k'.
Proof.
  intros Hw Hk Hf m'. destruct (find_entry_Some _ _ _ _ Hf) as (bs & c & Hb & Hc & Hi & He & Hpre).
  assert (Hmid : Forall (fun e' => valid (key e') /\ equal_fn (key e') k = true) [Entry k v]).
  { constructor; [|done]. split; [done |]. by apply equal_refl. }
  assert (Hm' : m' = Hashmap (Some (zupd bs (hash_bits (hash_fn k) (cap_bits m))
      (take i c ++ [Entry k v] ++ drop (S i) c))) (cap m) (cap_bits m) (sz m)).
  { unfold m', hashmap_set_entry. rewrite Hb, Hc, insert_take_drop; [done |].
    by eapply lookup_lt_Some. }
  rewrite Hm'. split_and!; [|done|].
  - eapply splice_wf; [done..| |]; unfold zlen; cbn [length]; lia.
  - intros k' Hk'. erewrite key_entries_buckets by done. cbn [cap_bits].
    unfold hashmap_wf in Hw. rewrite Hb in Hw. destruct Hw as [Hbw _].
    rewrite (splice_entries bs (cap_bits m) k i e c) by done.
    by rewrite (key_entries_buckets m bs).
Qed.

Lemma delete_entry_spec m k i e :
  hashmap_wf valid m -> valid k ->
  hashmap_find_entry m k (hash_bits (hash_fn k) (cap_bits m)) = Some (i, e) ->
  let '(r, m') := hashmap_delete m k in
  r = Some (key e, value e) /\ hashmap_wf valid m' /\ sz m' = sz m - 1 /\
  forall k', valid k' ->
    hashmap__for_each_key_entry m' k' =
    if equal_fn k k' then tail (hashmap__for_each_key_entry m k')
    else hashmap__for_each_key_entry m k'.
Proof.
  intros Hw Hk Hf. unfold hashmap_delete. rewrite Hf.
  destruct (find_entry_Some _ _ _ _ Hf) as (bs & c & Hb & Hc & Hi & He & Hpre).
  rewrite Hb. unfold hashmap_del_entry. rewrite Hc, delete_take_drop.
  change (drop (S i) c) with ([] ++ drop (S i) c).
  assert (Hone : 1 <= sz m).
  { pose proof Hw as Hw'. unfold hashmap_wf in Hw'. rewrite Hb in Hw'.
    destruct Hw' as (_ & _ & -> & _).
    assert (e ∈ concat bs) as Hin
      by (apply elem_of_znth_concat; eauto using list_elem_of_lookup_2).
    destruct (concat bs); [by apply not_elem_of_nil in Hin |].
    rewrite zlen_cons. pose proof (zlen_nonneg l). lia. }
  pose proof (wf_sz_bound m Hw). rewrite u64_small by lia.
  split_and!; [done| |done|].
  - eapply splice_wf; [done..|by constructor| |]; unfold zlen; cbn [length]; lia.
  - intros k' Hk'. erewrite key_entries_buckets by done. cbn [cap_bits].
    unfold hashmap_wf in Hw. rewrite Hb in Hw. destruct Hw as [Hbw _].
    rewrite (splice_entries bs (cap_bits m) k i e c) by done.
    by rewrite (key_entries_buckets m bs).
Qed.

(** ** Refinement of a finite map *)

(** The abstract state: the entry stored for each key. *)
Definition amap := Z -> option hashmap_entry.

Definition amap_set (a : amap) (k : Z) (oe : option hashmap_entry) : amap :=
  fun k' => if equal_fn k k' then oe else a k'.

(** Return value, new map, old key and old value of each strategy. *)
Definition amap_insert (a : amap) (k v : Z) (st : hashmap_insert_strategy) : Z * amap * Z * Z :=
  match st, a k with
  | HASHMAP_ADD, Some e => (- EEXIST, a, key e, value e)
  | HASHMAP_UPDATE, None => (- ENOENT, a, 0, 0)
  | _, Some e => (0, amap_set a k (Some (Entry k v)), key e, value e)
  | _, None => (0, amap_set a k (Some (Entry k v)), 0, 0)
  end.

Definition hashmap_repr (m : hashmap) (a : amap) : Prop :=
  hashmap_wf valid m /\ hashmap_unique valid m /\
  forall k, valid k -> hashmap_lookup m k = a k.

Lemma reverse_short {A} (es : list A) : (length es <= 1)%nat -> reverse es = es.
Proof. destruct es as [|x [|y es]]; cbn; [done | done | lia]. Qed.

Lemma maybe_reverse_short rv es : (length es <= 1)%nat -> maybe_reverse rv es = es.
Proof. intros. destruct rv; [by apply reverse_short | done]. Qed.

Lemma repr_same m m' a rv :
  hashmap_repr m a -> hashmap_wf valid m' -> same_entries rv m m' -> hashmap_repr m' a.
Proof.
  intros (Hw & Hu & Ha) Hw' Hs.
  assert (He : forall k, valid k ->
    hashmap__for_each_key_entry m' k = hashmap__for_each_key_entry m k).
  { intros k Hk. rewrite Hs by done. apply maybe_reverse_short. by apply Hu. }
  split_and!; [done| |]; intros k Hk; unfold hashmap_unique, hashmap_lookup in *.
  - rewrite He by done. by apply Hu.
  - rewrite He by done. by apply Ha.
Qed.

(** Replacing the entries of the keys equal to [k] by at most one entry. *)
Lemma repr_set m m' a k oe :
  hashmap_repr m a -> hashmap_wf valid m' ->
  (forall k', valid k' -> hashmap__for_each_key_entry m' k' =
     if equal_fn k k' then option_list oe else hashmap__for_each_key_entry m k') ->
  hashmap_repr m' (amap_set a k oe).
Proof.
  intros (Hw & Hu & Ha) Hw' He. split_and!; [done| |].
  - intros k' Hk'. rewrite He by done. case_if; [by destruct oe; cbn; lia | by apply Hu].
  - intros k' Hk'. unfold hashmap_lookup, amap_set. rewrite He by done.
    case_if; [by destruct oe | by apply Ha].
Qed.

Lemma unique_tail m k :
  hashmap_unique valid m -> valid k -> tail (hashmap__for_each_key_entry m k) = [].
Proof.
  intros Hu Hk. specialize (Hu k Hk).
  destruct (hashmap__for_each_key_entry m k) as [|x [|y l]]; cbn in *; [done | done | lia].
Qed.

(** A key equal to an absent key has no entries either. *)
Lemma absent_equal m k k' :
  hashmap_wf valid m -> valid k -> valid k' -> hashmap_lookup m k = None ->
  equal_fn k k' = true -> hashmap__for_each_key_entry m k' = [].
Proof.
  intros Hw Hk Hk' Hl Heq. unfold hashmap_wf in Hw.
  unfold hashmap_lookup, hashmap__for_each_key_entry, hashmap_chain in *.
  destruct (buckets m) as [bs|]; [|done]. destruct Hw as [Hbw _].
  rewrite <- (equal_hash k k') by done.
  destruct (znth bs _) as [c|] eqn:Hc; [|done]. unfold default, id in *.
  apply filter_none, Forall_forall. intros e He.
  destruct (equal_fn (key e) k') eqn:E; [|done]. exfalso.
  destruct (bwf_placed _ _ _ Hbw _ c e Hc He) as [Hv _].
  assert (e ∈ filter (fun e => equal_fn (key e) k = true) c) as Hin.
  { apply list_elem_of_filter. split; [|done].
    apply (equal_trans (key e) k' k); auto. by apply equal_sym. }
  destruct (filter _ c); [by apply not_elem_of_nil in Hin | done].
Qed.

Lemma insert_new_refines m a k v o :
  hashmap_repr m a -> valid k -> a k = None ->
  let r := hashmap_insert_new m k v 0 0 o in
  ins_old_key r = 0 /\ ins_old_value r = 0 /\
  ((ins_ret r = 0 /\ hashmap_repr (ins_map r) (amap_set a k (Some (Entry k v))) /\
    sz (ins_map r) = sz m + 1) \/
   (ins_ret r = - ENOMEM /\ (false ∈ o \/ cap_bits m = 60) /\
    hashmap_repr (ins_map r) a /\ sz (ins_map r) = sz m)).
Proof.
  intros Hr Hk Hnone. destruct (Hr) as (Hw & Hu & Ha).
  destruct (insert_new_spec m k v 0 0 o Hw Hk) as (Hok & Hov & Hw' & Hcase).
  split_and!; [done | done |].
  destruct Hcase as [(Hret & Hf & Hsz & rv & Hs)|(Hret & Hsz & Hs)]; [right | left].
  - split_and!; try done. by eapply repr_same.
  - split_and!; [done| |done]. apply (repr_set m); [done.. |].
    intros k' Hk'. rewrite Hs, maybe_reverse_short by (auto; by apply Hu).
    case_if; [|done]. rewrite (absent_equal m k k'); auto. by rewrite Ha.
Qed.

Lemma find_entry_None m k :
  hashmap_lookup m k = None ->
  hashmap_find_entry m k (hash_bits (hash_fn k) (cap_bits m)) = None.
Proof.
  rewrite <- find_entry_lookup. by destruct (hashmap_find_entry _ _ _).
Qed.

Lemma find_entry_lookup_Some m k e :
  hashmap_lookup m k = Some e ->
  exists i, hashmap_find_entry m k (hash_bits (hash_fn k) (cap_bits m)) = Some (i, e).
Proof.
  rewrite <- find_entry_lookup.
  destruct (hashmap_find_entry _ _ _) as [[i e']|]; cbn; intros; simplify_eq. by exists i.
Qed.

Lemma repr_find m a k : hashmap_repr m a -> valid k -> hashmap_find m k = value <$> a k.
Proof. intros (_ & _ & Ha) Hk. by rewrite hashmap_find_lookup, Ha. Qed.

(** [hashmap__add]: an existing key is reported, a new one is linked. *)
Lemma repr_add m a k v o :
  hashmap_repr m a -> valid k ->
  hashmap_insert m k v HASHMAP_ADD o =
  match a k with
  | Some e => InsertResult (- EEXIST) m (key e) (value e) o
  | None => hashmap_insert_new m k v 0 0 o
  end.
Proof.
  intros (Hw & Hu & Ha) Hk. unfold hashmap_insert. cbn [is_append].
  destruct (a k) as [e|] eqn:Hak.
  - destruct (find_entry_lookup_Some m k e) as [i Hi]; [by rewrite Ha |]. by rewrite Hi.
  - by rewrite find_entry_None by (by rewrite Ha).
Qed.

(** [hashmap__set] of a key that is there: its entry is replaced. *)
Lemma repr_replace m a k v o e :
  hashmap_repr m a -> valid k -> a k = Some e ->
  exists m', hashmap_insert m k v HASHMAP_SET o = InsertResult 0 m' (key e) (value e) o /\
    hashmap_repr m' (amap_set a k (Some (Entry k v))).
Proof.
  intros Hr Hk Hak. destruct (Hr) as (Hw & Hu & Ha). unfold hashmap_insert. cbn [is_append].
  destruct (find_entry_lookup_Some m k e) as [i Hi]; [by rewrite Ha |]. rewrite Hi. eexists. split; [done |].
  destruct (set_entry_spec m k v i e Hw Hk Hi) as (Hw' & Hsz & Hs).
  apply (repr_set m); [done.. |]. intros k' Hk'. rewrite Hs by done. case_if; [|done]. by rewrite unique_tail.
Qed.

(** C18: on a table with unique keys, [hashmap_insert] with [HASHMAP_ADD],
    [HASHMAP_SET] or [HASHMAP_UPDATE] is the insertion of the finite map the
    table stands for, on every branch: same return value, same reported old key
    and value, the new table represents the new map, keeps the invariant (exact
    size, load factor at most 3/4) and counts one more entry exactly when the
    key is new.  The only other outcome is [-ENOMEM] on a new key, possible
    only when an allocation fails or the table has 2^60 buckets, and then the
    map is unchanged. *)
Theorem hashmap_insert_refines m a k v st o :
  hashmap_repr m a -> valid k -> st <> HASHMAP_APPEND ->
  let r := hashmap_insert m k v st o in
  let '(ret, a', old_key, old_value) := amap_insert a k v st in
  (ins_ret r = ret /\ hashmap_repr (ins_map r) a' /\
   ins_old_key r = old_key /\ ins_old_value r = old_value /\
   sz (ins_map r) = sz m + (match a k with Some _ => 0 | None => if ret =? 0 then 1 else 0 end)) \/
  (ins_ret r = - ENOMEM /\ a k = None /\ st <> HASHMAP_UPDATE /\
   (false ∈ o \/ cap_bits m = 60) /\ hashmap_repr (ins_map r) a /\ sz (ins_map r) = sz m).
Proof.
  intros Hr Hk Hst. destruct (Hr) as (Hw & Hu & Ha). unfold hashmap_insert.
  assert (is_append st = false) as -> by (by destruct st).
  destruct (a k) as [e|] eqn:Hak.
  - destruct (find_entry_lookup_Some m k e) as [i Hi]; [by rewrite Ha |]. rewrite Hi.
    destruct (set_entry_spec m k v i e Hw Hk Hi) as (Hw' & Hsz & Hs).
    assert (hashmap_repr (hashmap_set_entry m (hash_bits (hash_fn k) (cap_bits m)) i (Entry k v))
              (amap_set a k (Some (Entry k v)))).
    { apply (repr_set m); [done.. |]. intros k' Hk'. rewrite Hs by done.
      case_if; [|done]. by rewrite unique_tail. }
    unfold amap_insert. rewrite Hak.
    destruct st; try done; cbn -[sz]; left; split_and!; (done || lia).
  - rewrite find_entry_None by (by rewrite Ha).
    unfold amap_insert. rewrite Hak.
    destruct (insert_new_refines m a k v o Hr Hk Hak) as (Hok & Hov & Hc).
    destruct st; [| |left; cbn -[sz]; split_and!; (done || (change (- ENOENT =? 0) with false; cbn -[sz]; lia))|done]; cbn -[hashmap_insert_new sz];
      (destruct Hc as [(? & ? & ?)|(? & ? & ? & ?)]; [left | right]; split_and!; done).
Qed.

(** C19: [hashmap_find] returns the value the represented map holds for the
    key, and [hashmap_delete] removes exactly the keys equal to the given one,
    reporting the removed entry; on an absent key it leaves the table as it is. *)
Theorem hashmap_find_delete_refine m a k :
  hashmap_repr m a -> valid k ->
  hashmap_find m k = value <$> a k /\
  let '(r, m') := hashmap_delete m k in
  match a k with
  | None => r = None /\ m' = m
  | Some e => r = Some (key e, value e) /\ hashmap_repr m' (amap_set a k None) /\
              sz m' = sz m - 1
  end.
Proof.
  intros Hr Hk. destruct (Hr) as (Hw & Hu & Ha).
  split; [by rewrite hashmap_find_lookup, Ha |].
  destruct (a k) as [e|] eqn:Hak.
  - destruct (find_entry_lookup_Some m k e) as [i Hi]; [by rewrite Ha |].
    pose proof (delete_entry_spec m k i e Hw Hk Hi) as Hd.
    destruct (hashmap_delete m k) as [r m']. destruct Hd as (-> & Hw' & Hsz & Hs).
    split_and!; [done | | done]. apply (repr_set m); [done.. |].
    intros k' Hk'. rewrite Hs by done. case_if; [|done]. by rewrite unique_tail.
  - unfold hashmap_delete. by rewrite find_entry_None by (by rewrite Ha).
Qed.

Lemma insert_append_wf m k v o :
  hashmap_wf valid m -> valid k -> hashmap_wf valid (ins_map (hashmap_insert m k v HASHMAP_APPEND o)).
Proof. intros Hw Hk. by apply insert_new_spec. Qed.

(** [HASHMAP_APPEND] makes the table a multimap: on success the new entry
    comes first among the entries of its key and the other entries are those
    there were, but an insertion that makes the table grow reverses the order
    of the entries of every key. *)
Theorem hashmap_append_multimap m k v o :
  hashmap_wf valid m -> valid k -> false ∉ o -> cap_bits m < 60 ->
  let r := hashmap_insert m k v HASHMAP_APPEND o in
  ins_ret r = 0 /\ hashmap_wf valid (ins_map r) /\ sz (ins_map r) = sz m + 1 /\
  forall k', valid k' ->
    hashmap__for_each_key_entry (ins_map r) k' =
    (if equal_fn k k' then [Entry k v] else []) ++
    (if hashmap_needs_to_grow m then reverse (hashmap__for_each_key_entry m k')
     else hashmap__for_each_key_entry m k').
Proof.
  intros Hw Hk Ho Hc. cbn [hashmap_insert is_append].
  destruct (insert_new_spec m k v 0 0 o Hw Hk) as (_ & _ & Hw' & Hcase).
  destruct Hcase as [(_ & [?|?] & _)|(Hret & Hsz & Hs)]; [done | lia |].
  by split_and!.
Qed.
End Proofs.

Section Entries.
Context {C : hash_ctx} {valid : Z -> Prop} {L : HashLaws C valid}.
Implicit Types (m : hashmap) (e : hashmap_entry).

Lemma hashmap_lookup_elem m k e :
  hashmap_wf valid m -> hashmap_lookup m k = Some e ->
  e ∈ hashmap__for_each_entry m /\ equal_fn (key e) k = true.
Proof.
  unfold hashmap_lookup, hashmap__for_each_key_entry. intros Hw Hl.
  assert (e ∈ filter (fun e => equal_fn (key e) k = true) (hashmap_chain m k)) as Hin.
  { destruct (filter _ _); [done |]. cbn in Hl. simplify_eq. constructor. }
  apply list_elem_of_filter in Hin as [Heq Hin]. split; [|done].
  unfold hashmap_chain in Hin. destruct (buckets m) as [bs|] eqn:Hb;
    [|by apply not_elem_of_nil in Hin].
  rewrite (for_each_entry_concat m bs) by done.
  destruct (znth bs _) as [c|] eqn:Hc; [|by apply not_elem_of_nil in Hin].
  apply elem_of_znth_concat. eauto.
Qed.

Lemma key_entries_filter m k :
  hashmap_wf valid m -> valid k ->
  hashmap__for_each_key_entry m k =
  filter (fun e => equal_fn (key e) k = true) (hashmap__for_each_entry m).
Proof.
  intros Hw Hk. pose proof Hw as Hw'. unfold hashmap_wf in Hw'.
  destruct (buckets m) as [bs|] eqn:Hb.
  - rewrite (for_each_entry_concat m bs) by done. destruct Hw' as [Hbw _].
    rewrite (concat_entries bs (cap_bits m)) by done. by apply key_entries_buckets.
  - unfold hashmap__for_each_key_entry, hashmap_chain, hashmap__for_each_entry.
    by rewrite Hb.
Qed.

Lemma wf_entry_valid m e :
  hashmap_wf valid m -> e ∈ hashmap__for_each_entry m -> valid (key e).
Proof.
  intros Hw He. pose proof Hw as Hw'. unfold hashmap_wf in Hw'.
  destruct (buckets m) as [bs|] eqn:Hb.
  - rewrite (for_each_entry_concat m bs) in He by done. destruct Hw' as [Hbw _].
    pose proof (wf_valid_entries bs (cap_bits m) Hbw) as Hall.
    rewrite Forall_forall in Hall. by apply Hall.
  - unfold hashmap__for_each_entry in He. rewrite Hb in He. by apply not_elem_of_nil in He.
Qed.

Lemma repr_entry m a e :
  hashmap_repr (valid := valid) m a -> e ∈ hashmap__for_each_entry m -> a (key e) = Some e.
Proof.
  intros (Hw & Hu & Ha) He. pose proof (wf_entry_valid m e Hw He) as Hv.
  rewrite <- Ha by done. unfold hashmap_lookup. specialize (Hu _ Hv).
  rewrite (key_entries_filter m (key e) Hw Hv) in *.
  assert (Hin : e ∈ filter (fun e' => equal_fn (key e') (key e) = true) (hashmap__for_each_entry m)).
  { apply list_elem_of_filter. split; [|done]. by apply equal_refl. }
  destruct (filter _ _) as [|x [|y l]]; cbn in Hu; [by apply not_elem_of_nil in Hin| |lia].
  by apply list_elem_of_singleton in Hin as ->.
Qed.

Lemma repr_lookup m a k :
  hashmap_repr (valid := valid) m a -> valid k ->
  match a k with
  | Some e => e ∈ hashmap__for_each_entry m /\ equal_fn (key e) k = true
  | None => Forall (fun e => equal_fn (key e) k = false) (hashmap__for_each_entry m)
  end.
Proof.
  intros (Hw & Hu & Ha) Hk. destruct (a k) as [e|] eqn:Hak.
  - apply hashmap_lookup_elem; [done |]. by rewrite Ha.
  - rewrite <- Ha in Hak by done. unfold hashmap_lookup in Hak.
    rewrite (key_entries_filter m k Hw Hk) in Hak. apply Forall_forall. intros e He.
    destruct (equal_fn (key e) k) eqn:E; [|done].
    assert (Hin : e ∈ filter (fun e => equal_fn (key e) k = true) (hashmap__for_each_entry m))
      by (by apply list_elem_of_filter).
    destruct (filter _ _); [by apply not_elem_of_nil in Hin | done].
Qed.
End Entries.

(** ** Change of callbacks

    The callbacks of a client may depend on data that changes; the table stays
    a representation as long as they agree on the stored entries. *)
Section Transfer.
Context {C C' : hash_ctx} {valid valid' : Z -> Prop}.
Context {L : HashLaws C valid} {L' : HashLaws C' valid'}.
Implicit Types (m : hashmap) (e : hashmap_entry).

Lemma hashmap_wf_transfer m :
  hashmap_wf (C := C) valid m ->
  (forall e, e ∈ hashmap__for_each_entry m ->
     valid' (key e) /\ hash_fn (hash_ctx := C') (key e) = hash_fn (hash_ctx := C) (key e)) ->
  hashmap_wf (C := C') valid' m.
Proof.
  intros Hw He. pose proof Hw as Hw'. unfold hashmap_wf in Hw' |- *.
  destruct (buckets m) as [bs|] eqn:Hb; [|done].
  rewrite (for_each_entry_concat (C := C) (valid := valid) m bs Hw Hb) in He.
  destruct Hw' as ([Hr Hl Hp] & ?). split; [|done]. split; [done.. |].
  intros i c e Hi Hin. destruct (He e) as [Hv Hh]; [apply elem_of_znth_concat; eauto |].
  split; [done |]. rewrite Hh. by apply (Hp i c e).
Qed.

Lemma hashmap_repr_transfer m a a' :
  hashmap_repr (C := C) (valid := valid) m a ->
  (forall e, e ∈ hashmap__for_each_entry m ->
     valid' (key e) /\ hash_fn (hash_ctx := C') (key e) = hash_fn (hash_ctx := C) (key e)) ->
  (forall e1 e2, e1 ∈ hashmap__for_each_entry m -> e2 ∈ hashmap__for_each_entry m ->
     equal_fn (hash_ctx := C') (key e1) (key e2) = equal_fn (hash_ctx := C) (key e1) (key e2)) ->
  (forall k, valid' k ->
     match a' k with
     | Some e => e ∈ hashmap__for_each_entry m /\ equal_fn (hash_ctx := C') (key e) k = true
     | None => Forall (fun e => equal_fn (hash_ctx := C') (key e) k = false)
                      (hashmap__for_each_entry m)
     end) ->
  hashmap_repr (C := C') (valid := valid') m a'.
Proof.
  intros (Hw & Hu & Ha) He Heq Ha'.
  pose proof (hashmap_wf_transfer m Hw He) as Hw'.
  assert (Hone : forall k e, valid' k -> e ∈ hashmap__for_each_entry m ->
    equal_fn (hash_ctx := C') (key e) k = true ->
    hashmap__for_each_key_entry (C := C') m k = [e]).
  { intros k e Hk Hin Hek. rewrite (key_entries_filter (C := C') (valid := valid') m k Hw' Hk).
    specialize (Hu (key e) (wf_entry_valid (C := C) (valid := valid) m e Hw Hin)).
    rewrite (key_entries_filter (C := C) (valid := valid) m (key e) Hw (wf_entry_valid (C := C) (valid := valid) m e Hw Hin)) in Hu.
    assert (Hf : filter (fun e => equal_fn (hash_ctx := C') (key e) k = true) (hashmap__for_each_entry m)
      = filter (fun e' => equal_fn (hash_ctx := C) (key e') (key e) = true) (hashmap__for_each_entry m)).
    { apply filter_ext_elem. intros e' He'. rewrite <- Heq by done. split; intros H1.
      - apply (equal_trans (C := C') (valid := valid') _ k _); [by apply He|done|by apply He|done|].
        apply (equal_sym (C := C') (valid := valid')); [by apply He|done|done].
      - apply (equal_trans (C := C') (valid := valid') _ (key e) _); [by apply He|by apply He|done|done|done]. }
    rewrite Hf.
    assert (Hin' : e ∈ filter (fun e' => equal_fn (hash_ctx := C) (key e') (key e) = true) (hashmap__for_each_entry m)).
    { apply list_elem_of_filter. split; [|done]. apply (equal_refl (C := C) (valid := valid)). exact (wf_entry_valid (C := C) m e Hw Hin). }
    destruct (filter _ _) as [|x [|y l]]; cbn in Hu; [by apply not_elem_of_nil in Hin'| |lia].
    by apply list_elem_of_singleton in Hin' as ->. }
  assert (Hnone : forall k, valid' k -> a' k = None -> hashmap__for_each_key_entry (C := C') m k = []).
  { intros k Hk Hak. rewrite (key_entries_filter (C := C') (valid := valid') m k Hw' Hk). specialize (Ha' k Hk).
    rewrite Hak in Ha'. by apply (filter_none (C := C')). }
  split_and!; [done | |].
  - intros k Hk. specialize (Ha' k Hk). destruct (a' k) as [e|] eqn:Hak.
    + destruct Ha' as [Hin Hek]. rewrite (Hone k e Hk Hin Hek). cbn. lia.
    + rewrite Hnone by done. cbn. lia.
  - intros k Hk. unfold hashmap_lookup. specialize (Ha' k Hk). destruct (a' k) as [e|] eqn:Hak.
    + destruct Ha' as [Hin Hek]. by rewrite (Hone k e Hk Hin Hek).
    + by rewrite Hnone.
Qed.
End Transfer.

(** ** Integer keys

    The callbacks of the string-offset map of [btf__add_btf] and of the
    deduplication tables ([btf_dedup_identity_hash_fn], [btf_dedup_equal_fn]). *)
Definition btf_dedup_identity_hash_fn (k : Z) : Z := u64 k.
Definition btf_dedup_equal_fn (k1 k2 : Z) : bool := k1 =? k2.

Definition int_ctx : hash_ctx :=
  {| hash_fn := btf_dedup_identity_hash_fn; equal_fn := btf_dedup_equal_fn |}.

#[export] Instance int_laws : HashLaws int_ctx (fun _ => True).
Proof.
  split; cbn; unfold btf_dedup_equal_fn; intros; try lia.
  by replace k1 with k2 by lia.
Qed.

Lemma hashmap_init_wf {C : hash_ctx} valid : hashmap_wf valid hashmap__init.
Proof. by repeat split. Qed.

Lemma hashmap_init_repr : hashmap_repr (C := int_ctx) (valid := fun _ => True)
  hashmap__init (fun _ => None).
Proof. split_and!; [apply hashmap_init_wf | by intros k _; cbn; lia | done]. Qed.

(** The table after [hashmap__add] of the keys [1..n] with value 10 times the key. *)
Fixpoint int_table (n : nat) : hashmap :=
  match n with
  | O => hashmap__init
  | S n' => ins_map (hashmap_insert (C := int_ctx) (int_table n') (Z.of_nat n) (Z.of_nat n * 10)
                       HASHMAP_APPEND [])
  end.

Lemma hashmap_insert_refines_witness :
  ins_ret (hashmap_insert (C := int_ctx) hashmap__init 7 70 HASHMAP_ADD []) = 0 /\
  hashmap_repr (C := int_ctx) (valid := fun _ => True)
    (ins_map (hashmap_insert (C := int_ctx) hashmap__init 7 70 HASHMAP_ADD []))
    (amap_set (C := int_ctx) (fun _ => None) 7 (Some (Entry 7 70))).
Proof.
  destruct (hashmap_insert_refines (C := int_ctx) (valid := fun _ => True)
    hashmap__init (fun _ => None) 7 70 HASHMAP_ADD [] hashmap_init_repr I ltac:(done))
    as [(H1 & H2 & _)|(_ & _ & _ & [H|H] & _)].
  - split; [exact H1 | exact H2].
  - by apply not_elem_of_nil in H.
  - discriminate H.
Defined.

Definition one_table : hashmap :=
  ins_map (hashmap_insert (C := int_ctx) hashmap__init 7 70 HASHMAP_ADD []).

Lemma one_table_repr : hashmap_repr (C := int_ctx) (valid := fun _ => True)
  one_table (amap_set (C := int_ctx) (fun _ => None) 7 (Some (Entry 7 70))).
Proof.
  destruct (insert_new_refines (C := int_ctx) (valid := fun _ => True) hashmap__init
    (fun _ => None) 7 70 [] hashmap_init_repr I eq_refl) as (_ & _ & [(_ & H & _)|(_ & [H|H] & _)]);
    [exact H | by apply not_elem_of_nil in H | done].
Qed.

Lemma hashmap_find_delete_refine_witness :
  hashmap_find (C := int_ctx) one_table 7 = Some 70 /\
  fst (hashmap_delete (C := int_ctx) one_table 7) = Some (7, 70) /\
  hashmap_find (C := int_ctx) (snd (hashmap_delete (C := int_ctx) one_table 7)) 7 = None.
Proof.
  destruct (hashmap_find_delete_refine (C := int_ctx) (valid := fun _ => True)
    one_table _ 7 one_table_repr I) as [H1 H2].
  destruct (hashmap_delete one_table 7) as [r m'] eqn:Hd. cbn in H1, H2.
  destruct H2 as (H2 & H3 & _). split_and!; [exact H1 | exact H2 |].
  cbn [snd]. replace m' with (snd (hashmap_delete (C := int_ctx) one_table 7)) by (by rewrite Hd).
  by vm_compute.
Defined.

Lemma int_table_wf n : hashmap_wf (C := int_ctx) (fun _ => True) (int_table n).
Proof. induction n as [|n IH]; [apply hashmap_init_wf | by apply insert_append_wf]. Qed.

(** Appending a fourth entry makes the table of three grow. *)
Lemma hashmap_append_multimap_witness :
  hashmap_needs_to_grow (int_table 3) = true /\
  hashmap__for_each_key_entry (C := int_ctx)
    (ins_map (hashmap_insert (C := int_ctx) (int_table 3) 2 21 HASHMAP_APPEND [])) 2 =
  [Entry 2 21; Entry 2 20].
Proof.
  split; [by vm_compute |].
  destruct (hashmap_append_multimap (C := int_ctx) (valid := fun _ => True) (int_table 3) 2 21 [])
    as (_ & _ & _ & H);
    [apply int_table_wf|done|exact (not_elem_of_nil false)|by vm_compute|].
  rewrite (H 2 I). by vm_compute.
Defined.

(** [hashmap.h] says that [hashmap__find] on a multimap returns the entry of
    the key that was inserted last; after a growth it returns the first one. *)
Lemma hashmap_find_after_growth :
  let app m k v := ins_map (hashmap_insert (C := int_ctx) m k v HASHMAP_APPEND []) in
  let m := app (app (app hashmap__init 1 10) 1 11) 2 20 in
  hashmap_find (C := int_ctx) m 1 = Some 11 /\
  hashmap_find (C := int_ctx) (app m 3 30) 1 = Some 10.
Proof. by vm_compute. Qed.
