(* ===== verification/Mem.v ===== *)
(** * Mem: growable arrays ([libbpf_add_mem], [libbpf_ensure_mem] of
    [src/src/btf.c] and [libbpf_reallocarray] of [libbpf_internal.h])

    A dynamically allocated region is the list of its [cap_cnt] elements.  The
    position returned by [libbpf_add_mem] is the index of the first unused
    element ([None] for [NULL]).  The theorem says when the region is
    reallocated, to which capacity, and that the elements in it survive. *)
From S2P Require Import Prelude.
Open Scope Z_scope.

Section AddMem.
Context {A : Type} (zero : A).

(** [realloc] keeps the old elements; the callers zero the rest. *)
Definition libbpf_reallocarray (data : list A) (nmemb size : Z) (o : oracle) :
  option (list A) * oracle :=
  let '(ok, o) := alloc_array nmemb size o in
  if ok then (Some (ztake nmemb data), o) else (None, o).

Record add_mem_result := AddMem {
  am_pos : option Z;
  am_data : list A;
  am_cap : Z;
  am_moved : bool;
  am_oracle : oracle
}.

Definition libbpf_add_mem (data : list A) (cap_cnt elem_sz cur_cnt max_cnt add_cnt : Z)
  (o : oracle) : add_mem_result :=
  if u64 (cur_cnt + add_cnt) <=? cap_cnt then AddMem (Some cur_cnt) data cap_cnt false o else
  if max_cnt <? u64 (cur_cnt + add_cnt) then AddMem None data cap_cnt false o else
  let new_cnt := cap_cnt in
  let new_cnt := u64 (new_cnt + new_cnt / 4) in
  let new_cnt := if new_cnt <? 16 then 16 else new_cnt in
  let new_cnt := if max_cnt <? new_cnt then max_cnt else new_cnt in
  let new_cnt := if new_cnt <? u64 (cur_cnt + add_cnt) then u64 (cur_cnt + add_cnt) else new_cnt in
  match libbpf_reallocarray data new_cnt elem_sz o with
  | (None, o) => AddMem None data cap_cnt false o
  | (Some new_data, o) =>
      AddMem (Some cur_cnt) (new_data ++ replicate (Z.to_nat (new_cnt - cap_cnt)) zero)
             new_cnt true o
  end.

Definition libbpf_ensure_mem (data : list A) (cap_cnt elem_sz need_cnt : Z) (o : oracle) :
  Z * list A * Z * oracle :=
  if need_cnt <=? cap_cnt then (0, data, cap_cnt, o) else
  let r := libbpf_add_mem data cap_cnt elem_sz cap_cnt SIZE_MAX (need_cnt - cap_cnt) o in
  match am_pos r with
  | None => (- ENOMEM, am_data r, am_cap r, am_oracle r)
  | Some _ => (0, am_data r, am_cap r, am_oracle r)
  end.
End AddMem.
Arguments AddMem {A}.

(** ** Proofs *)
Lemma alloc_array_fail n sz o o' :
  alloc_array n sz o = (false, o') -> SIZE_MAX < n * sz \/ false ∈ o.
Proof.
  unfold alloc_array. case_if; intros H; [left; lia |].
  destruct o as [|b o]; cbn in H; simplify_eq. right. constructor.
Qed.

Lemma alloc_array_sub n sz o ok o' :
  alloc_array n sz o = (ok, o') -> forall b, b ∈ o' -> b ∈ o.
Proof.
  unfold alloc_array. case_if; intros H; [by simplify_eq |].
  destruct o as [|b o]; cbn in H; simplify_eq; [done |]. by constructor.
Qed.

(** [libbpf_add_mem] on a region of [cap] elements, [cur] of them used. *)
Lemma libbpf_add_mem_spec {A} (zero : A) data cap elem_sz cur max add o :
  zlen data = cap -> 0 < elem_sz -> 0 <= cur <= cap -> 0 <= add -> cur + add <= SIZE_MAX ->
  cap <= 4611686018427387904 -> max <= SIZE_MAX ->
  let r := libbpf_add_mem zero data cap elem_sz cur max add o in
  zlen (am_data r) = am_cap r /\ cap <= am_cap r <= Z.max cap max /\
  (exists n, am_data r = data ++ replicate n zero) /\
  (forall b, b ∈ am_oracle r -> b ∈ o) /\
  match am_pos r with
  | Some p => p = cur /\ cur + add <= am_cap r
  | None => am_data r = data /\ am_cap r = cap /\ cap < cur + add /\
            (max < cur + add \/ false ∈ o \/ SIZE_MAX < Z.max 16 (cap + cap / 4 + add) * elem_sz)
  end.
Proof.
  intros Hlen Helem Hcur Hadd Hsum Hcap Hmax. unfold libbpf_add_mem, SIZE_MAX in *.
  rewrite !(u64_small (cur + add)) by lia. rewrite (u64_small (cap + cap / 4)) by lia.
  destruct (cur + add <=? cap) eqn:H1.
  { cbn. split_and!; [done| lia | lia | exists 0%nat; by rewrite app_nil_r | done | done | lia]. }
  destruct (max <? cur + add) eqn:H2.
  { cbn. split_and!; [done| lia | lia | exists 0%nat; by rewrite app_nil_r | done | done | done | lia |].
    left. lia. }
  cbv zeta. set (n1 := if cap + cap / 4 <? 16 then 16 else cap + cap / 4).
  set (n2 := if max <? n1 then max else n1).
  set (n3 := if n2 <? cur + add then cur + add else n2).
  assert (Hn1 : cap <= n1 <= Z.max 16 (cap + cap / 4)) by (unfold n1; case_if; lia).
  assert (Hn2 : cap <= n2 <= Z.min n1 max) by (unfold n2; case_if; lia).
  assert (Hn3 : Z.max (cur + add) cap <= n3 <= max) by (unfold n3; case_if; lia).
  assert (Hn3' : n3 <= Z.max 16 (cap + cap / 4 + add)) by (unfold n3; case_if; lia).
  unfold libbpf_reallocarray. destruct (alloc_array n3 elem_sz o) as [[|] o'] eqn:Ho.
  - rewrite (ztake_all data) by lia. cbn. split_and!; [|lia|lia|by eexists| |done|lia].
    + rewrite zlen_app, zlen_replicate. lia.
    + by eapply alloc_array_sub.
  - cbn. split_and!; [done|lia|lia|exists 0%nat; by rewrite app_nil_r| |done|done|lia|].
    + by eapply alloc_array_sub.
    + apply alloc_array_fail in Ho as [Ho|Ho]; [|by right; left].
      right. right. unfold SIZE_MAX in Ho. clear - Ho Hn3' Helem.
      pose proof (Z.mul_le_mono_nonneg_r _ _ elem_sz ltac:(lia) Hn3'). lia.
Qed.

(** What the callers that only count the elements use. *)
Lemma libbpf_add_mem_cap {A} (zero : A) data cap elem_sz cur max add o :
  0 <= cur + add <= SIZE_MAX ->
  let r := libbpf_add_mem zero data cap elem_sz cur max add o in
  am_cap r <= Z.max cap max /\ (am_pos r <> None -> cur + add <= am_cap r).
Proof.
  intros Hsum. unfold libbpf_add_mem, SIZE_MAX in *. rewrite !(u64_small (cur + add)) by lia.
  destruct (cur + add <=? cap) eqn:H1; [cbn; lia |]. destruct (max <? cur + add) eqn:H2; [cbn; split; [lia | done] |].
  cbv zeta. destruct (libbpf_reallocarray _ _ _ _) as [[d|] o']; cbn; [|split; [lia | done]].
  set (n1 := if u64 (cap + cap / 4) <? 16 then 16 else u64 (cap + cap / 4)).
  set (n2 := if max <? n1 then max else n1). assert (n2 <= max) by (unfold n2; case_if; lia).
  clearbody n2. case_if; lia.
Qed.

(** [libbpf_ensure_mem] either gives a region of at least [need_cnt]
    elements that starts with the old ones and is zero from there on, or fails
    with [-ENOMEM] and leaves the region alone; it grows by at least a quarter
    and to at least 16 elements, and fails only when an allocation does. *)
Theorem libbpf_ensure_mem_spec {A} (zero : A) data cap elem_sz need o :
  zlen data = cap -> 0 < elem_sz -> need * elem_sz <= 4611686018427387904 ->
  cap * elem_sz <= 2305843009213693952 -> elem_sz <= 268435456 ->
  let '(ret, data', cap', o') := libbpf_ensure_mem zero data cap elem_sz need o in
  zlen data' = cap' /\
  ((ret = 0 /\ need <= cap' /\ (exists n, data' = data ++ replicate n zero) /\
    (cap' <> cap -> Z.max 16 (cap + cap / 4) <= cap' /\ cap < need)) \/
   (ret = - ENOMEM /\ data' = data /\ cap' = cap /\ cap < need /\ false ∈ o)).
Proof.
  intros Hlen Hsz Hneed Hcap Helem. unfold libbpf_ensure_mem.
  pose proof (zlen_nonneg data).
  destruct (need <=? cap) eqn:H1.
  { split; [done |]. left. split_and!; [done|lia|exists 0%nat; by rewrite app_nil_r|done]. }
  assert (Hle : forall x, 0 <= x -> x <= x * elem_sz).
  { clear - Hsz. intros x Hx. rewrite <- (Z.mul_1_r x) at 1. apply Z.mul_le_mono_nonneg_l; lia. }
  pose proof (Hle need ltac:(lia)). pose proof (Hle cap ltac:(lia)).
  destruct (libbpf_add_mem_spec zero data cap elem_sz cap SIZE_MAX (need - cap) o)
    as (Hl & Hr & Hd & Ho & Hp); [lia|lia|lia|lia|unfold SIZE_MAX; lia|lia|lia|].
  set (r := libbpf_add_mem zero data cap elem_sz cap SIZE_MAX (need - cap) o) in *.
  assert (Hgrow : am_pos r <> None -> Z.max 16 (cap + cap / 4) <= am_cap r).
  { subst r. unfold libbpf_add_mem, SIZE_MAX.
    rewrite (u64_small (cap + (need - cap))), (u64_small (cap + cap / 4)) by lia.
    replace (cap + (need - cap) <=? cap) with false by lia.
    replace (18446744073709551615 <? cap + (need - cap)) with false by lia.
    cbv zeta. set (n1 := if cap + cap / 4 <? 16 then 16 else cap + cap / 4).
    assert (Hn1 : Z.max 16 (cap + cap / 4) <= n1 <= 18446744073709551615)
      by (unfold n1; case_if; lia).
    replace (18446744073709551615 <? n1) with false by lia.
    destruct (libbpf_reallocarray _ _ _ _) as [[?|] ?]; [|done]. intros _. cbn. case_if; lia. }
  destruct (am_pos r) as [p|].
  - split; [done |]. left. destruct Hp as [_ Hp].
    split_and!; [done|lia|done|]. intros _. split; [by apply Hgrow | lia].
  - destruct Hp as (Hd' & Hc' & Hlt & Hf). rewrite Hd', Hc'. split; [done |]. right.
    split_and!; [done..|lia|]. unfold SIZE_MAX in Hf.
    destruct Hf as [Hf|[Hf|Hf]]; [lia|done|].
    exfalso. assert (Hq : 0 <= cap / 4 <= cap) by lia.
    assert (Hm : Z.max 16 (cap + cap / 4 + (need - cap)) <= 16 + cap + need) by lia.
    apply (Z.mul_le_mono_nonneg_r _ _ elem_sz ltac:(lia)) in Hm.
    rewrite !Z.mul_add_distr_r in Hm. lia.
Qed.

Lemma libbpf_ensure_mem_spec_witness :
  libbpf_ensure_mem 0 [1; 2; 3] 3 4 5 [] = (0, [1; 2; 3] ++ replicate 13 0, 16, []) /\ 5 <= 16.
Proof.
  pose proof (libbpf_ensure_mem_spec 0 [1; 2; 3] 3 4 5 [] eq_refl ltac:(lia) ltac:(lia) ltac:(lia)
    ltac:(lia)) as H.
  split; [reflexivity |].
  change (libbpf_ensure_mem 0 [1; 2; 3] 3 4 5 []) with (0, [1; 2; 3] ++ replicate 13 0, 16, @nil bool) in H.
  destruct H as (_ & [H|H]); [apply H | destruct H as (H & _); discriminate H].
Defined.
