(* ===== verification/Strset.v ===== *)
(** * Strset: the set of unique strings of [src/src/strset.c]

    The string data is the block of [strs_data_cap] bytes, of which the first
    [strs_data_len] are in use; the bytes after them are scratch, and looking a
    string up really writes it there first, as the code does.  The hash table
    is the one of [Hashmap], with callbacks that read the current data.  A
    string argument may point into the block itself: [PtrIn] is such a pointer,
    and it dangles when the block is moved by a reallocation unless it is
    rebased.  [None] is undefined behaviour (a read outside the block or through
    a dangling pointer); the theorems show it does not happen on well-formed
    sets.

    The theorems: a set represents a finite map from strings to offsets;
    [strset__add_str] and [strset__find_str] refine its operations, the data in
    use is only ever extended by the new string with its NUL, and [strset__new]
    indexes the first occurrence of every string of the initial data. *)
From stdpp Require Import sets.
From S2P Require Import Prelude Hashmap Mem.
Open Scope Z_scope.

Record strset := Strset {
  strs_data : list Z;
  strs_data_len : Z;
  strs_data_cap : Z;
  strs_data_max_len : Z;
  strs_hash : hashmap
}.

(** The keys in the table, and those looked up, are offsets of strings that end inside the
    data ([strset_wf] and the callers); for other keys the code would read past it, and the
    values here do not matter. *)
Definition strset_hash_fn (data : list Z) (k : Z) : Z :=
  match cstr_at data k with Some str => str_hash str | None => 0 end.

Definition strset_equal_fn (data : list Z) (key1 key2 : Z) : bool :=
  match cstr_at data key1, cstr_at data key2 with
  | Some str1, Some str2 => strcmp str1 str2 =? 0
  | _, _ => false
  end.

(** The callbacks with [ctx = set], reading [set->strs_data]. *)
Definition strset_ctx (data : list Z) : hash_ctx :=
  {| hash_fn := strset_hash_fn data; equal_fn := strset_equal_fn data |}.

(** ** String arguments *)
Inductive str_ptr :=
| PtrExt (s : list Z)
| PtrIn (off : Z)
| PtrDangling.

Definition str_strlen (data : list Z) (p : str_ptr) : option Z :=
  match p with
  | PtrExt s => Some (zlen s)
  | PtrIn off => zlen <$> cstr_at data off
  | PtrDangling => None
  end.

(** The [len] bytes at the pointer. *)
Definition str_bytes (data : list Z) (p : str_ptr) (len : Z) : option (list Z) :=
  match p with
  | PtrExt s => slice (s ++ [0]) 0 len
  | PtrIn off => slice data off len
  | PtrDangling => None
  end.

(** The pointer after the block moved, and after the fix-up of the code, which
    rebases a pointer into the bytes that were in use. *)
Definition str_rebase (moved : bool) (old_data_len : Z) (p : str_ptr) : str_ptr :=
  match p with
  | PtrIn off =>
      if moved then
        if (0 <=? off) && (off <? old_data_len) then PtrIn off else PtrDangling
      else p
  | _ => p
  end.

(** ** strset.c *)
Fixpoint strset_index (fuel : nat) (data : list Z) (len off : Z) (hash : hashmap) (o : oracle) :
  option (Z * hashmap * oracle) :=
  if off <? len then
    match fuel with
    | O => None
    | S fuel =>
        let r := hashmap_insert (C := strset_ctx data) hash off off HASHMAP_ADD o in
        if negb (ins_ret r =? 0) && negb (ins_ret r =? - EEXIST)
        then Some (ins_ret r, ins_map r, ins_oracle r)
        else
          match cstr_at data off with
          | None => None
          | Some str =>
              strset_index fuel data len (off + (zlen str + 1)) (ins_map r) (ins_oracle r)
          end
    end
  else Some (0, hash, o).

Definition strset__new (max_data_sz : Z) (init_data : option (list Z)) (o : oracle) :
  option (result strset * oracle) :=
  let '(ok, o) := alloc o in
  if negb ok then Some (Err ENOMEM, o) else
  match hashmap__new o with
  | (Err _, o) => Some (Err ENOMEM, o)
  | (Ok hash, o) =>
      match init_data with
      | None => Some (Ok (Strset [] 0 0 max_data_sz hash), o)
      | Some data =>
          let '(ok, o) := alloc o in
          if negb ok then Some (Err ENOMEM, o) else
          match strset_index (S (length data)) data (zlen data) 0 hash o with
          | None => None
          | Some (err, hash, o) =>
              if err =? 0
              then Some (Ok (Strset data (zlen data) (zlen data) max_data_sz hash), o)
              else Some (Err (- err), o)
          end
      end
  end.

Definition strset__data_size (set : strset) : Z := strs_data_len set.

(** The bytes in use of [strset__data(set)]. *)
Definition strset__data (set : strset) : list Z := ztake (strs_data_len set) (strs_data set).

Definition strset_add_str_mem (set : strset) (add_sz : Z) (o : oracle) : add_mem_result :=
  libbpf_add_mem 0 (strs_data set) (strs_data_cap set) 1
                 (strs_data_len set) (strs_data_max_len set) add_sz o.

(** [mv]: whether [realloc], when called, moves the block. *)
Definition strset_str_append (set : strset) (s : str_ptr) (mv : bool) (o : oracle) :
  option (Z * strset * oracle) :=
  let old_data_len := strs_data_len set in
  match str_strlen (strs_data set) s with
  | None => None
  | Some slen =>
      let len := slen + 1 in
      let r := strset_add_str_mem set len o in
      let set' d := Strset d (strs_data_len set) (am_cap r) (strs_data_max_len set) (strs_hash set) in
      match am_pos r with
      | None => Some (- ENOMEM, set' (am_data r), am_oracle r)
      | Some p =>
          let s := str_rebase (am_moved r && mv) old_data_len s in
          match str_bytes (am_data r) s len with
          | None => None
          | Some bs => Some (len, set' (memcpy (am_data r) p bs), am_oracle r)
          end
      end
  end.

Definition strset__find_str (set : strset) (s : str_ptr) (mv : bool) (o : oracle) :
  option (Z * strset * oracle) :=
  match strset_str_append set s mv o with
  | None => None
  | Some (len, set, o) =>
      if len <? 0 then Some (s32 len, set, o) else
      let new_off := strs_data_len set in
      match hashmap_find (C := strset_ctx (strs_data set)) (strs_hash set) new_off with
      | Some old_off => Some (s32 old_off, set, o)
      | None => Some (- ENOENT, set, o)
      end
  end.

Definition strset__add_str (set : strset) (s : str_ptr) (mv : bool) (o : oracle) :
  option (Z * strset * oracle) :=
  match strset_str_append set s mv o with
  | None => None
  | Some (len, set, o) =>
      if len <? 0 then Some (s32 len, set, o) else
      let new_off := strs_data_len set in
      let r := hashmap_insert (C := strset_ctx (strs_data set)) (strs_hash set)
                              new_off new_off HASHMAP_ADD o in
      let set' l := Strset (strs_data set) l (strs_data_cap set) (strs_data_max_len set) (ins_map r) in
      if ins_ret r =? - EEXIST
      then Some (s32 (ins_old_key r), set' (strs_data_len set), ins_oracle r)
      else if negb (ins_ret r =? 0)
      then Some (ins_ret r, set' (strs_data_len set), ins_oracle r)
      else Some (s32 new_off, set' (u64 (strs_data_len set + len)), ins_oracle r)
  end.

(** ** Invariant and abstraction *)

(** The offsets a table over [data] may use as keys. *)
Definition str_valid (data : list Z) (k : Z) : Prop := is_Some (cstr_at data k).

#[export] Instance strset_laws data : HashLaws (strset_ctx data) (str_valid data).
Proof.
  split; cbn; unfold strset_equal_fn, strset_hash_fn.
  - intros k [s ->]. rewrite strcmp_refl. done.
  - intros k1 k2 [s1 H1] [s2 H2]. rewrite H1, H2. intros H.
    assert (s1 = s2) as -> by (apply strcmp_eq; [by eapply cstr_at_no_nul..|lia]).
    rewrite strcmp_refl. done.
  - intros k1 k2 k3 [s1 H1] [s2 H2] [s3 H3]. rewrite H1, H2, H3. intros Ha Hb.
    assert (s1 = s2) as -> by (apply strcmp_eq; [by eapply cstr_at_no_nul..|lia]). done.
  - intros k1 k2 [s1 H1] [s2 H2]. rewrite H1, H2. intros H.
    assert (s1 = s2) as -> by (apply strcmp_eq; [by eapply cstr_at_no_nul..|lia]). done.
Qed.

(** The map of a table over [data] whose entries are given by [f]. *)
Definition str_amap (data : list Z) (f : list Z -> option Z) : amap :=
  fun k => match cstr_at data k with
           | Some s => (fun off => Entry off off) <$> f s
           | None => None
           end.

Definition strset_dims (set : strset) : Prop :=
  zlen (strs_data set) = strs_data_cap set /\
  0 <= strs_data_len set <= strs_data_cap set /\ strs_data_cap set <= INT_MAX /\
  strs_data_max_len set <= INT_MAX.

(** A set never deletes, so its table is never larger than the data explains. *)
Definition strset_load (set : strset) : Prop :=
  sz (strs_hash set) <= strs_data_len set /\
  cap (strs_hash set) <= Z.max 4 (8 * strs_data_len set).

(** [set] holds the strings of [f], each at its offset in the data in use. *)
Definition strset_repr (set : strset) (f : list Z -> option Z) : Prop :=
  strset_dims set /\ strset_load set /\
  (forall s off, f s = Some off -> cstr_at (strset__data set) off = Some s) /\
  hashmap_repr (C := strset_ctx (strs_data set)) (valid := str_valid (strs_data set))
    (strs_hash set) (str_amap (strs_data set) f).

(** The string a pointer argument denotes. *)
Definition str_denotes (set : strset) (p : str_ptr) (s : list Z) : Prop :=
  match p with
  | PtrExt s' => s' = s /\ no_nul s /\ zlen s <= 4611686018427387904
  | PtrIn off => cstr_at (strset__data set) off = Some s
  | PtrDangling => False
  end.

Definition str_add (f : list Z -> option Z) (s : list Z) (off : Z) : list Z -> option Z :=
  fun s' => if decide (s' = s) then Some off else f s'.

(** ** Scratch space *)
Lemma strset_data_split set :
  strset_dims set ->
  strs_data set = strset__data set ++ zdrop (strs_data_len set) (strs_data set) /\
  zlen (strset__data set) = strs_data_len set.
Proof.
  intros (Hl & Hr & _). unfold strset__data. split; [by rewrite ztake_zdrop |].
  apply zlen_ztake. lia.
Qed.

Lemma data_cstr_at set off s :
  strset_dims set -> cstr_at (strset__data set) off = Some s -> cstr_at (strs_data set) off = Some s.
Proof.
  intros Hd Hs. destruct (strset_data_split set Hd) as [Hsp _]. rewrite Hsp.
  by apply cstr_at_prefix.
Qed.

Lemma denotes_strlen set p s :
  strset_dims set -> str_denotes set p s -> str_strlen (strs_data set) p = Some (zlen s).
Proof.
  intros Hd. destruct p; cbn; [by intros [-> _]| |done]. intros Hs.
  by rewrite (data_cstr_at set off s Hd Hs).
Qed.

Lemma denotes_bytes set p s moved k :
  strset_dims set -> str_denotes set p s ->
  str_bytes (strs_data set ++ k) (str_rebase moved (strs_data_len set) p) (zlen s + 1) =
  Some (s ++ [0]).
Proof.
  intros Hd. destruct (strset_data_split set Hd) as [Hsp Hlen]. destruct p; cbn; [| |done].
  - intros [-> _]. unfold slice. pose proof (zlen_nonneg s). rewrite zlen_snoc.
    replace ((0 <=? 0) && (0 <=? zlen s + 1) && (0 + (zlen s + 1) <=? zlen s + 1)) with true by lia.
    change (zdrop 0 (s ++ [0])) with (s ++ [0]). by rewrite ztake_all by (rewrite zlen_snoc; lia).
  - intros Hs. pose proof (cstr_at_range _ _ _ Hs) as Hr. rewrite Hlen in Hr.
    pose proof (zlen_nonneg s).
    replace ((0 <=? off) && (off <? strs_data_len set)) with true by lia.
    assert (slice (strs_data set ++ k) off (zlen s + 1) = Some (s ++ [0])) as He.
    { apply slice_cstr, cstr_at_prefix. by apply data_cstr_at. }
    by destruct moved.
Qed.

Lemma str_append_spec set p s mv o :
  strset_dims set -> str_denotes set p s ->
  exists r set' o', strset_str_append set p mv o = Some (r, set', o') /\
    strset_dims set' /\ strs_data_len set' = strs_data_len set /\
    strs_data_max_len set' = strs_data_max_len set /\ strs_hash set' = strs_hash set /\
    strset__data set' = strset__data set /\ (forall b, b ∈ o' -> b ∈ o) /\
    ((r = - ENOMEM /\ (strs_data_max_len set < strs_data_len set + zlen s + 1 \/ false ∈ o)) \/
     (r = zlen s + 1 /\ exists rest, strs_data set' = strset__data set ++ s ++ 0 :: rest)).
Proof.
  intros Hd Hp. pose proof Hd as (Hl & Hr & Hcap & Hmax). unfold INT_MAX in *.
  assert (Hslen : zlen s <= 4611686018427387904).
  { destruct p; cbn in Hp; [by destruct Hp as (_ & _ & ?)| |done].
    apply cstr_at_range in Hp. destruct (strset_data_split set Hd) as [_ Hlen]. lia. }
  pose proof (zlen_nonneg s).
  unfold strset_str_append. rewrite (denotes_strlen set p s Hd Hp). unfold strset_add_str_mem.
  destruct (libbpf_add_mem_spec 0 (strs_data set) (strs_data_cap set) 1 (strs_data_len set)
    (strs_data_max_len set) (zlen s + 1) o) as (Hl' & Hcap' & [n Hdata] & Ho & Hpos);
    try (unfold SIZE_MAX; lia).
  set (r := libbpf_add_mem _ _ _ _ _ _ _ _) in *.
  destruct (am_pos r) as [pos|].
  - destruct Hpos as [-> Hfit]. rewrite Hdata, (denotes_bytes set p s _ _ Hd Hp).
    rewrite <- Hdata. do 3 eexists. split; [done |].
    destruct (strset_data_split set Hd) as [Hsp Hlen].
    assert (Htake : ztake (strs_data_len set) (am_data r) = strset__data set).
    { rewrite Hdata. rewrite ztake_app_le by lia. done. }
    assert (Hmem : memcpy (am_data r) (strs_data_len set) (s ++ [0]) =
      strset__data set ++ s ++ 0 :: zdrop (strs_data_len set + zlen (s ++ [0])) (am_data r)).
    { unfold memcpy. rewrite Htake. by rewrite <- app_assoc. }
    assert (Hzl : zlen (memcpy (am_data r) (strs_data_len set) (s ++ [0])) = am_cap r).
    { rewrite Hmem, !zlen_app, zlen_cons, <- zlen_app, zlen_snoc.
      unfold zdrop, zlen in *. rewrite length_drop. lia. }
    unfold strset_dims, strset__data, INT_MAX. cbn [strs_data strs_data_len strs_data_cap strs_data_max_len strs_hash].
    split_and!; try (done || lia).
    + rewrite Hmem. rewrite ztake_app_le by lia. rewrite ztake_all by lia. done.
    + right. split; [done |]. eexists. exact Hmem.
  - destruct Hpos as (Hda & Hca & Hlt & Hf). do 3 eexists. split; [done |].
    unfold strset_dims, strset__data, INT_MAX. cbn [strs_data strs_data_len strs_data_cap strs_data_max_len strs_hash].
    rewrite Hda, Hca. split_and!; try (done || lia).
    left. split; [done |]. unfold SIZE_MAX in Hf. destruct Hf as [?|[?|Hf]]; [left; lia|by right|].
    exfalso. lia.
Qed.

(** ** The table when the scratch bytes change *)
Lemma repr_entry_str set f e :
  strset_repr set f -> e ∈ hashmap__for_each_entry (strs_hash set) ->
  exists s, f s = Some (key e) /\ e = Entry (key e) (key e) /\
    cstr_at (strset__data set) (key e) = Some s.
Proof.
  intros (Hd & _ & Hf & Hr) He. pose proof (repr_entry _ _ _ Hr He) as Ha.
  unfold str_amap in Ha. destruct (cstr_at (strs_data set) (key e)) as [s|]; [|done].
  destruct (f s) as [off|] eqn:Hfs; [|done]. cbn in Ha. simplify_eq.
  exists s. cbn in *. split_and!; [done | done |]. by apply Hf.
Qed.

Lemma strset_repr_change set set' f :
  strset_repr set f -> strset_dims set' -> strs_hash set' = strs_hash set ->
  strs_data_len set' = strs_data_len set ->
  strset__data set' = strset__data set -> strset_repr set' f.
Proof.
  intros Hr Hd' Hh Hlen Hv. pose proof Hr as (Hd & Hload & Hf & Hm).
  split_and!; [done | by unfold strset_load; rewrite Hh, Hlen | by rewrite Hv |]. rewrite Hh.
  assert (Hstr : forall e, e ∈ hashmap__for_each_entry (strs_hash set) ->
    exists s, cstr_at (strs_data set) (key e) = Some s /\
              cstr_at (strs_data set') (key e) = Some s /\ f s = Some (key e)).
  { intros e He. destruct (repr_entry_str set f e Hr He) as (s & Hs & _ & Hc).
    exists s. split_and!; [by apply data_cstr_at| |done]. apply data_cstr_at; [done |].
    by rewrite Hv. }
  eapply (hashmap_repr_transfer (C := strset_ctx (strs_data set))); [done| | |].
  - intros e He. destruct (Hstr e He) as (s & H1 & H2 & _). split; [by exists s |].
    cbn. unfold strset_hash_fn. by rewrite H1, H2.
  - intros e1 e2 He1 He2. destruct (Hstr e1 He1) as (s1 & H1 & H1' & _).
    destruct (Hstr e2 He2) as (s2 & H2 & H2' & _).
    cbn. unfold strset_equal_fn. by rewrite H1, H1', H2, H2'.
  - intros k [s Hk]. unfold str_amap. rewrite Hk. destruct (f s) as [off|] eqn:Hfs; cbn.
    + assert (Ho : cstr_at (strs_data set) off = Some s) by (apply data_cstr_at; auto).
      assert (Ho' : cstr_at (strs_data set') off = Some s).
      { apply data_cstr_at; [done |]. rewrite Hv. auto. }
      pose proof (repr_lookup _ _ off Hm ltac:(by exists s)) as Hl.
      unfold str_amap in Hl. rewrite Ho, Hfs in Hl. cbn in Hl. split; [apply Hl |].
      unfold strset_equal_fn. rewrite Ho', Hk, strcmp_refl. done.
    + apply Forall_forall. intros e He. destruct (Hstr e He) as (s' & _ & H2 & Hfe).
      unfold strset_equal_fn. rewrite H2, Hk. apply Z.eqb_neq. intros Heq.
      apply strcmp_eq in Heq; [congruence | by eapply cstr_at_no_nul..].
Qed.

Lemma str_append_repr set f p s mv o :
  strset_repr set f -> str_denotes set p s ->
  exists r set' o', strset_str_append set p mv o = Some (r, set', o') /\
    strset_repr set' f /\ strs_data_len set' = strs_data_len set /\
    strs_data_max_len set' = strs_data_max_len set /\ strs_hash set' = strs_hash set /\
    strset__data set' = strset__data set /\ (forall b, b ∈ o' -> b ∈ o) /\
    ((r = - ENOMEM /\ (strs_data_max_len set < strs_data_len set + zlen s + 1 \/ false ∈ o)) \/
     (r = zlen s + 1 /\ exists rest, strs_data set' = strset__data set ++ s ++ 0 :: rest)).
Proof.
  intros Hr Hp. pose proof Hr as (Hd & _).
  destruct (str_append_spec set p s mv o Hd Hp) as
    (r & set' & o' & He & Hd' & Hl & Hm & Hh & Hv & Ho & Hc).
  exists r, set', o'. split_and!; try done. by eapply strset_repr_change.
Qed.

Lemma denotes_no_nul set p s : str_denotes set p s -> no_nul s.
Proof.
  destruct p; cbn; [by intros (_ & ? & _) | by apply cstr_at_no_nul | done].
Qed.

Lemma repr_off_range set f s off :
  strset_repr set f -> f s = Some off -> 0 <= off < strs_data_len set.
Proof.
  intros (Hd & _ & Hf & _) Hs. apply Hf, cstr_at_range in Hs.
  destruct (strset_data_split set Hd) as [_ Hl]. pose proof (zlen_nonneg s). lia.
Qed.

(** The table of a set can always grow. *)
Lemma strset_table_grows set f : strset_repr set f -> cap_bits (strs_hash set) <> 60.
Proof.
  intros ((_ & Hl & Hc & _) & [_ Hcap] & _ & Hr) Hb. destruct Hr as (Hw & _).
  unfold hashmap_wf, INT_MAX in *. destruct (buckets (strs_hash set)); [|lia].
  destruct Hw as (_ & Hp & _). rewrite Hb in Hp. change (2 ^ 60) with 1152921504606846976 in Hp. lia.
Qed.

Lemma repr_len_int set f : strset_repr set f -> 0 <= strs_data_len set <= INT_MAX.
Proof. intros ((_ & ? & ? & _) & _). lia. Qed.

(** Linking the string that was written to the scratch bytes at the end. *)
Lemma strset_commit set f s rest v m :
  strset_repr set f -> strs_data set = v ++ s ++ 0 :: rest -> strset__data set = v ->
  no_nul s -> f s = None ->
  hashmap_repr (C := strset_ctx (strs_data set)) (valid := str_valid (strs_data set)) m
    (amap_set (C := strset_ctx (strs_data set)) (str_amap (strs_data set) f)
       (strs_data_len set) (Some (Entry (strs_data_len set) (strs_data_len set)))) ->
  sz m = sz (strs_hash set) + 1 ->
  cap m <= Z.max (cap (strs_hash set)) (Z.max 4 (2 * ((sz (strs_hash set) + 1) * 4 / 3))) ->
  let set' := Strset (strs_data set) (strs_data_len set + zlen s + 1) (strs_data_cap set)
                     (strs_data_max_len set) m in
  strset_repr set' (str_add f s (strs_data_len set)) /\ strset__data set' = v ++ s ++ [0].
Proof.
  intros (Hd & [Hsz Hcap0] & Hf & Hr) Hdata Hv Hs Hnone Hm Hsz' Hcap'. pose proof Hd as (Hl & Hrange & Hcap & Hmax).
  destruct (strset_data_split set Hd) as [_ Hlen]. rewrite Hv in Hlen.
  pose proof (zlen_nonneg s). pose proof (zlen_nonneg rest).
  assert (Hfit : strs_data_len set + zlen s + 1 <= strs_data_cap set).
  { rewrite <- Hl, Hdata, !zlen_app, zlen_cons. lia. }
  assert (Hnew : cstr_at (strs_data set) (strs_data_len set) = Some s).
  { rewrite Hdata, <- Hlen. by apply cstr_at_app. }
  set (set' := Strset _ _ _ _ _).
  assert (Hvis : strset__data set' = v ++ s ++ [0]).
  { unfold strset__data, set'. cbn [strs_data strs_data_len]. rewrite Hdata.
    replace (v ++ s ++ 0 :: rest) with ((v ++ s ++ [0]) ++ rest) by (by rewrite <- !app_assoc).
    rewrite ztake_app_le, ztake_all; [done| |]; rewrite !zlen_app, zlen_cons, zlen_nil; lia. }
  split; [|done]. split_and!.
  - unfold strset_dims, set'. cbn. split_and!; (done || lia).
  - unfold strset_load, set'. cbn -[cap sz]. lia.
  - intros s' off. unfold str_add. rewrite Hvis. case_decide as Hd'; intros Ho.
    + simplify_eq. rewrite <- Hlen. by apply cstr_at_app.
    + apply cstr_at_prefix. rewrite <- Hv. by apply Hf.
  - destruct Hm as (Hw & Hu & Ha). cbn. split_and!; [done..|]. intros k Hk. rewrite Ha by done.
    destruct Hk as [s' Hk]. unfold amap_set, str_amap, str_add. cbn.
    unfold strset_equal_fn. rewrite Hnew, Hk. case_decide as Hd'.
    + subst s'. by rewrite strcmp_refl.
    + case_if; [|done]. exfalso. apply Hd'. symmetry.
      apply strcmp_eq; [done | by eapply cstr_at_no_nul | lia].
Qed.

(** ** Building a set from initial data *)

(** The strings of the data in order, with their offsets. *)
Fixpoint str_starts (fuel : nat) (data : list Z) (off : Z) : list (Z * list Z) :=
  match fuel with
  | O => []
  | S fuel =>
      if off <? zlen data then
        match cstr_at data off with
        | Some s => (off, s) :: str_starts fuel data (off + (zlen s + 1))
        | None => []
        end
      else []
  end.

(** The offset of the first occurrence of a string in such a list. *)
Fixpoint first_occ (l : list (Z * list Z)) (s : list Z) : option Z :=
  match l with
  | [] => None
  | (off, s') :: l => if decide (s' = s) then Some off else first_occ l s
  end.

Definition first_offset (data : list Z) (s : list Z) : option Z :=
  first_occ (str_starts (S (length data)) data 0) s.

(** [f], or where it has no offset the first one of [l]. *)
Definition str_index (f : list Z -> option Z) (l : list (Z * list Z)) (s : list Z) : option Z :=
  match f s with Some off => Some off | None => first_occ l s end.

(** The table after the strings before [off] are indexed by [f]. *)
Record index_inv (data : list Z) (off : Z) (hash : hashmap) (f : list Z -> option Z) : Prop := {
  index_repr : hashmap_repr (C := strset_ctx data) (valid := str_valid data) hash (str_amap data f);
  index_offs : forall s o, f s = Some o -> cstr_at data o = Some s;
  index_load : sz hash <= off /\ cap hash <= Z.max 4 (8 * off)
}.

Lemma index_inv_ext data off off' hash f f' :
  index_inv data off hash f -> off <= off' -> (forall s, f' s = f s) ->
  index_inv data off' hash f'.
Proof.
  intros [(Hw & Hu & Ha) Hf Hl] Ho He. split.
  - split_and!; [done | done |]. intros k Hk. rewrite Ha by done. unfold str_amap.
    destruct (cstr_at data k); [|done]. by rewrite He.
  - intros s o. rewrite He. apply Hf.
  - lia.
Qed.

(** Indexing a string that is not known yet. *)
Lemma index_inv_add data off hash f s o :
  index_inv data off hash f -> cstr_at data off = Some s -> f s = None ->
  0 <= off <= INT_MAX ->
  let r := hashmap_insert_new (C := strset_ctx data) hash off off 0 0 o in
  (ins_ret r = 0 /\ index_inv data (off + (zlen s + 1)) (ins_map r) (str_add f s off)) \/
  (ins_ret r = - ENOMEM /\ false ∈ o).
Proof.
  intros [Hr Hf [Hsz Hcap]] Hs Hn Ho r. unfold INT_MAX in Ho.
  pose proof (zlen_nonneg s). pose proof (cstr_at_no_nul _ _ _ Hs) as Hnn.
  assert (Ha : str_amap data f off = None) by (unfold str_amap; by rewrite Hs, Hn).
  destruct (insert_new_refines hash _ off off o Hr ltac:(by exists s) Ha)
    as (_ & _ & [(Hret & (Hw & Hu & Hl) & Hsz')|(Hret & Hfail & _)]).
  - left. split; [done |]. split.
    + split_and!; [done | done |]. intros k [s' Hk]. rewrite Hl by (by exists s').
      unfold amap_set, str_amap, str_add. cbn. unfold strset_equal_fn. rewrite Hs, Hk.
      case_decide as Hd.
      * subst s'. by rewrite strcmp_refl.
      * case_if; [|done]. exfalso. apply Hd. symmetry.
        apply strcmp_eq; [done | by eapply cstr_at_no_nul | lia].
    + intros s' o'. unfold str_add. case_decide; [|apply Hf]. intros. by simplify_eq.
    + pose proof (insert_new_cap hash off off 0 0 o (proj1 Hr)) as Hc.
      fold r in Hsz', Hc. lia.
  - right. split; [done |]. destruct Hfail as [?|Hb]; [done |]. exfalso.
    destruct Hr as (Hw & _). unfold hashmap_wf in Hw. destruct (buckets hash); [|lia].
    destruct Hw as (_ & Hp & _). rewrite Hb in Hp.
    change (2 ^ 60) with 1152921504606846976 in Hp. lia.
Qed.

Lemma insert_new_oracle {C : hash_ctx} m k v ok ov o b :
  b ∈ ins_oracle (hashmap_insert_new m k v ok ov o) -> b ∈ o.
Proof.
  unfold hashmap_insert_new, hashmap_grow, alloc_array, alloc.
  repeat (case_match; simplify_eq/=; try done); intros; set_solver.
Qed.

Lemma strset_index_spec fuel data off hash f o :
  (data = [] \/ last data = Some 0) -> zlen data <= INT_MAX ->
  0 <= off -> zlen data - off < Z.of_nat fuel -> index_inv data off hash f ->
  exists err hash' o', strset_index fuel data (zlen data) off hash o = Some (err, hash', o') /\
    ((err = 0 /\ index_inv data (Z.max off (zlen data)) hash' (str_index f (str_starts fuel data off))) \/
     (err = - ENOMEM /\ false ∈ o)).
Proof.
  intros Hterm Hlen. revert off hash f o. induction fuel as [|fuel IH]; intros off hash f o Ho Hfuel Hi.
  all: cbn [strset_index str_starts]; case_if; [|do 3 eexists; split; [done |]; left; split; [done |];
    eapply index_inv_ext; [done | lia | intros; unfold str_index; cbn; by destruct (f s)]].
  { lia. }
  destruct Hterm as [->|Hterm]; [rewrite zlen_nil in *; lia |].
  destruct (cstr_at_terminated data off Hterm ltac:(lia)) as [s Hs]. rewrite Hs.
  pose proof (zlen_nonneg s).
  rewrite (repr_add _ _ off off o (index_repr _ _ _ _ Hi)) by (by exists s).
  replace (str_amap data f off) with ((fun a => Entry a a) <$> f s) by (unfold str_amap; by rewrite Hs).
  destruct (f s) as [old|] eqn:Hfs; cbn [fmap option_fmap option_map].
  - cbn [ins_ret ins_map ins_oracle].
    change (negb (- EEXIST =? 0) && negb (- EEXIST =? - EEXIST)) with false. cbv match.
    destruct (IH (off + (zlen s + 1)) hash f o ltac:(lia) ltac:(lia)) as (err & h' & o' & He & Hc).
    { eapply index_inv_ext; [done | lia | done]. }
    rewrite He. do 3 eexists. split; [done |]. destruct Hc as [[-> Hc]|Hc]; [left | by right].
    split; [done |]. apply cstr_at_range in Hs.
    eapply index_inv_ext; [exact Hc | lia |]. intros s'. unfold str_index. cbn [first_occ].
    destruct (f s') eqn:Hfs'; [done |]. case_decide; [congruence | done].
  - destruct (index_inv_add data off hash f s o Hi Hs Hfs ltac:(lia)) as [[Hret Hi']|[Hret Hf]].
    all: set (r := hashmap_insert_new _ _ _ _ _ _) in *; rewrite Hret.
    2: by eauto 10.
    change (negb (0 =? 0) && negb (0 =? - EEXIST)) with false. cbv match.
    destruct (IH (off + (zlen s + 1)) (ins_map r) _ (ins_oracle r) ltac:(lia) ltac:(lia) Hi')
      as (err & h' & o' & He & Hc).
    rewrite He. do 3 eexists. split; [done |].
    destruct Hc as [[-> Hc]|[-> Hc]]; [left | right; split; [done | by eapply insert_new_oracle]].
    split; [done |]. apply cstr_at_range in Hs. eapply index_inv_ext; [exact Hc | lia |].
    intros s'. unfold str_index, str_add. cbn [first_occ].
    destruct (decide (s' = s)) as [->|Hne]; [by rewrite Hfs, decide_True |].
    destruct (f s'); [done |]. by rewrite decide_False.
Qed.

(** The loop on a table that was just created. *)
Lemma strset_index_new max data o :
  max <= INT_MAX -> zlen data <= INT_MAX -> (data = [] \/ last data = Some 0) ->
  exists r o', match strset_index (S (length data)) data (zlen data) 0 hashmap__init o with
    | None => None
    | Some (err, hash, o) =>
        if err =? 0
        then Some (Ok (Strset data (zlen data) (zlen data) max hash), o)
        else Some (Err (- err), o)
    end = Some (r, o') /\
  match r with
  | Ok set => strset_repr set (first_offset data) /\ strset__data set = data /\
              strs_data_max_len set = max
  | Err e => e = ENOMEM /\ false ∈ o
  end.
Proof.
  intros Hmax Hlen Hterm.
  destruct (strset_index_spec (S (length data)) data 0 hashmap__init (fun _ => None) o
    Hterm Hlen ltac:(lia) ltac:(unfold zlen; lia)) as (err & h & o' & -> & Hc).
  { split; [|done|cbn; lia]. split_and!; [by repeat split | by intros ? _; cbn; lia |].
    intros k [s Hk]. unfold str_amap. by rewrite Hk. }
  pose proof (zlen_nonneg data).
  destruct Hc as [[-> [Hr Hf Hl]]|[-> Hc]]; cbn [Z.eqb]; do 2 eexists; (split; [done |]);
    [|by auto].
  rewrite Z.max_r in Hl by lia. unfold strset_repr, strset_dims, strset_load, strset__data.
  cbn [strs_data strs_data_len strs_data_cap strs_data_max_len strs_hash].
  rewrite ztake_all by lia. split_and!; try (done || lia).
Qed.

(** Adding a string, on every branch. *)
Lemma strset_add_str_ok set f p s mv o :
  strset_repr set f -> str_denotes set p s ->
  exists r set' o', strset__add_str set p mv o = Some (r, set', o') /\
  match f s with
  | Some off =>
      strset_repr set' f /\ strset__data set' = strset__data set /\
      (r = off \/ (r = - ENOMEM /\ (false ∈ o \/
         strs_data_max_len set < strs_data_len set + zlen s + 1)))
  | None =>
      (r = strs_data_len set /\ strset_repr set' (str_add f s r) /\
       strset__data set' = strset__data set ++ s ++ [0]) \/
      (r = - ENOMEM /\ strset_repr set' f /\ strset__data set' = strset__data set /\
       (false ∈ o \/ strs_data_max_len set < strs_data_len set + zlen s + 1))
  end.
Proof.
  intros Hr Hp. pose proof (denotes_no_nul set p s Hp) as Hs.
  destruct (str_append_repr set f p s mv o Hr Hp) as
    (r & set1 & o1 & He & Hr1 & Hl1 & Hm1 & Hh1 & Hv1 & Ho1 & Hc).
  unfold strset__add_str. rewrite He. pose proof (repr_len_int set f Hr) as Hint.
  unfold INT_MAX in Hint. pose proof (zlen_nonneg s).
  destruct Hc as [[-> Hf]|[-> [rest Hdata]]].
  { do 3 eexists. split; [done |]. cbn.
    destruct (f s); [|right]; split_and!; try done; tauto. }
  replace (zlen s + 1 <? 0) with false by lia.
  assert (Hnew : cstr_at (strs_data set1) (strs_data_len set1) = Some s).
  { destruct Hr as (Hd & _). destruct (strset_data_split set Hd) as [_ Hlen].
    rewrite Hdata, Hl1, <- Hlen. by apply cstr_at_app. }
  pose proof Hr1 as (Hd1 & Hload1 & Hf1 & Hrep1).
  assert (Hb : zlen s + 1 <= INT_MAX).
  { destruct Hd1 as (Hz & _ & Hcap & _). rewrite Hdata, !zlen_app, zlen_cons in Hz.
    pose proof (zlen_nonneg (strset__data set)). pose proof (zlen_nonneg rest). lia. }
  unfold INT_MAX in Hb.
  rewrite (repr_add _ _ (strs_data_len set1) (strs_data_len set1) o1 Hrep1) by (by exists s).
  destruct (f s) as [off|] eqn:Hfs.
  - assert (Ha : str_amap (strs_data set1) f (strs_data_len set1) = Some (Entry off off))
      by (unfold str_amap; by rewrite Hnew, Hfs).
    rewrite Ha. cbn. do 3 eexists. split; [done |].
    pose proof (repr_off_range set f s off Hr Hfs). rewrite s32_small by lia.
    by destruct set1; split_and!; [| |left].
  - assert (Ha : str_amap (strs_data set1) f (strs_data_len set1) = None)
      by (unfold str_amap; by rewrite Hnew, Hfs).
    rewrite Ha.
    destruct (insert_new_refines (strs_hash set1) _ (strs_data_len set1) (strs_data_len set1) o1
      Hrep1 ltac:(by exists s) Ha) as (_ & _ & [(Hret & Hrep & Hsz)|(Hret & Hfail & Hrep & Hsz)]);
      pose proof (insert_new_cap (strs_hash set1) (strs_data_len set1) (strs_data_len set1) 0 0 o1
        (proj1 Hrep1)) as Hcap;
      rewrite Hret; cbn [Z.eqb Z.opp]; do 3 eexists; (split; [reflexivity |]).
    + left. change (0 =? - EEXIST) with false. cbn [negb]. rewrite s32_small by lia.
      rewrite u64_small by lia.
      destruct (strset_commit set1 f s rest (strset__data set) _ Hr1 Hdata Hv1 Hs Hfs Hrep Hsz Hcap) as [Hc1 Hc2].
      rewrite Hl1 in *. rewrite <- Z.add_assoc in *. by split_and!.
    + right. change (- ENOMEM =? - EEXIST) with false. change (- ENOMEM =? 0) with false.
      cbn [negb]. split_and!; [done| |by destruct set1|].
      * destruct set1; cbn -[cap sz] in *. split_and!; [done| |done..].
        unfold strset_load in *. cbn -[cap sz] in *. lia.
      * destruct Hfail as [Hfail|Hfail]; [left; auto |]. exfalso.
        by eapply (strset_table_grows set1 f).
Qed.

(** C20: [strset__add_str] refines the insertion of a string into a map from
    strings to offsets, for a string outside the set's memory and for a pointer
    into it (which a reallocation may move): a known string gives its offset
    and changes nothing; a new string is appended with its NUL to the data in
    use, and its offset is the old data length; all other offsets keep their
    strings.  It fails only with [-ENOMEM], when an allocation fails or the size
    limit is exceeded, and then the set holds the same strings. *)
Theorem strset__add_str_refines set f p s mv o :
  strset_repr set f -> str_denotes set p s ->
  exists r set' o', strset__add_str set p mv o = Some (r, set', o') /\
  match f s with
  | Some off =>
      strset_repr set' f /\ strset__data set' = strset__data set /\
      (r = off \/ (r = - ENOMEM /\ (false ∈ o \/
         strs_data_max_len set < strs_data_len set + zlen s + 1)))
  | None =>
      (r = strs_data_len set /\ strset_repr set' (str_add f s r) /\
       strset__data set' = strset__data set ++ s ++ [0]) \/
      (r = - ENOMEM /\ strset_repr set' f /\ strset__data set' = strset__data set /\
       (false ∈ o \/ strs_data_max_len set < strs_data_len set + zlen s + 1))
  end.
Proof. exact (strset_add_str_ok set f p s mv o). Qed.

(** Looking a string up, on every branch. *)
Lemma strset_find_str_ok set f p s mv o :
  strset_repr set f -> str_denotes set p s ->
  exists r set' o', strset__find_str set p mv o = Some (r, set', o') /\
    strset_repr set' f /\ strset__data set' = strset__data set /\
    (r = default (- ENOENT) (f s) \/
     (r = - ENOMEM /\ (false ∈ o \/ strs_data_max_len set < strs_data_len set + zlen s + 1))).
Proof.
  intros Hr Hp. pose proof (denotes_no_nul set p s Hp) as Hs.
  destruct (str_append_repr set f p s mv o Hr Hp) as
    (r & set1 & o1 & He & Hr1 & Hl1 & Hm1 & Hh1 & Hv1 & Ho1 & Hc).
  unfold strset__find_str. rewrite He. pose proof (zlen_nonneg s).
  destruct Hc as [[-> Hf]|[-> [rest Hdata]]].
  { do 3 eexists. split; [done |]. cbn. split_and!; [done..|]. right. tauto. }
  replace (zlen s + 1 <? 0) with false by lia.
  assert (Hnew : cstr_at (strs_data set1) (strs_data_len set1) = Some s).
  { destruct Hr as (Hd & _). destruct (strset_data_split set Hd) as [_ Hlen].
    rewrite Hdata, Hl1, <- Hlen. by apply cstr_at_app. }
  pose proof Hr1 as (_ & _ & _ & Hrep1). rewrite (repr_find _ _ _ Hrep1) by (by exists s).
  unfold str_amap. rewrite Hnew. destruct (f s) as [off|] eqn:Hfs; cbn.
  - do 3 eexists. split; [done |]. split_and!; [done..|]. left.
    pose proof (repr_off_range set f s off Hr Hfs). pose proof (repr_len_int set f Hr).
    unfold INT_MAX in *. unfold default, id. rewrite s32_small by lia. done.
  - do 3 eexists. split; [done |]. by split_and!; [..|left].
Qed.

(** [strset__find_str] is the lookup of that map: it gives the offset of the
    string, or [-ENOENT] when the set does not hold it, although it writes the
    string to the scratch bytes of the set first; the strings of the set and the
    data in use stay the same.  The only other outcome is [-ENOMEM]. *)
Theorem strset__find_str_refines set f p s mv o :
  strset_repr set f -> str_denotes set p s ->
  exists r set' o', strset__find_str set p mv o = Some (r, set', o') /\
    strset_repr set' f /\ strset__data set' = strset__data set /\
    (r = default (- ENOENT) (f s) \/
     (r = - ENOMEM /\ (false ∈ o \/ strs_data_max_len set < strs_data_len set + zlen s + 1))).
Proof. exact (strset_find_str_ok set f p s mv o). Qed.

(** A new set, for all allocation outcomes. *)
Lemma strset_new_any max data o :
  max <= INT_MAX -> zlen data <= INT_MAX -> (data = [] \/ last data = Some 0) ->
  exists r o', strset__new max (Some data) o = Some (r, o') /\
    match r with
    | Ok set => strset_repr set (first_offset data) /\ strset__data set = data /\
                strs_data_max_len set = max
    | Err e => e = ENOMEM /\ false ∈ o
    end.
Proof.
  intros Hmax Hlen Hterm. unfold strset__new, hashmap__new.
  destruct (alloc_cases o) as (o1 & Ho1 & [->|[-> ?]]); cbn [negb]; [|by do 2 eexists; split; [reflexivity | cbn; auto]].
  destruct (alloc_cases o1) as (o2 & Ho2 & [->|[-> ?]]); cbn [negb]; [|by do 2 eexists; split; [reflexivity | cbn; auto]].
  destruct (alloc_cases o2) as (o3 & Ho3 & [->|[-> ?]]); cbn [negb]; [|by do 2 eexists; split; [reflexivity | cbn; auto]].
  destruct (strset_index_new max data o3 Hmax Hlen Hterm) as (r & o' & He & Hr).
  exists r, o'. split; [exact He |]. destruct r; [done |]. destruct Hr. auto.
Qed.

(** [strset__new] over initial data that is empty or ends with a NUL always
    returns, without reading past the data: a set that holds exactly the strings
    of the data, each at the offset of its first occurrence, or [-ENOMEM] when
    an allocation fails. *)
Theorem strset__new_spec max data o :
  max <= INT_MAX -> zlen data <= INT_MAX -> (data = [] \/ last data = Some 0) ->
  exists r o', strset__new max (Some data) o = Some (r, o') /\
    match r with
    | Ok set => strset_repr set (first_offset data) /\ strset__data set = data /\
                strs_data_max_len set = max
    | Err e => e = ENOMEM /\ false ∈ o
    end.
Proof. exact (strset_new_any max data o). Qed.

(** ** A concrete set: the data is "\0ab\0" and then "ab" and "b" are added. *)
Definition demo_set : strset :=
  match strset__new 64 (Some [0; 97; 98; 0; 97; 98; 0]) [] with
  | Some (Ok set, _) => set
  | _ => Strset [] 0 0 0 hashmap__init
  end.

Lemma strset_new_ok max data :
  max <= INT_MAX -> zlen data <= INT_MAX -> (data = [] \/ last data = Some 0) ->
  exists set o', strset__new max (Some data) [] = Some (Ok set, o') /\
    strset_repr set (first_offset data).
Proof.
  intros Hmax Hlen Hterm. unfold strset__new, hashmap__new. cbn [alloc negb].
  destruct (strset_index_new max data [] Hmax Hlen Hterm) as ([set|e] & o' & He & Hr).
  - exists set, o'. by destruct Hr.
  - destruct Hr as [_ Hr]. by apply not_elem_of_nil in Hr.
Qed.

Lemma demo_set_repr : strset_repr demo_set (first_offset [0; 97; 98; 0; 97; 98; 0]).
Proof.
  unfold demo_set. destruct (strset_new_ok 64 [0; 97; 98; 0; 97; 98; 0]) as (set & o' & -> & Hr);
    [by vm_compute | by vm_compute | by right | exact Hr].
Qed.

(** Adding "b" through a pointer into the set's own data. *)
Lemma strset__add_str_refines_witness :
  exists set', strset__add_str demo_set (PtrIn 2) true [] = Some (7, set', []) /\
    strset__data set' = [0; 97; 98; 0; 97; 98; 0; 98; 0] /\
    strset_repr set' (str_add (first_offset [0; 97; 98; 0; 97; 98; 0]) [98] 7).
Proof.
  destruct (strset__add_str_refines demo_set (first_offset [0; 97; 98; 0; 97; 98; 0]) (PtrIn 2)
    [98] true [] demo_set_repr ltac:(by vm_compute)) as (r & set' & o' & He & Hc).
  assert (Hv : (fun x => fst (fst x)) <$> strset__add_str demo_set (PtrIn 2) true [] = Some 7)
    by (by vm_compute).
  assert (Ho : snd <$> strset__add_str demo_set (PtrIn 2) true [] = Some [])
    by (by vm_compute).
  rewrite He in Hv, Ho. injection Hv as ->. injection Ho as ->. exists set'.
  change (first_offset [0; 97; 98; 0; 97; 98; 0] [98]) with (@None Z) in Hc.
  destruct Hc as [(_ & H2 & H3)|(H & _)]; [|discriminate H].
  split_and!; [exact He | rewrite H3; by vm_compute | exact H2].
Defined.

Lemma strset__find_str_refines_witness :
  exists set', strset__find_str demo_set (PtrExt [97; 98]) true [] = Some (1, set', []) /\
    strset_repr set' (first_offset [0; 97; 98; 0; 97; 98; 0]).
Proof.
  destruct (strset__find_str_refines demo_set (first_offset [0; 97; 98; 0; 97; 98; 0])
    (PtrExt [97; 98]) [97; 98] true [] demo_set_repr) as (r & set' & o' & He & Hr & _).
  { cbn. split_and!; [done | by repeat constructor | done]. }
  assert (Hv : (fun x => (fst (fst x), snd x)) <$> strset__find_str demo_set (PtrExt [97; 98]) true []
    = Some (1, [])) by (by vm_compute).
  rewrite He in Hv. injection Hv as -> ->. exists set'. split; [exact He | exact Hr].
Defined.

Lemma strset__new_spec_witness :
  strset_repr demo_set (first_offset [0; 97; 98; 0; 97; 98; 0]) /\
  first_offset [0; 97; 98; 0; 97; 98; 0] [97; 98] = Some 1.
Proof.
  split; [|reflexivity].
  destruct (strset__new_spec 64 [0; 97; 98; 0; 97; 98; 0] []) as (r & o' & He & Hr);
    [by vm_compute | by vm_compute | by right |].
  unfold demo_set. rewrite He. destruct r; [apply Hr |].
  destruct Hr as [_ Hr]. exact (False_ind _ (not_elem_of_nil _ Hr)).
Defined.
