(* ===== verification/Nlattr.v ===== *)
(** * Nlattr: netlink attributes of [src/src/nlattr.c] and [src/src/nlattr.h]

    A message is a list of bytes and an attribute is the offset of its header in
    it (length and type, 16 bits each, little endian).  [None] is a read outside
    the message.  The parser is modelled with its policy check, the builder with
    the request buffer it fills.

    The theorems: the parser always stops and never reads outside the stream,
    whatever the bytes; it fails exactly when an attribute of a known type breaks
    the policy, and else the index holds the last attribute of each type; a
    sequence of [nlattr_add] followed by the parser gives the payloads back. *)
From S2P Require Import Prelude.
Open Scope Z_scope.

(** ** Constants and data *)
Abbreviation LIBBPF_NLA_UNSPEC := 0 (only parsing).
Abbreviation LIBBPF_NLA_U8 := 1 (only parsing).
Abbreviation LIBBPF_NLA_U16 := 2 (only parsing).
Abbreviation LIBBPF_NLA_U32 := 3 (only parsing).
Abbreviation LIBBPF_NLA_U64 := 4 (only parsing).
Abbreviation LIBBPF_NLA_STRING := 5 (only parsing).
Abbreviation LIBBPF_NLA_FLAG := 6 (only parsing).
Abbreviation LIBBPF_NLA_TYPE_MAX := 8 (only parsing).

Definition NLA_ALIGN (len : Z) : Z := Z.land (len + 3) (Z.lnot 3).
Definition NLA_HDRLEN : Z := 4.
Definition NLMSG_HDRLEN : Z := 16.
Definition NLA_F_NESTED : Z := 32768.
Definition EMSGSIZE : Z := 90.

Record libbpf_nla_policy := NlaPolicy {
  pol_type : Z;
  pol_minlen : Z;
  pol_maxlen : Z
}.

(** Indexed by attribute type; entries the initialiser does not name are 0. *)
Definition nla_attr_minlen : list Z := [0; 1; 2; 4; 8; 1; 0; 0; 0].

(** ** Reading attributes *)
Definition nla_len_field (msg : list Z) (nla : Z) : option Z := load msg nla 2.

(** The attribute after this one, and the bytes that remain from there. *)
Definition nla_next (msg : list Z) (nla remaining : Z) : option (Z * Z) :=
  nla_len ← nla_len_field msg nla;
  let totlen := NLA_ALIGN nla_len in
  Some (nla + totlen, remaining - totlen).

Definition nla_ok (msg : list Z) (nla remaining : Z) : option bool :=
  if 4 <=? remaining then
    nla_len ← nla_len_field msg nla;
    Some ((4 <=? nla_len) && (nla_len <=? remaining))
  else Some false.

Definition nla_type (msg : list Z) (nla : Z) : option Z :=
  t ← load msg (nla + 2) 2; Some (Z.land t 16383).

Definition libbpf_nla_data (nla : Z) : Z := nla + NLA_HDRLEN.

Definition libbpf_nla_len (msg : list Z) (nla : Z) : option Z :=
  nla_len ← nla_len_field msg nla; Some (nla_len - NLA_HDRLEN).

Definition validate_nla (msg : list Z) (nla maxtype : Z) (policy : list libbpf_nla_policy) :
  option Z :=
  type ← nla_type msg nla;
  if (type <? 0) || (maxtype <? type) then Some 0 else
  pt ← znth policy type;
  if LIBBPF_NLA_TYPE_MAX <? pol_type pt then Some 0 else
  minlen ← (if negb (pol_minlen pt =? 0) then Some (pol_minlen pt)
            else if negb (pol_type pt =? LIBBPF_NLA_UNSPEC) then znth nla_attr_minlen (pol_type pt)
            else Some 0);
  len ← libbpf_nla_len msg nla;
  if len <? minlen then Some (- EINVAL) else
  if negb (pol_maxlen pt =? 0) && (pol_maxlen pt <? len) then Some (- EINVAL) else
  if pol_type pt =? LIBBPF_NLA_STRING then
    b ← znth msg (libbpf_nla_data nla + len - 1);
    Some (if negb (b =? 0) then - EINVAL else 0)
  else Some 0.

(** The loop of [libbpf_nla_parse], [tb] being the index filled so far. *)
Fixpoint nla_parse_loop (fuel : nat) (msg : list Z) (tb : list (option Z)) (maxtype nla rem : Z)
    (policy : option (list libbpf_nla_policy)) : option (Z * list (option Z)) :=
  match fuel with
  | O => None
  | S fuel =>
      ok ← nla_ok msg nla rem;
      if negb ok then Some (0, tb) else
      type ← nla_type msg nla;
      let continue tb :=
        '(nla, rem) ← nla_next msg nla rem;
        nla_parse_loop fuel msg tb maxtype nla rem policy in
      if maxtype <? type then continue tb else
      err ← match policy with
            | Some policy => validate_nla msg nla maxtype policy
            | None => Some 0
            end;
      if err <? 0 then Some (err, tb) else
      continue (zupd tb type (Some nla))
  end.

Definition libbpf_nla_parse (msg : list Z) (maxtype head len : Z)
    (policy : option (list libbpf_nla_policy)) : option (Z * list (option Z)) :=
  nla_parse_loop (S (Z.to_nat len)) msg (replicate (Z.to_nat (maxtype + 1)) None)
                 maxtype head len policy.

Definition libbpf_nla_parse_nested (msg : list Z) (maxtype nla : Z)
    (policy : option (list libbpf_nla_policy)) : option (Z * list (option Z)) :=
  len ← libbpf_nla_len msg nla;
  libbpf_nla_parse msg maxtype (libbpf_nla_data nla) len policy.

Definition libbpf_nla_getattr_u8 (msg : list Z) (nla : Z) : option Z := load msg (libbpf_nla_data nla) 1.
Definition libbpf_nla_getattr_u16 (msg : list Z) (nla : Z) : option Z := load msg (libbpf_nla_data nla) 2.
Definition libbpf_nla_getattr_u32 (msg : list Z) (nla : Z) : option Z := load msg (libbpf_nla_data nla) 4.
Definition libbpf_nla_getattr_u64 (msg : list Z) (nla : Z) : option Z := load msg (libbpf_nla_data nla) 8.
Definition libbpf_nla_getattr_str (msg : list Z) (nla : Z) : option (list Z) :=
  cstr_at msg (libbpf_nla_data nla).

(** ** The extended acknowledgement *)
Definition NLM_F_CAPPED : Z := 256.
Definition NLM_F_ACK_TLVS : Z := 512.
Definition NLMSGERR_ATTR_MSG : Z := 1.
Definition NLMSGERR_ATTR_OFFS : Z := 2.
Definition NLMSGERR_ATTR_MAX : Z := 6.

(** [nlmsg_len] of the header at [nlh], as an [int]. *)
Definition nlmsg_len (msg : list Z) (nlh : Z) : option Z :=
  l ← load msg nlh 4; Some (s32 (l - NLMSG_HDRLEN)).

Definition extack_policy : list libbpf_nla_policy :=
  [NlaPolicy 0 0 0; NlaPolicy LIBBPF_NLA_STRING 0 0; NlaPolicy LIBBPF_NLA_U32 0 0;
   NlaPolicy 0 0 0; NlaPolicy 0 0 0; NlaPolicy 0 0 0; NlaPolicy 0 0 0].

(** What is printed: nothing, the parse warning, or the kernel's message, for
    which [None] is the null pointer given to the printing function. *)
Inductive extack_output :=
| ExtackNone
| ExtackBad
| ExtackMsg (errmsg : option (list Z)).

Definition libbpf_nla_dump_errormsg (msg : list Z) (nlh : Z) : option (Z * extack_output) :=
  flags ← load msg (nlh + 6) 2;
  if Z.land flags NLM_F_ACK_TLVS =? 0 then Some (0, ExtackNone) else
  let err := nlh + NLMSG_HDRLEN in
  hlen ← (if Z.land flags NLM_F_CAPPED =? 0
          then l ← nlmsg_len msg (err + 4); Some (s32 (20 + l))
          else Some 20);
  let attr := err + hlen in
  len ← load msg nlh 4;
  let alen := s32 (nlh + len - attr) in
  '(ret, tb) ← libbpf_nla_parse msg NLMSGERR_ATTR_MAX attr alen (Some extack_policy);
  if negb (ret =? 0) then Some (0, ExtackBad) else
  match znth tb NLMSGERR_ATTR_MSG with
  | Some (Some a) => s ← cstr_at msg (libbpf_nla_data a); Some (0, ExtackMsg (Some s))
  | _ => Some (0, ExtackMsg None)
  end.

(** ** Building requests

    [req_mem] is the memory of the request, [sizeof] bytes; [req_len] is its
    [nh.nlmsg_len], the first word. *)
Record libbpf_nla_req := NlaReq {
  req_mem : list Z
}.

Definition req_len (req : libbpf_nla_req) : Z := default 0 (load (req_mem req) 0 4).

Definition set_req_len (req : libbpf_nla_req) (len : Z) : libbpf_nla_req := NlaReq (memcpy (req_mem req) 0 (le_split 4 len)).

Definition NLMSG_ALIGN (len : Z) : Z := Z.land (u32 (len + 3)) (u32 (Z.lnot 3)).

Definition req_tail (req : libbpf_nla_req) : Z := NLMSG_ALIGN (req_len req).

(** [data = None] is the null pointer; the bytes given have length [len]. *)
Definition nlattr_add (req : libbpf_nla_req) (type : Z) (data : option (list Z)) (len : Z) :
  Z * libbpf_nla_req :=
  if zlen (req_mem req) <? u32 (NLMSG_ALIGN (req_len req) + NLA_ALIGN (NLA_HDRLEN + len))
  then (- EMSGSIZE, req) else
  if negb (Bool.eqb (match data with Some _ => true | None => false end) (negb (len =? 0)))
  then (- EINVAL, req) else
  let nla := req_tail req in
  let nla_len := u16 (NLA_HDRLEN + len) in
  let mem := memcpy (req_mem req) (nla + 2) (le_split 2 (u16 type)) in
  let mem := memcpy mem nla (le_split 2 nla_len) in
  let mem := match data with Some bs => memcpy mem (nla + NLA_HDRLEN) bs | None => mem end in
  let req := NlaReq mem in
  (0, set_req_len req (u32 (NLMSG_ALIGN (req_len req) + NLA_ALIGN nla_len))).

Definition nlattr_begin_nested (req : libbpf_nla_req) (type : Z) : option Z * libbpf_nla_req :=
  let tail := req_tail req in
  let '(err, req) := nlattr_add req (Z.lor type NLA_F_NESTED) None 0 in
  if negb (err =? 0) then (None, req) else (Some tail, req).

Definition nlattr_end_nested (req : libbpf_nla_req) (tail : Z) : libbpf_nla_req :=
  NlaReq (memcpy (req_mem req) tail (le_split 2 (u16 (req_tail req - tail)))).

(** ** What the parser should see *)
Record attr := Attr { a_off : Z; a_type : Z; a_len : Z }.

(** The attributes of the [rem] bytes at [nla], up to the first header that does
    not describe an attribute inside them. *)
Inductive nla_stream (msg : list Z) : Z -> Z -> list attr -> Prop :=
| stream_end nla rem : nla_ok msg nla rem = Some false -> nla_stream msg nla rem []
| stream_attr nla rem len type l :
    nla_ok msg nla rem = Some true ->
    nla_len_field msg nla = Some len -> nla_type msg nla = Some type ->
    nla_stream msg (nla + NLA_ALIGN len) (rem - NLA_ALIGN len) l ->
    nla_stream msg nla rem (Attr nla type (len - 4) :: l).

(** An attribute lies in the stream [head .. head + len). *)
Definition attr_inside (head len : Z) (a : attr) : Prop :=
  head <= a_off a /\ 0 <= a_len a /\ a_off a + 4 + a_len a <= head + len /\ 0 <= a_type a < 16384.

(** The least payload a policy entry asks for. *)
Definition policy_minlen (pt : libbpf_nla_policy) : Z :=
  if pol_minlen pt =? 0 then default 0 (znth nla_attr_minlen (pol_type pt)) else pol_minlen pt.

Definition entry_ok (msg : list Z) (pt : libbpf_nla_policy) (a : attr) : Prop :=
  pol_type pt <= LIBBPF_NLA_TYPE_MAX ->
  policy_minlen pt <= a_len a /\
  (pol_maxlen pt <> 0 -> a_len a <= pol_maxlen pt) /\
  (pol_type pt = LIBBPF_NLA_STRING -> znth msg (a_off a + 4 + a_len a - 1) = Some 0).

Definition attr_ok (msg : list Z) (policy : option (list libbpf_nla_policy)) (a : attr) : Prop :=
  match policy with
  | Some p => forall pt, znth p (a_type a) = Some pt -> entry_ok msg pt a
  | None => True
  end.

(** A policy has one entry per type up to [maxtype], with unsigned fields. *)
Definition policy_wf (maxtype : Z) (policy : option (list libbpf_nla_policy)) : Prop :=
  match policy with
  | Some p => zlen p = maxtype + 1 /\
      Forall (fun pt => 0 <= pol_type pt /\ 0 <= pol_minlen pt /\ 0 <= pol_maxlen pt) p
  | None => True
  end.

(** The last attribute of a type. *)
Definition last_attr (t : Z) (l : list attr) : option attr :=
  last (filter (fun a => a_type a = t) l).

(** ** Alignment *)
Lemma land_lnot3 z : Z.land z (Z.lnot 3) = z / 4 * 4.
Proof.
  rewrite <- Z.ldiff_land. change 3 with (Z.ones 2). rewrite Z.ldiff_ones_r by lia.
  by rewrite Z.shiftl_mul_pow2, Z.shiftr_div_pow2 by lia.
Qed.

Lemma NLA_ALIGN_eq len : NLA_ALIGN len = (len + 3) / 4 * 4.
Proof. apply land_lnot3. Qed.

Lemma NLMSG_ALIGN_eq len : 0 <= len < 4294967293 -> NLMSG_ALIGN len = (len + 3) / 4 * 4.
Proof.
  intros. unfold NLMSG_ALIGN. rewrite (u32_small (len + 3)) by lia. rewrite <- land_lnot3.
  change (u32 (Z.lnot 3)) with (Z.land (Z.lnot 3) (Z.ones 32)).
  rewrite (Z.land_comm (Z.lnot 3)), Z.land_assoc, Z.land_ones by lia.
  rewrite Z.mod_small by lia. done.
Qed.

(** ** The parser *)
Lemma nla_ok_total msg nla rem :
  0 <= nla -> nla + rem <= zlen msg -> is_Some (nla_ok msg nla rem).
Proof.
  intros. unfold nla_ok, nla_len_field. case_if; [|by eexists].
  destruct (load_is_Some msg nla 2) as [v ->]; [lia.. |]. by eexists.
Qed.

(** What [nla_ok] guarantees about the header. *)
Lemma nla_ok_true msg nla rem :
  Forall is_byte msg -> 0 <= nla -> nla + rem <= zlen msg -> nla_ok msg nla rem = Some true ->
  exists len type, nla_len_field msg nla = Some len /\ nla_type msg nla = Some type /\
    4 <= len <= rem /\ 0 <= type < 16384.
Proof.
  intros Hb Hn Hl. unfold nla_ok. case_if; [|done].
  destruct (nla_len_field msg nla) as [len|]; [|done]. cbn. intros [= Hok]. bools.
  unfold nla_type. destruct (load_is_Some msg (nla + 2) 2) as [v Hv]; [lia.. |].
  rewrite Hv. cbn. exists len, (Z.land v 16383). split_and!; try (done || lia).
  - apply Z.land_nonneg. lia.
  - change 16383 with (Z.ones 14). rewrite Z.land_ones by lia. lia.
Qed.

Lemma nla_minlen_cases pt :
  0 <= pol_type pt <= LIBBPF_NLA_TYPE_MAX ->
  (if negb (pol_minlen pt =? 0) then Some (pol_minlen pt)
   else if negb (pol_type pt =? LIBBPF_NLA_UNSPEC) then znth nla_attr_minlen (pol_type pt)
   else Some 0) = Some (policy_minlen pt).
Proof.
  intros Ht. unfold policy_minlen in *.
  destruct (pol_minlen pt =? 0); cbn [negb]; [|done]. case_if.
  - destruct (znth_is_Some nla_attr_minlen (pol_type pt)) as [v Hv];
      [change (zlen nla_attr_minlen) with 9; lia |]. by rewrite Hv.
  - by replace (pol_type pt) with 0 by lia.
Qed.

Lemma validate_nla_spec msg maxtype policy nla len type :
  zlen policy = maxtype + 1 ->
  Forall (fun pt => 0 <= pol_type pt /\ 0 <= pol_minlen pt /\ 0 <= pol_maxlen pt) policy ->
  nla_len_field msg nla = Some len -> nla_type msg nla = Some type ->
  0 <= type <= maxtype -> 0 <= nla -> 4 <= len -> nla + len <= zlen msg ->
  let a := Attr nla type (len - 4) in
  (validate_nla msg nla maxtype policy = Some 0 /\ attr_ok msg (Some policy) a) \/
  (validate_nla msg nla maxtype policy = Some (- EINVAL) /\ ~ attr_ok msg (Some policy) a).
Proof.
  intros Hpl Hpol Hlen Htype Ht Hn Hl4 Hin a. unfold validate_nla. rewrite Htype. cbn [mbind option_bind].
  replace ((type <? 0) || (maxtype <? type)) with false by lia.
  destruct (znth_is_Some policy type) as [pt Hpt]; [lia |]. rewrite Hpt. cbn [mbind option_bind].
  assert (Hwf : 0 <= pol_type pt /\ 0 <= pol_minlen pt /\ 0 <= pol_maxlen pt).
  { eapply Forall_forall in Hpol; [exact Hpol |]. unfold znth in Hpt. case_if_in Hpt; [done |].
    by eapply list_elem_of_lookup_2. }
  assert (Hattr : attr_ok msg (Some policy) a <-> entry_ok msg pt a).
  { cbn. rewrite Hpt. split; [auto |]. intros. by simplify_eq. }
  rewrite Hattr. unfold entry_ok. cbn [a_off a_len a].
  case_if; [left; split; [done | lia] |].
  rewrite nla_minlen_cases by lia. unfold libbpf_nla_len. rewrite Hlen. cbn [mbind option_bind].
  unfold NLA_HDRLEN, libbpf_nla_data in *.
  case_if; [right; split; [done | intros Hx; destruct Hx as (? & ? & ?); lia] |].
  case_if; [right; split; [done | intros Hx; destruct Hx as (? & ? & ?); bools; lia] |].
  case_if; [|left; split; [done |]; intros; split_and!; lia].
  assert (1 <= len - 4).
  { unfold policy_minlen in *. replace (pol_type pt) with 5 in * by lia.
    change (default 0 (znth nla_attr_minlen 5)) with 1 in *. case_if_in Heqb0; lia. }
  unfold NLA_HDRLEN. destruct (znth_is_Some msg (nla + 4 + (len - 4) - 1)) as [b Hb]; [lia |].
  rewrite Hb. cbn [mbind option_bind]. case_if; [right | left]; (split; [done |]).
  - intros Hx. destruct Hx as (_ & _ & Hx); [lia |]. specialize (Hx ltac:(lia)). by simplify_eq.
  - intros _. split_and!; [lia..|]. intros _. f_equal. lia.
Qed.

Lemma last_attr_cons t a l :
  last_attr t (a :: l) =
  match last_attr t l with
  | Some a' => Some a'
  | None => if a_type a =? t then Some a else None
  end.
Proof.
  unfold last_attr. rewrite filter_cons. case_decide as Hd; rewrite ?last_cons.
  - replace (a_type a =? t) with true by lia. by destruct (last _).
  - replace (a_type a =? t) with false by lia. by destruct (last _).
Qed.

(** The index after the attributes [l] are entered into [tb]. *)
Definition tb_after (maxtype : Z) (tb tb' : list (option Z)) (l : list attr) : Prop :=
  zlen tb' = maxtype + 1 /\
  forall t, 0 <= t <= maxtype ->
    znth tb' t = match last_attr t l with Some a => Some (Some (a_off a)) | None => znth tb t end.

(** What parsing the [rem] bytes at [nla] into [tb] promises. *)
Record parse_post (msg : list Z) (maxtype : Z) (policy : option (list libbpf_nla_policy))
    (tb : list (option Z)) (nla rem : Z) (ret : Z) (tb' : list (option Z)) (l : list attr) : Prop := {
  post_stream : nla_stream msg nla rem l;
  post_inside : Forall (attr_inside nla rem) l;
  post_result :
    (ret = 0 /\ (forall a, a ∈ l -> a_type a <= maxtype -> attr_ok msg policy a) /\
     tb_after maxtype tb tb' l) \/
    (ret = - EINVAL /\ exists a, a ∈ l /\ a_type a <= maxtype /\ ~ attr_ok msg policy a)
}.

(** One iteration: the attribute at [nla] is skipped when its type is unknown,
    and else it is valid and entered. *)
Lemma parse_post_step msg maxtype policy tb tb1 nla rem len type ret tb' l :
  nla_ok msg nla rem = Some true ->
  nla_len_field msg nla = Some len -> nla_type msg nla = Some type ->
  0 <= nla -> 4 <= len <= rem -> 0 <= type < 16384 -> zlen tb = maxtype + 1 ->
  (maxtype < type /\ tb1 = tb \/
   type <= maxtype /\ tb1 = zupd tb type (Some nla) /\ attr_ok msg policy (Attr nla type (len - 4))) ->
  parse_post msg maxtype policy tb1 (nla + NLA_ALIGN len) (rem - NLA_ALIGN len) ret tb' l ->
  parse_post msg maxtype policy tb nla rem ret tb' (Attr nla type (len - 4) :: l).
Proof.
  intros Hok Hlen Htype Hn Hl Ht Htb Hcase [Hs Hi Hr]. pose proof (NLA_ALIGN_eq len) as Hal.
  split; [by econstructor | |].
  { constructor; [unfold attr_inside; cbn; lia |]. eapply Forall_impl; [exact Hi |].
    unfold attr_inside. intros a. lia. }
  destruct Hr as [(-> & Hv & Hz & Htb')|(-> & a & Ha & Hbad)]; [left | right].
  - unfold tb_after. split_and!; [done | |done |].
    + intros a [->|Ha]%elem_of_cons; [|by apply Hv]. cbn. destruct Hcase as [Hc|(_ & _ & Hc)]; [lia | done].
    + intros t Hrange. rewrite Htb', last_attr_cons by done. cbn [a_type a_off].
      destruct (last_attr t l); [done |]. destruct Hcase as [[Hc ->]|(Hc & -> & _)].
      * by replace (type =? t) with false by lia.
      * case_if; [|by rewrite znth_zupd_ne by lia].
        replace t with type by lia. rewrite znth_zupd_eq by lia. done.
  - split; [done |]. exists a. by split; [apply elem_of_cons; right |].
Qed.

Lemma nla_parse_loop_spec fuel msg tb maxtype nla rem policy :
  Forall is_byte msg -> policy_wf maxtype policy -> zlen tb = maxtype + 1 ->
  0 <= nla -> nla + rem <= zlen msg -> Z.max 0 rem < Z.of_nat fuel ->
  exists ret tb' l, nla_parse_loop fuel msg tb maxtype nla rem policy = Some (ret, tb') /\
    parse_post msg maxtype policy tb nla rem ret tb' l.
Proof.
  intros Hb Hpol. revert tb nla rem. induction fuel as [|fuel IH]; intros tb nla rem Htb Hn Hin Hf; [lia |].
  destruct (nla_ok_total msg nla rem Hn Hin) as [[] Hok].
  2: { exists 0, tb, []. cbn [nla_parse_loop]. rewrite Hok. split; [done |].
       split; [by constructor | done |]. left. unfold tb_after. by split_and!; [|intros ? ?%not_elem_of_nil| |]. }
  destruct (nla_ok_true msg nla rem Hb Hn Hin Hok) as (len & type & Hlen & Htype & Hl & Ht).
  pose proof (NLA_ALIGN_eq len) as Hal.
  cbn [nla_parse_loop]. unfold nla_next. rewrite Hok. cbn [mbind option_bind negb].
  rewrite Htype, Hlen. cbn [mbind option_bind].
  assert (Hgo : forall tb1, zlen tb1 = maxtype + 1 ->
    (maxtype < type /\ tb1 = tb \/
     type <= maxtype /\ tb1 = zupd tb type (Some nla) /\ attr_ok msg policy (Attr nla type (len - 4))) ->
    exists ret tb' l, nla_parse_loop fuel msg tb1 maxtype (nla + NLA_ALIGN len) (rem - NLA_ALIGN len) policy
      = Some (ret, tb') /\ parse_post msg maxtype policy tb nla rem ret tb' l).
  { intros tb1 Htb1 Hcase. destruct (IH tb1 (nla + NLA_ALIGN len) (rem - NLA_ALIGN len))
      as (ret & tb' & l & He & Hp); try (done || lia).
    exists ret, tb', (Attr nla type (len - 4) :: l). split; [done |]. by eapply parse_post_step. }
  case_if; [apply Hgo; [done | left; split; [lia | done]] |].
  assert (Htb1 : zlen (zupd tb type (Some nla)) = maxtype + 1) by (by rewrite zlen_zupd).
  destruct policy as [p|].
  - destruct Hpol as [Hpl Hpf].
    destruct (validate_nla_spec msg maxtype p nla len type Hpl Hpf Hlen Htype)
      as [[-> Hv]|[-> Hv]]; [lia..| |].
    + apply Hgo; [done |]. right. by split_and!; [lia | |].
    + destruct (IH tb (nla + NLA_ALIGN len) (rem - NLA_ALIGN len)) as (ret & tb' & l & _ & [Hs Hi _]);
        try (done || lia).
      exists (- EINVAL), tb, (Attr nla type (len - 4) :: l). split; [done |]. split; [by econstructor | |].
      * constructor; [unfold attr_inside; cbn; lia |]. eapply Forall_impl; [exact Hi |].
        unfold attr_inside. intros a. lia.
      * right. split; [done |]. eexists. split_and!; [by apply elem_of_cons; left | cbn; lia | done].
  - apply Hgo; [done |]. right. by split_and!; [lia | |].
Qed.

(** C34: [libbpf_nla_parse] on any bytes returns and reads only the stream it is
    given (the result is never [None]).  It returns [-EINVAL] exactly when an
    attribute of a type up to [maxtype] breaks the policy, and else 0 with
    the index holding, for every type, the last attribute of that type in the
    stream; attributes of greater types are ignored. *)
Theorem libbpf_nla_parse_spec msg maxtype head len policy :
  Forall is_byte msg -> 0 <= head -> head + len <= zlen msg -> 0 <= maxtype ->
  policy_wf maxtype policy ->
  exists ret tb l, libbpf_nla_parse msg maxtype head len policy = Some (ret, tb) /\
    nla_stream msg head len l /\ Forall (attr_inside head len) l /\
    ((ret = 0 /\ (forall a, a ∈ l -> a_type a <= maxtype -> attr_ok msg policy a) /\
      zlen tb = maxtype + 1 /\
      forall t, 0 <= t <= maxtype -> znth tb t = Some (a_off <$> last_attr t l)) \/
     (ret = - EINVAL /\ exists a, a ∈ l /\ a_type a <= maxtype /\ ~ attr_ok msg policy a)).
Proof.
  intros Hb Hh Hl Hm Hp.
  set (tb0 := replicate (Z.to_nat (maxtype + 1)) (@None Z)).
  assert (Htb0 : zlen tb0 = maxtype + 1) by (unfold tb0; rewrite zlen_replicate; lia).
  destruct (nla_parse_loop_spec (S (Z.to_nat len)) msg tb0 maxtype head len policy)
    as (ret & tb & l & He & [Hs Hi Hr]); [done.. | lia |].
  exists ret, tb, l. split_and!; [done..|].
  destruct Hr as [(-> & Hv & Hz & Ht)|Hr]; [left | by right]. split_and!; [done..|].
  intros t Hrange. rewrite Ht by done. destruct (last_attr t l); cbn; [done |].
  unfold znth, tb0. case_if; [lia |]. apply lookup_replicate. split; [done | lia].
Qed.

(** ** The builder *)

(** [nlattr_add] of each pair of a type and a payload, up to the first failure;
    an empty payload is passed as the null pointer. *)
Fixpoint nlattr_add_all (req : libbpf_nla_req) (l : list (Z * list Z)) : Z * libbpf_nla_req :=
  match l with
  | [] => (0, req)
  | (t, bs) :: l =>
      let '(err, req) := nlattr_add req t (match bs with [] => None | _ => Some bs end) (zlen bs) in
      if negb (err =? 0) then (err, req) else nlattr_add_all req l
  end.

(** The bytes the attributes take. *)
Fixpoint attrs_span (l : list (Z * list Z)) : Z :=
  match l with [] => 0 | (t, bs) :: l => NLA_ALIGN (4 + zlen bs) + attrs_span l end.

(** The memory holds the attributes one after the other from [pos] on. *)
Fixpoint attrs_at (mem : list Z) (pos : Z) (l : list (Z * list Z)) : Prop :=
  match l with
  | [] => True
  | (t, bs) :: l =>
      load mem pos 2 = Some (4 + zlen bs) /\ load mem (pos + 2) 2 = Some t /\
      slice mem (pos + 4) (zlen bs) = Some bs /\
      attrs_at mem (pos + NLA_ALIGN (4 + zlen bs)) l
  end.

Fixpoint attrs_index (pos : Z) (l : list (Z * list Z)) : list attr :=
  match l with
  | [] => []
  | (t, bs) :: l => Attr pos t (zlen bs) :: attrs_index (pos + NLA_ALIGN (4 + zlen bs)) l
  end.

Definition attr_arg_ok (x : Z * list Z) : Prop :=
  0 <= x.1 < 16384 /\ zlen x.2 < 65532 /\ Forall is_byte x.2.

(** A request whose length covers at least the header ([struct nlmsghdr], 16 bytes), in
    memory of moderate size. *)
Definition req_wf (req : libbpf_nla_req) : Prop :=
  Forall is_byte (req_mem req) /\ 16 <= req_len req <= zlen (req_mem req) /\
  zlen (req_mem req) <= INT_MAX.

Lemma attrs_span_nonneg l : 0 <= attrs_span l.
Proof.
  induction l as [|[t bs] l IH]; cbn; [done |]. rewrite NLA_ALIGN_eq.
  pose proof (zlen_nonneg bs). lia.
Qed.

Lemma attrs_at_app mem pos l k :
  attrs_at mem pos (l ++ k) <-> attrs_at mem pos l /\ attrs_at mem (pos + attrs_span l) k.
Proof.
  revert pos. induction l as [|[t bs] l IH]; intros pos; cbn.
  - rewrite Z.add_0_r. tauto.
  - rewrite IH, Z.add_assoc. tauto.
Qed.

(** Only the bytes of the attributes matter. *)
Lemma attrs_at_frame mem mem' pos l :
  (forall off n, pos <= off -> off + n <= pos + attrs_span l -> slice mem' off n = slice mem off n) ->
  attrs_at mem pos l -> attrs_at mem' pos l.
Proof.
  revert pos. induction l as [|[t bs] l IH]; intros pos Hf; cbn [attrs_at attrs_span] in *; [done |].
  pose proof (attrs_span_nonneg l). pose proof (zlen_nonneg bs).
  pose proof (NLA_ALIGN_eq (4 + zlen bs)). unfold load. intros (Ha & Hb & Hc & Hd).
  rewrite !Hf by lia. split_and!; [done..|]. apply IH; [|done].
  intros off n ??. apply Hf; lia.
Qed.

Lemma attrs_stream mem pos l :
  Forall attr_arg_ok l -> attrs_at mem pos l ->
  nla_stream mem pos (attrs_span l) (attrs_index pos l).
Proof.
  revert pos. induction l as [|[t bs] l IH]; intros pos Hok Hat.
  { by constructor. }
  apply Forall_cons in Hok as [(Ht & Hb & _) Hok]. cbn [attrs_at attrs_index attrs_span fst snd] in *.
  destruct Hat as (Hat1 & Hat2 & Hat3 & Hat4). pose proof (attrs_span_nonneg l).
  pose proof (zlen_nonneg bs). pose proof (NLA_ALIGN_eq (4 + zlen bs)).
  replace (zlen bs) with (4 + zlen bs - 4) at 2 by lia. econstructor.
  - unfold nla_ok, nla_len_field. rewrite Hat1. cbn [mbind option_bind].
    replace (4 <=? _) with true by lia. f_equal. lia.
  - exact Hat1.
  - unfold nla_type. rewrite Hat2. cbn. f_equal. change 16383 with (Z.ones 14).
    rewrite Z.land_ones by lia. apply Z.mod_small. lia.
  - replace (NLA_ALIGN _ + attrs_span l - NLA_ALIGN _) with (attrs_span l) by lia. by apply IH.
Qed.

Lemma nla_stream_det msg nla rem l l' :
  nla_stream msg nla rem l -> nla_stream msg nla rem l' -> l = l'.
Proof.
  intros H. revert l'. induction H; intros l' H'; inversion H'; subst; try congruence.
  assert (len0 = len) as -> by congruence. assert (type0 = type) as -> by congruence.
  f_equal. auto.
Qed.

Lemma nlattr_add_spec req t bs :
  req_wf req -> attr_arg_ok (t, bs) ->
  let '(err, req') := nlattr_add req t (match bs with [] => None | _ => Some bs end) (zlen bs) in
  let tail := req_tail req in
  if tail + NLA_ALIGN (4 + zlen bs) <=? zlen (req_mem req) then
    err = 0 /\ req_wf req' /\ req_tail req' = tail + NLA_ALIGN (4 + zlen bs) /\
    req_len req' = tail + NLA_ALIGN (4 + zlen bs) /\
    zlen (req_mem req') = zlen (req_mem req) /\
    attrs_at (req_mem req') tail [(t, bs)] /\
    (forall off n, 4 <= off -> off + n <= tail -> slice (req_mem req') off n = slice (req_mem req) off n)
  else err = - EMSGSIZE /\ req' = req.
Proof.
  intros (Hb & Hl & Hs) (Ht & Hbs & Hbb). cbn [fst snd] in *. unfold INT_MAX in *.
  unfold nlattr_add, req_tail, NLA_HDRLEN. pose proof (zlen_nonneg bs).
  pose proof (NLMSG_ALIGN_eq (req_len req) ltac:(lia)) as Ha.
  pose proof (NLA_ALIGN_eq (4 + zlen bs)) as Hal.
  set (tail := NLMSG_ALIGN (req_len req)) in *. rewrite u32_small by lia.
  case_if; [by replace (_ <=? _) with false by lia |]. replace (_ <=? _) with true by lia.
  assert (Hnull : Bool.eqb (match match bs with [] => None | _ => Some bs end with
      Some _ => true | None => false end) (negb (zlen bs =? 0)) = true).
  { destruct bs as [|b bs]; [done |]. rewrite zlen_cons. pose proof (zlen_nonneg bs).
    by replace (1 + zlen bs =? 0) with false by lia. }
  rewrite Hnull. cbn [negb].
  rewrite (uwrap_small 16 (4 + zlen bs)), (uwrap_small 16 t) by lia.
  set (mem1 := memcpy (req_mem req) (tail + 2) (le_split 2 t)).
  set (mem2 := memcpy mem1 tail (le_split 2 (4 + zlen bs))).
  assert (Hl2 : forall v, zlen (le_split 2 v) = 2) by done.
  assert (Hz1 : zlen mem1 = zlen (req_mem req)) by (apply zlen_memcpy; rewrite ?Hl2; lia).
  assert (Hz2 : zlen mem2 = zlen (req_mem req)) by (unfold mem2; rewrite zlen_memcpy; rewrite ?Hl2; lia).
  set (mem3 := match bs with [] => None | _ => Some bs end).
  assert (Hm3 : match mem3 with Some bs0 => memcpy mem2 (tail + 4) bs0 | None => mem2 end =
    memcpy mem2 (tail + 4) bs).
  { unfold mem3. destruct bs; [|done]. unfold memcpy. cbn [app]. rewrite zlen_nil, Z.add_0_r.
    by rewrite ztake_zdrop. }
  rewrite Hm3. set (mem4 := memcpy mem2 (tail + 4) bs).
  assert (Hz3 : zlen mem4 = zlen (req_mem req)) by (unfold mem4; rewrite zlen_memcpy; lia).
  assert (Hkeep : forall off n, off + n <= tail -> slice mem4 off n = slice (req_mem req) off n).
  { intros off n Ho. unfold mem4. rewrite slice_memcpy_before by lia. unfold mem2.
    rewrite slice_memcpy_before by (rewrite ?Hl2; lia). unfold mem1.
    by rewrite slice_memcpy_before by (rewrite ?Hl2; lia). }
  assert (Hlen4 : req_len (NlaReq mem4) = req_len req) by (unfold req_len, load; cbn [req_mem]; by rewrite Hkeep by lia).
  rewrite Hlen4. fold tail. rewrite u32_small by lia. unfold set_req_len. cbn [req_mem].
  assert (Htail : NLMSG_ALIGN (tail + NLA_ALIGN (4 + zlen bs)) = tail + NLA_ALIGN (4 + zlen bs))
    by (rewrite NLMSG_ALIGN_eq; lia).
  assert (Hl4 : forall v, zlen (le_split 4 v) = 4) by done.
  set (mem5 := memcpy mem4 0 (le_split 4 (tail + NLA_ALIGN (4 + zlen bs)))).
  assert (Hz5 : zlen mem5 = zlen (req_mem req)) by (unfold mem5; rewrite zlen_memcpy; rewrite ?Hl4; lia).
  assert (Hlen5 : req_len (NlaReq mem5) = tail + NLA_ALIGN (4 + zlen bs)).
  { unfold req_len. cbn [req_mem]. unfold mem5. rewrite (load_store_eq mem4 0 4); [done | lia | lia | lia]. }
  assert (Hlate : forall off n, 4 <= off -> slice mem5 off n = slice mem4 off n)
    by (intros off n Ho; unfold mem5; by rewrite slice_memcpy_after by (rewrite ?Hl4; lia)).
  rewrite Hlen5. split_and!; [done | | exact Htail | done | exact Hz5 | |].
  - split_and!; rewrite ?Hlen5; cbn [req_mem]; unfold INT_MAX; try lia.
    repeat (apply Forall_memcpy; [|done || apply le_split_bytes]). done.
  - apply (attrs_at_frame mem4); [intros off n Ho _; apply Hlate; lia |].
    cbn [attrs_at]. split_and!; [| | by apply slice_memcpy_eq; lia | done]; unfold load, mem4.
    all: rewrite slice_memcpy_before by lia.
    + apply (load_store_eq mem1 tail 2); lia.
    + unfold mem2. rewrite slice_memcpy_after by (rewrite ?Hl2; lia).
      apply (load_store_eq (req_mem req) (tail + 2) 2); lia.
  - intros off n Ho Ht'. cbn [req_mem]. rewrite Hlate by lia. by apply Hkeep.
Qed.

Lemma nlattr_add_all_spec req l k base :
  req_wf req -> Forall attr_arg_ok l ->
  4 <= base -> base + attrs_span k = req_tail req -> attrs_at (req_mem req) base k ->
  req_tail req + attrs_span l <= zlen (req_mem req) ->
  exists req', nlattr_add_all req l = (0, req') /\ req_wf req' /\
    req_tail req' = base + attrs_span (k ++ l) /\ (l <> [] -> req_len req' = req_tail req') /\
    zlen (req_mem req') = zlen (req_mem req) /\ attrs_at (req_mem req') base (k ++ l).
Proof.
  revert req k. induction l as [|[t bs] l IH]; intros req k Hw Hok H4 Hbase Hat Hfit.
  { exists req. rewrite app_nil_r. by split_and!. }
  apply Forall_cons in Hok as [Ha Hok]. pose proof (nlattr_add_spec req t bs Hw Ha) as Hadd.
  cbn [nlattr_add_all attrs_span] in *. pose proof (attrs_span_nonneg l).
  destruct (nlattr_add _ _ _ _) as [err req1].
  replace (_ <=? _) with true in Hadd by lia.
  destruct Hadd as (-> & Hw1 & Ht1 & Hl1 & Hz1 & Hat1 & Hf1). cbn [Z.eqb negb].
  assert (Hsp : base + attrs_span (k ++ [(t, bs)]) = req_tail req1).
  { rewrite Ht1, <- Hbase. clear. induction k as [|[t' bs'] k IH]; cbn [app attrs_span] in *; lia. }
  assert (Hat' : attrs_at (req_mem req1) base (k ++ [(t, bs)])).
  { apply attrs_at_app. rewrite Hbase. split; [|done].
    eapply attrs_at_frame; [|exact Hat]. intros. apply Hf1; lia. }
  destruct (IH req1 (k ++ [(t, bs)]) Hw1 Hok H4 Hsp Hat') as (req' & He & Hw' & Htl & Hlen & Hz & Hat2).
  { rewrite Ht1, Hz1. lia. }
  exists req'. rewrite <- (app_assoc k [(t, bs)] l) in *. cbn [app] in *.
  split_and!; try done; [|by rewrite Hz, Hz1].
  intros _. destruct l; [|by apply Hlen]. cbn in He. simplify_eq. by rewrite Hl1, Ht1.
Qed.

(** The last payload given for a type. *)
Definition last_payload (t : Z) (l : list (Z * list Z)) : option (list Z) :=
  snd <$> last (filter (fun x => x.1 = t) l).

Lemma attrs_index_last mem pos l t :
  attrs_at mem pos l ->
  match last_attr t (attrs_index pos l) with
  | Some a => exists bs, last_payload t l = Some bs /\ a_len a = zlen bs /\
      slice mem (libbpf_nla_data (a_off a)) (zlen bs) = Some bs /\
      libbpf_nla_len mem (a_off a) = Some (zlen bs)
  | None => last_payload t l = None
  end.
Proof.
  revert pos. induction l as [|[t' bs] l IH]; intros pos; [done |].
  cbn [attrs_at attrs_index]. intros (H1 & H2 & H3 & H4). specialize (IH _ H4).
  rewrite last_attr_cons. unfold last_payload in *. rewrite filter_cons. cbn [a_type fst].
  destruct (last_attr t _) as [a|].
  - destruct IH as (bs' & Hb & IH). exists bs'. split; [|done]. case_decide; [|done].
    rewrite last_cons. by destruct (last _).
  - destruct (last (filter _ l)) eqn:Hl; [done |]. case_if; case_decide; try lia; [|by rewrite Hl].
    exists bs. rewrite last_cons, Hl. split_and!; [done..|]. unfold libbpf_nla_len, nla_len_field.
    cbn [a_off]. rewrite H1. cbn. f_equal. unfold NLA_HDRLEN. lia.
Qed.

(** C21: building and parsing are inverse: when the attributes fit, a sequence of
    [nlattr_add] succeeds, and [libbpf_nla_parse] of what was added returns 0 and
    indexes, for every type, an attribute with exactly the last payload that was
    given for that type (none when there was none).  The request has a length that
    covers its header, as after its set-up; the length is in the memory that the
    attributes are written to. *)
Theorem nlattr_add_parse_roundtrip req l maxtype :
  req_wf req -> Forall attr_arg_ok l -> 0 <= maxtype -> l <> [] ->
  req_tail req + attrs_span l <= zlen (req_mem req) ->
  exists req' tb, nlattr_add_all req l = (0, req') /\
    libbpf_nla_parse (req_mem req') maxtype (req_tail req) (req_len req' - req_tail req) None
      = Some (0, tb) /\
    forall t, 0 <= t <= maxtype ->
      match last_payload t l with
      | Some bs => exists off, znth tb t = Some (Some off) /\
          libbpf_nla_len (req_mem req') off = Some (zlen bs) /\
          slice (req_mem req') (libbpf_nla_data off) (zlen bs) = Some bs
      | None => znth tb t = Some None
      end.
Proof.
  intros Hw Hok Hm Hne Hfit. pose proof (attrs_span_nonneg l).
  assert (Htail : 4 <= req_tail req)
    by (destruct Hw as (_ & ? & ?); unfold INT_MAX, req_tail in *; rewrite NLMSG_ALIGN_eq; lia).
  destruct (nlattr_add_all_spec req l [] (req_tail req) Hw Hok)
    as (req' & He & Hw' & Htl & Hlen & Hz & Hat); [done | cbn; lia | done | done |].
  specialize (Hlen Hne). cbn [app] in *.
  destruct Hw as (Hb & Hl & Hs). unfold INT_MAX in *.
  set (tb0 := replicate (Z.to_nat (maxtype + 1)) (@None Z)).
  assert (Htb0 : zlen tb0 = maxtype + 1) by (unfold tb0; rewrite zlen_replicate; lia).
  destruct (nla_parse_loop_spec (S (Z.to_nat (attrs_span l))) (req_mem req') tb0 maxtype
    (req_tail req) (attrs_span l) None) as (ret & tb & l' & Hp & [Hst Hi Hr]);
    [by apply Hw' | done | done | lia | lia | lia |].
  rewrite (nla_stream_det _ _ _ _ _ Hst (attrs_stream _ _ _ Hok Hat)) in Hr.
  destruct Hr as [(-> & _ & _ & Ht)|(_ & a & _ & _ & Hbad)]; [|by destruct Hbad].
  exists req', tb. split_and!; [done | |]; [replace (req_len req' - req_tail req) with (attrs_span l) by lia; exact Hp |]. intros t Hrange.
  specialize (Ht t Hrange). pose proof (attrs_index_last _ _ l t Hat) as Hlast.
  destruct (last_attr t (attrs_index (req_tail req) l)) as [a|].
  - destruct Hlast as (bs & -> & _ & Hsl & Hll). by exists (a_off a).
  - rewrite Hlast, Ht. unfold znth, tb0. case_if; [lia |]. apply lookup_replicate.
    split; [done | lia].
Qed.

(** ** Concrete messages *)

(** Two attributes of type 1 (a string) and one of an unknown type 9. *)
Definition demo_msg : list Z :=
  [7; 0; 1; 0; 97; 98; 0; 255; 5; 0; 9; 0; 1; 255; 255; 255; 6; 0; 1; 0; 99; 0].

Lemma libbpf_nla_parse_spec_witness :
  libbpf_nla_parse demo_msg 2 0 22 (Some [NlaPolicy 0 0 0; NlaPolicy 5 0 0; NlaPolicy 3 0 0]) =
    Some (0, [None; Some 16; None]) /\
  exists l, nla_stream demo_msg 0 22 l /\ a_off <$> last_attr 1 l = Some 16.
Proof.
  split; [vm_compute; reflexivity |].
  destruct (libbpf_nla_parse_spec demo_msg 2 0 22
    (Some [NlaPolicy 0 0 0; NlaPolicy 5 0 0; NlaPolicy 3 0 0])) as (ret & tb & l & He & Hs & _ & Hr);
    [by apply bytes_check | done | done | done | by split; [|repeat constructor; cbn] |].
  vm_compute in He. injection He as <- <-. exists l. split; [exact Hs |].
  destruct Hr as [(_ & _ & _ & Ht)|(Hr & _)]; [|discriminate Hr].
  pose proof (Ht 1 ltac:(lia)) as H1. change (znth [None; Some 16; None] 1) with (Some (Some 16)) in H1. congruence.
Defined.

Lemma nlattr_add_parse_roundtrip_witness :
  exists req' tb, nlattr_add_all (NlaReq (16 :: replicate 63 0)) [(3, [1; 2; 3]); (1, []); (3, [4])] = (0, req') /\
    libbpf_nla_parse (req_mem req') 3 16 (req_len req' - 16) None = Some (0, tb) /\
    znth tb 3 = Some (Some 28) /\ slice (req_mem req') 32 1 = Some [4].
Proof.
  destruct (nlattr_add_parse_roundtrip (NlaReq (16 :: replicate 63 0))
    [(3, [1; 2; 3]); (1, []); (3, [4])] 3) as (req' & tb & He & Hp & Ht);
    [by split_and!; [apply bytes_check | | |] | | done | done | done |].
  { repeat (apply Forall_cons; split; [split_and!; [done..|by apply bytes_check] |]). constructor. }
  exists req', tb. split; [exact He | split; [exact Hp |]].
  pose proof (Ht 3 ltac:(lia)) as (off & H1 & H2 & H3).
  assert (Ho : znth tb 3 = Some (Some 28)).
  { pose proof He as He'. vm_compute in He'. injection He' as <-. vm_compute in Hp.
    injection Hp as <-. reflexivity. }
  split; [exact Ho |]. rewrite H1 in Ho. injection Ho as ->. exact H3.
Defined.
