(* ===== verification/Zip.v ===== *)
(** * Zip: the archive reader of [src/src/zip.c]

    An archive is the list of its bytes; the packed structures of the format are
    read with little-endian loads at their offsets.  A pointer into the mapping
    is the offset it has there, [None] from [check_access] being the null
    pointer.  Offsets and sizes are [__u32] and wrap as in the code.  The outer
    [option] is a read outside the mapping, which the theorems exclude. *)
From S2P Require Import Prelude.
Open Scope Z_scope.

Definition END_OF_CD_RECORD_MAGIC : Z := 101010256.
Definition CD_FILE_HEADER_MAGIC : Z := 33639248.
Definition LOCAL_FILE_HEADER_MAGIC : Z := 67324752.
Definition FLAG_ENCRYPTED : Z := 1.
Definition FLAG_HAS_DATA_DESCRIPTOR : Z := 8.

(** ** The packed structures *)
Record end_of_cd_record := EndOfCd {
  eocd_magic : Z; eocd_this_disk : Z; eocd_cd_disk : Z; eocd_cd_records : Z;
  eocd_cd_records_total : Z; eocd_cd_size : Z; eocd_cd_offset : Z; eocd_comment_length : Z
}.

Definition load_eocd (data : list Z) (p : Z) : option end_of_cd_record :=
  magic ← load data p 4; this_disk ← load data (p + 4) 2; cd_disk ← load data (p + 6) 2;
  cd_records ← load data (p + 8) 2; total ← load data (p + 10) 2;
  cd_size ← load data (p + 12) 4; cd_offset ← load data (p + 16) 4;
  comment_length ← load data (p + 20) 2;
  Some (EndOfCd magic this_disk cd_disk cd_records total cd_size cd_offset comment_length).

(** The fields of the central directory header that the code reads. *)
Record cd_file_header := CdFileHeader {
  cdfh_magic : Z; cdfh_flags : Z; cdfh_file_name_length : Z; cdfh_extra_field_length : Z;
  cdfh_file_comment_length : Z; cdfh_offset : Z
}.

Definition load_cdfh (data : list Z) (p : Z) : option cd_file_header :=
  magic ← load data p 4; flags ← load data (p + 8) 2;
  name_length ← load data (p + 28) 2; extra ← load data (p + 30) 2;
  comment ← load data (p + 32) 2; offset ← load data (p + 42) 4;
  Some (CdFileHeader magic flags name_length extra comment offset).

(** The fields of the local header that the code reads. *)
Record local_file_header := LocalFileHeader {
  lfh_magic : Z; lfh_flags : Z; lfh_compression : Z; lfh_compressed_size : Z;
  lfh_file_name_length : Z; lfh_extra_field_length : Z
}.

Definition load_lfh (data : list Z) (p : Z) : option local_file_header :=
  magic ← load data p 4; flags ← load data (p + 6) 2; compression ← load data (p + 8) 2;
  compressed_size ← load data (p + 18) 4; name_length ← load data (p + 26) 2;
  extra ← load data (p + 28) 2;
  Some (LocalFileHeader magic flags compression compressed_size name_length extra).

Definition sizeof_eocd : Z := 22.
Definition sizeof_cdfh : Z := 46.
Definition sizeof_lfh : Z := 30.

Record zip_archive := ZipArchive {
  zip_data : list Z;
  zip_size : Z;
  zip_cd_offset : Z;
  zip_cd_records : Z
}.

(** [name] and [data] are offsets into the mapping. *)
Record zip_entry := ZipEntry {
  ze_compression : Z; ze_name : Z; ze_name_length : Z;
  ze_data : Z; ze_data_length : Z; ze_data_offset : Z
}.

(** ** Operations *)
Definition check_access (archive : zip_archive) (offset size : Z) : option Z :=
  if (zip_size archive <? u32 (offset + size)) || (u32 (offset + size) <? offset)
  then None else Some offset.

Definition try_parse_end_of_cd (archive : zip_archive) (offset : Z) : option (Z * zip_archive) :=
  match check_access archive offset sizeof_eocd with
  | None => Some (- EINVAL, archive)
  | Some p =>
      eocd ← load_eocd (zip_data archive) p;
      if negb (eocd_magic eocd =? END_OF_CD_RECORD_MAGIC) then Some (- EINVAL, archive) else
      let comment_length := eocd_comment_length eocd in
      if negb (offset + sizeof_eocd + comment_length =? zip_size archive)
      then Some (- EINVAL, archive) else
      let cd_records := eocd_cd_records eocd in
      if negb (eocd_this_disk eocd =? 0) || negb (eocd_cd_disk eocd =? 0) ||
         negb (eocd_cd_records_total eocd =? cd_records)
      then Some (- ENOTSUP, archive) else
      let cd_offset := eocd_cd_offset eocd in
      let cd_size := eocd_cd_size eocd in
      match check_access archive cd_offset cd_size with
      | None => Some (- EINVAL, archive)
      | Some _ => Some (0, ZipArchive (zip_data archive) (zip_size archive) cd_offset cd_records)
      end
  end.

(** The loop of [find_cd]; at most 65536 offsets are tried. *)
Fixpoint find_cd_loop (fuel : nat) (archive : zip_archive) (limit offset rc : Z) :
  option (Z * zip_archive) :=
  if (0 <=? offset) && (limit <? offset) && negb (rc =? 0) then
    match fuel with
    | O => None
    | S fuel =>
        '(rc, archive) ← try_parse_end_of_cd archive (u32 offset);
        if rc =? - ENOTSUP then Some (rc, archive)
        else find_cd_loop fuel archive limit (offset - 1) rc
    end
  else Some (rc, archive).

Definition find_cd (archive : zip_archive) : option (Z * zip_archive) :=
  if zip_size archive <=? sizeof_eocd then Some (- EINVAL, archive) else
  let offset := zip_size archive - sizeof_eocd in
  let limit := offset - 65536 in
  find_cd_loop (Z.to_nat 65536) archive limit offset (- EINVAL).

(** [zip_archive_open] once the file is open: [size] is the result of [lseek],
    [mapping] that of [mmap] (with its [errno]) and the oracle decides [malloc]. *)
Definition zip_archive_open (size : Z) (mapping : result (list Z)) (o : oracle) :
  option (result zip_archive * oracle) :=
  if (size =? -1) || (UINT32_MAX <? size) then Some (Err EINVAL, o) else
  match mapping with
  | Err e => Some (Err e, o)
  | Ok data =>
      let '(ok, o) := alloc o in
      if negb ok then Some (Err ENOMEM, o) else
      '(err, archive) ← find_cd (ZipArchive data (u32 size) 0 0);
      if negb (err =? 0) then Some (Err (- err), o) else Some (Ok archive, o)
  end.

Definition local_file_header_at_offset (archive : zip_archive) (offset : Z) :
  option (option local_file_header) :=
  match check_access archive offset sizeof_lfh with
  | None => Some None
  | Some p =>
      lfh ← load_lfh (zip_data archive) p;
      if negb (lfh_magic lfh =? LOCAL_FILE_HEADER_MAGIC) then Some None else Some (Some lfh)
  end.

Definition get_entry_at_offset (archive : zip_archive) (offset : Z) : option (result zip_entry) :=
  lfh ← local_file_header_at_offset archive offset;
  match lfh with
  | None => Some (Err EINVAL)
  | Some lfh =>
      let offset := u32 (offset + sizeof_lfh) in
      if negb (Z.land (lfh_flags lfh) FLAG_ENCRYPTED =? 0) ||
         negb (Z.land (lfh_flags lfh) FLAG_HAS_DATA_DESCRIPTOR =? 0)
      then Some (Err EINVAL) else
      match check_access archive offset (lfh_file_name_length lfh) with
      | None => Some (Err EINVAL)
      | Some name =>
          let offset := u32 (offset + lfh_file_name_length lfh) in
          match check_access archive offset (lfh_extra_field_length lfh) with
          | None => Some (Err EINVAL)
          | Some _ =>
              let offset := u32 (offset + lfh_extra_field_length lfh) in
              let compressed_size := lfh_compressed_size lfh in
              match check_access archive offset compressed_size with
              | None => Some (Err EINVAL)
              | Some data =>
                  Some (Ok (ZipEntry (lfh_compression lfh) name (lfh_file_name_length lfh)
                                     data compressed_size offset))
              end
          end
      end
  end.

(** The loop of [zip_archive_find_entry] over the [n] records that remain. *)
Fixpoint zip_find_loop (n : nat) (archive : zip_archive) (file_name : list Z) (offset : Z) :
  option (result zip_entry) :=
  match n with
  | O => Some (Err ENOENT)
  | S n =>
      match check_access archive offset sizeof_cdfh with
      | None => Some (Err EINVAL)
      | Some p =>
          cdfh ← load_cdfh (zip_data archive) p;
          if negb (cdfh_magic cdfh =? CD_FILE_HEADER_MAGIC) then Some (Err EINVAL) else
          let offset := u32 (offset + sizeof_cdfh) in
          let cdfh_name_length := cdfh_file_name_length cdfh in
          match check_access archive offset cdfh_name_length with
          | None => Some (Err EINVAL)
          | Some _ =>
              let next :=
                zip_find_loop n archive file_name
                  (u32 (u32 (u32 (offset + cdfh_name_length) + cdfh_extra_field_length cdfh) +
                        cdfh_file_comment_length cdfh)) in
              if (Z.land (cdfh_flags cdfh) FLAG_ENCRYPTED =? 0) &&
                 (Z.land (cdfh_flags cdfh) FLAG_HAS_DATA_DESCRIPTOR =? 0) &&
                 (zlen file_name =? cdfh_name_length)
              then
                name ← slice (zip_data archive) offset (zlen file_name);
                if bool_decide (file_name = name)
                then get_entry_at_offset archive (cdfh_offset cdfh)
                else next
              else next
          end
      end
  end.

Definition zip_archive_find_entry (archive : zip_archive) (file_name : list Z) :
  option (result zip_entry) :=
  zip_find_loop (Z.to_nat (zip_cd_records archive)) archive file_name (zip_cd_offset archive).

(** ** What the archive holds *)
Definition archive_wf (a : zip_archive) : Prop :=
  Forall is_byte (zip_data a) /\ zlen (zip_data a) = zip_size a /\ zip_size a <= UINT32_MAX.

(** A record at [off] that ends, with its comment, at the end of the archive. *)
Definition eocd_at (a : zip_archive) (off : Z) (e : end_of_cd_record) : Prop :=
  load_eocd (zip_data a) off = Some e /\ eocd_magic e = END_OF_CD_RECORD_MAGIC /\
  off + 22 + eocd_comment_length e = zip_size a.

(** A single-file archive that is not ZIP64. *)
Definition supported (e : end_of_cd_record) : Prop :=
  eocd_this_disk e = 0 /\ eocd_cd_disk e = 0 /\ eocd_cd_records_total e = eocd_cd_records e.

Definition directory_inside (a : zip_archive) (e : end_of_cd_record) : Prop :=
  eocd_cd_offset e + eocd_cd_size e <= zip_size a.

(** No record at [off], or one whose directory is not in the archive. *)
Definition no_eocd (a : zip_archive) (off : Z) : Prop :=
  forall e, eocd_at a off e -> supported e /\ ~ directory_inside a e.

Definition usable (flags : Z) : Prop :=
  Z.land flags FLAG_ENCRYPTED = 0 /\ Z.land flags FLAG_HAS_DATA_DESCRIPTOR = 0.

(** The entry described by the local header at [off]. *)
Definition local_entry (a : zip_archive) (off : Z) (e : zip_entry) : Prop :=
  exists h, load_lfh (zip_data a) off = Some h /\ lfh_magic h = LOCAL_FILE_HEADER_MAGIC /\
    usable (lfh_flags h) /\
    let name := off + 30 in
    let data := name + lfh_file_name_length h + lfh_extra_field_length h in
    e = ZipEntry (lfh_compression h) name (lfh_file_name_length h)
                 data (lfh_compressed_size h) data /\
    data + lfh_compressed_size h <= zip_size a.

(** The directory record at [off], with its name. *)
Definition cd_record_at (a : zip_archive) (off : Z) (h : cd_file_header) (name : list Z) : Prop :=
  load_cdfh (zip_data a) off = Some h /\ cdfh_magic h = CD_FILE_HEADER_MAGIC /\
  slice (zip_data a) (off + 46) (cdfh_file_name_length h) = Some name.

Definition cd_next (off : Z) (h : cd_file_header) : Z :=
  u32 (off + 46 + cdfh_file_name_length h + cdfh_extra_field_length h + cdfh_file_comment_length h).

(** Consecutive directory records from [off] on, and where the next one is. *)
Inductive cd_run (a : zip_archive) : Z -> list (cd_file_header * list Z) -> Z -> Prop :=
| cd_run_nil off : cd_run a off [] off
| cd_run_cons off h name l off' :
    cd_record_at a off h name -> cd_run a (cd_next off h) l off' ->
    cd_run a off ((h, name) :: l) off'.

Definition cd_match (file_name : list Z) (x : cd_file_header * list Z) : Prop :=
  usable (cdfh_flags x.1) /\ x.2 = file_name.

#[export] Instance usable_dec flags : Decision (usable flags).
Proof. unfold usable. apply _. Defined.

#[export] Instance cd_match_dec file_name x : Decision (cd_match file_name x).
Proof. unfold cd_match. apply _. Defined.

(** ** Bounds *)
Lemma check_access_eq a off size :
  0 <= off < 2 ^ 32 -> 0 <= size < 2 ^ 32 -> zip_size a <= UINT32_MAX ->
  check_access a off size = if off + size <=? zip_size a then Some off else None.
Proof.
  unfold check_access, uwrap, UINT32_MAX. intros. case_if; case_if; try done; lia.
Qed.

Lemma load_at (data : list Z) (p off n : Z) :
  Forall is_byte data -> 0 <= p -> 0 <= off -> 0 <= n -> p + off + n <= zlen data ->
  exists v, load data (p + off) n = Some v /\ 0 <= v < 256 ^ n.
Proof.
  intros Hb Hp Ho Hn Hl. destruct (load_is_Some data (p + off) n) as [v Hv]; [lia.. |].
  exists v. split; [done |]. by eapply load_range.
Qed.

(** Reading a structure that lies in the archive, field by field. *)
Ltac load_field :=
  match goal with
  | |- context [load ?d (?p + ?k) ?n] =>
      let v := fresh "v" in let E := fresh "E" in
      destruct (load_at d p k n) as (v & E & ?); [done | lia.. |]; rewrite E; cbn [mbind option_bind]
  | |- context [load ?d ?p ?n] =>
      let v := fresh "v" in let E := fresh "E" in
      destruct (load_at d p 0 n) as (v & E & ?); [done | lia.. |];
      rewrite Z.add_0_r in E; rewrite E; cbn [mbind option_bind]
  end.

Lemma load_eocd_total data p :
  Forall is_byte data -> 0 <= p -> p + 22 <= zlen data ->
  exists e, load_eocd data p = Some e /\ 0 <= eocd_cd_records e < 65536 /\
    0 <= eocd_cd_size e < 2 ^ 32 /\ 0 <= eocd_cd_offset e < 2 ^ 32 /\
    0 <= eocd_comment_length e < 65536.
Proof. intros Hb Hp Hl. unfold load_eocd. repeat load_field. eexists. split; [done |]. by cbn. Qed.

Lemma load_cdfh_total data p :
  Forall is_byte data -> 0 <= p -> p + 46 <= zlen data ->
  exists h, load_cdfh data p = Some h /\ 0 <= cdfh_file_name_length h < 65536 /\
    0 <= cdfh_extra_field_length h < 65536 /\ 0 <= cdfh_file_comment_length h < 65536 /\
    0 <= cdfh_offset h < 2 ^ 32.
Proof. intros Hb Hp Hl. unfold load_cdfh. repeat load_field. eexists. split; [done |]. by cbn. Qed.

Lemma load_lfh_total data p :
  Forall is_byte data -> 0 <= p -> p + 30 <= zlen data ->
  exists h, load_lfh data p = Some h /\ 0 <= lfh_compressed_size h < 2 ^ 32 /\
    0 <= lfh_file_name_length h < 65536 /\ 0 <= lfh_extra_field_length h < 65536.
Proof. intros Hb Hp Hl. unfold load_lfh. repeat load_field. eexists. split; [done |]. by cbn. Qed.

(** A structure that was read lies in the archive: its last field does. *)
Lemma load_inside data p n v : load data p n = Some v -> 0 <= p /\ p + n <= zlen data.
Proof.
  unfold load. destruct (slice data p n) eqn:Hs; [|done]. apply slice_Some in Hs. lia.
Qed.

Ltac load_bounds :=
  repeat match goal with
  | |- context [load ?d ?p ?n ≫= _] =>
      let E := fresh "E" in destruct (load d p n) eqn:E; cbn [mbind option_bind]; [|done]
  end.

Lemma load_eocd_inside data p e : load_eocd data p = Some e -> 0 <= p /\ p + 22 <= zlen data.
Proof.
  unfold load_eocd. load_bounds. intros _.
  repeat match goal with H : load _ _ _ = Some _ |- _ => apply load_inside in H end. lia.
Qed.

Lemma load_cdfh_inside data p h : load_cdfh data p = Some h -> 0 <= p /\ p + 46 <= zlen data.
Proof.
  unfold load_cdfh. load_bounds. intros _.
  repeat match goal with H : load _ _ _ = Some _ |- _ => apply load_inside in H end. lia.
Qed.

Lemma load_lfh_inside data p h : load_lfh data p = Some h -> 0 <= p /\ p + 30 <= zlen data.
Proof.
  unfold load_lfh. load_bounds. intros _.
  repeat match goal with H : load _ _ _ = Some _ |- _ => apply load_inside in H end. lia.
Qed.

(** ** The end of the central directory *)
Lemma try_parse_spec a off :
  archive_wf a -> 0 <= off -> off + 22 <= zip_size a ->
  exists rc a', try_parse_end_of_cd a off = Some (rc, a') /\
    ((rc = - EINVAL /\ a' = a /\ no_eocd a off) \/
     exists e, eocd_at a off e /\
       ((rc = - ENOTSUP /\ a' = a /\ ~ supported e) \/
        (rc = 0 /\ supported e /\ directory_inside a e /\
         a' = ZipArchive (zip_data a) (zip_size a) (eocd_cd_offset e) (eocd_cd_records e)))).
Proof.
  intros (Hb & Hz & Hs) Ho Hl. unfold try_parse_end_of_cd, UINT32_MAX, sizeof_eocd in *.
  rewrite check_access_eq by (unfold UINT32_MAX; lia).
  replace (off + 22 <=? zip_size a) with true by lia.
  destruct (load_eocd_total (zip_data a) off) as (e & He & Hr & Hcs & Hco & Hcl); [done | lia.. |].
  rewrite He. cbn [mbind option_bind]. unfold no_eocd, eocd_at, supported, directory_inside.
  case_if; [do 2 eexists; split; [done |]; left; split_and!; [done..|]; intros e' (? & ? & _); simplify_eq; lia |].
  case_if; [do 2 eexists; split; [done |]; left; split_and!; [done..|]; intros e' (? & ? & ?); simplify_eq; lia |].
  case_if.
  - do 2 eexists. split; [done |]. right. exists e. split_and!; [done | lia | lia |].
    left. split_and!; [done..|]. lia.
  - rewrite check_access_eq by (unfold UINT32_MAX; lia). destruct (_ <=? _) eqn:?.
    + do 2 eexists. split; [done |]. right. exists e. split_and!; [done | lia | lia |].
      right. split_and!; (done || lia).
    + do 2 eexists. split; [done |]. left. split_and!; [done..|]. intros e' (? & _). simplify_eq. lia.
Qed.

(** The outcome of the scan: the last offset with a record decides. *)
Definition find_cd_result (a : zip_archive) (top : Z) (rc : Z) (a' : zip_archive) : Prop :=
  (rc = - EINVAL /\ a' = a /\ forall off, off <= top -> no_eocd a off) \/
  exists off e, eocd_at a off e /\ off <= top /\ (forall off', off < off' <= top -> no_eocd a off') /\
    ((rc = - ENOTSUP /\ a' = a /\ ~ supported e) \/
     (rc = 0 /\ supported e /\ directory_inside a e /\
      a' = ZipArchive (zip_data a) (zip_size a) (eocd_cd_offset e) (eocd_cd_records e))).

(** The comment is at most 65535 bytes long, so offsets out of the scanned range
    have no record. *)
Lemma eocd_in_range a off e :
  archive_wf a -> eocd_at a off e -> 0 <= off /\ zip_size a - 22 - 65536 < off.
Proof.
  intros (Hb & Hz & Hs) (He & _ & Hc). pose proof (load_eocd_inside _ _ _ He).
  destruct (load_eocd_total (zip_data a) off) as (e' & He' & _ & _ & _ & Hcl); [done | lia.. |].
  rewrite He in He'. simplify_eq. lia.
Qed.

Lemma find_cd_loop_spec fuel a limit offset :
  archive_wf a -> limit = zip_size a - 22 - 65536 -> offset + 22 <= zip_size a ->
  offset - Z.max limit (-1) <= Z.of_nat fuel ->
  exists rc a', find_cd_loop fuel a limit offset (- EINVAL) = Some (rc, a') /\
    find_cd_result a offset rc a'.
Proof.
  intros Hw Hlim. revert offset. induction fuel as [|fuel IH]; intros offset Ho Hf;
    cbn [find_cd_loop].
  all: pose proof Hw as (_ & _ & Hs); unfold UINT32_MAX in Hs.
  all: change (negb (- EINVAL =? 0)) with true; rewrite andb_true_r; case_if; bools; [lia || idtac |].
  1, 3: do 2 eexists; split; [done |]; left; split_and!; [done..|]; intros off Hoff e He;
    pose proof (eocd_in_range a off e Hw He); lia.
  rewrite u32_small by lia.
  destruct (try_parse_spec a offset Hw) as (rc & a' & -> & Hc); [lia..|]. cbn [mbind option_bind].
  destruct Hc as [(-> & -> & Hno)|(e & He & Hc)].
  - change (- EINVAL =? - ENOTSUP) with false. cbv match.
    destruct (IH (offset - 1)) as (rc & a' & Hl & Hr); [lia.. |].
    exists rc, a'. split; [done |]. destruct Hr as [(-> & -> & Hr)|(off & e & He & Hle & Hr & Hd)].
    + left. split_and!; [done..|]. intros off Hoff.
      destruct (decide (off = offset)) as [->|]; [done | apply Hr; lia].
    + right. exists off, e. split_and!; [done | lia | | done]. intros off' Hoff'.
      destruct (decide (off' = offset)) as [->|]; [done | apply Hr; lia].
  - assert (Hend : find_cd_result a offset rc a')
      by (right; exists offset, e; split_and!; [done | lia | lia | done]).
    destruct Hc as [(-> & -> & _)|(-> & _)]; [by eauto |].
    change (0 =? - ENOTSUP) with false. cbv match. exists 0, a'. split; [|done].
    destruct fuel; cbn [find_cd_loop]; by rewrite andb_false_r.
Qed.

(** C23: opening an archive of any bytes terminates without reading outside it.
    It succeeds exactly when the file has more than 22 and less than [2 ^ 32] bytes and
    the last end-of-central-directory record that fits the end of the file (over all
    offsets, so within the 64 KiB the code scans) is one of a single-file archive with
    its directory inside the file, and then the archive has that directory; [ENOTSUP] is
    given when that record is of a multi-disk or ZIP64 archive, and [EINVAL] when there is
    none or the size is outside these bounds (an archive that is only an end record, of 22
    bytes, is refused). *)
Theorem zip_archive_open_spec data o :
  Forall is_byte data ->
  exists r o', zip_archive_open (zlen data) (Ok data) o = Some (r, o') /\
    let a := ZipArchive data (zlen data) 0 0 in
    match r with
    | Ok a' => 22 < zlen data <= UINT32_MAX /\ exists off e, eocd_at a off e /\ (forall off', off < off' -> no_eocd a off') /\
        supported e /\ directory_inside a e /\
        a' = ZipArchive data (zlen data) (eocd_cd_offset e) (eocd_cd_records e)
    | Err err =>
        (err = ENOMEM /\ false ∈ o) \/
        (err = EINVAL /\ (zlen data <= 22 \/ UINT32_MAX < zlen data \/ forall off, no_eocd a off)) \/
        (err = ENOTSUP /\ 22 < zlen data <= UINT32_MAX /\ exists off e, eocd_at a off e /\
           (forall off', off < off' -> no_eocd a off') /\ ~ supported e)
    end.
Proof.
  intros Hb. unfold zip_archive_open, UINT32_MAX in *. pose proof (zlen_nonneg data).
  destruct (decide (4294967295 < zlen data)) as [Hbig|Hs].
  { replace ((zlen data =? -1) || (4294967295 <? zlen data)) with true by lia. do 2 eexists. split; [done |]. cbn. auto 6. }
  replace ((zlen data =? -1) || (4294967295 <? zlen data)) with false by lia.
  destruct (alloc_cases o) as (o1 & _ & [->|[-> ?]]); cbn [negb];
    [|by do 2 eexists; split; [reflexivity | cbn; auto]].
  rewrite u32_small by lia. set (a := ZipArchive data (zlen data) 0 0).
  assert (Hw : archive_wf a) by (split_and!; (done || cbn; unfold UINT32_MAX; lia)).
  assert (Htop : forall off e, eocd_at a off e -> off <= zlen data - 22).
  { intros off e (He & _ & _). apply load_eocd_inside in He. cbn in He. lia. }
  unfold find_cd, sizeof_eocd. destruct (decide (zlen data <= 22)) as [H22|H22].
  { replace (zip_size a <=? 22) with true by (cbn; lia). do 2 eexists. split; [done |]. cbn. auto. }
  replace (zip_size a <=? 22) with false by (cbn; lia).
  destruct (find_cd_loop_spec (Z.to_nat 65536) a (zip_size a - 22 - 65536) (zip_size a - 22) Hw)
    as (rc & a' & -> & Hr); [done | lia | lia |]. cbn [mbind option_bind].
  assert (Hall : forall off, zip_size a - 22 < off -> no_eocd a off).
  { intros off Hoff e He. specialize (Htop off e He). cbn in Hoff. lia. }
  destruct Hr as [(-> & -> & Hr)|(off & e & He & _ & Hr & Hd)].
  - do 2 eexists. split; [done |]. cbn. right. left. split; [done |]. right. right. intros off.
    destruct (decide (off <= zip_size a - 22)); [by apply Hr | apply Hall; lia].
  - assert (Hr' : forall off', off < off' -> no_eocd a off').
    { intros off' Ho. destruct (decide (off' <= zip_size a - 22)); [apply Hr; lia | apply Hall; lia]. }
    destruct Hd as [(-> & -> & Hn)|(-> & Hsup & Hin & ->)]; do 2 eexists; (split; [done |]); cbn.
    + right. right. split_and!; [done | lia | lia |]. eauto.
    + split; [lia |]. eauto 10.
Qed.

(** ** Entries *)
Lemma get_entry_spec a off :
  archive_wf a -> 0 <= off < 2 ^ 32 ->
  exists r, get_entry_at_offset a off = Some r /\
    match r with
    | Ok e => local_entry a off e
    | Err err => err = EINVAL /\ forall e, ~ local_entry a off e
    end.
Proof.
  intros (Hb & Hz & Hs) Ho. unfold get_entry_at_offset, local_file_header_at_offset, sizeof_lfh.
  unfold UINT32_MAX in *. rewrite check_access_eq by (unfold UINT32_MAX; lia).
  destruct (off + 30 <=? zip_size a) eqn:Hin; cbn [mbind option_bind].
  2: { eexists. split; [done |]. split; [done |]. intros e (h & Hh & _).
       apply load_lfh_inside in Hh. lia. }
  destruct (load_lfh_total (zip_data a) off) as (h & Hh & Hcs & Hnl & Hel); [done | lia.. |].
  rewrite Hh. cbn [mbind option_bind].
  unfold local_entry, usable in *.
  destruct (negb (lfh_magic h =? _)) eqn:Hm; cbn [mbind option_bind].
  { eexists. split; [done |]. split; [done |]. intros e (h' & Hh' & ? & _). simplify_eq. lia. }
  rewrite (u32_small (off + 30)) by lia. case_if.
  { eexists. split; [done |]. split; [done |]. intros e (h' & Hh' & _ & [? ?] & _). simplify_eq. lia. }
  rewrite check_access_eq by (unfold UINT32_MAX; lia).
  destruct (off + 30 + lfh_file_name_length h <=? zip_size a) eqn:H1.
  2: { eexists. split; [done |]. split; [done |]. intros e (h' & Hh' & _ & _ & _ & ?). simplify_eq. lia. }
  rewrite (u32_small (off + 30 + _)) by lia. rewrite check_access_eq by (unfold UINT32_MAX; lia).
  destruct (_ + lfh_extra_field_length h <=? zip_size a) eqn:H2.
  2: { eexists. split; [done |]. split; [done |]. intros e (h' & Hh' & _ & _ & _ & ?). simplify_eq. lia. }
  rewrite (u32_small (off + 30 + _ + _)) by lia. rewrite check_access_eq by (unfold UINT32_MAX; lia).
  destruct (_ + lfh_compressed_size h <=? zip_size a) eqn:H3.
  2: { eexists. split; [done |]. split; [done |]. intros e (h' & Hh' & _ & _ & _ & ?). simplify_eq. lia. }
  eexists. split; [done |]. exists h. split_and!; (done || lia).
Qed.

(** The outcomes of the search through [n] records from [off] on. *)
Definition find_entry_result (a : zip_archive) (file_name : list Z) (n : nat) (off : Z)
    (r : result zip_entry) : Prop :=
  exists l off', cd_run a off l off' /\ Forall (fun x => ~ cd_match file_name x) l /\
    ((r = Err ENOENT /\ length l = n) \/
     (length l < n)%nat /\
     ((r = Err EINVAL /\ forall h name, ~ cd_record_at a off' h name) \/
      exists h name, cd_record_at a off' h name /\ cd_match file_name (h, name) /\
        match r with
        | Ok e => local_entry a (cdfh_offset h) e
        | Err err => err = EINVAL /\ forall e, ~ local_entry a (cdfh_offset h) e
        end)).

(** A record is at [off] exactly when the checks of the loop pass. *)
Lemma cd_record_dec a off :
  archive_wf a -> 0 <= off < 2 ^ 32 ->
  (check_access a off 46 = None /\ forall h name, ~ cd_record_at a off h name) \/
  exists h, check_access a off 46 = Some off /\ load_cdfh (zip_data a) off = Some h /\
    0 <= cdfh_file_name_length h < 65536 /\ 0 <= cdfh_extra_field_length h < 65536 /\
    0 <= cdfh_file_comment_length h < 65536 /\ 0 <= cdfh_offset h < 2 ^ 32 /\ u32 (off + 46) = off + 46 /\
    ((cdfh_magic h <> CD_FILE_HEADER_MAGIC /\ forall h name, ~ cd_record_at a off h name) \/
     cdfh_magic h = CD_FILE_HEADER_MAGIC /\
     ((check_access a (off + 46) (cdfh_file_name_length h) = None /\
       forall h name, ~ cd_record_at a off h name) \/
      exists name, check_access a (off + 46) (cdfh_file_name_length h) = Some (off + 46) /\
        cd_record_at a off h name)).
Proof.
  intros (Hb & Hz & Hs) Ho. unfold UINT32_MAX in *.
  rewrite check_access_eq by (unfold UINT32_MAX; lia). case_if.
  2: { left. split; [done |]. intros h name (Hh & _). apply load_cdfh_inside in Hh. lia. }
  right. destruct (load_cdfh_total (zip_data a) off) as (h & Hh & Hn & He & Hc & Hof); [done | lia.. |].
  exists h. rewrite u32_small by lia. split_and!; try (done || lia).
  destruct (decide (cdfh_magic h = CD_FILE_HEADER_MAGIC)) as [Hm|Hm]; [right | left]; (split; [done |]).
  2: { intros h' name (Hh' & ? & _). simplify_eq. }
  rewrite check_access_eq by (unfold UINT32_MAX; lia). case_if; [right | left].
  - destruct (slice_is_Some (zip_data a) (off + 46) (cdfh_file_name_length h)) as [name Hsl]; [lia.. |].
    by exists name.
  - split; [done |]. intros h' name (Hh' & _ & Hsl). simplify_eq. apply slice_Some in Hsl. lia.
Qed.

Lemma cd_match_test file_name h name a off :
  slice (zip_data a) off (cdfh_file_name_length h) = Some name ->
  (if (Z.land (cdfh_flags h) FLAG_ENCRYPTED =? 0) &&
      (Z.land (cdfh_flags h) FLAG_HAS_DATA_DESCRIPTOR =? 0) &&
      (zlen file_name =? cdfh_file_name_length h)
   then nm ← slice (zip_data a) off (zlen file_name); Some (bool_decide (file_name = nm))
   else Some false) = Some (bool_decide (cd_match file_name (h, name))).
Proof.
  intros Hs. unfold cd_match, usable. cbn [fst snd]. case_if; bools.
  - replace (zlen file_name) with (cdfh_file_name_length h) by lia. rewrite Hs. cbn. f_equal.
    apply bool_decide_ext. split; [intros ->; split_and!; (done || lia) | by intros (_ & ->)].
  - f_equal. symmetry. apply bool_decide_false. intros ([? ?] & ->).
    apply slice_Some in Hs. lia.
Qed.

Lemma zip_find_loop_spec n a file_name off :
  archive_wf a -> 0 <= off < 2 ^ 32 ->
  exists r, zip_find_loop n a file_name off = Some r /\ find_entry_result a file_name n off r.
Proof.
  intros Hw. revert off. induction n as [|n IH]; intros off Ho; cbn [zip_find_loop].
  { eexists. split; [done |]. exists [], off. split_and!; [constructor | done |]. by left. }
  assert (Hstop : forall r, (r = Err EINVAL /\ (forall h name, ~ cd_record_at a off h name)) \/
      (exists h name, cd_record_at a off h name /\ cd_match file_name (h, name) /\
        match r with
        | Ok e => local_entry a (cdfh_offset h) e
        | Err err => err = EINVAL /\ forall e, ~ local_entry a (cdfh_offset h) e
        end) -> find_entry_result a file_name (S n) off r).
  { intros r Hr. exists [], off. split_and!; [constructor | done |]. right. split; [cbn; lia | done]. }
  unfold sizeof_cdfh.
  destruct (cd_record_dec a off Hw Ho) as [[-> Hno]|(h & -> & -> & Hn & He & Hc & Hof & -> & Hcase)];
    [by eexists; split; [|apply Hstop; left] |].
  cbn [mbind option_bind]. destruct Hcase as [[Hm Hno]|[Hm Hcase]].
  { replace (negb _) with true by lia. by eexists; split; [|apply Hstop; left]. }
  replace (negb (_ =? CD_FILE_HEADER_MAGIC)) with false by lia.
  destruct Hcase as [[-> Hno]|(name & -> & Hrec)];
    [by eexists; split; [|apply Hstop; left] |].
  pose proof Hrec as (Hh & _ & Hsl).
  set (off1 := u32 (u32 _ + _)). assert (Hnext : off1 = cd_next off h).
  { unfold off1, cd_next, uwrap. rewrite Z.add_mod_idemp_l, <- Z.add_assoc by lia.
    rewrite Z.add_mod_idemp_l by lia. f_equal. lia. }
  destruct (IH off1 (u32_range _)) as (r & Hr & Hres).
  rewrite Hr. pose proof (cd_match_test file_name h name a (off + 46) Hsl) as Ht.
  destruct (get_entry_spec a (cdfh_offset h) Hw Hof) as (r' & Hr' & Hent).
  assert (Hskip : ~ cd_match file_name (h, name) -> find_entry_result a file_name (S n) off r).
  { intros Hne. destruct Hres as (l & off' & Hrun & Hf & Hres). exists ((h, name) :: l), off'.
    split_and!; [econstructor; [done | by rewrite <- Hnext] | by constructor |]. cbn [length].
    destruct Hres as [[-> <-]|[Hl Hres]]; [by left | right; split; [lia | done]]. }
  case_if; [|exists r; split; [done |]; apply Hskip; injection Ht as Ht; by apply (bool_decide_eq_false_1 _ (eq_sym Ht))].
  destruct (slice _ _ (zlen file_name)) as [nm|]; [|done]. cbn [mbind option_bind] in *.
  injection Ht as Ht. destruct (bool_decide (file_name = nm)); symmetry in Ht.
  - apply bool_decide_eq_true_1 in Ht. exists r'. split; [done |]. apply Hstop. right. by exists h, name.
  - apply bool_decide_eq_false_1 in Ht. exists r. split; [done | by apply Hskip].
Qed.

(** C22: [zip_archive_find_entry] on any archive terminates without reading
    outside it.  It gives an entry exactly when the records of the directory
    before some record are readable and do not match, that record has the name
    asked for and is neither encrypted nor streamed, and the local header it
    points to describes an entry whose name and data lie in the archive; it
    gives [ENOENT] when all records are readable and none matches, and [EINVAL]
    when a record or the local header is bad. *)
Theorem zip_archive_find_entry_spec a file_name :
  archive_wf a -> 0 <= zip_cd_offset a < 2 ^ 32 ->
  exists r, zip_archive_find_entry a file_name = Some r /\
    find_entry_result a file_name (Z.to_nat (zip_cd_records a)) (zip_cd_offset a) r /\
    forall e, r = Ok e ->
      0 <= ze_name e /\ ze_name e + ze_name_length e <= ze_data e /\
      ze_data_offset e = ze_data e /\ 0 <= ze_data_length e /\
      ze_data e + ze_data_length e <= zlen (zip_data a).
Proof.
  intros Hw Ho. destruct (zip_find_loop_spec (Z.to_nat (zip_cd_records a)) a file_name _ Hw Ho)
    as (r & He & Hr). exists r. split_and!; [done..|]. intros e ->.
  destruct Hr as (l & off' & _ & _ & [[? _]|[_ [[? _]|(h & name & _ & _ & Hent)]]]); [done..|].
  destruct Hent as (lh & Hlh & _ & _ & -> & Hin). cbn.
  destruct Hw as (Hb & Hz & _). pose proof (load_lfh_inside _ _ _ Hlh).
  destruct (load_lfh_total (zip_data a) (cdfh_offset h)) as (lh' & Hlh' & ? & ? & ?); [done | lia.. |].
  rewrite Hlh in Hlh'. simplify_eq. lia.
Qed.

(** ** A concrete archive: one stored entry "a" with the two bytes "hi". *)
Definition demo_zip : list Z :=
  [80; 75; 3; 4; 20; 0; 0; 0; 0; 0; 0; 0; 0; 0; 0; 0; 0; 0; 2; 0; 0; 0; 2; 0; 0; 0; 1; 0; 0; 0;
   97; 104; 105] ++
  [80; 75; 1; 2; 20; 0; 20; 0; 0; 0; 0; 0; 0; 0; 0; 0; 0; 0; 0; 0; 2; 0; 0; 0; 2; 0; 0; 0; 1; 0;
   0; 0; 0; 0; 0; 0; 0; 0; 0; 0; 0; 0; 0; 0; 0; 0; 97] ++
  [80; 75; 5; 6; 0; 0; 0; 0; 1; 0; 1; 0; 47; 0; 0; 0; 33; 0; 0; 0; 0; 0].

Lemma zip_archive_open_spec_witness :
  zip_archive_open 102 (Ok demo_zip) [] = Some (Ok (ZipArchive demo_zip 102 33 1), []) /\
  exists off e, eocd_at (ZipArchive demo_zip 102 0 0) off e /\ supported e.
Proof.
  split; [vm_compute; reflexivity |].
  destruct (zip_archive_open_spec demo_zip []) as (r & o' & He & Hr);
    [by apply bytes_check |].
  change (zlen demo_zip) with 102 in *.
  replace (zip_archive_open 102 (Ok demo_zip) []) with
    (Some (Ok (ZipArchive demo_zip 102 33 1), @nil bool)) in He by (vm_compute; reflexivity).
  injection He as <- <-. destruct Hr as (_ & off & e & He & _ & Hs & _). exists off, e.
  split; [exact He | exact Hs].
Defined.

Lemma zip_archive_find_entry_spec_witness :
  exists e, zip_archive_find_entry (ZipArchive demo_zip 102 33 1) [97] = Some (Ok e) /\
    slice demo_zip (ze_data e) (ze_data_length e) = Some [104; 105] /\
    ze_data e + ze_data_length e <= 102.
Proof.
  destruct (zip_archive_find_entry_spec (ZipArchive demo_zip 102 33 1) [97]) as (r & He & _ & Hin);
    [by split_and!; [apply bytes_check | |] | done |].
  pose proof He as He'. vm_compute in He'. injection He' as <-. eexists. split; [exact He |].
  split; [vm_compute; reflexivity |]. apply (Hin _ eq_refl).
Defined.
