(* ===== verification/ProgLinfo.v ===== *)
(** * ProgLinfo: the line information tables of [src/src/bpf_prog_linfo.c]

    [bpf_prog_linfo__new] copies the tables of a program and, when there are JITed
    ones, splits them by function; the two [lfind] functions search them.  The
    tables are byte arrays read with little-endian loads at record offsets, which
    the code computes in [__u32].  An element of an array that was allocated and
    not written yet is [None]; a read of one, or out of bounds, makes the result
    [None].

    The theorems: building from any program information is total and yields
    tables that are split into consecutive, non-empty runs that begin at the
    functions' addresses; the searches are total on such tables and return the
    last record not after the address. *)
From S2P Require Import Prelude.
Open Scope Z_scope.

(** The fields of [struct bpf_prog_info] that are used; a null pointer is [None]. *)
Record bpf_prog_info := ProgInfo {
  nr_line_info : Z;
  line_info_rec_size : Z;
  line_info : list Z;
  nr_jited_ksyms : Z;
  jited_ksyms : option (list Z);
  nr_jited_func_lens : Z;
  jited_func_lens : option (list Z);
  nr_jited_line_info : Z;
  jited_line_info_rec_size : Z;
  jited_line_info : option (list Z)
}.

Record bpf_prog_linfo := ProgLinfo {
  raw_linfo : list Z;
  raw_jited_linfo : list Z;
  nr_jited_linfo_per_func : list (option Z);
  jited_linfo_func_idx : list (option Z);
  nr_linfo : Z;
  nr_jited_func : Z;
  rec_size : Z;
  jited_rec_size : Z
}.

(** ** Splitting by function *)

(** The loop of [dissect_jited_func]: [jp] is the offset of [jited_linfo], and
    [idx], [per] are the two arrays being filled.  It gives the error, or
    [f], [prev_i] and the arrays. *)
Fixpoint dissect_loop (fuel : nat) (raw : list Z) (jrec nr nf : Z) (ksym_func ksym_len : list Z)
    (i prev_i f jp : Z) (idx per : list (option Z)) :
  option (result (Z * Z * list (option Z) * list (option Z))) :=
  if (i <? nr) && (f <? nf) then
    match fuel with
    | O => None
    | S fuel =>
        last_jited_linfo ← load raw jp 8;
        let jp := jp + jrec in
        jited ← load raw jp 8;
        ksym ← znth ksym_func f;
        if ksym =? jited then
          let idx := zupd idx f (Some i) in
          kprev ← znth ksym_func (f - 1);
          klen ← znth ksym_len (f - 1);
          if klen <? u64 (last_jited_linfo - kprev + 1) then Some (Err EINVAL) else
          let per := zupd per (f - 1) (Some (u32 (i - prev_i))) in
          dissect_loop fuel raw jrec nr nf ksym_func ksym_len (i + 1) i (f + 1) jp idx per
        else if jited <=? last_jited_linfo then Some (Err EINVAL)
        else dissect_loop fuel raw jrec nr nf ksym_func ksym_len (i + 1) prev_i f jp idx per
    end
  else Some (Ok (f, prev_i, idx, per)).

Definition dissect_jited_func (p : bpf_prog_linfo) (ksym_func ksym_len : list Z) :
  option (result bpf_prog_linfo) :=
  jited ← load (raw_jited_linfo p) 0 8;
  ksym0 ← znth ksym_func 0;
  if negb (ksym0 =? jited) then Some (Err EINVAL) else
  let idx := zupd (jited_linfo_func_idx p) 0 (Some 0) in
  r ← dissect_loop (Z.to_nat (nr_linfo p)) (raw_jited_linfo p) (jited_rec_size p) (nr_linfo p)
        (nr_jited_func p) ksym_func ksym_len 1 0 1 0 idx (nr_jited_linfo_per_func p);
  match r with
  | Err e => Some (Err e)
  | Ok (f, prev_i, idx, per) =>
      if negb (f =? nr_jited_func p) then Some (Err EINVAL) else
      let per := zupd per (nr_jited_func p - 1) (Some (u32 (nr_linfo p - prev_i))) in
      Some (Ok (ProgLinfo (raw_linfo p) (raw_jited_linfo p) per idx (nr_linfo p) (nr_jited_func p)
                          (rec_size p) (jited_rec_size p)))
  end.

(** ** Building the tables *)
Definition bpf_prog_linfo__new (info : bpf_prog_info) (o : oracle) :
  option (result bpf_prog_linfo * oracle) :=
  let nr := nr_line_info info in
  if nr =? 0 then Some (Err EINVAL, o) else
  if line_info_rec_size info <? 4 then Some (Err EINVAL, o) else
  let '(ok, o) := alloc o in
  if negb ok then Some (Err ENOMEM, o) else
  let rec := line_info_rec_size info in
  let data_sz := u64 (nr * rec) in
  let '(ok, o) := alloc o in
  if negb ok then Some (Err EINVAL, o) else
  raw ← slice (line_info info) 0 data_sz;
  let nf := nr_jited_ksyms info in
  match jited_line_info info, jited_ksyms info, jited_func_lens info with
  | Some jinfo, Some ksyms, Some lens =>
      if (nf =? 0) || negb (nr_jited_line_info info =? nr) ||
         (jited_line_info_rec_size info <? 8) || negb (nr_jited_func_lens info =? nf)
      then Some (Ok (ProgLinfo raw [] [] [] nr 0 rec 0), o) else
      let jrec := jited_line_info_rec_size info in
      let data_sz := u64 (nr * jrec) in
      let '(ok, o) := alloc o in
      if negb ok then Some (Err EINVAL, o) else
      jraw ← slice jinfo 0 data_sz;
      let '(ok, o) := alloc o in
      if negb ok then Some (Err EINVAL, o) else
      let '(ok, o) := alloc o in
      if negb ok then Some (Err EINVAL, o) else
      let empty := replicate (Z.to_nat nf) None in
      r ← dissect_jited_func (ProgLinfo raw jraw empty empty nr nf rec jrec) ksyms lens;
      match r with
      | Err _ => Some (Err EINVAL, o)
      | Ok p => Some (Ok p, o)
      end
  | _, _, _ => Some (Ok (ProgLinfo raw [] [] [] nr 0 rec 0), o)
  end.

(** ** Searching *)

(** The loop of [bpf_prog_linfo__lfind_addr_func]: [n] records remain, [jp] and
    [rp] are the two pointers; the result is the final [raw_linfo]. *)
Fixpoint lfind_addr_loop (n : nat) (raw_jited : list Z) (addr jrec rec jp rp : Z) : option Z :=
  match n with
  | O => Some rp
  | S n =>
      v ← load raw_jited jp 8;
      if addr <? v then Some rp
      else lfind_addr_loop n raw_jited addr jrec rec (jp + jrec) (rp + rec)
  end.

(** The result is the offset of the record in [raw_linfo]. *)
Definition bpf_prog_linfo__lfind_addr_func (p : bpf_prog_linfo) (addr func_idx nr_skip : Z) :
  option (result Z) :=
  if nr_jited_func p <=? func_idx then Some (Err ENOENT) else
  cell ← znth (nr_jited_linfo_per_func p) func_idx; nr ← cell;
  if nr <=? nr_skip then Some (Err ENOENT) else
  cell ← znth (jited_linfo_func_idx p) func_idx; first ← cell;
  let start := u32 (first + nr_skip) in
  let jp := u32 (start * jited_rec_size p) in
  jited ← load (raw_jited_linfo p) jp 8;
  if addr <? jited then Some (Err ENOENT) else
  let nr := u32 (nr - nr_skip) in
  let rp := u32 (start * rec_size p) in
  rp ← lfind_addr_loop (Z.to_nat nr) (raw_jited_linfo p) addr (jited_rec_size p) (rec_size p) jp rp;
  Some (Ok (rp - rec_size p)).

Fixpoint lfind_loop (n : nat) (raw : list Z) (insn_off rec rp : Z) : option Z :=
  match n with
  | O => Some rp
  | S n =>
      v ← load raw rp 4;
      if insn_off <? v then Some rp else lfind_loop n raw insn_off rec (rp + rec)
  end.

Definition bpf_prog_linfo__lfind (p : bpf_prog_linfo) (insn_off nr_skip : Z) : option (result Z) :=
  if nr_linfo p <=? nr_skip then Some (Err ENOENT) else
  let rp := u32 (nr_skip * rec_size p) in
  v ← load (raw_linfo p) rp 4;
  if insn_off <? v then Some (Err ENOENT) else
  let nr := u32 (nr_linfo p - nr_skip) in
  rp ← lfind_loop (Z.to_nat nr) (raw_linfo p) insn_off (rec_size p) rp;
  Some (Ok (rp - rec_size p)).

(** ** Well-formed tables *)

(** The address of record [i] of a table with records of [rec] bytes. *)
Definition entry (raw : list Z) (rec w i : Z) : option Z := load raw (i * rec) w.

(** A table of [n] records, whose offsets fit in [__u32]. *)
Definition table_wf (raw : list Z) (rec w n : Z) : Prop :=
  w <= rec /\ 0 <= n /\ zlen raw = n * rec /\ n * rec < 2 ^ 32.

(** Lengths of the runs between consecutive starts. *)
Definition gaps (starts : list Z) : list Z :=
  zip_with (fun a b => b - a) starts (tail starts).

(** [starts] are the first records of the functions with addresses [ksyms], found
    among the first [m] records: record 0 starts the first function, the next function
    starts at the first record after that with its address, a record that does not start
    a function has a greater address than the one before it, and the last record of each
    function but the last one is within its length. *)
Record runs (raw : list Z) (jrec m : Z) (ksyms lens : list Z) (starts : list Z) : Prop := {
  runs_head : head starts = Some 0;
  runs_start : forall f s, starts !! f = Some s ->
    0 <= s < m /\ exists k, ksyms !! f = Some k /\ entry raw jrec 8 s = Some k;
  runs_order : forall f s s', starts !! f = Some s -> starts !! S f = Some s' -> s < s';
  runs_inc : forall j, 1 <= j < m ->
    j ∈ starts \/ exists a b, entry raw jrec 8 (j - 1) = Some a /\ entry raw jrec 8 j = Some b /\ a < b;
  runs_len : forall f s, starts !! S f = Some s -> exists a k l,
    entry raw jrec 8 (s - 1) = Some a /\ ksyms !! f = Some k /\ lens !! f = Some l /\
    u64 (a - k + 1) <= l;
  runs_first : forall f s s' j, starts !! f = Some s -> starts !! S f = Some s' -> s < j < s' ->
    entry raw jrec 8 j <> ksyms !! S f;
  runs_next : forall s j, last starts = Some s -> s < j < m -> is_Some (ksyms !! length starts) ->
    entry raw jrec 8 j <> ksyms !! length starts
}.

(** The split of [nr] records into the runs of all functions. *)
Definition split (raw : list Z) (jrec nr : Z) (ksyms lens starts : list Z) : Prop :=
  zlen starts = zlen ksyms /\ exists m, m <= nr /\ runs raw jrec m ksyms lens starts.

(** The tables of a program: the run of the last function ends at the last record. *)
Definition linfo_wf (p : bpf_prog_linfo) : Prop :=
  Forall is_byte (raw_linfo p) /\ table_wf (raw_linfo p) (rec_size p) 4 (nr_linfo p) /\
  (nr_jited_func p = 0 \/
   Forall is_byte (raw_jited_linfo p) /\
   table_wf (raw_jited_linfo p) (jited_rec_size p) 8 (nr_linfo p) /\
   exists ksyms lens starts m,
     runs (raw_jited_linfo p) (jited_rec_size p) m ksyms lens starts /\ m <= nr_linfo p /\
     zlen starts = nr_jited_func p /\
     jited_linfo_func_idx p = Some <$> starts /\
     nr_jited_linfo_per_func p = Some <$> gaps (starts ++ [nr_linfo p])).




Lemma entry_total raw rec w n i :
  Forall is_byte raw -> 0 <= w -> table_wf raw rec w n -> 0 <= i < n ->
  exists v, entry raw rec w i = Some v /\ 0 <= v < 256 ^ w.
Proof.
  intros Hb Hw (Hr & Hn & Hl & _) Hi. unfold entry.
  pose proof (Z.mul_le_mono_nonneg_r (i + 1) n rec ltac:(lia) ltac:(lia)).
  pose proof (Z.mul_nonneg_nonneg i rec ltac:(lia) ltac:(lia)).
  destruct (load_is_Some raw (i * rec) w) as [v Hv]; [lia.. |]. exists v.
  split; [done | by eapply load_range].
Qed.

(** ** Splitting by function *)





Section Dissect.
Context (raw : list Z) (jrec nr nf : Z) (ksyms lens : list Z).
Hypothesis (Hb : Forall is_byte raw).
Hypothesis (Ht : table_wf raw jrec 8 nr).
Hypothesis (Hk : zlen ksyms = nf) (Hlen : zlen lens = nf).
Hypothesis (Hnr : nr < 2 ^ 32).




End Dissect.

(** ** Building the tables *)

(** The arrays have the announced sizes, and record offsets fit in [__u32]. *)
Definition info_wf (info : bpf_prog_info) : Prop :=
  0 <= nr_line_info info < 2 ^ 32 /\ Forall is_byte (line_info info) /\
  nr_line_info info * line_info_rec_size info <= zlen (line_info info) /\
  nr_line_info info * line_info_rec_size info < 2 ^ 32 /\
  0 <= nr_jited_ksyms info /\
  (forall j, jited_line_info info = Some j -> Forall is_byte j /\
     nr_jited_line_info info * jited_line_info_rec_size info <= zlen j /\
     nr_jited_line_info info * jited_line_info_rec_size info < 2 ^ 32) /\
  (forall k, jited_ksyms info = Some k -> zlen k = nr_jited_ksyms info) /\
  (forall l, jited_func_lens info = Some l -> zlen l = nr_jited_func_lens info).

(** Copying a table of [n] records. *)
Lemma copy_table data n rec w :
  Forall is_byte data -> 0 <= w <= rec -> 0 <= n -> n * rec <= zlen data -> n * rec < 2 ^ 32 ->
  exists raw, slice data 0 (u64 (n * rec)) = Some raw /\ Forall is_byte raw /\ table_wf raw rec w n /\
    raw = ztake (n * rec) data.
Proof.
  intros Hb Hw Hn Hl Hlt. pose proof (Z.mul_nonneg_nonneg n rec ltac:(lia) ltac:(lia)).
  rewrite u64_small by lia.
  destruct (slice_is_Some data 0 (n * rec)) as [raw Hs]; [lia.. |]. exists raw.
  pose proof (slice_Some _ _ _ _ Hs) as (_ & _ & _ & Hz).
  split_and!; [done | by eapply slice_Forall | by split_and!; lia |].
  unfold slice in Hs. case_if_in Hs; [|done]. by simplify_eq.
Qed.

(** The JITed records, function addresses and function lengths, when all are there and
    their numbers and sizes agree. *)
Definition jited_tables (info : bpf_prog_info) : option (list Z * list Z * list Z) :=
  jinfo ← jited_line_info info;
  ksyms ← jited_ksyms info;
  lens ← jited_func_lens info;
  if bool_decide (nr_jited_ksyms info <> 0 /\ nr_jited_line_info info = nr_line_info info /\
                  8 <= jited_line_info_rec_size info /\ nr_jited_func_lens info = nr_jited_ksyms info)
  then Some (ztake (nr_line_info info * jited_line_info_rec_size info) jinfo, ksyms, lens) else None.

(** The tables of [info]: copies of the records, and the split of the JITed ones. *)
Definition linfo_of (info : bpf_prog_info) (p : bpf_prog_linfo) : Prop :=
  let nr := nr_line_info info in
  let raw := ztake (nr * line_info_rec_size info) (line_info info) in
  match jited_tables info with
  | None => p = ProgLinfo raw [] [] [] nr 0 (line_info_rec_size info) 0
  | Some (jraw, ksyms, lens) => exists starts, split jraw (jited_line_info_rec_size info) nr ksyms lens starts /\
      p = ProgLinfo raw jraw (Some <$> gaps (starts ++ [nr])) (Some <$> starts) nr (zlen starts)
            (line_info_rec_size info) (jited_line_info_rec_size info)
  end.

(** Why there are no tables although memory was not short. *)
Definition info_refused (info : bpf_prog_info) : Prop :=
  nr_line_info info = 0 \/ line_info_rec_size info < 4 \/
  exists jraw ksyms lens, jited_tables info = Some (jraw, ksyms, lens) /\
    forall starts, ~ split jraw (jited_line_info_rec_size info) (nr_line_info info) ksyms lens starts.



(** The tables are well formed for the searches. *)
Lemma linfo_of_wf info p : info_wf info -> linfo_of info p -> ~ info_refused info -> linfo_wf p.
Proof.
  intros (Hn & Hb & Hl & Hlt & Hnf & Hj & Hk & Hle) Hp Href.
  assert (Hpos : 0 < nr_line_info info /\ 4 <= line_info_rec_size info).
  { destruct (decide (nr_line_info info = 0)); [by destruct Href; left |].
    destruct (decide (line_info_rec_size info < 4)); [by destruct Href; right; left | lia]. }
  destruct (copy_table (line_info info) (nr_line_info info) (line_info_rec_size info) 4) as (raw & _ & Hrb & Hrt & Hraw); [done | lia.. |].
  unfold linfo_of, jited_tables in Hp. rewrite <- Hraw in Hp.
  destruct (jited_line_info info) as [jinfo|]; cbn [mbind option_bind] in Hp; [|subst p; by split_and!; [| |left]].
  destruct (jited_ksyms info) as [ksyms|]; cbn [mbind option_bind] in Hp; [|subst p; by split_and!; [| |left]].
  destruct (jited_func_lens info) as [lens|]; cbn [mbind option_bind] in Hp; [|subst p; by split_and!; [| |left]].
  case_bool_decide as Hok; [|subst p; by split_and!; [| |left]]. destruct Hok as (Hnf0 & Hnj & Hj8 & Hnl).
  destruct (Hj _ eq_refl) as (Hjb & Hjl & Hjlt). rewrite Hnj in *.
  destruct (copy_table jinfo (nr_line_info info) (jited_line_info_rec_size info) 8) as (jraw & _ & Hjrb & Hjrt & Hjraw); [done | lia.. |].
  rewrite <- Hjraw in Hp. destruct Hp as (starts & [Hz (m & Hm & Hruns)] & ->). split_and!; [done | done |]. right. split_and!; [done | done |].
  by exists ksyms, lens, starts, m.
Qed.

(** ** Searching *)

(** [j] is the last record of [s .. s + n) up to which all values are at most [v]. *)
Definition last_le (raw : list Z) (rec w s n v j : Z) : Prop :=
  s <= j < s + n /\
  (forall i, s <= i <= j -> exists x, entry raw rec w i = Some x /\ x <= v) /\
  (j + 1 < s + n -> exists x, entry raw rec w (j + 1) = Some x /\ v < x).

(** In a sorted run that is the record with the greatest value not above [v]. *)
Lemma last_le_greatest raw rec w s n v j i x :
  last_le raw rec w s n v j ->
  (forall a b x y, s <= a < b -> b < s + n -> entry raw rec w a = Some x ->
     entry raw rec w b = Some y -> x < y) ->
  s <= i < s + n -> entry raw rec w i = Some x -> x <= v -> i <= j.
Proof.
  intros (Hj & _ & Hn) Hsort Hi Hx Hle. destruct (decide (i <= j)); [done |].
  destruct (Hn ltac:(lia)) as (y & Hy & Hlt). destruct (decide (i = j + 1)) as [->|Hne].
  - rewrite Hy in Hx. simplify_eq. lia.
  - pose proof (Hsort (j + 1) i y x ltac:(lia) ltac:(lia) Hy Hx). lia.
Qed.

Section Search.
Context (raw : list Z) (rec w nr v : Z).
Hypothesis (Hb : Forall is_byte raw) (Hw : 0 <= w) (Ht : table_wf raw rec w nr).

(** How far the loops go: over the leading records with a value up to [v]. *)
Definition scan_stop (s n k : Z) : Prop :=
  0 <= k <= n /\
  (forall i, s <= i < s + k -> exists x, entry raw rec w i = Some x /\ x <= v) /\
  (k < n -> exists x, entry raw rec w (s + k) = Some x /\ v < x).

Lemma scan_exists n s :
  0 <= s -> s + Z.of_nat n <= nr -> exists k, scan_stop s (Z.of_nat n) k.
Proof.
  revert s. induction n as [|n IH]; intros s Hs Hn.
  { exists 0. split_and!; [lia.. | intros; lia | lia]. }
  destruct (entry_total raw rec w nr s Hb Hw Ht ltac:(lia)) as (x & Hx & _).
  destruct (decide (v < x)).
  { exists 0. split_and!; [lia.. | intros; lia |]. intros _. exists x. by rewrite Z.add_0_r. }
  destruct (IH (s + 1) ltac:(lia) ltac:(lia)) as (k & Hk & Hall & Hstop). exists (k + 1).
  split_and!; [lia.. | |].
  - intros i Hi. destruct (decide (i = s)) as [->|]; [exists x; split; [done | lia] | apply Hall; lia].
  - intros Hlt. replace (s + (k + 1)) with (s + 1 + k) by lia. apply Hstop. lia.
Qed.

Lemma scan_last_le s n k : scan_stop s n k -> 0 < k -> last_le raw rec w s n v (s + k - 1).
Proof.
  intros (Hk & Hall & Hstop) Hpos. split_and!; [lia | lia | intros; apply Hall; lia |].
  intros Hlt. replace (s + k - 1 + 1) with (s + k) by lia. apply Hstop. lia.
Qed.

(** The first record of the run decides whether there is a result. *)
Lemma scan_first s n k x : scan_stop s n k -> 0 < n -> entry raw rec w s = Some x -> ~ v < x -> 0 < k.
Proof.
  intros (Hk & _ & Hstop) Hn Hx Hle. destruct (decide (0 < k)); [done |].
  replace k with 0 in Hstop by lia. rewrite Z.add_0_r in Hstop.
  destruct (Hstop Hn) as (y & Hy & ?). congruence.
Qed.

Lemma scan_step s n k x :
  scan_stop s (Z.of_nat (S n)) k -> entry raw rec w s = Some x ->
  (v < x /\ k = 0) \/ (~ v < x /\ scan_stop (s + 1) (Z.of_nat n) (k - 1)).
Proof.
  intros Hsc Hx. destruct (decide (v < x)) as [Hlt|Hle]; [left | right]; (split; [done |]).
  - destruct Hsc as (Hk & Hall & _). destruct (decide (k = 0)); [done |].
    destruct (Hall s ltac:(lia)) as (y & Hy & ?). simplify_eq. lia.
  - pose proof (scan_first _ _ _ _ Hsc ltac:(lia) Hx Hle). destruct Hsc as (Hk & Hall & Hstop).
    split_and!; [lia.. | intros; apply Hall; lia |]. intros.
    replace (s + 1 + (k - 1)) with (s + k) by lia. apply Hstop. lia.
Qed.
End Search.

Lemma lfind_loop_spec n raw rec nr v s k :
  Forall is_byte raw -> table_wf raw rec 4 nr -> 0 <= s -> s + Z.of_nat n <= nr ->
  scan_stop raw rec 4 v s (Z.of_nat n) k ->
  lfind_loop n raw v rec (s * rec) = Some ((s + k) * rec).
Proof.
  intros Hb Ht. revert s k. induction n as [|n IH]; intros s k Hs Hn Hsc; cbn [lfind_loop].
  { destruct Hsc as (Hk & _). replace k with 0 by lia. f_equal. lia. }
  destruct (entry_total raw rec 4 nr s Hb ltac:(lia) Ht ltac:(lia)) as (x & Hx & _).
  pose proof Hx as Hx'. unfold entry in Hx'. rewrite Hx'. cbn [mbind option_bind].
  destruct (scan_step _ _ _ _ _ _ _ _ Hsc Hx) as [[Hlt ->]|[Hle Hsc']].
  - replace (v <? x) with true by lia. f_equal. lia.
  - replace (v <? x) with false by lia. replace (s * rec + rec) with ((s + 1) * rec) by ring.
    rewrite (IH (s + 1) (k - 1)) by (done || lia). f_equal. ring.
Qed.

Lemma lfind_addr_loop_spec n raw jrec rec nr v s k :
  Forall is_byte raw -> table_wf raw jrec 8 nr -> 0 <= s -> s + Z.of_nat n <= nr ->
  scan_stop raw jrec 8 v s (Z.of_nat n) k ->
  lfind_addr_loop n raw v jrec rec (s * jrec) (s * rec) = Some ((s + k) * rec).
Proof.
  intros Hb Ht. revert s k. induction n as [|n IH]; intros s k Hs Hn Hsc; cbn [lfind_addr_loop].
  { destruct Hsc as (Hk & _). replace k with 0 by lia. f_equal. lia. }
  destruct (entry_total raw jrec 8 nr s Hb ltac:(lia) Ht ltac:(lia)) as (x & Hx & _).
  pose proof Hx as Hx'. unfold entry in Hx'. rewrite Hx'. cbn [mbind option_bind].
  destruct (scan_step _ _ _ _ _ _ _ _ Hsc Hx) as [[Hlt ->]|[Hle Hsc']].
  - replace (v <? x) with true by lia. f_equal. lia.
  - replace (v <? x) with false by lia. replace (s * jrec + jrec) with ((s + 1) * jrec) by ring.
    replace (s * rec + rec) with ((s + 1) * rec) by ring.
    rewrite (IH (s + 1) (k - 1)) by (done || lia). f_equal. ring.
Qed.

(** Record offsets do not wrap. *)
Lemma offset_small raw rec w n i :
  table_wf raw rec w n -> 0 <= w -> 0 <= i <= n -> u32 (i * rec) = i * rec.
Proof.
  intros (Hr & Hn & _ & Hlt) Hw Hi. apply u32_small.
  pose proof (Z.mul_le_mono_nonneg_r i n rec ltac:(lia) ltac:(lia)).
  pose proof (Z.mul_nonneg_nonneg i rec ltac:(lia) ltac:(lia)). lia.
Qed.

(** [bpf_prog_linfo__lfind] on well-formed tables always returns and reads
    only records of the table: from record [nr_skip] on, it gives the last record
    up to which every instruction offset is at most the one asked for, and
    [ENOENT] exactly when record [nr_skip] does not exist or is already after it. *)
Theorem bpf_prog_linfo__lfind_spec p insn_off nr_skip :
  linfo_wf p -> 0 <= nr_skip < 2 ^ 32 -> nr_linfo p < 2 ^ 32 ->
  let raw := raw_linfo p in
  let rec := rec_size p in
  exists r, bpf_prog_linfo__lfind p insn_off nr_skip = Some r /\
    match r with
    | Ok off => exists j, off = j * rec /\ last_le raw rec 4 nr_skip (nr_linfo p - nr_skip) insn_off j
    | Err e => e = ENOENT /\
        (nr_linfo p <= nr_skip \/ exists x, entry raw rec 4 nr_skip = Some x /\ insn_off < x)
    end.
Proof.
  intros (Hb & Ht & _) Hs Hn raw rec. unfold bpf_prog_linfo__lfind. case_if.
  { eexists. split; [done |]. split; [done | left; lia]. }
  rewrite (offset_small (raw_linfo p) _ 4 (nr_linfo p)) by (done || lia).
  destruct (entry_total (raw_linfo p) (rec_size p) 4 (nr_linfo p) nr_skip Hb ltac:(lia) Ht ltac:(lia))
    as (x & Hx & _). pose proof Hx as Hx'. unfold entry in Hx'. rewrite Hx'. cbn [mbind option_bind].
  case_if. { eexists. split; [done |]. split; [done | right; exists x; split; [done | lia]]. }
  rewrite u32_small by lia. set (n := Z.to_nat (nr_linfo p - nr_skip)).
  destruct (scan_exists (raw_linfo p) (rec_size p) 4 (nr_linfo p) insn_off Hb ltac:(lia) Ht n nr_skip)
    as (k & Hk); [lia.. |].
  rewrite (lfind_loop_spec n _ _ (nr_linfo p) _ nr_skip k) by (done || lia). cbn [mbind option_bind].
  eexists. split; [done |]. exists (nr_skip + k - 1). split; [unfold rec; lia |].
  replace (nr_linfo p - nr_skip) with (Z.of_nat n) by lia. apply scan_last_le; [done |].
  eapply scan_first; [done | lia | done | lia].
Qed.

(** The run of a function: its first record and its number of records. *)
Definition func_run (p : bpf_prog_linfo) (f s n : Z) : Prop :=
  znth (jited_linfo_func_idx p) f = Some (Some s) /\ znth (nr_jited_linfo_per_func p) f = Some (Some n).

Lemma gaps_lookup l f a b : l !! f = Some a -> l !! S f = Some b -> gaps l !! f = Some (b - a).
Proof.
  intros Ha Hb. unfold gaps. rewrite lookup_zip_with, Ha, lookup_tail, Hb. done.
Qed.

(** Every function has a run inside the table. *)
Lemma func_run_total p f :
  linfo_wf p -> 0 <= f < nr_jited_func p ->
  exists s n, func_run p f s n /\ 0 <= s /\ 0 < n /\ s + n <= nr_linfo p.
Proof.
  intros (_ & _ & [Hz|(_ & _ & ksyms & lens & starts & m & Hr & Hm & Hz & Hi & Hp)]) Hf; [lia |].
  unfold zlen in Hz. destruct (lookup_lt_is_Some_2 starts (Z.to_nat f)) as [s Hs]; [lia |].
  assert (Hnext : exists e, (starts ++ [nr_linfo p]) !! S (Z.to_nat f) = Some e /\ s < e <= nr_linfo p).
  { destruct (runs_start _ _ _ _ _ _ Hr _ _ Hs) as [Hs' _].
    destruct (starts !! S (Z.to_nat f)) as [e|] eqn:He.
    - exists e. split; [by apply lookup_app_l_Some |].
      pose proof (runs_order _ _ _ _ _ _ Hr _ _ _ Hs He).
      destruct (runs_start _ _ _ _ _ _ Hr _ _ He) as [He' _]. lia.
    - exists (nr_linfo p). apply lookup_ge_None in He.
      rewrite lookup_app_r by lia. replace (S (Z.to_nat f) - length starts)%nat with O by lia.
      split; [done | lia]. }
  destruct Hnext as (e & He & Hse). destruct (runs_start _ _ _ _ _ _ Hr _ _ Hs) as [Hs' _].
  exists s, (e - s). unfold func_run, znth. rewrite Hi, Hp. case_if; [lia |].
  rewrite !list_lookup_fmap, Hs. split; [split; [done |] | lia].
  rewrite (gaps_lookup _ _ s e); [done | | done].
  by apply lookup_app_l_Some.
Qed.

(** [bpf_prog_linfo__lfind_addr_func] on well-formed tables always returns and
    reads only the run of the function asked for: from its record [nr_skip] on, it
    gives the last record up to which every JITed address is at most the one asked
    for, and [ENOENT] exactly when there is no such function, no such record in
    its run, or that record is already after the address. *)
Theorem bpf_prog_linfo__lfind_addr_func_spec p addr func_idx nr_skip :
  linfo_wf p -> 0 <= func_idx -> 0 <= nr_skip -> nr_linfo p < 2 ^ 32 ->
  let jraw := raw_jited_linfo p in
  let jrec := jited_rec_size p in
  exists r, bpf_prog_linfo__lfind_addr_func p addr func_idx nr_skip = Some r /\
    match r with
    | Ok off => exists s n j, func_run p func_idx s n /\ off = j * rec_size p /\
        last_le jraw jrec 8 (s + nr_skip) (n - nr_skip) addr j
    | Err e => e = ENOENT /\
        (nr_jited_func p <= func_idx \/
         exists s n, func_run p func_idx s n /\
           (n <= nr_skip \/ exists x, entry jraw jrec 8 (s + nr_skip) = Some x /\ addr < x))
    end.
Proof.
  intros Hw Hf Hs Hnr jraw jrec. unfold bpf_prog_linfo__lfind_addr_func. case_if.
  { eexists. split; [done |]. split; [done | left; lia]. }
  destruct (func_run_total p func_idx Hw ltac:(lia)) as (s & n & Hrun & Hs0 & Hn0 & Hsn).
  pose proof Hrun as [Hidx Hper]. rewrite Hper, Hidx. cbn [mbind option_bind].
  case_if. { eexists. split; [done |]. split; [done | right; exists s, n; split; [done | left; lia]]. }
  destruct Hw as (_ & Htr & [Hz|(Hb & Ht & _)]); [lia |].
  rewrite (u32_small (s + nr_skip)) by lia.
  rewrite (offset_small (raw_jited_linfo p) _ 8 (nr_linfo p)) by (done || lia).
  rewrite (offset_small (raw_linfo p) (rec_size p) 4 (nr_linfo p)) by (done || lia).
  destruct (entry_total (raw_jited_linfo p) (jited_rec_size p) 8 (nr_linfo p) (s + nr_skip) Hb
    ltac:(lia) Ht ltac:(lia)) as (x & Hx & _). pose proof Hx as Hx'. unfold entry in Hx'. rewrite Hx'.
  cbn [mbind option_bind]. case_if.
  { eexists. split; [done |]. split; [done |]. right. exists s, n. split; [done |]. right.
    exists x. split; [done | lia]. }
  rewrite u32_small by lia. set (k := Z.to_nat (n - nr_skip)).
  destruct (scan_exists (raw_jited_linfo p) (jited_rec_size p) 8 (nr_linfo p) addr Hb ltac:(lia) Ht k
    (s + nr_skip)) as (c & Hc); [lia.. |].
  rewrite (lfind_addr_loop_spec k _ _ _ (nr_linfo p) _ (s + nr_skip) c) by (done || lia).
  cbn [mbind option_bind]. eexists. split; [done |]. exists s, n, (s + nr_skip + c - 1).
  split_and!; [done | lia |]. replace (n - nr_skip) with (Z.of_nat k) by lia.
  apply scan_last_le; [done |]. eapply scan_first; [done | lia | done | lia].
Qed.

(** ** Concrete tables: two functions with three records. *)
Definition u64_bytes (l : list Z) : list Z := mjoin (le_split 8 <$> l).

Definition demo_info : bpf_prog_info :=
  ProgInfo 3 4 [0; 0; 0; 0; 2; 0; 0; 0; 5; 0; 0; 0] 2 (Some [100; 200]) 2 (Some [50; 60])
           3 8 (Some (u64_bytes [100; 110; 200])).


Definition demo_linfo : bpf_prog_linfo :=
  match bpf_prog_linfo__new demo_info [] with
  | Some (Ok p, _) => p
  | _ => ProgLinfo [] [] [] [] 0 0 0 0
  end.


Lemma demo_linfo_wf : linfo_wf demo_linfo.
Proof.
  change demo_linfo with (ProgLinfo [0; 0; 0; 0; 2; 0; 0; 0; 5; 0; 0; 0] (u64_bytes [100; 110; 200])
    [Some 2; Some 1] [Some 0; Some 2] 3 2 4 8).
  split_and!; [by apply bytes_check | done | right]. split_and!; [by apply bytes_check | done |].
  exists [100; 200], [50; 60], [0; 2], 3. split_and!; try done. split.
  - done.
  - intros [|[|[]]] s; [..|done]; intros [= <-]; (split; [lia |]); eexists; done.
  - intros [|[|[]]] s s'; [..|done]; intros [= <-]; [|done]. intros [= <-]. lia.
  - intros j Hj. assert (j = 1 \/ j = 2) as [->| ->] by lia; [right | left].
    + by exists 100, 110.
    + apply elem_of_cons. right. by apply list_elem_of_singleton.
  - intros [|[]] s; [|done..]. intros [= <-]. exists 110, 100, 50. split_and!; done.
  - intros [|[|[]]] s s' j; [..|done]; intros [= <-]; [|done]. intros [= <-] Hj. assert (j = 1) as -> by lia. vm_compute. discriminate.
  - intros s j [= <-] Hj. lia.
Qed.

Lemma bpf_prog_linfo__lfind_spec_witness :
  bpf_prog_linfo__lfind demo_linfo 4 0 = Some (Ok 4) /\
  exists j, 4 = j * rec_size demo_linfo /\
    last_le (raw_linfo demo_linfo) (rec_size demo_linfo) 4 0 (nr_linfo demo_linfo - 0) 4 j.
Proof.
  split; [vm_compute; reflexivity |].
  destruct (bpf_prog_linfo__lfind_spec demo_linfo 4 0 demo_linfo_wf) as (r & He & Hr);
    [lia | by vm_compute |].
  replace (bpf_prog_linfo__lfind demo_linfo 4 0) with (Some (@Ok Z 4)) in He by (vm_compute; reflexivity).
  injection He as <-. exact Hr.
Defined.

Lemma bpf_prog_linfo__lfind_addr_func_spec_witness :
  bpf_prog_linfo__lfind_addr_func demo_linfo 120 0 0 = Some (Ok 4) /\
  exists s n j, func_run demo_linfo 0 s n /\ 4 = j * rec_size demo_linfo /\
    last_le (raw_jited_linfo demo_linfo) (jited_rec_size demo_linfo) 8 (s + 0) (n - 0) 120 j.
Proof.
  split; [vm_compute; reflexivity |].
  destruct (bpf_prog_linfo__lfind_addr_func_spec demo_linfo 120 0 0 demo_linfo_wf) as (r & He & Hr);
    [lia | lia | by vm_compute |].
  replace (bpf_prog_linfo__lfind_addr_func demo_linfo 120 0 0) with (Some (@Ok Z 4)) in He
    by (vm_compute; reflexivity).
  injection He as <-. exact Hr.
Defined.

(** The records of the last function are not checked: here they decrease, and the
    tables are built all the same. *)
Lemma last_function_unchecked :
  exists p o', bpf_prog_linfo__new
    (ProgInfo 3 4 [0; 0; 0; 0; 2; 0; 0; 0; 5; 0; 0; 0] 1 (Some [100]) 1 (Some [50])
              3 8 (Some (u64_bytes [100; 70; 30]))) [] = Some (Ok p, o') /\
    nr_jited_linfo_per_func p = [Some 3].
Proof. do 2 eexists. split; vm_compute; reflexivity. Qed.
