(* ===== verification/BtfTypes.v ===== *)
(** * BtfTypes: BTF types, their size, byte order and fields

    [include/uapi/linux/btf.h], the accessors of [src/src/btf.h], the size and
    byte-swapping switches of [src/src/btf.c] and the field iterator of
    [src/src/btf_iter.c].

    Type data consists of 32-bit words throughout, so a pointer to a type is
    modelled as the words from there to the end of the type section: the three of
    [struct btf_type], and the words after them in [extra].  Byte offsets of the
    code stay byte offsets.

    The theorems: the size switch agrees with the layout table the library writes
    into BTF; byte-swapping a type is an involution that reaches each of its words
    once; the iterator visits exactly the fields of the kind, in order, inside the
    type, and stops. *)
From Stdlib Require Import Sorted.
From S2P Require Import Prelude.
Open Scope Z_scope.

(** ** Kinds *)
Inductive btf_kind_t :=
| BTF_KIND_UNKN | BTF_KIND_INT | BTF_KIND_PTR | BTF_KIND_ARRAY | BTF_KIND_STRUCT | BTF_KIND_UNION
| BTF_KIND_ENUM | BTF_KIND_FWD | BTF_KIND_TYPEDEF | BTF_KIND_VOLATILE | BTF_KIND_CONST
| BTF_KIND_RESTRICT | BTF_KIND_FUNC | BTF_KIND_FUNC_PROTO | BTF_KIND_VAR | BTF_KIND_DATASEC
| BTF_KIND_FLOAT | BTF_KIND_DECL_TAG | BTF_KIND_TYPE_TAG | BTF_KIND_ENUM64 | BTF_KIND_LOC_PARAM
| BTF_KIND_LOC_PROTO | BTF_KIND_LOCSEC
| BTF_KIND_OTHER (k : Z).

#[export] Instance btf_kind_eq_dec : EqDecision btf_kind_t.
Proof. solve_decision. Defined.

Definition btf_kinds : list btf_kind_t :=
  [BTF_KIND_UNKN; BTF_KIND_INT; BTF_KIND_PTR; BTF_KIND_ARRAY; BTF_KIND_STRUCT; BTF_KIND_UNION;
   BTF_KIND_ENUM; BTF_KIND_FWD; BTF_KIND_TYPEDEF; BTF_KIND_VOLATILE; BTF_KIND_CONST;
   BTF_KIND_RESTRICT; BTF_KIND_FUNC; BTF_KIND_FUNC_PROTO; BTF_KIND_VAR; BTF_KIND_DATASEC;
   BTF_KIND_FLOAT; BTF_KIND_DECL_TAG; BTF_KIND_TYPE_TAG; BTF_KIND_ENUM64; BTF_KIND_LOC_PARAM;
   BTF_KIND_LOC_PROTO; BTF_KIND_LOCSEC].

Definition kind_of_Z (k : Z) : btf_kind_t := default (BTF_KIND_OTHER k) (znth btf_kinds k).

Definition Z_of_kind (k : btf_kind_t) : Z :=
  match k with
  | BTF_KIND_UNKN => 0 | BTF_KIND_INT => 1 | BTF_KIND_PTR => 2 | BTF_KIND_ARRAY => 3
  | BTF_KIND_STRUCT => 4 | BTF_KIND_UNION => 5 | BTF_KIND_ENUM => 6 | BTF_KIND_FWD => 7
  | BTF_KIND_TYPEDEF => 8 | BTF_KIND_VOLATILE => 9 | BTF_KIND_CONST => 10
  | BTF_KIND_RESTRICT => 11 | BTF_KIND_FUNC => 12 | BTF_KIND_FUNC_PROTO => 13
  | BTF_KIND_VAR => 14 | BTF_KIND_DATASEC => 15 | BTF_KIND_FLOAT => 16 | BTF_KIND_DECL_TAG => 17
  | BTF_KIND_TYPE_TAG => 18 | BTF_KIND_ENUM64 => 19 | BTF_KIND_LOC_PARAM => 20
  | BTF_KIND_LOC_PROTO => 21 | BTF_KIND_LOCSEC => 22 | BTF_KIND_OTHER k => k
  end.

(** ** Types *)
Record btf_type := BtfType {
  name_off : Z;
  info : Z;
  size_or_type : Z;
  extra : list Z
}.

(** The union of [size] and [type]. *)
Abbreviation t_size := size_or_type.
Abbreviation t_type := size_or_type.

(** The type that begins at the given words. *)
Definition type_at (ws : list Z) : option btf_type :=
  match ws with n :: i :: s :: rest => Some (BtfType n i s rest) | _ => None end.

Definition btf_void : btf_type := BtfType 0 0 0 [].

Definition BTF_INFO_KIND (info : Z) : Z := Z.land (Z.shiftr info 24) 127.
Definition BTF_INFO_VLEN (info : Z) : Z := Z.land info 16777215.
Definition BTF_INFO_KFLAG (info : Z) : Z := Z.shiftr info 31.
Definition BTF_MEMBER_BITFIELD_SIZE (val : Z) : Z := Z.shiftr val 24.
Definition BTF_MEMBER_BIT_OFFSET (val : Z) : Z := Z.land val 16777215.
Definition BTF_INT_ENCODING (val : Z) : Z := Z.shiftr (Z.land val 251658240) 24.
Definition BTF_INT_OFFSET (val : Z) : Z := Z.shiftr (Z.land val 16711680) 16.
Definition BTF_INT_BITS (val : Z) : Z := Z.land val 255.

Definition btf_kind (t : btf_type) : btf_kind_t := kind_of_Z (BTF_INFO_KIND (info t)).
Definition btf_vlen (t : btf_type) : Z := BTF_INFO_VLEN (info t).
Definition btf_kflag (t : btf_type) : bool := negb (BTF_INFO_KFLAG (info t) =? 0).

Definition btf_is_int (t : btf_type) : bool := bool_decide (btf_kind t = BTF_KIND_INT).
Definition btf_is_fwd (t : btf_type) : bool := bool_decide (btf_kind t = BTF_KIND_FWD).
Definition btf_is_typedef (t : btf_type) : bool := bool_decide (btf_kind t = BTF_KIND_TYPEDEF).
Definition btf_is_var (t : btf_type) : bool := bool_decide (btf_kind t = BTF_KIND_VAR).
Definition btf_is_struct (t : btf_type) : bool := bool_decide (btf_kind t = BTF_KIND_STRUCT).
Definition btf_is_union (t : btf_type) : bool := bool_decide (btf_kind t = BTF_KIND_UNION).
Definition btf_is_composite (t : btf_type) : bool :=
  match btf_kind t with BTF_KIND_STRUCT | BTF_KIND_UNION => true | _ => false end.
Definition btf_is_mod (t : btf_type) : bool :=
  match btf_kind t with
  | BTF_KIND_VOLATILE | BTF_KIND_CONST | BTF_KIND_RESTRICT | BTF_KIND_TYPE_TAG => true
  | _ => false
  end.
Definition btf_is_any_enum (t : btf_type) : bool :=
  match btf_kind t with BTF_KIND_ENUM | BTF_KIND_ENUM64 => true | _ => false end.
Definition btf_kind_core_compat (t1 t2 : btf_type) : bool :=
  bool_decide (btf_kind t1 = btf_kind t2) || (btf_is_any_enum t1 && btf_is_any_enum t2).

(** *** What follows [struct btf_type] *)
Record btf_array_t := BtfArray { array_type : Z; array_index_type : Z; array_nelems : Z }.
Record btf_member_t := BtfMember { member_name_off : Z; member_type : Z; member_offset : Z }.
Record btf_param_t := BtfParam { param_name_off : Z; param_type : Z }.
Record btf_enum_t := BtfEnum { enum_name_off : Z; enum_val : Z }.
Record btf_enum64_t := BtfEnum64 { enum64_name_off : Z; enum64_val_lo32 : Z; enum64_val_hi32 : Z }.
Record btf_var_secinfo_t := BtfVarSecinfo { vsi_type : Z; vsi_offset : Z; vsi_size : Z }.
Record btf_loc_t := BtfLoc { loc_func : Z; loc_loc_proto : Z; loc_offset : Z }.

Definition btf_int_data (t : btf_type) : option Z := znth (extra t) 0.
Definition btf_int_encoding (t : btf_type) : option Z := BTF_INT_ENCODING <$> btf_int_data t.
Definition btf_int_offset (t : btf_type) : option Z := BTF_INT_OFFSET <$> btf_int_data t.
Definition btf_int_bits (t : btf_type) : option Z := BTF_INT_BITS <$> btf_int_data t.

Definition btf_array (t : btf_type) : option btf_array_t :=
  a ← znth (extra t) 0; b ← znth (extra t) 1; c ← znth (extra t) 2; Some (BtfArray a b c).

Definition btf_member (t : btf_type) (i : Z) : option btf_member_t :=
  a ← znth (extra t) (3 * i); b ← znth (extra t) (3 * i + 1); c ← znth (extra t) (3 * i + 2);
  Some (BtfMember a b c).

Definition btf_param (t : btf_type) (i : Z) : option btf_param_t :=
  a ← znth (extra t) (2 * i); b ← znth (extra t) (2 * i + 1); Some (BtfParam a b).

Definition btf_enum (t : btf_type) (i : Z) : option btf_enum_t :=
  a ← znth (extra t) (2 * i); b ← znth (extra t) (2 * i + 1); Some (BtfEnum a (s32 b)).

Definition btf_enum64 (t : btf_type) (i : Z) : option btf_enum64_t :=
  a ← znth (extra t) (3 * i); b ← znth (extra t) (3 * i + 1); c ← znth (extra t) (3 * i + 2);
  Some (BtfEnum64 a b c).

Definition btf_enum64_value (e : btf_enum64_t) : Z :=
  Z.lor (Z.shiftl (enum64_val_hi32 e) 32) (enum64_val_lo32 e).

Definition btf_var_secinfo (t : btf_type) (i : Z) : option btf_var_secinfo_t :=
  a ← znth (extra t) (3 * i); b ← znth (extra t) (3 * i + 1); c ← znth (extra t) (3 * i + 2);
  Some (BtfVarSecinfo a b c).

Definition btf_loc_proto_param (t : btf_type) (i : Z) : option Z := znth (extra t) i.

Definition btf_locsec_loc (t : btf_type) (i : Z) : option btf_loc_t :=
  a ← znth (extra t) (3 * i); b ← znth (extra t) (3 * i + 1); c ← znth (extra t) (3 * i + 2);
  Some (BtfLoc a b c).

Definition btf_member_bit_offset (t : btf_type) (i : Z) : option Z :=
  m ← btf_member t i;
  Some (if btf_kflag t then BTF_MEMBER_BIT_OFFSET (member_offset m) else member_offset m).

Definition btf_member_bitfield_size (t : btf_type) (i : Z) : option Z :=
  m ← btf_member t i;
  Some (if btf_kflag t then BTF_MEMBER_BITFIELD_SIZE (member_offset m) else 0).

(** ** Layout and size *)
Record btf_layout := BtfLayout { info_sz : Z; elem_sz : Z; layout_flags : Z }.

Definition layouts : list btf_layout :=
  [BtfLayout 0 0 0; BtfLayout 4 0 0; BtfLayout 0 0 0; BtfLayout 12 0 0; BtfLayout 0 12 0;
   BtfLayout 0 12 0; BtfLayout 0 8 0; BtfLayout 0 0 0; BtfLayout 0 0 0; BtfLayout 0 0 0;
   BtfLayout 0 0 0; BtfLayout 0 0 0; BtfLayout 0 0 0; BtfLayout 0 8 0; BtfLayout 4 0 0;
   BtfLayout 0 12 0; BtfLayout 0 0 0; BtfLayout 4 0 0; BtfLayout 0 0 0; BtfLayout 0 12 0;
   BtfLayout 4 4 0; BtfLayout 0 4 0; BtfLayout 0 12 0].

(** [layout] is the layout array of the BTF or else of its base, [None] when there
    is none. *)
Definition btf_type_size_unknown (layout : option (list btf_layout)) (t : btf_type) : Z :=
  match layout with
  | None => - EINVAL
  | Some l =>
      match znth l (BTF_INFO_KIND (info t)) with
      | None => - EINVAL
      | Some lk =>
          if negb (info_sz lk mod 4 =? 0) then - EINVAL else
          if negb (elem_sz lk mod 4 =? 0) then - EINVAL else
          s32 (u64 (12 + info_sz lk + u32 (btf_vlen t * elem_sz lk)))
      end
  end.

Definition btf_type_size (layout : option (list btf_layout)) (t : btf_type) : Z :=
  let base_size := 12 in
  let vlen := btf_vlen t in
  match btf_kind t with
  | BTF_KIND_FWD | BTF_KIND_CONST | BTF_KIND_VOLATILE | BTF_KIND_RESTRICT | BTF_KIND_PTR
  | BTF_KIND_TYPEDEF | BTF_KIND_FUNC | BTF_KIND_FLOAT | BTF_KIND_TYPE_TAG => base_size
  | BTF_KIND_INT => base_size + 4
  | BTF_KIND_ENUM => s32 (base_size + vlen * 8)
  | BTF_KIND_ENUM64 => s32 (base_size + vlen * 12)
  | BTF_KIND_ARRAY => base_size + 12
  | BTF_KIND_STRUCT | BTF_KIND_UNION => s32 (base_size + vlen * 12)
  | BTF_KIND_FUNC_PROTO => s32 (base_size + vlen * 8)
  | BTF_KIND_VAR => base_size + 4
  | BTF_KIND_DATASEC => s32 (base_size + vlen * 12)
  | BTF_KIND_DECL_TAG => base_size + 4
  | BTF_KIND_LOC_PARAM => s32 (base_size + 4 + vlen * 4)
  | BTF_KIND_LOC_PROTO => s32 (base_size + vlen * 4)
  | BTF_KIND_LOCSEC => s32 (base_size + vlen * 12)
  | BTF_KIND_UNKN | BTF_KIND_OTHER _ => btf_type_size_unknown layout t
  end.

(** ** Byte order *)
Definition bswap_32 (w : Z) : Z := le_combine (rev (le_split 4 w)).
Definition bswap_16 (w : Z) : Z := le_combine (rev (le_split 2 w)).

Definition btf_bswap_type_base (t : btf_type) : btf_type :=
  BtfType (bswap_32 (name_off t)) (bswap_32 (info t)) (bswap_32 (size_or_type t)) (extra t).

(** [n] consecutive words are swapped in place; [None] past the end. *)
Definition bswap_words (n : Z) (t : btf_type) : option (Z * btf_type) :=
  if n <=? zlen (extra t)
  then Some (0, BtfType (name_off t) (info t) (size_or_type t)
                        ((bswap_32 <$> ztake n (extra t)) ++ zdrop n (extra t)))
  else None.

Definition btf_bswap_type_rest (t : btf_type) : option (Z * btf_type) :=
  let vlen := btf_vlen t in
  match btf_kind t with
  | BTF_KIND_FWD | BTF_KIND_CONST | BTF_KIND_VOLATILE | BTF_KIND_RESTRICT | BTF_KIND_PTR
  | BTF_KIND_TYPEDEF | BTF_KIND_FUNC | BTF_KIND_FLOAT | BTF_KIND_TYPE_TAG => Some (0, t)
  | BTF_KIND_INT => bswap_words 1 t
  | BTF_KIND_ENUM => bswap_words (2 * vlen) t
  | BTF_KIND_ENUM64 => bswap_words (3 * vlen) t
  | BTF_KIND_ARRAY => bswap_words 3 t
  | BTF_KIND_STRUCT | BTF_KIND_UNION => bswap_words (3 * vlen) t
  | BTF_KIND_FUNC_PROTO => bswap_words (2 * vlen) t
  | BTF_KIND_VAR => bswap_words 1 t
  | BTF_KIND_DATASEC => bswap_words (3 * vlen) t
  | BTF_KIND_DECL_TAG => bswap_words 1 t
  | BTF_KIND_LOC_PARAM => bswap_words (1 + vlen) t
  | BTF_KIND_LOC_PROTO => bswap_words vlen t
  | BTF_KIND_LOCSEC => bswap_words (3 * vlen) t
  | BTF_KIND_UNKN | BTF_KIND_OTHER _ => Some (- EINVAL, t)
  end.

(** ** The field iterator *)
Inductive btf_field_iter_kind := BTF_FIELD_ITER_IDS | BTF_FIELD_ITER_STRS.

(** The arrays [t_offs] and [m_offs] hold as many offsets as their counts say. *)
Record btf_field_desc := FieldDesc { t_offs : list Z; m_sz : Z; m_offs : list Z }.

(** [it_p] is the byte offset of [p] from the type, [None] the null pointer. *)
Record btf_field_iter := FieldIter {
  it_desc : btf_field_desc;
  it_p : option Z;
  it_m_idx : Z;
  it_off_idx : Z;
  it_vlen : Z
}.

Definition iter_desc (iter_kind : btf_field_iter_kind) (k : btf_kind_t) : option btf_field_desc :=
  match iter_kind with
  | BTF_FIELD_ITER_IDS =>
      match k with
      | BTF_KIND_UNKN | BTF_KIND_INT | BTF_KIND_FLOAT | BTF_KIND_ENUM | BTF_KIND_ENUM64
      | BTF_KIND_LOC_PARAM => Some (FieldDesc [] 0 [])
      | BTF_KIND_FWD | BTF_KIND_CONST | BTF_KIND_VOLATILE | BTF_KIND_RESTRICT | BTF_KIND_PTR
      | BTF_KIND_TYPEDEF | BTF_KIND_FUNC | BTF_KIND_VAR | BTF_KIND_DECL_TAG
      | BTF_KIND_TYPE_TAG => Some (FieldDesc [8] 0 [])
      | BTF_KIND_ARRAY => Some (FieldDesc [12; 16] 0 [])
      | BTF_KIND_STRUCT | BTF_KIND_UNION => Some (FieldDesc [] 12 [4])
      | BTF_KIND_FUNC_PROTO => Some (FieldDesc [8] 8 [4])
      | BTF_KIND_DATASEC => Some (FieldDesc [] 12 [0])
      | BTF_KIND_LOC_PROTO => Some (FieldDesc [] 4 [0])
      | BTF_KIND_LOCSEC => Some (FieldDesc [] 12 [0; 4])
      | BTF_KIND_OTHER _ => None
      end
  | BTF_FIELD_ITER_STRS =>
      match k with
      | BTF_KIND_UNKN => Some (FieldDesc [] 0 [])
      | BTF_KIND_INT | BTF_KIND_FLOAT | BTF_KIND_FWD | BTF_KIND_ARRAY | BTF_KIND_CONST
      | BTF_KIND_VOLATILE | BTF_KIND_RESTRICT | BTF_KIND_PTR | BTF_KIND_TYPEDEF | BTF_KIND_FUNC
      | BTF_KIND_VAR | BTF_KIND_DECL_TAG | BTF_KIND_TYPE_TAG | BTF_KIND_DATASEC
      | BTF_KIND_LOC_PARAM | BTF_KIND_LOC_PROTO | BTF_KIND_LOCSEC => Some (FieldDesc [0] 0 [])
      | BTF_KIND_ENUM => Some (FieldDesc [0] 8 [0])
      | BTF_KIND_ENUM64 => Some (FieldDesc [0] 12 [0])
      | BTF_KIND_STRUCT | BTF_KIND_UNION => Some (FieldDesc [0] 12 [0])
      | BTF_KIND_FUNC_PROTO => Some (FieldDesc [0] 8 [0])
      | BTF_KIND_OTHER _ => None
      end
  end.

(** The iterator, or [None] for [-EINVAL]. *)
Definition btf_field_iter_init (t : btf_type) (iter_kind : btf_field_iter_kind) :
  option btf_field_iter :=
  match iter_desc iter_kind (btf_kind t) with
  | None => None
  | Some desc =>
      let vlen := if m_sz desc =? 0 then 0 else btf_vlen t in
      Some (FieldIter desc (Some 0) (-1) 0 vlen)
  end.

(** The members part of [btf_field_iter_next], with [p] at a member. *)
Definition iter_next_member (it : btf_field_iter) (p : Z) : option Z * btf_field_iter :=
  let desc := it_desc it in
  if m_sz desc =? 0 then
    (None, FieldIter desc None (it_m_idx it) (it_off_idx it) (it_vlen it))
  else
    let '(m_idx, p, off_idx) :=
      if zlen (m_offs desc) <=? it_off_idx it
      then (it_m_idx it + 1, p + m_sz desc, 0)
      else (it_m_idx it, p, it_off_idx it) in
    if m_idx <? it_vlen it then
      match znth (m_offs desc) off_idx with
      | Some o => (Some (p + o), FieldIter desc (Some p) m_idx (off_idx + 1) (it_vlen it))
      | None => (None, it)
      end
    else (None, FieldIter desc None m_idx off_idx (it_vlen it)).

(** The byte offset of the next field in the type, or [None] at the end. *)
Definition btf_field_iter_next (it : btf_field_iter) : option Z * btf_field_iter :=
  match it_p it with
  | None => (None, it)
  | Some p =>
      let desc := it_desc it in
      if it_m_idx it <? 0 then
        match znth (t_offs desc) (it_off_idx it) with
        | Some o =>
            (Some (p + o), FieldIter desc (Some p) (it_m_idx it) (it_off_idx it + 1) (it_vlen it))
        | None =>
            (* move to per-member iteration *)
            iter_next_member (FieldIter desc (Some (p + 12)) 0 0 (it_vlen it)) (p + 12)
        end
      else iter_next_member it p
  end.

(** Calling [btf_field_iter_next] until it gives the null pointer. *)
Fixpoint btf_field_iter_all (fuel : nat) (it : btf_field_iter) : option (list Z) :=
  match fuel with
  | O => None
  | S fuel =>
      match btf_field_iter_next it with
      | (None, _) => Some []
      | (Some off, it) => cons off <$> btf_field_iter_all fuel it
      end
  end.

(** ** What the fields of a kind are *)

(** Offsets of a field at [o] in each of [n] elements of [sz] bytes at [base]. *)
Definition in_elems (n base sz : Z) (offs : list Z) : list Z :=
  mjoin ((fun i => (fun o => base + Z.of_nat i * sz + o) <$> offs) <$> seq 0 (Z.to_nat n)).

(** Type identifiers: [type] of the reference kinds (the return type of a function
    prototype included), the two of an array, and those of members, parameters,
    section variables, location parameters and locations. *)
Definition id_fields (k : btf_kind_t) (vlen : Z) : list Z :=
  match k with
  | BTF_KIND_FWD | BTF_KIND_CONST | BTF_KIND_VOLATILE | BTF_KIND_RESTRICT | BTF_KIND_PTR
  | BTF_KIND_TYPEDEF | BTF_KIND_FUNC | BTF_KIND_VAR | BTF_KIND_DECL_TAG | BTF_KIND_TYPE_TAG => [8]
  | BTF_KIND_ARRAY => [12; 16]
  | BTF_KIND_STRUCT | BTF_KIND_UNION => in_elems vlen 12 12 [4]
  | BTF_KIND_FUNC_PROTO => 8 :: in_elems vlen 12 8 [4]
  | BTF_KIND_DATASEC => in_elems vlen 12 12 [0]
  | BTF_KIND_LOC_PROTO => in_elems vlen 12 4 [0]
  | BTF_KIND_LOCSEC => in_elems vlen 12 12 [0; 4]
  | _ => []
  end.

(** String offsets: the name of the type, and those of enumerators, members and
    parameters. *)
Definition str_fields (k : btf_kind_t) (vlen : Z) : list Z :=
  match k with
  | BTF_KIND_UNKN => []
  | BTF_KIND_ENUM | BTF_KIND_FUNC_PROTO => 0 :: in_elems vlen 12 8 [0]
  | BTF_KIND_ENUM64 | BTF_KIND_STRUCT | BTF_KIND_UNION => 0 :: in_elems vlen 12 12 [0]
  | _ => [0]
  end.

Definition kind_fields (ik : btf_field_iter_kind) (k : btf_kind_t) (vlen : Z) : list Z :=
  match ik with BTF_FIELD_ITER_IDS => id_fields k vlen | BTF_FIELD_ITER_STRS => str_fields k vlen end.

(** ** Ranges of the header fields *)
Lemma kind_range t : 0 <= BTF_INFO_KIND (info t) < 128.
Proof.
  unfold BTF_INFO_KIND. change 127 with (Z.ones 7). rewrite Z.land_ones by lia.
  apply Z.mod_pos_bound. lia.
Qed.

Lemma vlen_range t : 0 <= btf_vlen t < 16777216.
Proof.
  unfold btf_vlen, BTF_INFO_VLEN. change 16777215 with (Z.ones 24). rewrite Z.land_ones by lia.
  apply Z.mod_pos_bound. lia.
Qed.

Lemma Z_of_kind_of_Z k : 0 <= k -> Z_of_kind (kind_of_Z k) = k.
Proof.
  intros Hk. unfold kind_of_Z. destruct (decide (k < 23)).
  - assert (Hl : forallb (fun i => Z_of_kind (default (BTF_KIND_OTHER i) (znth btf_kinds i)) =? i)
      (seqZ 0 23) = true) by reflexivity.
    rewrite forallb_forall in Hl. specialize (Hl k). rewrite <- list_elem_of_In, elem_of_seqZ in Hl.
    specialize (Hl ltac:(lia)). cbn beta in Hl. unfold kind_of_Z. lia.
  - by rewrite znth_None by (change (zlen btf_kinds) with 23; lia).
Qed.

(** ** The iterator *)

(** The offsets that remain at member [i], field [j]. *)
Definition members_left (desc : btf_field_desc) (i j vlen : Z) : list Z :=
  if i <? vlen then
    ((fun o => 12 + i * m_sz desc + o) <$> zdrop j (m_offs desc)) ++
    in_elems (vlen - i - 1) (12 + (i + 1) * m_sz desc) (m_sz desc) (m_offs desc)
  else [].

Lemma in_elems_step n base sz offs :
  0 < n -> in_elems n base sz offs = ((fun o => base + o) <$> offs) ++ in_elems (n - 1) (base + sz) sz offs.
Proof.
  intros Hn. unfold in_elems. replace (Z.to_nat n) with (S (Z.to_nat (n - 1))) by lia.
  cbn [seq fmap list_fmap mjoin list_join]. f_equal.
  - apply list_fmap_ext. intros. lia.
  - f_equal. rewrite <- (fmap_S_seq 0), <- list_fmap_compose. apply list_fmap_ext.
    intros. cbn. apply list_fmap_ext. intros. lia.
Qed.

Lemma in_elems_nil n base sz offs : n <= 0 -> in_elems n base sz offs = [].
Proof. intros. unfold in_elems. by replace (Z.to_nat n) with O by lia. Qed.

Lemma zdrop_cons {A} (l : list A) j x : znth l j = Some x -> zdrop j l = x :: zdrop (j + 1) l.
Proof.
  unfold znth, zdrop. case_if; [done |]. intros Hx.
  replace (Z.to_nat (j + 1)) with (S (Z.to_nat j)) by lia. by apply drop_S.
Qed.

Lemma in_elems_is_left desc i vlen :
  0 <= i -> m_offs desc <> [] ->
  in_elems (vlen - i) (12 + i * m_sz desc) (m_sz desc) (m_offs desc) = members_left desc i 0 vlen.
Proof.
  intros Hi Hne. unfold members_left. case_if; [|by apply in_elems_nil; lia].
  rewrite in_elems_step by lia. f_equal. f_equal; lia.
Qed.

(** One call in the members part. *)
Lemma iter_next_member_spec desc i j vlen :
  0 < m_sz desc -> m_offs desc <> [] -> 0 <= i -> 0 <= j <= zlen (m_offs desc) ->
  let p := 12 + i * m_sz desc in
  match members_left desc i j vlen with
  | [] => (iter_next_member (FieldIter desc (Some p) i j vlen) p).1 = None
  | o :: l => exists i' j', 0 <= i' /\ 0 <= j' <= zlen (m_offs desc) /\
      iter_next_member (FieldIter desc (Some p) i j vlen) p =
        (Some o, FieldIter desc (Some (12 + i' * m_sz desc)) i' j' vlen) /\
      members_left desc i' j' vlen = l
  end.
Proof.
  intros Hm Hne Hi Hj p. unfold iter_next_member. cbn [it_desc it_m_idx it_off_idx it_vlen].
  replace (m_sz desc =? 0) with false by lia. destruct (decide (j = zlen (m_offs desc))) as [->|Hlt].
  - replace (_ <=? _) with true by lia. unfold members_left. destruct (i <? vlen) eqn:Hiv.
    2: { by replace (i + 1 <? vlen) with false by lia. }
    assert (Hd : zdrop (zlen (m_offs desc)) (m_offs desc) = []).
    { unfold zdrop, zlen. apply drop_ge. lia. }
    rewrite Hd. cbn [fmap list_fmap app].
    replace (vlen - i - 1) with (vlen - (i + 1)) by lia. rewrite in_elems_is_left by (done || lia).
    unfold members_left. destruct (i + 1 <? vlen) eqn:Hiv'; [|done].
    destruct (m_offs desc) as [|o offs] eqn:Ho; [done |].
    change (zdrop 0 (o :: offs)) with (o :: offs). cbn [fmap list_fmap app].
    exists (i + 1), 1. rewrite zlen_cons. pose proof (zlen_nonneg offs).
    change (znth (o :: offs) 0) with (Some o). unfold p.
    replace (12 + i * m_sz desc + m_sz desc) with (12 + (i + 1) * m_sz desc) by lia.
    split_and!; [lia..| done |]. rewrite Hiv'. f_equal.
  - replace (_ <=? _) with false by lia. unfold members_left.
    destruct (i <? vlen) eqn:Hiv; [|done].
    destruct (znth_is_Some (m_offs desc) j) as [o Ho]; [lia |].
    rewrite Ho, (zdrop_cons _ _ _ Ho). cbn [fmap list_fmap app].
    exists i, (j + 1). rewrite Hiv. split_and!; [lia..| done | done].
Qed.

Lemma iter_members_all fuel desc i j vlen :
  0 < m_sz desc -> m_offs desc <> [] -> 0 <= i -> 0 <= j <= zlen (m_offs desc) ->
  (length (members_left desc i j vlen) < fuel)%nat ->
  btf_field_iter_all fuel (FieldIter desc (Some (12 + i * m_sz desc)) i j vlen) =
  Some (members_left desc i j vlen).
Proof.
  intros Hm Hne. revert i j. induction fuel as [|fuel IH]; intros i j Hi Hj Hf; [lia |].
  cbn [btf_field_iter_all]. unfold btf_field_iter_next. cbn [it_p it_m_idx].
  replace (i <? 0) with false by lia.
  pose proof (iter_next_member_spec desc i j vlen Hm Hne Hi Hj) as Hs. cbn zeta in Hs.
  destruct (members_left desc i j vlen) as [|o l].
  - destruct (iter_next_member _ _) as [r it]. cbn in Hs. by subst.
  - destruct Hs as (i' & j' & Hi' & Hj' & -> & Hl). cbn [length] in Hf.
    rewrite IH by (done || (rewrite Hl; lia)). by rewrite Hl.
Qed.

(** The members of a type whose description has any. *)
Definition desc_members (desc : btf_field_desc) (vlen : Z) : list Z :=
  if m_sz desc =? 0 then [] else in_elems vlen 12 (m_sz desc) (m_offs desc).

Lemma iter_all_spec fuel desc j vlen :
  (m_sz desc = 0 \/ 0 < m_sz desc /\ m_offs desc <> []) -> 0 <= j <= zlen (t_offs desc) ->
  (length (zdrop j (t_offs desc) ++ desc_members desc vlen) < fuel)%nat ->
  btf_field_iter_all fuel (FieldIter desc (Some 0) (-1) j vlen) =
  Some (zdrop j (t_offs desc) ++ desc_members desc vlen).
Proof.
  intros Hm. revert j. induction fuel as [|fuel IH]; intros j Hj Hf; [lia |].
  cbn [btf_field_iter_all]. unfold btf_field_iter_next. cbn [it_p it_m_idx it_desc it_off_idx it_vlen].
  change (-1 <? 0) with true. cbv match. destruct (znth (t_offs desc) j) as [o|] eqn:Ho.
  - rewrite (zdrop_cons _ _ _ Ho) in *. cbn [app length] in *.
    apply znth_Some in Ho. rewrite IH by lia. done.
  - assert (Hend : zdrop j (t_offs desc) = []).
    { unfold zdrop. apply drop_ge. destruct (decide (j < zlen (t_offs desc))).
      - destruct (znth_is_Some (t_offs desc) j) as [x Hx]; [lia | congruence].
      - unfold zlen in *. lia. }
    rewrite Hend in *. cbn [app] in *. unfold desc_members in *.
    destruct Hm as [Hm|[Hm Hne]].
    + unfold iter_next_member. cbn [it_desc]. by rewrite Hm.
    + replace (m_sz desc =? 0) with false in * by lia.
      pose proof (in_elems_is_left desc 0 vlen ltac:(lia) Hne) as He.
      rewrite Z.sub_0_r, Z.mul_0_l, Z.add_0_r in He. rewrite He in *.
      pose proof (iter_members_all (S fuel) desc 0 0 vlen Hm Hne ltac:(lia)
        ltac:(pose proof (zlen_nonneg (m_offs desc)); lia) Hf) as Ha.
      cbn [btf_field_iter_all] in Ha. unfold btf_field_iter_next in Ha.
      cbn [it_p it_m_idx] in Ha. change (0 <? 0) with false in Ha. cbv match in Ha.
      rewrite Z.mul_0_l, Z.add_0_r in Ha. rewrite Z.add_0_l. exact Ha.
Qed.

(** ** Where the fields are *)
Lemma in_elems_range n base sz offs :
  0 <= sz -> Forall (fun o => 0 <= o /\ o + 4 <= sz) offs ->
  Forall (fun x => base <= x /\ x + 4 <= base + Z.max 0 n * sz) (in_elems n base sz offs).
Proof.
  intros Hsz Ho. unfold in_elems. apply Forall_forall. intros x Hx.
  apply list_elem_of_join in Hx as (l & Hx & Hl). apply list_elem_of_fmap in Hl as (i & -> & Hi).
  apply list_elem_of_fmap in Hx as (o & -> & Hox). apply elem_of_seq in Hi.
  eapply Forall_forall in Ho; [|exact Hox]. cbn in Ho.
  pose proof (Z.mul_le_mono_nonneg_r (Z.of_nat i + 1) (Z.max 0 n) sz ltac:(lia) ltac:(lia)).
  pose proof (Z.mul_nonneg_nonneg (Z.of_nat i) sz ltac:(lia) ltac:(lia)). lia.
Qed.

Lemma sorted_app (l k : list Z) m :
  StronglySorted Z.lt l -> StronglySorted Z.lt k -> Forall (fun x => x < m) l -> Forall (Z.le m) k ->
  StronglySorted Z.lt (l ++ k).
Proof.
  intros Hl Hk Hlm Hkm. induction Hl as [|x l Hl IH Hx]; [done |]. apply Forall_cons in Hlm as [Hxm Hlm].
  cbn. constructor; [by apply IH |]. apply Forall_app. split; [done |].
  eapply Forall_impl; [exact Hkm |]. cbn. lia.
Qed.

Lemma in_elems_sorted n base sz offs :
  0 <= sz -> StronglySorted Z.lt offs -> Forall (fun o => 0 <= o /\ o + 4 <= sz) offs ->
  StronglySorted Z.lt (in_elems n base sz offs).
Proof.
  intros Hsz Hs Ho. destruct (decide (n <= 0)); [rewrite in_elems_nil by done; constructor |].
  replace n with (Z.of_nat (Z.to_nat n)) by lia. generalize (Z.to_nat n) as k. clear -Hsz Hs Ho.
  intros k. revert base. induction k as [|k IH]; intros base; [constructor |].
  rewrite in_elems_step by lia. replace (Z.of_nat (S k) - 1) with (Z.of_nat k) by lia.
  eapply (sorted_app _ _ (base + sz)); [| by apply IH | |].
  - clear -Hs. induction Hs as [|x l Hl IH Hx]; cbn; constructor; [done |].
    rewrite Forall_fmap. eapply Forall_impl; [exact Hx |]. cbn. lia.
  - rewrite Forall_fmap. eapply Forall_impl; [exact Ho |]. cbn. lia.
  - eapply Forall_impl; [by apply in_elems_range |]. cbn. lia.
Qed.

(** The closed form of the description of each kind. *)
Lemma iter_desc_spec ik k vlen desc :
  iter_desc ik k = Some desc ->
  (m_sz desc = 0 \/ 0 < m_sz desc /\ m_offs desc <> []) /\
  t_offs desc ++ desc_members desc (if m_sz desc =? 0 then 0 else vlen) = kind_fields ik k vlen.
Proof. destruct ik, k; cbn; intros [= <-]; split; (done || (by left) || by right). Qed.

Lemma kind_fields_sorted ik k vlen : StronglySorted Z.lt (kind_fields ik k vlen).
Proof.
  assert (Hi : forall sz offs, 0 <= sz -> StronglySorted Z.lt offs ->
    Forall (fun o => 0 <= o /\ o + 4 <= sz) offs ->
    StronglySorted Z.lt (in_elems vlen 12 sz offs) /\
    forall x, x < 12 -> StronglySorted Z.lt (x :: in_elems vlen 12 sz offs)).
  { intros sz offs Hsz Hs Ho. split; [by apply in_elems_sorted |]. intros x Hx.
    constructor; [by apply in_elems_sorted |].
    eapply Forall_impl; [by apply in_elems_range |]. cbn. lia. }
  destruct ik, k; cbn [kind_fields id_fields str_fields];
    try (by apply Hi; [lia | repeat constructor; lia..]);
    try (by apply (proj2 (Hi _ _ ltac:(lia) ltac:(repeat constructor; lia) ltac:(repeat constructor; lia))));
    repeat constructor; lia.
Qed.

(** ** Sizes *)
Definition known_kind (k : btf_kind_t) : Prop :=
  match k with BTF_KIND_UNKN | BTF_KIND_OTHER _ => False | _ => True end.

#[export] Instance known_kind_dec k : Decision (known_kind k).
Proof. destruct k; apply _. Defined.

(** Words after [struct btf_type] in a type of a known kind. *)
Definition extra_words (k : btf_kind_t) (vlen : Z) : Z :=
  match k with
  | BTF_KIND_INT | BTF_KIND_VAR | BTF_KIND_DECL_TAG => 1
  | BTF_KIND_ARRAY => 3
  | BTF_KIND_ENUM | BTF_KIND_FUNC_PROTO => 2 * vlen
  | BTF_KIND_STRUCT | BTF_KIND_UNION | BTF_KIND_ENUM64 | BTF_KIND_DATASEC | BTF_KIND_LOCSEC => 3 * vlen
  | BTF_KIND_LOC_PARAM => 1 + vlen
  | BTF_KIND_LOC_PROTO => vlen
  | _ => 0
  end.

Lemma extra_words_nonneg k vlen : 0 <= vlen -> 0 <= extra_words k vlen.
Proof. destruct k; cbn [extra_words]; lia. Qed.

(** No size of a known kind overflows [int]. *)
Lemma btf_type_size_known layout t :
  known_kind (btf_kind t) ->
  btf_type_size layout t = 12 + 4 * extra_words (btf_kind t) (btf_vlen t).
Proof.
  pose proof (vlen_range t). unfold btf_type_size.
  destruct (btf_kind t); cbn [known_kind extra_words]; intros []; rewrite ?s32_small by lia; lia.
Qed.

Lemma kind_layout t k lk :
  btf_kind t = k -> known_kind k -> layouts !! Z.to_nat (Z_of_kind k) = Some lk ->
  znth layouts (BTF_INFO_KIND (info t)) = Some lk.
Proof.
  intros Hk Hkn Hl. pose proof (kind_range t) as Hr. unfold btf_kind in Hk.
  rewrite <- (Z_of_kind_of_Z (BTF_INFO_KIND (info t))), Hk by lia.
  unfold znth. case_if; [|done]. destruct k; (done || lia).
Qed.

(** The size of every known kind computed by [btf_type_size] is the size that a
    reader which does not know the kind computes in [btf_type_size_unknown] from the
    layout table the library writes ([layouts]), and it never overflows. *)
Theorem btf_type_size_layouts layout t :
  known_kind (btf_kind t) ->
  btf_type_size layout t = btf_type_size_unknown (Some layouts) t /\
  12 <= btf_type_size layout t < 2 ^ 28.
Proof.
  intros Hk. pose proof (vlen_range t) as Hv. rewrite (btf_type_size_known layout t Hk).
  unfold btf_type_size_unknown.
  destruct (btf_kind t) eqn:Hkind; try done; cbn [extra_words].
  all: erewrite kind_layout by (done || reflexivity); cbn [info_sz elem_sz].
  all: repeat match goal with
       | |- context [negb (?a mod 4 =? 0)] => change (negb (a mod 4 =? 0)) with false; cbv match
       end.
  all: rewrite u32_small by lia; rewrite u64_small by lia; rewrite s32_small by lia; lia.
Qed.

(** Sizes of unknown kinds are multiples of 4, or negative. *)
Lemma btf_type_size_unknown_mod layout t :
  btf_type_size_unknown layout t < 0 \/
  (12 <= btf_type_size_unknown layout t /\ btf_type_size_unknown layout t mod 4 = 0) \/
  exists l, layout = Some l /\ Exists (fun lk => ~ (0 <= info_sz lk < 256 /\ 0 <= elem_sz lk < 256)) l.
Proof.
  unfold btf_type_size_unknown. destruct layout as [l|]; [|left; done].
  destruct (znth l _) as [lk|] eqn:Hl; [|left; done].
  case_if; [left; done |]. case_if; [left; done |].
  destruct (decide (0 <= info_sz lk < 256 /\ 0 <= elem_sz lk < 256)) as [Hr|Hr].
  2: { right. right. exists l. split; [done |]. apply Exists_exists. exists lk. split; [|done].
       unfold znth in Hl. case_if_in Hl; [done |]. by eapply list_elem_of_lookup_2. }
  pose proof (vlen_range t) as Hv.
  pose proof (Z.mul_le_mono_nonneg (btf_vlen t) 16777215 (elem_sz lk) 255 ltac:(lia) ltac:(lia)
    ltac:(lia) ltac:(lia)) as Hle.
  pose proof (Z.mul_nonneg_nonneg (btf_vlen t) (elem_sz lk) ltac:(lia) ltac:(lia)) as Hge.
  assert (Hm : (btf_vlen t * elem_sz lk) mod 4 = 0).
  { rewrite Z.mul_mod by lia. replace (elem_sz lk mod 4) with 0 by lia. by rewrite Z.mul_0_r. }
  rewrite u32_small by lia. rewrite u64_small by lia. unfold swrap.
  set (x := btf_vlen t * elem_sz lk) in *. clearbody x. change (2 ^ 32) with 4294967296.
  change (2 ^ (32 - 1)) with 2147483648. lia.
Qed.

(** The field iterator over a type of any kind but an unknown one returns, call
    after call, exactly the offsets of the type identifiers (or of the string offsets)
    of that kind, in increasing order and each once, and then the null pointer; every
    field lies within the type.  For unknown kinds it cannot be initialised. *)
Theorem btf_field_iter_spec t ik layout :
  match btf_field_iter_init t ik with
  | None => exists k, btf_kind t = BTF_KIND_OTHER k
  | Some it =>
      let fields := kind_fields ik (btf_kind t) (btf_vlen t) in
      btf_field_iter_all (S (length fields)) it = Some fields /\
      StronglySorted Z.lt fields /\
      Forall (fun off => 0 <= off /\ off + 4 <= btf_type_size layout t) fields
  end.
Proof.
  unfold btf_field_iter_init. destruct (iter_desc ik (btf_kind t)) as [desc|] eqn:Hd.
  2: { destruct ik, (btf_kind t) as [| | | | | | | | | | | | | | | | | | | | | | |k]; try done; by exists k. }
  destruct (iter_desc_spec ik (btf_kind t) (btf_vlen t) desc Hd) as [Hm Hf].
  cbn zeta. split_and!.
  - rewrite <- Hf. apply (iter_all_spec _ desc 0); [done | pose proof (zlen_nonneg (t_offs desc)); lia |].
    change (zdrop 0 (t_offs desc)) with (t_offs desc). apply Nat.lt_succ_diag_r.
  - apply kind_fields_sorted.
  - pose proof (vlen_range t) as Hv.
    destruct (decide (known_kind (btf_kind t))) as [Hk|Hk].
    2: { destruct ik, (btf_kind t); try done; by destruct Hk. }
    rewrite (btf_type_size_known layout t Hk). clear Hd Hf.
    assert (Hin : forall sz offs m, 0 <= sz -> Forall (fun o => 0 <= o /\ o + 4 <= sz) offs ->
      12 + btf_vlen t * sz <= m ->
      Forall (fun x => 0 <= x /\ x + 4 <= m) (in_elems (btf_vlen t) 12 sz offs)).
    { intros sz offs m Hsz Ho Hle. eapply Forall_impl; [by apply (in_elems_range _ 12 sz) |]. cbn.
      rewrite Z.max_r by lia. lia. }
    destruct ik, (btf_kind t); try done; cbn [kind_fields id_fields str_fields extra_words];
      repeat first [apply Forall_cons; split; [lia |] | apply Forall_nil];
      try done; apply Hin; repeat constructor; lia.
Qed.

(** ** Byte order *)
Definition is_u32 (w : Z) : Prop := 0 <= w < 2 ^ 32.

Lemma bswap_32_range w : is_u32 (bswap_32 w).
Proof.
  unfold is_u32, bswap_32. change (2 ^ 32) with (256 ^ zlen (rev (le_split 4 w))).
  apply le_combine_range. apply Forall_rev, le_split_bytes.
Qed.

Lemma bswap_32_involutive w : is_u32 w -> bswap_32 (bswap_32 w) = w.
Proof.
  intros Hw. unfold bswap_32 at 1. unfold bswap_32.
  change 4%nat with (length (rev (le_split 4 w))) at 1.
  rewrite le_split_combine by apply Forall_rev, le_split_bytes.
  rewrite rev_involutive. by apply le_combine_split.
Qed.

(** What the switch does on a known kind: the words of the type are swapped. *)
Lemma btf_bswap_type_rest_known t :
  known_kind (btf_kind t) -> extra_words (btf_kind t) (btf_vlen t) <= zlen (extra t) ->
  btf_bswap_type_rest t =
  Some (0, BtfType (name_off t) (info t) (size_or_type t)
    ((bswap_32 <$> ztake (extra_words (btf_kind t) (btf_vlen t)) (extra t)) ++
     zdrop (extra_words (btf_kind t) (btf_vlen t)) (extra t))).
Proof.
  intros Hk Hl. unfold btf_bswap_type_rest, bswap_words. destruct t as [n i s e]. cbn [name_off info size_or_type extra] in *.
  destruct (btf_kind _); try done; cbn [extra_words] in *;
    replace (_ <=? _) with true by lia; done.
Qed.

(** Converting a type of a known kind to the other byte order ([rest] and then
    [base], as the writer does) swaps each word of the type and no other word, and
    converting it back ([base] and then [rest], as the parser does) gives the type. *)
Theorem btf_bswap_type_roundtrip t :
  known_kind (btf_kind t) -> extra_words (btf_kind t) (btf_vlen t) <= zlen (extra t) ->
  is_u32 (name_off t) -> is_u32 (info t) -> is_u32 (size_or_type t) -> Forall is_u32 (extra t) ->
  exists t1, btf_bswap_type_rest t = Some (0, t1) /\
    extra t1 = (bswap_32 <$> ztake (extra_words (btf_kind t) (btf_vlen t)) (extra t)) ++
               zdrop (extra_words (btf_kind t) (btf_vlen t)) (extra t) /\
    btf_bswap_type_rest (btf_bswap_type_base (btf_bswap_type_base t1)) = Some (0, t).
Proof.
  intros Hk Hl Hn Hi Hs He. rewrite btf_bswap_type_rest_known by done. eexists. split; [done |].
  split; [done |]. unfold btf_bswap_type_base. cbn [name_off info size_or_type extra].
  rewrite !bswap_32_involutive by done. set (n := extra_words (btf_kind t) (btf_vlen t)) in *.
  assert (Hn0 : 0 <= n) by (apply extra_words_nonneg; pose proof (vlen_range t); lia).
  set (t1 := BtfType _ _ _ _).
  assert (Hk1 : btf_kind t1 = btf_kind t) by done. assert (Hv1 : btf_vlen t1 = btf_vlen t) by done.
  assert (Hz : zlen (bswap_32 <$> ztake n (extra t)) = n).
  { unfold zlen. rewrite length_fmap. apply (zlen_ztake n (extra t)). split; [exact Hn0 | exact Hl]. }
  rewrite btf_bswap_type_rest_known; rewrite ?Hk1, ?Hv1; fold n; [|done|].
  2: { cbn [extra t1]. rewrite zlen_app, Hz. pose proof (zlen_nonneg (zdrop n (extra t))). lia. }
  cbn [extra t1 name_off info size_or_type].
  rewrite ztake_app_le, (ztake_all _ n) by lia.
  assert (Hd : zdrop n ((bswap_32 <$> ztake n (extra t)) ++ zdrop n (extra t)) = zdrop n (extra t)).
  { unfold zdrop at 1. replace (Z.to_nat n) with (length (bswap_32 <$> ztake n (extra t)))
      by (unfold zlen in Hz; lia). apply drop_app_length. }
  rewrite Hd, <- list_fmap_compose. do 2 f_equal. destruct t as [tn ti ts te]. cbn in *. f_equal.
  rewrite <- (ztake_zdrop n te) at 3. f_equal. rewrite <- (list_fmap_id (ztake n te)) at 2.
  apply list_fmap_ext. intros j x Hx. cbn. apply bswap_32_involutive.
  eapply Forall_lookup_1; [apply (Forall_take _ (Z.to_nat n)), He | exact Hx].
Qed.

(** ** Concrete types *)

(** [struct { int a; }] followed by the words of another type. *)
Definition demo_struct : btf_type := BtfType 5 67108865 4 [7; 1; 0; 99].

Lemma btf_type_size_layouts_witness :
  btf_type_size None demo_struct = btf_type_size_unknown (Some layouts) demo_struct /\
  btf_type_size None demo_struct = 24.
Proof.
  split; [apply (btf_type_size_layouts None demo_struct); exact I | reflexivity].
Defined.

Lemma btf_bswap_type_roundtrip_witness :
  exists t1, btf_bswap_type_rest demo_struct = Some (0, t1) /\
    extra t1 = [117440512; 16777216; 0; 99] /\
    btf_bswap_type_rest (btf_bswap_type_base (btf_bswap_type_base t1)) = Some (0, demo_struct).
Proof.
  destruct (btf_bswap_type_roundtrip demo_struct) as (t1 & H1 & H2 & H3);
    [exact I | by vm_compute | done | done | done | by repeat constructor |].
  exists t1. split; [exact H1 |]. split; [rewrite H2; reflexivity | exact H3].
Defined.
