(* ===== verification/Btf.v ===== *)
(** * Btf: the BTF object of [src/src/btf.c] and the queries on it

    [struct btf] with its header, type data, type index, strings and base object,
    and the read-only operations: lookup of types and strings across the base,
    sizes and alignments, resolution of modifiers, and lookup by name.

    Memory: the type data is the list of the words in use ([type_len] bytes) and the
    type index the list of the entries in use; the rest of the allocated blocks,
    which the code writes before it reads, is only counted by the two capacities.
    A pointer to a type is the words from there on ([type_at] of [BtfTypes]), a
    pointer to a string the bytes from there on.  [None] is the null pointer where
    the code returns one ([btf__type_by_id], [btf__str_by_offset]), and elsewhere
    undefined behaviour.  Handles (the file descriptor, the ownership flags and
    whether the raw data is mapped) are left out. *)
From Stdlib Require Ascii String.
From stdpp Require Import strings.
From S2P Require Import Prelude Hashmap Mem Strset BtfTypes.
Open Scope Z_scope.

Record btf_header := BtfHeader {
  hdr_magic : Z;
  hdr_version : Z;
  hdr_flags : Z;
  hdr_len : Z;
  type_off : Z;
  type_len : Z;
  str_off : Z;
  str_len : Z;
  layout_off : Z;
  layout_len : Z
}.

Inductive btf := Btf {
  hdr : btf_header;
  raw_data : option (list Z);
  raw_data_swapped : option (list Z);
  raw_size : Z;
  swapped_endian : bool;
  types_data : list Z;
  types_data_cap : Z;
  type_offs : list Z;
  type_offs_cap : Z;
  nr_types : Z;
  named_start_id : Z;
  base_btf : option btf;
  start_id : Z;
  start_str_off : Z;
  strs_data : option (list Z);
  strs_set : option strset;
  strs_deduped : bool;
  modifiable : bool;
  has_hdr_extra : bool;
  layout : option (list btf_layout);
  ptr_sz : Z
}.

Definition BTF_MAGIC : Z := 60319.
Definition BTF_VERSION : Z := 1.
Definition BTF_MAX_NR_TYPES : Z := 2147483647.
Definition BTF_MAX_STR_OFFSET : Z := 2147483647.
Definition BTF_MAX_VLEN : Z := 16777215.
Definition MAX_RESOLVE_DEPTH : nat := 32.
Definition sizeof_btf_header : Z := 32.

(** ** Types and strings by number *)
Definition btf__type_cnt (b : btf) : Z := u32 (start_id b + nr_types b).

Definition btf__base_btf (b : btf) : option btf := base_btf b.

Fixpoint btf_type_by_id (b : btf) (type_id : Z) : option btf_type :=
  if type_id =? 0 then Some btf_void else
  if type_id <? start_id b then
    match base_btf b with
    | None => None
    | Some base => btf_type_by_id base type_id
    end
  else
    off ← znth (type_offs b) (type_id - start_id b);
    type_at (zdrop (off / 4) (types_data b)).

Definition btf__type_by_id (b : btf) (type_id : Z) : option btf_type :=
  if u32 (start_id b + nr_types b) <=? type_id then None else btf_type_by_id b type_id.

Definition btf_strs_data (b : btf) : list Z :=
  match strs_data b with
  | Some d => d
  | None => match strs_set b with Some set => strset__data set | None => [] end
  end.

(** The bytes from the string on, within the string section; [None] is the null
    pointer. *)
Fixpoint btf__str_by_offset (b : btf) (offset : Z) : option (list Z) :=
  if offset <? start_str_off b then
    match base_btf b with
    | None => None
    | Some base => btf__str_by_offset base offset
    end
  else if u32 (offset - start_str_off b) <? str_len (hdr b) then
    Some (zdrop (u32 (offset - start_str_off b)) (btf_strs_data b))
  else None.

Definition btf__name_by_offset (b : btf) (offset : Z) : option (list Z) :=
  btf__str_by_offset b offset.

(** The layout array used for kinds the library does not know. *)
Definition btf_layout_of (b : btf) : option (list btf_layout) :=
  match layout b with
  | Some l => Some l
  | None => match base_btf b with Some base => layout base | None => None end
  end.

(** ** Pointer size *)

(** The byte codes of an ASCII string. *)
Fixpoint ascii_bytes (s : String.string) : list Z :=
  match s with
  | String.EmptyString => []
  | String.String c s => Z.of_nat (Ascii.nat_of_ascii c) :: ascii_bytes s
  end.

Definition long_aliases : list (list Z) :=
  ascii_bytes <$>
  ["long"; "long int"; "int long"; "unsigned long"; "long unsigned"; "unsigned long int";
   "unsigned int long"; "long unsigned int"; "long int unsigned"; "int unsigned long";
   "int long unsigned"]%string.

(** The loop over types [i .. n-1]. *)
Fixpoint ptr_size_loop (n : nat) (b : btf) (i : Z) : option Z :=
  match n with
  | O => Some (-1)
  | S n =>
      t ← btf__type_by_id b i;
      if negb (btf_is_int t) then ptr_size_loop n b (i + 1) else
      if negb (t_size t =? 4) && negb (t_size t =? 8) then ptr_size_loop n b (i + 1) else
      match btf__name_by_offset b (name_off t) with
      | None => ptr_size_loop n b (i + 1)
      | Some p =>
          name ← cstr p;
          if bool_decide (name ∈ long_aliases) then Some (t_size t)
          else ptr_size_loop n b (i + 1)
      end
  end.

Definition determine_ptr_size (b : btf) : option Z :=
  match base_btf b with
  | Some base =>
      if 0 <? ptr_sz base then Some (ptr_sz base)
      else ptr_size_loop (Z.to_nat (btf__type_cnt b - 1)) b 1
  | None => ptr_size_loop (Z.to_nat (btf__type_cnt b - 1)) b 1
  end.

(** The cached value of [ptr_sz] after the call that determines it.  The queries do not give
    the object with the cached value back: where the code would use one that was cached before
    types were added, the size is determined again. *)
Definition cached_ptr_sz (b : btf) : option Z :=
  if ptr_sz b =? 0 then determine_ptr_size b else Some (ptr_sz b).

Definition btf_ptr_sz (b : btf) : option Z :=
  p ← cached_ptr_sz b; Some (if p <? 0 then 8 else p).

Definition btf__pointer_size (b : btf) : option Z :=
  p ← cached_ptr_sz b; Some (if p <? 0 then 0 else p).

(** ** Size and alignment *)
Definition btf_type_is_void_or_null (b_is_void : bool) (t : option btf_type) : bool :=
  match t with None => true | Some t => b_is_void || btf_is_fwd t end.

(** Whether the pointer [btf__type_by_id(btf, id)] gives is [&btf_void]. *)
Definition is_void_id (type_id : Z) : bool := type_id =? 0.

(** The loop of [btf__resolve_size]: [i] levels are left. *)
Fixpoint resolve_size_loop (i : nat) (b : btf) (type_id nelems : Z) : option (result Z) :=
  let t := btf__type_by_id b type_id in
  let finish size :=
    if size <? 0 then Some (Err EINVAL) else
    if negb (nelems =? 0) && (UINT32_MAX / nelems <? size) then Some (Err E2BIG) else
    Some (Ok (nelems * size)) in
  match i with
  | O => finish (-1)
  | S i =>
      if btf_type_is_void_or_null (is_void_id type_id) t then finish (-1) else
      t ← t;
      match btf_kind t with
      | BTF_KIND_INT | BTF_KIND_STRUCT | BTF_KIND_UNION | BTF_KIND_ENUM | BTF_KIND_ENUM64
      | BTF_KIND_DATASEC | BTF_KIND_FLOAT => finish (t_size t)
      | BTF_KIND_PTR => p ← btf_ptr_sz b; finish p
      | BTF_KIND_TYPEDEF | BTF_KIND_VOLATILE | BTF_KIND_CONST | BTF_KIND_RESTRICT | BTF_KIND_VAR
      | BTF_KIND_DECL_TAG | BTF_KIND_TYPE_TAG => resolve_size_loop i b (t_type t) nelems
      | BTF_KIND_ARRAY =>
          a ← btf_array t;
          if negb (nelems =? 0) && (UINT32_MAX / nelems <? array_nelems a) then Some (Err E2BIG) else
          resolve_size_loop i b (array_type a) (u32 (nelems * array_nelems a))
      | _ => Some (Err EINVAL)
      end
  end.

Definition btf__resolve_size (b : btf) (type_id : Z) : option (result Z) :=
  resolve_size_loop MAX_RESOLVE_DEPTH b type_id 1.

(** [fuel] bounds the depth of the recursion, which the code does not. *)
Fixpoint btf__align_of (fuel : nat) (b : btf) (id : Z) : option Z :=
  match fuel with
  | O => None
  | S fuel =>
      t ← btf__type_by_id b id;
      match btf_kind t with
      | BTF_KIND_INT | BTF_KIND_ENUM | BTF_KIND_ENUM64 | BTF_KIND_FLOAT =>
          p ← btf_ptr_sz b; Some (Z.min p (t_size t))
      | BTF_KIND_PTR => btf_ptr_sz b
      | BTF_KIND_TYPEDEF | BTF_KIND_VOLATILE | BTF_KIND_CONST | BTF_KIND_RESTRICT
      | BTF_KIND_TYPE_TAG => btf__align_of fuel b (t_type t)
      | BTF_KIND_ARRAY => a ← btf_array t; btf__align_of fuel b (array_type a)
      | BTF_KIND_STRUCT | BTF_KIND_UNION =>
          let fix members (n : nat) (i max_align : Z) : option Z :=
            match n with
            | O => Some (if negb (t_size t mod max_align =? 0) then 1 else max_align)
            | S n =>
                m ← btf_member t i;
                align ← btf__align_of fuel b (member_type m);
                if align <=? 0 then Some align else
                let max_align := Z.max max_align align in
                bits ← btf_member_bitfield_size t i;
                if (bits =? 0) && negb (member_offset m mod (8 * align) =? 0) then Some 1
                else members n (i + 1) max_align
            end in
          members (Z.to_nat (btf_vlen t)) 0 1
      | _ => Some 0
      end
  end.

(** ** Resolving modifiers, typedefs and variables *)
Fixpoint resolve_type_loop (depth : nat) (b : btf) (type_id : Z) : result Z :=
  let t := btf__type_by_id b type_id in
  if btf_type_is_void_or_null (is_void_id type_id) t then Err EINVAL else
  match t with
  | None => Err EINVAL
  | Some t =>
      match depth with
      | O => Err EINVAL
      | S depth =>
          if btf_is_mod t || btf_is_typedef t || btf_is_var t
          then resolve_type_loop depth b (t_type t)
          else Ok type_id
      end
  end.

Definition btf__resolve_type (b : btf) (type_id : Z) : result Z :=
  resolve_type_loop MAX_RESOLVE_DEPTH b type_id.

(** ** Lookup by name *)

(** The name of a type as a string; [None] is undefined behaviour. *)
Definition type_name (b : btf) (t : btf_type) : option (list Z) :=
  p ← btf__str_by_offset b (name_off t); cstr p.

Definition name_of_id (b : btf) (id : Z) : option (list Z) :=
  t ← btf_type_by_id b id; type_name b t.

Definition empty_str (s : list Z) : bool := match s with [] => true | _ => false end.

(** The loop of [btf_check_sorted] from type [i] on, [n] types being left.  It
    gives the start of the named types, or [None] inside when the names are not
    sorted. *)
Fixpoint check_sorted_loop (n : nat) (b : btf) (i named : Z) : option (option Z) :=
  match n with
  | O => Some (Some named)
  | S n =>
      na ← name_of_id b (i - 1);
      nb ← name_of_id b i;
      if 0 <? strcmp na nb then Some None else
      let named := if (named =? 0) && negb (empty_str na) then i - 1 else named in
      let named := if (named =? 0) && negb (empty_str nb) then i else named in
      check_sorted_loop n b (i + 1) named
  end.

(** The value of [named_start_id] afterwards. *)
Definition btf_check_sorted (b : btf) : option Z :=
  r ← check_sorted_loop (Z.to_nat (btf__type_cnt b - start_id b - 1)) b (start_id b + 1) 0;
  Some (match r with
        | Some named => if named =? 0 then named_start_id b else named
        | None => named_start_id b
        end).

(** Binary search for the first type of [l .. r] with a name not before [name].  The [__s32]
    variables are exact for identifiers up to [INT_MAX], which a chain of up to six objects
    does not exceed: each type takes at least 12 of fewer than 2^32 bytes. *)
Fixpoint bsearch_loop (fuel : nat) (b : btf) (name : list Z) (l r : Z) : option Z :=
  if l <=? r then
    match fuel with
    | O => None
    | S fuel =>
        let m := l + (r - l) ÷ 2 in
        tname ← name_of_id b m;
        if 0 <=? strcmp tname name then
          if l =? r then Some r else bsearch_loop fuel b name l m
        else bsearch_loop fuel b name (m + 1) r
    end
  else Some (btf__type_cnt b).

(** Every step makes the range smaller, so its length bounds the steps. *)
Definition btf_find_type_by_name_bsearch (b : btf) (name : list Z) (start_id : Z) : option Z :=
  let r := btf__type_cnt b - 1 in
  bsearch_loop (S (Z.to_nat (r - start_id + 1))) b name start_id r.

(** The scan after the binary search. *)
Fixpoint sorted_scan (n : nat) (b : btf) (name : list Z) (kind id : Z) : option Z :=
  match n with
  | O => Some (- ENOENT)
  | S n =>
      t ← btf__type_by_id b id;
      tname ← type_name b t;
      if negb (strcmp tname name =? 0) then Some (- ENOENT) else
      if (kind <? 0) || (BTF_INFO_KIND (info t) =? kind) then Some id
      else sorted_scan n b name kind (id + 1)
  end.

(** The scan over all types when they are not sorted. *)
Fixpoint linear_scan (n : nat) (b : btf) (name : list Z) (kind id : Z) : option Z :=
  match n with
  | O => Some (- ENOENT)
  | S n =>
      t ← btf_type_by_id b id;
      if (0 <? kind) && negb (BTF_INFO_KIND (info t) =? kind) then linear_scan n b name kind (id + 1) else
      tname ← type_name b t;
      if strcmp tname name =? 0 then Some id else linear_scan n b name kind (id + 1)
  end.

Definition void_name : list Z := ascii_bytes "void".

(** [kind < 0] matches every kind. *)
Fixpoint btf_find_by_name_kind (b : btf) (start : Z) (name : list Z) (kind : Z) : option Z :=
  let nr := btf__type_cnt b in
  let own start :=
    if (kind =? 0) || (strcmp name void_name =? 0) then Some 0 else
    if (0 <? named_start_id b) && negb (empty_str name) then
      let start := Z.max start (named_start_id b) in
      id ← btf_find_type_by_name_bsearch b name start;
      sorted_scan (Z.to_nat (nr - id)) b name kind id
    else linear_scan (Z.to_nat (nr - start)) b name kind start in
  if start <? start_id b then
    match base_btf b with
    | None => None
    | Some base =>
        id ← btf_find_by_name_kind base start name kind;
        if 0 <=? id then Some id else own (start_id b)
    end
  else own start.

Definition btf__find_by_name (b : btf) (name : list Z) : option Z :=
  btf_find_by_name_kind b 1 name (-1).
Definition btf__find_by_name_kind_own (b : btf) (name : list Z) (kind : Z) : option Z :=
  btf_find_by_name_kind b (start_id b) name kind.
Definition btf__find_by_name_kind (b : btf) (name : list Z) (kind : Z) : option Z :=
  btf_find_by_name_kind b 1 name kind.

(** ** Well-formed objects *)

(** The sizes of a layout are single bytes. *)
Definition layout_bytes (lay : option (list btf_layout)) : Prop :=
  match lay with
  | Some l => Forall (fun lk => 0 <= info_sz lk < 256 /\ 0 <= elem_sz lk < 256) l
  | None => True
  end.

(** The words of one type. *)
Definition type_ok (lay : option (list btf_layout)) (c : list Z) : Prop :=
  exists t, type_at c = Some t /\ btf_type_size lay t = 4 * zlen c.

(** The byte offsets of consecutive types from [off] on. *)
Fixpoint offsets (off : Z) (cs : list (list Z)) : list Z :=
  match cs with [] => [] | c :: cs => off :: offsets (off + 4 * zlen c) cs end.

(** The type section is the words of the types one after the other, and the index
    holds their offsets. *)
Record types_ok (b : btf) (cs : list (list Z)) : Prop := {
  types_words : types_data b = mjoin cs;
  types_index : type_offs b = offsets 0 cs;
  types_count : nr_types b = zlen cs;
  types_each : Forall (type_ok (btf_layout_of b)) cs;
  types_len : type_len (hdr b) = 4 * zlen (types_data b);
  types_layout : layout_bytes (btf_layout_of b);
  types_u32 : Forall is_u32 (types_data b)
}.

(** The string section is empty or ends with a NUL. *)
Definition strs_ok (b : btf) : Prop :=
  zlen (btf_strs_data b) = str_len (hdr b) /\
  (str_len (hdr b) = 0 \/ last (btf_strs_data b) = Some 0) /\
  Forall is_byte (btf_strs_data b) /\ 0 <= start_str_off b <= INT_MAX.

(** Identifiers and string offsets continue those of the base. *)
Fixpoint btf_ok (b : btf) : Prop :=
  (exists cs, types_ok b cs) /\ strs_ok b /\
  1 <= start_id b /\ start_id b + nr_types b < 2 ^ 32 /\
  match base_btf b with
  | None => start_id b = 1 /\ start_str_off b = 0
  | Some base =>
      btf_ok base /\ start_id b = start_id base + nr_types base /\
      start_str_off b = start_str_off base + str_len (hdr base)
  end.

Lemma btf_ok_unfold b :
  btf_ok b ->
  (exists cs, types_ok b cs) /\ strs_ok b /\
  1 <= start_id b /\ start_id b + nr_types b < 2 ^ 32 /\
  match base_btf b with
  | None => start_id b = 1 /\ start_str_off b = 0
  | Some base =>
      btf_ok base /\ start_id b = start_id base + nr_types base /\
      start_str_off b = start_str_off base + str_len (hdr base)
  end.
Proof. by destruct b. Qed.

Lemma btf_ok_intro b cs :
  types_ok b cs -> strs_ok b -> 1 <= start_id b -> start_id b + nr_types b < 2 ^ 32 ->
  match base_btf b with
  | None => start_id b = 1 /\ start_str_off b = 0
  | Some base =>
      btf_ok base /\ start_id b = start_id base + nr_types base /\
      start_str_off b = start_str_off base + str_len (hdr base)
  end -> btf_ok b.
Proof. intros Hc ????. destruct b. split; [by exists cs |]. by repeat (split; [assumption |]). Qed.

(** A type whose words all lie in the section. *)
Definition type_fits (t : btf_type) : Prop :=
  known_kind (btf_kind t) -> extra_words (btf_kind t) (btf_vlen t) <= zlen (extra t).

(** ** Lookup in a well-formed object *)

(** Induction along the chain of base objects. *)
Lemma btf_chain_ind (P : btf -> Prop) :
  (forall b, (forall base, base_btf b = Some base -> P base) -> P b) -> forall b, P b.
Proof.
  intros Hstep. fix IH 1. intros b. apply Hstep.
  destruct b as [? ? ? ? ? ? ? ? ? ? ? [base'|] ? ? ? ? ? ? ? ? ?]; intros base [= <-]. apply IH.
Qed.

(** The equations of the functions that recurse on the base. *)
Lemma btf_type_by_id_eq b type_id :
  btf_type_by_id b type_id =
  if type_id =? 0 then Some btf_void else
  if type_id <? start_id b then
    match base_btf b with
    | None => None
    | Some base => btf_type_by_id base type_id
    end
  else
    off ← znth (type_offs b) (type_id - start_id b);
    type_at (zdrop (off / 4) (types_data b)).
Proof. by destruct b. Qed.

Lemma btf__str_by_offset_eq b offset :
  btf__str_by_offset b offset =
  if offset <? start_str_off b then
    match base_btf b with
    | None => None
    | Some base => btf__str_by_offset base offset
    end
  else if u32 (offset - start_str_off b) <? str_len (hdr b) then
    Some (zdrop (u32 (offset - start_str_off b)) (btf_strs_data b))
  else None.
Proof. by destruct b. Qed.

Lemma type_at_app c k t : type_at c = Some t ->
  type_at (c ++ k) = Some (BtfType (name_off t) (info t) (size_or_type t) (extra t ++ k)).
Proof. destruct c as [|n [|i [|s c]]]; cbn; try done. by intros [= <-]. Qed.

Lemma type_at_zlen c t : type_at c = Some t -> zlen c = 3 + zlen (extra t).
Proof. destruct c as [|n [|i [|s c]]]; cbn [type_at]; try done. intros [= <-]. cbn [extra]. rewrite !zlen_cons. lia. Qed.

Lemma offsets_lookup cs n off c :
  cs !! n = Some c -> offsets off cs !! n = Some (off + 4 * zlen (mjoin (take n cs))).
Proof.
  revert n off. induction cs as [|c' cs IH]; intros [|n] off; try done; cbn [offsets lookup list_lookup].
  - intros _. f_equal. change (zlen (mjoin (take 0 (c' :: cs)))) with 0. lia.
  - intros Hc. rewrite (IH n _ Hc).
    change (mjoin (take (S n) (c' :: cs))) with (c' ++ mjoin (take n cs)). rewrite zlen_app.
    f_equal. lia.
Qed.

Lemma drop_chunks (cs : list (list Z)) n c :
  cs !! n = Some c -> drop (length (mjoin (take n cs))) (mjoin cs) = c ++ mjoin (drop (S n) cs).
Proof.
  revert n. induction cs as [|c' cs IH]; intros [|n]; try done; cbn [lookup list_lookup].
  - intros [= <-]. done.
  - intros Hc. change (mjoin (take (S n) (c' :: cs))) with (c' ++ mjoin (take n cs)).
    change (mjoin (c' :: cs)) with (c' ++ mjoin cs). cbn [drop].
    rewrite length_app, <- (IH n Hc), <- drop_drop. by rewrite drop_app_length.
Qed.

Lemma types_ok_lookup b cs id :
  types_ok b cs -> 0 < start_id b <= id -> id < start_id b + nr_types b ->
  exists c t rest, cs !! Z.to_nat (id - start_id b) = Some c /\ type_at c = Some t /\
    btf_type_size (btf_layout_of b) t = 4 * zlen c /\
    btf_type_by_id b id = Some (BtfType (name_off t) (info t) (size_or_type t) (extra t ++ rest)).
Proof.
  intros [Hw Hi Hn Hall _ _ _] Hs He. unfold zlen in Hn.
  destruct (lookup_lt_is_Some_2 cs (Z.to_nat (id - start_id b))) as [c Hc]; [lia |].
  destruct (Forall_lookup_1 _ _ _ _ Hall Hc) as (t & Ht & Hsz).
  exists c, t, (mjoin (drop (S (Z.to_nat (id - start_id b))) cs)). split_and!; [done..|].
  destruct b. cbn [start_id btf_type_by_id types_data type_offs] in *. cbn.
  replace (id =? 0) with false by lia. replace (id <? start_id0) with false by lia.
  unfold znth. replace (id - start_id0 <? 0) with false by lia.
  rewrite Hi, (offsets_lookup _ _ _ _ Hc). cbn [mbind option_bind].
  rewrite Z.add_0_l, Z.mul_comm, Z.div_mul by lia. unfold zdrop, zlen. rewrite Nat2Z.id, Hw.
  rewrite (drop_chunks _ _ _ Hc). by apply type_at_app.
Qed.

Lemma type_fits_app t rest lay :
  btf_type_size lay t = 12 + 4 * zlen (extra t) ->
  type_fits (BtfType (name_off t) (info t) (size_or_type t) (extra t ++ rest)).
Proof.
  intros Hs Hk. change (btf_kind _) with (btf_kind t) in *. change (btf_vlen _) with (btf_vlen t).
  rewrite btf_type_size_known in Hs by done. cbn [extra]. rewrite zlen_app.
  pose proof (zlen_nonneg rest). lia.
Qed.

(** Every identifier below the count has a type, all of whose words are there. *)
Lemma btf_type_by_id_total b id :
  btf_ok b -> 0 <= id < start_id b + nr_types b ->
  exists t, btf_type_by_id b id = Some t /\ type_fits t.
Proof.
  revert id. induction b as [b IH] using btf_chain_ind. intros id Hok Hid.
  pose proof (btf_ok_unfold b Hok) as ([cs Hcs] & _ & H1 & _ & Hbase).
  destruct (decide (id = 0)) as [->|Hne]; [exists btf_void; by rewrite btf_type_by_id_eq |].
  destruct (decide (id < start_id b)) as [Hlt|Hge].
  - destruct (base_btf b) as [base|] eqn:Hb; [|lia]. destruct Hbase as (Hbok & Hsi & _).
    destruct (IH base eq_refl id Hbok ltac:(lia)) as (t & Ht & Hf). exists t. split; [|done].
    rewrite btf_type_by_id_eq, Hb. replace (id =? 0) with false by lia.
    by replace (id <? _) with true by lia.
  - destruct (types_ok_lookup b cs id Hcs) as (c & t & rest & _ & Ht & Hsz & Hby); [lia.. |].
    eexists. split; [exact Hby |]. apply (type_fits_app t rest (btf_layout_of b)).
    apply type_at_zlen in Ht. lia.
Qed.

Lemma btf__type_by_id_spec b id :
  btf_ok b -> 0 <= id ->
  if id <? start_id b + nr_types b
  then exists t, btf__type_by_id b id = Some t /\ btf_type_by_id b id = Some t /\ type_fits t
  else btf__type_by_id b id = None.
Proof.
  intros Hok Hid. assert (Hr : 0 <= start_id b + nr_types b < 2 ^ 32).
  { apply btf_ok_unfold in Hok as ([cs Hcs] & _ & H1 & H2 & _).
    pose proof (types_count _ _ Hcs). pose proof (zlen_nonneg cs). lia. }
  unfold btf__type_by_id. rewrite u32_small by lia. case_if.
  - replace (_ <=? id) with false by lia.
    destruct (btf_type_by_id_total b id Hok ltac:(lia)) as (t & Ht & Hf). exists t. by rewrite Ht.
  - by replace (_ <=? id) with true by lia.
Qed.

(** Every string that is found is terminated. *)
Lemma btf__str_by_offset_ok b off p :
  btf_ok b -> btf__str_by_offset b off = Some p -> exists s, cstr p = Some s /\ pos_str s.
Proof.
  revert off p. induction b as [b IH] using btf_chain_ind. intros off p Hok.
  pose proof (btf_ok_unfold b Hok) as (_ & (Hz & Hl & Hby & Hr) & _ & _ & Hbase).
  rewrite btf__str_by_offset_eq. unfold INT_MAX in Hr. destruct (off <? start_str_off b) eqn:Hlt.
  - destruct (base_btf b) as [base|]; [|done]. apply (IH base eq_refl), Hbase.
  - pose proof (u32_range (off - start_str_off b)). set (k := u32 (off - start_str_off b)) in *. clearbody k.
    destruct (k <? str_len (hdr b)) eqn:Hin; [|done]. intros [= <-].
    destruct Hl as [Hl|Hl]; [lia |]. destruct (cstr_at_terminated _ k Hl) as [s Hs]; [lia |].
    exists s. unfold cstr_at in Hs. replace (k <? 0) with false in Hs by lia. split; [done |].
    eapply cstr_pos; [|exact Hs]. by apply Forall_drop.
Qed.
