(* ===== verification/BtfFind.v ===== *)
(** * BtfFind: lookup of types by name ([src/src/btf.c])

    The specification of [btf_find_by_name_kind]: the first type, in the order of the
    identifiers, that has the name and the kind.  The theorems show that both search
    strategies implement it, the scan of unsorted types and the binary search of
    types that [btf_check_sorted] found sorted, and that the search through the base
    objects does. *)
From S2P Require Import Prelude Hashmap Mem Strset BtfTypes Btf.
Open Scope Z_scope.

(** ** Specification *)

(** The type has this name and, unless [kind] is negative, this kind. *)
Definition id_matches (b : btf) (name : list Z) (kind id : Z) : Prop :=
  exists t, btf_type_by_id b id = Some t /\ type_name b t = Some name /\
    (kind < 0 \/ BTF_INFO_KIND (info t) = kind).

(** [r] is the first match of [lo .. hi), or [-ENOENT]. *)
Definition first_match (b : btf) (name : list Z) (kind lo hi r : Z) : Prop :=
  (lo <= r < hi /\ id_matches b name kind r /\ forall j, lo <= j < r -> ~ id_matches b name kind j) \/
  (r = - ENOENT /\ forall j, lo <= j < hi -> ~ id_matches b name kind j).

(** The types of the object have names. *)
Definition names_ok (b : btf) : Prop :=
  forall id, start_id b <= id < start_id b + nr_types b -> is_Some (name_of_id b id).

(** The names are sorted, those before type [n] being empty. *)
Definition sorted_from (b : btf) (n : Z) : Prop :=
  (forall id na nb, start_id b < id < start_id b + nr_types b ->
     name_of_id b (id - 1) = Some na -> name_of_id b id = Some nb -> strcmp na nb <= 0) /\
  (forall id, start_id b <= id < n -> name_of_id b id = Some []).

(** The flag that selects the binary search is only set for sorted names. *)
Definition named_ok (b : btf) : Prop := named_start_id b <= 0 \/ sorted_from b (named_start_id b).

(** ** Names *)
Lemma type_name_pos b t s : btf_ok b -> type_name b t = Some s -> pos_str s.
Proof.
  intros Hok. unfold type_name. destruct (btf__str_by_offset b (name_off t)) as [p|] eqn:Hp; [|done].
  cbn. intros Hs. destruct (btf__str_by_offset_ok b _ _ Hok Hp) as (s' & Hs' & Hpos). congruence.
Qed.

Lemma name_of_id_pos b id s : btf_ok b -> name_of_id b id = Some s -> pos_str s.
Proof.
  intros Hok. unfold name_of_id. destruct (btf_type_by_id b id) as [t|]; [|done]. by apply type_name_pos.
Qed.

Lemma strcmp_eq_iff a b : pos_str a -> pos_str b -> strcmp a b = 0 <-> a = b.
Proof.
  intros Ha Hb. split; [|intros ->; apply strcmp_refl].
  intros H. apply strcmp_eq; [by apply pos_no_nul.. | done].
Qed.

(** Sorted names compare by identifier. *)
Lemma sorted_le b n i j na nb :
  btf_ok b -> names_ok b -> sorted_from b n -> start_id b <= i <= j -> j < start_id b + nr_types b ->
  name_of_id b i = Some na -> name_of_id b j = Some nb -> strcmp na nb <= 0.
Proof.
  intros Hok Hn [Hs _] Hij Hj Ha. replace j with (i + Z.of_nat (Z.to_nat (j - i))) in * by lia.
  generalize dependent (Z.to_nat (j - i)). intros k. revert nb.
  induction k as [|k IH]; intros nb Hij Hj Hb.
  { rewrite Z.add_0_r in Hb. simplify_eq. rewrite strcmp_refl. lia. }
  destruct (Hn (i + Z.of_nat k) ltac:(lia)) as [nc Hc].
  eapply (strcmp_le_trans na nc nb); [by eapply name_of_id_pos.. | apply IH; (done || lia) |].
  apply (Hs (i + Z.of_nat (S k))); [lia | | done].
  by replace (i + Z.of_nat (S k) - 1) with (i + Z.of_nat k) by lia.
Qed.

(** ** The test for sorted names *)
Lemma check_sorted_loop_spec n b i named :
  names_ok b -> 1 <= start_id b < i -> i + Z.of_nat n <= start_id b + nr_types b \/ n = O ->
  (forall id na nb, start_id b < id < i ->
     name_of_id b (id - 1) = Some na -> name_of_id b id = Some nb -> strcmp na nb <= 0) ->
  (forall id, start_id b <= id < (if named =? 0 then i - 1 else named) -> name_of_id b id = Some []) ->
  exists r, check_sorted_loop n b i named = Some r /\
    match r with
    | None => True
    | Some m =>
        (forall id na nb, start_id b < id < i + Z.of_nat n ->
           name_of_id b (id - 1) = Some na -> name_of_id b id = Some nb -> strcmp na nb <= 0) /\
        (m <> 0 -> forall id, start_id b <= id < m -> name_of_id b id = Some [])
    end.
Proof.
  intros Hn. revert i named. induction n as [|n IH]; intros i named Hi Hcnt Hs He; cbn [check_sorted_loop].
  { eexists. split; [done |]. split; [intros id na nb Hid; apply Hs; lia |].
    intros Hm. by replace (named =? 0) with false in He by lia. }
  destruct Hcnt as [Hcnt|]; [|done].
  destruct (Hn (i - 1) ltac:(lia)) as [na Ha]. destruct (Hn i ltac:(lia)) as [nb Hb].
  rewrite Ha, Hb. cbn [mbind option_bind]. case_if; [by eexists |].
  set (named1 := if (named =? 0) && negb (empty_str na) then i - 1 else named).
  set (named2 := if (named1 =? 0) && negb (empty_str nb) then i else named1).
  destruct (IH (i + 1) named2) as (r & Hr & Hpost); [lia | | | |].
  - left. lia.
  - intros id na' nb' Hid. destruct (decide (id = i)) as [->|]; [|apply Hs; lia].
    intros ??. simplify_eq. lia.
  - intros id Hid. unfold named2, named1 in Hid. destruct (named =? 0) eqn:H0; cbn [andb] in Hid.
    2: { rewrite H0 in Hid. cbn [andb] in Hid. rewrite H0 in Hid. by apply He. }
    destruct na as [|x na]; cbn [empty_str negb andb] in Hid.
    + assert (Hall : forall id, start_id b <= id < i -> name_of_id b id = Some []).
      { intros id' Hid'. destruct (decide (id' = i - 1)) as [->|]; [done | apply He; lia]. }
      rewrite H0 in Hid. destruct nb as [|y nb]; cbn [empty_str negb andb] in Hid.
      * rewrite H0 in Hid. destruct (decide (id = i)) as [->|]; [done | apply Hall; lia].
      * apply Hall. case_if_in Hid; lia.
    + apply He. replace (i - 1 =? 0) with false in Hid by lia. cbn [andb] in Hid.
      replace (i - 1 =? 0) with false in Hid by lia. lia.
  - exists r. split; [done |]. destruct r as [m|]; [|done].
    by replace (i + Z.of_nat (S n)) with (i + 1 + Z.of_nat n) by lia.
Qed.

Lemma btf_check_sorted_spec b :
  btf_ok b -> names_ok b -> named_start_id b = 0 ->
  exists n, btf_check_sorted b = Some n /\ (n <= 0 \/ sorted_from b n).
Proof.
  intros Hok Hn H0. pose proof (btf_ok_unfold b Hok) as ([cs Hcs] & _ & H1 & H2 & _).
  pose proof (types_count _ _ Hcs). pose proof (zlen_nonneg cs).
  unfold btf_check_sorted, btf__type_cnt. rewrite u32_small by lia.
  destruct (check_sorted_loop_spec (Z.to_nat (start_id b + nr_types b - start_id b - 1)) b
    (start_id b + 1) 0 Hn) as (r & -> & Hr); [lia | lia | intros; lia | intros id Hid; cbn in Hid; lia |].
  cbn [mbind option_bind]. eexists. split; [done |]. rewrite H0. destruct r as [m|]; [|by left].
  destruct Hr as [Hs He]. destruct (m =? 0) eqn:Hm; [by left |]. right. split; [|apply He; lia].
  intros id na nb Hid. apply Hs. lia.
Qed.

(** ** The scan of unsorted types *)
Section Scan.
Context (b : btf) (name : list Z) (kind : Z).
Hypothesis (Hok : btf_ok b) (Hn : names_ok b) (Hname : pos_str name) (Hkind : kind <> 0).

(** The name of a type of the object. *)
Lemma own_name id :
  start_id b <= id < start_id b + nr_types b ->
  exists t s, btf_type_by_id b id = Some t /\ btf__type_by_id b id = Some t /\
    type_name b t = Some s /\ name_of_id b id = Some s /\ pos_str s /\
    (id_matches b name kind id <-> s = name /\ (kind < 0 \/ BTF_INFO_KIND (info t) = kind)).
Proof.
  intros Hid. destruct (Hn id Hid) as [s Hs]. pose proof Hs as Hs'. unfold name_of_id in Hs'.
  destruct (btf_type_by_id b id) as [t|] eqn:Ht; [|done]. cbn in Hs'. exists t, s.
  pose proof (btf_ok_unfold b Hok) as (_ & _ & H1 & H2 & _).
  pose proof (btf__type_by_id_spec b id Hok ltac:(lia)) as Hby.
  replace (_ <? _) with true in Hby by lia. destruct Hby as (t' & Hby & Hby' & _).
  rewrite Ht in Hby'. simplify_eq. split_and!; [done.. | by eapply type_name_pos |].
  unfold id_matches. rewrite Ht. split.
  - intros (t & ? & ? & ?). simplify_eq. done.
  - intros [-> ?]. by exists t'.
Qed.

Lemma linear_scan_spec n id :
  start_id b <= id -> id + Z.of_nat n <= start_id b + nr_types b \/ n = O ->
  exists r, linear_scan n b name kind id = Some r /\
    first_match b name kind id (id + Z.of_nat n) r.
Proof.
  revert id. induction n as [|n IH]; intros id Hid Hcnt; cbn [linear_scan].
  { eexists. split; [done |]. right. split; [done | intros; lia]. }
  destruct Hcnt as [Hcnt|]; [|done].
  destruct (own_name id ltac:(lia)) as (t & s & -> & _ & Hs & _ & Hpos & Hm). cbn [mbind option_bind].
  assert (Hskip : ~ id_matches b name kind id ->
    exists r, linear_scan n b name kind (id + 1) = Some r /\
      first_match b name kind id (id + Z.of_nat (S n)) r).
  { intros Hne. destruct (IH (id + 1)) as (r & Hr & Hf); [lia | lia |]. exists r. split; [done |].
    replace (id + Z.of_nat (S n)) with (id + 1 + Z.of_nat n) by lia.
    destruct Hf as [(Hr1 & Hr2 & Hr3)|(Hr1 & Hr2)]; [left | right]; split_and!; try (done || lia).
    all: intros j Hj; destruct (decide (j = id)) as [->|]; [done|]; (apply Hr3 || apply Hr2); lia. }
  case_if; [apply Hskip; rewrite Hm; lia |]. rewrite Hs. cbn [mbind option_bind]. case_if.
  - exists id. split; [done |]. left. split_and!; [lia.. | | intros; lia].
    apply Hm. split; [apply strcmp_eq_iff; (done || lia) | lia].
  - apply Hskip. rewrite Hm. intros [-> _]. rewrite strcmp_refl in *. lia.
Qed.

(** ** The binary search *)
Context (lo : Z).
Hypothesis (Hlo : start_id b <= lo) (Hsorted : sorted_from b (named_start_id b)).

Lemma bsearch_loop_spec fuel l r :
  lo <= l -> l <= r + 1 -> r < start_id b + nr_types b -> r - l + 1 < Z.of_nat fuel ->
  (forall j s, lo <= j < l -> name_of_id b j = Some s -> strcmp s name < 0) ->
  (r = start_id b + nr_types b - 1 \/
   lo <= r /\ exists s, name_of_id b r = Some s /\ 0 <= strcmp s name) ->
  exists id, bsearch_loop fuel b name l r = Some id /\ lo <= id <= start_id b + nr_types b /\
    (forall j s, lo <= j < id -> name_of_id b j = Some s -> strcmp s name < 0) /\
    (id < start_id b + nr_types b -> exists s, name_of_id b id = Some s /\ 0 <= strcmp s name).
Proof.
  revert l r. induction fuel as [|fuel IH]; intros l r Hl Hlr Hr Hf Hlt Hge; [lia |]. cbn [bsearch_loop].
  pose proof (btf_ok_unfold b Hok) as ([cs Hcs] & _ & H1 & H2 & _).
  pose proof (types_count _ _ Hcs). pose proof (zlen_nonneg cs).
  destruct (l <=? r) eqn:Hle.
  2: { unfold btf__type_cnt. rewrite u32_small by lia. eexists. split; [done |].
       assert (r = start_id b + nr_types b - 1).
       { destruct Hge as [?|(Hrl & s & Hs & Hsn)]; [done |]. exfalso.
         specialize (Hlt r s ltac:(lia) Hs). lia. }
       split_and!; [lia.. | |intros; lia]. intros j s Hj. apply Hlt. lia. }
  assert (Hm : l <= l + (r - l) ÷ 2 <= r /\ (l < r -> l + (r - l) ÷ 2 < r)).
  { rewrite Z.quot_div_nonneg by lia. lia. }
  set (m := l + (r - l) ÷ 2) in *. clearbody m.
  destruct (own_name m ltac:(lia)) as (t & s & _ & _ & _ & Hs & Hpos & _). rewrite Hs. cbn [mbind option_bind].
  case_if.
  - case_if.
    + exists r. split; [done |]. assert (m = l) by lia. split_and!; [lia.. | |].
      * intros j s' Hj. apply Hlt. lia.
      * intros _. exists s. replace r with m by lia. split; [done | lia].
    + apply IH; try (done || lia). right. split; [lia |]. exists s. split; [done | lia].
  - apply IH; try (done || lia). intros j s' Hj Hs'.
    destruct (decide (j < l)); [eapply Hlt; [|done]; lia |].
    destruct (decide (j = m)) as [->|]; [simplify_eq; lia |].
    pose proof (sorted_le b _ j m s' s Hok Hn Hsorted ltac:(lia) ltac:(lia) Hs' Hs) as Hle'.
    destruct (decide (strcmp s' name < 0)); [done |]. exfalso.
    pose proof (strcmp_opp s name). pose proof (strcmp_opp s' name).
    pose proof (strcmp_le_trans name s' s Hname ltac:(by eapply name_of_id_pos) Hpos ltac:(lia) Hle'). lia.
Qed.

Lemma sorted_scan_spec n id :
  lo <= id -> id + Z.of_nat n = start_id b + nr_types b \/ n = O /\ start_id b + nr_types b <= id ->
  (forall j, lo <= j < id -> ~ id_matches b name kind j) ->
  (forall s, id < start_id b + nr_types b -> name_of_id b id = Some s -> 0 <= strcmp s name) ->
  exists r, sorted_scan n b name kind id = Some r /\
    first_match b name kind lo (start_id b + nr_types b) r.
Proof.
  revert id. induction n as [|n IH]; intros id Hid Hcnt Hno Hge; cbn [sorted_scan].
  { eexists. split; [done |]. right. split; [done |]. intros j Hj. apply Hno. lia. }
  destruct Hcnt as [Hcnt|[? _]]; [|done].
  destruct (own_name id ltac:(lia)) as (t & s & _ & -> & Hs & Hsn & Hpos & Hm). cbn [mbind option_bind].
  rewrite Hs. cbn [mbind option_bind]. specialize (Hge s ltac:(lia) Hsn).
  destruct (strcmp s name =? 0) eqn:Heq; cbn [negb].
  - assert (s = name) as -> by (apply strcmp_eq_iff; (done || lia)). case_if.
    + exists id. split; [done |]. left. split_and!; [lia.. | | done]. apply Hm. split; [done | lia].
    + apply IH; [lia | left; lia | |].
      * intros j Hj. destruct (decide (j = id)) as [->|]; [rewrite Hm; lia | apply Hno; lia].
      * intros s' Hlt Hs'. pose proof (proj1 Hsorted (id + 1) name s' ltac:(lia)) as Hle.
        replace (id + 1 - 1) with id in Hle by lia. specialize (Hle Hsn Hs').
        rewrite (strcmp_opp name s'). lia.
  - eexists. split; [done |]. right. split; [done |]. intros j Hj.
    destruct (decide (j < id)); [apply Hno; lia |]. intros Hmj.
    destruct (own_name j ltac:(lia)) as (tj & sj & _ & _ & _ & Hsj & _ & Hmj').
    destruct (proj1 Hmj' Hmj) as [-> _].
    pose proof (sorted_le b _ id j s name Hok Hn Hsorted ltac:(lia) ltac:(lia) Hsn Hsj). lia.
Qed.
End Scan.

(** Both strategies find the first match of the types of the object from [start] on. *)
Lemma find_own_spec b name kind start :
  btf_ok b -> names_ok b -> named_ok b -> pos_str name -> kind <> 0 -> start_id b <= start ->
  exists r,
    (if (0 <? named_start_id b) && negb (empty_str name) then
       id ← btf_find_type_by_name_bsearch b name (Z.max start (named_start_id b));
       sorted_scan (Z.to_nat (btf__type_cnt b - id)) b name kind id
     else linear_scan (Z.to_nat (btf__type_cnt b - start)) b name kind start) = Some r /\
    first_match b name kind start (start_id b + nr_types b) r.
Proof.
  intros Hok Hn Hnamed Hname Hkind Hs.
  pose proof (btf_ok_unfold b Hok) as ([cs Hcs] & _ & H1 & H2 & _).
  pose proof (types_count _ _ Hcs). pose proof (zlen_nonneg cs).
  assert (Hcnt : btf__type_cnt b = start_id b + nr_types b) by (apply u32_small; lia).
  rewrite Hcnt. case_if.
  - destruct Hnamed as [?|Hsorted]; [lia |]. bools.
    set (lo := Z.max start (named_start_id b)).
    assert (Hlow : forall r, first_match b name kind lo (start_id b + nr_types b) r ->
      first_match b name kind start (start_id b + nr_types b) r).
    { assert (Hne : forall j, start <= j < lo -> j < start_id b + nr_types b -> ~ id_matches b name kind j).
      { intros j Hj Hjc. destruct (own_name b name kind Hok Hn Hname j ltac:(lia)) as (t & s & _ & _ & _ & Hsn & _ & Hm).
        rewrite Hm. intros [-> _]. rewrite (proj2 Hsorted j ltac:(lia)) in Hsn. by simplify_eq. }
      intros r [(Hr & Hm & Hno)|(-> & Hno)]; [left | right]; split_and!; try (done || lia).
      all: intros j Hj; destruct (decide (j < lo)); [apply Hne; lia | apply Hno; lia]. }
    unfold btf_find_type_by_name_bsearch. rewrite Hcnt.
    destruct (decide (lo <= start_id b + nr_types b)) as [Hin|Hout].
    + destruct (bsearch_loop_spec b name kind Hok Hn Hname lo ltac:(lia) Hsorted
        (S (Z.to_nat (start_id b + nr_types b - 1 - lo + 1))) lo (start_id b + nr_types b - 1))
        as (id & -> & Hid & Hlt & Hge); [lia.. | intros; lia | by left |].
      cbn [mbind option_bind].
      destruct (sorted_scan_spec b name kind Hok Hn Hname Hkind lo ltac:(lia) Hsorted
        (Z.to_nat (start_id b + nr_types b - id)) id) as (r & Hr & Hf); [lia | lia | | |].
      * intros j Hj. destruct (own_name b name kind Hok Hn Hname j ltac:(lia)) as (t & s & _ & _ & _ & Hsn & _ & Hm).
        rewrite Hm. intros [-> _]. specialize (Hlt j name Hj Hsn). rewrite strcmp_refl in Hlt. lia.
      * intros s Hlt' Hsn. destruct (Hge Hlt') as (s' & Hs' & ?). by simplify_eq.
      * exists r. auto.
    + replace (bsearch_loop _ _ _ _ _) with (Some (btf__type_cnt b))
        by (cbn [bsearch_loop]; by replace (lo <=? _) with false by lia).
      cbn [mbind option_bind]. rewrite Hcnt, Z.sub_diag. cbn [Z.to_nat sorted_scan].
      eexists. split; [done |]. apply Hlow. right. split; [done | intros; lia].
  - destruct (linear_scan_spec b name kind Hok Hn Hname Hkind
      (Z.to_nat (start_id b + nr_types b - start)) start) as (r & Hr & Hf); [done | lia |].
    exists r. split; [done |]. destruct Hf as [(Hr1 & ?)|(-> & Hno)]; [left | right].
    + split; [lia | done].
    + split; [done |]. intros j Hj. apply Hno. lia.
Qed.

(** ** Through the base objects *)
Fixpoint chain_named (b : btf) : Prop :=
  names_ok b /\ named_ok b /\
  match base_btf b with Some base => chain_named base | None => True end.

Lemma chain_named_unfold b : chain_named b ->
  names_ok b /\ named_ok b /\ match base_btf b with Some base => chain_named base | None => True end.
Proof. by destruct b. Qed.

Lemma chain_named_intro b :
  names_ok b -> named_ok b -> (forall base, base_btf b = Some base -> chain_named base) -> chain_named b.
Proof.
  intros Hn Hnamed Hb. destruct b as [? ? ? ? ? ? ? ? ? ? ? [base|] ? ? ? ? ? ? ? ? ?];
    (split; [done |]; split; [done |]); [by apply Hb | done].
Qed.

Lemma str_by_offset_base b base off :
  base_btf b = Some base -> off < start_str_off b ->
  btf__str_by_offset b off = btf__str_by_offset base off.
Proof.
  intros Hb Hlt. rewrite (btf__str_by_offset_eq b), Hb. by replace (off <? _) with true by lia.
Qed.

Lemma type_by_id_base b base id :
  base_btf b = Some base -> 0 < id < start_id b -> btf_type_by_id b id = btf_type_by_id base id.
Proof.
  intros Hb Hid. rewrite (btf_type_by_id_eq b), Hb.
  replace (id =? 0) with false by lia. by replace (id <? _) with true by lia.
Qed.

(** The string offsets of an object lie below those of the objects on top of it. *)
Lemma str_by_offset_range b off p :
  btf_ok b -> 0 <= off < 2 ^ 32 -> btf__str_by_offset b off = Some p ->
  off < start_str_off b + str_len (hdr b).
Proof.
  intros Hok Hoff. pose proof (btf_ok_unfold b Hok) as (_ & (Hz & _ & _ & Hr) & _).
  pose proof (zlen_nonneg (btf_strs_data b)). unfold INT_MAX in Hr.
  rewrite btf__str_by_offset_eq. case_if; [lia |]. rewrite u32_small by lia. case_if; [lia | done].
Qed.

Lemma type_by_id_name_off b id t :
  btf_ok b -> 0 <= id < start_id b + nr_types b -> btf_type_by_id b id = Some t -> 0 <= name_off t < 2 ^ 32.
Proof.
  revert id. induction b as [b IH] using btf_chain_ind. intros id Hok Hid Ht.
  pose proof (btf_ok_unfold b Hok) as ([cs Hcs] & _ & H1 & _ & Hbase).
  destruct (decide (id = 0)) as [->|Hne]; [rewrite btf_type_by_id_eq in Ht; by simplify_eq/= |].
  destruct (decide (id < start_id b)) as [Hlt|Hge].
  - destruct (base_btf b) as [base|] eqn:Hb; [|lia].
    destruct Hbase as (Hbok & Hsi & _). apply (IH base eq_refl id); [done | lia |].
    rewrite <- Ht. symmetry. apply type_by_id_base; [done | lia].
  - destruct (types_ok_lookup b cs id Hcs ltac:(lia) ltac:(lia)) as (c & t' & rest & Hc & Hat & _ & Hby).
    rewrite Hby in Ht. injection Ht as <-. cbn [name_off].
    pose proof (types_u32 _ _ Hcs) as Hu. rewrite (types_words _ _ Hcs) in Hu.
    assert (Hcu : Forall is_u32 c).
    { rewrite Forall_forall in *. intros x Hx. apply Hu, list_elem_of_join.
      exists c. split; [done |]. by eapply list_elem_of_lookup_2. }
    destruct c as [|n [|i [|s c]]]; try done. cbn in Hat. injection Hat as <-. cbn [name_off].
    inversion Hcu. done.
Qed.

(** A name found in the base is the name found from above. *)
Lemma name_of_id_base b base id s :
  btf_ok b -> base_btf b = Some base -> 0 < id < start_id b ->
  name_of_id base id = Some s ->
  exists t, btf_type_by_id base id = Some t /\ btf_type_by_id b id = Some t /\
    type_name base t = Some s /\ type_name b t = Some s.
Proof.
  intros Hok Hb Hid. pose proof (btf_ok_unfold b Hok) as (_ & _ & _ & _ & Hbase). rewrite Hb in Hbase.
  destruct Hbase as (Hbok & Hsi & Hso). unfold name_of_id. rewrite (type_by_id_base b base) by done.
  destruct (btf_type_by_id base id) as [t|] eqn:Ht; [|done]. cbn. intros Hs. exists t. split_and!; [done.. |].
  unfold type_name in *. destruct (btf__str_by_offset base (name_off t)) as [p|] eqn:Hp; [|done].
  pose proof (type_by_id_name_off base id t Hbok ltac:(lia) Ht) as Hno.
  pose proof (str_by_offset_range base _ _ Hbok Hno Hp).
  rewrite (str_by_offset_base b base) by (done || lia). by rewrite Hp.
Qed.

(** The names of all types of a chain of objects. *)
Lemma chain_name_of_id b id :
  btf_ok b -> chain_named b -> 0 < id < start_id b + nr_types b -> is_Some (name_of_id b id).
Proof.
  revert id. induction b as [b IH] using btf_chain_ind. intros id Hok Hch Hid.
  pose proof (chain_named_unfold b Hch) as (Hn & _ & Hbn).
  pose proof (btf_ok_unfold b Hok) as (_ & _ & H1 & _ & Hbase).
  destruct (decide (id < start_id b)) as [Hlt|Hge]; [|by apply Hn; lia].
  destruct (base_btf b) as [base|] eqn:Hb; [|lia]. destruct Hbase as (Hbok & Hsi & _).
  destruct (IH base eq_refl id Hbok Hbn ltac:(lia)) as [s Hs].
  destruct (name_of_id_base b base id s Hok Hb ltac:(lia) Hs) as (t & Ht & Ht' & _ & Hs').
  exists s. unfold name_of_id. rewrite Ht'. exact Hs'.
Qed.

Lemma id_matches_base b base name kind id :
  btf_ok b -> chain_named b -> base_btf b = Some base -> 0 < id < start_id b ->
  id_matches b name kind id <-> id_matches base name kind id.
Proof.
  intros Hok Hch Hb Hid. pose proof (btf_ok_unfold b Hok) as (_ & _ & _ & _ & Hbase). rewrite Hb in Hbase.
  pose proof (chain_named_unfold b Hch) as (_ & _ & Hbn). rewrite Hb in Hbn.
  destruct Hbase as (Hbok & Hsi & _).
  destruct (chain_name_of_id base id Hbok Hbn ltac:(lia)) as [s Hs].
  destruct (name_of_id_base b base id s Hok Hb Hid Hs) as (t & Ht & Ht' & Hn & Hn').
  unfold id_matches. rewrite Ht, Ht'.
  by split; intros (t' & ? & ? & ?); exists t'; simplify_eq; rewrite ?Hn, ?Hn' in *.
Qed.

(** Joining the matches of two adjacent ranges. *)
Lemma first_match_join b name kind lo mid hi r r' :
  0 <= lo <= mid -> mid <= hi -> first_match b name kind lo mid r -> first_match b name kind mid hi r' ->
  first_match b name kind lo hi (if 0 <=? r then r else r').
Proof.
  intros Hlo Hhi [(Hr & Hm & Hno)|(-> & Hno)] H'.
  { replace (0 <=? r) with true by lia. left. split_and!; (done || lia). }
  change (0 <=? - ENOENT) with false. cbv match. destruct H' as [(Hr' & Hm' & Hno')|(-> & Hno')]; [left | right]; split_and!; try (done || lia).
  all: intros j Hj; destruct (decide (j < mid)); [apply Hno; lia | apply Hno'; lia].
Qed.

(** ** The theorem *)

Lemma btf_find_by_name_kind_eq b start name kind :
  btf_find_by_name_kind b start name kind =
  let nr := btf__type_cnt b in
  let own start :=
    if (kind =? 0) || (strcmp name void_name =? 0) then Some 0 else
    if (0 <? named_start_id b) && negb (empty_str name) then
      let start := Z.max start (named_start_id b) in
      id ← btf_find_type_by_name_bsearch b name start;
      sorted_scan (Z.to_nat (nr - id)) b name kind id
    else linear_scan (Z.to_nat (nr - start)) b name kind start in
  if start <? start_id b then
    match base_btf b with
    | None => None
    | Some base =>
        id ← btf_find_by_name_kind base start name kind;
        if 0 <=? id then Some id else own (start_id b)
    end
  else own start.
Proof. by destruct b. Qed.

Lemma first_match_base b base name kind lo hi r :
  btf_ok b -> chain_named b -> base_btf b = Some base -> 0 < lo -> hi <= start_id b ->
  first_match base name kind lo hi r -> first_match b name kind lo hi r.
Proof.
  intros Hok Hch Hb Hlo Hhi [(Hr & Hm & Hno)|(Hr & Hno)]; [left | right]; split_and!; try (done || lia).
  - apply (id_matches_base b base); (done || lia).
  - intros j Hj. rewrite (id_matches_base b base) by (done || lia). by apply Hno.
  - intros j Hj. rewrite (id_matches_base b base) by (done || lia). by apply Hno.
Qed.

(** C6: [btf_find_by_name_kind] always returns.  For the kind or the name of void it
    gives type 0; otherwise it gives the first type from [start] on, in the order of the
    identifiers through the base objects, that has the name and the kind (any kind if
    [kind] is negative), and [-ENOENT] exactly when there is none.  This holds for the
    scan of unsorted types and for the binary search of sorted ones. *)
Theorem btf_find_by_name_kind_spec b start name kind :
  btf_ok b -> chain_named b -> pos_str name -> 1 <= start ->
  exists r, btf_find_by_name_kind b start name kind = Some r /\
    if (kind =? 0) || bool_decide (name = void_name) then r = 0
    else first_match b name kind start (Z.max start (start_id b + nr_types b)) r.
Proof.
  revert start. induction b as [b IH] using btf_chain_ind. intros start Hok Hch Hname Hst.
  pose proof (btf_ok_unfold b Hok) as ([cs Hcs] & _ & H1 & _ & Hbase).
  pose proof (types_count _ _ Hcs). pose proof (zlen_nonneg cs).
  pose proof (chain_named_unfold b Hch) as (Hn & Hnamed & Hbn).
  assert (Hvoid : (strcmp name void_name =? 0) = bool_decide (name = void_name)).
  { apply eq_bool_prop_intro. rewrite bool_decide_spec, Is_true_true, Z.eqb_eq. apply strcmp_eq_iff; [done |].
    repeat constructor. }
  rewrite btf_find_by_name_kind_eq. cbv zeta. rewrite Hvoid.
  destruct ((kind =? 0) || bool_decide (name = void_name)) eqn:Hv.
  - destruct (start <? start_id b) eqn:Hlt; [|by eexists].
    destruct (base_btf b) as [base|]; [|lia]. destruct Hbase as (Hbok & _ & _).
    destruct (IH base eq_refl start Hbok Hbn Hname Hst) as (r & -> & ->). by exists 0.
  - bools. assert (Hkind : kind <> 0) by lia. destruct (start <? start_id b) eqn:Hlt.
    + destruct (base_btf b) as [base|] eqn:Hb; [|lia]. destruct Hbase as (Hbok & Hsi & _).
      destruct (IH base eq_refl start Hbok Hbn Hname Hst) as (r & -> & Hr). cbn [mbind option_bind].
      destruct (find_own_spec b name kind (start_id b) Hok Hn Hnamed Hname Hkind) as (r' & Hr' & Hf); [lia |].
      rewrite Hr'. exists (if 0 <=? r then r else r'). split; [by case_if |].
      rewrite !Z.max_r in * by lia. apply (first_match_join _ _ _ _ (start_id b)); try (done || lia).
      apply (first_match_base b base); try (done || lia). by rewrite Hsi.
    + destruct (find_own_spec b name kind start Hok Hn Hnamed Hname Hkind) as (r & -> & Hf); [lia |].
      exists r. split; [done |]. destruct Hf as [(Hr & Hm & Hno)|(-> & Hno)]; [left | right].
      * split_and!; (done || lia).
      * split; [done |]. intros j Hj. apply Hno. lia.
Qed.

(** ** A concrete chain of two objects *)

(** The forward declarations [a] and [b], sorted, and on top of them [ab]. *)
Definition demo_base : btf :=
  Btf (BtfHeader BTF_MAGIC BTF_VERSION 0 24 0 24 24 5 0 0) None None 0 false
    [1; 117440512; 0; 3; 117440512; 0] 24 [0; 12] 2 2 1 None 1 0
    (Some [0; 97; 0; 98; 0]) None false false false None 0.

Definition demo_btf : btf :=
  Btf (BtfHeader BTF_MAGIC BTF_VERSION 0 24 0 12 12 4 0 0) None None 0 false
    [6; 117440512; 0] 12 [0] 1 1 0 (Some demo_base) 3 5
    (Some [0; 97; 98; 0]) None false false false None 0.

Lemma demo_base_ok : btf_ok demo_base.
Proof.
  apply (btf_ok_intro _ [[1; 117440512; 0]; [3; 117440512; 0]]); [| | done.. ].
  - split; try reflexivity; try exact I; [|repeat constructor; cbv; congruence].
    repeat constructor; eexists; split; reflexivity.
  - split_and!; try reflexivity; try (cbv; congruence); [by right |]. by apply bytes_check.
Qed.

Lemma demo_btf_ok : btf_ok demo_btf.
Proof.
  apply (btf_ok_intro _ [[6; 117440512; 0]]); [| | done.. | split; [apply demo_base_ok | done]].
  - split; try reflexivity; try exact I; [|repeat constructor; cbv; congruence].
    repeat constructor; eexists; split; reflexivity.
  - split_and!; try reflexivity; try (cbv; congruence); [by right |]. by apply bytes_check.
Qed.

Lemma demo_btf_named : chain_named demo_btf.
Proof.
  split; [|split; [by left |]]; [|split; [|split; [|done]]].
  - intros id Hid. cbn in Hid. assert (id = 3) as -> by lia. by eexists.
  - intros id Hid. cbn in Hid. assert (id = 1 \/ id = 2) as [-> | ->] by lia; by eexists.
  - right. split; cbn [start_id nr_types demo_base named_start_id].
    + intros id na nb Hid. assert (id = 2) as -> by lia. vm_compute. intros [= <-] [= <-]. done.
    + lia.
Qed.

(** In the chain, [b] is type 2, found by the binary search of the base, and [ab] is
    type 3, found by the scan of the object on top. *)
Lemma btf_find_by_name_kind_spec_witness :
  (exists r, btf_find_by_name_kind demo_btf 1 [98] 7 = Some r /\
     first_match demo_btf [98] 7 1 4 r) /\
  btf_find_by_name_kind demo_btf 1 [98] 7 = Some 2 /\
  btf_find_by_name_kind demo_btf 1 [97; 98] (-1) = Some 3 /\
  btf_find_by_name_kind demo_btf 1 [99] (-1) = Some (- ENOENT).
Proof.
  split; [|by vm_compute].
  destruct (btf_find_by_name_kind_spec demo_btf 1 [98] 7 demo_btf_ok demo_btf_named)
    as (r & Hr & Hm); [by repeat constructor | done |].
  exists r. split; [exact Hr | exact Hm].
Defined.
