(* ===== verification/BtfParse.v ===== *)
(** * BtfParse: reading and writing the BTF format ([src/src/btf.c])

    [btf_new] with its steps: the header, the string, layout and type sections, the
    sanity check and the test for sorted names; and [btf_get_raw_data], which writes
    an object out in either byte order.  The host is little endian.  Raw data is a
    list of bytes; an error is [Err], and [None] is a read outside the data. *)
From S2P Require Import Prelude Hashmap Mem Strset BtfTypes Btf BtfFind.
Open Scope Z_scope.
Open Scope res_scope.

(** ** Words and bytes *)
Fixpoint words_of (l : list Z) : list Z :=
  match l with
  | a :: b :: c :: d :: l => le_combine [a; b; c; d] :: words_of l
  | _ => []
  end.

Definition bytes_of (ws : list Z) : list Z := mjoin (le_split 4 <$> ws).

(** ** Setters *)
Definition set_hdr (b : btf) (h : btf_header) : btf :=
  Btf h (raw_data b) (raw_data_swapped b) (raw_size b) (swapped_endian b) (types_data b)
    (types_data_cap b) (type_offs b) (type_offs_cap b) (nr_types b) (named_start_id b) (base_btf b)
    (start_id b) (start_str_off b) (strs_data b) (strs_set b) (strs_deduped b) (modifiable b)
    (has_hdr_extra b) (layout b) (ptr_sz b).

Definition set_raw (b : btf) (raw : option (list Z)) : btf :=
  Btf (hdr b) raw (raw_data_swapped b) (raw_size b) (swapped_endian b) (types_data b)
    (types_data_cap b) (type_offs b) (type_offs_cap b) (nr_types b) (named_start_id b) (base_btf b)
    (start_id b) (start_str_off b) (strs_data b) (strs_set b) (strs_deduped b) (modifiable b)
    (has_hdr_extra b) (layout b) (ptr_sz b).

Definition set_swapped (b : btf) (s : bool) : btf :=
  Btf (hdr b) (raw_data b) (raw_data_swapped b) (raw_size b) s (types_data b)
    (types_data_cap b) (type_offs b) (type_offs_cap b) (nr_types b) (named_start_id b) (base_btf b)
    (start_id b) (start_str_off b) (strs_data b) (strs_set b) (strs_deduped b) (modifiable b)
    (has_hdr_extra b) (layout b) (ptr_sz b).

Definition set_extra (b : btf) (e : bool) : btf :=
  Btf (hdr b) (raw_data b) (raw_data_swapped b) (raw_size b) (swapped_endian b) (types_data b)
    (types_data_cap b) (type_offs b) (type_offs_cap b) (nr_types b) (named_start_id b) (base_btf b)
    (start_id b) (start_str_off b) (strs_data b) (strs_set b) (strs_deduped b) (modifiable b)
    e (layout b) (ptr_sz b).

Definition set_strs_data (b : btf) (d : option (list Z)) : btf :=
  Btf (hdr b) (raw_data b) (raw_data_swapped b) (raw_size b) (swapped_endian b) (types_data b)
    (types_data_cap b) (type_offs b) (type_offs_cap b) (nr_types b) (named_start_id b) (base_btf b)
    (start_id b) (start_str_off b) d (strs_set b) (strs_deduped b) (modifiable b)
    (has_hdr_extra b) (layout b) (ptr_sz b).

Definition set_layout (b : btf) (l : option (list btf_layout)) : btf :=
  Btf (hdr b) (raw_data b) (raw_data_swapped b) (raw_size b) (swapped_endian b) (types_data b)
    (types_data_cap b) (type_offs b) (type_offs_cap b) (nr_types b) (named_start_id b) (base_btf b)
    (start_id b) (start_str_off b) (strs_data b) (strs_set b) (strs_deduped b) (modifiable b)
    (has_hdr_extra b) l (ptr_sz b).

(** The type data with its index. *)
Definition set_types (b : btf) (ws : list Z) (cap : Z) (offs : list Z) (ocap nr : Z) : btf :=
  Btf (hdr b) (raw_data b) (raw_data_swapped b) (raw_size b) (swapped_endian b) ws
    cap offs ocap nr (named_start_id b) (base_btf b)
    (start_id b) (start_str_off b) (strs_data b) (strs_set b) (strs_deduped b) (modifiable b)
    (has_hdr_extra b) (layout b) (ptr_sz b).

Definition set_named_start_id (b : btf) (n : Z) : btf :=
  Btf (hdr b) (raw_data b) (raw_data_swapped b) (raw_size b) (swapped_endian b) (types_data b)
    (types_data_cap b) (type_offs b) (type_offs_cap b) (nr_types b) n (base_btf b)
    (start_id b) (start_str_off b) (strs_data b) (strs_set b) (strs_deduped b) (modifiable b)
    (has_hdr_extra b) (layout b) (ptr_sz b).

(** ** The header *)
Definition zero_header : btf_header := BtfHeader 0 0 0 0 0 0 0 0 0 0.

(** The header that 32 bytes hold. *)
Definition header_of_bytes (l : list Z) : btf_header :=
  let field off n := le_combine (ztake n (zdrop off l)) in
  BtfHeader (field 0 2) (field 2 1) (field 3 1) (field 4 4) (field 8 4) (field 12 4) (field 16 4)
            (field 20 4) (field 24 4) (field 28 4).

Definition bytes_of_header (h : btf_header) : list Z :=
  le_split 2 (hdr_magic h) ++ le_split 1 (hdr_version h) ++ le_split 1 (hdr_flags h) ++
  le_split 4 (hdr_len h) ++ le_split 4 (type_off h) ++ le_split 4 (type_len h) ++
  le_split 4 (str_off h) ++ le_split 4 (str_len h) ++ le_split 4 (layout_off h) ++
  le_split 4 (layout_len h).

(** Reverses the [n] bytes at [off]. *)
Definition bswap_field (raw : list Z) (off n : Z) : list Z :=
  memcpy raw off (rev (ztake n (zdrop off raw))).

(** The callers have made sure that the header is there up to [str_len], and up to
    [layout_len] when [len] says so. *)
Definition btf_bswap_hdr (raw : list Z) (len : Z) : list Z :=
  let raw := bswap_field raw 0 2 in
  let raw := bswap_field raw 4 4 in
  let raw := bswap_field raw 8 4 in
  let raw := bswap_field raw 12 4 in
  let raw := bswap_field raw 16 4 in
  let raw := bswap_field raw 20 4 in
  if sizeof_btf_header <=? len then bswap_field (bswap_field raw 24 4) 28 4 else raw.

Definition btf_parse_hdr (b : btf) (raw : list Z) : option (result btf) :=
  if raw_size b <? 24 then Some (Err EINVAL) else
  len ← load raw 4 4;
  magic ← load raw 0 2;
  let swapped := magic =? bswap_16 BTF_MAGIC in
  let len := if swapped then bswap_32 len else len in
  if swapped && (len <? 24) then Some (Err ENOTSUP) else
  if negb swapped && negb (magic =? BTF_MAGIC) then Some (Err EINVAL) else
  if raw_size b <? len then Some (Err EINVAL) else
  let raw := if swapped then btf_bswap_hdr raw len else raw in
  let h := header_of_bytes (ztake (Z.min len sizeof_btf_header) raw ++
                            replicate (Z.to_nat (sizeof_btf_header - len)) 0) in
  let extra := existsb (fun x => negb (x =? 0)) (ztake (len - sizeof_btf_header) (zdrop sizeof_btf_header raw)) in
  let meta_left := u32 (raw_size b - len) in
  Some (
  guard? negb (meta_left <? str_off h + str_len h) else EINVAL in
  guard? negb (str_off h <? type_off h + type_len h) else EINVAL in
  guard? type_off h mod 4 =? 0 else EINVAL in
  guard? (layout_len h =? 0) || (layout_off h mod 4 =? 0) else EINVAL in
  guard? (layout_len h =? 0) || negb (layout_off h <? type_off h + type_len h) else EINVAL in
  guard? (layout_len h =? 0) ||
         negb ((str_off h <? layout_off h + layout_len h) || (str_off h <? layout_off h)) else EINVAL in
  Ok (set_extra (set_swapped (set_raw (set_hdr b h) (Some raw)) swapped) extra)).

(** ** The sections *)
Definition btf_parse_str_sec (b : btf) : option (result btf) :=
  start ← strs_data b;
  let len := str_len (hdr b) in
  let has_base := match base_btf b with Some _ => true | None => false end in
  if has_base && (len =? 0) then Some (Ok b) else
  if (len =? 0) || (BTF_MAX_STR_OFFSET <? len - 1) then Some (Err EINVAL) else
  last ← znth start (len - 1);
  if negb (last =? 0) then Some (Err EINVAL) else
  first ← znth start 0;
  if negb has_base && negb (first =? 0) then Some (Err EINVAL) else Some (Ok b).

(** The layout array that some bytes hold. *)
Fixpoint layouts_of_bytes (l : list Z) : list btf_layout :=
  match l with
  | a :: b :: c :: d :: l => BtfLayout a b (le_combine [c; d]) :: layouts_of_bytes l
  | _ => []
  end.

Definition bytes_of_layouts (l : list btf_layout) : list Z :=
  mjoin ((fun x => [info_sz x; elem_sz x] ++ le_split 2 (layout_flags x)) <$> l).

Definition bswap_layout (l : btf_layout) : btf_layout :=
  BtfLayout (info_sz l) (elem_sz l) (bswap_16 (layout_flags l)).

Definition btf_parse_layout_sec (b : btf) (raw : list Z) : option (result btf) :=
  let h := hdr b in
  if layout_len h =? 0 then Some (Ok b) else
  if negb (layout_len h mod 4 =? 0) then Some (Err EINVAL) else
  bytes ← slice raw (hdr_len h + layout_off h) (layout_len h);
  let l := layouts_of_bytes bytes in
  if swapped_endian b then
    let l := bswap_layout <$> l in
    Some (Ok (set_raw (set_layout b (Some l))
                (Some (memcpy raw (hdr_len h + layout_off h) (bytes_of_layouts l)))))
  else Some (Ok (set_layout b (Some l))).

(** [btf_add_type_offs_mem]: the capacity afterwards, or [None] without memory. *)
Definition btf_add_type_offs_mem (nr cap add_cnt : Z) (o : oracle) : option Z * oracle :=
  let r := libbpf_add_mem 0 [] cap 4 nr BTF_MAX_NR_TYPES add_cnt o in
  (match am_pos r with Some _ => Some (am_cap r) | None => None end, am_oracle r).

(** The loop of [btf_parse_type_sec]: [ws] are the words from [next_type] on, [left]
    the bytes up to [end_type] and [off] the offset of [next_type].  It gives the
    words in native order, the offsets of the types and the capacity of the index. *)
Fixpoint parse_type_loop (fuel : nat) (lay : option (list btf_layout)) (swapped : bool)
    (ws : list Z) (left off nr cap : Z) (o : oracle) :
  option (result (list Z * list Z * Z) * oracle) :=
  if 12 <=? left then
    match fuel with
    | O => None
    | S fuel =>
        t ← type_at ws;
        let t := if swapped then btf_bswap_type_base t else t in
        let type_size := btf_type_size lay t in
        if type_size <? 0 then Some (Err (- type_size), o) else
        if left <? type_size then Some (Err EINVAL, o) else
        '(err, t) ← (if swapped then btf_bswap_type_rest t else Some (0, t));
        if negb (err =? 0) then Some (Err EINVAL, o) else
        match btf_add_type_offs_mem nr cap 1 o with
        | (None, o) => Some (Err ENOMEM, o)
        | (Some cap, o) =>
            let ws := name_off t :: info t :: size_or_type t :: extra t in
            '(r, o) ← parse_type_loop fuel lay swapped (zdrop (type_size / 4) ws)
                        (left - type_size) (off + type_size) (nr + 1) cap o;
            Some (let? (rest, offs, cap) := r in
                  Ok (ztake (type_size / 4) ws ++ rest, off :: offs, cap), o)
        end
    end
  else if left =? 0 then Some (Ok (ws, [], cap), o) else Some (Err EINVAL, o).

Definition btf_parse_type_sec (b : btf) (raw : list Z) (o : oracle) : option (result btf * oracle) :=
  let h := hdr b in
  sec ← slice raw (hdr_len h + type_off h) (type_len h);
  '(r, o) ← parse_type_loop (S (Z.to_nat (type_len h))) (btf_layout_of b) (swapped_endian b)
              (words_of sec) (type_len h) 0 (nr_types b) (type_offs_cap b) o;
  Some (let? (ws, offs, cap) := r in
        let raw := if swapped_endian b then memcpy raw (hdr_len h + type_off h) (bytes_of ws) else raw in
        Ok (set_raw (set_types b ws (types_data_cap b) offs cap (zlen offs)) (Some raw)), o).

(** ** The sanity check *)
Definition btf_validate_str (b : btf) (str_off : Z) : Z :=
  match btf__str_by_offset b str_off with None => - EINVAL | Some _ => 0 end.

Definition btf_validate_id (b : btf) (id : Z) : Z :=
  match btf__type_by_id b id with None => - EINVAL | Some _ => 0 end.

(** [f i] for [i = 0 .. n-1], up to the first error. *)
Fixpoint for_each (n : nat) (i : Z) (f : Z -> option Z) : option Z :=
  match n with
  | O => Some 0
  | S n => err ← f i; if negb (err =? 0) then Some err else for_each n (i + 1) f
  end.

(** [err ?: next] *)
Definition err_or (err next : Z) : Z := if err =? 0 then next else err.

Definition btf_validate_type (b : btf) (t : btf_type) : option Z :=
  let n := Z.to_nat (btf_vlen t) in
  let err := btf_validate_str b (name_off t) in
  if negb (err =? 0) then Some err else
  match btf_kind t with
  | BTF_KIND_UNKN | BTF_KIND_INT | BTF_KIND_FWD | BTF_KIND_FLOAT => Some 0
  | BTF_KIND_PTR | BTF_KIND_TYPEDEF | BTF_KIND_VOLATILE | BTF_KIND_CONST | BTF_KIND_RESTRICT
  | BTF_KIND_VAR | BTF_KIND_DECL_TAG | BTF_KIND_TYPE_TAG => Some (btf_validate_id b (t_type t))
  | BTF_KIND_ARRAY =>
      a ← btf_array t;
      Some (err_or (btf_validate_id b (array_type a)) (btf_validate_id b (array_index_type a)))
  | BTF_KIND_STRUCT | BTF_KIND_UNION =>
      for_each n 0 (fun i => m ← btf_member t i;
        Some (err_or (btf_validate_str b (member_name_off m)) (btf_validate_id b (member_type m))))
  | BTF_KIND_ENUM =>
      for_each n 0 (fun i => m ← btf_enum t i; Some (btf_validate_str b (enum_name_off m)))
  | BTF_KIND_ENUM64 =>
      for_each n 0 (fun i => m ← btf_enum64 t i; Some (btf_validate_str b (enum64_name_off m)))
  | BTF_KIND_FUNC =>
      let err := btf_validate_id b (t_type t) in
      if negb (err =? 0) then Some err else
      ft ← btf__type_by_id b (t_type t);
      Some (if bool_decide (btf_kind ft = BTF_KIND_FUNC_PROTO) then 0 else - EINVAL)
  | BTF_KIND_FUNC_PROTO =>
      for_each n 0 (fun i => m ← btf_param t i;
        Some (err_or (btf_validate_str b (param_name_off m)) (btf_validate_id b (param_type m))))
  | BTF_KIND_DATASEC =>
      for_each n 0 (fun i => m ← btf_var_secinfo t i; Some (btf_validate_id b (vsi_type m)))
  | BTF_KIND_LOC_PARAM => Some 0
  | BTF_KIND_LOC_PROTO =>
      for_each n 0 (fun i => p ← btf_loc_proto_param t i; Some (btf_validate_id b p))
  | BTF_KIND_LOCSEC =>
      for_each n 0 (fun i => l ← btf_locsec_loc t i;
        Some (err_or (btf_validate_id b (loc_func l)) (btf_validate_id b (loc_loc_proto l))))
  | BTF_KIND_OTHER _ =>
      Some (if btf_type_size_unknown (btf_layout_of b) t <? 0 then - EINVAL else 0)
  end.

Definition btf_sanity_check (b : btf) : option Z :=
  for_each (Z.to_nat (btf__type_cnt b - start_id b)) (start_id b)
    (fun i => t ← btf_type_by_id b i; btf_validate_type b t).

(** ** Opening *)
Definition btf_fresh (base : option btf) (size : Z) : btf :=
  Btf zero_header None None size false [] 0 [] 0 0 0 base
    (match base with Some base => btf__type_cnt base | None => 1 end)
    (match base with Some base => s32 (str_len (hdr base) + start_str_off base) | None => 0 end)
    None None false false false None 0.

(** The data is copied, as for [is_mmap = false]; with [is_mmap] the object takes over the
    mapping it is given instead, without the second allocation. *)
Definition btf_new (data : list Z) (base : option btf) (o : oracle) : option (result btf * oracle) :=
  let '(ok, o) := alloc o in
  if negb ok then Some (Err ENOMEM, o) else
  let '(ok, o) := alloc o in
  if negb ok then Some (Err ENOMEM, o) else
  r ← btf_parse_hdr (btf_fresh base (zlen data)) data;
  match r with
  | Err e => Some (Err e, o)
  | Ok b =>
      raw ← raw_data b;
      let h := hdr b in
      strs ← slice raw (hdr_len h + str_off h) (str_len h);
      let b := set_strs_data b (Some strs) in
      r ← btf_parse_str_sec b;
      match r with
      | Err e => Some (Err e, o)
      | Ok b =>
          r ← btf_parse_layout_sec b raw;
          match r with
          | Err e => Some (Err e, o)
          | Ok b =>
              raw ← raw_data b;
              '(r, o) ← btf_parse_type_sec b raw o;
              match r with
              | Err e => Some (Err e, o)
              | Ok b =>
                  err ← btf_sanity_check b;
                  if negb (err =? 0) then Some (Err (- err), o) else
                  named ← btf_check_sorted b;
                  Some (Ok (set_named_start_id b named), o)
              end
          end
      end
  end.

(** ** The fields of a type as words *)
Definition type_word (t : btf_type) (off : Z) : option Z :=
  if off =? 0 then Some (name_off t) else
  if off =? 4 then Some (info t) else
  if off =? 8 then Some (size_or_type t) else znth (extra t) (off / 4 - 3).

(** The identifier fields that [btf_validate_type] looks at: all but the return type
    of a function prototype (and the unused word of a forward declaration). *)
Definition checked_ids (k : btf_kind_t) (vlen : Z) : list Z :=
  match k with
  | BTF_KIND_FWD => []
  | BTF_KIND_FUNC_PROTO => in_elems vlen 12 8 [4]
  | _ => id_fields k vlen
  end.

(** A type whose strings and checked references exist. *)
Record type_sane (b : btf) (t : btf_type) : Prop := {
  sane_name : is_Some (btf__str_by_offset b (name_off t));
  sane_strs : forall off, off ∈ str_fields (btf_kind t) (btf_vlen t) ->
    exists w, type_word t off = Some w /\ is_Some (btf__str_by_offset b w);
  sane_ids : forall off, off ∈ checked_ids (btf_kind t) (btf_vlen t) ->
    exists w, type_word t off = Some w /\ is_Some (btf__type_by_id b w);
  sane_func : btf_kind t = BTF_KIND_FUNC ->
    exists ft, btf__type_by_id b (t_type t) = Some ft /\ btf_kind ft = BTF_KIND_FUNC_PROTO
}.

(** ** Words *)
Lemma words_of_props l :
  Forall is_byte l -> zlen (words_of l) = zlen l / 4 /\ Forall is_u32 (words_of l).
Proof.
  revert l. fix IH 1. intros [|a [|b [|c [|d l]]]] Hb; try by (split; [done | constructor]).
  assert (Hl : Forall is_byte l) by (do 4 apply Forall_cons in Hb as [_ Hb]; done).
  destruct (IH l Hl) as [IH1 IH2]. cbn [words_of]. rewrite !zlen_cons. split; [lia |].
  constructor; [|done]. change (is_u32 (le_combine [a; b; c; d])).
  apply (le_combine_range [a; b; c; d]). apply (Forall_take _ 4) in Hb. exact Hb.
Qed.

Lemma type_size_cases lay t :
  layout_bytes lay ->
  btf_type_size lay t < 0 \/ (12 <= btf_type_size lay t /\ btf_type_size lay t mod 4 = 0).
Proof.
  intros Hl. destruct (decide (known_kind (btf_kind t))) as [Hk|Hk].
  - right. rewrite btf_type_size_known by done.
    pose proof (extra_words_nonneg (btf_kind t) (btf_vlen t) ltac:(pose proof (vlen_range t); lia)). lia.
  - replace (btf_type_size lay t) with (btf_type_size_unknown lay t)
      by (unfold btf_type_size; destruct (btf_kind t); (done || by destruct Hk)).
    destruct (btf_type_size_unknown_mod lay t) as [?|[?|(l & -> & He)]]; [tauto..|].
    exfalso. apply Exists_exists in He as (lk & Hin & Hn). eapply Forall_forall in Hl; [|exact Hin]. tauto.
Qed.

(** The size depends on the header word only. *)
Lemma btf_type_size_info lay t t' : info t = info t' -> btf_type_size lay t = btf_type_size lay t'.
Proof.
  destruct t, t'. cbn. intros ->. reflexivity.
Qed.

(** ** The type section *)
Lemma type_ok_take lay t n :
  3 <= n <= 3 + zlen (extra t) -> btf_type_size lay t = 4 * n ->
  type_ok lay (ztake n (name_off t :: info t :: size_or_type t :: extra t)) /\
  zlen (ztake n (name_off t :: info t :: size_or_type t :: extra t)) = n.
Proof.
  intros Hn Hs. assert (Hz : zlen (ztake n (name_off t :: info t :: size_or_type t :: extra t)) = n).
  { apply zlen_ztake. rewrite !zlen_cons. lia. }
  split; [|done]. unfold type_ok. rewrite Hz. unfold ztake.
  replace (Z.to_nat n) with (S (S (S (Z.to_nat (n - 3))))) by lia. cbn [take type_at].
  eexists. split; [done |]. rewrite <- Hs. by apply btf_type_size_info.
Qed.

(** The error cases, about which nothing is promised but a result. *)
Ltac err_case := solve [do 2 eexists; split; [reflexivity | exact I] | eexists; split; [reflexivity | exact I]].

Lemma parse_type_loop_spec fuel lay sw ws left off nr cap o :
  layout_bytes lay -> zlen ws = left / 4 -> Forall is_u32 ws -> 0 <= left < Z.of_nat fuel ->
  exists r o', parse_type_loop fuel lay sw ws left off nr cap o = Some (r, o') /\
    match r with
    | Err _ => True
    | Ok (ws', offs, _) => exists cs, ws' = mjoin cs /\ offs = offsets off cs /\
        Forall (type_ok lay) cs /\ 4 * zlen ws' = left /\ Forall is_u32 ws' /\ (sw = false -> ws' = ws)
    end.
Proof.
  intros Hlay. revert ws left off nr cap o.
  induction fuel as [|fuel IH]; intros ws left off nr cap o Hz Hu Hl; [lia |]. cbn [parse_type_loop].
  destruct (12 <=? left) eqn:H12.
  2: { case_if; [|err_case]. do 2 eexists. split; [done |]. exists [].
       assert (ws = []) as -> by (destruct ws; [done |]; rewrite zlen_cons in Hz; pose proof (zlen_nonneg ws); lia).
       split_and!; try done. cbn. lia. }
  destruct ws as [|n [|i [|s ex]]]; try by (rewrite ?zlen_cons, ?zlen_nil in Hz; lia).
  cbn [type_at mbind option_bind]. rewrite !zlen_cons in Hz.
  set (t := if sw then btf_bswap_type_base (BtfType n i s ex) else BtfType n i s ex).
  assert (Hex : extra t = ex) by (by unfold t; destruct sw).
  rewrite !Forall_cons in Hu. destruct Hu as (Hun & Hui & Hus & Hue).
  assert (Htu : is_u32 (name_off t) /\ is_u32 (info t) /\ is_u32 (size_or_type t)).
  { unfold t. destruct sw; [|done]. by split_and!; apply bswap_32_range. }
  destruct (type_size_cases lay t Hlay) as [Hneg|[Hge Hmod]]; [replace (_ <? 0) with true by lia; err_case |].
  replace (_ <? 0) with false by lia. case_if; [err_case |].
  assert (Hrest : (exists t', (if sw then btf_bswap_type_rest t else Some (0, t)) = Some (0, t') /\
      name_off t' = name_off t /\ info t' = info t /\ size_or_type t' = size_or_type t /\
      zlen (extra t') = zlen ex /\ Forall is_u32 (extra t') /\ (sw = false -> t' = t)) \/
    (if sw then btf_bswap_type_rest t else Some (0, t)) = Some (- EINVAL, t)).
  { destruct sw; [|left; exists t; rewrite Hex; by split_and!].
    destruct (decide (known_kind (btf_kind t))) as [Hk|Hk].
    - left. rewrite btf_bswap_type_rest_known; [|done|].
      + eexists. split; [done |]. cbn [name_off info size_or_type extra].
        split_and!; [reflexivity.. | | | discriminate].
        2: { rewrite Hex. apply Forall_app. split; [|by apply Forall_drop].
             apply Forall_fmap, Forall_forall. intros x _. apply bswap_32_range. }
        rewrite zlen_app. unfold zlen at 1. rewrite length_fmap. fold (zlen (ztake (extra_words (btf_kind t) (btf_vlen t)) (extra t))).
        rewrite <- zlen_app, ztake_zdrop. by rewrite Hex.
      + rewrite Hex. rewrite btf_type_size_known in * by done. lia.
    - right. unfold btf_bswap_type_rest. destruct (btf_kind t); (done || by destruct Hk). }
  destruct Hrest as [(t' & -> & Hn' & Hi' & Hs' & Hz' & Hu' & Hsame)|Hrest]; [|rewrite Hrest; cbn; err_case].
  cbn [mbind option_bind Z.eqb negb].
  destruct (btf_add_type_offs_mem nr cap 1 o) as [[cap'|] o']; [|err_case].
  set (k := btf_type_size lay t / 4). set (w := name_off t' :: info t' :: size_or_type t' :: extra t').
  assert (Hk : btf_type_size lay t = 4 * k) by (unfold k; lia).
  destruct (type_ok_take lay t' k) as [Hok Hzk]; [lia | by rewrite (btf_type_size_info lay t' t) |].
  fold w in Hok, Hzk. assert (Hw : zlen w = 3 + zlen ex) by (unfold w; rewrite !zlen_cons; lia).
  assert (Hd : zlen (zdrop k w) = (left - btf_type_size lay t) / 4).
  { unfold zdrop, zlen in *. rewrite length_drop. lia. }
  assert (Hwu : Forall is_u32 w) by (unfold w; rewrite Hn', Hi', Hs', !Forall_cons; tauto).
  destruct (IH (zdrop k w) (left - btf_type_size lay t) (off + btf_type_size lay t) (nr + 1) cap' o' Hd
    ltac:(by apply Forall_drop) ltac:(lia))
    as (r & o'' & -> & Hr). cbn [mbind option_bind]. do 2 eexists. split; [done |].
  destruct r as [[[rest offs] cap'']|e]; cbn [res_bind]; [|done].
  destruct Hr as (cs & -> & -> & Hall & Hlen & Hru & Hid). exists (ztake k w :: cs). split_and!.
  - done.
  - cbn [offsets]. by rewrite Hzk, <- Hk.
  - by constructor.
  - rewrite zlen_app, Hzk. lia.
  - apply Forall_app. split; [by apply Forall_take | done].
  - intros ->. specialize (Hsame eq_refl). rewrite Hid, ztake_zdrop by done. unfold w. rewrite Hsame.
    unfold t. done.
Qed.

(** ** The sanity check *)
Lemma for_each_spec n i f :
  (forall j, i <= j < i + Z.of_nat n -> is_Some (f j)) ->
  exists err, for_each n i f = Some err /\
    (err = 0 -> forall j, i <= j < i + Z.of_nat n -> f j = Some 0).
Proof.
  revert i. induction n as [|n IH]; intros i Hf; cbn [for_each].
  { exists 0. split; [done |]. intros _ j Hj. lia. }
  destruct (Hf i ltac:(lia)) as [e He]. rewrite He. cbn [mbind option_bind].
  destruct (e =? 0) eqn:Hz; cbn [negb].
  - destruct (IH (i + 1)) as (err & Herr & Hall); [intros; apply Hf; lia |].
    exists err. split; [done |]. intros H0 j Hj.
    destruct (decide (j = i)) as [->|]; [rewrite He; f_equal; lia | apply Hall; [done | lia]].
  - exists e. split; [done |]. lia.
Qed.

Lemma elem_of_in_elems off n base sz offs :
  off ∈ in_elems n base sz offs -> exists i o, 0 <= i < n /\ o ∈ offs /\ off = base + i * sz + o.
Proof.
  unfold in_elems. intros Hx. apply list_elem_of_join in Hx as (l & Hx & Hl).
  apply list_elem_of_fmap in Hl as (i & -> & Hi). apply list_elem_of_fmap in Hx as (o & -> & Ho).
  apply elem_of_seq in Hi. exists (Z.of_nat i), o. split_and!; [lia.. | done | done].
Qed.

Lemma validate_str_0 b off : btf_validate_str b off = 0 -> is_Some (btf__str_by_offset b off).
Proof. unfold btf_validate_str. destruct (btf__str_by_offset b off); [by eexists | done]. Qed.

Lemma validate_id_0 b id : btf_validate_id b id = 0 -> is_Some (btf__type_by_id b id).
Proof. unfold btf_validate_id. destruct (btf__type_by_id b id); [by eexists | done]. Qed.

Lemma err_or_0 a b : err_or a b = 0 -> a = 0 /\ b = 0.
Proof. unfold err_or. case_if; lia. Qed.

Lemma type_word_elem t i sz o :
  0 <= i -> 0 <= o -> sz mod 4 = 0 -> 0 <= sz -> o mod 4 = 0 ->
  type_word t (12 + i * sz + o) = znth (extra t) (sz / 4 * i + o / 4).
Proof.
  intros Hi Ho Hsz Hp Hm. unfold type_word. pose proof (Z.mul_nonneg_nonneg i sz ltac:(lia) ltac:(lia)).
  assert (He : i * sz = 4 * (sz / 4 * i)).
  { replace sz with (4 * (sz / 4)) at 1 by lia. ring. }
  replace (_ =? 0) with false by lia. replace (_ =? 4) with false by lia.
  replace (_ =? 8) with false by lia. f_equal. set (x := sz / 4 * i) in *. lia.
Qed.

(** The words of element [i] of two or three words. *)
Lemma words2 t i :
  0 <= i -> 2 * i + 2 <= zlen (extra t) ->
  exists a b, znth (extra t) (2 * i) = Some a /\ znth (extra t) (2 * i + 1) = Some b /\
    type_word t (12 + i * 8 + 0) = Some a /\ type_word t (12 + i * 8 + 4) = Some b.
Proof.
  intros Hi Hl. rewrite !type_word_elem by (done || lia).
  change (8 / 4) with 2. change (0 / 4) with 0. change (4 / 4) with 1. rewrite Z.add_0_r.
  destruct (znth_is_Some (extra t) (2 * i)) as [a Ha]; [lia |].
  destruct (znth_is_Some (extra t) (2 * i + 1)) as [b Hb]; [lia |]. by exists a, b.
Qed.

Lemma words3 t i :
  0 <= i -> 3 * i + 3 <= zlen (extra t) ->
  exists a b c, znth (extra t) (3 * i) = Some a /\ znth (extra t) (3 * i + 1) = Some b /\
    znth (extra t) (3 * i + 2) = Some c /\
    type_word t (12 + i * 12 + 0) = Some a /\ type_word t (12 + i * 12 + 4) = Some b.
Proof.
  intros Hi Hl. rewrite !type_word_elem by (done || lia).
  change (12 / 4) with 3. change (0 / 4) with 0. change (4 / 4) with 1. rewrite Z.add_0_r.
  destruct (znth_is_Some (extra t) (3 * i)) as [a Ha]; [lia |].
  destruct (znth_is_Some (extra t) (3 * i + 1)) as [b Hb]; [lia |].
  destruct (znth_is_Some (extra t) (3 * i + 2)) as [c Hc]; [lia |]. by exists a, b, c.
Qed.

(** A check over the elements of a type: it is defined, and when it passes, the
    check of every element does. *)
Lemma for_each_elems t f :
  (forall i, 0 <= i < btf_vlen t -> is_Some (f i)) ->
  exists err, for_each (Z.to_nat (btf_vlen t)) 0 f = Some err /\
    (err = 0 -> forall i, 0 <= i < btf_vlen t -> f i = Some 0).
Proof.
  intros Hf. pose proof (vlen_range t). destruct (for_each_spec (Z.to_nat (btf_vlen t)) 0 f) as (err & He & Hall).
  - intros j Hj. apply Hf. lia.
  - exists err. split; [done |]. intros H0 i Hi. apply Hall; [done | lia].
Qed.

(** Fields of the elements, from a check of each element. *)
Lemma in_elems_field t sz offs (P : Z -> Prop) :
  (forall i o, 0 <= i < btf_vlen t -> o ∈ offs ->
     exists w, type_word t (12 + i * sz + o) = Some w /\ P w) ->
  forall off, off ∈ in_elems (btf_vlen t) 12 sz offs -> exists w, type_word t off = Some w /\ P w.
Proof.
  intros H off Hoff. apply elem_of_in_elems in Hoff as (i & o & Hi & Ho & ->). by apply H.
Qed.

Section Validate.
Context (b : btf) (t : btf_type).

Definition good_str (w : Z) : Prop := is_Some (btf__str_by_offset b w).
Definition good_id (w : Z) : Prop := is_Some (btf__type_by_id b w).

(** A check of the elements with what it implies of their fields. *)
Lemma validate_elems sz (f : Z -> option Z) soffs ioffs :
  (forall i, 0 <= i < btf_vlen t -> exists err, f i = Some err /\
     (err = 0 ->
      (forall o, o ∈ soffs -> exists w, type_word t (12 + i * sz + o) = Some w /\ good_str w) /\
      (forall o, o ∈ ioffs -> exists w, type_word t (12 + i * sz + o) = Some w /\ good_id w))) ->
  exists err, for_each (Z.to_nat (btf_vlen t)) 0 f = Some err /\
    (err = 0 ->
     (forall off, off ∈ in_elems (btf_vlen t) 12 sz soffs ->
        exists w, type_word t off = Some w /\ good_str w) /\
     (forall off, off ∈ in_elems (btf_vlen t) 12 sz ioffs ->
        exists w, type_word t off = Some w /\ good_id w)).
Proof.
  intros Hf. destruct (for_each_elems t f) as (err & He & Hall).
  { intros i Hi. destruct (Hf i Hi) as (e & -> & _). by eexists. }
  exists err. split; [done |]. intros H0. specialize (Hall H0).
  split; apply in_elems_field; intros i o Hi Ho; destruct (Hf i Hi) as (e & He' & Hc);
    rewrite Hall in He' by done; simplify_eq; by apply (Hc eq_refl).
Qed.

Lemma validate_member i :
  3 * btf_vlen t <= zlen (extra t) -> 0 <= i < btf_vlen t ->
  exists err, (m ← btf_member t i;
    Some (err_or (btf_validate_str b (member_name_off m)) (btf_validate_id b (member_type m)))) = Some err /\
    (err = 0 ->
     (forall o, o ∈ [0] -> exists w, type_word t (12 + i * 12 + o) = Some w /\ good_str w) /\
     (forall o, o ∈ [4] -> exists w, type_word t (12 + i * 12 + o) = Some w /\ good_id w)).
Proof.
  intros Hl Hi. destruct (words3 t i) as (x & y & z & Hx & Hy & Hz & Hwx & Hwy); [lia.. |].
  unfold btf_member. rewrite Hx, Hy, Hz. cbn [mbind option_bind member_name_off member_type].
  eexists. split; [done |]. intros [H1 H2]%err_or_0.
  split; intros o ->%list_elem_of_singleton; eexists; (split; [done |]);
    [by apply validate_str_0 | by apply validate_id_0].
Qed.

Lemma validate_param i :
  2 * btf_vlen t <= zlen (extra t) -> 0 <= i < btf_vlen t ->
  exists err, (m ← btf_param t i;
    Some (err_or (btf_validate_str b (param_name_off m)) (btf_validate_id b (param_type m)))) = Some err /\
    (err = 0 ->
     (forall o, o ∈ [0] -> exists w, type_word t (12 + i * 8 + o) = Some w /\ good_str w) /\
     (forall o, o ∈ [4] -> exists w, type_word t (12 + i * 8 + o) = Some w /\ good_id w)).
Proof.
  intros Hl Hi. destruct (words2 t i) as (x & y & Hx & Hy & Hwx & Hwy); [lia.. |].
  unfold btf_param. rewrite Hx, Hy. cbn [mbind option_bind param_name_off param_type].
  eexists. split; [done |]. intros [H1 H2]%err_or_0.
  split; intros o ->%list_elem_of_singleton; eexists; (split; [done |]);
    [by apply validate_str_0 | by apply validate_id_0].
Qed.

Lemma validate_enum i :
  2 * btf_vlen t <= zlen (extra t) -> 0 <= i < btf_vlen t ->
  exists err, (m ← btf_enum t i; Some (btf_validate_str b (enum_name_off m))) = Some err /\
    (err = 0 ->
     (forall o, o ∈ [0] -> exists w, type_word t (12 + i * 8 + o) = Some w /\ good_str w) /\
     (forall o, o ∈ [] -> exists w, type_word t (12 + i * 8 + o) = Some w /\ good_id w)).
Proof.
  intros Hl Hi. destruct (words2 t i) as (x & y & Hx & Hy & Hwx & Hwy); [lia.. |].
  unfold btf_enum. rewrite Hx, Hy. cbn [mbind option_bind enum_name_off].
  eexists. split; [done |]. intros H1. split; [|by intros o ?%not_elem_of_nil].
  intros o ->%list_elem_of_singleton; eexists; (split; [done |]). by apply validate_str_0.
Qed.

Lemma validate_enum64 i :
  3 * btf_vlen t <= zlen (extra t) -> 0 <= i < btf_vlen t ->
  exists err, (m ← btf_enum64 t i; Some (btf_validate_str b (enum64_name_off m))) = Some err /\
    (err = 0 ->
     (forall o, o ∈ [0] -> exists w, type_word t (12 + i * 12 + o) = Some w /\ good_str w) /\
     (forall o, o ∈ [] -> exists w, type_word t (12 + i * 12 + o) = Some w /\ good_id w)).
Proof.
  intros Hl Hi. destruct (words3 t i) as (x & y & z & Hx & Hy & Hz & Hwx & Hwy); [lia.. |].
  unfold btf_enum64. rewrite Hx, Hy, Hz. cbn [mbind option_bind enum64_name_off].
  eexists. split; [done |]. intros H1. split; [|by intros o ?%not_elem_of_nil].
  intros o ->%list_elem_of_singleton; eexists; (split; [done |]). by apply validate_str_0.
Qed.

Lemma validate_secinfo i :
  3 * btf_vlen t <= zlen (extra t) -> 0 <= i < btf_vlen t ->
  exists err, (m ← btf_var_secinfo t i; Some (btf_validate_id b (vsi_type m))) = Some err /\
    (err = 0 ->
     (forall o, o ∈ [] -> exists w, type_word t (12 + i * 12 + o) = Some w /\ good_str w) /\
     (forall o, o ∈ [0] -> exists w, type_word t (12 + i * 12 + o) = Some w /\ good_id w)).
Proof.
  intros Hl Hi. destruct (words3 t i) as (x & y & z & Hx & Hy & Hz & Hwx & Hwy); [lia.. |].
  unfold btf_var_secinfo. rewrite Hx, Hy, Hz. cbn [mbind option_bind vsi_type].
  eexists. split; [done |]. intros H1. split; [by intros o ?%not_elem_of_nil |].
  intros o ->%list_elem_of_singleton; eexists; (split; [done |]). by apply validate_id_0.
Qed.

Lemma validate_loc i :
  3 * btf_vlen t <= zlen (extra t) -> 0 <= i < btf_vlen t ->
  exists err, (l ← btf_locsec_loc t i;
    Some (err_or (btf_validate_id b (loc_func l)) (btf_validate_id b (loc_loc_proto l)))) = Some err /\
    (err = 0 ->
     (forall o, o ∈ [] -> exists w, type_word t (12 + i * 12 + o) = Some w /\ good_str w) /\
     (forall o, o ∈ [0; 4] -> exists w, type_word t (12 + i * 12 + o) = Some w /\ good_id w)).
Proof.
  intros Hl Hi. destruct (words3 t i) as (x & y & z & Hx & Hy & Hz & Hwx & Hwy); [lia.. |].
  unfold btf_locsec_loc. rewrite Hx, Hy, Hz. cbn [mbind option_bind loc_func loc_loc_proto].
  eexists. split; [done |]. intros [H1 H2]%err_or_0. split; [by intros o ?%not_elem_of_nil |].
  intros o [->| ->%list_elem_of_singleton]%elem_of_cons; eexists; (split; [done |]); by apply validate_id_0.
Qed.

Lemma validate_loc_proto i :
  btf_vlen t <= zlen (extra t) -> 0 <= i < btf_vlen t ->
  exists err, (p ← btf_loc_proto_param t i; Some (btf_validate_id b p)) = Some err /\
    (err = 0 ->
     (forall o, o ∈ [] -> exists w, type_word t (12 + i * 4 + o) = Some w /\ good_str w) /\
     (forall o, o ∈ [0] -> exists w, type_word t (12 + i * 4 + o) = Some w /\ good_id w)).
Proof.
  intros Hl Hi. destruct (znth_is_Some (extra t) i) as [x Hx]; [lia |].
  unfold btf_loc_proto_param. rewrite Hx. cbn [mbind option_bind]. eexists. split; [done |].
  intros H1. split; [by intros o ?%not_elem_of_nil |]. intros o ->%list_elem_of_singleton.
  exists x. rewrite type_word_elem by (done || lia). change (4 / 4) with 1. change (0 / 4) with 0.
  replace (1 * i + 0) with i by lia. split; [done | by apply validate_id_0].
Qed.
End Validate.

(** A type with only a name, or with a name and one reference. *)
Lemma sane_simple b t :
  good_str b (name_off t) ->
  (forall off, off ∈ str_fields (btf_kind t) (btf_vlen t) -> off = 0) ->
  (forall off, off ∈ checked_ids (btf_kind t) (btf_vlen t) -> off = 8 /\ good_id b (t_type t)) ->
  btf_kind t <> BTF_KIND_FUNC -> type_sane b t.
Proof.
  intros Hs Hstr Hid Hf. split; [done | | |done].
  - intros off ->%Hstr. by exists (name_off t).
  - intros off [-> Hg]%Hid. by exists (t_type t).
Qed.

(** A type whose checked fields are a name and fields of its elements. *)
Lemma sane_elems b t sz soffs ioffs :
  good_str b (name_off t) ->
  str_fields (btf_kind t) (btf_vlen t) = 0 :: in_elems (btf_vlen t) 12 sz soffs ->
  checked_ids (btf_kind t) (btf_vlen t) = in_elems (btf_vlen t) 12 sz ioffs ->
  btf_kind t <> BTF_KIND_FUNC ->
  (forall off, off ∈ in_elems (btf_vlen t) 12 sz soffs ->
     exists w, type_word t off = Some w /\ good_str b w) /\
  (forall off, off ∈ in_elems (btf_vlen t) 12 sz ioffs ->
     exists w, type_word t off = Some w /\ good_id b w) -> type_sane b t.
Proof.
  intros Hs Hstr Hid Hf [Hss Hii]. split; [done | | |done].
  - rewrite Hstr. intros off [->|Hoff]%elem_of_cons; [by exists (name_off t) | by apply Hss].
  - rewrite Hid. apply Hii.
Qed.

Lemma in_elems_no_offs n base sz : in_elems n base sz [] = [].
Proof.
  unfold in_elems. induction (seq 0 (Z.to_nat n)) as [|x l IH]; [done |]. exact IH.
Qed.

(** A type that fits is checked without reading past it, and a type that passes has
    existing strings and references. *)
Lemma btf_validate_type_spec b t :
  type_fits t ->
  exists err, btf_validate_type b t = Some err /\ (err = 0 -> type_sane b t).
Proof.
  intros Hf. unfold btf_validate_type.
  destruct (btf_validate_str b (name_off t) =? 0) eqn:Hs; cbn [negb].
  2: { eexists. split; [done |]. lia. }
  assert (Hname : good_str b (name_off t)) by (apply validate_str_0; lia).
  unfold type_fits in Hf. pose proof (vlen_range t) as Hv.
  (* the kinds whose elements are checked *)
  assert (Helems : forall sz f soffs ioffs,
    str_fields (btf_kind t) (btf_vlen t) = 0 :: in_elems (btf_vlen t) 12 sz soffs ->
    checked_ids (btf_kind t) (btf_vlen t) = in_elems (btf_vlen t) 12 sz ioffs ->
    btf_kind t <> BTF_KIND_FUNC ->
    (forall i, 0 <= i < btf_vlen t -> exists err, f i = Some err /\
     (err = 0 ->
      (forall o, o ∈ soffs -> exists w, type_word t (12 + i * sz + o) = Some w /\ good_str b w) /\
      (forall o, o ∈ ioffs -> exists w, type_word t (12 + i * sz + o) = Some w /\ good_id b w))) ->
    exists err, for_each (Z.to_nat (btf_vlen t)) 0 f = Some err /\ (err = 0 -> type_sane b t)).
  { intros sz f soffs ioffs H1 H2 H3 H4. destruct (validate_elems b t sz f soffs ioffs H4) as (err & He & Hc).
    exists err. split; [done |]. intros H0. eapply sane_elems; eauto. }
  destruct (btf_kind t) eqn:Hk; cbn [known_kind extra_words] in Hf; try specialize (Hf I);
    (* a name only, or a name and one reference *)
    try solve [eexists; split; [done |]; intros H0; apply sane_simple; rewrite ?Hk;
      [done | by intros off ?%list_elem_of_singleton || by intros off ?%not_elem_of_nil
      | first [by intros off ?%not_elem_of_nil
              |intros off ->%list_elem_of_singleton; split; [done | by apply validate_id_0]] | done]].
  - destruct (words3 t 0) as (x & y & z & Hx & Hy & Hz & Hwx & Hwy); [lia.. |].
    unfold btf_array. change (3 * 0) with 0 in Hx. change (3 * 0 + 1) with 1 in Hy.
    change (3 * 0 + 2) with 2 in Hz. rewrite Hx, Hy, Hz. cbn [mbind option_bind array_type array_index_type].
    eexists. split; [done |]. intros [H1 H2]%err_or_0. split; [done | rewrite Hk.. ]; [| |done].
    + intros off ->%list_elem_of_singleton. by exists (name_off t).
    + intros off [->| ->%list_elem_of_singleton]%elem_of_cons; eexists; (split; [done |]); by apply validate_id_0.
  - apply (Helems 12 _ [0] [4]); [done..|]. intros i Hi. by apply validate_member.
  - apply (Helems 12 _ [0] [4]); [done..|]. intros i Hi. by apply validate_member.
  - apply (Helems 8 _ [0] []); [done | by rewrite in_elems_no_offs | done |].
    intros i Hi. by apply validate_enum.
  - destruct (btf_validate_id b (t_type t) =? 0) eqn:Hid; cbn [negb]; [|eexists; split; [done | lia]].
    destruct (validate_id_0 b (t_type t)) as [ft Hft]; [lia |]. rewrite Hft. cbn [mbind option_bind].
    eexists. split; [done |]. case_bool_decide as Hfp; [|done]. intros _. split; [done | rewrite Hk.. ].
    + intros off ->%list_elem_of_singleton. by exists (name_off t).
    + intros off ->%list_elem_of_singleton. exists (t_type t). split; [done | by exists ft].
    + intros _. by exists ft.
  - apply (Helems 8 _ [0] [4]); [done..|]. intros i Hi. by apply validate_param.
  - apply (Helems 12 _ [] [0]); [by rewrite in_elems_no_offs | done | done |].
    intros i Hi. by apply validate_secinfo.
  - apply (Helems 12 _ [0] []); [done | by rewrite in_elems_no_offs | done |].
    intros i Hi. by apply validate_enum64.
  - apply (Helems 4 _ [] [0]); [by rewrite in_elems_no_offs | done | done |].
    intros i Hi. by apply validate_loc_proto.
  - apply (Helems 12 _ [] [0; 4]); [by rewrite in_elems_no_offs | done | done |].
    intros i Hi. by apply validate_loc.
Qed.

Lemma btf_sanity_check_spec b :
  btf_ok b ->
  exists err, btf_sanity_check b = Some err /\
    (err = 0 -> forall id, start_id b <= id < start_id b + nr_types b ->
       exists t, btf_type_by_id b id = Some t /\ type_fits t /\ type_sane b t).
Proof.
  intros Hok. pose proof (btf_ok_unfold b Hok) as ([cs Hcs] & _ & H1 & H2 & _).
  pose proof (types_count _ _ Hcs). pose proof (zlen_nonneg cs).
  unfold btf_sanity_check, btf__type_cnt. rewrite u32_small by lia.
  destruct (for_each_spec (Z.to_nat (start_id b + nr_types b - start_id b)) (start_id b)
    (fun i => t ← btf_type_by_id b i; btf_validate_type b t)) as (err & He & Hall).
  { intros j Hj. destruct (btf_type_by_id_total b j Hok ltac:(lia)) as (t & -> & Hf). cbn.
    destruct (btf_validate_type_spec b t Hf) as (e & -> & _). by eexists. }
  exists err. split; [done |]. intros Herr id Hid. specialize (Hall Herr id ltac:(lia)).
  destruct (btf_type_by_id_total b id Hok ltac:(lia)) as (t & Ht & Hf). exists t.
  rewrite Ht in Hall. cbn in Hall. destruct (btf_validate_type_spec b t Hf) as (e & He' & Hs).
  rewrite He' in Hall. simplify_eq. split_and!; [done..|]. by apply Hs.
Qed.

(** ** The header *)
Lemma bswap_field_props raw off n :
  Forall is_byte raw -> 0 <= off -> 0 <= n -> off + n <= zlen raw ->
  Forall is_byte (bswap_field raw off n) /\ zlen (bswap_field raw off n) = zlen raw /\
  (forall k m, k + m <= off \/ off + n <= k ->
     slice (bswap_field raw off n) k m = slice raw k m) /\
  (n = 4 -> load (bswap_field raw off 4) off 4 = bswap_32 <$> load raw off 4).
Proof.
  intros Hb Ho Hn Hl. unfold bswap_field. set (bs := ztake n (zdrop off raw)).
  assert (Hs : slice raw off n = Some bs).
  { unfold slice. by replace (_ && _ && _) with true by lia. }
  pose proof (slice_Some _ _ _ _ Hs) as (_ & _ & _ & Hz).
  pose proof (slice_Forall _ _ _ _ _ Hb Hs) as Hbb.
  assert (Hzr : zlen (rev bs) = n) by (unfold zlen in *; by rewrite length_rev).
  split_and!.
  - apply Forall_memcpy; [done | by apply Forall_rev].
  - apply zlen_memcpy; lia.
  - intros k m [Hk|Hk]; [apply slice_memcpy_before | apply slice_memcpy_after]; lia.
  - intros ->. unfold load. fold bs. pose proof (slice_memcpy_eq raw off (rev bs)) as He.
    rewrite Hzr in He. rewrite He, Hs by lia. cbn [fmap option_fmap option_map].
    f_equal. unfold bswap_32. f_equal. f_equal. rewrite <- (le_split_combine bs Hbb) at 1. f_equal.
    unfold zlen in Hz. lia.
Qed.

Lemma btf_bswap_hdr_props raw len :
  Forall is_byte raw -> 24 <= zlen raw -> len <= zlen raw ->
  Forall is_byte (btf_bswap_hdr raw len) /\ zlen (btf_bswap_hdr raw len) = zlen raw /\
  load (btf_bswap_hdr raw len) 4 4 = bswap_32 <$> load raw 4 4.
Proof.
  intros Hb H24 Hl. unfold btf_bswap_hdr, sizeof_btf_header.
  destruct (bswap_field_props raw 0 2 Hb) as (B0 & Z0 & S0 & _); [lia.. |].
  destruct (bswap_field_props _ 4 4 B0) as (B1 & Z1 & S1 & L1); [lia.. |].
  destruct (bswap_field_props _ 8 4 B1) as (B2 & Z2 & S2 & _); [lia.. |].
  destruct (bswap_field_props _ 12 4 B2) as (B3 & Z3 & S3 & _); [lia.. |].
  destruct (bswap_field_props _ 16 4 B3) as (B4 & Z4 & S4 & _); [lia.. |].
  destruct (bswap_field_props _ 20 4 B4) as (B5 & Z5 & S5 & _); [lia.. |].
  assert (L5 : slice (bswap_field (bswap_field (bswap_field (bswap_field (bswap_field (bswap_field raw
    0 2) 4 4) 8 4) 12 4) 16 4) 20 4) 4 4 = slice (bswap_field (bswap_field raw 0 2) 4 4) 4 4).
  { by rewrite S5, S4, S3, S2 by lia. }
  assert (L0 : load (bswap_field (bswap_field raw 0 2) 4 4) 4 4 = bswap_32 <$> load raw 4 4).
  { rewrite L1 by done. unfold load. by rewrite S0 by lia. }
  case_if.
  - destruct (bswap_field_props _ 24 4 B5) as (B6 & Z6 & S6 & _); [lia.. |].
    destruct (bswap_field_props _ 28 4 B6) as (B7 & Z7 & S7 & _); [lia.. |].
    split_and!; [done | lia |]. unfold load at 1. rewrite S7, S6, L5 by lia. exact L0.
  - split_and!; [done | lia |]. unfold load at 1. rewrite L5. exact L0.
Qed.

Lemma le_combine_take_le l k n :
  Forall is_byte l -> 0 <= le_combine (take k l ++ replicate n 0) <= le_combine l.
Proof.
  intros Hb. revert k. induction Hb as [|x l Hx Hl IH]; intros k.
  - rewrite take_nil. cbn [app]. assert (le_combine (replicate n 0) = 0) as ->; [|cbn [le_combine]; lia].
    induction n as [|n IH]; cbn [replicate le_combine]; lia.
  - unfold is_byte in Hx. destruct k as [|k]; cbn [take app].
    + specialize (IH 0%nat). rewrite take_0 in IH. cbn [app le_combine] in *. lia.
    + specialize (IH k). cbn [le_combine]. lia.
Qed.

(** The padded header holds at most the value that the raw bytes hold. *)
Lemma header_len_le raw m k :
  Forall is_byte raw -> 0 <= m <= zlen raw -> 8 <= zlen raw ->
  0 <= le_combine (ztake 4 (zdrop 4 (ztake m raw ++ replicate k 0))) <=
  le_combine (ztake 4 (zdrop 4 raw)).
Proof.
  intros Hb Hm H8. assert (He : exists j n, ztake 4 (zdrop 4 (ztake m raw ++ replicate k 0)) =
    take j (ztake 4 (zdrop 4 raw)) ++ replicate n 0).
  { unfold ztake, zdrop, zlen in *. destruct (decide (4 <= m)).
    - exists (Nat.min 4 (Z.to_nat m - 4)), (Nat.min (4 - Nat.min 4 (Z.to_nat m - 4)) k).
      rewrite drop_app_le by (rewrite length_take; lia).
      assert (Hd : drop (Z.to_nat 4) (take (Z.to_nat m) raw) = take (Z.to_nat m - 4) (drop (Z.to_nat 4) raw)).
      { rewrite take_drop_commute. do 2 f_equal. lia. }
      rewrite Hd, take_app, take_replicate, !take_take, length_take, length_drop.
      f_equal; f_equal; lia.
    - exists O, (Nat.min 4 (k - (4 - Z.to_nat m))). rewrite take_0. cbn [app].
      rewrite drop_app_ge by (rewrite length_take; lia). rewrite drop_replicate, take_replicate.
      rewrite length_take. f_equal. lia. }
  destruct He as (j & n & ->). apply le_combine_take_le. unfold ztake, zdrop.
  by apply Forall_take, Forall_drop.
Qed.

Lemma field_range l off :
  Forall is_byte l -> 0 <= le_combine (ztake 4 (zdrop off l)) < 2 ^ 32.
Proof.
  intros Hb. assert (Hf : Forall is_byte (ztake 4 (zdrop off l))) by (by apply Forall_take, Forall_drop).
  pose proof (le_combine_range _ Hf) as Hr.
  assert (Hz : 0 <= zlen (ztake 4 (zdrop off l)) <= 4).
  { unfold ztake, zlen. rewrite length_take. lia. }
  pose proof (Z.pow_le_mono_r 256 _ 4 ltac:(lia) (proj2 Hz)). change (256 ^ 4) with (2 ^ 32) in *. lia.
Qed.

(** What the header checks establish: the sections lie in the data, in order. *)
Record header_ok (h : btf_header) (size : Z) : Prop := {
  hdr_len_range : 0 <= hdr_len h < 2 ^ 32;
  hdr_type_range : 0 <= type_off h /\ 0 <= type_len h;
  hdr_str_range : 0 <= str_off h /\ 0 <= str_len h;
  hdr_layout_range : 0 <= layout_off h /\ 0 <= layout_len h;
  hdr_fits : hdr_len h + str_off h + str_len h <= size;
  hdr_types_fit : type_off h + type_len h <= str_off h;
  hdr_layout_fits : layout_len h <> 0 ->
    type_off h + type_len h <= layout_off h /\ layout_off h + layout_len h <= str_off h
}.

Lemma btf_parse_hdr_spec b raw :
  Forall is_byte raw -> raw_size b = zlen raw -> zlen raw < 2 ^ 32 ->
  exists r, btf_parse_hdr b raw = Some r /\
    match r with
    | Err _ => True
    | Ok b' => exists h raw' sw ex, b' = set_extra (set_swapped (set_raw (set_hdr b h) (Some raw')) sw) ex /\
        header_ok h (zlen raw) /\ Forall is_byte raw' /\ zlen raw' = zlen raw /\
        (sw = false -> raw' = raw)
    end.
Proof.
  intros Hb Hsz Hlt. unfold btf_parse_hdr. rewrite Hsz. case_if; [err_case |].
  destruct (load_is_Some raw 4 4) as [len0 Hlen]; [lia.. |]. rewrite Hlen. cbn [mbind option_bind].
  destruct (load_is_Some raw 0 2) as [magic Hm]; [lia.. |]. rewrite Hm. cbn [mbind option_bind].
  set (sw := magic =? bswap_16 BTF_MAGIC). set (len := if sw then bswap_32 len0 else len0).
  assert (Hlr : 0 <= len < 2 ^ 32).
  { unfold len. destruct sw; [apply bswap_32_range |]. by apply (load_range _ _ _ _ Hb Hlen). }
  case_if; [err_case |]. case_if; [err_case |]. case_if; [err_case |].
  set (raw' := if sw then btf_bswap_hdr raw len else raw).
  assert (Hraw' : Forall is_byte raw' /\ zlen raw' = zlen raw /\ load raw' 4 4 = Some len).
  { unfold raw', len. destruct sw; [|done].
    destruct (btf_bswap_hdr_props raw (bswap_32 len0) Hb) as (H1 & H2 & H3); [lia | cbn in *; lia |].
    by rewrite H3, Hlen. }
  destruct Hraw' as (Hb' & Hz' & Hl'). unfold sizeof_btf_header.
  set (l := ztake (Z.min len 32) raw' ++ replicate (Z.to_nat (32 - len)) 0).
  assert (Hbl : Forall is_byte l).
  { unfold l. apply Forall_app. split; [by apply Forall_take |]. apply Forall_replicate. done. }
  set (h := header_of_bytes l).
  assert (Hhl : 0 <= hdr_len h <= len).
  { unfold h. cbn [header_of_bytes hdr_len].
    pose proof (header_len_le raw' (Z.min len 32) (Z.to_nat (32 - len)) Hb' ltac:(lia) ltac:(lia)) as Hle.
    fold l in Hle. enough (le_combine (ztake 4 (zdrop 4 raw')) = len) by lia.
    unfold load, slice in Hl'. replace (_ && _ && _) with true in Hl' by lia. by injection Hl'. }
  assert (Hr : (0 <= type_off h /\ 0 <= type_len h) /\ (0 <= str_off h /\ 0 <= str_len h) /\
    (0 <= layout_off h /\ 0 <= layout_len h)).
  { unfold h. cbn [header_of_bytes type_off type_len str_off str_len layout_off layout_len].
    pose proof (field_range l 8 Hbl). pose proof (field_range l 12 Hbl). pose proof (field_range l 16 Hbl).
    pose proof (field_range l 20 Hbl). pose proof (field_range l 24 Hbl). pose proof (field_range l 28 Hbl). lia. }
  clearbody h l. rewrite (u32_small (zlen raw - len)) by lia. eexists. split; [done |].
  repeat match goal with |- context [if ?c then _ else Err _] => destruct c eqn:?; [|done] end.
  bools. exists h, raw', sw, (existsb (fun x => negb (x =? 0)) (ztake (len - 32) (zdrop 32 raw'))).
  split_and!; [done | |done|done|by unfold raw'; intros ->].
  destruct Hr as (Hr1 & Hr2 & Hr3). split; try done; lia.
Qed.

(** ** The other sections *)
Lemma btf_parse_str_sec_spec b strs :
  strs_data b = Some strs -> zlen strs = str_len (hdr b) ->
  exists r, btf_parse_str_sec b = Some r /\
    match r with
    | Err _ => True
    | Ok b' => b' = b /\ (str_len (hdr b) = 0 \/ last strs = Some 0)
    end.
Proof.
  intros Hs Hz. unfold btf_parse_str_sec. rewrite Hs. cbn [mbind option_bind].
  pose proof (zlen_nonneg strs).
  case_if; [eexists; split; [reflexivity |]; split; [done | lia] |]. case_if; [err_case |]. bools.
  destruct (znth_is_Some strs (str_len (hdr b) - 1)) as [x Hx]; [lia |]. rewrite Hx. cbn [mbind option_bind].
  destruct (x =? 0) eqn:Hx0; cbn [negb]; [|err_case].
  destruct (znth_is_Some strs 0) as [y Hy]; [lia |]. rewrite Hy. cbn [mbind option_bind].
  case_if; [err_case |]. eexists. split; [reflexivity |]. split; [done |]. right.
  assert (x = 0) as -> by lia. unfold znth in Hx. case_if_in Hx; [done |].
  rewrite last_lookup, <- Hx. f_equal. unfold zlen in Hz. lia.
Qed.

Lemma layouts_of_bytes_range l : Forall is_byte l -> layout_bytes (Some (layouts_of_bytes l)).
Proof.
  revert l. fix IH 1. intros [|a [|b [|c [|d l]]]] Hb; try by constructor.
  cbn [layouts_of_bytes]. rewrite !Forall_cons in Hb. destruct Hb as (Ha & Hb & _ & _ & Hl).
  constructor; [done | by apply IH].
Qed.

Lemma bswap_layouts_range l :
  layout_bytes (Some l) -> layout_bytes (Some (bswap_layout <$> l)).
Proof. intros H. by apply Forall_fmap. Qed.

Lemma bytes_of_layouts_props l :
  layout_bytes (Some l) -> Forall is_byte (bytes_of_layouts l) /\ zlen (bytes_of_layouts l) = 4 * zlen l.
Proof.
  unfold bytes_of_layouts. induction 1 as [|x l (H1 & H2) Hl [IH1 IH2]]; [done |].
  rewrite fmap_cons, mjoin_cons. split.
  - apply Forall_app. split; [|done]. apply Forall_app. split; [|apply le_split_bytes].
    constructor; [done | by constructor].
  - rewrite !zlen_app, IH2, zlen_le_split, !zlen_cons, zlen_nil. lia.
Qed.

Lemma zlen_layouts_of_bytes l : zlen (layouts_of_bytes l) = zlen l / 4.
Proof.
  revert l. fix IH 1. intros [|a [|b [|c [|d l]]]]; try reflexivity.
  cbn [layouts_of_bytes]. rewrite !zlen_cons, (IH l). lia.
Qed.

Lemma btf_parse_layout_sec_spec b raw :
  header_ok (hdr b) (zlen raw) -> Forall is_byte raw -> raw_data b = Some raw ->
  exists r, btf_parse_layout_sec b raw = Some r /\
    match r with
    | Err _ => True
    | Ok b' => b' = b \/
        exists l raw', b' = set_raw (set_layout b (Some l)) (Some raw') /\ layout_bytes (Some l) /\
          Forall is_byte raw' /\ zlen raw' = zlen raw /\ (swapped_endian b = false -> raw' = raw)
    end.
Proof.
  intros Hh Hb Hraw. unfold btf_parse_layout_sec. destruct Hh.
  case_if; [eexists; split; [reflexivity | by left] |]. case_if; [err_case |].
  destruct (slice_is_Some raw (hdr_len (hdr b) + layout_off (hdr b)) (layout_len (hdr b))) as [bs Hbs]; [lia.. |].
  rewrite Hbs. cbn [mbind option_bind]. pose proof (slice_Forall _ _ _ _ _ Hb Hbs) as Hbb.
  pose proof (layouts_of_bytes_range bs Hbb) as Hl. pose proof (zlen_layouts_of_bytes bs) as Hzl.
  apply slice_Some in Hbs as (H1 & H2 & H3 & H4). case_if; eexists; (split; [reflexivity | right]).
  - apply bswap_layouts_range in Hl. destruct (bytes_of_layouts_props _ Hl) as [Hb1 Hb2].
    do 2 eexists. split; [reflexivity |]. split_and!; [done | by apply Forall_memcpy | | done].
    apply zlen_memcpy; [lia |]. rewrite Hb2. unfold zlen at 1. rewrite length_fmap.
    fold (zlen (layouts_of_bytes bs)). lia.
  - exists (layouts_of_bytes bs), raw. rewrite <- Hraw at 1. split; [by destruct b |]. done.
Qed.

Lemma bytes_of_props ws : Forall is_byte (bytes_of ws) /\ zlen (bytes_of ws) = 4 * zlen ws.
Proof.
  unfold bytes_of. induction ws as [|w ws [IH1 IH2]]; [done |].
  rewrite fmap_cons, mjoin_cons. split.
  - apply Forall_app. split; [apply le_split_bytes | done].
  - rewrite zlen_app, IH2, zlen_le_split, zlen_cons. lia.
Qed.

Lemma zlen_chunks lay cs : layout_bytes lay -> Forall (type_ok lay) cs -> 3 * zlen cs <= zlen (mjoin cs).
Proof.
  intros Hlay. induction 1 as [|c cs (t & Ht & Hs) Hcs IH]; [done |].
  rewrite mjoin_cons, zlen_cons, zlen_app.
  apply type_at_zlen in Ht. pose proof (zlen_nonneg (extra t)). lia.
Qed.

Lemma zlen_offsets off cs : zlen (offsets off cs) = zlen cs.
Proof.
  revert off. induction cs as [|c cs IH]; intros off; [done |]. cbn [offsets].
  by rewrite !zlen_cons, IH.
Qed.

Lemma btf_parse_type_sec_spec b raw o :
  header_ok (hdr b) (zlen raw) -> Forall is_byte raw -> layout_bytes (btf_layout_of b) ->
  exists r o', btf_parse_type_sec b raw o = Some (r, o') /\
    match r with
    | Err _ => True
    | Ok b' => exists ws cap offs ocap raw' cs,
        b' = set_raw (set_types b ws cap offs ocap (zlen offs)) (Some raw') /\ types_ok b' cs /\
        12 * zlen cs <= type_len (hdr b)
    end.
Proof.
  intros Hh Hb Hlay. unfold btf_parse_type_sec. destruct Hh.
  destruct (slice_is_Some raw (hdr_len (hdr b) + type_off (hdr b)) (type_len (hdr b))) as [sec Hsec]; [lia.. |].
  rewrite Hsec. cbn [mbind option_bind]. pose proof (slice_Forall _ _ _ _ _ Hb Hsec) as Hsb.
  destruct (words_of_props sec Hsb) as [Hwz Hwu]. apply slice_Some in Hsec as (_ & _ & _ & Hz).
  rewrite Hz in Hwz.
  destruct (parse_type_loop_spec (S (Z.to_nat (type_len (hdr b)))) (btf_layout_of b) (swapped_endian b)
    (words_of sec) (type_len (hdr b)) 0 (nr_types b) (type_offs_cap b) o Hlay Hwz Hwu)
    as (r & o' & -> & Hr); [lia |]. cbn [mbind option_bind]. do 2 eexists. split; [reflexivity |].
  destruct r as [[[ws offs] cap]|e]; cbn [res_bind]; [|exact I].
  destruct Hr as (cs & -> & -> & Hall & Hlen & Hru & _).
  eexists _, _, _, _, _, cs. split; [reflexivity |]. pose proof (zlen_chunks _ cs Hlay Hall).
  split; [|lia]. split; try done; cbn; rewrite ?zlen_offsets; lia.
Qed.

(** ** Opening *)

(** A base object that leaves room for the identifiers and string offsets of an
    object on top of it. *)
Definition base_room (base : option btf) : Prop :=
  match base with
  | None => True
  | Some base => btf_ok base /\ chain_named base /\ start_id base + nr_types base <= 2 ^ 31 /\
      start_str_off base + str_len (hdr base) <= INT_MAX
  end.

Lemma base_layout_bytes base : btf_ok base -> layout_bytes (layout base).
Proof.
  intros Hok. apply btf_ok_unfold in Hok as ([cs Hcs] & _). pose proof (types_layout _ _ Hcs) as Hl.
  unfold btf_layout_of in Hl. by destruct (layout base).
Qed.

(** The numbers an object on top of [base] starts with. *)
Lemma fresh_start base size :
  base_room base ->
  let b := btf_fresh base size in
  1 <= start_id b <= 2 ^ 31 /\ 0 <= start_str_off b <= INT_MAX /\
  match base with
  | None => start_id b = 1 /\ start_str_off b = 0
  | Some base => btf_ok base /\ start_id b = start_id base + nr_types base /\
      start_str_off b = start_str_off base + str_len (hdr base)
  end.
Proof.
  unfold base_room, btf_fresh, INT_MAX. cbn [start_id start_str_off]. destruct base as [base|]; [|lia].
  intros (Hok & _ & H1 & H2). pose proof (btf_ok_unfold _ Hok) as ([cs Hcs] & (Hz & _ & _ & Hr) & H3 & _).
  pose proof (types_count _ _ Hcs). pose proof (zlen_nonneg cs). pose proof (zlen_nonneg (btf_strs_data base)).
  unfold btf__type_cnt. rewrite u32_small, s32_small by lia. split_and!; (done || lia).
Qed.

Lemma name_of_id_set_named b n id : name_of_id (set_named_start_id b n) id = name_of_id b id.
Proof.
  unfold name_of_id, type_name. rewrite !(btf_type_by_id_eq (set_named_start_id b n)), !(btf_type_by_id_eq b).
  cbn [set_named_start_id start_id base_btf type_offs types_data].
  match goal with |- ?x ≫= _ = ?x ≫= _ => destruct x as [t|]; [|done] end.
  cbn [mbind option_bind]. by rewrite (btf__str_by_offset_eq (set_named_start_id b n)), (btf__str_by_offset_eq b).
Qed.

Lemma btf_type_by_id_set_named b n id : btf_type_by_id (set_named_start_id b n) id = btf_type_by_id b id.
Proof. by rewrite (btf_type_by_id_eq (set_named_start_id b n)), (btf_type_by_id_eq b). Qed.

Lemma btf__str_by_offset_set_named b n off :
  btf__str_by_offset (set_named_start_id b n) off = btf__str_by_offset b off.
Proof. by rewrite (btf__str_by_offset_eq (set_named_start_id b n)), (btf__str_by_offset_eq b). Qed.

Lemma btf__type_by_id_set_named b n id :
  btf__type_by_id (set_named_start_id b n) id = btf__type_by_id b id.
Proof. unfold btf__type_by_id. by rewrite btf_type_by_id_set_named. Qed.

Lemma type_sane_set_named b n t : type_sane b t -> type_sane (set_named_start_id b n) t.
Proof.
  intros [H1 H2 H3 H4]. split.
  - by rewrite btf__str_by_offset_set_named.
  - intros off Ho. setoid_rewrite btf__str_by_offset_set_named. by apply H2.
  - intros off Ho. setoid_rewrite btf__type_by_id_set_named. by apply H3.
  - rewrite btf__type_by_id_set_named. exact H4.
Qed.

Lemma btf_ok_set_named b n : btf_ok b -> btf_ok (set_named_start_id b n).
Proof.
  intros Hok. apply btf_ok_unfold in Hok as ([cs [H1 H2 H3 H4 H5 H6 H7]] & Hs & Hi & Hr & Hb).
  apply (btf_ok_intro _ cs); [by split | done..].
Qed.

(** Sane types have names, and so the test for sorted names runs on them. *)
Lemma sane_names_ok b :
  btf_ok b ->
  (forall id, start_id b <= id < start_id b + nr_types b ->
     exists t, btf_type_by_id b id = Some t /\ type_fits t /\ type_sane b t) -> names_ok b.
Proof.
  intros Hok Hs id Hid. destruct (Hs id Hid) as (t & Ht & _ & [[p Hp] _ _ _]).
  destruct (btf__str_by_offset_ok b _ _ Hok Hp) as (s & Hcs & _). exists s.
  unfold name_of_id, type_name. rewrite Ht. cbn [mbind option_bind]. by rewrite Hp.
Qed.

(** The last two steps of [btf_new] on an object with well-formed sections. *)
Lemma btf_new_checks b (o : oracle) :
  btf_ok b -> named_start_id b = 0 -> (forall base, base_btf b = Some base -> chain_named base) ->
  exists r,
    (err ← btf_sanity_check b;
     if negb (err =? 0) then Some (Err (- err), o) else
     named ← btf_check_sorted b;
     Some (Ok (set_named_start_id b named), o)) = Some (r, o) /\
    match r with
    | Err _ => True
    | Ok b' => btf_ok b' /\ chain_named b' /\ base_btf b' = base_btf b /\
        forall id, start_id b' <= id < start_id b' + nr_types b' ->
          exists t, btf_type_by_id b' id = Some t /\ type_fits t /\ type_sane b' t
    end.
Proof.
  intros Hok H0 Hbase. destruct (btf_sanity_check_spec b Hok) as (err & -> & Hsane). cbn [mbind option_bind].
  destruct (err =? 0) eqn:He; cbn [negb]; [|eexists; split; [reflexivity | exact I]].
  specialize (Hsane ltac:(lia)). pose proof (sane_names_ok b Hok Hsane) as Hn.
  destruct (btf_check_sorted_spec b Hok Hn H0) as (n & -> & Hsort). cbn [mbind option_bind].
  eexists. split; [reflexivity |]. split_and!; [by apply btf_ok_set_named | | done |].
  - apply chain_named_intro; [| |exact Hbase].
    + intros id Hid. rewrite name_of_id_set_named. by apply Hn.
    + unfold named_ok, sorted_from. setoid_rewrite name_of_id_set_named. exact Hsort.
  - intros id Hid. destruct (Hsane id Hid) as (t & Ht & Hf & Hs). exists t.
    rewrite btf_type_by_id_set_named. split_and!; [done..|]. by apply type_sane_set_named.
Qed.

(** C4: [btf_new] returns on every input of bytes, of any allocation outcome, and
    never reads outside them.  An object it returns is well formed, its types are
    complete, their strings and their checked references exist, a function refers to
    a prototype, and the names are in the order the binary search relies on. *)
Theorem btf_new_spec data base o :
  Forall is_byte data -> zlen data < 2 ^ 32 -> base_room base ->
  exists r o', btf_new data base o = Some (r, o') /\
    match r with
    | Err _ => True
    | Ok b => btf_ok b /\ chain_named b /\ base_btf b = base /\
        forall id, start_id b <= id < start_id b + nr_types b ->
          exists t, btf_type_by_id b id = Some t /\ type_fits t /\ type_sane b t
    end.
Proof.
  intros Hb Hlt Hroom. unfold btf_new.
  destruct (alloc o) as [[] o1]; cbn [negb]; [|err_case].
  destruct (alloc o1) as [[] o2]; cbn [negb]; [|err_case].
  destruct (btf_parse_hdr_spec (btf_fresh base (zlen data)) data Hb eq_refl Hlt) as (r & -> & Hr).
  cbn [mbind option_bind]. destruct r as [b|e]; [|err_case].
  destruct Hr as (h & raw & sw & ex & -> & Hh & Hbr & Hzr & _).
  cbn [set_extra set_swapped set_raw raw_data mbind option_bind hdr].
  destruct (slice_is_Some raw (hdr_len h + str_off h) (str_len h)) as [strs Hstrs]; [destruct Hh; lia.. |].
  cbn [set_hdr hdr]. rewrite Hstrs. cbn [mbind option_bind].
  match goal with |- context [btf_parse_str_sec ?x] => set (b1 := x) end.
  pose proof (slice_Forall _ _ _ _ _ Hbr Hstrs) as Hsb. apply slice_Some in Hstrs as (_ & _ & _ & Hsz).
  destruct (btf_parse_str_sec_spec b1 strs eq_refl Hsz) as (r & -> & Hr).
  cbn [mbind option_bind]. destruct r as [b|e]; [|err_case]. destruct Hr as [-> Hterm].
  assert (Hh1 : header_ok (hdr b1) (zlen raw)) by (by rewrite Hzr).
  destruct (btf_parse_layout_sec_spec b1 raw Hh1 Hbr eq_refl) as (r & -> & Hr).
  cbn [mbind option_bind]. destruct r as [b2|e]; [|err_case].
  assert (H2 : exists l raw2, b2 = set_raw (set_layout b1 l) (Some raw2) /\ layout_bytes l /\
    Forall is_byte raw2 /\ zlen raw2 = zlen raw).
  { destruct Hr as [->|(l & raw2 & -> & Hl & Hb2 & Hz2 & _)]; [by exists None, raw |]. by exists (Some l), raw2. }
  clear Hr. destruct H2 as (l & raw2 & -> & Hl & Hb2 & Hz2).
  cbn [set_raw set_layout raw_data mbind option_bind].
  pose proof (fresh_start base (zlen data) Hroom) as (Hsi & Hso & Hst).
  set (b2 := set_raw (set_layout b1 l) (Some raw2)).
  assert (Hlay : layout_bytes (btf_layout_of b2)).
  { unfold btf_layout_of, b2. cbn. destruct l as [l|]; [done |]. destruct base as [base|]; [|done].
    apply base_layout_bytes. apply Hst. }
  destruct (btf_parse_type_sec_spec b2 raw2 o2) as (r & o' & Hr2 & Hr); [by cbn; rewrite Hz2 | done | done |].
  change (Btf _ _ _ _ _ _ _ _ _ _ _ _ _ _ _ _ _ _ _ _ _) with b2. rewrite Hr2.
  cbn [mbind option_bind]. destruct r as [b3|e]; [|err_case].
  destruct Hr as (ws & cap & offs & ocap & raw3 & cs & Hb3 & Hcs & Hn).
  destruct (btf_new_checks b3 o') as (r & -> & Hr).
  - pose proof (types_count _ _ Hcs) as Hcnt. destruct Hh. subst b3.
    cbn [btf_fresh start_id start_str_off] in *.
    apply (btf_ok_intro _ cs Hcs); [split_and!; (done || apply Hso) | apply Hsi | | by destruct base].
    change (start_id _) with (start_id (btf_fresh base (zlen data))). rewrite Hcnt.
    cbn [btf_fresh start_id]. change (type_len _) with (type_len h) in Hn. lia.
  - by subst b3.
  - subst b3. intros base' Hbase. cbn in Hbase. subst base. apply Hroom.
  - do 2 eexists. split; [reflexivity |]. subst b3. exact Hr.
Qed.

(** A big-endian object with the type [int], without the layout fields in its header. *)
Definition demo_data : list Z :=
  [235; 159; 1; 0;  0; 0; 0; 24;  0; 0; 0; 0;  0; 0; 0; 16;  0; 0; 0; 16;  0; 0; 0; 5;
   0; 0; 0; 1;  1; 0; 0; 0;  0; 0; 0; 4;  0; 0; 0; 32;
   0; 105; 110; 116; 0].

(** It opens as a well-formed object with one type, and without memory it does not. *)
Lemma btf_new_spec_witness :
  (exists b, btf_new demo_data None [] = Some (Ok b, []) /\ btf_ok b /\ chain_named b /\
     types_data b = [1; 16777216; 4; 32] /\ named_start_id b = 0) /\
  btf_new demo_data None [false] = Some (Err ENOMEM, []).
Proof.
  split; [|reflexivity].
  destruct (btf_new_spec demo_data None []) as (r & o' & Hr & Hb);
    [by apply bytes_check | reflexivity | exact I |].
  assert (Hc : exists b, btf_new demo_data None [] = Some (Ok b, []) /\
    types_data b = [1; 16777216; 4; 32] /\ named_start_id b = 0).
  { vm_compute. eexists. split_and!; reflexivity. }
  destruct Hc as (b & Hc & Ht & Hn). rewrite Hc in Hr. injection Hr as <- <-.
  exists b. destruct Hb as (Hok & Hch & _). auto.
Defined.
