(* ===== verification/BtfRaw.v ===== *)
(** * BtfRaw: new objects and the raw data of an object ([src/src/btf.c])

    [btf_new_empty], the settings of an object (pointer size and byte order), and
    [btf_get_raw_data], which writes an object out in either byte order.  The main
    theorem is the round trip with [btf_new]: what is written for an object whose
    sections follow each other is read back as an object with the same contents. *)
From S2P Require Import Prelude Hashmap Mem Strset BtfTypes Btf BtfFind BtfParse.
Open Scope Z_scope.

(** ** New objects *)

(** [sizeof(layouts)] *)
Definition sizeof_layouts : Z := 4 * zlen layouts.

(** [btf_new_empty]; the options are [base] and [add_layout]. *)
Definition btf_new_empty (base : option btf) (add_layout : bool) (o : oracle) : result btf * oracle :=
  let '(ok, o) := alloc o in
  if negb ok then (Err ENOMEM, o) else
  let size := sizeof_btf_header + (match base with Some _ => 0 | None => 1 end) in
  let size := if add_layout then size + sizeof_layouts else size in
  let '(ok, o) := alloc o in
  if negb ok then (Err ENOMEM, o) else
  let str_len := match base with Some _ => 0 | None => 1 end in
  let hdr := BtfHeader BTF_MAGIC BTF_VERSION 0 sizeof_btf_header 0 0
               (if add_layout then sizeof_layouts else 0) str_len
               0 (if add_layout then sizeof_layouts else 0) in
  let raw := bytes_of_header hdr ++ (if add_layout then bytes_of_layouts layouts else []) ++
             replicate (Z.to_nat str_len) 0 in
  (Ok (Btf hdr (Some raw) None size
         (match base with Some base => swapped_endian base | None => false end)
         [] 0 [] 0 0 0 base
         (match base with Some base => btf__type_cnt base | None => 1 end)
         (match base with Some base => s32 (Btf.str_len (Btf.hdr base) + start_str_off base) | None => 0 end)
         (Some (replicate (Z.to_nat str_len) 0)) None false false false
         (if add_layout then Some layouts else None) 8), o).

Definition btf__new_empty (o : oracle) : result btf * oracle := btf_new_empty None false o.
Definition btf__new_empty_split (base : btf) (o : oracle) : result btf * oracle :=
  btf_new_empty (Some base) false o.

(** ** Settings *)
Definition set_ptr_sz (b : btf) (p : Z) : btf :=
  Btf (hdr b) (raw_data b) (raw_data_swapped b) (raw_size b) (swapped_endian b) (types_data b)
    (types_data_cap b) (type_offs b) (type_offs_cap b) (nr_types b) (named_start_id b) (base_btf b)
    (start_id b) (start_str_off b) (strs_data b) (strs_set b) (strs_deduped b) (modifiable b)
    (has_hdr_extra b) (layout b) p.

(** The cached raw data, its size and the byte order. *)
Definition set_cache (b : btf) (raw swapped : option (list Z)) (size : Z) (swap : bool) : btf :=
  Btf (hdr b) raw swapped size swap (types_data b)
    (types_data_cap b) (type_offs b) (type_offs_cap b) (nr_types b) (named_start_id b) (base_btf b)
    (start_id b) (start_str_off b) (strs_data b) (strs_set b) (strs_deduped b) (modifiable b)
    (has_hdr_extra b) (layout b) (ptr_sz b).

Definition btf__set_pointer_size (b : btf) (p : Z) : result btf :=
  if negb (p =? 4) && negb (p =? 8) then Err EINVAL else Ok (set_ptr_sz b p).

Inductive btf_endianness := BTF_LITTLE_ENDIAN | BTF_BIG_ENDIAN.

(** The host is little endian. *)
Definition is_host_big_endian : bool := false.

Definition btf__endianness (b : btf) : btf_endianness :=
  if is_host_big_endian
  then (if swapped_endian b then BTF_LITTLE_ENDIAN else BTF_BIG_ENDIAN)
  else (if swapped_endian b then BTF_BIG_ENDIAN else BTF_LITTLE_ENDIAN).

Definition btf__set_endianness (b : btf) (endian : btf_endianness) : btf :=
  let swap := negb (eqb is_host_big_endian (match endian with BTF_BIG_ENDIAN => true | _ => false end)) in
  set_cache b (raw_data b) (if swap then raw_data_swapped b else None) (raw_size b) swap.

(** ** Writing out *)

(** [memcpy(data + pos, bs, n)] within the block; [None] is a write outside it. *)
Definition store (data : list Z) (pos : Z) (bs : list Z) : option (list Z) :=
  if (0 <=? pos) && (pos + zlen bs <=? zlen data) then Some (memcpy data pos bs) else None.

Definition words_at (t : btf_type) : list Z := name_off t :: info t :: size_or_type t :: extra t.

(** The loop that swaps the types at the offsets [offs]; [None] inside is the jump to
    [err_out]. *)
Fixpoint swap_types_loop (ws : list Z) (offs : list Z) : option (option (list Z)) :=
  match offs with
  | [] => Some (Some ws)
  | off :: offs =>
      t ← type_at (zdrop (off / 4) ws);
      '(err, t) ← btf_bswap_type_rest t;
      if negb (err =? 0) then Some None else
      swap_types_loop (ztake (off / 4) ws ++ words_at (btf_bswap_type_base t)) offs
  end.

(** The result is the null pointer ([None] inside) or the data and its size. *)
Definition btf_get_raw_data (b : btf) (swap_endian : bool) (o : oracle) :
    option (option (list Z * Z) * oracle) :=
  match (if swap_endian then raw_data_swapped b else raw_data b) with
  | Some data => Some (Some (data, raw_size b), o)
  | None =>
      let h := hdr b in
      let data_sz := u32 (hdr_len h + type_len h + str_len h) in
      let data_sz := match layout b with Some _ => u32 (data_sz + layout_len h) | None => data_sz end in
      let '(ok, o) := alloc o in
      if negb ok then Some (None, o) else
      let data := replicate (Z.to_nat data_sz) 0 in
      data ← store data 0 (ztake (Z.min sizeof_btf_header (hdr_len h)) (bytes_of_header h));
      data ← (if swap_endian
              then if (data_sz <? 24) then None else Some (btf_bswap_hdr data (hdr_len h))
              else Some data);
      let p := hdr_len h in
      ws ← slice (types_data b) 0 (type_len h / 4);
      ws ← (if swap_endian then swap_types_loop ws (ztake (nr_types b) (type_offs b)) else Some (Some ws));
      match ws with
      | None => Some (None, o)
      | Some ws =>
          data ← store data p (bytes_of ws);
          let p := p + type_len h in
          '(data, p) ← match layout b with
                       | None => Some (data, p)
                       | Some l =>
                           bs ← slice (bytes_of_layouts (if swap_endian then bswap_layout <$> l else l))
                                  0 (layout_len h);
                           data ← store data p bs;
                           Some (data, p + layout_len h)
                       end;
          strs ← slice (btf_strs_data b) 0 (str_len h);
          data ← store data p strs;
          Some (Some (data, data_sz), o)
      end
  end.

Definition btf__raw_data (b : btf) (o : oracle) : option (option (list Z * Z) * btf * oracle) :=
  '(r, o) ← btf_get_raw_data b (swapped_endian b) o;
  match r with
  | None => Some (None, b, o)
  | Some (data, data_sz) =>
      let b := if swapped_endian b
               then set_cache b (raw_data b) (Some data) data_sz (swapped_endian b)
               else set_cache b (Some data) (raw_data_swapped b) data_sz (swapped_endian b) in
      Some (Some (data, data_sz), b, o)
  end.

(** ** Objects with the same contents *)
Record same_content (b b' : btf) : Prop := {
  same_hdr : hdr b' = hdr b;
  same_types : types_data b' = types_data b;
  same_offs : type_offs b' = type_offs b;
  same_nr : nr_types b' = nr_types b;
  same_base : base_btf b' = base_btf b;
  same_start : start_id b' = start_id b;
  same_str_off : start_str_off b' = start_str_off b;
  same_strs : btf_strs_data b' = btf_strs_data b;
  same_layout : layout b' = layout b
}.

Section Same.
Context (b b' : btf).
Hypothesis (Hs : same_content b b').

Lemma same_type_by_id id : btf_type_by_id b' id = btf_type_by_id b id.
Proof.
  destruct Hs. rewrite (btf_type_by_id_eq b'), (btf_type_by_id_eq b). by rewrite same_types0, same_offs0, same_base0, same_start0.
Qed.

Lemma same__type_by_id id : btf__type_by_id b' id = btf__type_by_id b id.
Proof.
  unfold btf__type_by_id. rewrite same_type_by_id. destruct Hs. by rewrite same_start0, same_nr0.
Qed.

Lemma same_str_by_offset off : btf__str_by_offset b' off = btf__str_by_offset b off.
Proof.
  destruct Hs. rewrite (btf__str_by_offset_eq b'), (btf__str_by_offset_eq b).
  by rewrite same_base0, same_str_off0, same_hdr0, same_strs0.
Qed.

Lemma same_layout_of : btf_layout_of b' = btf_layout_of b.
Proof. destruct Hs. unfold btf_layout_of. by rewrite same_layout0, same_base0. Qed.

Lemma for_each_ext n i f g : (forall j, f j = g j) -> for_each n i f = for_each n i g.
Proof.
  intros H. revert i. induction n as [|n IH]; intros i; cbn [for_each]; [done |].
  rewrite H. destruct (g i) as [e|]; [|done]. cbn [mbind option_bind]. by rewrite IH.
Qed.

Lemma same_validate t : btf_validate_type b' t = btf_validate_type b t.
Proof.
  assert (Hi : forall id, btf_validate_id b' id = btf_validate_id b id)
    by (intros; unfold btf_validate_id; by rewrite same__type_by_id).
  assert (Hst : forall off, btf_validate_str b' off = btf_validate_str b off)
    by (intros; unfold btf_validate_str; by rewrite same_str_by_offset).
  unfold btf_validate_type. rewrite Hst, same_layout_of. case_if; [done |].
  destruct (btf_kind t); try done; rewrite ?Hi, ?same__type_by_id; try done;
    try (apply for_each_ext; intros j);
    match goal with |- (?x ≫= _) = _ => destruct x as [?m|]; [|done] end;
    cbn [mbind option_bind]; by rewrite ?Hi, ?Hst.
Qed.

Lemma same_sanity : btf_sanity_check b' = btf_sanity_check b.
Proof.
  unfold btf_sanity_check, btf__type_cnt. destruct Hs as [_ _ _ Hn _ Hst _ _ _]. rewrite Hn, Hst.
  apply for_each_ext. intros j. rewrite same_type_by_id. destruct (btf_type_by_id b j) as [t|]; [|done].
  apply same_validate.
Qed.

Lemma same_btf_ok : btf_ok b -> btf_ok b'.
Proof.
  intros Hok. apply btf_ok_unfold in Hok as ([cs [H1 H2 H3 H4 H5 H6 H7]] & (S1 & S2 & S3 & S4) & Hi & Hr & Hb).
  pose proof same_layout_of as Hl. destruct Hs as [E1 E2 E3 E4 E5 E6 E7 E8 E9].
  apply (btf_ok_intro _ cs); rewrite ?E6, ?E4; try done.
  - split; rewrite ?Hl, ?E1, ?E2, ?E3, ?E4; done.
  - unfold strs_ok. by rewrite E1, E7, E8.
  - rewrite E5, E7. exact Hb.
Qed.
End Same.

(** ** Words, layouts and headers read back *)
Lemma words_of_bytes_of ws k : Forall is_u32 ws -> words_of (bytes_of ws ++ k) = ws ++ words_of k.
Proof.
  induction 1 as [|w ws Hw Hws IH]; [done |]. unfold bytes_of in *. rewrite fmap_cons, mjoin_cons.
  rewrite <- app_assoc. set (r := mjoin (le_split 4 <$> ws) ++ k) in *.
  change (words_of (le_split 4 w ++ r)) with (le_combine (le_split 4 w) :: words_of r).
  rewrite IH. cbn [app]. f_equal. by apply (le_combine_split 4 w).
Qed.

(** The flags of a layout take two bytes. *)
Definition layout_flags_ok (l : list btf_layout) : Prop := Forall (fun x => 0 <= layout_flags x < 2 ^ 16) l.

Lemma bswap_16_range w : 0 <= bswap_16 w < 2 ^ 16.
Proof.
  unfold bswap_16. change (2 ^ 16) with (256 ^ zlen (rev (le_split 2 w))).
  apply le_combine_range. apply Forall_rev, le_split_bytes.
Qed.

Lemma bswap_16_involutive w : 0 <= w < 2 ^ 16 -> bswap_16 (bswap_16 w) = w.
Proof.
  intros Hw. unfold bswap_16 at 1. unfold bswap_16.
  change 2%nat with (length (rev (le_split 2 w))) at 1.
  rewrite le_split_combine by apply Forall_rev, le_split_bytes.
  rewrite rev_involutive. by apply le_combine_split.
Qed.

Lemma layouts_of_bytes_of l : layout_flags_ok l -> layouts_of_bytes (bytes_of_layouts l) = l.
Proof.
  induction 1 as [|x l Hx Hl IH]; [done |]. unfold bytes_of_layouts in *. rewrite fmap_cons, mjoin_cons.
  set (r := mjoin _) in *. destruct x as [a b f]. cbn [info_sz elem_sz layout_flags] in *.
  change (layouts_of_bytes _) with (BtfLayout a b (le_combine (le_split 2 f)) :: layouts_of_bytes r).
  rewrite IH. do 2 f_equal. by apply (le_combine_split 2 f).
Qed.

Lemma bswap_layouts_involutive l : layout_flags_ok l -> bswap_layout <$> (bswap_layout <$> l) = l.
Proof.
  induction 1 as [|x l Hx Hl IH]; [done |]. rewrite !fmap_cons, IH. f_equal.
  destruct x as [a b f]. unfold bswap_layout. cbn [info_sz elem_sz layout_flags] in *. by rewrite bswap_16_involutive.
Qed.

Lemma bswap_layouts_flags l : layout_flags_ok (bswap_layout <$> l).
Proof. apply Forall_fmap, Forall_forall. intros x _. apply bswap_16_range. Qed.

(** The widths of the header fields. *)
Record header_wf (h : btf_header) : Prop := {
  wf_magic : hdr_magic h = BTF_MAGIC;
  wf_version : 0 <= hdr_version h < 256;
  wf_flags : 0 <= hdr_flags h < 256;
  wf_len : hdr_len h = 32 \/ hdr_len h = 24 /\ layout_off h = 0 /\ layout_len h = 0;
  wf_words : Forall is_u32 [type_off h; type_len h; str_off h; str_len h; layout_off h; layout_len h]
}.

Lemma header_of_bytes_of h : header_wf h -> header_of_bytes (bytes_of_header h) = h.
Proof.
  intros [Hm Hv Hf Hl Hw]. destruct h as [m v f l a b c d e g].
  cbn [hdr_magic hdr_version hdr_flags hdr_len type_off type_len str_off str_len layout_off layout_len] in *.
  rewrite !Forall_cons in Hw. unfold is_u32 in Hw. subst m.
  assert (0 <= l < 2 ^ 32) by lia.
  assert (E4 : forall x, 0 <= x < 2 ^ 32 -> le_combine (le_split 4 x) = x) by (intros; by apply le_combine_split).
  assert (E1 : forall x, 0 <= x < 256 -> le_combine (le_split 1 x) = x) by (intros; by apply le_combine_split).
  unfold header_of_bytes, bytes_of_header.
  cbn [hdr_magic hdr_version hdr_flags hdr_len type_off type_len str_off str_len layout_off layout_len].
  f_equal; [by apply (E1 v) | by apply (E1 f) | by apply (E4 l) | apply (E4 a)
    | apply (E4 b) | apply (E4 c) | apply (E4 d) | apply (E4 e) | apply (E4 g)]; tauto.
Qed.

(** ** The header reads back *)
Lemma slice_app_l l k off n : 0 <= n -> off + n <= zlen l -> slice (l ++ k) off n = slice l off n.
Proof.
  intros Hn Hl. unfold slice. rewrite zlen_app. pose proof (zlen_nonneg k).
  destruct (0 <=? off) eqn:H0; [|done].
  replace (off + n <=? zlen l) with true by lia. replace (off + n <=? zlen l + zlen k) with true by lia.
  destruct (_ && _); [|done]. f_equal. unfold ztake, zdrop, zlen in *.
  rewrite drop_app_le by lia. rewrite take_app_le; [done |]. rewrite length_drop. lia.
Qed.

Lemma slice_app_r l k off n : slice (l ++ k) (zlen l + off) n = if 0 <=? off then slice k off n else slice (l ++ k) (zlen l + off) n.
Proof.
  destruct (0 <=? off) eqn:H0; [|done]. unfold slice. rewrite zlen_app. pose proof (zlen_nonneg l).
  replace (0 <=? zlen l + off) with true by lia. rewrite H0.
  replace (zlen l + off + n <=? zlen l + zlen k) with (off + n <=? zlen k) by lia.
  destruct (_ && _); [|done]. f_equal. unfold ztake, zdrop, zlen in *. f_equal.
  rewrite drop_app_ge by lia. f_equal. lia.
Qed.

Lemma slice_all l : slice l 0 (zlen l) = Some l.
Proof.
  unfold slice. pose proof (zlen_nonneg l). replace (_ && _ && _) with true by lia. f_equal.
  apply ztake_all. done.
Qed.

(** Swapping a header of either length, whatever follows it, and swapping it back. *)
Definition swapped_hdr (l : list Z) (len : Z) : Prop :=
  exists l', zlen l' = len /\
    (forall k, btf_bswap_hdr (l ++ k) len = l' ++ k /\ btf_bswap_hdr (l' ++ k) len = l ++ k) /\
    ztake 2 l' = rev (ztake 2 l) /\ ztake 4 (zdrop 4 l') = rev (ztake 4 (zdrop 4 l)).

Lemma swapped_hdr_24 l : zlen l = 24 -> swapped_hdr l 24.
Proof.
  intros Hl. assert (H : length l = 24%nat) by (unfold zlen in Hl; lia). clear Hl.
  do 24 (destruct l as [|? l]; [discriminate |]). destruct l; [|discriminate].
  eexists (_ :: _ :: _ :: _ :: _ :: _ :: _ :: _ :: _ :: _ :: _ :: _ :: _ :: _ :: _ :: _ :: _ :: _ ::
    _ :: _ :: _ :: _ :: _ :: _ :: []). split; [done |]. split; [intros k; split; reflexivity |]. by split.
Qed.

Lemma swapped_hdr_32 l : zlen l = 32 -> swapped_hdr l 32.
Proof.
  intros Hl. assert (H : length l = 32%nat) by (unfold zlen in Hl; lia). clear Hl.
  do 32 (destruct l as [|? l]; [discriminate |]). destruct l; [|discriminate].
  eexists (_ :: _ :: _ :: _ :: _ :: _ :: _ :: _ :: _ :: _ :: _ :: _ :: _ :: _ :: _ :: _ :: _ :: _ ::
    _ :: _ :: _ :: _ :: _ :: _ :: _ :: _ :: _ :: _ :: _ :: _ :: _ :: _ :: []).
  split; [done |]. split; [intros k; split; reflexivity |]. by split.
Qed.

Definition hdr_bytes (h : btf_header) : list Z := ztake (hdr_len h) (bytes_of_header h).

Lemma zlen_hdr_bytes h : header_wf h -> zlen (hdr_bytes h) = hdr_len h.
Proof. unfold hdr_bytes. intros [_ _ _ [->|(-> & _)] _]; reflexivity. Qed.

(** The bytes of a header, padded as the parser pads them. *)
Lemma hdr_bytes_pad h :
  header_wf h ->
  hdr_bytes h ++ replicate (Z.to_nat (sizeof_btf_header - hdr_len h)) 0 = bytes_of_header h.
Proof.
  intros [_ _ _ Hl _]. unfold hdr_bytes. destruct h as [m v f l a b c d e g].
  cbn [hdr_len layout_off layout_len] in Hl. destruct Hl as [->|(-> & -> & ->)]; reflexivity.
Qed.

Lemma hdr_bytes_magic h : header_wf h -> ztake 2 (hdr_bytes h) = le_split 2 BTF_MAGIC.
Proof. intros [<- _ _ [Hl|(Hl & _)] _]; unfold hdr_bytes; rewrite Hl; reflexivity. Qed.

Lemma hdr_bytes_len h : header_wf h -> ztake 4 (zdrop 4 (hdr_bytes h)) = le_split 4 (hdr_len h).
Proof.
  intros [_ _ _ Hl _]. unfold hdr_bytes. destruct h as [m v f l a b c d e g].
  cbn [hdr_len layout_off layout_len] in *. destruct Hl as [->|(-> & _)]; reflexivity.
Qed.

Lemma swapped_hdr_bytes h : header_wf h -> swapped_hdr (hdr_bytes h) (hdr_len h).
Proof.
  intros Hwf. pose proof (zlen_hdr_bytes h Hwf) as Hz. destruct (wf_len h Hwf) as [Hlen|(Hlen & _)];
    rewrite Hlen in *; [by apply swapped_hdr_32 | by apply swapped_hdr_24].
Qed.

(** What the parser loads from the two forms of the header. *)
Lemma written_hdr_loads h body sw :
  header_wf h ->
  let raw := hdr_bytes h ++ body in
  let raw1 := if sw : bool then btf_bswap_hdr raw (hdr_len h) else raw in
  zlen raw1 = zlen raw /\
  load raw1 0 2 = Some (if sw then bswap_16 BTF_MAGIC else BTF_MAGIC) /\
  load raw1 4 4 = Some (if sw then bswap_32 (hdr_len h) else hdr_len h) /\
  (if sw then btf_bswap_hdr raw1 (hdr_len h) else raw1) = raw.
Proof.
  intros Hwf. cbv zeta. pose proof (zlen_hdr_bytes h Hwf) as Hz. pose proof (hdr_bytes_magic h Hwf) as Hm.
  pose proof (hdr_bytes_len h Hwf) as Hl. pose proof (wf_len h Hwf) as Hlen.
  assert (Hload : forall l, zlen l = hdr_len h ->
    load (l ++ body) 0 2 = Some (le_combine (ztake 2 l)) /\
    load (l ++ body) 4 4 = Some (le_combine (ztake 4 (zdrop 4 l)))).
  { intros l Hzl. unfold load. rewrite !slice_app_l by lia. unfold slice.
    replace ((0 <=? 0) && (0 <=? 2) && (0 + 2 <=? zlen l)) with true by lia.
    by replace ((0 <=? 4) && (0 <=? 4) && (4 + 4 <=? zlen l)) with true by lia. }
  destruct sw.
  - destruct (swapped_hdr_bytes h Hwf) as (l' & Hzl & E & E3 & E4). destruct (E body) as [E1 E2]. rewrite E1. destruct (Hload l' Hzl) as [L1 L2].
    rewrite L1, L2, E3, E4, Hm, Hl, !zlen_app, Hzl, Hz. done.
  - destruct (Hload _ Hz) as [L1 L2]. rewrite L1, L2, Hm, Hl. split; [done |]. split; [reflexivity |].
    split; [|done]. f_equal. apply (le_combine_split 4). destruct Hlen as [->|(-> & _)]; done.
Qed.

Lemma btf_parse_hdr_complete b h body sw :
  header_wf h ->
  let raw := hdr_bytes h ++ body in
  raw_size b = zlen raw -> zlen raw < 2 ^ 32 -> type_off h = 0 ->
  str_off h + str_len h <= zlen body -> type_len h <= str_off h ->
  (layout_len h <> 0 -> layout_off h mod 4 = 0 /\ type_len h <= layout_off h /\
     layout_off h + layout_len h <= str_off h) ->
  btf_parse_hdr b (if sw : bool then btf_bswap_hdr raw (hdr_len h) else raw) =
  Some (Ok (set_extra (set_swapped (set_raw (set_hdr b h) (Some raw)) sw) false)).
Proof.
  intros Hwf raw Hsz Hlt Hto Hs Ht Hlay. pose proof (zlen_hdr_bytes h Hwf) as Hz.
  destruct (written_hdr_loads h body sw Hwf) as (Hz1 & Hm & Hl & Hback). fold raw in Hz1, Hm, Hl, Hback.
  set (raw1 := if sw then _ else raw) in *. unfold btf_parse_hdr.
  assert (Hlen : hdr_len h = 32 \/ hdr_len h = 24) by (pose proof (wf_len h Hwf); tauto).
  assert (Hzr : zlen raw = hdr_len h + zlen body) by (unfold raw; rewrite zlen_app; lia).
  pose proof (zlen_nonneg body). rewrite Hsz. replace (zlen raw <? 24) with false by lia.
  rewrite Hl, Hm. cbn [mbind option_bind].
  assert (Hsw : ((if sw then bswap_16 BTF_MAGIC else BTF_MAGIC) =? bswap_16 BTF_MAGIC) = sw)
    by (destruct sw; reflexivity).
  rewrite Hsw. assert (Hl' : (if sw then bswap_32 (if sw then bswap_32 (hdr_len h) else hdr_len h)
    else if sw then bswap_32 (hdr_len h) else hdr_len h) = hdr_len h).
  { destruct sw; [|done]. apply bswap_32_involutive. destruct Hlen as [-> | ->]; done. }
  rewrite Hl'. replace (hdr_len h <? 24) with false by lia. rewrite andb_false_r.
  replace (negb sw && negb ((if sw then bswap_16 BTF_MAGIC else BTF_MAGIC) =? BTF_MAGIC)) with false
    by (destruct sw; reflexivity).
  replace (zlen raw <? hdr_len h) with false by lia. rewrite Hback.
  assert (Htk : ztake (Z.min (hdr_len h) sizeof_btf_header) raw = hdr_bytes h).
  { unfold sizeof_btf_header. rewrite Z.min_l by lia. unfold raw. rewrite ztake_app_le by lia.
    apply ztake_all. lia. }
  rewrite Htk, hdr_bytes_pad, header_of_bytes_of by done.
  assert (Hx : ztake (hdr_len h - sizeof_btf_header) (zdrop sizeof_btf_header raw) = []).
  { unfold ztake, sizeof_btf_header. by replace (Z.to_nat (hdr_len h - 32)) with O by lia. }
  rewrite Hx, u32_small by lia. cbn [existsb].
  replace (zlen raw - hdr_len h <? str_off h + str_len h) with false by lia.
  rewrite Hto. replace (str_off h <? 0 + type_len h) with false by lia. cbn [negb Z.modulo Z.div_eucl Z.eqb].
  destruct (layout_len h =? 0) eqn:Hll; cbn [orb]; [done |]. destruct (Hlay ltac:(lia)) as (M & L1 & L2).
  rewrite M. replace (layout_off h <? 0 + type_len h) with false by lia.
  pose proof (wf_words h Hwf) as Hw. rewrite !Forall_cons in Hw. unfold is_u32 in Hw.
  replace (str_off h <? layout_off h + layout_len h) with false by lia.
  by replace (str_off h <? layout_off h) with false by lia.
Qed.

(** ** The types read back *)
Lemma btf_add_type_offs_mem_ok nr cap :
  0 <= nr -> nr + 1 <= BTF_MAX_NR_TYPES -> 0 <= cap <= BTF_MAX_NR_TYPES ->
  exists cap', btf_add_type_offs_mem nr cap 1 [] = (Some cap', []) /\ 0 <= cap' <= BTF_MAX_NR_TYPES.
Proof.
  unfold BTF_MAX_NR_TYPES. intros H1 H2 H3. unfold btf_add_type_offs_mem, libbpf_add_mem, BTF_MAX_NR_TYPES.
  rewrite (u64_small (nr + 1)), (u64_small (cap + cap / 4)) by lia.
  destruct (nr + 1 <=? cap) eqn:?; [by exists cap |]. replace (2147483647 <? nr + 1) with false by lia.
  cbv zeta. set (n1 := if cap + cap / 4 <? 16 then 16 else cap + cap / 4).
  set (n2 := if 2147483647 <? n1 then 2147483647 else n1).
  set (n3 := if n2 <? nr + 1 then nr + 1 else n2).
  assert (Hn : 0 <= n3 <= 2147483647) by (unfold n3, n2, n1; repeat case_if; lia).
  unfold libbpf_reallocarray, alloc_array, SIZE_MAX. replace (_ <? n3 * 4) with false by lia.
  exists n3. done.
Qed.

(** A complete type of a known kind, swapped in place. *)
Lemma bswap_rest_exact n i s ex rest :
  let t := BtfType n i s ex in
  known_kind (btf_kind t) -> extra_words (btf_kind t) (btf_vlen t) = zlen ex ->
  btf_bswap_type_rest (BtfType n i s (ex ++ rest)) =
  Some (0, BtfType n i s ((bswap_32 <$> ex) ++ rest)).
Proof.
  intros t Hk He. rewrite btf_bswap_type_rest_known; [|done|].
  - change (btf_kind _) with (btf_kind t). change (btf_vlen _) with (btf_vlen t). rewrite He.
    cbn [name_off info size_or_type extra]. rewrite ztake_app_le, ztake_all by lia. do 4 f_equal.
    apply zdrop_app_zlen.
  - change (btf_kind _) with (btf_kind t). change (btf_vlen _) with (btf_vlen t). cbn [extra]. rewrite He, zlen_app.
    pose proof (zlen_nonneg rest). lia.
Qed.

Definition chunk_known (c : list Z) : Prop :=
  match type_at c with Some t => known_kind (btf_kind t) | None => True end.

(** A chunk is the words of one type. *)
Lemma type_ok_chunk lay c :
  type_ok lay c -> exists n i s ex, c = n :: i :: s :: ex /\
    btf_type_size lay (BtfType n i s ex) = 12 + 4 * zlen ex /\
    (chunk_known c -> known_kind (btf_kind (BtfType n i s ex)) /\
       extra_words (btf_kind (BtfType n i s ex)) (btf_vlen (BtfType n i s ex)) = zlen ex).
Proof.
  intros (t & Ht & Hs). destruct c as [|n [|i [|s ex]]]; try done. cbn in Ht. injection Ht as <-.
  exists n, i, s, ex. rewrite !zlen_cons in Hs. split; [done |]. split; [lia |].
  intros Hk. split; [done |]. rewrite btf_type_size_known in Hs by done. lia.
Qed.

Lemma swap_types_loop_spec lay cs pre :
  Forall (type_ok lay) cs -> Forall chunk_known cs ->
  swap_types_loop (pre ++ mjoin cs) (offsets (4 * zlen pre) cs) =
  Some (Some (pre ++ (bswap_32 <$> mjoin cs))).
Proof.
  intros Hall. revert pre. induction Hall as [|c cs Hc Hall IH]; intros pre Hk; [done |].
  apply Forall_cons in Hk as [Hkc Hk]. cbn [offsets swap_types_loop]. rewrite mjoin_cons.
  destruct (type_ok_chunk lay c Hc) as (n & i & s & ex & -> & _ & Hkn). destruct (Hkn Hkc) as [Hk1 Hk2].
  rewrite Z.mul_comm, Z.div_mul, zdrop_app_zlen, ztake_app_zlen by lia.
  cbn [app type_at mbind option_bind]. rewrite bswap_rest_exact by done. cbn [mbind option_bind Z.eqb negb].
  unfold words_at, btf_bswap_type_base. cbn [name_off info size_or_type extra].
  set (c' := bswap_32 <$> n :: i :: s :: ex).
  replace (pre ++ _) with ((pre ++ c') ++ mjoin cs) by (rewrite <- app_assoc; done).
  replace (zlen pre * 4 + 4 * zlen (n :: i :: s :: ex)) with (4 * zlen (pre ++ c')).
  2: { rewrite zlen_app. unfold c'. rewrite zlen_fmap. lia. }
  rewrite IH by done. do 2 f_equal. rewrite <- app_assoc. f_equal. unfold c'. by rewrite <- fmap_app.
Qed.

(** The words a parser of the given byte order reads. *)
Definition swap_words (sw : bool) (ws : list Z) : list Z := if sw then bswap_32 <$> ws else ws.

Lemma swap_words_app sw l k : swap_words sw (l ++ k) = swap_words sw l ++ swap_words sw k.
Proof. destruct sw; [apply fmap_app | done]. Qed.

(** The parser's conversion of one type that the writer converted. *)
Lemma swap_type_back lay sw n i s ex rest :
  is_u32 n -> is_u32 i -> is_u32 s -> Forall is_u32 ex ->
  (sw = true -> known_kind (btf_kind (BtfType n i s ex)) /\
     extra_words (btf_kind (BtfType n i s ex)) (btf_vlen (BtfType n i s ex)) = zlen ex) ->
  exists t0, type_at (swap_words sw (n :: i :: s :: ex) ++ rest) = Some t0 /\
    let t1 := if sw then btf_bswap_type_base t0 else t0 in
    btf_type_size lay t1 = btf_type_size lay (BtfType n i s ex) /\
    (if sw then btf_bswap_type_rest t1 else Some (0, t1)) = Some (0, BtfType n i s (ex ++ rest)).
Proof.
  intros Un Ui Us Ue Hk. destruct sw; [|eexists; split; [reflexivity |]; split; [by apply btf_type_size_info | done]].
  exists (BtfType (bswap_32 n) (bswap_32 i) (bswap_32 s) ((bswap_32 <$> ex) ++ rest)).
  split; [reflexivity |]. cbv zeta. unfold btf_bswap_type_base. cbn [name_off info size_or_type extra].
  rewrite !bswap_32_involutive by done. split; [by apply btf_type_size_info |].
  destruct (Hk eq_refl) as [Hk1 Hk2].
  rewrite (bswap_rest_exact n i s (bswap_32 <$> ex)); [|exact Hk1 | by rewrite zlen_fmap].
  do 4 f_equal. rewrite <- list_fmap_compose. transitivity (id <$> ex); [|apply list_fmap_id].
  apply list_fmap_ext. intros j x Hx. apply bswap_32_involutive. by eapply Forall_lookup_1.
Qed.

Lemma parse_type_loop_complete lay sw cs fuel off nr cap :
  Forall (type_ok lay) cs -> (sw = true -> Forall chunk_known cs) -> Forall is_u32 (mjoin cs) ->
  4 * zlen (mjoin cs) < Z.of_nat fuel -> 0 <= nr -> nr + zlen cs <= BTF_MAX_NR_TYPES ->
  0 <= cap <= BTF_MAX_NR_TYPES ->
  exists cap', parse_type_loop fuel lay sw (swap_words sw (mjoin cs)) (4 * zlen (mjoin cs)) off nr cap [] =
    Some (Ok (mjoin cs, offsets off cs, cap'), []).
Proof.
  intros Hall. revert fuel off nr cap.
  induction Hall as [|c cs Hc Hall IH]; intros fuel off nr cap Hk Hu Hf Hn Hnr Hcap.
  { exists cap. destruct fuel; destruct sw; reflexivity. }
  destruct (type_ok_chunk lay c Hc) as (n & i & s & ex & -> & Hsz & Hkn).
  rewrite mjoin_cons in *. rewrite zlen_app, !zlen_cons in Hf |- *.
  apply Forall_app in Hu as [Huc Hu]. rewrite !Forall_cons in Huc. destruct Huc as (Un & Ui & Us & Ue).
  pose proof (zlen_nonneg ex). pose proof (zlen_nonneg (mjoin cs)). rewrite zlen_cons in Hnr. pose proof (zlen_nonneg cs).
  destruct fuel as [|fuel]; [lia |]. cbn [parse_type_loop].
  replace (12 <=? _) with true by lia.
  destruct (swap_type_back lay sw n i s ex (swap_words sw (mjoin cs))) as (t0 & Hat & Hs0 & Hrest);
    [exact Un | exact Ui | exact Us | exact Ue | |].
  { intros ->. apply Hkn. specialize (Hk eq_refl). by apply Forall_cons in Hk as [Hkc _]. }
  rewrite swap_words_app, Hat. cbn [mbind option_bind]. rewrite Hs0, Hsz.
  replace (12 + 4 * zlen ex <? 0) with false by lia. replace (_ <? 12 + 4 * zlen ex) with false by lia.
  rewrite Hrest. cbn [mbind option_bind Z.eqb negb].
  destruct (btf_add_type_offs_mem_ok nr cap) as (cap1 & -> & Hcap1); [lia.. |].
  cbn [name_off info size_or_type extra]. set (rest := swap_words sw (mjoin cs)).
  change (n :: i :: s :: ex ++ rest) with ((n :: i :: s :: ex) ++ rest).
  assert (Hdiv : (12 + 4 * zlen ex) / 4 = zlen (n :: i :: s :: ex)) by (rewrite !zlen_cons; lia).
  rewrite Hdiv, zdrop_app_zlen, ztake_app_zlen.
  destruct (IH fuel (off + (12 + 4 * zlen ex)) (nr + 1) cap1) as (cap2 & Hr); try lia; [|done|].
  { intros Hsw. specialize (Hk Hsw). by apply Forall_cons in Hk as [_ Hk]. }
  replace (4 * (1 + (1 + (1 + zlen ex)) + zlen (mjoin cs)) - (12 + 4 * zlen ex)) with (4 * zlen (mjoin cs)) by lia.
  unfold rest. rewrite Hr. cbn [mbind option_bind res_bind]. exists cap2. do 4 f_equal.
  cbn [offsets]. rewrite !zlen_cons. do 3 f_equal. lia.
Qed.

(** ** The whole object reads back *)

(** The sections follow each other and the strings start as a parser requires. *)
Record packed (b : btf) : Prop := {
  pk_hdr : header_wf (hdr b);
  pk_type_off : type_off (hdr b) = 0;
  pk_layout : match layout b with
    | None => layout_len (hdr b) = 0 /\ str_off (hdr b) = type_len (hdr b)
    | Some l => hdr_len (hdr b) = 32 /\ layout_off (hdr b) = type_len (hdr b) /\
        layout_len (hdr b) = 4 * zlen l /\ 0 < zlen l /\
        str_off (hdr b) = type_len (hdr b) + layout_len (hdr b) /\
        layout_flags_ok l /\ layout_bytes (Some l)
    end;
  pk_strs : str_len (hdr b) - 1 <= BTF_MAX_STR_OFFSET /\
    (base_btf b = None -> znth (btf_strs_data b) 0 = Some 0);
  pk_size : hdr_len (hdr b) + str_off (hdr b) + str_len (hdr b) < 2 ^ 32
}.

(** All types of the object are of kinds the library knows. *)
Definition types_known (b : btf) : Prop :=
  forall id t, start_id b <= id < start_id b + nr_types b ->
    btf_type_by_id b id = Some t -> known_kind (btf_kind t).

Lemma types_known_chunks b cs :
  types_ok b cs -> 1 <= start_id b -> types_known b -> Forall chunk_known cs.
Proof.
  intros Hcs H1 Hk. apply Forall_lookup. intros k c Hc.
  pose proof (types_count _ _ Hcs) as Hn. unfold zlen in Hn. pose proof (lookup_lt_Some _ _ _ Hc).
  destruct (types_ok_lookup b cs (start_id b + Z.of_nat k) Hcs) as (c' & t & rest & Hc' & Ht & _ & Hby); [lia.. |].
  replace (Z.to_nat _) with k in Hc' by lia. simplify_eq. unfold chunk_known. rewrite Ht.
  apply (Hk (start_id b + Z.of_nat k) _ ltac:(lia) Hby).
Qed.

Lemma store_zeros pre n bs :
  zlen bs <= Z.of_nat n ->
  store (pre ++ replicate n 0) (zlen pre) bs = Some ((pre ++ bs) ++ replicate (n - length bs) 0).
Proof.
  intros Hn. unfold store. pose proof (zlen_nonneg pre). rewrite zlen_app, zlen_replicate.
  replace (_ && _) with true by lia. f_equal. unfold memcpy. rewrite ztake_app_zlen, <- app_assoc.
  do 2 f_equal. unfold zdrop, zlen in *. rewrite drop_app_ge by lia. rewrite drop_replicate. f_equal. lia.
Qed.

(** The last section fills the block. *)
Lemma store_last pre n bs sz :
  zlen bs = Z.of_nat n -> sz = zlen (pre ++ bs) ->
  (data ← store (pre ++ replicate n 0) (zlen pre) bs; Some (Some (data, sz), @nil bool)) =
  Some (Some (pre ++ bs, zlen (pre ++ bs)), []).
Proof.
  intros Hn ->. rewrite store_zeros by lia. cbn [mbind option_bind].
  replace (n - length bs)%nat with O by (unfold zlen in Hn; lia). by rewrite app_nil_r.
Qed.

Definition layout_section (b : btf) (sw : bool) : list Z :=
  match layout b with
  | None => []
  | Some l => bytes_of_layouts (if sw then bswap_layout <$> l else l)
  end.

Definition raw_body (b : btf) (sw : bool) : list Z :=
  bytes_of (swap_words sw (types_data b)) ++ layout_section b sw ++ btf_strs_data b.

Definition raw_written (b : btf) (sw : bool) : list Z :=
  let raw := hdr_bytes (hdr b) ++ raw_body b sw in
  if sw then btf_bswap_hdr raw (hdr_len (hdr b)) else raw.

Lemma zlen_layout_section b sw :
  packed b -> zlen (layout_section b sw) = str_off (hdr b) - type_len (hdr b) /\
    zlen (layout_section b sw) = match layout b with Some _ => layout_len (hdr b) | None => 0 end.
Proof.
  intros [_ _ Hl _ _]. unfold layout_section. destruct (layout b) as [l|]; [|rewrite zlen_nil; lia].
  destruct Hl as (_ & _ & H1 & _ & H2 & _ & H3).
  assert (Hz : zlen (bytes_of_layouts (if sw then bswap_layout <$> l else l)) = 4 * zlen l).
  { destruct sw; [|by apply bytes_of_layouts_props]. rewrite <- (zlen_fmap bswap_layout l).
    by apply bytes_of_layouts_props, bswap_layouts_range. }
  rewrite Hz. lia.
Qed.

Lemma zlen_raw_body b sw :
  btf_ok b -> packed b -> zlen (raw_body b sw) = str_off (hdr b) + str_len (hdr b).
Proof.
  intros Hok Hpk. apply btf_ok_unfold in Hok as ([cs Hcs] & (Hs & _) & _). pose proof (types_len _ _ Hcs).
  destruct (zlen_layout_section b sw Hpk) as [Hl _]. unfold raw_body. rewrite !zlen_app, Hs, Hl.
  destruct (bytes_of_props (swap_words sw (types_data b))) as [_ ->]. destruct sw; cbn [swap_words]; rewrite ?zlen_fmap; lia.
Qed.

Lemma swap_types_data b sw :
  btf_ok b -> (sw = true -> types_known b) ->
  (if sw : bool then swap_types_loop (types_data b) (ztake (nr_types b) (type_offs b))
   else Some (Some (types_data b))) = Some (Some (swap_words sw (types_data b))).
Proof.
  intros Hok Hk. apply btf_ok_unfold in Hok as ([cs Hcs] & _ & H1 & _). destruct sw; [|done].
  pose proof (types_known_chunks b cs Hcs H1 (Hk eq_refl)) as Hck. destruct Hcs as [Hw Hi Hn Hall _ _ _].
  rewrite Hi, ztake_all by (rewrite zlen_offsets; lia). rewrite Hw.
  exact (swap_types_loop_spec (btf_layout_of b) cs [] Hall Hck).
Qed.

(** What [btf_get_raw_data] writes. *)
Lemma btf_get_raw_data_written b sw :
  btf_ok b -> packed b -> (if sw : bool then raw_data_swapped b else raw_data b) = None ->
  (sw = true -> types_known b) ->
  btf_get_raw_data b sw [] = Some (Some (raw_written b sw, zlen (raw_written b sw)), []).
Proof.
  intros Hok Hpk Hraw Hk. pose proof (zlen_raw_body b sw Hok Hpk) as Hzb.
  pose proof (swap_types_data b sw Hok Hk) as Hsw. destruct (zlen_layout_section b sw Hpk) as [Hzl1 Hzl2].
  apply btf_ok_unfold in Hok as ([cs Hcs] & (Hs & _) & _). pose proof (types_len _ _ Hcs) as Htl.
  destruct Hpk as [Hwf Hto Hlay _ Hsz]. pose proof (zlen_hdr_bytes _ Hwf) as Hzh.
  pose proof (wf_words _ Hwf) as Hw. rewrite !Forall_cons in Hw. unfold is_u32 in Hw.
  assert (Hlen : hdr_len (hdr b) = 32 \/ hdr_len (hdr b) = 24) by (pose proof (wf_len _ Hwf); tauto).
  assert (Hzt : zlen (bytes_of (swap_words sw (types_data b))) = type_len (hdr b)).
  { destruct (bytes_of_props (swap_words sw (types_data b))) as [_ ->].
    destruct sw; cbn [swap_words]; rewrite ?zlen_fmap; lia. }
  unfold btf_get_raw_data. rewrite Hraw. set (h := hdr b) in *.
  set (sz := hdr_len h + str_off h + str_len h).
  assert (Hds : (match layout b with
      | Some _ => u32 (u32 (hdr_len h + type_len h + str_len h) + layout_len h)
      | None => u32 (hdr_len h + type_len h + str_len h) end) = sz).
  { destruct (layout b); rewrite !u32_small by (rewrite ?u32_small; lia); lia. }
  rewrite Hds. cbn [alloc negb].
  replace (Z.min sizeof_btf_header (hdr_len h)) with (hdr_len h) by (unfold sizeof_btf_header; lia).
  fold (hdr_bytes h).
  change (replicate (Z.to_nat sz) 0) with ([] ++ replicate (Z.to_nat sz) 0).
  change (store _ 0) with (store ([] ++ replicate (Z.to_nat sz) 0) (zlen (@nil Z))).
  rewrite store_zeros by lia. cbn [mbind option_bind app].
  replace (sz <? 24) with false by lia.
  set (h' := if sw then btf_bswap_hdr (hdr_bytes h) (hdr_len h) else hdr_bytes h).
  assert (Hh' : forall k, (if sw then btf_bswap_hdr (hdr_bytes h ++ k) (hdr_len h) else hdr_bytes h ++ k) = h' ++ k).
  { intros k. unfold h'. destruct sw; [|done]. destruct (swapped_hdr_bytes h Hwf) as (l' & _ & E & _).
    rewrite (proj1 (E k)), <- (app_nil_r (hdr_bytes h)), (proj1 (E [])). by rewrite app_nil_r. }
  assert (Hzh' : zlen h' = hdr_len h).
  { destruct (written_hdr_loads h [] sw Hwf) as (Hz & _). rewrite Hh', app_nil_r in Hz. rewrite Hz, app_nil_r. done. }
  assert (Hrw : raw_written b sw = h' ++ raw_body b sw) by (unfold raw_written; apply Hh').
  replace (if sw then Some (btf_bswap_hdr _ _) else Some _) with
    (Some (h' ++ replicate (Z.to_nat sz - length (hdr_bytes h)) 0)) by (rewrite <- Hh'; by destruct sw).
  cbn [mbind option_bind]. replace (type_len h / 4) with (zlen (types_data b)) by lia.
  rewrite slice_all. cbn [mbind option_bind]. rewrite Hsw. cbn [mbind option_bind].
  rewrite <- Hzh' at 1. rewrite store_zeros by (unfold zlen in *; lia). cbn [mbind option_bind].
  rewrite Hrw. unfold raw_body, layout_section in *. set (tb := bytes_of _) in *.
  rewrite <- Hs, slice_all. cbn [mbind option_bind]. rewrite <- Hzh', <- Hzt, <- !zlen_app.
  destruct (layout b) as [l|]; cbn [mbind option_bind].
  - rewrite <- Hzl2, slice_all. cbn [mbind option_bind].
    rewrite store_zeros by (unfold zlen in *; lia). cbn [mbind option_bind]. rewrite <- zlen_app, store_last.
    + by rewrite <- !app_assoc.
    + unfold zlen in *. lia.
    + unfold sz. rewrite !zlen_app in *. lia.
  - rewrite store_last; [by rewrite <- !app_assoc | unfold zlen in *; lia |].
    unfold sz. rewrite !zlen_app in *. lia.
Qed.

(** ** The parser on what was written *)
Lemma btf_parse_str_sec_complete b strs :
  strs_data b = Some strs -> zlen strs = str_len (hdr b) ->
  (str_len (hdr b) = 0 \/ last strs = Some 0) -> str_len (hdr b) - 1 <= BTF_MAX_STR_OFFSET ->
  (base_btf b = None -> znth strs 0 = Some 0) -> btf_parse_str_sec b = Some (Ok b).
Proof.
  intros Hs Hz Hl Hm Hf. unfold btf_parse_str_sec. rewrite Hs. cbn [mbind option_bind].
  pose proof (zlen_nonneg strs).
  destruct (str_len (hdr b) =? 0) eqn:H0.
  { destruct (base_btf b) as [base|]; [done |]. specialize (Hf eq_refl). apply znth_Some in Hf. lia. }
  rewrite andb_false_r. cbn [orb]. replace (_ <? _) with false by lia.
  destruct Hl as [Hl|Hl]; [lia |].
  assert (Hx : znth strs (str_len (hdr b) - 1) = Some 0).
  { unfold znth. replace (_ <? 0) with false by lia. rewrite <- Hl, last_lookup. f_equal. unfold zlen in *. lia. }
  rewrite Hx. cbn [mbind option_bind Z.eqb negb].
  destruct (znth_is_Some strs 0) as [y Hy]; [lia |]. rewrite Hy. cbn [mbind option_bind].
  destruct (base_btf b) as [base|]; [done |]. specialize (Hf eq_refl). by simplify_eq.
Qed.

(** The layout section at its place in the data. *)
Lemma btf_parse_layout_sec_complete b b1 raw sw :
  packed b -> hdr b1 = hdr b -> swapped_endian b1 = sw -> layout b1 = None -> raw_data b1 = Some raw ->
  (layout b <> None ->
     slice raw (hdr_len (hdr b) + layout_off (hdr b)) (layout_len (hdr b)) = Some (layout_section b sw)) ->
  exists raw', btf_parse_layout_sec b1 raw = Some (Ok (set_raw (set_layout b1 (layout b)) (Some raw'))) /\
    (forall k n, k + n <= hdr_len (hdr b) + type_len (hdr b) -> slice raw' k n = slice raw k n).
Proof.
  intros Hpk Hh Hsw Hl0 Hraw Hsl. destruct (zlen_layout_section b sw Hpk) as [_ Hz].
  destruct Hpk as [Hwf _ Hl _ _]. unfold btf_parse_layout_sec. rewrite Hh.
  destruct (layout b) as [l|] eqn:El.
  2: { destruct Hl as [-> _]. exists raw. rewrite <- Hl0, <- Hraw. split; [by destruct b1 | done]. }
  destruct Hl as (Hl1 & Hl2 & Hl3 & Hl4 & _ & Hf & Hb). specialize (Hsl ltac:(done)).
  replace (layout_len (hdr b) =? 0) with false by lia. replace (layout_len (hdr b) mod 4) with 0 by lia.
  cbn [Z.eqb negb]. rewrite Hsl. cbn [mbind option_bind].
  assert (Hll : layouts_of_bytes (layout_section b sw) = if sw then bswap_layout <$> l else l).
  { unfold layout_section. rewrite El. apply layouts_of_bytes_of. destruct sw; [apply bswap_layouts_flags | done]. }
  rewrite Hll, Hsw. apply slice_Some in Hsl as (S1 & S2 & S3 & _). destruct sw.
  - rewrite bswap_layouts_involutive by done. eexists. split; [reflexivity |]. intros k n Hkn.
    destruct (bytes_of_layouts_props l Hb) as [_ Hzl]. apply slice_memcpy_before; lia.
  - exists raw. rewrite <- Hraw. split; [by destruct b1 | done].
Qed.

(** The type section at its place in the data. *)
Lemma btf_parse_type_sec_complete b b2 raw sw :
  btf_ok b -> packed b -> (sw = true -> types_known b) ->
  hdr b2 = hdr b -> swapped_endian b2 = sw -> btf_layout_of b2 = btf_layout_of b -> nr_types b2 = 0 ->
  type_offs_cap b2 = 0 ->
  slice raw (hdr_len (hdr b)) (type_len (hdr b)) = Some (bytes_of (swap_words sw (types_data b))) ->
  exists cap ocap raw', btf_parse_type_sec b2 raw [] =
    Some (Ok (set_raw (set_types b2 (types_data b) cap (type_offs b) ocap (nr_types b)) (Some raw')), []).
Proof.
  intros Hok Hpk Hk Hh Hsw Hlay Hn0 Hc0 Hsl.
  apply btf_ok_unfold in Hok as ([cs Hcs] & _ & H1 & _). destruct Hpk as [Hwf Hto _ _ Hsz].
  pose proof (wf_words _ Hwf) as Hw. rewrite !Forall_cons in Hw. unfold is_u32 in Hw.
  pose proof (zlen_chunks _ cs (types_layout _ _ Hcs) (types_each _ _ Hcs)) as Hzc.
  pose proof (types_known_chunks b cs Hcs H1) as Hck. pose proof Hcs as [Hwd Hi Hn Hall Htl _ Hu].
  unfold btf_parse_type_sec. rewrite Hh, Hto, Z.add_0_r, Hsl. cbn [mbind option_bind].
  assert (Hwo : words_of (bytes_of (swap_words sw (types_data b))) = swap_words sw (types_data b)).
  { rewrite <- (app_nil_r (bytes_of _)), words_of_bytes_of; [apply app_nil_r |]. destruct sw; [|done].
    apply Forall_fmap, Forall_forall. intros x _. apply bswap_32_range. }
  rewrite Hwo, Hsw, Hlay, Hn0, Hc0, Htl. rewrite Hwd in *.
  assert (Hnr : nr_types b <= BTF_MAX_NR_TYPES) by (unfold BTF_MAX_NR_TYPES; lia).
  destruct (parse_type_loop_complete (btf_layout_of b) sw cs (S (Z.to_nat (4 * zlen (mjoin cs)))) 0 0 0)
    as (cap & Hr);
    [exact Hall | exact (fun e => Hck (Hk e)) | exact Hu | lia | lia | lia | unfold BTF_MAX_NR_TYPES; lia |].
  rewrite Hr. cbn [mbind option_bind res_bind]. rewrite zlen_offsets, <- Hn, <- Hi.
  exists (types_data_cap b2), cap. eexists. reflexivity.
Qed.

(** Where the sections lie in the native data. *)
Lemma raw_slices b sw :
  btf_ok b -> packed b ->
  let raw := hdr_bytes (hdr b) ++ raw_body b sw in
  slice raw (hdr_len (hdr b)) (type_len (hdr b)) = Some (bytes_of (swap_words sw (types_data b))) /\
  slice raw (hdr_len (hdr b) + str_off (hdr b)) (str_len (hdr b)) = Some (btf_strs_data b) /\
  (layout b <> None ->
   slice raw (hdr_len (hdr b) + layout_off (hdr b)) (layout_len (hdr b)) = Some (layout_section b sw)).
Proof.
  intros Hok Hpk raw. destruct (zlen_layout_section b sw Hpk) as [Hz1 Hz2].
  apply btf_ok_unfold in Hok as ([cs Hcs] & (Hs & _) & _). pose proof (types_len _ _ Hcs) as Htl.
  destruct Hpk as [Hwf Hto Hl _ _]. pose proof (zlen_hdr_bytes _ Hwf) as Hzh.
  assert (Hzt : zlen (bytes_of (swap_words sw (types_data b))) = type_len (hdr b)).
  { destruct (bytes_of_props (swap_words sw (types_data b))) as [_ ->].
    destruct sw; cbn [swap_words]; rewrite ?zlen_fmap; lia. }
  assert (Hmid : forall (x y z : list Z), slice (x ++ y ++ z) (zlen x) (zlen y) = Some y).
  { intros x y z. rewrite <- (Z.add_0_r (zlen x)), slice_app_r, slice_app_l by (pose proof (zlen_nonneg y); lia).
    apply slice_all. }
  unfold raw, raw_body. split; [|split].
  - rewrite <- Hzh, <- Hzt. apply Hmid.
  - replace (hdr_len (hdr b) + str_off (hdr b)) with
      (zlen (hdr_bytes (hdr b) ++ bytes_of (swap_words sw (types_data b)) ++ layout_section b sw))
      by (rewrite !zlen_app; lia).
    rewrite <- Hs, !app_assoc, <- (app_nil_r (_ ++ btf_strs_data b)), <- app_assoc. apply Hmid.
  - intros Hne. destruct (layout b) as [l|] eqn:El; [|done]. destruct Hl as (_ & Hlo & _).
    rewrite Hlo, <- Hz2, <- Hzh, <- Hzt, <- zlen_app, app_assoc. apply Hmid.
Qed.

(** [btf_new] from the results of its steps. *)
Lemma btf_new_stages data base b1 raw1 strs b2 raw2 b3 err n :
  btf_parse_hdr (btf_fresh base (zlen data)) data = Some (Ok b1) -> raw_data b1 = Some raw1 ->
  slice raw1 (hdr_len (hdr b1) + str_off (hdr b1)) (str_len (hdr b1)) = Some strs ->
  btf_parse_str_sec (set_strs_data b1 (Some strs)) = Some (Ok (set_strs_data b1 (Some strs))) ->
  btf_parse_layout_sec (set_strs_data b1 (Some strs)) raw1 = Some (Ok b2) -> raw_data b2 = Some raw2 ->
  btf_parse_type_sec b2 raw2 [] = Some (Ok b3, []) -> btf_sanity_check b3 = Some err ->
  (err = 0 -> btf_check_sorted b3 = Some n) ->
  btf_new data base [] = Some (if err =? 0 then Ok (set_named_start_id b3 n) else Err (- err), []).
Proof.
  intros H1 H2 H3 H4 H5 H6 H7 H8 H9. unfold btf_new. cbn [alloc negb]. rewrite H1. cbn [mbind option_bind].
  rewrite H2. cbn [mbind option_bind]. rewrite H3. cbn [mbind option_bind]. rewrite H4. cbn [mbind option_bind].
  rewrite H5. cbn [mbind option_bind]. rewrite H6. cbn [mbind option_bind]. rewrite H7. cbn [mbind option_bind].
  rewrite H8. cbn [mbind option_bind]. destruct (err =? 0) eqn:He; cbn [negb]; [|done]. by rewrite H9 by lia.
Qed.

(** The contents of the parsed object. *)
Lemma written_same b b0 raw sw ex raw2 cap ocap raw3 :
  base_btf b0 = base_btf b -> start_id b0 = start_id b -> start_str_off b0 = start_str_off b ->
  same_content b
    (set_raw (set_types (set_raw (set_layout (set_strs_data (set_extra (set_swapped (set_raw (set_hdr b0 (hdr b))
       (Some raw)) sw) ex) (Some (btf_strs_data b))) (layout b)) (Some raw2))
       (types_data b) cap (type_offs b) ocap (nr_types b)) (Some raw3)).
Proof. by split. Qed.

(** What was written is read back when the types are sane, and refused with the error of the
    sanity check otherwise. *)
Lemma btf_new_written b sw :
  btf_ok b -> packed b -> base_room (base_btf b) -> (sw = true -> types_known b) ->
  exists err b', btf_sanity_check b = Some err /\
    btf_new (raw_written b sw) (base_btf b) [] = Some (if err =? 0 then Ok b' else Err (- err), []) /\
    same_content b b' /\ swapped_endian b' = sw.
Proof.
  intros Hok Hpk Hroom Hk. pose proof (zlen_raw_body b sw Hok Hpk) as Hzb.
  pose proof (fresh_start (base_btf b) (zlen (raw_written b sw)) Hroom) as (_ & _ & Hst).
  destruct (raw_slices b sw Hok Hpk) as (Sl1 & Sl2 & Sl3). set (raw := hdr_bytes (hdr b) ++ raw_body b sw) in *.
  pose proof Hpk as [Hwf Hto Hlay [Hsm Hsf] Hsz]. pose proof (zlen_hdr_bytes _ Hwf) as Hzh.
  destruct (written_hdr_loads (hdr b) (raw_body b sw) sw Hwf) as (Hzw & _). fold raw in Hzw.
  change (if sw then _ else _) with (raw_written b sw) in Hzw.
  assert (Hzr : zlen raw = hdr_len (hdr b) + str_off (hdr b) + str_len (hdr b)) by (unfold raw; rewrite zlen_app; lia).
  assert (Hzl : 0 <= layout_len (hdr b)).
  { pose proof (wf_words _ Hwf) as Hw. rewrite !Forall_cons in Hw. unfold is_u32 in Hw. lia. }
  pose proof (btf_ok_unfold _ Hok) as ([cs Hcs] & (Hs1 & Hs2 & _) & _ & _ & Hb).
  pose proof (types_len _ _ Hcs) as Htl.
  pose proof (btf_parse_hdr_complete (btf_fresh (base_btf b) (zlen (raw_written b sw))) (hdr b) (raw_body b sw) sw Hwf)
    as Hph. cbv zeta in Hph. fold raw in Hph.
  change (if sw then btf_bswap_hdr raw (hdr_len (hdr b)) else raw) with (raw_written b sw) in Hph.
  specialize (Hph ltac:(done) ltac:(lia) Hto ltac:(lia) ltac:(destruct (layout b); lia) ltac:(destruct (layout b); lia)).
  set (b1 := set_strs_data (set_extra (set_swapped (set_raw (set_hdr
    (btf_fresh (base_btf b) (zlen (raw_written b sw))) (hdr b)) (Some raw)) sw) false) (Some (btf_strs_data b))).
  destruct (btf_parse_layout_sec_complete b b1 raw sw Hpk) as (raw2 & Hp2 & Hsl2); [reflexivity.. | exact Sl3 |].
  set (b2 := set_raw (set_layout b1 (layout b)) (Some raw2)) in Hp2.
  destruct (btf_parse_type_sec_complete b b2 raw2 sw Hok Hpk Hk) as (cap & ocap & raw3 & Hp3);
    [reflexivity.. | rewrite Hsl2 by lia; exact Sl1 |].
  set (b3 := set_raw (set_types b2 _ _ _ _ _) _) in Hp3.
  assert (Hsame : same_content b b3).
  { apply written_same; [done | cbn [btf_fresh start_id start_str_off] in *; destruct (base_btf b); lia..]. }
  pose proof (same_sanity b b3 Hsame) as Hs3.
  pose proof (same_btf_ok b b3 Hsame Hok) as Hok3. destruct (btf_sanity_check_spec b3 Hok3) as (err & He & Hall).
  assert (Hsorted : exists n, err = 0 -> btf_check_sorted b3 = Some n).
  { destruct (decide (err = 0)) as [->|Hne]; [|exists 0; intros He0; contradiction].
    destruct (btf_check_sorted_spec b3 Hok3 (sane_names_ok b3 Hok3 (Hall eq_refl)) eq_refl) as (n & Hn & _). exists n. intros _. exact Hn. }
  destruct Hsorted as (n & Hn). exists err, (set_named_start_id b3 n). rewrite <- Hs3.
  split; [exact He |]. split; [|split; [destruct Hsame; by split | reflexivity]].
  apply (btf_new_stages _ _ _ raw (btf_strs_data b) b2 raw2 b3 err n Hph eq_refl Sl2);
    [|exact Hp2 | reflexivity | exact Hp3 | exact He | exact Hn].
  exact (btf_parse_str_sec_complete b1 (btf_strs_data b) eq_refl Hs1 Hs2 Hsm Hsf).
Qed.

(** C5: writing an object and reading it back.  For a well-formed object whose sections
    follow each other, whose types pass the sanity check and that has no cached raw
    data, [btf_get_raw_data] in either byte order (in the foreign one if all kinds are
    known) gives data that [btf_new] reads as an object with the same header, types,
    layout, strings and base, marked with that byte order. *)
Theorem btf_raw_data_roundtrip b sw :
  btf_ok b -> packed b -> base_room (base_btf b) ->
  (if sw : bool then raw_data_swapped b else raw_data b) = None -> (sw = true -> types_known b) ->
  btf_sanity_check b = Some 0 ->
  exists data b', btf_get_raw_data b sw [] = Some (Some (data, zlen data), []) /\
    btf_new data (base_btf b) [] = Some (Ok b', []) /\ same_content b b' /\ swapped_endian b' = sw.
Proof.
  intros Hok Hpk Hroom Hraw Hk Hsane. destruct (btf_new_written b sw Hok Hpk Hroom Hk) as (err & b' & He & Hnew & Hrest).
  rewrite Hsane in He. injection He as <-. exists (raw_written b sw), b'. split; [exact (btf_get_raw_data_written b sw Hok Hpk Hraw Hk) |].
  split; [exact Hnew | exact Hrest].
Qed.

(** The object [ab] on top of its base, written in the foreign byte order. *)
Lemma btf_raw_data_roundtrip_witness :
  exists data b', btf_get_raw_data demo_btf true [] = Some (Some (data, 40), []) /\
    btf_new data (Some demo_base) [] = Some (Ok b', []) /\ same_content demo_btf b' /\
    swapped_endian b' = true.
Proof.
  destruct (btf_raw_data_roundtrip demo_btf true) as (data & b' & Hraw & Hnew & Hsame & Hsw).
  - exact demo_btf_ok.
  - split; [|reflexivity|by split| |reflexivity].
    + split; [reflexivity | done | done | right; done | repeat constructor; cbv; congruence].
    + split; [cbv; congruence | discriminate].
  - split; [exact demo_base_ok |]. split; [exact (proj2 (proj2 demo_btf_named)) |]. split; cbv; congruence.
  - reflexivity.
  - intros _ id t Hid. cbn in Hid. assert (id = 3) as -> by lia. vm_compute. by intros [= <-].
  - by vm_compute.
  - exists data, b'. split; [|by split]. rewrite Hraw. do 3 f_equal.
    assert (Hc : match btf_get_raw_data demo_btf true [] with Some (Some (d, _), _) => zlen d | _ => 0 end = 40)
      by (vm_compute; reflexivity).
    rewrite Hraw in Hc. by rewrite Hc.
Defined.

(** An object from [btf_new_empty] is well formed and can be written out. *)
Lemma btf_new_empty_ok base add_layout o :
  base_room base ->
  match btf_new_empty base add_layout o with
  | (Ok b, _) => btf_ok b /\ packed b /\ base_btf b = base /\ nr_types b = 0
  | (Err e, _) => e = ENOMEM
  end.
Proof.
  intros Hroom. unfold btf_new_empty. destruct (alloc o) as [[] o1]; cbn [negb]; [|done].
  destruct (alloc o1) as [[] o2]; cbn [negb]; [|done].
  pose proof (fresh_start base 0 Hroom) as (Hsi & Hso & Hst). cbn [btf_fresh start_id start_str_off] in Hsi, Hso, Hst.
  match goal with |- btf_ok ?x /\ _ => set (b := x) end.
  assert (Hl : layout_bytes (layout b) /\ (add_layout = true -> layout_flags_ok layouts)).
  { split; [|intros _; by repeat constructor]. unfold b. destruct add_layout; [|done]. by repeat constructor. }
  destruct Hl as [Hl1 Hl2]. split; [|split; [|done]].
  - apply (btf_ok_intro b []); [| |exact (proj1 Hsi) | cbn; lia | by destruct base].
    2: { split; [by destruct base |]. split; [destruct base; [by left | by right] |].
         split; [destruct base; by repeat constructor | exact Hso]. }
    split; try done. unfold btf_layout_of. destruct (layout b); [done |]. cbn.
    destruct base as [base|]; [|done]. apply base_layout_bytes, Hst.
  - split; [|done| | |].
    + split; try done; [by left |]. destruct add_layout, base; by repeat constructor.
    + cbn. destruct add_layout; [|done]. by repeat split; auto.
    + destruct base; done.
    + destruct add_layout, base; done.
Qed.
