(* ===== verification/BtfWrite.v ===== *)
(** * BtfWrite: building and changing BTF objects ([src/src/btf.c])

    The operations that make an object modifiable, add strings and append types,
    members, values and parameters: [btf_ensure_modifiable], [btf__find_str],
    [btf__add_str] and the [btf__add_*] family.

    An operation takes the object and the outcomes of its allocations and gives the
    value the C function returns, the object afterwards (also on errors) and the
    allocation outcomes left; [None] is undefined behaviour.  A string argument is
    [None] for the null pointer; it does not point into the object's own memory.
    Adding to an object can change the representation of its base (it becomes
    modifiable too), so the base inside the object is updated.  What is written to
    reserved memory before it is committed is not part of the state: the words of a
    type are added to [types_data] when the type is committed. *)
From S2P Require Import Prelude Hashmap Mem Strset BtfTypes Btf BtfFind BtfParse BtfRaw.
Open Scope Z_scope.

Definition btf_res : Type := option (Z * btf * oracle).

(** Continue after a step unless it returned an error. *)
Definition step (m : btf_res) (k : Z -> btf -> oracle -> btf_res) : btf_res :=
  '(r, b, o) ← m; if r <? 0 then Some (r, b, o) else k r b o.

Notation "'let!' r ',' b ',' o ':=' m 'in' k" := (step m (fun r b o => k))
  (at level 10, r name, b name, o name, k at level 200).

(** ** Setters *)
Definition set_base (b : btf) (base : option btf) : btf :=
  Btf (hdr b) (raw_data b) (raw_data_swapped b) (raw_size b) (swapped_endian b) (types_data b)
    (types_data_cap b) (type_offs b) (type_offs_cap b) (nr_types b) (named_start_id b) base
    (start_id b) (start_str_off b) (strs_data b) (strs_set b) (strs_deduped b) (modifiable b)
    (has_hdr_extra b) (layout b) (ptr_sz b).

(** The string set, with the header field that counts its bytes. *)
Definition set_strs (b : btf) (set : strset) (len : Z) : btf :=
  let h := hdr b in
  Btf (BtfHeader (hdr_magic h) (hdr_version h) (hdr_flags h) (hdr_len h) (type_off h) (type_len h)
         (str_off h) len (layout_off h) (layout_len h))
    (raw_data b) (raw_data_swapped b) (raw_size b) (swapped_endian b) (types_data b)
    (types_data_cap b) (type_offs b) (type_offs_cap b) (nr_types b) (named_start_id b) (base_btf b)
    (start_id b) (start_str_off b) (strs_data b) (Some set) (strs_deduped b) (modifiable b)
    (has_hdr_extra b) (layout b) (ptr_sz b).

(** ** Making an object modifiable *)
Definition btf_invalidate_raw_data (b : btf) : btf :=
  set_named_start_id (set_cache b None None (raw_size b) (swapped_endian b)) 0.

Definition str_is_empty (s : option (list Z)) : bool :=
  match s with None | Some [] => true | _ => false end.

(** The object split into its regions. *)
Definition make_modifiable (b : btf) (set : strset) (lay : option (list btf_layout)) : btf :=
  let deduped := strs_deduped b || (str_len (hdr b) =? 0) ||
                 (match base_btf b with None => true | Some _ => false end && (str_len (hdr b) =? 1)) in
  btf_invalidate_raw_data
    (Btf (hdr b) (raw_data b) (raw_data_swapped b) (raw_size b) (swapped_endian b) (types_data b)
       (type_len (hdr b)) (type_offs b) (type_offs_cap b) (nr_types b) (named_start_id b) (base_btf b)
       (start_id b) (start_str_off b) None (Some set) deduped true (has_hdr_extra b)
       (match lay with Some _ => lay | None => layout b end) (ptr_sz b)).

Definition btf_ensure_modifiable (b : btf) (o : oracle) : btf_res :=
  if modifiable b then Some (0, btf_invalidate_raw_data b, o) else
  if has_hdr_extra b then Some (- EOPNOTSUPP, b, o) else
  let '(ok, o) := alloc o in
  if negb ok then Some (- ENOMEM, b, o) else
  let '(ok, o) := if layout_len (hdr b) =? 0 then (true, o) else alloc o in
  if negb ok then Some (- ENOMEM, b, o) else
  lay ← (if layout_len (hdr b) =? 0 then Some None
         else raw ← raw_data b;
              bs ← slice raw (hdr_len (hdr b) + layout_off (hdr b)) (layout_len (hdr b));
              Some (Some (layouts_of_bytes bs)));
  strs ← strs_data b;
  strs ← slice strs 0 (str_len (hdr b));
  '(r, o) ← strset__new BTF_MAX_STR_OFFSET (Some strs) o;
  match r with
  | Err e => Some (- e, b, o)
  | Ok set => Some (0, make_modifiable b set lay, o)
  end.

(** ** Strings *)

(** [move] does not matter to a string outside the set's memory. *)
Fixpoint btf__find_str (b : btf) (s : list Z) (o : oracle) : btf_res :=
  let own (b : btf) (o : oracle) : btf_res :=
    let! _, b, o := btf_ensure_modifiable b o in
    set ← strs_set b;
    '(off, set, o) ← strset__find_str set (PtrExt s) true o;
    let b := set_strs b set (str_len (hdr b)) in
    if off <? 0 then Some (off, b, o) else Some (s32 (start_str_off b + off), b, o) in
  match base_btf b with
  | None => own b o
  | Some base =>
      '(off, base, o) ← btf__find_str base s o;
      let b := set_base b (Some base) in
      if negb (off =? - ENOENT) then Some (off, b, o) else own b o
  end.

Definition btf__add_str (b : btf) (s : list Z) (o : oracle) : btf_res :=
  let own (b : btf) (o : oracle) : btf_res :=
    let! _, b, o := btf_ensure_modifiable b o in
    set ← strs_set b;
    '(off, set, o) ← strset__add_str set (PtrExt s) true o;
    if off <? 0 then Some (off, set_strs b set (str_len (hdr b)), o) else
    let b := set_strs b set (u32 (strset__data_size set)) in
    Some (s32 (start_str_off b + off), b, o) in
  match base_btf b with
  | None => own b o
  | Some base =>
      '(off, base, o) ← btf__find_str base s o;
      let b := set_base b (Some base) in
      if negb (off =? - ENOENT) then Some (off, b, o) else own b o
  end.

(** The offset of an optional name: 0 when there is none. *)
Definition add_name (b : btf) (name : option (list Z)) (o : oracle) : btf_res :=
  if str_is_empty name then Some (0, b, o) else s ← name; btf__add_str b s o.

(** ** Memory for types *)
Definition btf_type_info (kind vlen kflag : Z) : Z :=
  u32 (Z.lor (Z.lor (Z.shiftl kflag 31) (Z.shiftl kind 24)) vlen).

(** Room for [add_sz] more bytes of types: 0 or [-ENOMEM]. *)
Definition btf_add_type_mem (b : btf) (add_sz : Z) (o : oracle) : btf_res :=
  let r := libbpf_add_mem 0 [] (types_data_cap b) 1 (type_len (hdr b)) UINT32_MAX add_sz o in
  let b := set_types b (types_data b) (am_cap r) (type_offs b) (type_offs_cap b) (nr_types b) in
  Some (match am_pos r with Some _ => 0 | None => - ENOMEM end, b, am_oracle r).

(** The header after [type_len] changed to [new_len]. *)
Definition hdr_update_type_len (h : btf_header) (has_layout : bool) (new_len : Z) : btf_header :=
  let layout_off' := if has_layout then u32 (type_off h + new_len) else layout_off h in
  let str_off' := if has_layout then u32 (layout_off' + layout_len h) else u32 (type_off h + new_len) in
  BtfHeader (hdr_magic h) (hdr_version h) (hdr_flags h) (hdr_len h) (type_off h) new_len
    str_off' (str_len h) layout_off' (layout_len h).

Definition btf_hdr_update_type_len (b : btf) (new_len : Z) : btf :=
  set_hdr b (hdr_update_type_len (hdr b) (match layout b with Some _ => true | None => false end)
               (u32 new_len)).

Definition btf_add_type_idx_entry (b : btf) (type_off : Z) (o : oracle) : btf_res :=
  match btf_add_type_offs_mem (nr_types b) (type_offs_cap b) 1 o with
  | (None, o) => Some (- ENOMEM, b, o)
  | (Some cap, o) =>
      Some (0, set_types b (types_data b) (types_data_cap b) (type_offs b ++ [type_off]) cap (nr_types b), o)
  end.

(** Commits the words [ws] of a new type, written after the types in use. *)
Definition btf_commit_type (b : btf) (ws : list Z) (o : oracle) : btf_res :=
  let! _, b, o := btf_add_type_idx_entry b (type_len (hdr b)) o in
  let b := btf_hdr_update_type_len b (type_len (hdr b) + 4 * zlen ws) in
  let b := set_types b (types_data b ++ ws) (types_data_cap b) (type_offs b) (type_offs_cap b)
             (u32 (nr_types b + 1)) in
  Some (s32 (start_id b + nr_types b - 1), b, o).

(** ** Appending types *)

(** The common steps of the functions that append a type: make the object
    modifiable, reserve memory, add the name and commit the words. *)
Definition append_type (b : btf) (sz : Z) (name : option (list Z)) (words : Z -> list Z) (o : oracle) : btf_res :=
  let! _, b, o := btf_ensure_modifiable b o in
  let! _, b, o := btf_add_type_mem b sz o in
  let! name_off, b, o := add_name b name o in
  btf_commit_type b (words name_off) o.

Definition kindz (k : btf_kind_t) : Z := Z_of_kind k.

Definition BTF_INT_SIGNED : Z := 1.
Definition BTF_INT_CHAR : Z := 2.
Definition BTF_INT_BOOL : Z := 4.

(** [x & ~mask] for a C [int] [x]. *)
Definition andn (x mask : Z) : Z := Z.land x (Z.lnot mask).

Definition btf__add_int (b : btf) (name : option (list Z)) (byte_sz encoding : Z) (o : oracle) : btf_res :=
  if str_is_empty name then Some (- EINVAL, b, o) else
  if (byte_sz =? 0) || negb (Z.land byte_sz (u64 (byte_sz - 1)) =? 0) || (16 <? byte_sz)
  then Some (- EINVAL, b, o) else
  if negb (andn encoding (Z.lor (Z.lor BTF_INT_SIGNED BTF_INT_CHAR) BTF_INT_BOOL) =? 0)
  then Some (- EINVAL, b, o) else
  append_type b 16 name (fun name_off =>
    [name_off; btf_type_info (kindz BTF_KIND_INT) 0 0; byte_sz;
     Z.lor (Z.shiftl encoding 24) (byte_sz * 8)]) o.

Definition btf__add_float (b : btf) (name : option (list Z)) (byte_sz : Z) (o : oracle) : btf_res :=
  if str_is_empty name then Some (- EINVAL, b, o) else
  if negb (byte_sz =? 2) && negb (byte_sz =? 4) && negb (byte_sz =? 8) && negb (byte_sz =? 12) &&
     negb (byte_sz =? 16) then Some (- EINVAL, b, o) else
  append_type b 12 name (fun name_off =>
    [name_off; btf_type_info (kindz BTF_KIND_FLOAT) 0 0; byte_sz]) o.

(** [id] is a C [int]; compared with the unsigned limit a negative one is large. *)
Definition validate_type_id (id : Z) : Z :=
  if (id <? 0) || (BTF_MAX_NR_TYPES <? u32 id) then - EINVAL else 0.

Definition bad_id (id : Z) : bool := negb (validate_type_id id =? 0).

Definition btf_add_ref_kind (b : btf) (kind : btf_kind_t) (name : option (list Z)) (ref_type_id kflag : Z)
    (o : oracle) : btf_res :=
  if bad_id ref_type_id then Some (- EINVAL, b, o) else
  append_type b 12 name (fun name_off => [name_off; btf_type_info (kindz kind) 0 kflag; ref_type_id]) o.

Definition btf__add_ptr (b : btf) (ref_type_id : Z) (o : oracle) : btf_res :=
  btf_add_ref_kind b BTF_KIND_PTR None ref_type_id 0 o.

Definition btf__add_array (b : btf) (index_type_id elem_type_id nr_elems : Z) (o : oracle) : btf_res :=
  if bad_id index_type_id || bad_id elem_type_id then Some (- EINVAL, b, o) else
  append_type b 24 None (fun _ =>
    [0; btf_type_info (kindz BTF_KIND_ARRAY) 0 0; 0; elem_type_id; index_type_id; nr_elems]) o.

Definition btf_add_composite (b : btf) (kind : btf_kind_t) (name : option (list Z)) (bytes_sz : Z)
    (o : oracle) : btf_res :=
  append_type b 12 name (fun name_off => [name_off; btf_type_info (kindz kind) 0 0; bytes_sz]) o.

Definition btf__add_struct (b : btf) (name : option (list Z)) (byte_sz : Z) (o : oracle) : btf_res :=
  btf_add_composite b BTF_KIND_STRUCT name byte_sz o.
Definition btf__add_union (b : btf) (name : option (list Z)) (byte_sz : Z) (o : oracle) : btf_res :=
  btf_add_composite b BTF_KIND_UNION name byte_sz o.

Definition btf_add_enum_common (b : btf) (name : option (list Z)) (byte_sz : Z) (is_signed : bool)
    (kind : btf_kind_t) (o : oracle) : btf_res :=
  if (byte_sz =? 0) || negb (Z.land byte_sz (u32 (byte_sz - 1)) =? 0) || (8 <? byte_sz)
  then Some (- EINVAL, b, o) else
  append_type b 12 name (fun name_off =>
    [name_off; btf_type_info (kindz kind) 0 (Z.b2z is_signed); byte_sz]) o.

Definition btf__add_enum (b : btf) (name : option (list Z)) (byte_sz : Z) (o : oracle) : btf_res :=
  btf_add_enum_common b name byte_sz false BTF_KIND_ENUM o.
Definition btf__add_enum64 (b : btf) (name : option (list Z)) (byte_sz : Z) (is_signed : bool)
    (o : oracle) : btf_res :=
  btf_add_enum_common b name byte_sz is_signed BTF_KIND_ENUM64 o.

(** ** Changing the last type *)
Definition btf_last_type (b : btf) : option btf_type := btf_type_by_id b (btf__type_cnt b - 1).

(** [t->info = info] for the own type [id]. *)
Definition set_type_info (b : btf) (id info : Z) : option btf :=
  off ← znth (type_offs b) (id - start_id b);
  if off / 4 + 1 <? zlen (types_data b)
  then Some (set_types b (zupd (types_data b) (off / 4 + 1) info) (types_data_cap b) (type_offs b)
               (type_offs_cap b) (nr_types b))
  else None.

(** The new [info] word, or an error. *)
Definition btf_type_inc_vlen (t : btf_type) : result Z :=
  if btf_vlen t =? BTF_MAX_VLEN then Err ENOSPC
  else Ok (btf_type_info (kindz (btf_kind t)) (btf_vlen t + 1) (Z.b2z (btf_kflag t))).

(** The common steps of the functions that append an element to the last type: make
    the object modifiable, reserve memory, add the name, change the [info] word of
    the type and count the words of the element to the type section. *)
Definition append_elem (b : btf) (sz : Z) (name : option (list Z)) (words : Z -> list Z)
    (update : btf_type -> result Z) (o : oracle) : btf_res :=
  let! _, b, o := btf_ensure_modifiable b o in
  let! _, b, o := btf_add_type_mem b sz o in
  let! name_off, b, o := add_name b name o in
  t ← btf_last_type b;
  match update t with
  | Err e => Some (- e, b, o)
  | Ok info =>
      b ← set_type_info b (btf__type_cnt b - 1) info;
      let b := btf_hdr_update_type_len b (type_len (hdr b) + sz) in
      Some (0, set_types b (types_data b ++ words name_off) (types_data_cap b) (type_offs b)
                 (type_offs_cap b) (nr_types b), o)
  end.

Definition is_kind (t : btf_type) (k : btf_kind_t) : bool := bool_decide (btf_kind t = k).

Definition btf__add_field (b : btf) (name : option (list Z)) (type_id bit_offset bit_size : Z)
    (o : oracle) : btf_res :=
  if nr_types b =? 0 then Some (- EINVAL, b, o) else
  t ← btf_last_type b;
  if negb (btf_is_composite t) then Some (- EINVAL, b, o) else
  if btf_vlen t =? BTF_MAX_VLEN then Some (- ENOSPC, b, o) else
  if bad_id type_id then Some (- EINVAL, b, o) else
  let is_bitfield := negb (bit_size =? 0) || negb (bit_offset mod 8 =? 0) in
  if is_bitfield && ((bit_size =? 0) || (255 <? bit_size) || (16777215 <? bit_offset))
  then Some (- EINVAL, b, o) else
  if btf_is_union t && negb (bit_offset =? 0) then Some (- EINVAL, b, o) else
  append_elem b 12 name (fun name_off => [name_off; type_id; Z.lor bit_offset (u32 (Z.shiftl bit_size 24))])
    (fun t => Ok (btf_type_info (kindz (btf_kind t)) (btf_vlen t + 1) (Z.b2z (is_bitfield || btf_kflag t)))) o.

Definition btf__add_enum_value (b : btf) (name : option (list Z)) (value : Z) (o : oracle) : btf_res :=
  if nr_types b =? 0 then Some (- EINVAL, b, o) else
  t ← btf_last_type b;
  if negb (is_kind t BTF_KIND_ENUM) then Some (- EINVAL, b, o) else
  if str_is_empty name then Some (- EINVAL, b, o) else
  if (value <? INT_MIN) || (UINT_MAX <? value) then Some (- E2BIG, b, o) else
  append_elem b 8 name (fun name_off => [name_off; u32 value])
    (fun t => match btf_type_inc_vlen t with
              | Err e => Err e
              | Ok info =>
                  if value <? 0
                  then Ok (btf_type_info (BTF_INFO_KIND info) (BTF_INFO_VLEN info) 1)
                  else Ok info
              end) o.

Definition btf__add_enum64_value (b : btf) (name : option (list Z)) (value : Z) (o : oracle) : btf_res :=
  if nr_types b =? 0 then Some (- EINVAL, b, o) else
  t ← btf_last_type b;
  if negb (is_kind t BTF_KIND_ENUM64) then Some (- EINVAL, b, o) else
  if str_is_empty name then Some (- EINVAL, b, o) else
  append_elem b 12 name (fun name_off => [name_off; u32 value; Z.shiftr value 32]) btf_type_inc_vlen o.

Inductive btf_fwd_kind := BTF_FWD_STRUCT | BTF_FWD_UNION | BTF_FWD_ENUM | BTF_FWD_OTHER.

Definition btf__add_fwd (b : btf) (name : option (list Z)) (fwd_kind : btf_fwd_kind) (o : oracle) : btf_res :=
  if str_is_empty name then Some (- EINVAL, b, o) else
  let ref (kflag : Z) : btf_res :=
    '(id, b, o) ← btf_add_ref_kind b BTF_KIND_FWD name 0 0 o;
    if id <=? 0 then Some (id, b, o) else
    b ← set_type_info b id (btf_type_info (kindz BTF_KIND_FWD) 0 kflag);
    Some (id, b, o) in
  match fwd_kind with
  | BTF_FWD_STRUCT => ref 0
  | BTF_FWD_UNION => ref 1
  | BTF_FWD_ENUM => btf__add_enum b name 4 o
  | BTF_FWD_OTHER => Some (- EINVAL, b, o)
  end.

Definition btf__add_typedef (b : btf) (name : option (list Z)) (ref_type_id : Z) (o : oracle) : btf_res :=
  if str_is_empty name then Some (- EINVAL, b, o) else
  btf_add_ref_kind b BTF_KIND_TYPEDEF name ref_type_id 0 o.
Definition btf__add_volatile (b : btf) (ref_type_id : Z) (o : oracle) : btf_res :=
  btf_add_ref_kind b BTF_KIND_VOLATILE None ref_type_id 0 o.
Definition btf__add_const (b : btf) (ref_type_id : Z) (o : oracle) : btf_res :=
  btf_add_ref_kind b BTF_KIND_CONST None ref_type_id 0 o.
Definition btf__add_restrict (b : btf) (ref_type_id : Z) (o : oracle) : btf_res :=
  btf_add_ref_kind b BTF_KIND_RESTRICT None ref_type_id 0 o.
Definition btf__add_type_tag (b : btf) (value : option (list Z)) (ref_type_id : Z) (o : oracle) : btf_res :=
  if str_is_empty value then Some (- EINVAL, b, o) else
  btf_add_ref_kind b BTF_KIND_TYPE_TAG value ref_type_id 0 o.
Definition btf__add_type_attr (b : btf) (value : option (list Z)) (ref_type_id : Z) (o : oracle) : btf_res :=
  if str_is_empty value then Some (- EINVAL, b, o) else
  btf_add_ref_kind b BTF_KIND_TYPE_TAG value ref_type_id 1 o.

(** [linkage] is one of [BTF_FUNC_STATIC], [BTF_FUNC_GLOBAL] and [BTF_FUNC_EXTERN]. *)
Definition btf__add_func (b : btf) (name : option (list Z)) (linkage proto_type_id : Z) (o : oracle) : btf_res :=
  if str_is_empty name then Some (- EINVAL, b, o) else
  if negb (linkage =? 0) && negb (linkage =? 1) && negb (linkage =? 2) then Some (- EINVAL, b, o) else
  '(id, b, o) ← btf_add_ref_kind b BTF_KIND_FUNC name proto_type_id 0 o;
  if 0 <? id then
    b ← set_type_info b id (btf_type_info (kindz BTF_KIND_FUNC) linkage 0);
    Some (id, b, o)
  else Some (id, b, o).

Definition btf__add_func_proto (b : btf) (ret_type_id : Z) (o : oracle) : btf_res :=
  if bad_id ret_type_id then Some (- EINVAL, b, o) else
  append_type b 12 None (fun _ => [0; btf_type_info (kindz BTF_KIND_FUNC_PROTO) 0 0; ret_type_id]) o.

Definition btf__add_func_param (b : btf) (name : option (list Z)) (type_id : Z) (o : oracle) : btf_res :=
  if bad_id type_id then Some (- EINVAL, b, o) else
  if nr_types b =? 0 then Some (- EINVAL, b, o) else
  t ← btf_last_type b;
  if negb (is_kind t BTF_KIND_FUNC_PROTO) then Some (- EINVAL, b, o) else
  append_elem b 8 name (fun name_off => [name_off; type_id]) btf_type_inc_vlen o.

Definition btf__add_var (b : btf) (name : option (list Z)) (linkage type_id : Z) (o : oracle) : btf_res :=
  if str_is_empty name then Some (- EINVAL, b, o) else
  if negb (linkage =? 0) && negb (linkage =? 1) && negb (linkage =? 2) then Some (- EINVAL, b, o) else
  if bad_id type_id then Some (- EINVAL, b, o) else
  append_type b 16 name (fun name_off =>
    [name_off; btf_type_info (kindz BTF_KIND_VAR) 0 0; type_id; linkage]) o.

Definition btf__add_datasec (b : btf) (name : option (list Z)) (byte_sz : Z) (o : oracle) : btf_res :=
  if str_is_empty name then Some (- EINVAL, b, o) else
  append_type b 12 name (fun name_off => [name_off; btf_type_info (kindz BTF_KIND_DATASEC) 0 0; byte_sz]) o.

Definition btf__add_datasec_var_info (b : btf) (var_type_id offset byte_sz : Z) (o : oracle) : btf_res :=
  if nr_types b =? 0 then Some (- EINVAL, b, o) else
  t ← btf_last_type b;
  if negb (is_kind t BTF_KIND_DATASEC) then Some (- EINVAL, b, o) else
  if bad_id var_type_id then Some (- EINVAL, b, o) else
  append_elem b 12 None (fun _ => [var_type_id; offset; byte_sz]) btf_type_inc_vlen o.

Definition btf_add_decl_tag (b : btf) (value : option (list Z)) (ref_type_id component_idx kflag : Z)
    (o : oracle) : btf_res :=
  if str_is_empty value || (component_idx <? -1) then Some (- EINVAL, b, o) else
  if bad_id ref_type_id then Some (- EINVAL, b, o) else
  append_type b 16 value (fun value_off =>
    [value_off; btf_type_info (kindz BTF_KIND_DECL_TAG) 0 kflag; ref_type_id; u32 component_idx]) o.

Definition btf__add_decl_tag (b : btf) (value : option (list Z)) (ref_type_id component_idx : Z)
    (o : oracle) : btf_res := btf_add_decl_tag b value ref_type_id component_idx 0 o.
Definition btf__add_decl_attr (b : btf) (value : option (list Z)) (ref_type_id component_idx : Z)
    (o : oracle) : btf_res := btf_add_decl_tag b value ref_type_id component_idx 1 o.

Definition btf__add_loc_param (b : btf) (byte_sz flags : Z) (o : oracle) : btf_res :=
  if (byte_sz =? 0) || (16 <? byte_sz) then Some (- EINVAL, b, o) else
  append_type b 16 None (fun _ => [0; btf_type_info (kindz BTF_KIND_LOC_PARAM) 0 0; byte_sz; flags]) o.

Definition btf__add_loc_param_value (b : btf) (value : Z) (o : oracle) : btf_res :=
  if nr_types b =? 0 then Some (- EINVAL, b, o) else
  t ← btf_last_type b;
  if negb (is_kind t BTF_KIND_LOC_PARAM) then Some (- EINVAL, b, o) else
  append_elem b 4 None (fun _ => [value]) btf_type_inc_vlen o.

Definition btf__add_loc_proto (b : btf) (o : oracle) : btf_res :=
  append_type b 12 None (fun _ => [0; btf_type_info (kindz BTF_KIND_LOC_PROTO) 0 0; 0]) o.

Definition btf__add_loc_proto_param (b : btf) (id : Z) (o : oracle) : btf_res :=
  if bad_id id then Some (- EINVAL, b, o) else
  if nr_types b =? 0 then Some (- EINVAL, b, o) else
  t ← btf_last_type b;
  if negb (is_kind t BTF_KIND_LOC_PROTO) then Some (- EINVAL, b, o) else
  append_elem b 4 None (fun _ => [id]) btf_type_inc_vlen o.

Definition btf__add_locsec (b : btf) (name : option (list Z)) (o : oracle) : btf_res :=
  if str_is_empty name then Some (- EINVAL, b, o) else
  append_type b 12 name (fun name_off => [name_off; btf_type_info (kindz BTF_KIND_LOCSEC) 0 0; 0]) o.

Definition btf__add_locsec_loc (b : btf) (func loc_proto offset : Z) (o : oracle) : btf_res :=
  if bad_id func || bad_id loc_proto then Some (- EINVAL, b, o) else
  if nr_types b =? 0 then Some (- EINVAL, b, o) else
  t ← btf_last_type b;
  if negb (is_kind t BTF_KIND_LOCSEC) then Some (- EINVAL, b, o) else
  append_elem b 12 None (fun _ => [func; loc_proto; offset]) btf_type_inc_vlen o.
