(* ===== verification/BtfBuild.v ===== *)
(** * BtfBuild: the operations of [BtfWrite] keep objects well formed

    An object is seen as the list of its types (each the list of its words) and its
    string section.  The theorems relate every operation to this view: making an
    object modifiable does not change it, adding a string extends the strings and
    gives an offset where the string is, appending a type appends its words, and
    appending an element to the last type extends its words and counts the element.
    Errors leave the types as they were. *)
From S2P Require Import Prelude Hashmap Mem Strset BtfTypes Btf BtfFind BtfParse BtfRaw BtfWrite.
Open Scope Z_scope.

(** ** Objects that look the same *)

(** The own part of what the queries see. *)
Record same_own (b b' : btf) : Prop := {
  own_hdr : hdr b' = hdr b;
  own_types : types_data b' = types_data b;
  own_offs : type_offs b' = type_offs b;
  own_nr : nr_types b' = nr_types b;
  own_start : start_id b' = start_id b;
  own_str_off : start_str_off b' = start_str_off b;
  own_strs : btf_strs_data b' = btf_strs_data b;
  own_layout : layout b' = layout b
}.

(** The same along the chain of base objects. *)
Fixpoint same_view (b b' : btf) : Prop :=
  same_own b b' /\
  match base_btf b, base_btf b' with
  | None, None => True
  | Some base, Some base' => same_view base base'
  | _, _ => False
  end.

Definition opt_view (base base' : option btf) : Prop :=
  match base, base' with
  | None, None => True
  | Some base, Some base' => same_view base base'
  | _, _ => False
  end.

Lemma same_view_unfold b b' : same_view b b' <-> same_own b b' /\ opt_view (base_btf b) (base_btf b').
Proof. by destruct b. Qed.

Lemma same_own_refl b : same_own b b.
Proof. by split. Qed.

Lemma same_own_trans b1 b2 b3 : same_own b1 b2 -> same_own b2 b3 -> same_own b1 b3.
Proof. intros [] []. split; congruence. Qed.

Lemma same_view_refl b : same_view b b.
Proof.
  induction b as [b IH] using btf_chain_ind. apply same_view_unfold. split; [apply same_own_refl |].
  unfold opt_view. destruct (base_btf b) as [base|]; [by apply IH | done].
Qed.

Lemma opt_view_refl base : opt_view base base.
Proof. destruct base; [apply same_view_refl | done]. Qed.

Lemma same_view_trans b1 b2 b3 : same_view b1 b2 -> same_view b2 b3 -> same_view b1 b3.
Proof.
  revert b2 b3. induction b1 as [b1 IH] using btf_chain_ind. intros b2 b3.
  rewrite (same_view_unfold b1), (same_view_unfold b2), (same_view_unfold b1). intros [H1 V1] [H2 V2].
  split; [by eapply same_own_trans |]. unfold opt_view in *.
  destruct (base_btf b1), (base_btf b2), (base_btf b3); try done. by eapply IH.
Qed.

Lemma opt_view_trans x y z : opt_view x y -> opt_view y z -> opt_view x z.
Proof. destruct x, y, z; try done. apply same_view_trans. Qed.

#[export] Instance same_view_preorder : PreOrder same_view.
Proof. split; [exact same_view_refl | exact same_view_trans]. Qed.

Lemma same_view_type b b' id : same_view b b' -> btf_type_by_id b' id = btf_type_by_id b id.
Proof.
  revert b'. induction b as [b IH] using btf_chain_ind. intros b' [[] V]%same_view_unfold.
  rewrite (btf_type_by_id_eq b'), (btf_type_by_id_eq b), own_types0, own_offs0, own_start0.
  unfold opt_view in V. destruct (base_btf b), (base_btf b'); try done. by rewrite (IH _ eq_refl _ V).
Qed.

Lemma same_view_str b b' off : same_view b b' -> btf__str_by_offset b' off = btf__str_by_offset b off.
Proof.
  revert b'. induction b as [b IH] using btf_chain_ind. intros b' [[] V]%same_view_unfold.
  rewrite (btf__str_by_offset_eq b'), (btf__str_by_offset_eq b), own_hdr0, own_str_off0, own_strs0.
  unfold opt_view in V. destruct (base_btf b), (base_btf b'); try done. by rewrite (IH _ eq_refl _ V).
Qed.

Lemma opt_view_layout base base' :
  opt_view base base' ->
  match base' with Some base => layout base | None => None end =
  match base with Some base => layout base | None => None end.
Proof. destruct base, base'; try done. cbn. by intros [[] _]%same_view_unfold. Qed.

Lemma same_view_layout b b' : same_view b b' -> btf_layout_of b' = btf_layout_of b.
Proof.
  intros [[] V]%same_view_unfold. unfold btf_layout_of. rewrite own_layout0. by rewrite (opt_view_layout _ _ V).
Qed.

Lemma same_view_types_ok b b' cs : same_view b b' -> types_ok b cs -> types_ok b' cs.
Proof.
  intros V [H1 H2 H3 H4 H5 H6 H7]. pose proof (same_view_layout b b' V) as Hl.
  apply same_view_unfold in V as [[] _]. split; rewrite ?Hl, ?own_hdr0, ?own_types0, ?own_offs0, ?own_nr0; done.
Qed.

Lemma same_view_ok b b' : same_view b b' -> btf_ok b -> btf_ok b'.
Proof.
  revert b'. induction b as [b IH] using btf_chain_ind. intros b' V Hok.
  apply btf_ok_unfold in Hok as ([cs Hcs] & Hs & H1 & H2 & Hb).
  pose proof (same_view_types_ok b b' cs V Hcs) as Hcs'. apply same_view_unfold in V as [[] V].
  apply (btf_ok_intro b' cs Hcs'); unfold strs_ok; rewrite ?own_hdr0, ?own_strs0, ?own_str_off0, ?own_start0, ?own_nr0; try done.
  unfold opt_view in V. destruct (base_btf b) as [base|], (base_btf b') as [base'|]; try done.
  destruct Hb as (Hb & H3 & H4). split; [by apply (IH base) |].
  apply same_view_unfold in V as [[] _]. by rewrite own_start1, own_nr1, own_str_off1, own_hdr1.
Qed.

(** ** The representation of the sections *)

(** Not modifiable: the sections lie in the raw data.  Modifiable: the strings are a
    set.  The memory for types never exceeds what [type_len] can count. *)
Definition own_rep_ok (b : btf) : Prop :=
  type_len (hdr b) <= UINT32_MAX /\
  if modifiable b then
    types_data_cap b <= UINT32_MAX /\
    strs_data b = None /\ exists set f, strs_set b = Some set /\ strset_repr set f
  else
    (exists strs, strs_data b = Some strs) /\ str_len (hdr b) <= INT_MAX /\
    (layout_len (hdr b) <> 0 -> exists raw bs, raw_data b = Some raw /\
       slice raw (hdr_len (hdr b) + layout_off (hdr b)) (layout_len (hdr b)) = Some bs /\
       layout b = Some (layouts_of_bytes bs)).

Fixpoint rep_ok (b : btf) : Prop :=
  own_rep_ok b /\ match base_btf b with Some base => rep_ok base | None => True end.

Lemma rep_ok_unfold b :
  rep_ok b <-> own_rep_ok b /\ (forall base, base_btf b = Some base -> rep_ok base).
Proof.
  destruct b as [? ? ? ? ? ? ? ? ? ? ? [base|] ? ? ? ? ? ? ? ? ?]; cbn [rep_ok base_btf];
    (split; intros [H1 H2]; (split; [done |])); [by intros ? [= <-] | by apply H2 | done..].
Qed.

(** ** Making an object modifiable *)
Lemma btf_ensure_modifiable_spec b o :
  btf_ok b -> rep_ok b ->
  exists r b' o', btf_ensure_modifiable b o = Some (r, b', o') /\ same_view b b' /\ rep_ok b' /\
    (r = 0 /\ modifiable b' = true /\ raw_data b' = None /\ raw_data_swapped b' = None \/
     r = - ENOMEM /\ b' = b \/ r = - EOPNOTSUPP /\ b' = b /\ has_hdr_extra b = true).
Proof.
  intros Hok Hrep. pose proof Hrep as [[Htl Hown] Hbase]%rep_ok_unfold.
  assert (Hinv : forall b1, same_own b1 (btf_invalidate_raw_data b1)) by (intros; by split).
  unfold btf_ensure_modifiable. destruct (modifiable b) eqn:Hm.
  { do 3 eexists. split; [reflexivity |]. split; [apply same_view_unfold; split; [apply Hinv | apply opt_view_refl] |].
    split; [|left; by rewrite <- Hm]. apply rep_ok_unfold. split; [|done]. unfold own_rep_ok. cbn. by rewrite Hm. }
  destruct Hown as ([strs Hs] & Hmax & Hlay).
  assert (Herr : forall r (o' : oracle), r = - ENOMEM \/ r = - EOPNOTSUPP /\ has_hdr_extra b = true ->
    exists r' b' o'', Some (r, b, o') = Some (r', b', o'') /\ same_view b b' /\ rep_ok b' /\
    (r' = 0 /\ modifiable b' = true /\ raw_data b' = None /\ raw_data_swapped b' = None \/
     r' = - ENOMEM /\ b' = b \/ r' = - EOPNOTSUPP /\ b' = b /\ has_hdr_extra b = true)).
  { intros r o' Hr. do 3 eexists. split; [reflexivity |]. split; [reflexivity |]. split; [done |]. tauto. }
  destruct (has_hdr_extra b) eqn:He; [apply Herr; by right |].
  destruct (alloc o) as [[] o1]; cbn [negb]; [|apply Herr; by left].
  destruct (if layout_len (hdr b) =? 0 then (true, o1) else alloc o1) as [[] o2]; cbn [negb]; [|apply Herr; by left].
  pose proof (btf_ok_unfold b Hok) as (_ & (Hz & Hterm & _) & _).
  assert (Hd : btf_strs_data b = strs) by (unfold btf_strs_data; by rewrite Hs). rewrite Hd in *.
  assert (Hl : exists lay, (if layout_len (hdr b) =? 0 then Some None
         else raw ← raw_data b;
              bs ← slice raw (hdr_len (hdr b) + layout_off (hdr b)) (layout_len (hdr b));
              Some (Some (layouts_of_bytes bs))) = Some lay /\
      match lay with Some _ => lay | None => layout b end = layout b).
  { destruct (layout_len (hdr b) =? 0) eqn:E0; [by exists None |].
    destruct Hlay as (raw & bs & -> & Hsl & Hl); [lia |]. cbn [mbind option_bind]. rewrite Hsl.
    by exists (Some (layouts_of_bytes bs)). }
  destruct Hl as (lay & -> & Hl). cbn [mbind option_bind]. rewrite Hs. cbn [mbind option_bind].
  rewrite <- Hz, slice_all. cbn [mbind option_bind].
  destruct (strset_new_any BTF_MAX_STR_OFFSET strs o2) as (r & o3 & -> & Hr);
    [done | lia | destruct Hterm as [Ht|Ht]; [left | by right] |].
  { rewrite Ht in Hz. destruct strs; [done |]. rewrite zlen_cons in Hz. pose proof (zlen_nonneg strs). lia. }
  cbn [mbind option_bind]. destruct r as [set|e]; [|apply Herr; left; by destruct Hr as [-> _]].
  destruct Hr as (Hr & Hsd & _). do 3 eexists. split; [reflexivity |].
  split; [|split; [|by left]].
  - apply same_view_unfold. split; [|apply opt_view_refl]. split; try done.
    cbn. by rewrite Hd, Hsd.
  - apply rep_ok_unfold. split; [|done]. split; [exact Htl |]. cbn. split; [done |]. split; [done |].
    by exists set, (first_offset strs).
Qed.

(** ** Strings *)

(** The string at an offset. *)
Definition string_at (b : btf) (off : Z) (s : list Z) : Prop :=
  exists p, btf__str_by_offset b off = Some p /\ cstr p = Some s.

(** The bytes of a string argument. *)
Definition str_arg (s : list Z) : Prop := Forall (fun c => 0 < c < 256) s /\ zlen s <= INT_MAX.

Lemma str_arg_denotes set s : str_arg s -> str_denotes set (PtrExt s) s.
Proof.
  intros [Hs Hz]. split; [done |]. split; [|unfold INT_MAX in *; lia].
  eapply Forall_impl; [exact Hs |]. cbn. lia.
Qed.

Lemma str_arg_bytes s : str_arg s -> Forall is_byte (s ++ [0]).
Proof.
  intros [Hs _]. apply Forall_app. split; [|by repeat constructor].
  eapply Forall_impl; [exact Hs |]. cbn. unfold is_byte. lia.
Qed.

Lemma same_view_string_at b b' off s : same_view b b' -> string_at b' off s <-> string_at b off s.
Proof. intros V. unfold string_at. by rewrite (same_view_str b b' off V). Qed.

(** A string of the own section. *)
Lemma own_string_at b off s :
  strs_ok b -> cstr_at (btf_strs_data b) off = Some s -> start_str_off b + str_len (hdr b) <= INT_MAX ->
  string_at b (start_str_off b + off) s.
Proof.
  intros (Hz & _ & _ & Hr) Hs Hm. pose proof (cstr_at_range _ _ _ Hs). pose proof (zlen_nonneg s).
  unfold cstr_at in Hs. case_if_in Hs; [done |]. exists (zdrop off (btf_strs_data b)). split; [|done].
  unfold INT_MAX in *. rewrite btf__str_by_offset_eq. replace (_ <? start_str_off b) with false by lia.
  replace (start_str_off b + off - start_str_off b) with off by lia. rewrite u32_small by lia.
  by replace (off <? str_len (hdr b)) with true by lia.
Qed.

(** Strings of the base are seen from above. *)
Lemma base_string_at b base off s :
  btf_ok b -> base_btf b = Some base -> 0 <= off < 2 ^ 32 -> string_at base off s -> string_at b off s.
Proof.
  intros Hok Hb Hoff (p & Hp & Hs). exists p. split; [|done]. rewrite <- Hp.
  apply btf_ok_unfold in Hok as (_ & _ & _ & _ & Hbase). rewrite Hb in Hbase. destruct Hbase as (Hbok & _ & Hso).
  pose proof (str_by_offset_range base off p Hbok Hoff Hp). apply str_by_offset_base; [done | lia].
Qed.

Definition find_result (b : btf) (s : list Z) (r : Z) : Prop :=
  (0 <= r <= INT_MAX /\ string_at b r s) \/ r = - ENOENT \/ r = - ENOMEM \/ r = - EOPNOTSUPP.

(** The set of a modifiable object. *)
Lemma rep_ok_set b :
  rep_ok b -> modifiable b = true ->
  exists set f, strs_set b = Some set /\ strset_repr set f /\ strs_data b = None /\
    btf_strs_data b = strset__data set.
Proof.
  intros [[_ Hown] _]%rep_ok_unfold Hm. rewrite Hm in Hown.
  destruct Hown as (_ & Hs & set & f & Hset & Hr). exists set, f. split_and!; try done.
  unfold btf_strs_data. by rewrite Hs, Hset.
Qed.

(** Replacing the set by one with the same data, and by one with more data. *)
Lemma set_strs_rep b set' f' len :
  rep_ok b -> modifiable b = true -> strset_repr set' f' -> rep_ok (set_strs b set' len).
Proof.
  intros [Hown Hbase]%rep_ok_unfold Hm Hr. apply rep_ok_unfold. split; [|done].
  unfold own_rep_ok in *. cbn [set_strs modifiable strs_data strs_set hdr type_len types_data_cap]. rewrite Hm in *.
  destruct Hown as (Hl & Hc & Hs & _). split_and!; try done. by exists set', f'.
Qed.

Lemma set_strs_same b set set' :
  strs_data b = None -> strs_set b = Some set -> strset__data set' = strset__data set ->
  same_view b (set_strs b set' (str_len (hdr b))).
Proof.
  intros Hs Hset Hd. apply same_view_unfold. split; [|apply opt_view_refl]. split; try done.
  - cbn. by destruct (hdr b).
  - unfold btf_strs_data. cbn. by rewrite Hs, Hset, Hd.
Qed.

(** The search in the own strings. *)
Definition find_own (s : list Z) (b : btf) (o : oracle) : btf_res :=
  let! _, b, o := btf_ensure_modifiable b o in
  set ← strs_set b;
  '(off, set, o) ← strset__find_str set (PtrExt s) true o;
  let b := set_strs b set (str_len (hdr b)) in
  if off <? 0 then Some (off, b, o) else Some (s32 (start_str_off b + off), b, o).

Lemma find_own_ok b s o :
  btf_ok b -> rep_ok b -> start_str_off b + str_len (hdr b) <= INT_MAX -> str_arg s ->
  exists r b' o', find_own s b o = Some (r, b', o') /\ same_view b b' /\ rep_ok b' /\ find_result b s r.
Proof.
  intros Hok Hrep Hmax Hs. unfold find_own.
  destruct (btf_ensure_modifiable_spec b o Hok Hrep) as (r & b1 & o1 & -> & V1 & Hrep1 & Hc). cbn [step mbind option_bind].
  destruct Hc as [(-> & Hm & _)|[(-> & ->)|(-> & -> & _)]]; cbn [Z.ltb Z.compare Z.opp].
  2,3: do 3 eexists; (split; [reflexivity |]); split; [done |]; split; [done |]; unfold find_result; tauto.
  destruct (rep_ok_set b1 Hrep1 Hm) as (set & f & Hset & Hr & Hsd & Hd). rewrite Hset. cbn [mbind option_bind].
  destruct (strset_find_str_ok set f (PtrExt s) s true o1 Hr (str_arg_denotes set s Hs))
    as (off & set' & o2 & -> & Hr' & Hd' & Hres). cbn [mbind option_bind].
  pose proof (set_strs_same b1 set set' Hsd Hset Hd') as V2.
  pose proof (set_strs_rep b1 set' f (str_len (hdr b1)) Hrep1 Hm Hr') as Hrep2.
  set (b2 := set_strs b1 set' (str_len (hdr b1))) in *.
  assert (V : same_view b b2) by (by transitivity b1).
  destruct (off <? 0) eqn:Hneg.
  - do 3 eexists. split; [reflexivity |]. split; [done |]. split; [done |]. unfold find_result.
    destruct Hres as [Hres|[-> _]]; [|tauto]. destruct (f s) as [x|] eqn:Hf; cbn in Hres; [|tauto].
    pose proof (repr_off_range set f s x Hr Hf). lia.
  - do 3 eexists. split; [reflexivity |]. split; [done |]. split; [done |]. left.
    destruct Hres as [Hres|[-> _]]; [|done]. destruct (f s) as [x|] eqn:Hf; [|subst off; done]. cbn in Hres. subst x.
    pose proof (same_view_ok b b2 V Hok) as Hok2. pose proof (btf_ok_unfold _ Hok2) as (_ & Hs2 & _).
    assert (Hd2 : btf_strs_data b2 = btf_strs_data b1) by (apply same_view_unfold in V2 as [[] _]; done).
    apply same_view_unfold in V as [[] _].
    assert (Hcs : cstr_at (btf_strs_data b2) off = Some s).
    { rewrite Hd2, Hd. destruct Hr as (_ & _ & Hrf & _). by apply Hrf. }
    pose proof (own_string_at b2 off s Hs2 Hcs) as Hat. rewrite own_hdr0, own_str_off0 in *.
    pose proof (cstr_at_range _ _ _ Hcs). pose proof (zlen_nonneg s). destruct Hs2 as (Hz & _ & _ & Hr2).
    rewrite own_hdr0, own_str_off0 in *. unfold INT_MAX in *. rewrite s32_small by lia. split; [lia |].
    rewrite <- (same_view_string_at b b2); [by apply Hat |]. transitivity b1; done.
Qed.

Lemma btf__find_str_eq b s o :
  btf__find_str b s o =
  match base_btf b with
  | None => find_own s b o
  | Some base =>
      '(off, base, o) ← btf__find_str base s o;
      let b := set_base b (Some base) in
      if negb (off =? - ENOENT) then Some (off, b, o) else find_own s b o
  end.
Proof. by destruct b. Qed.

(** The object with its base replaced by one that looks the same. *)
Lemma set_base_view b base base' :
  base_btf b = Some base -> same_view base base' -> same_view b (set_base b (Some base')).
Proof.
  intros Hb V. apply same_view_unfold. split; [by split |]. cbn [set_base base_btf]. by rewrite Hb.
Qed.

Lemma set_base_rep b base' : rep_ok b -> rep_ok base' -> rep_ok (set_base b (Some base')).
Proof. intros [Hown _]%rep_ok_unfold Hr. apply rep_ok_unfold. split; [exact Hown |]. by intros ? [= <-]. Qed.

(** The search through the chain. *)
Lemma btf_find_str_ok b s o :
  btf_ok b -> rep_ok b -> start_str_off b + str_len (hdr b) <= INT_MAX -> str_arg s ->
  exists r b' o', btf__find_str b s o = Some (r, b', o') /\ same_view b b' /\ rep_ok b' /\ find_result b s r.
Proof.
  revert o. induction b as [b IH] using btf_chain_ind. intros o Hok Hrep Hmax Hs. rewrite btf__find_str_eq.
  destruct (base_btf b) as [base|] eqn:Hb; [|by apply find_own_ok].
  pose proof (btf_ok_unfold b Hok) as (_ & (_ & _ & _ & Hr) & _ & _ & Hbase). rewrite Hb in Hbase.
  destruct Hbase as (Hbok & _ & Hso). pose proof Hrep as [Hown Hbrep]%rep_ok_unfold.
  destruct (IH base eq_refl o Hbok (Hbrep base Hb) ltac:(lia) Hs) as (r & base' & o1 & -> & V & Hrep' & Hres).
  cbn [mbind option_bind]. pose proof (set_base_view b base base' Hb V) as V1.
  pose proof (set_base_rep b base' Hrep Hrep') as Hrep1. set (b1 := set_base b (Some base')) in *.
  destruct (r =? - ENOENT) eqn:Hne; cbn [negb].
  - destruct (find_own_ok b1 s o1 (same_view_ok b b1 V1 Hok) Hrep1 Hmax Hs) as (r' & b2 & o2 & -> & V2 & Hrep2 & Hres2).
    do 3 eexists. split; [reflexivity |]. split; [by transitivity b1 |]. split; [done |].
    unfold find_result in *. destruct Hres2 as [[? Hres2]|Hres2]; [left; split; [done |] | by right].
    by rewrite <- (same_view_string_at b b1).
  - do 3 eexists. split; [reflexivity |]. split; [done |]. split; [done |]. unfold find_result in *.
    destruct Hres as [[? Hres]|Hres]; [left; split; [done |] | by right].
    apply (base_string_at b base); try done. unfold INT_MAX in *. lia.
Qed.

(** *** Adding a string *)
Definition hdr_with_str_len (h : btf_header) (len : Z) : btf_header :=
  BtfHeader (hdr_magic h) (hdr_version h) (hdr_flags h) (hdr_len h) (type_off h) (type_len h)
    (str_off h) len (layout_off h) (layout_len h).

(** [b'] is [b] with the bytes [k] added to the strings. *)
Record strs_grow (b b' : btf) (k : list Z) : Prop := {
  grow_hdr : hdr b' = hdr_with_str_len (hdr b) (str_len (hdr b) + zlen k);
  grow_types : types_data b' = types_data b;
  grow_offs : type_offs b' = type_offs b;
  grow_nr : nr_types b' = nr_types b;
  grow_start : start_id b' = start_id b;
  grow_str_off : start_str_off b' = start_str_off b;
  grow_strs : btf_strs_data b' = btf_strs_data b ++ k;
  grow_layout : layout b' = layout b;
  grow_base : opt_view (base_btf b) (base_btf b')
}.

Lemma hdr_with_same h : hdr_with_str_len h (str_len h) = h.
Proof. by destruct h. Qed.

Lemma same_view_grow b b' : same_view b b' <-> strs_grow b b' [].
Proof.
  rewrite same_view_unfold. split.
  - intros [[] V]. split; try done; [|by rewrite app_nil_r]. by rewrite zlen_nil, Z.add_0_r, hdr_with_same.
  - intros []. rewrite zlen_nil, Z.add_0_r, hdr_with_same in grow_hdr0. rewrite app_nil_r in grow_strs0. by split.
Qed.

Lemma strs_grow_trans b1 b2 b3 k1 k2 : strs_grow b1 b2 k1 -> strs_grow b2 b3 k2 -> strs_grow b1 b3 (k1 ++ k2).
Proof.
  intros [A1 A2 A3 A4 A5 A6 A7 A8 A9] [B1 B2 B3 B4 B5 B6 B7 B8 B9]. split; try congruence.
  - rewrite B1, A1, zlen_app. cbn [hdr_with_str_len str_len hdr_magic hdr_version hdr_flags hdr_len type_off type_len str_off layout_off layout_len].
    unfold hdr_with_str_len. f_equal. lia.
  - by rewrite B7, A7, app_assoc.
  - by eapply opt_view_trans.
Qed.

Lemma strs_grow_view b1 b2 b3 k : same_view b1 b2 -> strs_grow b2 b3 k -> strs_grow b1 b3 k.
Proof. intros V%same_view_grow G. exact (strs_grow_trans _ _ _ [] k V G). Qed.

Lemma strs_grow_types_ok b b' k cs : strs_grow b b' k -> types_ok b cs -> types_ok b' cs.
Proof.
  intros [A1 A2 A3 A4 A5 A6 A7 A8 A9] [H1 H2 H3 H4 H5 H6 H7].
  assert (Hl : btf_layout_of b' = btf_layout_of b).
  { unfold btf_layout_of. by rewrite A8, (opt_view_layout _ _ A9). }
  split; rewrite ?Hl, ?A1, ?A2, ?A3, ?A4; done.
Qed.

Lemma opt_view_chain_ok b b' :
  opt_view (base_btf b) (base_btf b') -> start_id b' = start_id b -> start_str_off b' = start_str_off b ->
  match base_btf b with
  | None => start_id b = 1 /\ start_str_off b = 0
  | Some base => btf_ok base /\ start_id b = start_id base + nr_types base /\
      start_str_off b = start_str_off base + str_len (hdr base)
  end ->
  match base_btf b' with
  | None => start_id b' = 1 /\ start_str_off b' = 0
  | Some base => btf_ok base /\ start_id b' = start_id base + nr_types base /\
      start_str_off b' = start_str_off base + str_len (hdr base)
  end.
Proof.
  intros V -> ->. unfold opt_view in V. destruct (base_btf b) as [base|], (base_btf b') as [base'|]; try done.
  intros (Hok & H1 & H2). pose proof (same_view_ok base base' V Hok). apply same_view_unfold in V as [[] _].
  rewrite own_start0, own_nr0, own_str_off0, own_hdr0. done.
Qed.

Lemma strs_grow_ok b b' k :
  strs_grow b b' k -> btf_ok b -> Forall is_byte k -> (k = [] \/ last k = Some 0) -> btf_ok b'.
Proof.
  intros G Hok Hk Hl. apply btf_ok_unfold in Hok as ([cs Hcs] & (Hz & Hterm & Hby & Hr) & H1 & H2 & Hb).
  pose proof (strs_grow_types_ok _ _ _ _ G Hcs) as Hcs'. destruct G as [A1 A2 A3 A4 A5 A6 A7 A8 A9].
  apply (btf_ok_intro b' cs Hcs'); rewrite ?A5, ?A4; try done.
  - unfold strs_ok. rewrite A1, A6, A7, zlen_app, Hz. cbn [hdr_with_str_len str_len].
    split_and!; try (done || lia); [|by apply Forall_app].
    destruct Hl as [->|Hl]; [by rewrite app_nil_r, zlen_nil, Z.add_0_r |].
    right. rewrite last_app, Hl. done.
  - rewrite <- A5. by apply (opt_view_chain_ok b b').
Qed.

(** Strings stay where they are when bytes are added. *)
Lemma strings_kept b b' k off s :
  str_len (hdr b') = str_len (hdr b) + zlen k -> start_str_off b' = start_str_off b ->
  btf_strs_data b' = btf_strs_data b ++ k -> opt_view (base_btf b) (base_btf b') ->
  btf_ok b -> string_at b off s -> 0 <= off < 2 ^ 32 -> string_at b' off s.
Proof.
  intros A1 A6 A7 A9 Hok (p & Hp & Hs) Hoff.
  apply btf_ok_unfold in Hok as (_ & (Hz & _ & _ & Hr) & _ & _ & Hb).
  rewrite btf__str_by_offset_eq in Hp. unfold string_at. rewrite btf__str_by_offset_eq, A1, A6, A7.
  unfold INT_MAX in Hr. pose proof (zlen_nonneg k). destruct (off <? start_str_off b) eqn:Hlt.
  - unfold opt_view in A9. destruct (base_btf b) as [base|], (base_btf b') as [base'|]; try done.
    exists p. by rewrite (same_view_str base base' off A9).
  - rewrite u32_small in * by lia. case_if_in Hp; [|done]. injection Hp as <-.
    replace (_ <? _) with true by lia. eexists. split; [reflexivity |].
    unfold zdrop, zlen in *. rewrite drop_app_le by lia. by apply cstr_prefix.
Qed.

Definition add_own (s : list Z) (b : btf) (o : oracle) : btf_res :=
  let! _, b, o := btf_ensure_modifiable b o in
  set ← strs_set b;
  '(off, set, o) ← strset__add_str set (PtrExt s) true o;
  if off <? 0 then Some (off, set_strs b set (str_len (hdr b)), o) else
  let b := set_strs b set (u32 (strset__data_size set)) in
  Some (s32 (start_str_off b + off), b, o).

Definition add_result (b b' : btf) (s k : list Z) (r : Z) : Prop :=
  (0 <= r <= INT_MAX /\ string_at b' r s /\ (k = [] \/ k = s ++ [0])) \/
  ((r = - ENOMEM \/ r = - EOPNOTSUPP) /\ k = []).

(** The set after a new string, with its length in the header. *)
Lemma set_strs_grow b set set' k :
  strs_data b = None -> strs_set b = Some set -> strset__data set' = strset__data set ++ k ->
  str_len (hdr b) = zlen (strset__data set) -> zlen (strset__data set') = strs_data_len set' ->
  strs_data_len set' <= INT_MAX ->
  strs_grow b (set_strs b set' (u32 (strset__data_size set'))) k.
Proof.
  intros Hs Hset Hd Hl Hl' Hm. unfold INT_MAX in Hm.
  assert (Hlen : u32 (strset__data_size set') = str_len (hdr b) + zlen k).
  { unfold strset__data_size. rewrite <- Hl', Hd, zlen_app, <- Hl in *. pose proof (zlen_nonneg k).
    pose proof (zlen_nonneg (strset__data set)). apply u32_small. lia. }
  split; try done.
  - cbn [set_strs hdr]. by rewrite Hlen.
  - unfold btf_strs_data. cbn. by rewrite Hs, Hset, Hd.
  - apply opt_view_refl.
Qed.

Lemma repr_data_len set f : strset_repr set f -> zlen (strset__data set) = strs_data_len set /\ strs_data_len set <= INT_MAX.
Proof.
  intros (Hd & _). destruct (strset_data_split set Hd) as [_ ->]. destruct Hd as (_ & ? & ? & _). lia.
Qed.

Lemma add_own_ok b s o :
  btf_ok b -> rep_ok b -> start_str_off b + str_len (hdr b) + zlen s + 1 <= INT_MAX -> str_arg s ->
  exists r b' o' k, add_own s b o = Some (r, b', o') /\ strs_grow b b' k /\ rep_ok b' /\ add_result b b' s k r.
Proof.
  intros Hok Hrep Hmax Hs. unfold add_own. pose proof (zlen_nonneg s).
  destruct (btf_ensure_modifiable_spec b o Hok Hrep) as (r & b1 & o1 & -> & V1 & Hrep1 & Hc). cbn [step mbind option_bind].
  destruct Hc as [(-> & Hm & _)|[(-> & ->)|(-> & -> & _)]]; cbn [Z.ltb Z.compare Z.opp].
  2,3: eexists _, b, _, []; (split; [reflexivity |]);
    split; [by apply same_view_grow |]; split; [done |]; unfold add_result; tauto.
  destruct (rep_ok_set b1 Hrep1 Hm) as (set & f & Hset & Hr & Hsd & Hd). rewrite Hset. cbn [mbind option_bind].
  pose proof (same_view_ok b b1 V1 Hok) as Hok1. pose proof (btf_ok_unfold _ Hok1) as (_ & (Hz1 & _ & _ & Hso1) & _).
  pose proof V1 as [[] _]%same_view_unfold. rewrite own_hdr0, own_str_off0, Hd in *.
  destruct (strset_add_str_ok set f (PtrExt s) s true o1 Hr (str_arg_denotes set s Hs))
    as (off & set' & o2 & -> & Hres). cbn [mbind option_bind].
  assert (Hcases : (off = - ENOMEM /\ strset_repr set' f /\ strset__data set' = strset__data set) \/
    (exists k f', strset_repr set' f' /\ strset__data set' = strset__data set ++ k /\ (k = [] \/ k = s ++ [0]) /\
       cstr_at (strset__data set') off = Some s)).
  { destruct (f s) as [x|] eqn:Hf.
    - destruct Hres as (Hr' & Hd' & [->|[-> _]]); [|by left]. right. exists [], f. rewrite app_nil_r, Hd'.
      split_and!; try done; [by left |]. destruct Hr as (_ & _ & Hrf & _). by apply Hrf.
    - destruct Hres as [(-> & Hr' & Hd')|(-> & Hr' & Hd' & _)]; [|by left]. right.
      eexists (s ++ [0]), _. split_and!; [exact Hr' | done | by right |].
      destruct Hr' as (_ & _ & Hrf & _). apply Hrf. unfold str_add. by rewrite decide_True. }
  destruct Hcases as [(-> & Hr' & Hd')|(k & f' & Hr' & Hd' & Hk & Hat)].
  { eexists _, _, _, []. split; [reflexivity |]. split; [|split].
    - apply same_view_grow. transitivity b1; [exact V1 |]. rewrite <- own_hdr0.
      exact (set_strs_same b1 set set' Hsd Hset Hd').
    - exact (set_strs_rep b1 set' f _ Hrep1 Hm Hr').
    - right. split; [by left | done]. }
  pose proof (cstr_at_range _ _ _ Hat). destruct (repr_data_len set' f' Hr') as [Hl' Hm'].
  replace (off <? 0) with false by lia.
  assert (G2 : strs_grow b1 (set_strs b1 set' (u32 (strset__data_size set'))) k).
  { apply (set_strs_grow b1 set); try done. by rewrite own_hdr0. }
  set (b2 := set_strs b1 set' (u32 (strset__data_size set'))) in *.
  pose proof (strs_grow_view _ _ _ _ V1 G2) as G.
  assert (Hkb : Forall is_byte k /\ (k = [] \/ last k = Some 0) /\ zlen k <= zlen s + 1).
  { destruct Hk as [->| ->]; [split_and!; [done | by left | rewrite zlen_nil; lia] |].
    split_and!; [by apply str_arg_bytes | right; by rewrite last_app | rewrite zlen_snoc; lia]. }
  destruct Hkb as (Hkb & Hkl & Hkz).
  pose proof (strs_grow_ok _ _ _ G Hok Hkb Hkl) as Hok2. pose proof (btf_ok_unfold _ Hok2) as (_ & Hs2 & _).
  do 3 eexists. exists k. split; [reflexivity |]. split; [done |]. split; [by eapply set_strs_rep |]. left.
  assert (Hd2 : btf_strs_data b2 = strset__data set').
  { rewrite (grow_strs _ _ _ G2), Hd. by rewrite Hd'. }
  pose proof (own_string_at b2 off s Hs2) as Hown. rewrite Hd2 in Hown. specialize (Hown Hat).
  rewrite (grow_hdr _ _ _ G), (grow_str_off _ _ _ G) in Hown. cbn [hdr_with_str_len str_len] in Hown.
  rewrite (grow_str_off _ _ _ G). unfold INT_MAX in *. rewrite Hd', zlen_app in *.
  rewrite s32_small by lia. split_and!; try lia; [|done]. apply Hown. lia.
Qed.

Lemma add_result_ok b b' s k r : str_arg s -> add_result b b' s k r -> Forall is_byte k /\ (k = [] \/ last k = Some 0).
Proof.
  intros Hs [(_ & _ & [->| ->])|[_ ->]]; (split; [|tauto || (right; by rewrite last_app)]); try done.
  by apply str_arg_bytes.
Qed.

(** [btf__add_str]: the offset of the string, which is in the base or in the own
    strings, old or new. *)
Lemma btf_add_str_ok b s o :
  btf_ok b -> rep_ok b -> start_str_off b + str_len (hdr b) + zlen s + 1 <= INT_MAX -> str_arg s ->
  exists r b' o' k, btf__add_str b s o = Some (r, b', o') /\ strs_grow b b' k /\ rep_ok b' /\ btf_ok b' /\
    add_result b b' s k r.
Proof.
  intros Hok Hrep Hmax Hs. pose proof (zlen_nonneg s).
  assert (Hadd : forall b1 o1, same_view b b1 -> rep_ok b1 ->
    exists r b' o' k, add_own s b1 o1 = Some (r, b', o') /\ strs_grow b b' k /\ rep_ok b' /\ btf_ok b' /\
      add_result b b' s k r).
  { intros b1 o1 V Hrep1. pose proof (same_view_ok _ _ V Hok) as Hok1. pose proof V as [[] _]%same_view_unfold.
    destruct (add_own_ok b1 s o1 Hok1 Hrep1) as (r & b' & o' & k & He & G & Hr & Hres); [congruence | done |].
    pose proof (strs_grow_view _ _ _ _ V G) as G'. exists r, b', o', k. split_and!; try done.
    destruct (add_result_ok _ _ _ _ _ Hs Hres). by apply (strs_grow_ok b b' k). }
  change (btf__add_str b s o) with
    (match base_btf b with
     | None => add_own s b o
     | Some base =>
         '(off, base, o) ← btf__find_str base s o;
         let b := set_base b (Some base) in
         if negb (off =? - ENOENT) then Some (off, b, o) else add_own s b o
     end).
  destruct (base_btf b) as [base|] eqn:Hb; [|by apply Hadd].
  pose proof (btf_ok_unfold b Hok) as (_ & (_ & _ & _ & Hr) & _ & _ & Hbase). rewrite Hb in Hbase.
  destruct Hbase as (Hbok & _ & Hso). pose proof Hrep as [Hown Hbrep]%rep_ok_unfold.
  pose proof (btf_ok_unfold base Hbok) as (_ & (Hzb & _) & _). pose proof (zlen_nonneg (btf_strs_data base)).
  destruct (btf_find_str_ok base s o Hbok (Hbrep base Hb) ltac:(lia) Hs) as (r & base' & o1 & -> & V & Hrep' & Hres).
  cbn [mbind option_bind]. pose proof (set_base_view b base base' Hb V) as V1.
  pose proof (set_base_rep b base' Hrep Hrep') as Hrep1.
  destruct (negb (r =? - ENOENT)) eqn:Hr1; [|by apply Hadd].
  exists r, (set_base b (Some base')), o1, []. split; [reflexivity |]. split; [by apply same_view_grow |].
  split; [done |]. split; [by apply (same_view_ok b) |].
  unfold find_result in Hres. unfold add_result. destruct Hres as [[Hr0 Hat]|[->|[->| ->]]]; [|done|tauto|tauto].
  left. split; [done |]. split; [|by left]. apply (same_view_string_at b); [done |].
  unfold INT_MAX in *. by apply (base_string_at b base); [|..|done]; try lia.
Qed.

(** What an optional name is stored as. *)
Definition name_stored (b : btf) (name : option (list Z)) (off : Z) : Prop :=
  if str_is_empty name then off = 0 else exists s, name = Some s /\ string_at b off s.

Definition name_arg (name : option (list Z)) : Prop :=
  match name with Some s => str_arg s | None => True end.

Definition name_room (b : btf) (name : option (list Z)) : Prop :=
  start_str_off b + str_len (hdr b) + zlen (default [] name) + 1 <= INT_MAX.

Lemma add_name_ok b name o :
  btf_ok b -> rep_ok b -> name_room b name -> name_arg name ->
  exists r b' o' k, add_name b name o = Some (r, b', o') /\ strs_grow b b' k /\ rep_ok b' /\ btf_ok b' /\
    (0 <= r <= INT_MAX /\ name_stored b' name r /\ (k = [] \/ k = default [] name ++ [0]) \/
     (r = - ENOMEM \/ r = - EOPNOTSUPP) /\ k = []).
Proof.
  intros Hok Hrep Hroom Harg. unfold add_name, name_stored. destruct (str_is_empty name) eqn:Hemp.
  - exists 0, b, o, []. split; [done |]. split; [by apply same_view_grow |]. split_and!; try done.
    left. unfold INT_MAX. split_and!; [lia | lia | done | by left].
  - destruct name as [s|]; [|done]. cbn [mbind option_bind].
    destruct (btf_add_str_ok b s o Hok Hrep Hroom Harg) as (r & b' & o' & k & -> & G & Hr & Hok' & Hres).
    exists r, b', o', k. split_and!; try done. destruct Hres as [(H1 & H2 & H3)|H1]; [left | by right].
    split_and!; try done; [lia.. |]. by exists s.
Qed.
