(* ===== verification/BtfAppend.v ===== *)
(** * BtfAppend: what appending to a BTF object does to its types

    The view of an object is the list of its types, each the list of its words.  The
    two ways of growing it, [append_type] (a new type at the end) and [append_elem]
    (one more member, value or parameter of the last type), are related to this
    list; the [btf__add_*] functions of [BtfWrite] are then instances. *)
From S2P Require Import Prelude Hashmap Mem Strset BtfTypes Btf BtfFind BtfParse BtfRaw BtfWrite BtfBuild.
Open Scope Z_scope.

(** ** The [info] word *)
Lemma btf_type_info_eq kind vlen kflag :
  0 <= kind < 128 -> 0 <= vlen <= BTF_MAX_VLEN -> 0 <= kflag <= 1 ->
  btf_type_info kind vlen kflag = kflag * 2147483648 + kind * 16777216 + vlen.
Proof.
  intros Hk Hv Hf. unfold btf_type_info, BTF_MAX_VLEN in *.
  rewrite (Z.shiftl_mul_pow2 kind) by lia. rewrite (lor_shift_add kflag 31) by lia.
  replace (kflag * 2 ^ 31 + kind * 2 ^ 24) with ((kflag * 128 + kind) * 2 ^ 24) by lia.
  rewrite <- Z.shiftl_mul_pow2, lor_shift_add by lia. rewrite u32_small; lia.
Qed.

(** The fields written are the fields read. *)
Lemma btf_type_info_fields kind vlen kflag :
  0 <= kind < 128 -> 0 <= vlen <= BTF_MAX_VLEN -> 0 <= kflag <= 1 ->
  let i := btf_type_info kind vlen kflag in
  is_u32 i /\ BTF_INFO_KIND i = kind /\ BTF_INFO_VLEN i = vlen /\ BTF_INFO_KFLAG i = kflag.
Proof.
  intros Hk Hv Hf i. unfold i. rewrite btf_type_info_eq by done. unfold BTF_MAX_VLEN in *.
  unfold is_u32, BTF_INFO_KIND, BTF_INFO_VLEN, BTF_INFO_KFLAG.
  change 127 with (Z.ones 7). change 16777215 with (Z.ones 24).
  rewrite !Z.land_ones, !Z.shiftr_div_pow2 by lia. split; [lia |].
  change (2 ^ 24) with 16777216. change (2 ^ 7) with 128. change (2 ^ 31) with 2147483648. split_and!; lia.
Qed.

Lemma known_kind_range k : known_kind k -> 0 <= Z_of_kind k < 128 /\ kind_of_Z (Z_of_kind k) = k.
Proof. destruct k; try done; intros _; (split; [cbn; lia | reflexivity]). Qed.

(** ** Memory *)
Definition detached (b : btf) : Prop :=
  modifiable b = true /\ raw_data b = None /\ raw_data_swapped b = None.

(** Room for types: only the capacity changes. *)
Lemma btf_add_type_mem_ok b sz o :
  btf_ok b -> rep_ok b -> modifiable b = true -> 0 <= sz <= INT_MAX ->
  exists r b' o', btf_add_type_mem b sz o = Some (r, b', o') /\ same_view b b' /\ rep_ok b' /\
    (detached b -> detached b') /\
    (r = 0 /\ type_len (hdr b) + sz <= UINT32_MAX \/ r = - ENOMEM).
Proof.
  intros Hok Hrep Hm Hsz. unfold btf_add_type_mem.
  pose proof (btf_ok_unfold b Hok) as ([cs Hcs] & _). pose proof (types_len b cs Hcs) as Hl.
  pose proof (zlen_nonneg (types_data b)). pose proof Hrep as [[Htl Hown] Hbase]%rep_ok_unfold. rewrite Hm in Hown.
  destruct Hown as (Hcap & Hown). unfold UINT32_MAX, INT_MAX in *.
  destruct (libbpf_add_mem_cap 0 [] (types_data_cap b) 1 (type_len (hdr b)) 4294967295 sz o) as [H1 H2];
    [unfold SIZE_MAX; lia |].
  set (r := libbpf_add_mem 0 [] (types_data_cap b) 1 (type_len (hdr b)) 4294967295 sz o) in *. clearbody r.
  do 3 eexists. split; [reflexivity |]. split; [|split; [|split]].
  - apply same_view_unfold. split; [by split | apply opt_view_refl].
  - apply rep_ok_unfold. split; [|exact Hbase]. split; [exact Htl |]. cbn. rewrite Hm. unfold UINT32_MAX. split; [lia | exact Hown].
  - done.
  - destruct (am_pos r); [left | by right]. specialize (H2 ltac:(done)). lia.
Qed.

Lemma add_own_detached b s o r b' o' :
  detached b -> add_own s b o = Some (r, b', o') -> detached b'.
Proof.
  intros (Hm & Hr & Hs). unfold add_own, btf_ensure_modifiable. rewrite Hm. cbn [step mbind option_bind Z.ltb Z.compare].
  destruct (strs_set (btf_invalidate_raw_data b)) as [set|]; [|done]. cbn [mbind option_bind].
  destruct (strset__add_str set (PtrExt s) true o) as [[[off set'] o1]|]; [|done]. cbn [mbind option_bind].
  case_if; intros [= <- <- <-]; by split.
Qed.

Lemma add_name_detached b name o r b' o' :
  detached b -> add_name b name o = Some (r, b', o') -> detached b'.
Proof.
  intros Hd. unfold add_name. destruct (str_is_empty name); [by intros [= <- <- <-] |].
  destruct name as [s|]; [|done]. cbn [mbind option_bind].
  change (btf__add_str b s o) with
    (match base_btf b with
     | None => add_own s b o
     | Some base =>
         '(off, base, o) ← btf__find_str base s o;
         let b := set_base b (Some base) in
         if negb (off =? - ENOENT) then Some (off, b, o) else add_own s b o
     end).
  destruct (base_btf b) as [base|]; [|by apply add_own_detached].
  destruct (btf__find_str base s o) as [[[off base'] o1]|]; [|done]. cbn [mbind option_bind].
  case_if; [by intros [= <- <- <-] |]. apply add_own_detached, Hd.
Qed.

(** The steps before the words of a type or an element are written. *)
Definition reserve (b : btf) (sz : Z) (name : option (list Z)) (o : oracle) : btf_res :=
  let! _, b, o := btf_ensure_modifiable b o in
  let! _, b, o := btf_add_type_mem b sz o in
  add_name b name o.

Definition reserve_error (r : Z) : Prop := r = - ENOMEM \/ r = - EOPNOTSUPP.

Lemma reserve_ok b sz name o :
  btf_ok b -> rep_ok b -> 0 <= sz <= INT_MAX -> name_room b name -> name_arg name ->
  exists r b' o' k, reserve b sz name o = Some (r, b', o') /\ strs_grow b b' k /\ rep_ok b' /\ btf_ok b' /\
    (0 <= r <= INT_MAX /\ name_stored b' name r /\ (k = [] \/ k = default [] name ++ [0]) /\ detached b' /\
     type_len (hdr b) + sz <= UINT32_MAX \/
     reserve_error r /\ k = []).
Proof.
  intros Hok Hrep Hsz Hroom Harg. unfold reserve, reserve_error.
  destruct (btf_ensure_modifiable_spec b o Hok Hrep) as (r & b1 & o1 & -> & V1 & Hrep1 & Hc). cbn [step mbind option_bind].
  destruct Hc as [(-> & Hm & Hr1 & Hr2)|[(-> & ->)|(-> & -> & _)]]; cbn [Z.ltb Z.compare Z.opp].
  2,3: eexists _, b, _, []; (split; [reflexivity |]); split; [by apply same_view_grow |]; by tauto.
  pose proof (same_view_ok _ _ V1 Hok) as Hok1.
  destruct (btf_add_type_mem_ok b1 sz o1 Hok1 Hrep1 Hm Hsz) as (r & b2 & o2 & -> & V2 & Hrep2 & Hd2 & Hc).
  cbn [step mbind option_bind]. pose proof (same_view_trans _ _ _ V1 V2) as V.
  pose proof (same_view_ok _ _ V Hok) as Hok2.
  destruct Hc as [[-> Hl]| ->]; cbn [Z.ltb Z.compare Z.opp].
  2: { eexists _, b2, _, []. split; [reflexivity |]. split; [by apply same_view_grow |]. by tauto. }
  pose proof V as [[] _]%same_view_unfold.
  destruct (add_name_ok b2 name o2 Hok2 Hrep2) as (r & b3 & o3 & k & Ha & G & Hrep3 & Hok3 & Hres); [| done |].
  { unfold name_room in *. congruence. }
  exists r, b3, o3, k. split; [exact Ha |]. split; [by apply (strs_grow_view b b2) |]. split; [done |]. split; [done |].
  destruct Hres as [(H1 & H2 & H3)|H1]; [left | by right]. split_and!; try (done || lia).
  - by apply (add_name_detached b2 name o2 r b3 o3); [apply Hd2 |].
  - pose proof V1 as [[Hh _ _ _ _ _ _ _] _]%same_view_unfold. by rewrite <- Hh.
Qed.

(** ** New contents of the type section *)
Definition has_layout (b : btf) : bool := match layout b with Some _ => true | None => false end.

(** [b'] is [b] with the types [cs'] and the bytes [k] added to the strings; nothing
    that was written out before is kept. *)
Record updated (b b' : btf) (k : list Z) (cs' : list (list Z)) : Prop := {
  up_types : types_ok b' cs';
  up_hdr : hdr b' = hdr_update_type_len (hdr_with_str_len (hdr b) (str_len (hdr b) + zlen k)) (has_layout b)
                      (4 * zlen (mjoin cs'));
  up_strs : btf_strs_data b' = btf_strs_data b ++ k;
  up_start : start_id b' = start_id b;
  up_str_off : start_str_off b' = start_str_off b;
  up_layout : layout b' = layout b;
  up_base : opt_view (base_btf b) (base_btf b');
  up_detached : detached b'
}.

(** The object with new contents of the type section. *)
Definition write_types (b : btf) (cs : list (list Z)) (ocap : Z) : btf :=
  set_types (btf_hdr_update_type_len b (4 * zlen (mjoin cs))) (mjoin cs) (types_data_cap b)
    (offsets 0 cs) ocap (zlen cs).

Lemma strs_grow_layout b b' k : strs_grow b b' k -> btf_layout_of b' = btf_layout_of b.
Proof.
  intros G. unfold btf_layout_of. by rewrite (grow_layout _ _ _ G), (opt_view_layout _ _ (grow_base _ _ _ G)).
Qed.

Lemma write_types_ok b b1 k cs' ocap :
  strs_grow b b1 k -> rep_ok b1 -> btf_ok b1 -> detached b1 ->
  Forall (type_ok (btf_layout_of b)) cs' -> Forall is_u32 (mjoin cs') -> 4 * zlen (mjoin cs') <= UINT32_MAX ->
  start_id b + zlen cs' < 2 ^ 32 ->
  updated b (write_types b1 cs' ocap) k cs' /\ rep_ok (write_types b1 cs' ocap) /\ btf_ok (write_types b1 cs' ocap).
Proof.
  intros G Hrep Hok Hd Hall Hu Hlen Hcnt. pose proof (strs_grow_layout _ _ _ G) as Hl.
  pose proof (btf_ok_unfold b1 Hok) as ([cs Hcs] & Hs & H1 & _ & Hbase). pose proof (types_layout _ _ Hcs) as Hlb.
  assert (Hu32 : u32 (4 * zlen (mjoin cs')) = 4 * zlen (mjoin cs')).
  { pose proof (zlen_nonneg (mjoin cs')). unfold UINT32_MAX in Hlen. apply u32_small. lia. }
  assert (Ht : types_ok (write_types b1 cs' ocap) cs').
  { assert (Hl' : btf_layout_of (write_types b1 cs' ocap) = btf_layout_of b1) by reflexivity.
    split; try reflexivity; try exact Hu; rewrite ?Hl'; [by rewrite Hl | exact Hu32 | exact Hlb]. }
  destruct G as [A1 A2 A3 A4 A5 A6 A7 A8 A9].
  split; [|split].
  - split; try done. cbn. unfold btf_hdr_update_type_len, has_layout. by rewrite Hu32, A1, A8.
  - pose proof Hrep as [[_ Hown] Hb]%rep_ok_unfold. destruct Hd as (Hm & _). rewrite Hm in Hown.
    apply rep_ok_unfold. split; [|exact Hb]. split; [cbn; by rewrite Hu32 |]. cbn. by rewrite Hm.
  - apply (btf_ok_intro _ cs' Ht); [exact Hs | exact H1 | cbn; rewrite A5; lia | exact Hbase].
Qed.

Lemma write_types_stored b cs ocap name off : name_stored b name off -> name_stored (write_types b cs ocap) name off.
Proof.
  unfold name_stored, string_at. destruct (str_is_empty name); [done |].
  intros (s & -> & p & Hp & Hc). exists s. split; [done |]. exists p. split; [|done].
  rewrite btf__str_by_offset_eq in Hp |- *. exact Hp.
Qed.

(** The bytes a name adds to the strings. *)
Definition name_bytes (name : option (list Z)) (k : list Z) : Prop := k = [] \/ k = default [] name ++ [0].

(** How an operation that stores a name and changes the types to [cs' off], [off]
    being the offset of the name, can end; it does not succeed where [cs'] gives
    nothing. *)
Definition append_result (b : btf) (name : option (list Z)) (cs' : Z -> option (list (list Z))) (ok : Z)
    (r : Z) (b' : btf) : Prop :=
  rep_ok b' /\ btf_ok b' /\ exists k, name_bytes name k /\
  ((r = ok /\ exists off types, 0 <= off <= INT_MAX /\ name_stored b' name off /\ cs' off = Some types /\
      updated b b' k types) \/
   (reserve_error r \/ r = - ENOSPC) /\ strs_grow b b' k).

(** The words of a new type. *)
Definition type_words_ok (lay : option (list btf_layout)) (sz : Z) (words : Z -> list Z) : Prop :=
  forall off, 0 <= off <= INT_MAX ->
    type_ok lay (words off) /\ Forall is_u32 (words off) /\ 4 * zlen (words off) = sz.

Lemma offsets_snoc off cs c : offsets off (cs ++ [c]) = offsets off cs ++ [off + 4 * zlen (mjoin cs)].
Proof.
  revert off. induction cs as [|c' cs IH]; intros off; cbn [app offsets].
  - change (zlen (mjoin [])) with 0. by rewrite Z.add_0_r.
  - rewrite IH, mjoin_cons, zlen_app. do 3 f_equal. lia.
Qed.

Lemma mjoin_snoc {A} (ls : list (list A)) x : mjoin (ls ++ [x]) = mjoin ls ++ x.
Proof. rewrite join_app. cbn. by rewrite app_nil_r. Qed.

(** A reservation that fails is the result. *)
Lemma reserve_step b sz name o f :
  (let! _, b, o := btf_ensure_modifiable b o in
   let! _, b, o := btf_add_type_mem b sz o in
   let! name_off, b, o := add_name b name o in f name_off b o) =
  (let! name_off, b, o := reserve b sz name o in f name_off b o).
Proof.
  unfold reserve, step. destruct (btf_ensure_modifiable b o) as [[[r b1] o1]|]; [|done]. cbn [mbind option_bind].
  destruct (r <? 0) eqn:Hr; cbn [mbind option_bind]; [by rewrite Hr |].
  destruct (btf_add_type_mem b1 sz o1) as [[[r2 b2] o2]|]; [|done]. cbn [mbind option_bind].
  destruct (r2 <? 0) eqn:Hr2; cbn [mbind option_bind]; [by rewrite Hr2 | done].
Qed.

Lemma btf_commit_type_eq b cs ws o :
  types_ok b cs -> 1 <= start_id b -> start_id b + nr_types b <= INT_MAX ->
  btf_commit_type b ws o =
  match btf_add_type_offs_mem (nr_types b) (type_offs_cap b) 1 o with
  | (None, o) => Some (- ENOMEM, b, o)
  | (Some ocap, o) => Some (start_id b + nr_types b, write_types b (cs ++ [ws]) ocap, o)
  end.
Proof.
  intros Hcs H1 Hcnt. unfold INT_MAX in Hcnt. unfold btf_commit_type, btf_add_type_idx_entry.
  destruct (btf_add_type_offs_mem (nr_types b) (type_offs_cap b) 1 o) as [[ocap|] o2]; [|done].
  cbn [step mbind option_bind Z.ltb Z.compare]. pose proof (zlen_nonneg cs).
  destruct Hcs as [Hw Hi Hn _ Hl _ _]. f_equal. f_equal. f_equal.
  - cbn [nr_types start_id set_types btf_hdr_update_type_len set_hdr]. rewrite Hn in *.
    rewrite u32_small by lia. rewrite s32_small; lia.
  - unfold write_types. rewrite offsets_snoc, mjoin_snoc, zlen_snoc, zlen_app, <- Hw, <- Hi, Z.add_0_l, <- Hn.
    rewrite Z.mul_add_distr_l, <- Hl. cbn. by rewrite u32_small by lia.
Qed.

Lemma append_type_ok b cs sz name words o :
  btf_ok b -> rep_ok b -> types_ok b cs -> 0 <= sz <= INT_MAX -> name_room b name -> name_arg name ->
  start_id b + nr_types b <= INT_MAX -> type_words_ok (btf_layout_of b) sz words ->
  exists r b' o', append_type b sz name words o = Some (r, b', o') /\
    append_result b name (fun off => Some (cs ++ [words off])) (start_id b + nr_types b) r b'.
Proof.
  intros Hok Hrep Hcs Hsz Hroom Harg Hcnt Hw. unfold append_type. rewrite reserve_step.
  destruct (reserve_ok b sz name o Hok Hrep Hsz Hroom Harg) as (r & b1 & o1 & k & -> & G & Hrep1 & Hok1 & Hres).
  cbn [step mbind option_bind]. unfold append_result.
  destruct Hres as [(Hr & Hst & Hk & Hd & Hlen)|[Hr ->]].
  2: { assert (Hneg : (r <? 0) = true) by (destruct Hr as [->| ->]; done). rewrite Hneg. do 3 eexists.
       split; [reflexivity |]. split; [done |]. split; [done |]. exists []. split; [by left |]. right. by split; [left |]. }
  replace (r <? 0) with false by lia. destruct (Hw r Hr) as (Hty & Hu & Hz).
  pose proof (strs_grow_types_ok _ _ _ _ G Hcs) as Hcs1. pose proof (btf_ok_unfold b Hok) as (_ & _ & Hs1 & _).
  pose proof (grow_start _ _ _ G) as Hst1. pose proof (grow_nr _ _ _ G) as Hnr1.
  rewrite (btf_commit_type_eq b1 cs (words r) o1 Hcs1) by lia. rewrite Hst1, Hnr1.
  destruct (btf_add_type_offs_mem (nr_types b) (type_offs_cap b1) 1 o1) as [[ocap|] o2].
  2: { do 3 eexists. split; [reflexivity |]. split; [done |]. split; [done |]. exists k. split; [done |].
       right. split; [left; by left | exact G]. }
  pose proof (types_len _ _ Hcs) as Htl. pose proof (types_words _ _ Hcs) as Hwd. pose proof (types_count _ _ Hcs) as Hn.
  destruct (write_types_ok b b1 k (cs ++ [words r]) ocap G Hrep1 Hok1 Hd) as (Hup & Hrep2 & Hok2).
  { apply Forall_app. split; [apply (types_each _ _ Hcs) | by constructor]. }
  { rewrite mjoin_snoc, <- Hwd. apply Forall_app. split; [apply (types_u32 _ _ Hcs) | done]. }
  { rewrite mjoin_snoc, <- Hwd, zlen_app. lia. }
  { rewrite zlen_snoc. unfold INT_MAX in Hcnt. lia. }
  do 3 eexists. split; [reflexivity |]. split; [exact Hrep2 |]. split; [exact Hok2 |]. exists k.
  split; [done |]. left. split; [done |]. exists r, (cs ++ [words r]). split; [done |].
  split; [by apply write_types_stored |]. by split.
Qed.

(** ** The last type *)
Lemma last_off b cs c :
  types_ok b (cs ++ [c]) -> 1 <= start_id b -> start_id b + nr_types b < 2 ^ 32 ->
  btf__type_cnt b - 1 = start_id b + zlen cs /\ znth (type_offs b) (zlen cs) = Some (4 * zlen (mjoin cs)).
Proof.
  intros [_ Hi Hn _ _ _ _] H1 H2. rewrite zlen_snoc in Hn. pose proof (zlen_nonneg cs). split.
  - unfold btf__type_cnt. rewrite u32_small; lia.
  - rewrite Hi, offsets_snoc, Z.add_0_l. unfold znth. replace (zlen cs <? 0) with false by lia.
    rewrite lookup_app_r; [|unfold zlen; pose proof (zlen_offsets 0 cs) as Ho; unfold zlen in Ho; lia].
    pose proof (zlen_offsets 0 cs) as Ho. unfold zlen in *. rewrite Nat2Z.id.
    by replace (_ - _)%nat with O by lia.
Qed.

Lemma btf_last_type_eq b cs n i s ex :
  types_ok b (cs ++ [n :: i :: s :: ex]) -> 1 <= start_id b -> start_id b + nr_types b < 2 ^ 32 ->
  btf_last_type b = Some (BtfType n i s ex).
Proof.
  intros Hcs H1 H2. destruct (last_off _ _ _ Hcs H1 H2) as [Hid Ho]. unfold btf_last_type. rewrite Hid.
  pose proof (zlen_nonneg cs). rewrite btf_type_by_id_eq. replace (_ =? 0) with false by lia.
  replace (_ <? _) with false by lia. replace (start_id b + zlen cs - start_id b) with (zlen cs) by lia.
  rewrite Ho. cbn [mbind option_bind]. rewrite (types_words _ _ Hcs), mjoin_snoc, Z.mul_comm, Z.div_mul by lia.
  by rewrite zdrop_app_zlen.
Qed.

Lemma set_type_info_last b cs n i s ex w :
  types_ok b (cs ++ [n :: i :: s :: ex]) -> 1 <= start_id b -> start_id b + nr_types b < 2 ^ 32 ->
  set_type_info b (start_id b + zlen cs) w =
  Some (set_types b (mjoin (cs ++ [n :: w :: s :: ex])) (types_data_cap b) (type_offs b) (type_offs_cap b) (nr_types b)).
Proof.
  intros Hcs H1 H2. destruct (last_off _ _ _ Hcs H1 H2) as [_ Ho]. unfold set_type_info.
  replace (start_id b + zlen cs - start_id b) with (zlen cs) by lia. rewrite Ho. cbn [mbind option_bind].
  rewrite (types_words _ _ Hcs), !mjoin_snoc, Z.mul_comm, Z.div_mul, zlen_app, !zlen_cons by lia.
  pose proof (zlen_nonneg (mjoin cs)). pose proof (zlen_nonneg ex). replace (_ <? _) with true by lia.
  f_equal. f_equal. unfold zupd. replace (_ <? 0) with false by lia. unfold zlen.
  replace (Z.to_nat _) with (length (mjoin cs) + 1)%nat by lia. by rewrite insert_app_r.
Qed.

(** The words of a new element, and the [info] word that counts it. *)
Definition elem_words_ok (sz : Z) (words : Z -> list Z) : Prop :=
  forall off, 0 <= off <= INT_MAX -> Forall is_u32 (words off) /\ 4 * zlen (words off) = sz.

Definition elem_info_ok (t : btf_type) (sz : Z) (update : btf_type -> result Z) : Prop :=
  known_kind (btf_kind t) /\
  4 * extra_words (btf_kind t) (btf_vlen t + 1) = 4 * extra_words (btf_kind t) (btf_vlen t) + sz /\
  match update t with
  | Ok w => is_u32 w /\ kind_of_Z (BTF_INFO_KIND w) = btf_kind t /\ BTF_INFO_VLEN w = btf_vlen t + 1
  | Err e => e = ENOSPC
  end.

(** The last type with one more element. *)
Definition grown_type (t : btf_type) (w : Z) (elem : list Z) : list Z :=
  name_off t :: w :: size_or_type t :: extra t ++ elem.

Definition type_words (t : btf_type) : list Z := name_off t :: info t :: size_or_type t :: extra t.

Lemma grown_type_ok lay t sz update w elem :
  type_ok lay (type_words t) -> elem_info_ok t sz update -> update t = Ok w -> 4 * zlen elem = sz ->
  type_ok lay (grown_type t w elem).
Proof.
  intros (t' & Ht & Hsz) (Hk & He & Hw) Hu Hz. rewrite Hu in Hw. destruct Hw as (_ & Hkw & Hvw).
  cbn [type_at type_words] in Ht. injection Ht as <-. unfold grown_type.
  eexists. split; [reflexivity |]. rewrite btf_type_size_known in Hsz by done.
  rewrite btf_type_size_known by (unfold btf_kind; cbn [info]; by rewrite Hkw).
  unfold btf_kind, btf_vlen in *. cbn [info extra] in *. rewrite Hkw, Hvw.
  unfold type_words in Hsz. rewrite !zlen_cons, ?zlen_app in *. lia.
Qed.

Lemma append_elem_ok b cs t sz name words update cs' o :
  btf_ok b -> rep_ok b -> types_ok b (cs ++ [type_words t]) -> 0 <= sz <= INT_MAX -> name_room b name ->
  name_arg name -> elem_words_ok sz words -> elem_info_ok t sz update ->
  (forall w off, update t = Ok w -> cs' off = Some (cs ++ [grown_type t w (words off)])) ->
  exists r b' o', append_elem b sz name words update o = Some (r, b', o') /\ append_result b name cs' 0 r b'.
Proof.
  intros Hok Hrep Hcs Hsz Hroom Harg Hw Hinfo Hcs'. unfold append_elem. rewrite reserve_step.
  destruct (reserve_ok b sz name o Hok Hrep Hsz Hroom Harg) as (r & b1 & o1 & k & -> & G & Hrep1 & Hok1 & Hres).
  cbn [step mbind option_bind]. unfold append_result.
  destruct Hres as [(Hr & Hst & Hk & Hd & Hlen)|[Hr ->]].
  2: { assert (Hneg : (r <? 0) = true) by (destruct Hr as [->| ->]; done). rewrite Hneg. do 3 eexists.
       split; [reflexivity |]. split; [done |]. split; [done |]. exists []. split; [by left |]. right. by split; [left |]. }
  replace (r <? 0) with false by lia. destruct (Hw r Hr) as (Hu & Hz).
  pose proof (strs_grow_types_ok _ _ _ _ G Hcs) as Hcs1.
  pose proof (btf_ok_unfold b1 Hok1) as (_ & _ & Hs1 & Hs2 & _).
  rewrite (btf_last_type_eq b1 cs _ _ _ _ Hcs1 Hs1 Hs2). cbn [mbind option_bind].
  replace (BtfType (name_off t) (info t) (size_or_type t) (extra t)) with t by (by destruct t).
  pose proof Hinfo as (_ & _ & Hupd). destruct (update t) as [w|e] eqn:Hut.
  2: { subst e. do 3 eexists. split; [reflexivity |]. split; [done |]. split; [done |]. exists k. split; [done |].
       right. split; [by right | exact G]. }
  rewrite (proj1 (last_off _ _ _ Hcs1 Hs1 Hs2)), (set_type_info_last b1 cs _ _ _ _ w Hcs1 Hs1 Hs2).
  cbn [mbind option_bind].
  pose proof (types_len _ _ Hcs) as Htl. pose proof (types_words _ _ Hcs) as Hwd. pose proof (types_count _ _ Hcs) as Hn.
  pose proof (types_u32 _ _ Hcs) as Hu32. rewrite Hwd, mjoin_snoc in Hu32. apply Forall_app in Hu32 as [Hu1 Hu2].
  pose proof (types_each _ _ Hcs) as Hall. apply Forall_app in Hall as [Hall Hty].
  apply Forall_cons in Hty as [Hty _]. unfold type_words in Hu2. rewrite !Forall_cons in Hu2.
  pose proof (zlen_nonneg (mjoin cs)). assert (Hzt : zlen (grown_type t w (words r)) = zlen (type_words t) + zlen (words r)).
  { unfold grown_type, type_words. rewrite !zlen_cons, zlen_app. lia. }
  destruct (write_types_ok b b1 k (cs ++ [grown_type t w (words r)]) (type_offs_cap b1) G Hrep1 Hok1 Hd)
    as (Hup & Hrep2 & Hok2).
  { apply Forall_app. split; [done |]. constructor; [by eapply grown_type_ok | done]. }
  { rewrite mjoin_snoc. apply Forall_app. split; [done |]. unfold grown_type. rewrite !Forall_cons, Forall_app. tauto. }
  { rewrite mjoin_snoc, zlen_app, Hzt. rewrite Hwd, mjoin_snoc, zlen_app in Htl. lia. }
  { pose proof (grow_start _ _ _ G). pose proof (grow_nr _ _ _ G). rewrite !zlen_snoc in *. lia. }
  exists 0, (write_types b1 (cs ++ [grown_type t w (words r)]) (type_offs_cap b1)), o1. split.
  - f_equal. f_equal. f_equal. unfold write_types.
    pose proof (types_index _ _ Hcs1) as Hi1. pose proof (types_count _ _ Hcs1) as Hn1.
    pose proof (types_len _ _ Hcs1) as Hl1. pose proof (types_words _ _ Hcs1) as Hw1.
    rewrite offsets_snoc in Hi1 |- *. rewrite zlen_snoc in Hn1 |- *. rewrite !mjoin_snoc in *.
    rewrite <- Hi1, <- Hn1, !zlen_app, Hzt. rewrite Hw1, zlen_app in Hl1. cbn.
    unfold btf_hdr_update_type_len. cbn. rewrite Hl1.
    replace (4 * (zlen (mjoin cs) + zlen (type_words t)) + sz)
      with (4 * (zlen (mjoin cs) + (zlen (type_words t) + zlen (words r)))) by lia.
    unfold grown_type. by rewrite <- app_assoc.
  - split; [exact Hrep2 |]. split; [exact Hok2 |]. exists k. split; [done |]. left. split; [done |].
    eexists r, _. split; [done |]. split; [by apply write_types_stored |]. split; [by apply (Hcs' w r) | exact Hup].
Qed.
