(* ===== verification/BtfOps.v ===== *)
(** * BtfOps: every [btf__add_*] function against one specification

    The functions that append to a BTF object are gathered in one type of operations
    with what each requires ([op_valid]) and the words it adds ([op_types]).  The
    theorem covers all of them on every path: arguments that are not valid are
    refused and nothing changes; otherwise the operation either fails for lack of
    memory and leaves the types alone, or the object has exactly the specified types,
    its names can be read back, and it is well formed.  It follows that what is built
    by any sequence of operations is read back from its raw data. *)
From S2P Require Import Prelude Hashmap Mem Strset BtfTypes Btf BtfFind BtfParse BtfRaw BtfWrite BtfBuild BtfAppend.
Open Scope Z_scope.

Definition str : Type := option (list Z).

Inductive btf_op :=
| OpInt (name : str) (byte_sz encoding : Z)
| OpFloat (name : str) (byte_sz : Z)
| OpPtr (ref_type_id : Z)
| OpArray (index_type_id elem_type_id nr_elems : Z)
| OpStruct (name : str) (byte_sz : Z)
| OpUnion (name : str) (byte_sz : Z)
| OpField (name : str) (type_id bit_offset bit_size : Z)
| OpEnum (name : str) (byte_sz : Z)
| OpEnumValue (name : str) (value : Z)
| OpEnum64 (name : str) (byte_sz : Z) (is_signed : bool)
| OpEnum64Value (name : str) (value : Z)
| OpFwd (name : str) (fwd_kind : btf_fwd_kind)
| OpTypedef (name : str) (ref_type_id : Z)
| OpVolatile (ref_type_id : Z)
| OpConst (ref_type_id : Z)
| OpRestrict (ref_type_id : Z)
| OpTypeTag (value : str) (ref_type_id : Z)
| OpTypeAttr (value : str) (ref_type_id : Z)
| OpFunc (name : str) (linkage proto_type_id : Z)
| OpFuncProto (ret_type_id : Z)
| OpFuncParam (name : str) (type_id : Z)
| OpVar (name : str) (linkage type_id : Z)
| OpDatasec (name : str) (byte_sz : Z)
| OpDatasecVarInfo (var_type_id offset byte_sz : Z)
| OpDeclTag (value : str) (ref_type_id component_idx : Z)
| OpDeclAttr (value : str) (ref_type_id component_idx : Z)
| OpLocParam (byte_sz flags : Z)
| OpLocParamValue (value : Z)
| OpLocProto
| OpLocProtoParam (id : Z)
| OpLocsec (name : str)
| OpLocsecLoc (func loc_proto offset : Z).

Definition exec (op : btf_op) (b : btf) (o : oracle) : btf_res :=
  match op with
  | OpInt name sz enc => btf__add_int b name sz enc o
  | OpFloat name sz => btf__add_float b name sz o
  | OpPtr id => btf__add_ptr b id o
  | OpArray i e n => btf__add_array b i e n o
  | OpStruct name sz => btf__add_struct b name sz o
  | OpUnion name sz => btf__add_union b name sz o
  | OpField name id off sz => btf__add_field b name id off sz o
  | OpEnum name sz => btf__add_enum b name sz o
  | OpEnumValue name v => btf__add_enum_value b name v o
  | OpEnum64 name sz sg => btf__add_enum64 b name sz sg o
  | OpEnum64Value name v => btf__add_enum64_value b name v o
  | OpFwd name k => btf__add_fwd b name k o
  | OpTypedef name id => btf__add_typedef b name id o
  | OpVolatile id => btf__add_volatile b id o
  | OpConst id => btf__add_const b id o
  | OpRestrict id => btf__add_restrict b id o
  | OpTypeTag v id => btf__add_type_tag b v id o
  | OpTypeAttr v id => btf__add_type_attr b v id o
  | OpFunc name l id => btf__add_func b name l id o
  | OpFuncProto id => btf__add_func_proto b id o
  | OpFuncParam name id => btf__add_func_param b name id o
  | OpVar name l id => btf__add_var b name l id o
  | OpDatasec name sz => btf__add_datasec b name sz o
  | OpDatasecVarInfo id off sz => btf__add_datasec_var_info b id off sz o
  | OpDeclTag v id c => btf__add_decl_tag b v id c o
  | OpDeclAttr v id c => btf__add_decl_attr b v id c o
  | OpLocParam sz fl => btf__add_loc_param b sz fl o
  | OpLocParamValue v => btf__add_loc_param_value b v o
  | OpLocProto => btf__add_loc_proto b o
  | OpLocProtoParam id => btf__add_loc_proto_param b id o
  | OpLocsec name => btf__add_locsec b name o
  | OpLocsecLoc f p off => btf__add_locsec_loc b f p off o
  end.

(** ** The specification *)
Definition op_name (op : btf_op) : str :=
  match op with
  | OpInt n _ _ | OpFloat n _ | OpStruct n _ | OpUnion n _ | OpField n _ _ _ | OpEnum n _
  | OpEnumValue n _ | OpEnum64 n _ _ | OpEnum64Value n _ | OpFwd n _ | OpTypedef n _
  | OpTypeTag n _ | OpTypeAttr n _ | OpFunc n _ _ | OpFuncParam n _ | OpVar n _ _ | OpDatasec n _
  | OpDeclTag n _ _ | OpDeclAttr n _ _ | OpLocsec n => n
  | _ => None
  end.

(** The ranges of the C types of the arguments. *)
Definition c_int (x : Z) : Prop := INT_MIN <= x <= INT_MAX.

Definition op_args (op : btf_op) : Prop :=
  name_arg (op_name op) /\
  match op with
  | OpInt _ sz enc => 0 <= sz <= SIZE_MAX /\ c_int enc
  | OpFloat _ sz => 0 <= sz <= SIZE_MAX
  | OpPtr id | OpVolatile id | OpConst id | OpRestrict id | OpTypedef _ id | OpTypeTag _ id
  | OpTypeAttr _ id | OpFuncProto id | OpFuncParam _ id => c_int id
  | OpArray i e n => c_int i /\ c_int e /\ is_u32 n
  | OpStruct _ sz | OpUnion _ sz | OpEnum _ sz | OpEnum64 _ sz _ | OpDatasec _ sz => is_u32 sz
  | OpField _ id off sz => c_int id /\ is_u32 off /\ is_u32 sz
  | OpEnumValue _ v => - 2 ^ 63 <= v < 2 ^ 63
  | OpEnum64Value _ v => 0 <= v <= SIZE_MAX
  | OpFwd _ _ | OpLocProto | OpLocsec _ => True
  | OpFunc _ l id => is_u32 l /\ c_int id
  | OpVar _ l id => c_int l /\ c_int id
  | OpDatasecVarInfo id off sz => c_int id /\ is_u32 off /\ is_u32 sz
  | OpDeclTag _ id c | OpDeclAttr _ id c => c_int id /\ c_int c
  | OpLocParam sz fl => is_u32 sz /\ is_u32 fl
  | OpLocParamValue v | OpLocProtoParam v => is_u32 v
  | OpLocsecLoc f p off => is_u32 f /\ is_u32 p /\ is_u32 off
  end.

Definition named (name : str) : Prop := exists c s, name = Some (c :: s).
Definition valid_id (id : Z) : Prop := 0 <= id <= BTF_MAX_NR_TYPES.

(** What an operation requires of its arguments and of the last type. *)
Definition op_valid (op : btf_op) (last : option btf_type) : Prop :=
  let last_is P := match last with Some t => P t | None => False end in
  match op with
  | OpInt name sz enc => named name /\ sz ∈ [1; 2; 4; 8; 16] /\ 0 <= enc <= 7
  | OpFloat name sz => named name /\ sz ∈ [2; 4; 8; 12; 16]
  | OpPtr id | OpVolatile id | OpConst id | OpRestrict id | OpFuncProto id => valid_id id
  | OpArray i e _ => valid_id i /\ valid_id e
  | OpStruct _ _ | OpUnion _ _ | OpLocProto => True
  | OpField _ id off sz =>
      last_is (fun t => (btf_kind t = BTF_KIND_STRUCT \/ btf_kind t = BTF_KIND_UNION /\ off = 0) /\
                        btf_vlen t < BTF_MAX_VLEN) /\ valid_id id /\
      (sz = 0 /\ off mod 8 = 0 \/ 1 <= sz <= 255 /\ off <= 16777215)
  | OpEnum _ sz | OpEnum64 _ sz _ => sz ∈ [1; 2; 4; 8]
  | OpEnumValue name v =>
      last_is (fun t => btf_kind t = BTF_KIND_ENUM) /\ named name /\ INT_MIN <= v <= UINT_MAX
  | OpEnum64Value name _ => last_is (fun t => btf_kind t = BTF_KIND_ENUM64) /\ named name
  | OpFwd name k => named name /\ k <> BTF_FWD_OTHER
  | OpTypedef name id | OpTypeTag name id | OpTypeAttr name id => named name /\ valid_id id
  | OpFunc name l id | OpVar name l id => named name /\ 0 <= l <= 2 /\ valid_id id
  | OpFuncParam _ id => last_is (fun t => btf_kind t = BTF_KIND_FUNC_PROTO) /\ valid_id id
  | OpDatasec name _ | OpLocsec name => named name
  | OpDatasecVarInfo id _ _ => last_is (fun t => btf_kind t = BTF_KIND_DATASEC) /\ valid_id id
  | OpDeclTag v id c | OpDeclAttr v id c => named v /\ valid_id id /\ -1 <= c
  | OpLocParam sz _ => 1 <= sz <= 16
  | OpLocParamValue _ => last_is (fun t => btf_kind t = BTF_KIND_LOC_PARAM)
  | OpLocProtoParam id => last_is (fun t => btf_kind t = BTF_KIND_LOC_PROTO) /\ valid_id id
  | OpLocsecLoc f p _ => last_is (fun t => btf_kind t = BTF_KIND_LOCSEC) /\ valid_id f /\ valid_id p
  end.

(** The [info] word by its fields. *)
Definition info_word (k : btf_kind_t) (vlen : Z) (kflag : bool) : Z :=
  Z.b2z kflag * 2147483648 + Z_of_kind k * 16777216 + vlen.

(** A new type, or one more element of the last type, given the offset of the name. *)
Inductive effect :=
| NewType (k : btf_kind_t) (vlen : Z) (kflag : bool) (size_or_type : Z) (ex : list Z)
| NewElem (elem : Z -> list Z) (kflag : bool -> bool).

Definition op_effect (op : btf_op) : effect :=
  match op with
  | OpInt _ sz enc => NewType BTF_KIND_INT 0 false sz [enc * 16777216 + sz * 8]
  | OpFloat _ sz => NewType BTF_KIND_FLOAT 0 false sz []
  | OpPtr id => NewType BTF_KIND_PTR 0 false id []
  | OpArray i e n => NewType BTF_KIND_ARRAY 0 false 0 [e; i; n]
  | OpStruct _ sz => NewType BTF_KIND_STRUCT 0 false sz []
  | OpUnion _ sz => NewType BTF_KIND_UNION 0 false sz []
  | OpField _ id off sz =>
      NewElem (fun name => [name; id; off + sz * 16777216]) (fun kflag => kflag || negb (sz =? 0))
  | OpEnum _ sz => NewType BTF_KIND_ENUM 0 false sz []
  | OpEnumValue _ v => NewElem (fun name => [name; v mod 4294967296]) (fun kflag => kflag || (v <? 0))
  | OpEnum64 _ sz sg => NewType BTF_KIND_ENUM64 0 sg sz []
  | OpEnum64Value _ v => NewElem (fun name => [name; v mod 4294967296; v / 4294967296]) id
  | OpFwd _ BTF_FWD_ENUM => NewType BTF_KIND_ENUM 0 false 4 []
  | OpFwd _ k => NewType BTF_KIND_FWD 0 (match k with BTF_FWD_UNION => true | _ => false end) 0 []
  | OpTypedef _ id => NewType BTF_KIND_TYPEDEF 0 false id []
  | OpVolatile id => NewType BTF_KIND_VOLATILE 0 false id []
  | OpConst id => NewType BTF_KIND_CONST 0 false id []
  | OpRestrict id => NewType BTF_KIND_RESTRICT 0 false id []
  | OpTypeTag _ id => NewType BTF_KIND_TYPE_TAG 0 false id []
  | OpTypeAttr _ id => NewType BTF_KIND_TYPE_TAG 0 true id []
  | OpFunc _ l id => NewType BTF_KIND_FUNC l false id []
  | OpFuncProto id => NewType BTF_KIND_FUNC_PROTO 0 false id []
  | OpFuncParam _ ty => NewElem (fun name => [name; ty]) id
  | OpVar _ l id => NewType BTF_KIND_VAR 0 false id [l]
  | OpDatasec _ sz => NewType BTF_KIND_DATASEC 0 false sz []
  | OpDatasecVarInfo ty off sz => NewElem (fun _ => [ty; off; sz]) id
  | OpDeclTag _ id c => NewType BTF_KIND_DECL_TAG 0 false id [c mod 4294967296]
  | OpDeclAttr _ id c => NewType BTF_KIND_DECL_TAG 0 true id [c mod 4294967296]
  | OpLocParam sz fl => NewType BTF_KIND_LOC_PARAM 0 false sz [fl]
  | OpLocParamValue v => NewElem (fun _ => [v]) id
  | OpLocProto => NewType BTF_KIND_LOC_PROTO 0 false 0 []
  | OpLocProtoParam p => NewElem (fun _ => [p]) id
  | OpLocsec _ => NewType BTF_KIND_LOCSEC 0 false 0 []
  | OpLocsecLoc f p off => NewElem (fun _ => [f; p; off]) id
  end.

Definition last_type (cs : list (list Z)) : option btf_type := c ← last cs; type_at c.

(** The types after the operation, [off] being the offset of the name; a type that
    has all the elements it can count takes no more. *)
Definition op_types (op : btf_op) (cs : list (list Z)) (off : Z) : option (list (list Z)) :=
  match op_effect op with
  | NewType k vlen kflag s ex => Some (cs ++ [off :: info_word k vlen kflag :: s :: ex])
  | NewElem elem kflag =>
      t ← last_type cs;
      if btf_vlen t =? BTF_MAX_VLEN then None else
      Some (take (length cs - 1) cs ++
            [grown_type t (info_word (btf_kind t) (btf_vlen t + 1) (kflag (btf_kflag t))) (elem off)])
  end.

(** The value returned: the new identifier, or 0. *)
Definition op_ret (op : btf_op) (b : btf) : Z :=
  match op_effect op with NewType _ _ _ _ _ => start_id b + nr_types b | NewElem _ _ => 0 end.

(** The operation refuses its arguments. *)
Definition refused (r : Z) (b b' : btf) (o o' : oracle) : Prop :=
  (r = - EINVAL \/ r = - E2BIG \/ r = - ENOSPC) /\ b' = b /\ o' = o.

Create HintDb btf_ops.
#[export] Hint Unfold btf__add_int btf__add_float btf_add_ref_kind btf__add_ptr btf__add_array btf_add_composite
  btf__add_struct btf__add_union btf_add_enum_common btf__add_enum btf__add_enum64 btf__add_field
  btf__add_enum_value btf__add_enum64_value btf__add_typedef btf__add_volatile btf__add_const
  btf__add_restrict btf__add_type_tag btf__add_type_attr btf__add_func_proto
  btf__add_func_param btf__add_var btf__add_datasec btf__add_datasec_var_info btf_add_decl_tag
  btf__add_decl_tag btf__add_decl_attr btf__add_loc_param btf__add_loc_param_value btf__add_loc_proto
  btf__add_loc_proto_param btf__add_locsec btf__add_locsec_loc : btf_ops.

(** ** New types *)
Lemma info_word_eq k vlen kflag :
  known_kind k -> 0 <= vlen <= BTF_MAX_VLEN -> btf_type_info (kindz k) vlen (Z.b2z kflag) = info_word k vlen kflag.
Proof.
  intros Hk Hv. destruct (known_kind_range k Hk) as [Hr _].
  unfold kindz. rewrite btf_type_info_eq; [done | lia | done | destruct kflag; cbn; lia].
Qed.

Lemma info_word_fields k vlen kflag :
  known_kind k -> 0 <= vlen <= BTF_MAX_VLEN ->
  is_u32 (info_word k vlen kflag) /\ kind_of_Z (BTF_INFO_KIND (info_word k vlen kflag)) = k /\
  BTF_INFO_KIND (info_word k vlen kflag) = Z_of_kind k /\
  BTF_INFO_VLEN (info_word k vlen kflag) = vlen /\ BTF_INFO_KFLAG (info_word k vlen kflag) = Z.b2z kflag.
Proof.
  intros Hk Hv. rewrite <- info_word_eq by done. destruct (known_kind_range k Hk) as [Hr Hkk].
  destruct (btf_type_info_fields (kindz k) vlen (Z.b2z kflag)) as (H1 & H2 & H3 & H4);
    [exact Hr | done | destruct kflag; cbn; lia |].
  split; [done |]. split; [by rewrite H2 | done].
Qed.

Lemma new_type_ok lay k vlen kflag n s ex :
  known_kind k -> 0 <= vlen <= BTF_MAX_VLEN -> zlen ex = extra_words k vlen ->
  type_ok lay (n :: info_word k vlen kflag :: s :: ex).
Proof.
  intros Hk Hv Hz. destruct (info_word_fields k vlen kflag Hk Hv) as (_ & Hkk & _ & Hvv & _).
  eexists. split; [reflexivity |]. rewrite btf_type_size_known by (unfold btf_kind; cbn [info]; by rewrite Hkk).
  unfold btf_kind, btf_vlen. cbn [info]. rewrite Hkk, Hvv, !zlen_cons. lia.
Qed.

Lemma append_result_ext b name cs1 cs2 ok r b' :
  (forall off, 0 <= off <= INT_MAX -> (str_is_empty name = true -> off = 0) -> cs1 off = cs2 off) ->
  append_result b name cs1 ok r b' -> append_result b name cs2 ok r b'.
Proof.
  intros He (H1 & H2 & k & H3 & H4). split; [done |]. split; [done |]. exists k. split; [done |].
  destruct H4 as [(-> & off & types & Hoff & Hst & Hty & Hup)|H4]; [left | by right]. split; [done |]. exists off, types.
  split; [done |]. split; [done |]. split; [|done]. rewrite <- He; [done | done |].
  unfold name_stored in Hst. intros Hemp. by rewrite Hemp in Hst.
Qed.

Section Ops.
Context (b : btf) (cs : list (list Z)) (o : oracle).
Context (Hok : btf_ok b) (Hrep : rep_ok b) (Hcs : types_ok b cs).
Context (Hcnt : start_id b + nr_types b <= INT_MAX).

Lemma append_new name sz words k vlen kflag s ex :
  name_room b name -> name_arg name -> known_kind k -> 0 <= vlen <= BTF_MAX_VLEN -> 12 + 4 * zlen ex = sz ->
  sz <= INT_MAX -> zlen ex = extra_words k vlen -> is_u32 s -> Forall is_u32 ex ->
  (forall off, 0 <= off <= INT_MAX -> exists n,
     words off = n :: btf_type_info (kindz k) vlen (Z.b2z kflag) :: s :: ex /\ is_u32 n /\
     ((str_is_empty name = true -> off = 0) -> n = off)) ->
  exists r b' o', append_type b sz name words o = Some (r, b', o') /\
    append_result b name (fun off => Some (cs ++ [off :: info_word k vlen kflag :: s :: ex]))
      (start_id b + nr_types b) r b'.
Proof.
  intros Hroom Harg Hk Hv Hsz Hmax Hz Hs Hex Hw. pose proof (zlen_nonneg ex).
  destruct (append_type_ok b cs sz name words o Hok Hrep Hcs) as (r & b' & o' & He & Hres); try done; [lia | |].
  - intros off Hoff. destruct (Hw off Hoff) as (n & -> & Hn & _). rewrite info_word_eq by done.
    split; [by apply new_type_ok |]. split; [|rewrite !zlen_cons; lia].
    rewrite !Forall_cons. split_and!; try done. by apply info_word_fields.
  - exists r, b', o'. split; [done |]. eapply append_result_ext; [|exact Hres]. cbn beta. intros off Hoff Hemp.
    destruct (Hw off Hoff) as (n & -> & _ & Hn). by rewrite info_word_eq, (Hn Hemp) by done.
Qed.

(** The [info] word of a type just added, changed to another of the same size. *)
Lemma reinfo name k vlen kflag vlen' kflag' s r b' (o' : oracle) :
  known_kind k -> (forall v, extra_words k v = 0) -> 0 <= vlen <= BTF_MAX_VLEN -> 0 <= vlen' <= BTF_MAX_VLEN ->
  append_result b name (fun off => Some (cs ++ [[off; info_word k vlen kflag; s]])) (start_id b + nr_types b) r b' ->
  exists b'', (if 0 <? r
               then b' ← set_type_info b' r (btf_type_info (kindz k) vlen' (Z.b2z kflag')); Some (r, b', o')
               else Some (r, b', o')) = Some (r, b'', o') /\
    append_result b name (fun off => Some (cs ++ [[off; info_word k vlen' kflag'; s]])) (start_id b + nr_types b) r b''.
Proof.
  intros Hk Hx Hv Hv' (Hrep' & Hok' & x & Hx1 & Hres). pose proof (btf_ok_unfold b' Hok') as (_ & Hs & H1 & H2 & Hb).
  pose proof (btf_ok_unfold b Hok) as (_ & _ & Hs1 & _). pose proof (types_count _ _ Hcs) as Hn.
  pose proof (zlen_nonneg cs). unfold append_result.
  destruct Hres as [(-> & off & types & Hoff & Hst & [= <-] & Hup)|[Hr G]].
  2: { replace (0 <? r) with false by (destruct Hr as [[->| ->]| ->]; done). exists b'. split; [done |].
       split; [done |]. split; [done |]. exists x. split; [done |]. by right. }
  replace (0 <? _) with true by lia. rewrite info_word_eq by done. pose proof (up_types _ _ _ _ Hup) as Hcs'.
  pose proof (set_type_info_last b' cs off _ s [] (info_word k vlen' kflag') Hcs' H1 H2) as Hset.
  rewrite (up_start _ _ _ _ Hup), <- Hn in Hset. rewrite Hset. cbn [mbind option_bind].
  set (c' := [off; info_word k vlen' kflag'; s]).
  set (b'' := set_types b' (mjoin (cs ++ [c'])) (types_data_cap b') (type_offs b') (type_offs_cap b') (nr_types b')).
  destruct (info_word_fields k vlen' kflag' Hk Hv') as (Hw & _).
  assert (Hz : zlen (mjoin (cs ++ [c'])) = zlen (types_data b')).
  { rewrite (types_words _ _ Hcs'), !mjoin_snoc, !zlen_app. done. }
  assert (Ht : types_ok b'' (cs ++ [c'])).
  { destruct Hcs' as [Hw' Hi' Hn' Hall' Hl' Hlb' Hu']. split; try done.
    - cbn. rewrite Hi', !offsets_snoc. done.
    - cbn. rewrite Hn', !zlen_snoc. done.
    - apply Forall_app in Hall' as [Hall' _]. apply Forall_app. split; [done |]. constructor; [|done].
      apply new_type_ok; [done..|]. by rewrite Hx.
    - cbn. by rewrite Hz, Hl'.
    - cbn. rewrite Hw', mjoin_snoc in Hu'. apply Forall_app in Hu' as [Hu' Hc].
      rewrite !Forall_cons in Hc. rewrite mjoin_snoc. apply Forall_app. split; [done |]. unfold c'. rewrite !Forall_cons. tauto. }
  exists b''. split; [done |]. split; [|split].
  - apply rep_ok_unfold in Hrep'. apply rep_ok_unfold. exact Hrep'.
  - exact (btf_ok_intro b'' _ Ht Hs H1 H2 Hb).
  - exists x. split; [done |]. left. split; [done |]. exists off, (cs ++ [c']). split; [done |].
    split; [|split; [done |]; destruct Hup as [U1 U2 U3 U4 U5 U6 U7 U8]; split; try done].
    + unfold name_stored, string_at in *. destruct (str_is_empty name); [done |].
      destruct Hst as (n & -> & p & Hp & Hc). exists n. split; [done |]. exists p. split; [|done].
      rewrite btf__str_by_offset_eq in Hp |- *. exact Hp.
    + cbn [b'' set_types hdr]. rewrite U2. do 2 f_equal. rewrite !mjoin_snoc, !zlen_app. done.
Qed.

Definition op_result (op : btf_op) (r : Z) (b' : btf) (o' : oracle) : Prop :=
  (op_valid op (last_type cs) /\ append_result b (op_name op) (op_types op cs) (op_ret op b) r b') \/
  (~ op_valid op (last_type cs) /\ refused r b b' o o').

Definition op_done (op : btf_op) : Prop :=
  exists r b' o', exec op b o = Some (r, b', o') /\ op_result op r b' o'.

Lemma done_refused op e :
  exec op b o = Some (- e, b, o) -> e = EINVAL \/ e = E2BIG \/ e = ENOSPC -> ~ op_valid op (last_type cs) -> op_done op.
Proof.
  intros He Hr Hv. do 3 eexists. split; [exact He |]. right. split; [exact Hv |]. unfold refused.
  destruct Hr as [->|[->| ->]]; tauto.
Qed.

Lemma done_new op sz words k kflag s ex :
  op_effect op = NewType k 0 kflag s ex -> op_valid op (last_type cs) ->
  exec op b o = append_type b sz (op_name op) words o -> name_room b (op_name op) -> name_arg (op_name op) ->
  known_kind k -> 12 + 4 * zlen ex = sz -> sz <= 24 -> zlen ex = extra_words k 0 -> is_u32 s -> Forall is_u32 ex ->
  (forall off, 0 <= off <= INT_MAX -> exists n,
     words off = n :: btf_type_info (kindz k) 0 (Z.b2z kflag) :: s :: ex /\ is_u32 n /\
     ((str_is_empty (op_name op) = true -> off = 0) -> n = off)) ->
  op_done op.
Proof.
  intros Heff Hv He Hroom Harg Hk Hsz Hmax Hz Hs Hex Hw.
  destruct (append_new (op_name op) sz words k 0 kflag s ex) as (r & b' & o' & Ha & Hres);
    [done | done | done | unfold BTF_MAX_VLEN; lia | done | unfold INT_MAX; lia | done | done | done | done |].
  exists r, b', o'. split; [rewrite He; exact Ha |]. left. split; [done |].
  unfold op_types, op_ret. by rewrite Heff.
Qed.

Lemma named_empty name : named name <-> str_is_empty name = false.
Proof.
  unfold named. split; [by intros (c & s & ->) |]. destruct name as [[|c s]|]; try done. by exists c, s.
Qed.

Lemma not_named name : str_is_empty name = true -> ~ named name.
Proof. intros He Hn%named_empty. congruence. Qed.

Lemma bad_id_spec id : INT_MIN <= id <= UINT_MAX -> (bad_id id = true /\ ~ valid_id id) \/ (bad_id id = false /\ valid_id id /\ is_u32 id).
Proof.
  intros Hr. unfold bad_id, validate_type_id, valid_id, is_u32, BTF_MAX_NR_TYPES, INT_MIN, UINT_MAX in *.
  destruct (id <? 0) eqn:Hn; cbn [orb]; [left; split; [done | lia] |].
  rewrite u32_small by lia. destruct (2147483647 <? id) eqn:Hm; cbn; [left; split; [done | lia] |].
  right. split; [done |]. lia.
Qed.

Lemma existsb_eqb x l : existsb (Z.eqb x) l = true <-> x ∈ l.
Proof.
  rewrite existsb_exists. split.
  - intros (y & Hy & He). rewrite <- list_elem_of_In in Hy. by replace x with y by lia.
  - intros Hx. exists x. rewrite <- list_elem_of_In. split; [done | lia].
Qed.

(** Powers of two up to a limit. *)
Lemma pow2_upto lim sz :
  0 <= sz -> lim = 8 \/ lim = 16 ->
  (sz =? 0) || negb (Z.land sz (sz - 1) =? 0) || (lim <? sz) = negb (existsb (Z.eqb sz) (filter (fun x => x <= lim) [1; 2; 4; 8; 16])).
Proof.
  intros Hz Hlim. destruct (decide (sz <= 16)) as [Hr|Hr].
  - assert (Hall : forallb (fun i => forallb (fun lim => eqb ((i =? 0) || negb (Z.land i (i - 1) =? 0) || (lim <? i))
        (negb (existsb (Z.eqb i) (filter (fun x => x <= lim) [1; 2; 4; 8; 16])))) [8; 16]) (seqZ 0 17) = true) by (by vm_compute).
    rewrite forallb_forall in Hall. specialize (Hall sz). rewrite <- list_elem_of_In, elem_of_seqZ in Hall.
    specialize (Hall ltac:(lia)). cbn beta in Hall. rewrite forallb_forall in Hall. specialize (Hall lim).
    apply eqb_prop, Hall. rewrite <- list_elem_of_In. destruct Hlim as [->| ->]; repeat constructor.
  - replace (lim <? sz) with true by lia. rewrite orb_true_r.
    destruct (existsb _ _) eqn:He; [|done]. apply existsb_eqb, list_elem_of_filter in He as [_ He].
    rewrite !elem_of_cons, elem_of_nil in He. lia.
Qed.

Lemma int_size sz :
  0 <= sz <= SIZE_MAX ->
  (sz =? 0) || negb (Z.land sz (u64 (sz - 1)) =? 0) || (16 <? sz) = negb (existsb (Z.eqb sz) [1; 2; 4; 8; 16]).
Proof.
  intros Hz. unfold SIZE_MAX in Hz. destruct (sz =? 0) eqn:H0; [by replace sz with 0 by lia |].
  rewrite u64_small by lia. pose proof (pow2_upto 16 sz ltac:(lia) ltac:(by right)) as Hp. rewrite H0 in Hp. exact Hp.
Qed.

Lemma enum_size sz :
  is_u32 sz ->
  (sz =? 0) || negb (Z.land sz (u32 (sz - 1)) =? 0) || (8 <? sz) = negb (existsb (Z.eqb sz) [1; 2; 4; 8]).
Proof.
  intros Hz. unfold is_u32 in Hz. destruct (sz =? 0) eqn:H0; [by replace sz with 0 by lia |].
  rewrite u32_small by lia. pose proof (pow2_upto 8 sz ltac:(lia) ltac:(by left)) as Hp. rewrite H0 in Hp. exact Hp.
Qed.

Lemma encoding_guard enc :
  negb (andn enc (Z.lor (Z.lor BTF_INT_SIGNED BTF_INT_CHAR) BTF_INT_BOOL) =? 0) = negb ((0 <=? enc) && (enc <=? 7)).
Proof.
  change (andn enc _) with (Z.land enc (Z.lnot (Z.ones 3))). rewrite <- Z.ldiff_land, Z.ldiff_ones_r by lia.
  rewrite Z.shiftl_mul_pow2, Z.shiftr_div_pow2 by lia. change (2 ^ 3) with 8. f_equal. apply eq_true_iff_eq. lia.
Qed.

(** *** The functions one by one *)

(** Evaluate the conditions that are known. *)
Ltac guards :=
  repeat match goal with
  | H : ?x = true |- context [if ?x then _ else _] => rewrite H
  | H : ?x = false |- context [if ?x then _ else _] => rewrite H
  end; cbn [orb andb negb].

Ltac refuse :=
  first [apply (done_refused _ EINVAL); [solve [cbn [exec]; autounfold with btf_ops; guards; reflexivity] | by left |]
        |apply (done_refused _ E2BIG); [solve [cbn [exec]; autounfold with btf_ops; guards; reflexivity] | by right; left |]
        |apply (done_refused _ ENOSPC); [solve [cbn [exec]; autounfold with btf_ops; guards; reflexivity] | by right; right |]];
  cbn [op_valid];
  try solve [let Hv := fresh "Hv" in intros Hv; destruct_and? Hv;
             first [contradiction | (eapply not_named; eassumption) | lia]].


(** The offset of the name, when the words start with it or with 0. *)
Ltac name_word :=
  let off := fresh "off" in let Hoff := fresh "Hoff" in
  intros off Hoff; eexists; split; [reflexivity |]; unfold is_u32, INT_MAX in *;
  split; [lia | first [done | let H := fresh in intros H; by rewrite H]].

Ltac u32_words := repeat constructor; unfold is_u32 in *; lia.

Ltac new_type :=
  eapply done_new;
  [ reflexivity
  | cbn [op_valid]; try done
  | cbn [exec op_name]; autounfold with btf_ops; guards; reflexivity
  | done | done | done | reflexivity | lia | reflexivity | unfold is_u32 in *; try lia | try u32_words | try name_word].

Lemma op_int_done name sz enc :
  op_args (OpInt name sz enc) -> name_room b name -> op_done (OpInt name sz enc).
Proof.
  intros (Harg & Hsz & Henc) Hroom. cbn [op_name] in *. pose proof (int_size sz Hsz) as Hg.
  pose proof (encoding_guard enc) as He. destruct (str_is_empty name) eqn:Hn; [refuse |].
  destruct (existsb (Z.eqb sz) [1; 2; 4; 8; 16]) eqn:Hin; cbn [negb] in Hg.
  2: { refuse. intros (_ & Hv & _). apply existsb_eqb in Hv. congruence. }
  destruct ((0 <=? enc) && (enc <=? 7)) eqn:Hen; cbn [negb] in He; [|refuse].
  apply existsb_eqb in Hin. assert (Hs16 : 1 <= sz <= 16) by (rewrite !elem_of_cons, elem_of_nil in Hin; lia).
  new_type.
  - split_and!; [by apply named_empty | done | lia..].
  - intros off Hoff. unfold INT_MAX, is_u32 in *. exists off. rewrite (lor_shift_add enc 24) by lia.
    split; [done | split; [lia | done]].
Qed.

Lemma op_float_done name sz : op_args (OpFloat name sz) -> name_room b name -> op_done (OpFloat name sz).
Proof.
  intros (Harg & Hsz) Hroom. cbn [op_name] in *. destruct (str_is_empty name) eqn:Hn; [refuse |].
  destruct (negb (sz =? 2) && negb (sz =? 4) && negb (sz =? 8) && negb (sz =? 12) && negb (sz =? 16)) eqn:Hg.
  { refuse. intros (_ & Hv). rewrite !elem_of_cons, elem_of_nil in Hv. lia. }
  assert (Hin : sz ∈ [2; 4; 8; 12; 16]) by (rewrite !elem_of_cons, elem_of_nil; lia).
  assert (Hs16 : 2 <= sz <= 16) by lia.
  new_type. split; [by apply named_empty | done].
Qed.

Lemma ref_kind_done op name k kflag id :
  op_effect op = NewType k 0 kflag id [] -> op_name op = name -> name_arg name -> name_room b name ->
  exec op b o = btf_add_ref_kind b k name id (Z.b2z kflag) o -> c_int id -> known_kind k -> extra_words k 0 = 0 ->
  (op_valid op (last_type cs) <-> valid_id id) -> op_done op.
Proof.
  intros Heff <- Harg Hroom He Hid Hk Hx Hv. unfold c_int, INT_MAX in Hid. unfold btf_add_ref_kind in He.
  destruct (bad_id_spec id) as [[Hb Hn]|(Hb & Hn & Hu)]; [unfold UINT_MAX; lia | |]; rewrite Hb in He.
  - apply (done_refused _ EINVAL He); [by left | tauto].
  - eapply (done_new _ 12 _ k kflag id [] Heff); [tauto | exact He | done | done | done | done | lia | done | done | done |].
    intros off Hoff. exists off. split; [done |]. split; [unfold is_u32, INT_MAX in *; lia | done].
Qed.

(** The functions that refer to one type, without and with a name. *)
Lemma op_ref_done op :
  match op with OpPtr _ | OpVolatile _ | OpConst _ | OpRestrict _ => True | _ => False end ->
  op_args op -> name_room b None -> op_done op.
Proof.
  intros Hop [_ Ha] Hroom. destruct op; try done; (eapply ref_kind_done; [reflexivity | reflexivity | done | done | reflexivity | done..]).
Qed.

Lemma op_named_ref_done op name :
  match op with OpTypedef n _ | OpTypeTag n _ | OpTypeAttr n _ => n = name | _ => False end ->
  op_args op -> name_room b name -> op_done op.
Proof.
  intros Hop [Harg Ha] Hroom.
  destruct (str_is_empty name) eqn:Hn; destruct op; try done; subst; cbn [op_name] in Harg; try refuse.
  all: eapply ref_kind_done; [reflexivity | reflexivity | done | done | | done.. |].
  all: try (cbn [exec]; unfold btf__add_typedef, btf__add_type_tag, btf__add_type_attr; by rewrite Hn).
  all: cbn [op_valid]; rewrite named_empty; tauto.
Qed.

Ltac id_cases id :=
  let Hb := fresh "Hb" in let Hv := fresh "Hv" in let Hu := fresh "Hu" in
  destruct (bad_id_spec id) as [[Hb Hv]|(Hb & Hv & Hu)];
  [unfold c_int, is_u32, INT_MIN, INT_MAX, UINT_MAX in *; lia | |].

Lemma op_array_done i e n : op_args (OpArray i e n) -> name_room b None -> op_done (OpArray i e n).
Proof.
  intros (_ & Hi & He & Hn) Hroom. id_cases i.
  { apply (done_refused _ EINVAL); [|by left | intros []; done]. cbn [exec]. unfold btf__add_array. by rewrite Hb. }
  id_cases e.
  { apply (done_refused _ EINVAL); [|by left | intros []; done]. cbn [exec]. unfold btf__add_array. by rewrite Hb0, orb_true_r. }
  assert (Hg : bad_id i || bad_id e = false) by (by rewrite Hb, Hb0). new_type.
Qed.

Lemma op_composite_done op :
  match op with OpStruct _ _ | OpUnion _ _ | OpLocProto => True | _ => False end ->
  op_args op -> name_room b (op_name op) -> op_done op.
Proof. intros Hop [Harg Ha] Hroom. destruct op; try done; cbn [op_name] in *; new_type. Qed.

Lemma op_enum_done op sz :
  match op with OpEnum _ s | OpEnum64 _ s _ => s = sz | _ => False end ->
  op_args op -> name_room b (op_name op) -> op_done op.
Proof.
  intros Hop [Harg Ha] Hroom. assert (Hu : is_u32 sz) by (destruct op; try done; by subst).
  pose proof (enum_size sz Hu) as Hg. destruct (existsb (Z.eqb sz) [1; 2; 4; 8]) eqn:Hin; cbn [negb] in Hg.
  - apply existsb_eqb in Hin. assert (Hs8 : 1 <= sz <= 8) by (rewrite !elem_of_cons, elem_of_nil in Hin; lia).
    destruct op; try done; subst; cbn [op_name] in *; new_type.
  - destruct op; try done; subst; refuse; intros Hv%existsb_eqb; congruence.
Qed.

Lemma op_named_type_done op name :
  match op with OpDatasec n _ | OpLocsec n => n = name | _ => False end ->
  op_args op -> name_room b (op_name op) -> op_done op.
Proof.
  intros Hop [Harg Ha] Hroom. destruct (str_is_empty name) eqn:Hn; destruct op; try done; subst; cbn [op_name] in *;
    [refuse.. | |]; (new_type; by apply named_empty).
Qed.

Lemma op_func_proto_done id : op_args (OpFuncProto id) -> name_room b None -> op_done (OpFuncProto id).
Proof. intros [_ Ha] Hroom. id_cases id; [refuse | new_type]. Qed.

Lemma op_loc_param_done sz fl : op_args (OpLocParam sz fl) -> name_room b None -> op_done (OpLocParam sz fl).
Proof.
  intros (_ & Hsz & Hfl) Hroom. unfold is_u32 in Hsz.
  destruct ((sz =? 0) || (16 <? sz)) eqn:Hg; [refuse | new_type]. lia.
Qed.

Lemma op_var_done name l id : op_args (OpVar name l id) -> name_room b name -> op_done (OpVar name l id).
Proof.
  intros (Harg & Hl & Hid) Hroom. cbn [op_name] in *. destruct (str_is_empty name) eqn:Hn; [refuse |].
  destruct (negb (l =? 0) && negb (l =? 1) && negb (l =? 2)) eqn:Hg; [refuse |]. id_cases id; [refuse |].
  assert (Hl2 : 0 <= l <= 2) by lia. new_type. split; [by apply named_empty | done].
Qed.

Lemma op_decl_tag_done op v id c :
  match op with OpDeclTag v' id' c' | OpDeclAttr v' id' c' => v' = v /\ id' = id /\ c' = c | _ => False end ->
  op_args op -> name_room b (op_name op) -> op_done op.
Proof.
  intros Hop [Harg Ha] Hroom. assert (Hr : c_int id /\ c_int c) by (destruct op; try done; destruct Hop as (-> & -> & ->); exact Ha).
  destruct Hr as [Hid Hc].
  destruct (str_is_empty v || (c <? -1)) eqn:Hg.
  { assert (Hn : ~ (named v /\ valid_id id /\ -1 <= c)).
    { intros (Hv%named_empty & _ & Hc1). rewrite Hv in Hg. cbn in Hg. lia. }
    destruct op; try done; destruct Hop as (-> & -> & ->); refuse; exact Hn. }
  id_cases id; [destruct op; try done; destruct Hop as (-> & -> & ->); refuse; tauto |].
  assert (Hn : named v /\ valid_id id /\ -1 <= c) by (bools; split_and!; [by apply named_empty | apply Hv.. | lia]).
  destruct op; try done; destruct Hop as (-> & -> & ->); cbn [op_name] in *; new_type.
Qed.

(** A type whose [info] word is changed after it was added. *)
Lemma reinfo_done op name k vlen kflag s m :
  op_effect op = NewType k vlen kflag s [] -> op_name op = name -> name_arg name -> name_room b name ->
  op_valid op (last_type cs) -> known_kind k -> (forall v, extra_words k v = 0) -> 0 <= vlen <= BTF_MAX_VLEN ->
  is_u32 s -> bad_id s = false ->
  exec op b o = ('(r, b', o') ← btf_add_ref_kind b k name s 0 o; m r b' o') ->
  (forall r b' o', m r b' o' =
     if 0 <? r then b' ← set_type_info b' r (btf_type_info (kindz k) vlen (Z.b2z kflag)); Some (r, b', o')
     else Some (r, b', o')) -> op_done op.
Proof.
  intros Heff <- Harg Hroom Hv Hk Hx Hvl Hs Hb He Hm. unfold btf_add_ref_kind in He. rewrite Hb in He.
  destruct (append_new (op_name op) 12 (fun n => [n; btf_type_info (kindz k) 0 0; s]) k 0 false s [])
    as (r & b' & o' & Ha & Hres);
    [done | done | done | unfold BTF_MAX_VLEN; lia | done | unfold INT_MAX; lia | by rewrite Hx | done | done | |].
  { intros off Hoff. exists off. split; [done |]. split; [unfold is_u32, INT_MAX in *; lia | done]. }
  destruct (reinfo (op_name op) k 0 false vlen kflag s r b' o' Hk Hx ltac:(unfold BTF_MAX_VLEN; lia) Hvl Hres)
    as (b'' & Hset & Hres').
  rewrite Ha in He. cbn [mbind option_bind] in He. rewrite Hm, Hset in He.
  exists r, b'', o'. split; [exact He |]. left. split; [done |]. unfold op_types, op_ret. by rewrite Heff.
Qed.

Lemma op_func_done name l id : op_args (OpFunc name l id) -> name_room b name -> op_done (OpFunc name l id).
Proof.
  intros (Harg & Hl & Hid) Hroom. cbn [op_name] in *.
  destruct (str_is_empty name) eqn:Hn.
  { apply (done_refused _ EINVAL); [|by left | intros [Hv _]; by eapply not_named]. cbn [exec]. unfold btf__add_func. by rewrite Hn. }
  destruct (negb (l =? 0) && negb (l =? 1) && negb (l =? 2)) eqn:Hg.
  { apply (done_refused _ EINVAL); [|by left | intros (_ & ? & _); lia]. cbn [exec]. unfold btf__add_func. by rewrite Hn, Hg. }
  assert (Hl2 : 0 <= l <= 2) by (unfold is_u32 in *; lia). id_cases id.
  { apply (done_refused _ EINVAL); [|by left | intros (_ & _ & ?); done]. cbn [exec].
    unfold btf__add_func, btf_add_ref_kind. by rewrite Hn, Hg, Hb. }
  eapply reinfo_done; [reflexivity | reflexivity | done | done | | done | done | unfold BTF_MAX_VLEN; lia | done | done | |].
  - cbn [op_valid]. split; [by apply named_empty | done].
  - cbn [exec]. unfold btf__add_func. rewrite Hn, Hg. reflexivity.
  - done.
Qed.

Lemma op_fwd_done name k : op_args (OpFwd name k) -> name_room b name -> op_done (OpFwd name k).
Proof.
  intros (Harg & _) Hroom. cbn [op_name] in *. destruct (str_is_empty name) eqn:Hn.
  { apply (done_refused _ EINVAL); [|by left | intros [Hv _]; by eapply not_named]. cbn [exec]. unfold btf__add_fwd. by rewrite Hn. }
  pose proof (proj2 (named_empty name) Hn) as Hnm.
  assert (Hle : forall (r : Z) (x y : btf_res), (if r <=? 0 then x else y) = (if 0 <? r then y else x)).
  { intros r x y. rewrite Z.leb_antisym. by destruct (0 <? r). }
  destruct k.
  1,2: eapply reinfo_done; [reflexivity | reflexivity | done | done | by split | done | done | unfold BTF_MAX_VLEN; lia | done | done | |];
    [cbn [exec]; unfold btf__add_fwd; rewrite Hn; reflexivity | intros; apply Hle].
  - eapply done_new; [reflexivity | by split | cbn [exec]; unfold btf__add_fwd; rewrite Hn; reflexivity |
      done | done | done | reflexivity | lia | reflexivity | done | done | name_word].
  - apply (done_refused _ EINVAL); [|by left | intros [_ ?]; done]. cbn [exec]. unfold btf__add_fwd. by rewrite Hn.
Qed.

(** ** New elements of the last type *)
Lemma last_cases :
  ((nr_types b =? 0) = true /\ last_type cs = None) \/
  exists cs0 t, (nr_types b =? 0) = false /\ cs = cs0 ++ [type_words t] /\ btf_last_type b = Some t /\ last_type cs = Some t.
Proof.
  pose proof (btf_ok_unfold b Hok) as (_ & _ & H1 & H2 & _). pose proof Hcs as [_ _ Hn Hall _ _ _].
  pose proof Hcs as Hcs'. destruct (decide (cs = [])) as [He|He].
  - left. by rewrite Hn, He.
  - right. destruct (exists_last He) as (cs0 & c & Hc). rewrite Hc in *. rewrite zlen_snoc in Hn. pose proof (zlen_nonneg cs0). apply Forall_app in Hall as [_ Hty].
    apply Forall_cons in Hty as [(t & Ht & _) _]. exists cs0, t. split; [lia |].
    destruct c as [|n [|i [|s ex]]]; try done. cbn in Ht. injection Ht as <-. split; [done |].
    split; [by apply (btf_last_type_eq b cs0) |]. unfold last_type. by rewrite last_snoc.
Qed.

Lemma btf_type_inc_vlen_spec t :
  known_kind (btf_kind t) ->
  btf_vlen t < BTF_MAX_VLEN /\ btf_type_inc_vlen t = Ok (info_word (btf_kind t) (btf_vlen t + 1) (btf_kflag t)) \/
  btf_vlen t = BTF_MAX_VLEN /\ btf_type_inc_vlen t = Err ENOSPC.
Proof.
  intros Hk. pose proof (vlen_range t) as Hv. unfold btf_type_inc_vlen, BTF_MAX_VLEN.
  destruct (btf_vlen t =? 16777215) eqn:He; [right; split; [lia | reflexivity] |]. left. split; [lia |]. f_equal.
  apply info_word_eq; [exact Hk | unfold BTF_MAX_VLEN; lia].
Qed.

Lemma done_elem op cs0 t sz words update elem kf :
  op_effect op = NewElem elem kf -> cs = cs0 ++ [type_words t] -> op_valid op (last_type cs) ->
  exec op b o = append_elem b sz (op_name op) words update o -> name_room b (op_name op) -> name_arg (op_name op) ->
  0 <= sz <= 12 -> known_kind (btf_kind t) ->
  4 * extra_words (btf_kind t) (btf_vlen t + 1) = 4 * extra_words (btf_kind t) (btf_vlen t) + sz ->
  (forall off, 0 <= off <= INT_MAX -> words off = elem off /\ Forall is_u32 (elem off) /\ 4 * zlen (elem off) = sz) ->
  (btf_vlen t < BTF_MAX_VLEN /\ update t = Ok (info_word (btf_kind t) (btf_vlen t + 1) (kf (btf_kflag t))) \/
   btf_vlen t = BTF_MAX_VLEN /\ update t = Err ENOSPC) -> op_done op.
Proof.
  intros Heff Hc Hv He Hroom Harg Hsz Hk Hx Hw Hupd. pose proof (vlen_range t) as Hvr.
  assert (Hlast : last_type cs = Some t) by (unfold last_type; rewrite Hc, last_snoc; by destruct t).
  assert (Hcs' : types_ok b (cs0 ++ [type_words t])) by (by rewrite <- Hc).
  set (types' := fun off => match update t with
    | Ok w => Some (cs0 ++ [grown_type t w (words off)]) | Err _ => None end).
  destruct (append_elem_ok b cs0 t sz (op_name op) words update types' o Hok Hrep Hcs')
    as (r & b' & o' & Ha & Hres); [unfold INT_MAX; lia | done | done | | | |].
  - intros off Hoff. destruct (Hw off Hoff) as (-> & H1 & H2). by split.
  - split; [exact Hk |]. split; [exact Hx |]. destruct Hupd as [[Hlt ->]|[_ ->]]; [|reflexivity].
    unfold BTF_MAX_VLEN in Hlt. destruct (info_word_fields (btf_kind t) (btf_vlen t + 1) (kf (btf_kflag t)) Hk)
      as (H1 & H2 & _ & H3 & _); [unfold BTF_MAX_VLEN; lia |].
    split; [exact H1 |]. split; [exact H2 | exact H3].
  - intros w off Hu. unfold types'. by rewrite Hu.
  - exists r, b', o'. split; [rewrite He; exact Ha |]. left. split; [done |].
    unfold op_ret. rewrite Heff. eapply append_result_ext; [|exact Hres]. cbn beta. intros off Hoff _. unfold types'.
    unfold op_types. rewrite Heff, Hlast. cbn [mbind option_bind].
    destruct Hupd as [[Hlt ->]|[-> ->]]; [|reflexivity]. replace (btf_vlen t =? BTF_MAX_VLEN) with false by lia.
    destruct (Hw off Hoff) as (-> & _). rewrite Hc, length_app, take_app_le by (cbn; lia).
    by rewrite take_ge by (cbn; lia).
Qed.

(** The functions that require a last type of kind [k] and a condition [good] on
    their arguments. *)
Definition on_last (k : btf_kind_t) (m : btf_res) : btf_res :=
  if nr_types b =? 0 then Some (- EINVAL, b, o) else
  t ← btf_last_type b;
  if negb (is_kind t k) then Some (- EINVAL, b, o) else m.

Lemma on_last_spec k m :
  (on_last k m = Some (- EINVAL, b, o) /\
   ~ match last_type cs with Some t => btf_kind t = k | None => False end) \/
  (on_last k m = m /\ exists cs0 t, cs = cs0 ++ [type_words t] /\ last_type cs = Some t /\ btf_kind t = k).
Proof.
  unfold on_last. destruct last_cases as [[Hnr Hl]|(cs0 & t & Hnr & Hc & Hl & Hlt)]; rewrite Hnr.
  - left. rewrite Hl. split; [reflexivity | tauto].
  - rewrite Hl, Hlt. cbn [mbind option_bind]. unfold is_kind. destruct (bool_decide (btf_kind t = k)) eqn:Hk.
    + apply bool_decide_eq_true in Hk. right. split; [done |]. by exists cs0, t.
    + apply bool_decide_eq_false in Hk. left. by split.
Qed.

Lemma elem_done op k elem sz (good : bool) :
  op_effect op = NewElem elem id -> known_kind k ->
  (forall v, 4 * extra_words k (v + 1) = 4 * extra_words k v + sz) -> 0 <= sz <= 12 ->
  (op_valid op (last_type cs) <-> match last_type cs with Some t => btf_kind t = k | None => False end /\ good = true) ->
  (good = false -> exec op b o = Some (- EINVAL, b, o)) ->
  (good = true -> exec op b o = on_last k (append_elem b sz (op_name op) elem btf_type_inc_vlen o)) ->
  name_room b (op_name op) -> name_arg (op_name op) ->
  (good = true -> forall off, 0 <= off <= INT_MAX -> Forall is_u32 (elem off) /\ 4 * zlen (elem off) = sz) ->
  op_done op.
Proof.
  intros Heff Hk Hx Hsz Hv He1 He2 Hroom Harg Hw. destruct good.
  2: { apply (done_refused _ EINVAL (He1 eq_refl)); [by left |]. rewrite Hv. by intros [_ ?]. }
  specialize (He2 eq_refl). destruct (on_last_spec k (append_elem b sz (op_name op) elem btf_type_inc_vlen o))
    as [[Hon Hn]|(Hon & cs0 & t & Hc & Hl & Hkt)]; rewrite Hon in He2.
  - apply (done_refused _ EINVAL He2); [by left |]. rewrite Hv. by intros [? _].
  - apply (done_elem op cs0 t sz elem btf_type_inc_vlen elem id Heff Hc); try assumption.
    + rewrite Hv, Hl. by split.
    + by rewrite Hkt.
    + rewrite Hkt. apply Hx.
    + intros off Hoff. split; [done |]. by apply Hw.
    + apply btf_type_inc_vlen_spec. by rewrite Hkt.
Qed.

Lemma op_func_param_done name id : op_args (OpFuncParam name id) -> name_room b name -> op_done (OpFuncParam name id).
Proof.
  intros (Harg & Hid) Hroom. cbn [op_name] in *.
  apply (elem_done _ BTF_KIND_FUNC_PROTO (fun n => [n; id]) 8 (negb (bad_id id))); try done; [cbn; lia | | | |].
  - cbn [op_valid]. id_cases id; rewrite Hb; cbn [negb]; intuition discriminate.
  - intros Hg%negb_false_iff. cbn [exec]. unfold btf__add_func_param. by rewrite Hg.
  - intros Hg%negb_true_iff. cbn [exec]. unfold btf__add_func_param. by rewrite Hg.
  - intros Hg off Hoff. id_cases id; [by rewrite Hb in Hg |]. split; [|done]. unfold INT_MAX in Hoff. u32_words.
Qed.

Lemma op_datasec_var_info_done id off sz :
  op_args (OpDatasecVarInfo id off sz) -> name_room b None -> op_done (OpDatasecVarInfo id off sz).
Proof.
  intros (_ & Hid & Hoff & Hsz) Hroom.
  apply (elem_done _ BTF_KIND_DATASEC (fun _ => [id; off; sz]) 12 (negb (bad_id id))); try done; [cbn; lia | | | |].
  - cbn [op_valid]. id_cases id; rewrite Hb; cbn [negb]; intuition discriminate.
  - intros Hg%negb_false_iff. change (on_last BTF_KIND_DATASEC (if bad_id id then Some (- EINVAL, b, o) else
      append_elem b 12 None (fun _ => [id; off; sz]) btf_type_inc_vlen o) = Some (- EINVAL, b, o)). rewrite Hg.
    by destruct (on_last_spec BTF_KIND_DATASEC (Some (- EINVAL, b, o))) as [[-> _]|[-> _]].
  - intros Hg%negb_true_iff. cbn [exec]. unfold btf__add_datasec_var_info. by rewrite Hg.
  - intros Hg n Hn. id_cases id; [by rewrite Hb in Hg |]. split; [|done]. u32_words.
Qed.

Lemma op_loc_param_value_done v : op_args (OpLocParamValue v) -> name_room b None -> op_done (OpLocParamValue v).
Proof.
  intros (_ & Hv) Hroom.
  apply (elem_done _ BTF_KIND_LOC_PARAM (fun _ => [v]) 4 true); try done; [cbn; lia | |].
  - cbn [op_valid]. intuition.
  - intros _ n Hn. split; [|done]. u32_words.
Qed.

Lemma op_loc_proto_param_done id : op_args (OpLocProtoParam id) -> name_room b None -> op_done (OpLocProtoParam id).
Proof.
  intros (_ & Hid) Hroom.
  apply (elem_done _ BTF_KIND_LOC_PROTO (fun _ => [id]) 4 (negb (bad_id id))); try done; [cbn; lia | | | |].
  - cbn [op_valid]. id_cases id; rewrite Hb; cbn [negb]; intuition discriminate.
  - intros Hg%negb_false_iff. cbn [exec]. unfold btf__add_loc_proto_param. by rewrite Hg.
  - intros Hg%negb_true_iff. cbn [exec]. unfold btf__add_loc_proto_param. by rewrite Hg.
  - intros Hg n Hn. split; [|done]. u32_words.
Qed.

Lemma op_locsec_loc_done f p off : op_args (OpLocsecLoc f p off) -> name_room b None -> op_done (OpLocsecLoc f p off).
Proof.
  intros (_ & Hf & Hp & Hoff) Hroom.
  apply (elem_done _ BTF_KIND_LOCSEC (fun _ => [f; p; off]) 12 (negb (bad_id f || bad_id p))); try done; [cbn; lia | | | |].
  - cbn [op_valid]. id_cases f; id_cases p; rewrite Hb, Hb0; cbn [negb orb]; intuition discriminate.
  - intros Hg%negb_false_iff. cbn [exec]. unfold btf__add_locsec_loc. by rewrite Hg.
  - intros Hg%negb_true_iff. cbn [exec]. unfold btf__add_locsec_loc. by rewrite Hg.
  - intros Hg n Hn. split; [|done]. u32_words.
Qed.

Lemma op_enum64_value_done name v : op_args (OpEnum64Value name v) -> name_room b name -> op_done (OpEnum64Value name v).
Proof.
  intros (Harg & Hv) Hroom. cbn [op_name] in *. unfold SIZE_MAX in Hv.
  apply (elem_done _ BTF_KIND_ENUM64 (fun n => [n; v mod 4294967296; v / 4294967296]) 12 (negb (str_is_empty name)));
    try done; [cbn; lia | | | |].
  - cbn [op_valid]. rewrite named_empty, negb_true_iff. done.
  - intros Hg%negb_false_iff. change (on_last BTF_KIND_ENUM64 (if str_is_empty name then Some (- EINVAL, b, o) else
      append_elem b 12 name (fun n => [n; u32 v; Z.shiftr v 32]) btf_type_inc_vlen o) = Some (- EINVAL, b, o)). rewrite Hg.
    by destruct (on_last_spec BTF_KIND_ENUM64 (Some (- EINVAL, b, o))) as [[-> _]|[-> _]].
  - intros Hg%negb_true_iff. cbn [exec]. unfold btf__add_enum64_value. rewrite Hg, Z.shiftr_div_pow2 by lia. reflexivity.
  - intros Hg n Hn. split; [|done]. unfold INT_MAX in Hn. u32_words.
Qed.

Lemma enum_value_info t v :
  known_kind (btf_kind t) ->
  let update t := match btf_type_inc_vlen t with
    | Err e => Err e
    | Ok info => if v <? 0 then Ok (btf_type_info (BTF_INFO_KIND info) (BTF_INFO_VLEN info) 1) else Ok info
    end in
  btf_vlen t < BTF_MAX_VLEN /\ update t = Ok (info_word (btf_kind t) (btf_vlen t + 1) (btf_kflag t || (v <? 0))) \/
  btf_vlen t = BTF_MAX_VLEN /\ update t = Err ENOSPC.
Proof.
  intros Hk update. pose proof (vlen_range t) as Hv. unfold update.
  destruct (btf_type_inc_vlen_spec t Hk) as [[Hlt ->]|[Heq ->]]; [left | right; by split]. split; [exact Hlt |].
  unfold BTF_MAX_VLEN in Hlt.
  destruct (info_word_fields (btf_kind t) (btf_vlen t + 1) (btf_kflag t) Hk) as (_ & _ & Hkk & Hvv & _);
    [unfold BTF_MAX_VLEN; lia |].
  destruct (v <? 0); rewrite ?orb_false_r, ?orb_true_r; [|reflexivity]. f_equal. rewrite Hkk, Hvv.
  apply (info_word_eq (btf_kind t) (btf_vlen t + 1) true Hk). unfold BTF_MAX_VLEN. lia.
Qed.

Lemma op_enum_value_done name v : op_args (OpEnumValue name v) -> name_room b name -> op_done (OpEnumValue name v).
Proof.
  intros (Harg & Hv) Hroom. cbn [op_name] in *.
  set (upd := fun t => match btf_type_inc_vlen t with
    | Err e => Err e
    | Ok info => if v <? 0 then Ok (btf_type_info (BTF_INFO_KIND info) (BTF_INFO_VLEN info) 1) else Ok info
    end).
  set (m := if str_is_empty name then Some (- EINVAL, b, o) else
            if (v <? INT_MIN) || (UINT_MAX <? v) then Some (- E2BIG, b, o) else
            append_elem b 8 name (fun n => [n; u32 v]) upd o).
  assert (He : exec (OpEnumValue name v) b o = on_last BTF_KIND_ENUM m) by reflexivity.
  destruct (on_last_spec BTF_KIND_ENUM m) as [[Hon Hn]|(Hon & cs0 & t & Hc & Hl & Hkt)]; rewrite Hon in He.
  { apply (done_refused _ EINVAL He); [by left |]. intros [? _]. done. }
  unfold m in He. destruct (str_is_empty name) eqn:Hemp.
  { apply (done_refused _ EINVAL He); [by left |]. intros (_ & ? & _). by eapply not_named. }
  destruct ((v <? INT_MIN) || (UINT_MAX <? v)) eqn:Hr.
  { apply (done_refused _ E2BIG He); [tauto |]. intros (_ & _ & ?). lia. }
  eapply (done_elem (OpEnumValue name v) cs0 t 8 _ _ _ _ eq_refl Hc); [| exact He | done | done | lia | by rewrite Hkt | rewrite Hkt; cbn; lia | |].
  - cbn [op_valid]. rewrite Hl. split; [done |]. split; [by apply named_empty | lia].
  - intros off Hoff. split; [reflexivity |]. split; [|done]. unfold INT_MAX in Hoff. u32_words.
  - cbn beta. apply (enum_value_info t v). by rewrite Hkt.
Qed.

Lemma op_field_done name id off sz : op_args (OpField name id off sz) -> name_room b name -> op_done (OpField name id off sz).
Proof.
  intros (Harg & Hid & Hoff & Hsz) Hroom. cbn [op_name] in *. unfold is_u32 in Hoff, Hsz.
  destruct last_cases as [[Hnr Hl]|(cs0 & t & Hnr & Hc & Hl & Hlt)].
  { apply (done_refused _ EINVAL); [|by left |]; [cbn [exec]; unfold btf__add_field; by rewrite Hnr |].
    cbn [op_valid]. rewrite Hl. by intros [[] _]. }
  assert (Hexec : exec (OpField name id off sz) b o = btf__add_field b name id off sz o) by reflexivity.
  unfold btf__add_field in Hexec. rewrite Hnr, Hl in Hexec. cbn [mbind option_bind] in Hexec.
  destruct (btf_is_composite t) eqn:Hcomp; cbn [negb] in Hexec.
  2: { apply (done_refused _ EINVAL Hexec); [by left |]. cbn [op_valid]. rewrite Hlt.
       intros ((Hk & _) & _). unfold btf_is_composite in Hcomp. destruct Hk as [Hk|[Hk _]]; by rewrite Hk in Hcomp. }
  destruct (btf_vlen t =? BTF_MAX_VLEN) eqn:Hvl.
  { apply (done_refused _ ENOSPC Hexec); [tauto |]. cbn [op_valid]. rewrite Hlt. intros ((_ & Hk) & _). lia. }
  id_cases id; rewrite Hb in Hexec.
  { apply (done_refused _ EINVAL Hexec); [by left |]. cbn [op_valid]. by intros (_ & ? & _). }
  set (bf := negb (sz =? 0) || negb (off mod 8 =? 0)) in *.
  destruct (bf && ((sz =? 0) || (255 <? sz) || (16777215 <? off))) eqn:Hbf.
  { apply (done_refused _ EINVAL Hexec); [by left |]. cbn [op_valid]. intros (_ & _ & Hv1). unfold bf in Hbf. lia. }
  destruct (btf_is_union t && negb (off =? 0)) eqn:Hun.
  { apply (done_refused _ EINVAL Hexec); [by left |]. cbn [op_valid]. rewrite Hlt. intros ((Hk & _) & _). bools.
    unfold btf_is_union in *. apply bool_decide_eq_true in H. destruct Hk as [Hk|[_ Hk]]; [congruence | lia]. }
  assert (Hkind : known_kind (btf_kind t) /\
    4 * extra_words (btf_kind t) (btf_vlen t + 1) = 4 * extra_words (btf_kind t) (btf_vlen t) + 12 /\
    (btf_kind t = BTF_KIND_STRUCT \/ btf_kind t = BTF_KIND_UNION /\ off = 0)).
  { clear - Hcomp Hun. unfold btf_is_composite in Hcomp. unfold btf_is_union in Hun. revert Hcomp Hun.
    destruct (btf_kind t); try discriminate; intros _ Hun; (split; [done |]); (split; [cbn; lia |]);
      [by left | right; split; [done |]].
    rewrite bool_decide_eq_true_2 in Hun by done. cbn [andb] in Hun. lia. }
  destruct Hkind as (Hk & Hx & Hkk). pose proof (vlen_range t) as Hvr.
  eapply (done_elem (OpField name id off sz) cs0 t 12 _ _ _ _ eq_refl Hc); [| exact Hexec | done | done | lia | exact Hk | exact Hx | |].
  - cbn [op_valid]. rewrite Hlt. unfold BTF_MAX_VLEN in *. split; [split; [done | lia] |]. split; [done |]. unfold bf in Hbf. lia.
  - intros n Hn. unfold INT_MAX in Hn.
    assert (Hw : Z.lor off (u32 (Z.shiftl sz 24)) = off + sz * 16777216).
    { destruct (decide (sz = 0)) as [->|Hs0]; [by rewrite Z.lor_0_r, Z.add_0_r |]. unfold bf in Hbf.
      rewrite u32_small by (rewrite Z.shiftl_mul_pow2; lia). rewrite Z.lor_comm, lor_shift_add; lia. }
    rewrite Hw. split; [reflexivity |]. split; [|done]. unfold bf in Hbf. u32_words.
  - left. unfold BTF_MAX_VLEN in *. split; [lia |]. f_equal. cbn beta.
    replace (btf_kflag t || negb (sz =? 0)) with (bf || btf_kflag t).
    + apply info_word_eq; [exact Hk | unfold BTF_MAX_VLEN; lia].
    + assert (Hbs : bf = negb (sz =? 0)); [|by rewrite Hbs, orb_comm].
      clear - Hbf. unfold bf in *. destruct (sz =? 0); cbn [negb orb] in *; [|reflexivity].
      by rewrite andb_true_r in Hbf.
Qed.

Lemma op_all_done op : op_args op -> name_room b (op_name op) -> op_done op.
Proof.
  intros Ha Hr. destruct op; cbn [op_name] in Hr.
  all: first [by apply op_int_done | by apply op_float_done | by apply op_ref_done | by apply op_array_done
             | by apply op_composite_done | by apply op_field_done | by apply op_enum_value_done
             | by apply op_enum64_value_done | by apply op_fwd_done | by eapply op_named_ref_done
             | by apply op_func_done | by apply op_func_proto_done | by apply op_func_param_done
             | by apply op_var_done | by eapply op_enum_done | by eapply op_named_type_done
             | by apply op_datasec_var_info_done | by eapply op_decl_tag_done | by apply op_loc_param_done
             | by apply op_loc_param_value_done | by apply op_loc_proto_param_done | by apply op_locsec_loc_done].
Qed.
End Ops.

(** ** All functions that append *)

(** C3: every [btf__add_*] function, on every path.  When its arguments or the last
    type are not what it requires ([op_valid]), it returns [-EINVAL], [-E2BIG] or
    [-ENOSPC] and the object and the allocations are untouched.  Otherwise it either
    returns the new identifier (0 for an element), the types being exactly the
    specified ones ([op_types]), the name stored where the type refers to it, and
    everything written out before dropped; or it fails with [-ENOMEM],
    [-EOPNOTSUPP] or [-ENOSPC] and changes no type.  The object stays well formed on
    every path. *)
Theorem btf_add_ops_spec b cs op o :
  btf_ok b -> rep_ok b -> types_ok b cs -> start_id b + nr_types b <= INT_MAX ->
  op_args op -> name_room b (op_name op) ->
  exists r b' o', exec op b o = Some (r, b', o') /\ op_result b cs o op r b' o'.
Proof. exact (fun Hok Hrep Hcs Hcnt Ha Hr => op_all_done b cs o Hok Hrep Hcs Hcnt op Ha Hr). Qed.

Definition empty_btf : btf :=
  Eval vm_compute in match btf__new_empty [] with (Ok b, _) => b | (Err _, _) => demo_base end.

Lemma empty_btf_ok : btf_ok empty_btf /\ packed empty_btf.
Proof. pose proof (btf_new_empty_ok None false [] I) as H. cbn in H. by destruct H as (H1 & H2 & _). Qed.

Lemma empty_btf_rep : rep_ok empty_btf.
Proof.
  apply rep_ok_unfold. split; [|done]. split; [done |]. cbn. split; [by eexists |]. split; [done | by intros []].
Qed.

(** [int] added to a new object, and a member refused because the last type is not a
    structure. *)
Lemma btf_add_ops_spec_witness :
  (exists b' o', exec (OpInt (Some [105; 110; 116]) 4 1) empty_btf [] = Some (1, b', o') /\
     types_ok b' [[1; 16777216; 4; 16777248]]) /\
  (exists r b' o', exec (OpField None 1 0 0) empty_btf [] = Some (r, b', o') /\ r = - EINVAL /\ b' = empty_btf).
Proof.
  assert (Hcs : types_ok empty_btf []) by (by split).
  split.
  - destruct (btf_add_ops_spec empty_btf [] (OpInt (Some [105; 110; 116]) 4 1) [] (proj1 empty_btf_ok) empty_btf_rep Hcs)
      as (r & b' & o' & He & Hres); [cbv; congruence | | cbv; congruence |].
    { split; [split; [by repeat constructor | cbv; congruence] |]. cbv. split; split; congruence. }
    assert (Hr : r = 1).
    { assert (Hc : option_map (fun x => fst (fst x)) (exec (OpInt (Some [105; 110; 116]) 4 1) empty_btf []) = Some 1)
        by (vm_compute; reflexivity). rewrite He in Hc. injection Hc as Hc. exact Hc. }
    exists b', o'. split; [rewrite He, Hr; reflexivity |].
    destruct Hres as [[_ (_ & _ & k & _ & [(_ & off & types & _ & Hst & [= <-] & Hup)|[Hbad _]])]|[_ ([Hbad|[Hbad|Hbad]] & _)]];
      rewrite Hr in *; try discriminate Hbad.
    + pose proof (up_types _ _ _ _ Hup) as Ht.
      assert (Hd : option_map (fun x => types_data (snd (fst x))) (exec (OpInt (Some [105; 110; 116]) 4 1) empty_btf [])
        = Some [1; 16777216; 4; 16777248]) by (vm_compute; reflexivity).
      rewrite He in Hd. injection Hd as Hd. pose proof (types_words _ _ Ht) as Hw. rewrite Hd in Hw.
      cbn in Hw. injection Hw as <-. exact Ht.
    + destruct Hbad as [[Hbad|Hbad]|Hbad]; discriminate Hbad.
  - destruct (btf_add_ops_spec empty_btf [] (OpField None 1 0 0) [] (proj1 empty_btf_ok) empty_btf_rep Hcs)
      as (r & b' & o' & He & Hres); [cbv; congruence | | cbv; congruence |].
    { split; [done |]. cbv. repeat split; congruence. }
    exists r, b', o'. split; [exact He |]. destruct Hres as [[[[] _] _]|[_ (_ & -> & _)]].
    assert (Hc : option_map (fun x => fst (fst x)) (exec (OpField None 1 0 0) empty_btf []) = Some (- EINVAL))
      by (vm_compute; reflexivity). rewrite He in Hc. injection Hc as ->. split; reflexivity.
Defined.
