(* ===== verification/BtfRun.v ===== *)
(** * BtfRun: objects built by sequences of [btf__add_*] calls

    Starting from an empty object, any sequence of the functions of [BtfOps] is run
    until one fails.  The result is well formed, holds exactly the types and names
    that were added, and what [btf_get_raw_data] writes for it, in either byte order,
    is parsed by [btf_new] to the same object. *)
From S2P Require Import Prelude Hashmap Mem Strset BtfTypes Btf BtfFind BtfParse BtfRaw BtfWrite BtfBuild BtfAppend BtfOps.
Open Scope Z_scope.

(** Run until the first error. *)
Fixpoint build (ops : list btf_op) (b : btf) (o : oracle) : btf_res :=
  match ops with
  | [] => Some (0, b, o)
  | op :: ops => let! _, b, o := exec op b o in build ops b o
  end.

(** The types added, given the offsets of the names. *)
Fixpoint run_types (ops : list btf_op) (offs : list Z) (cs : list (list Z)) : option (list (list Z)) :=
  match ops, offs with
  | [], [] => Some cs
  | op :: ops, off :: offs => cs ← op_types op cs off; run_types ops offs cs
  | _, _ => None
  end.

(** Bytes of strings an operation can add. *)
Definition op_bytes (op : btf_op) : Z := zlen (default [] (op_name op)) + 1.

Fixpoint ops_bytes (ops : list btf_op) : Z :=
  match ops with [] => 0 | op :: ops => op_bytes op + ops_bytes ops end.

(** No operation adds more than 24 bytes of types. *)
Definition MAX_TYPE_BYTES : Z := 24.

Definition room (b : btf) (ops : list btf_op) : Prop :=
  start_str_off b + str_len (hdr b) + ops_bytes ops <= INT_MAX /\
  start_id b + nr_types b + zlen ops <= INT_MAX /\
  hdr_len (hdr b) + str_off (hdr b) + str_len (hdr b) + ops_bytes ops + MAX_TYPE_BYTES * zlen ops < 2 ^ 32.

Lemma op_bytes_pos op : 1 <= op_bytes op.
Proof. unfold op_bytes. pose proof (zlen_nonneg (default [] (op_name op))). lia. Qed.

Lemma ops_bytes_nonneg ops : 0 <= ops_bytes ops.
Proof. induction ops as [|op ops IH]; cbn; [lia |]. pose proof (op_bytes_pos op). lia. Qed.

(** ** Sizes *)

(** What operations can add. *)
Lemma op_effect_bounds op last :
  op_valid op last ->
  match op_effect op with
  | NewType k vlen _ _ ex => known_kind k /\ 0 <= vlen <= 2 /\ zlen ex <= 3
  | NewElem elem _ => forall off, zlen (elem off) <= 3
  end.
Proof.
  assert (H0 : 0 <= 0 <= 2) by lia.
  assert (Hz : forall a b c : Z, zlen (@nil Z) <= 3 /\ zlen [a] <= 3 /\ zlen [a; b] <= 3 /\ zlen [a; b; c] <= 3)
    by (intros; rewrite ?zlen_cons, ?zlen_nil; lia).
  destruct op as [| | | | | | | | | | |name []| | | | | | |name l id| | | | | | | | | | | | |]; cbn [op_effect op_valid];
    intros Hv; first [split; [exact I |]; split; [first [exact H0 | apply Hv] |] | intros off]; apply (Hz 0 0 0).
Qed.

(** The words an operation adds. *)
Lemma op_types_size op cs cs' off :
  op_valid op (last_type cs) -> op_types op cs off = Some cs' ->
  zlen (mjoin cs) <= zlen (mjoin cs') <= zlen (mjoin cs) + 6 /\ zlen cs <= zlen cs' <= zlen cs + 1.
Proof.
  intros Hv. pose proof (op_effect_bounds op _ Hv) as Hb. unfold op_types.
  destruct (op_effect op) as [k vlen kflag s ex|elem kf] eqn:He.
  - intros [= <-]. rewrite mjoin_snoc, zlen_app, !zlen_cons, zlen_snoc. pose proof (zlen_nonneg ex). lia.
  - unfold last_type in *. destruct (decide (cs = [])) as [->|Hne]; [done |].
    destruct (exists_last Hne) as (cs0 & c & ->). rewrite last_snoc in *. cbn [mbind option_bind] in *.
    destruct (type_at c) as [t|] eqn:Ht; [|done]. cbn [mbind option_bind] in *. case_if; [done |]. intros [= <-].
    rewrite length_app, take_app_le by (cbn; lia). rewrite take_ge by (cbn; lia).
    rewrite !zlen_snoc, !mjoin_snoc, !zlen_app. pose proof (type_at_zlen c t Ht) as Hz.
    unfold grown_type. rewrite !zlen_cons, zlen_app. pose proof (zlen_nonneg (elem off)). specialize (Hb off). lia.
Qed.

(** ** Written out *)
Lemma updated_packed b b' k cs' :
  packed b -> updated b b' k cs' ->
  hdr_len (hdr b) + str_off (hdr b) + (4 * zlen (mjoin cs') - type_len (hdr b)) + str_len (hdr b) + zlen k < 2 ^ 32 ->
  str_len (hdr b) + zlen k - 1 <= BTF_MAX_STR_OFFSET -> packed b'.
Proof.
  intros [Hwf Hto Hlay [Hs1 Hs2] Hsz] [_ Hh Hstrs _ _ Hl Hb _] Hsize Hmax.
  pose proof (zlen_nonneg k). pose proof (zlen_nonneg (mjoin cs')).
  destruct Hwf as [W1 W2 W3 W4 W5]. rewrite !Forall_cons in W5. destruct W5 as (U1 & U2 & U3 & U4 & U5 & U6 & _).
  unfold is_u32 in *. unfold has_layout in Hh.
  assert (Hstrs' : str_len (hdr b') - 1 <= BTF_MAX_STR_OFFSET /\ (base_btf b' = None -> znth (btf_strs_data b') 0 = Some 0)).
  { rewrite Hh, Hstrs. split; [done |]. intros Hn. rewrite Hn in Hb. unfold opt_view in Hb.
    destruct (base_btf b); [done |]. specialize (Hs2 eq_refl). unfold znth in *. cbn [Z.ltb Z.compare] in *.
    by apply lookup_app_l_Some. }
  destruct (layout b) as [l|] eqn:El.
  - destruct Hlay as (L1 & L2 & L3 & L4 & L5 & L6 & L7).
    assert (Hh' : hdr b' = BtfHeader (hdr_magic (hdr b)) (hdr_version (hdr b)) (hdr_flags (hdr b)) (hdr_len (hdr b)) 0
      (4 * zlen (mjoin cs')) (4 * zlen (mjoin cs') + layout_len (hdr b)) (str_len (hdr b) + zlen k)
      (4 * zlen (mjoin cs')) (layout_len (hdr b))).
    { rewrite Hh. unfold hdr_update_type_len. cbn. rewrite Hto, !u32_small; try lia; [done |]. rewrite u32_small; lia. }
    clear Hh. split; [| by rewrite Hh' | | exact Hstrs' |].
    + rewrite Hh'. split; try done; [by left |]. cbn. repeat constructor; lia.
    + rewrite Hl, Hh'. cbn. done.
    + rewrite Hh'. cbn. lia.
  - destruct Hlay as (L1 & L2).
    assert (Hh' : hdr b' = BtfHeader (hdr_magic (hdr b)) (hdr_version (hdr b)) (hdr_flags (hdr b)) (hdr_len (hdr b)) 0
      (4 * zlen (mjoin cs')) (4 * zlen (mjoin cs')) (str_len (hdr b) + zlen k)
      (layout_off (hdr b)) (layout_len (hdr b))).
    { rewrite Hh. unfold hdr_update_type_len. cbn. rewrite Hto, !u32_small; [done | lia]. }
    clear Hh. split; [| by rewrite Hh' | | exact Hstrs' |].
    + rewrite Hh'. split; try done. cbn. repeat constructor; lia.
    + rewrite Hl, Hh'. cbn. done.
    + rewrite Hh'. cbn. lia.
Qed.

(** All types added are of known kinds. *)
Lemma info_word_known n k vlen kflag s ex :
  known_kind k -> 0 <= vlen <= BTF_MAX_VLEN -> chunk_known (n :: info_word k vlen kflag :: s :: ex).
Proof.
  intros Hk Hv. destruct (info_word_fields k vlen kflag Hk Hv) as (_ & Hkk & _).
  unfold chunk_known, btf_kind. cbn [type_at info]. by rewrite Hkk.
Qed.

Lemma op_types_known op cs cs' off :
  op_valid op (last_type cs) -> Forall chunk_known cs -> op_types op cs off = Some cs' -> Forall chunk_known cs'.
Proof.
  intros Hv Hall. pose proof (op_effect_bounds op _ Hv) as Hb. unfold op_types.
  destruct (op_effect op) as [k vlen kflag s ex|elem kf] eqn:He.
  - intros [= <-]. apply Forall_app. split; [exact Hall |]. constructor; [|constructor].
    apply info_word_known; [apply Hb | unfold BTF_MAX_VLEN; lia].
  - destruct (last_type cs) as [t|] eqn:Ht; [|done]. cbn [mbind option_bind]. case_if; [done |]. intros [= <-].
    apply Forall_app. split; [by apply Forall_take |]. constructor; [|constructor]. pose proof (vlen_range t).
    unfold BTF_MAX_VLEN in *. apply info_word_known; [|unfold BTF_MAX_VLEN; lia].
    unfold last_type in Ht. destruct (last cs) as [c|] eqn:Hl; [|discriminate Ht]. cbn [mbind option_bind] in Ht.
    apply last_Some in Hl as (cs0 & ->). apply Forall_app in Hall as [_ Hc]. apply Forall_cons in Hc as [Hc _].
    unfold chunk_known in Hc. rewrite Ht in Hc. exact Hc.
Qed.

Lemma chunks_types_known b cs :
  types_ok b cs -> 1 <= start_id b -> Forall chunk_known cs -> types_known b.
Proof.
  intros Hcs H1 Hall id t Hid Ht.
  destruct (types_ok_lookup b cs id Hcs) as (c & t' & rest & Hc & Ht' & _ & Hby); [lia.. |].
  rewrite Hby in Ht. injection Ht as <-. apply (Forall_lookup_1 _ _ _ _ Hall) in Hc. unfold chunk_known in Hc.
  by rewrite Ht' in Hc.
Qed.

(** ** Running the operations *)
Definition layout_bytes_of (b : btf) : Z := match layout b with Some _ => layout_len (hdr b) | None => 0 end.

Lemma packed_str_off b : packed b -> str_off (hdr b) = type_len (hdr b) + layout_bytes_of b.
Proof. intros [_ _ Hl _ _]. unfold layout_bytes_of. destruct (layout b); [destruct Hl as (_ & _ & _ & _ & ? & _); done | lia]. Qed.

Lemma updated_str b b' k cs' : updated b b' k cs' -> str_len (hdr b') = str_len (hdr b) + zlen k.
Proof. intros Hup. by rewrite (up_hdr _ _ _ _ Hup). Qed.

(** One successful step keeps the room for the rest. *)
Lemma room_step b b' op ops cs cs' off k :
  btf_ok b -> packed b -> types_ok b cs -> op_valid op (last_type cs) -> op_types op cs off = Some cs' ->
  name_bytes (op_name op) k -> updated b b' k cs' -> room b (op :: ops) -> packed b' /\ room b' ops.
Proof.
  intros Hok Hpk Hcs Hv Hty Hk Hup (R1 & R2 & R3). cbn [ops_bytes] in *. rewrite zlen_cons in *.
  destruct (op_types_size op cs cs' off Hv Hty) as [Hs1 Hs2]. unfold MAX_TYPE_BYTES in R3.
  pose proof (types_len _ _ Hcs) as Hl. rewrite (types_words _ _ Hcs) in Hl. pose proof (types_count _ _ Hcs) as Hn.
  assert (Hkz : zlen k <= op_bytes op).
  { unfold op_bytes. destruct Hk as [->| ->]; [rewrite zlen_nil; pose proof (zlen_nonneg (default [] (op_name op))); lia |].
    by rewrite zlen_snoc. }
  pose proof (btf_ok_unfold b Hok) as (_ & (_ & _ & _ & Hso) & H1 & _).
  pose proof (ops_bytes_nonneg ops). pose proof (zlen_nonneg ops). pose proof (zlen_nonneg k).
  unfold INT_MAX in *.
  assert (Hpk' : packed b').
  { apply (updated_packed b b' k cs' Hpk Hup); [lia | unfold BTF_MAX_STR_OFFSET; lia]. }
  split; [exact Hpk' |]. pose proof (packed_str_off b Hpk) as Ho. pose proof (packed_str_off b' Hpk') as Ho'.
  pose proof (updated_str _ _ _ _ Hup) as Hsl.
  destruct Hup as [U1 U2 U3 U4 U5 U6 U7 U8]. pose proof (types_len _ _ U1) as Hl'. rewrite (types_words _ _ U1) in Hl'.
  assert (Hlb : layout_bytes_of b' = layout_bytes_of b /\ hdr_len (hdr b') = hdr_len (hdr b)).
  { unfold layout_bytes_of. rewrite U6, U2. done. }
  destruct Hlb as [Hlb Hhl]. unfold room, INT_MAX, MAX_TYPE_BYTES. rewrite U4, U5, Hsl, Hhl, Ho', Hl', Hlb, (types_count _ _ U1). lia.
Qed.

Definition names_stored (b : btf) (ops : list btf_op) (offs : list Z) : Prop :=
  Forall2 (fun op off => name_stored b (op_name op) off) ops offs.

Definition strings_preserved (b b' : btf) : Prop :=
  forall off s, 0 <= off < 2 ^ 32 -> string_at b off s -> string_at b' off s.

Lemma name_stored_kept b b' name off :
  strings_preserved b b' -> 0 <= off <= INT_MAX -> name_stored b name off -> name_stored b' name off.
Proof.
  intros Hp Hoff. unfold name_stored, INT_MAX in *. destruct (str_is_empty name); [done |].
  intros (s & -> & Hs). exists s. split; [done |]. apply Hp; [lia | done].
Qed.

(** What a completed sequence leaves. *)
Definition built (b : btf) (cs : list (list Z)) (ops : list btf_op) (b' : btf) : Prop :=
  packed b' /\ opt_view (base_btf b) (base_btf b') /\ (ops <> [] -> detached b') /\ strings_preserved b b' /\
  exists offs cs', run_types ops offs cs = Some cs' /\ types_ok b' cs' /\ Forall chunk_known cs' /\
    names_stored b' ops offs.

Lemma build_ok ops b cs o :
  btf_ok b -> rep_ok b -> types_ok b cs -> packed b -> Forall chunk_known cs -> Forall op_args ops -> room b ops ->
  exists r b' o', build ops b o = Some (r, b', o') /\ btf_ok b' /\ rep_ok b' /\ (r < 0 \/ r = 0 /\ built b cs ops b').
Proof.
  revert b cs o. induction ops as [|op ops IH]; intros b cs o Hok Hrep Hcs Hpk Hkn Hargs Hroom.
  { exists 0, b, o. split; [reflexivity |]. split; [exact Hok |]. split; [exact Hrep |]. right. split; [reflexivity |].
    split; [exact Hpk |]. split; [apply opt_view_refl |]. split; [done |]. split; [by intros ? |].
    exists [], cs. split; [reflexivity |]. split; [exact Hcs |]. split; [exact Hkn | constructor]. }
  apply Forall_cons in Hargs as [Harg Hargs]. pose proof (ops_bytes_nonneg ops) as Hnn. pose proof (zlen_nonneg ops) as Hnz.
  pose proof Hroom as (R1 & R2 & _). cbn [ops_bytes] in R1. rewrite zlen_cons in R2. unfold op_bytes in R1.
  destruct (op_all_done b cs o Hok Hrep Hcs ltac:(lia) op Harg) as (r1 & b1 & o1 & He & Hres); [unfold name_room; lia |].
  cbn [build]. rewrite He. cbn [step mbind option_bind].
  destruct Hres as [[Hv (Hrep1 & Hok1 & k & Hk & Hc)]|[_ ([Hr|[Hr|Hr]] & -> & ->)]].
  2,3,4: exists r1, b, o; rewrite Hr; split; [reflexivity |]; split; [exact Hok |]; split; [exact Hrep |]; by left.
  destruct Hc as [(Hr & off & cs1 & Hoff & Hst & Hty & Hup)|[Hr _]].
  2: { exists r1, b1, o1. assert (Hneg : r1 < 0) by (destruct Hr as [[->| ->]| ->]; done).
       replace (r1 <? 0) with true by lia. split; [reflexivity |]. split; [exact Hok1 |]. split; [exact Hrep1 |]. by left. }
  assert (Hpos : 0 <= r1).
  { rewrite Hr. unfold op_ret. pose proof (btf_ok_unfold b Hok) as (_ & _ & Hs1 & _).
    pose proof (types_count _ _ Hcs). pose proof (zlen_nonneg cs). destruct (op_effect op); lia. }
  replace (r1 <? 0) with false by lia.
  destruct (room_step b b1 op ops cs cs1 off k Hok Hpk Hcs Hv Hty Hk Hup Hroom) as [Hpk1 Hroom1].
  assert (Hkept : strings_preserved b b1).
  { intros x s Hx Hs. destruct Hup as [U1 U2 U3 U4 U5 U6 U7 U8].
    apply (strings_kept b b1 k x s); try assumption. by rewrite U2. }
  destruct (IH b1 cs1 o1 Hok1 Hrep1 (up_types _ _ _ _ Hup) Hpk1 (op_types_known op cs cs1 off Hv Hkn Hty) Hargs Hroom1)
    as (r & b' & o' & Hb & Hok' & Hrep' & Hend).
  exists r, b', o'. split; [exact Hb |]. split; [exact Hok' |]. split; [exact Hrep' |].
  destruct Hend as [Hend|(-> & Hpk' & Hbase & Hdet & Hstr & offs & cs' & Hrun & Hcs' & Hkn' & Hnames)]; [by left | right].
  split; [reflexivity |]. split; [exact Hpk' |]. split; [exact (opt_view_trans _ _ _ (up_base _ _ _ _ Hup) Hbase) |].
  split. { intros _. destruct ops; [|by apply Hdet]. cbn in Hb. injection Hb as <- <-. exact (up_detached _ _ _ _ Hup). }
  split; [intros x s Hx Hs; by apply Hstr, Hkept |].
  exists (off :: offs), cs'. cbn [run_types]. rewrite Hty. cbn [mbind option_bind]. split; [exact Hrun |].
  split; [exact Hcs' |]. split; [exact Hkn' |]. constructor; [|exact Hnames].
  exact (name_stored_kept b1 b' _ off Hstr Hoff Hst).
Qed.

(** ** From an empty object *)
Lemma btf_new_empty_rep add_layout o b o1 :
  btf_new_empty None add_layout o = (Ok b, o1) -> rep_ok b /\ base_btf b = None /\ types_ok b [].
Proof.
  unfold btf_new_empty. destruct (alloc o) as [[] o2]; cbn [negb]; [|discriminate].
  destruct (alloc o2) as [[] o3]; cbn [negb]; [|discriminate]. intros [= <- <-].
  split; [|split; [reflexivity |]].
  - apply rep_ok_unfold. split; [|done]. destruct add_layout; (split; [cbv; congruence |]); cbn [modifiable].
    + split; [by eexists |]. split; [cbv; congruence |]. intros _. do 2 eexists. split; [reflexivity |].
      split; vm_compute; reflexivity.
    + split; [by eexists |]. split; [cbv; congruence |]. by intros [].
  - split; try reflexivity; try constructor. destruct add_layout; by repeat constructor.
Qed.

(** C1: what is built can be written and read back.  Starting from an empty object
    (with or without a layout table), a sequence of [btf__add_*] calls that all
    succeed leaves a well-formed object with exactly the types the calls specify and
    with every name stored where its type refers to it.  [btf_get_raw_data] writes it in
    either byte order; if its type references are valid, [btf_new] parses what was
    written to an object with the same contents, and otherwise (the calls accept
    identifiers of types that do not exist yet) it refuses it with the error of
    [btf_sanity_check].  No call of the sequence is undefined behaviour, also after
    failed allocations.  The calls together add less than [2 ^ 30] bytes. *)
Theorem btf_build_roundtrip add_layout ops sw o :
  Forall op_args ops -> ops <> [] -> ops_bytes ops + MAX_TYPE_BYTES * zlen ops <= 2 ^ 30 ->
  match btf_new_empty None add_layout o with
  | (Err e, _) => e = ENOMEM
  | (Ok b0, o1) =>
      exists r b o', build ops b0 o1 = Some (r, b, o') /\ btf_ok b /\
        (r < 0 \/ r = 0 /\
         (exists offs cs, run_types ops offs [] = Some cs /\ types_ok b cs /\ names_stored b ops offs) /\
         (exists data err b', btf_get_raw_data b sw [] = Some (Some (data, zlen data), []) /\
            btf_sanity_check b = Some err /\
            btf_new data None [] = Some (if err =? 0 then Ok b' else Err (- err), []) /\
            same_content b b' /\ swapped_endian b' = sw))
  end.
Proof.
  intros Hargs Hne Hroom. pose proof (btf_new_empty_ok None add_layout o I) as Hnew.
  destruct (btf_new_empty None add_layout o) as [[b0|e] o1] eqn:He; [|exact Hnew].
  destruct Hnew as (Hok & Hpk & _ & _). destruct (btf_new_empty_rep _ _ _ _ He) as (Hrep & Hbase & Hcs).
  assert (Hfit : room b0 ops).
  { pose proof (ops_bytes_nonneg ops). pose proof (zlen_nonneg ops). unfold btf_new_empty in He. unfold MAX_TYPE_BYTES in Hroom.
    destruct (alloc o) as [[] o2]; cbn [negb] in He; [|discriminate].
    destruct (alloc o2) as [[] o3]; cbn [negb] in He; [|discriminate]. injection He as <- <-.
    unfold room, MAX_TYPE_BYTES, INT_MAX, sizeof_btf_header, sizeof_layouts.
    cbn [start_str_off start_id nr_types hdr str_len hdr_len str_off]. change (zlen layouts) with 23.
    destruct add_layout; lia. }
  destruct (build_ok ops b0 [] o1 Hok Hrep Hcs Hpk ltac:(constructor) Hargs Hfit) as (r & b & o' & Hb & Hok' & Hrep' & Hend).
  exists r, b, o'. split; [exact Hb |]. split; [exact Hok' |].
  destruct Hend as [Hend|(-> & Hpk' & Hview & Hdet & _ & offs & cs & Hrun & Hcs' & Hkn & Hnames)]; [by left | right].
  split; [reflexivity |]. split; [exists offs, cs; by repeat (split; [assumption |]) |].
  rewrite Hbase in Hview. unfold opt_view in Hview. destruct (base_btf b) as [base|] eqn:Hbb; [contradiction |].
  pose proof (btf_ok_unfold b Hok') as (_ & _ & H1 & _). pose proof (chunks_types_known b cs Hcs' H1 Hkn) as Hknown.
  destruct (Hdet Hne) as (_ & Hraw & Hraw2).
  destruct (btf_new_written b sw Hok' Hpk') as (err & b' & Herr & Hnew & Hsame & Hsw); [by rewrite Hbb | by intros _ |].
  exists (raw_written b sw), err, b'. rewrite Hbb in Hnew.
  split; [apply btf_get_raw_data_written; [exact Hok' | exact Hpk' | by destruct sw | by intros _] |].
  split; [exact Herr |]. split; [exact Hnew |]. split; [exact Hsame | exact Hsw].
Qed.

(** [struct s { int x : 3; int y; }] *)
Definition demo_ops : list btf_op :=
  [OpInt (Some [105; 110; 116]) 4 1; OpStruct (Some [115]) 8; OpField (Some [120]) 1 0 3; OpField (Some [121]) 1 32 32].

Definition demo_built : option (Z * btf * oracle) :=
  match btf_new_empty None true [] with (Ok b, o) => build demo_ops b o | (Err _, _) => None end.

Lemma btf_build_roundtrip_witness :
  exists b o data b', demo_built = Some (0, b, o) /\ btf_get_raw_data b true [] = Some (Some (data, zlen data), []) /\
    btf_new data None [] = Some (Ok b', []) /\ same_content b b' /\ swapped_endian b' = true.
Proof.
  pose proof (btf_build_roundtrip true demo_ops true []) as H.
  specialize (H ltac:(repeat constructor; cbv; congruence) ltac:(discriminate) ltac:(cbv; congruence)).
  assert (Hd : match demo_built with
    | Some (0, b, _) => match btf_sanity_check b with Some 0 => true | _ => false end | _ => false end = true)
    by (vm_compute; reflexivity).
  unfold demo_built in *. destruct (btf_new_empty None true []) as [[b0|e] o1]; [|discriminate Hd].
  destruct H as (r & b & o & Hb & _ & Hr). rewrite Hb in *.
  assert (Hz : r = 0 /\ btf_sanity_check b = Some 0).
  { destruct r; [|discriminate Hd..]. destruct (btf_sanity_check b) as [[| |]|]; try discriminate Hd. by split. }
  destruct Hz as [Hz Hs]. destruct Hr as [Hr|(_ & _ & Hr)]; [rewrite Hz in Hr; discriminate Hr |].
  destruct Hr as (data & err & b' & Hraw & He & Hnew & Hsame & Hsw). exists b, o, data, b'. rewrite Hz.
  rewrite Hs in He. injection He as <-.
  split; [reflexivity |]. split; [exact Hraw |]. split; [exact Hnew |]. split; [exact Hsame | exact Hsw].
Defined.
