(* ===== verification/Ringbuf.v ===== *)
(** * Ringbuf: the BPF ring buffers of [src/src/ringbuf.c]

    Two buffers that user space shares with the kernel: one that the kernel fills and
    the library consumes ([ringbuf_process_ring] and what calls it), and one that the
    application fills for a BPF program ([user_ring_buffer__reserve], [_submit],
    [_discard]).

    The shared memory is the two positions and the [mask + 1] bytes of data, which are
    mapped twice in a row, so that a record that wraps around the end can be read at
    one address: the memory at [r->data] is [data ++ data].  The kernel runs at the
    same time.  It is the parameter [kernel], what it does to the memory before the
    [k]th access; [kernel_ok] is the documented protocol, that the kernel appends
    records and completes those that are still busy, and changes nothing else.

    Positions are 64-bit and wrap; a [sample_cb] is a function of the application's
    state and of the bytes of the sample.  [epoll] and [mmap] are not modelled, but for
    their outcomes. *)
From S2P Require Import Prelude.
Open Scope Z_scope.

Definition BPF_RINGBUF_BUSY_BIT : Z := 2147483648.
Definition BPF_RINGBUF_DISCARD_BIT : Z := 1073741824.
Definition BPF_RINGBUF_HDR_SZ : Z := 8.

(** The memory shared with the kernel. *)
Record ring_mem := RingMem { consumer_pos : Z; producer_pos : Z; rb_data : list Z }.

Record ring (A : Type) := Ring {
  sample_cb : A -> list Z -> Z * A;
  ring_memory : ring_mem;
  ring_mask : Z;
  ring_map_fd : Z
}.
Arguments Ring {A}.
Arguments sample_cb {A}.
Arguments ring_memory {A}.
Arguments ring_mask {A}.
Arguments ring_map_fd {A}.

(** The two copies of the data. *)
Definition mapped (data : list Z) : list Z := data ++ data.

(** ** Consuming *)
Definition roundup_len (len : Z) : Z :=
  let len := u32 (Z.shiftl len 2) in
  let len := Z.shiftr len 2 in
  let len := u32 (len + BPF_RINGBUF_HDR_SZ) in
  s32 (u32 (len + 7) / 8 * 8).

Section Consume.
Context {A : Type} (kernel : nat -> ring_mem -> ring_mem).

(** The memory with the number of accesses so far, and the application's state. *)
Record machine := Machine { mc_mem : ring_mem; mc_time : nat; mc_app : A }.

(** What the kernel did until the next access. *)
Definition interfere (m : machine) : machine :=
  Machine (kernel (mc_time m) (mc_mem m)) (S (mc_time m)) (mc_app m).

Definition set_consumer_pos (m : machine) (pos : Z) : machine :=
  Machine (RingMem pos (producer_pos (mc_mem m)) (rb_data (mc_mem m))) (mc_time m) (mc_app m).

Definition set_app (m : machine) (a : A) : machine := Machine (mc_mem m) (mc_time m) a.

(** How the inner loop ends: at [done] or with the callback's error, or because
    everything up to [prod_pos] is consumed. *)
Inductive loop_exit := LoopReturn (ret : Z) | LoopDrained (cons_pos : Z) (got_new_data : bool) (cnt : Z).

Fixpoint process_loop (fuel : nat) (cb : A -> list Z -> Z * A) (mask n prod_pos cons_pos : Z) (got_new_data : bool)
    (cnt : Z) (m : machine) : option (loop_exit * machine) :=
  if u64 (prod_pos - cons_pos) =? 0 then Some (LoopDrained cons_pos got_new_data cnt, m) else
  match fuel with
  | O => None
  | S fuel =>
      let m := interfere m in
      let len_ptr := Z.land cons_pos mask in
      len ← load (mapped (rb_data (mc_mem m))) len_ptr 4;
      if negb (Z.land len BPF_RINGBUF_BUSY_BIT =? 0) then Some (LoopReturn cnt, m) else
      let cons_pos := u64 (cons_pos + roundup_len len) in
      if Z.land len BPF_RINGBUF_DISCARD_BIT =? 0 then
        sample ← slice (mapped (rb_data (mc_mem m))) (len_ptr + BPF_RINGBUF_HDR_SZ) len;
        let '(err, app) := cb (mc_app m) sample in
        let m := set_consumer_pos (interfere (set_app m app)) cons_pos in
        if err <? 0 then Some (LoopReturn err, m) else
        let cnt := cnt + 1 in
        if n <=? u64 cnt then Some (LoopReturn cnt, m)
        else process_loop fuel cb mask n prod_pos cons_pos true cnt m
      else
        let m := set_consumer_pos (interfere m) cons_pos in
        if n <=? u64 cnt then Some (LoopReturn cnt, m)
        else process_loop fuel cb mask n prod_pos cons_pos true cnt m
  end.

(** The records are at least 8 bytes long, which bounds the inner loop. *)
Definition loop_fuel (prod_pos cons_pos : Z) : nat := Z.to_nat (u64 (prod_pos - cons_pos) / 8 + 1).

(** The outer loop runs while the kernel produces; [rounds] bounds it. *)
Fixpoint process_rounds (rounds : nat) (cb : A -> list Z -> Z * A) (mask n cons_pos cnt : Z) (m : machine) :
    option (Z * machine) :=
  match rounds with
  | O => None
  | S rounds =>
      let m := interfere m in
      let prod_pos := producer_pos (mc_mem m) in
      '(e, m) ← process_loop (loop_fuel prod_pos cons_pos) cb mask n prod_pos cons_pos false cnt m;
      match e with
      | LoopReturn ret => Some (ret, m)
      | LoopDrained cons_pos got_new_data cnt =>
          if got_new_data then process_rounds rounds cb mask n cons_pos cnt m else Some (cnt, m)
      end
  end.

Definition ringbuf_process_ring (rounds : nat) (r : ring A) (n : Z) (app : A) : option (Z * machine) :=
  let m := interfere (Machine (ring_memory r) 0 app) in
  process_rounds rounds (sample_cb r) (ring_mask r) n (consumer_pos (mc_mem m)) 0 m.
End Consume.
Arguments machine : clear implicits.
Arguments Machine {A}.
Arguments mc_mem {A}.
Arguments mc_time {A}.
Arguments mc_app {A}.

(** ** The calls on rings and ring buffers *)
Section Calls.
Context {A : Type} (kernel : Z -> nat -> ring_mem -> ring_mem) (rounds : nat).

Definition with_memory (r : ring A) (mem : ring_mem) : ring A :=
  Ring (sample_cb r) mem (ring_mask r) (ring_map_fd r).

Definition ring__consume_n (r : ring A) (n : Z) (app : A) : option (Z * ring A * A) :=
  '(res, m) ← ringbuf_process_ring (kernel 0) rounds r n app;
  Some (if res <? 0 then res else if INT_MAX <? res then INT_MAX else res,
        with_memory r (mc_mem m), mc_app m).

Definition ring__consume (r : ring A) (app : A) : option (Z * ring A * A) := ring__consume_n r INT_MAX app.

(** The loop of [ring_buffer__consume_n] over the rings from index [i] on. *)
Fixpoint consume_n_loop (rings : list (ring A)) (i n res : Z) (app : A) : option (Z * list (ring A) * A) :=
  match rings with
  | [] => Some (if INT_MAX <? res then INT_MAX else res, [], app)
  | r :: rings =>
      '(err, m) ← ringbuf_process_ring (kernel i) rounds r n app;
      let r := with_memory r (mc_mem m) in
      if err <? 0 then Some (err, r :: rings, mc_app m) else
      let res := res + err in
      let n := u64 (n - err) in
      if n =? 0 then Some (if INT_MAX <? res then INT_MAX else res, r :: rings, mc_app m) else
      '(ret, rings, app) ← consume_n_loop rings (i + 1) n res (mc_app m);
      Some (ret, r :: rings, app)
  end.

Definition ring_buffer__consume_n (rings : list (ring A)) (n : Z) (app : A) : option (Z * list (ring A) * A) :=
  consume_n_loop rings 0 n 0 app.

Fixpoint consume_loop (rings : list (ring A)) (i res : Z) (app : A) : option (Z * list (ring A) * A) :=
  match rings with
  | [] => Some (res, [], app)
  | r :: rings =>
      '(err, m) ← ringbuf_process_ring (kernel i) rounds r INT_MAX app;
      let r := with_memory r (mc_mem m) in
      if err <? 0 then Some (err, r :: rings, mc_app m) else
      let res := res + err in
      if INT_MAX <? res then Some (INT_MAX, r :: rings, mc_app m) else
      '(ret, rings, app) ← consume_loop rings (i + 1) res (mc_app m);
      Some (ret, r :: rings, app)
  end.

Definition ring_buffer__consume (rings : list (ring A)) (app : A) : option (Z * list (ring A) * A) :=
  consume_loop rings 0 0 app.

(** [ready] are the rings [epoll_wait] reports, in its order. *)
Fixpoint poll_loop (ready : list Z) (rings : list (ring A)) (res : Z) (app : A) : option (Z * list (ring A) * A) :=
  match ready with
  | [] => Some (if INT_MAX <? res then INT_MAX else res, rings, app)
  | ring_id :: ready =>
      r ← znth rings ring_id;
      '(err, m) ← ringbuf_process_ring (kernel ring_id) rounds r INT_MAX app;
      let rings := zupd rings ring_id (with_memory r (mc_mem m)) in
      if err <? 0 then Some (err, rings, mc_app m) else
      poll_loop ready rings (res + err) (mc_app m)
  end.

(** [epoll_wait] fails with an error or gives the rings that are ready. *)
Definition ring_buffer__poll (events : result (list Z)) (rings : list (ring A)) (app : A) :
    option (Z * list (ring A) * A) :=
  match events with
  | Err e => Some (- e, rings, app)
  | Ok ready => poll_loop ready rings 0 app
  end.

(** The ring, or [None] with [ERANGE]; [idx] is unsigned and compared with an [int]. *)
Definition ring_buffer__ring (rings : list (ring A)) (idx : Z) : option (ring A) :=
  if zlen rings <=? idx then None else znth rings idx.
End Calls.

Definition ring__consumer_pos {A} (r : ring A) : Z := consumer_pos (ring_memory r).
Definition ring__producer_pos {A} (r : ring A) : Z := producer_pos (ring_memory r).
Definition ring__avail_data_size {A} (r : ring A) : Z := u64 (ring__producer_pos r - ring__consumer_pos r).
Definition ring__size {A} (r : ring A) : Z := u64 (ring_mask r + 1).
Definition ring__map_fd {A} (r : ring A) : Z := ring_map_fd r.

(** ** Setting up *)
Definition BPF_MAP_TYPE_RINGBUF : Z := 27.
Definition BPF_MAP_TYPE_USER_RINGBUF : Z := 31.

(** The outcomes of the system calls of [ring_buffer__add] and [user_ringbuf_map]:
    the map's type and size, the two mappings and [epoll_ctl].  The second mapping
    shows the memory [sys_mem]. *)
Record ring_sys := RingSys {
  sys_info : result (Z * Z);
  sys_mmap_consumer : result unit;
  sys_mmap_producer : result unit;
  sys_epoll_ctl : result unit;
  sys_mem : ring_mem
}.

Definition ring_buffer__add {A} (rings : list (ring A)) (page_size map_fd : Z) (cb : A -> list Z -> Z * A)
    (sys : ring_sys) (o : oracle) : Z * list (ring A) * oracle :=
  match sys_info sys with
  | Err e => (- e, rings, o)
  | Ok (type, max_entries) =>
      if negb (type =? BPF_MAP_TYPE_RINGBUF) then (- EINVAL, rings, o) else
      let '(ok, o) := alloc_array (zlen rings + 1) 8 o in
      if negb ok then (- ENOMEM, rings, o) else
      let '(ok, o) := alloc_array (zlen rings + 1) 12 o in
      if negb ok then (- ENOMEM, rings, o) else
      let '(ok, o) := alloc o in
      if negb ok then (- ENOMEM, rings, o) else
      match sys_mmap_consumer sys with
      | Err e => (- e, rings, o)
      | Ok _ =>
          let mmap_sz := u64 (page_size + 2 * max_entries) in
          if negb (mmap_sz =? u64 mmap_sz) then (- E2BIG, rings, o) else
          match sys_mmap_producer sys with
          | Err e => (- e, rings, o)
          | Ok _ =>
              match sys_epoll_ctl sys with
              | Err e => (- e, rings, o)
              | Ok _ => (0, rings ++ [Ring cb (sys_mem sys) (u64 (u32 (max_entries - 1))) map_fd], o)
              end
          end
      end
  end.

(** [epoll] is the outcome of [epoll_create1]; the result is the rings or the error
    left in [errno]. *)
Definition ring_buffer__new {A} (page_size : Z) (epoll : result Z) (map_fd : Z) (cb : A -> list Z -> Z * A)
    (sys : ring_sys) (o : oracle) : result (list (ring A)) * oracle :=
  let '(ok, o) := alloc o in
  if negb ok then (Err ENOMEM, o) else
  match epoll with
  | Err e => (Err e, o)
  | Ok _ =>
      let '(err, rings, o) := ring_buffer__add [] page_size map_fd cb sys o in
      if negb (err =? 0) then (Err (- err), o) else (Ok rings, o)
  end.

(** ** The user ring buffer *)
Record user_ring_buffer := UserRing { urb_mem : ring_mem; urb_mask : Z; urb_map_fd : Z }.

Definition user_ringbuf_map (page_size map_fd : Z) (sys : ring_sys) : result user_ring_buffer :=
  match sys_info sys with
  | Err e => Err e
  | Ok (type, max_entries) =>
      if negb (type =? BPF_MAP_TYPE_USER_RINGBUF) then Err EINVAL else
      match sys_mmap_consumer sys with
      | Err e => Err e
      | Ok _ =>
          let mmap_sz := u64 (page_size + 2 * max_entries) in
          if negb (mmap_sz =? u64 mmap_sz) then Err E2BIG else
          match sys_mmap_producer sys, sys_epoll_ctl sys with
          | Err e, _ | Ok _, Err e => Err e
          | Ok _, Ok _ => Ok (UserRing (sys_mem sys) (u64 (u32 (max_entries - 1))) map_fd)
          end
      end
  end.

Definition user_ring_buffer__new (page_size : Z) (epoll : result Z) (map_fd : Z) (sys : ring_sys) (o : oracle) :
    result user_ring_buffer * oracle :=
  let '(ok, o) := alloc o in
  if negb ok then (Err ENOMEM, o) else
  match epoll with Err e => (Err e, o) | Ok _ => (user_ringbuf_map page_size map_fd sys, o) end.

(** A write of bytes at an address of the doubly mapped data. *)
Fixpoint ring_store (data : list Z) (off : Z) (bs : list Z) : list Z :=
  match bs with
  | [] => data
  | b :: bs => ring_store (zupd data (off mod zlen data) b) (off + 1) bs
  end.

(** [mem] is the memory after what the kernel did so far.  The sample is the address
    returned, relative to [rb->data]. *)
Definition user_ring_buffer__reserve (kernel : ring_mem -> ring_mem) (rb : user_ring_buffer) (size : Z) :
    result Z * user_ring_buffer :=
  if negb (Z.land size (Z.lor BPF_RINGBUF_BUSY_BIT BPF_RINGBUF_DISCARD_BIT) =? 0) then (Err E2BIG, rb) else
  let mem := kernel (urb_mem rb) in
  let rb := UserRing mem (urb_mask rb) (urb_map_fd rb) in
  let cons_pos := consumer_pos mem in
  let prod_pos := producer_pos mem in
  let max_size := u32 (urb_mask rb + 1) in
  let avail_size := u32 (max_size - u64 (prod_pos - cons_pos)) in
  let total_size := u32 (u32 (size + BPF_RINGBUF_HDR_SZ + 7) / 8 * 8) in
  if max_size <? total_size then (Err E2BIG, rb) else
  if avail_size <? total_size then (Err ENOSPC, rb) else
  let hdr := Z.land prod_pos (urb_mask rb) in
  let data := ring_store (rb_data mem) hdr (le_split 4 (Z.lor size BPF_RINGBUF_BUSY_BIT)) in
  let data := ring_store data (hdr + 4) (le_split 4 0) in
  let mem := RingMem cons_pos (u64 (prod_pos + total_size)) data in
  (Ok (Z.land (u64 (prod_pos + BPF_RINGBUF_HDR_SZ)) (urb_mask rb)), UserRing mem (urb_mask rb) (urb_map_fd rb)).

Definition user_ringbuf_commit (rb : user_ring_buffer) (sample : Z) (discard : bool) : option user_ring_buffer :=
  let mem := urb_mem rb in
  let hdr_offset := u64 (urb_mask rb + 1 + sample - BPF_RINGBUF_HDR_SZ) in
  let hdr := Z.land hdr_offset (urb_mask rb) in
  len ← load (mapped (rb_data mem)) hdr 4;
  let new_len := Z.land len (UINT32_MAX - BPF_RINGBUF_BUSY_BIT) in
  let new_len := if discard then Z.lor new_len BPF_RINGBUF_DISCARD_BIT else new_len in
  Some (UserRing (RingMem (consumer_pos mem) (producer_pos mem) (ring_store (rb_data mem) hdr (le_split 4 new_len)))
          (urb_mask rb) (urb_map_fd rb)).

Definition user_ring_buffer__discard (rb : user_ring_buffer) (sample : Z) : option user_ring_buffer :=
  user_ringbuf_commit rb sample true.
Definition user_ring_buffer__submit (rb : user_ring_buffer) (sample : Z) : option user_ring_buffer :=
  user_ringbuf_commit rb sample false.

(** [tv_sec] and [tv_nsec]. *)
Definition timespec : Type := Z * Z.

Definition ns_elapsed_timespec (start finish : timespec) : Z :=
  let ns_per_s := 1000000000 in
  let start_ns := u64 (u64 (start.1 * ns_per_s) + start.2) in
  let end_ns := u64 (u64 (finish.1 * ns_per_s) + finish.2) in
  u64 (end_ns - start_ns).

(** What the calls of one iteration give: [epoll_wait] and the clock afterwards. *)
Record wait_result := WaitResult { wait_epoll : result Z; wait_clock : result timespec }.

(** [attempt] counts the calls of [reserve].  The [continue] for [timeout_ms = -1]
    goes to the condition of the [do] loop, where [ms_remaining] is still -1. *)
Fixpoint reserve_loop (fuel : nat) (kernel : nat -> ring_mem -> ring_mem) (waits : nat -> wait_result)
    (size timeout_ms : Z) (start : timespec) (ms_remaining : Z) (attempt : nat) (rb : user_ring_buffer) :
    option (result Z * user_ring_buffer) :=
  match fuel with
  | O => None
  | S fuel =>
      let '(r, rb) := user_ring_buffer__reserve (kernel attempt) rb size in
      match r with
      | Ok sample => Some (Ok sample, rb)
      | Err e =>
          if negb (e =? ENOSPC) then Some (Err e, rb) else
          match wait_epoll (waits attempt) with
          | Err e => Some (Err e, rb)
          | Ok _ =>
              let remaining :=
                if timeout_ms =? -1 then Ok ms_remaining else
                match wait_clock (waits attempt) with
                | Err e => Err e
                | Ok curr =>
                    let ms_elapsed := s32 (ns_elapsed_timespec start curr / 1000000) in
                    Ok (s32 (timeout_ms - ms_elapsed))
                end in
              match remaining with
              | Err e => Some (Err e, rb)
              | Ok ms_remaining =>
                  if 0 <? ms_remaining
                  then reserve_loop fuel kernel waits size timeout_ms start ms_remaining (S attempt) rb
                  else Some (user_ring_buffer__reserve (kernel (S attempt)) rb size)
              end
          end
      end
  end.

Definition user_ring_buffer__reserve_blocking (fuel : nat) (kernel : nat -> ring_mem -> ring_mem)
    (clock : result timespec) (waits : nat -> wait_result) (rb : user_ring_buffer) (size timeout_ms : Z) :
    option (result Z * user_ring_buffer) :=
  if (timeout_ms <? 0) && negb (timeout_ms =? -1) then Some (Err EINVAL, rb) else
  match (if negb (timeout_ms =? -1) then clock else Ok (0, 0)) with
  | Err e => Some (Err e, rb)
  | Ok start => reserve_loop fuel kernel waits size timeout_ms start timeout_ms 0 rb
  end.

(** ** Records *)
Record rec := Rec { rec_len : Z; rec_busy : bool; rec_discard : bool; rec_bytes : list Z }.

(** The bytes a record takes, header included. *)
Definition rec_size (r : rec) : Z := (rec_len r + 15) / 8 * 8.

Definition rec_word (r : rec) : Z :=
  rec_len r + Z.b2z (rec_busy r) * BPF_RINGBUF_BUSY_BIT + Z.b2z (rec_discard r) * BPF_RINGBUF_DISCARD_BIT.

Fixpoint sizes (rs : list rec) : Z := match rs with [] => 0 | r :: rs => rec_size r + sizes rs end.

Definition evolves (r r' : rec) : Prop := if rec_busy r then rec_len r' = rec_len r else r' = r.

(** Records are appended, and busy ones completed. *)
Definition extends (rs rs' : list rec) : Prop :=
  exists old new, rs' = old ++ new /\ Forall2 evolves rs old.

(** What a consumer does with records: the callback's error or the count, the
    application's state and the records behind one whose callback failed. *)
Fixpoint deliver {A} (cb : A -> list Z -> Z * A) (a : A) (cnt : Z) (rs : list rec) : Z * A * list rec :=
  match rs with
  | [] => (cnt, a, [])
  | r :: rs =>
      if rec_discard r then deliver cb a cnt rs else
      let '(err, a) := cb a (rec_bytes r) in
      if err <? 0 then (err, a, rs) else deliver cb a (cnt + 1) rs
  end.

Section Protocol.
Context (bits : Z).
Hypothesis (Hbits : 3 <= bits <= 31).

(** The size of the data area. *)
Definition ring_size : Z := 2 ^ bits.

Definition rec_at (data : list Z) (p : Z) (r : rec) : Prop :=
  0 <= rec_len r < BPF_RINGBUF_DISCARD_BIT /\
  load (mapped data) (p mod ring_size) 4 = Some (rec_word r) /\
  slice (mapped data) (p mod ring_size + BPF_RINGBUF_HDR_SZ) (rec_len r) = Some (rec_bytes r).

Fixpoint region (data : list Z) (p : Z) (rs : list rec) : Prop :=
  match rs with
  | [] => True
  | r :: rs => rec_at data p r /\ region data (u64 (p + rec_size r)) rs
  end.

(** The records between the two positions. *)
Record ring_inv (mem : ring_mem) (rs : list rec) : Prop := {
  inv_len : zlen (rb_data mem) = ring_size;
  inv_cons : 0 <= consumer_pos mem < 2 ^ 64;
  inv_region : region (rb_data mem) (consumer_pos mem) rs;
  inv_size : sizes rs <= ring_size;
  inv_prod : producer_pos mem = u64 (consumer_pos mem + sizes rs)
}.

(** The protocol of the kernel side. *)
Definition kernel_ok (kernel : nat -> ring_mem -> ring_mem) : Prop :=
  forall k mem rs, ring_inv mem rs ->
    consumer_pos (kernel k mem) = consumer_pos mem /\
    exists rs', ring_inv (kernel k mem) rs' /\ extends rs rs'.

Lemma ring_size_range : 8 <= ring_size <= 2147483648.
Proof.
  unfold ring_size. split.
  - change 8 with (2 ^ 3). apply Z.pow_le_mono_r; lia.
  - change 2147483648 with (2 ^ 31). apply Z.pow_le_mono_r; lia.
Qed.

Lemma land_mask p : Z.land p (ring_size - 1) = p mod ring_size.
Proof. unfold ring_size. rewrite Z.sub_1_r, <- Z.ones_equiv, Z.land_ones by lia. done. Qed.

Lemma rec_size_bounds r : 0 <= rec_len r < BPF_RINGBUF_DISCARD_BIT -> 8 <= rec_size r <= 1073741840.
Proof. unfold rec_size, BPF_RINGBUF_DISCARD_BIT. lia. Qed.

Lemma region_lens data p rs : region data p rs -> Forall (fun r => 0 <= rec_len r < BPF_RINGBUF_DISCARD_BIT) rs.
Proof.
  revert p. induction rs as [|r rs IH]; intros p; [constructor |]. cbn [region]. intros [[Hr _] H].
  constructor; [exact Hr | exact (IH _ H)].
Qed.

Lemma sizes_nonneg rs : Forall (fun r => 0 <= rec_len r < BPF_RINGBUF_DISCARD_BIT) rs -> 8 * zlen rs <= sizes rs.
Proof.
  induction 1 as [|r rs Hr H IH]; [cbv; discriminate |]. cbn [sizes]. rewrite zlen_cons.
  pose proof (rec_size_bounds r Hr). lia.
Qed.

Lemma sizes_app rs rs' : sizes (rs ++ rs') = sizes rs + sizes rs'.
Proof. induction rs as [|r rs IH]; cbn; lia. Qed.

(** *** Extension *)
Lemma evolves_refl r : evolves r r.
Proof. unfold evolves. by destruct (rec_busy r). Qed.

Lemma evolves_len r r' : evolves r r' -> rec_len r' = rec_len r.
Proof. unfold evolves. destruct (rec_busy r); [done | by intros ->]. Qed.

Lemma evolves_trans r1 r2 r3 : evolves r1 r2 -> evolves r2 r3 -> evolves r1 r3.
Proof.
  unfold evolves. destruct (rec_busy r1) eqn:H1.
  - intros H2. destruct (rec_busy r2); [congruence | by intros ->].
  - intros ->. by rewrite H1.
Qed.

Lemma evolves_all_refl rs : Forall2 evolves rs rs.
Proof. induction rs; constructor; [apply evolves_refl | done]. Qed.

Lemma extends_refl rs : extends rs rs.
Proof. exists rs, []. rewrite app_nil_r. split; [done | apply evolves_all_refl]. Qed.

Lemma evolves_all_trans rs1 rs2 rs3 : Forall2 evolves rs1 rs2 -> Forall2 evolves rs2 rs3 -> Forall2 evolves rs1 rs3.
Proof.
  intros H. revert rs3. induction H as [|r1 r2 rs1 rs2 Hr H IH]; intros rs3 H2; inversion_clear H2; constructor.
  - by eapply evolves_trans.
  - by apply IH.
Qed.

Lemma extends_trans rs1 rs2 rs3 : extends rs1 rs2 -> extends rs2 rs3 -> extends rs1 rs3.
Proof.
  intros (o1 & n1 & -> & H1) (o2 & n2 & -> & H2). apply Forall2_app_inv_l in H2 as (o21 & o22 & H21 & H22 & ->).
  exists o21, (o22 ++ n2). rewrite app_assoc. split; [done |]. by eapply evolves_all_trans.
Qed.

(** A prefix keeps its place. *)
Lemma extends_app pre suf rs' :
  extends (pre ++ suf) rs' -> exists pre' suf', rs' = pre' ++ suf' /\ Forall2 evolves pre pre' /\ extends suf suf'.
Proof.
  intros (old & new & -> & H). apply Forall2_app_inv_l in H as (pre' & suf' & H1 & H2 & ->).
  exists pre', (suf' ++ new). rewrite app_assoc. split; [done |]. split; [done |]. by exists suf', new.
Qed.

Lemma extends_app_intro pre pre' suf suf' :
  Forall2 evolves pre pre' -> extends suf suf' -> extends (pre ++ suf) (pre' ++ suf').
Proof.
  intros H (old & new & -> & H2). exists (pre' ++ old), new. rewrite app_assoc. split; [done |]. by apply Forall2_app.
Qed.

Lemma evolves_sizes rs rs' : Forall2 evolves rs rs' -> sizes rs' = sizes rs.
Proof.
  induction 1 as [|r r' rs rs' Hr H IH]; [done |]. cbn [sizes]. unfold rec_size. by rewrite (evolves_len r r' Hr), IH.
Qed.

(** *** The header word *)
Lemma land_bit w k : 0 <= k -> (Z.land w (2 ^ k) =? 0) = negb (Z.testbit w k).
Proof.
  intros Hk. apply eq_true_iff_eq. rewrite Z.eqb_eq, negb_true_iff. split.
  - intros H. assert (Ht : Z.testbit (Z.land w (2 ^ k)) k = false) by (rewrite H; apply Z.bits_0).
    rewrite Z.land_spec, Z.pow2_bits_true, andb_true_r in Ht by lia. exact Ht.
  - intros H. apply Z.bits_inj'. intros i Hi. rewrite Z.land_spec, Z.bits_0, Z.pow2_bits_eqb by lia.
    destruct (k =? i) eqn:E; [|apply andb_false_r]. replace i with k by lia. by rewrite H.
Qed.

Lemma word_flags r :
  0 <= rec_len r < BPF_RINGBUF_DISCARD_BIT ->
  (Z.land (rec_word r) BPF_RINGBUF_BUSY_BIT =? 0) = negb (rec_busy r) /\
  (Z.land (rec_word r) BPF_RINGBUF_DISCARD_BIT =? 0) = negb (rec_discard r) /\
  roundup_len (rec_word r) = rec_size r.
Proof.
  unfold rec_word, BPF_RINGBUF_BUSY_BIT, BPF_RINGBUF_DISCARD_BIT. intros Hl.
  change 2147483648 with (2 ^ 31) at 2. change (Z.land ?w 1073741824) with (Z.land w (2 ^ 30)).
  rewrite !land_bit, !Z.testbit_eqb by lia. change (2 ^ 31) with 2147483648. change (2 ^ 30) with 1073741824.
  split; [|split].
  - f_equal. destruct (rec_busy r), (rec_discard r); cbn [Z.b2z]; lia.
  - f_equal. destruct (rec_busy r), (rec_discard r); cbn [Z.b2z]; lia.
  - unfold roundup_len, rec_size, BPF_RINGBUF_HDR_SZ. rewrite Z.shiftl_mul_pow2, Z.shiftr_div_pow2 by lia.
    assert (He : u32 ((rec_len r + Z.b2z (rec_busy r) * 2147483648 + Z.b2z (rec_discard r) * 1073741824) * 2 ^ 2) / 2 ^ 2
      = rec_len r).
    { unfold uwrap. change (2 ^ 32) with 4294967296. change (2 ^ 2) with 4.
      destruct (rec_busy r), (rec_discard r); cbn [Z.b2z]; lia. }
    rewrite He. rewrite (u32_small (rec_len r + 8)), (u32_small (rec_len r + 8 + 7)) by lia. rewrite s32_small; [|lia].
    by replace (rec_len r + 8 + 7) with (rec_len r + 15) by lia.
Qed.

Lemma undiscarded_word r :
  rec_busy r = false -> rec_discard r = false -> rec_word r = rec_len r.
Proof. unfold rec_word. intros -> ->. cbn [Z.b2z]. lia. Qed.

(** *** Positions *)
Lemma inv_avail mem rs : ring_inv mem rs -> u64 (producer_pos mem - consumer_pos mem) = sizes rs.
Proof.
  intros [_ Hc Hr Hs Hp]. rewrite Hp. pose proof (sizes_nonneg rs (region_lens _ _ _ Hr)). pose proof (zlen_nonneg rs).
  pose proof ring_size_range. unfold uwrap. change (2 ^ 64) with 18446744073709551616 in *. lia.
Qed.

(** The first record taken. *)
Lemma inv_consume mem r rs :
  ring_inv mem (r :: rs) ->
  ring_inv (RingMem (u64 (consumer_pos mem + rec_size r)) (producer_pos mem) (rb_data mem)) rs.
Proof.
  intros [Hl Hc Hr Hs Hp]. cbn [region sizes] in *. destruct Hr as [Hat Hr].
  pose proof (rec_size_bounds r (proj1 Hat)) as Hb.
  split; cbn [rb_data consumer_pos producer_pos]; try done.
  - apply u64_range.
  - lia.
  - rewrite Hp. unfold uwrap. change (2 ^ 64) with 18446744073709551616 in *. lia.
Qed.

(** The memory determines the records. *)
Lemma rec_word_inj r r' :
  0 <= rec_len r < BPF_RINGBUF_DISCARD_BIT -> 0 <= rec_len r' < BPF_RINGBUF_DISCARD_BIT -> rec_word r = rec_word r' ->
  rec_len r = rec_len r' /\ rec_busy r = rec_busy r' /\ rec_discard r = rec_discard r'.
Proof.
  unfold rec_word, BPF_RINGBUF_BUSY_BIT, BPF_RINGBUF_DISCARD_BIT. intros H1 H2 He.
  destruct (rec_busy r), (rec_discard r), (rec_busy r'), (rec_discard r'); cbn [Z.b2z] in He; first [lia | split; [lia | done]].
Qed.

Lemma region_unique data p rs rs' : region data p rs -> region data p rs' -> sizes rs = sizes rs' -> rs = rs'.
Proof.
  revert p rs'. induction rs as [|r rs IH]; intros p [|r' rs'] H H' Hs; [done | | |]; cbn [region sizes] in *.
  - destruct H' as [[Hl _] H']. pose proof (rec_size_bounds r' Hl). pose proof (sizes_nonneg _ (region_lens _ _ _ H')).
    pose proof (zlen_nonneg rs'). lia.
  - destruct H as [[Hl _] H]. pose proof (rec_size_bounds r Hl). pose proof (sizes_nonneg _ (region_lens _ _ _ H)).
    pose proof (zlen_nonneg rs). lia.
  - destruct H as [(Hl & Hw & Hb) H], H' as [(Hl' & Hw' & Hb') H'].
    assert (Hww : rec_word r = rec_word r') by congruence.
    destruct (rec_word_inj r r' Hl Hl' Hww) as (E1 & E2 & E3). rewrite E1 in Hb.
    assert (E4 : rec_bytes r = rec_bytes r') by congruence.
    assert (r = r') as -> by (destruct r, r'; cbn in *; congruence). f_equal. apply (IH _ _ H H'). lia.
Qed.

Lemma ring_inv_unique mem rs rs' : ring_inv mem rs -> ring_inv mem rs' -> rs = rs'.
Proof.
  intros H H'. apply (region_unique (rb_data mem) (consumer_pos mem)); [apply H | apply H' |].
  by rewrite <- (inv_avail mem rs H), (inv_avail mem rs' H').
Qed.

(** *** The consumer's loops *)
Section Loops.
Context {A : Type} (kernel : nat -> ring_mem -> ring_mem) (cb : A -> list Z -> Z * A) (n : Z).
Hypothesis (Hkernel : kernel_ok kernel).
Hypothesis (Hn : 0 <= n < 2 ^ 64).

(** The kernel does nothing from a time on. *)
Definition quiet_from (t : nat) : Prop := forall k mem, (t <= k)%nat -> kernel k mem = mem.

(** What a part of the run did: the records [taken] are delivered, [rest] is left. *)
Record progress (rs : list rec) (cnt : Z) (m : machine A) (taken rest : list rec) (v : Z) (m' : machine A) : Prop := {
  pg_inv : ring_inv (mc_mem m') rest;
  pg_extends : extends rs (taken ++ rest);
  pg_committed : Forall (fun r => rec_busy r = false) taken;
  pg_pos : consumer_pos (mc_mem m') = u64 (consumer_pos (mc_mem m) + sizes taken);
  pg_time : (mc_time m <= mc_time m')%nat;
  pg_deliver : deliver cb (mc_app m) cnt taken = (v, mc_app m', [])
}.

Definition first_busy (rs : list rec) : Prop := exists r rs', rs = r :: rs' /\ rec_busy r = true.

Definition loop_post (pre suf : list rec) (got : bool) (cnt : Z) (m : machine A) (e : loop_exit) (m' : machine A) : Prop :=
  match e with
  | LoopDrained cons' got' cnt' =>
      exists taken rest, progress (pre ++ suf) cnt m taken rest cnt' m' /\
        cons' = consumer_pos (mc_mem m') /\ 0 <= cnt' < Z.max 1 n /\ length taken = length pre /\
        got' = got || negb (zlen pre =? 0) /\ (quiet_from (mc_time m) \/ pre = [] -> rest = suf)
  | LoopReturn v =>
      exists taken rest, progress (pre ++ suf) cnt m taken rest v m' /\ v <= Z.max 1 n /\
        (v < 0 \/ n <= v \/ first_busy rest)
  end.

Lemma interfere_inv (m : machine A) rs :
  ring_inv (mc_mem m) rs ->
  consumer_pos (mc_mem (interfere kernel m)) = consumer_pos (mc_mem m) /\
  exists rs', ring_inv (mc_mem (interfere kernel m)) rs' /\ extends rs rs' /\ (quiet_from (mc_time m) -> rs' = rs).
Proof.
  intros Hi. destruct (Hkernel (mc_time m) _ _ Hi) as (Hc & rs' & Hi' & He). split; [exact Hc |].
  exists rs'. split; [exact Hi' |]. split; [exact He |]. intros Hq. rewrite (Hq (mc_time m) _ (le_n _)) in Hi'.
  exact (ring_inv_unique _ _ _ Hi' Hi).
Qed.

Lemma extends_cons_inv r rs rs' : extends (r :: rs) rs' -> exists r' rs1, rs' = r' :: rs1 /\ evolves r r' /\ extends rs rs1.
Proof.
  intros (old & new & -> & H). inversion H as [|? r' ? old' Hr Hrest]; subst. exists r', (old' ++ new).
  split; [done |]. split; [done |]. by exists old', new.
Qed.

Lemma extends_cons r r' rs rs' : evolves r r' -> extends rs rs' -> extends (r :: rs) (r' :: rs').
Proof. intros Hr H. apply (extends_app_intro [r] [r'] rs rs'); [by constructor | exact H]. Qed.

(** The records before a position stay before it. *)
Lemma split_extends pre suf rs' :
  extends (pre ++ suf) rs' ->
  exists pre' suf', rs' = pre' ++ suf' /\ extends pre pre' /\ length pre' = length pre /\ sizes pre' = sizes pre /\
    (rs' = pre ++ suf -> suf' = suf).
Proof.
  intros He. destruct (extends_app _ _ _ He) as (pre' & suf' & -> & H1 & H2). exists pre', suf'.
  pose proof (Forall2_length _ _ _ H1) as Hl. split; [done |]. split; [exists pre', []; by rewrite app_nil_r |].
  split; [done |]. split; [by apply evolves_sizes |]. intros Heq. by apply app_inj_1 in Heq as [_ ->].
Qed.

(** One record taken and delivered, then the rest of the run. *)
Lemma progress_cons rs cnt m r1 rs4 cnt4 m4 taken rest v m' :
  extends rs (r1 :: rs4) -> rec_busy r1 = false ->
  consumer_pos (mc_mem m4) = u64 (consumer_pos (mc_mem m) + rec_size r1) -> (mc_time m <= mc_time m4)%nat ->
  (forall l, deliver cb (mc_app m) cnt (r1 :: l) = deliver cb (mc_app m4) cnt4 l) ->
  progress rs4 cnt4 m4 taken rest v m' -> progress rs cnt m (r1 :: taken) rest v m'.
Proof.
  intros He Hb Hc Ht Hd [P1 P2 P3 P4 P5 P6]. split.
  - exact P1.
  - eapply extends_trans; [exact He |]. cbn [app]. by apply extends_cons; [apply evolves_refl |].
  - by constructor.
  - cbn [sizes]. rewrite P4, Hc. unfold uwrap. rewrite Zplus_mod_idemp_l. f_equal. lia.
  - lia.
  - by rewrite Hd.
Qed.

Lemma progress_nil m rs cnt rest :
  ring_inv (mc_mem m) rest -> extends rs rest -> forall m0, consumer_pos (mc_mem m) = consumer_pos (mc_mem m0) ->
  (mc_time m0 <= mc_time m)%nat -> mc_app m = mc_app m0 -> progress rs cnt m0 [] rest cnt m.
Proof.
  intros Hi He m0 Hc Ht Ha. split; try done.
  - cbn [sizes]. rewrite Z.add_0_r, Hc. destruct Hi as [_ Hr _ _ _]. rewrite Hc in Hr. by rewrite u64_small by lia.
  - cbn. by rewrite Ha.
Qed.

(** The loop from a record on, after its callback or past a discarded record. *)
Lemma process_next fuel prod_pos cons_pos got cnt m r1 rs4 pre4 suf4 rs cnt4 m4 pre suf :
  (forall pre suf got cnt m, ring_inv (mc_mem m) (pre ++ suf) -> (length pre <= fuel)%nat ->
     prod_pos = u64 (consumer_pos (mc_mem m) + sizes pre) -> 0 <= cnt < Z.max 1 n ->
     exists e m', process_loop kernel fuel cb (ring_size - 1) n prod_pos (consumer_pos (mc_mem m)) got cnt m = Some (e, m') /\
       loop_post pre suf got cnt m e m') ->
  rs = pre ++ suf -> rs4 = pre4 ++ suf4 -> length pre = S (length pre4) ->
  extends rs (r1 :: rs4) -> rec_busy r1 = false -> ring_inv (mc_mem m4) rs4 -> (length pre4 <= fuel)%nat ->
  prod_pos = u64 (consumer_pos (mc_mem m4) + sizes pre4) -> 0 <= cnt4 <= Z.max 1 n ->
  cons_pos = consumer_pos (mc_mem m4) ->
  consumer_pos (mc_mem m4) = u64 (consumer_pos (mc_mem m) + rec_size r1) -> (mc_time m <= mc_time m4)%nat ->
  (forall l, deliver cb (mc_app m) cnt (r1 :: l) = deliver cb (mc_app m4) cnt4 l) ->
  (quiet_from (mc_time m) -> suf4 = suf) ->
  exists e m', (if n <=? u64 cnt4 then Some (LoopReturn cnt4, m4)
                else process_loop kernel fuel cb (ring_size - 1) n prod_pos cons_pos true cnt4 m4) = Some (e, m') /\
    loop_post pre suf got cnt m e m'.
Proof.
  intros IH -> -> Hl He Hb Hi Hf Hp Hc -> Hpos Ht Hd Hq. rewrite u64_small by lia.
  destruct (n <=? cnt4) eqn:Hlim.
  - do 2 eexists. split; [reflexivity |]. exists [r1], (pre4 ++ suf4). split; [|split; [lia | right; left; lia]].
    eapply progress_cons; try eassumption. apply progress_nil; try done. apply extends_refl.
  - destruct (IH pre4 suf4 true cnt4 m4 Hi Hf Hp ltac:(lia)) as (e & m' & Hrun & Hpost). exists e, m'.
    split; [exact Hrun |]. destruct e as [v|cons' got' cnt']; cbn [loop_post] in *.
    + destruct Hpost as (taken & rest & P & Hv & Hend). exists (r1 :: taken), rest. split; [|done].
      by eapply progress_cons.
    + destruct Hpost as (taken & rest & P & -> & Hcnt & Hlen & -> & Hqq). exists (r1 :: taken), rest.
      split; [by eapply progress_cons |]. split; [done |]. split; [done |]. split; [cbn; lia |].
      split; [|intros [Hq0| ->]; [|done]; rewrite <- (Hq Hq0); apply Hqq; left; intros k mem Hk; apply Hq0; lia].
      replace (zlen pre =? 0) with false by (unfold zlen; lia). by rewrite orb_true_r.
Qed.

(** The memory after the store of the consumer position behind a completed record. *)
Lemma after_record m1 r1 pre1 suf1 (a : A) :
  ring_inv (mc_mem m1) (r1 :: pre1 ++ suf1) -> rec_busy r1 = false ->
  let m4 := set_consumer_pos (interfere kernel (set_app m1 a)) (u64 (consumer_pos (mc_mem m1) + rec_size r1)) in
  exists pre4 suf4, extends (r1 :: pre1 ++ suf1) (r1 :: pre4 ++ suf4) /\ length pre4 = length pre1 /\
    ring_inv (mc_mem m4) (pre4 ++ suf4) /\ sizes pre4 = sizes pre1 /\ (quiet_from (mc_time m1) -> suf4 = suf1).
Proof.
  intros Hi1 Hbusy m4. destruct (interfere_inv (set_app m1 a) (r1 :: pre1 ++ suf1)) as (Hc3 & rs3 & Hi3 & He3 & Hq3); [exact Hi1 |].
  destruct (split_extends (r1 :: pre1) suf1 rs3 He3) as (pre3' & suf3 & -> & Hep3 & Hl3 & Hs3 & Hqs3).
  apply extends_cons_inv in Hep3 as (r3 & pre3 & -> & Hev3 & _). unfold evolves in Hev3. rewrite Hbusy in Hev3. subst r3.
  cbn [length app sizes] in *. exists pre3, suf3. split; [exact He3 |]. split; [lia |]. split; [|split; [lia |]].
  - unfold m4, set_consumer_pos. cbn [mc_mem]. change (consumer_pos (mc_mem m1)) with (consumer_pos (mc_mem (set_app m1 a))).
    rewrite <- Hc3. by apply inv_consume.
  - intros Hq. apply Hqs3, Hq3. exact Hq.
Qed.

Lemma process_loop_spec fuel prod_pos pre suf got cnt m :
  ring_inv (mc_mem m) (pre ++ suf) -> (length pre <= fuel)%nat ->
  prod_pos = u64 (consumer_pos (mc_mem m) + sizes pre) -> 0 <= cnt < Z.max 1 n ->
  exists e m', process_loop kernel fuel cb (ring_size - 1) n prod_pos (consumer_pos (mc_mem m)) got cnt m = Some (e, m') /\
    loop_post pre suf got cnt m e m'.
Proof.
  revert pre suf got cnt m. induction fuel as [|fuel IH]; intros pre suf got cnt m Hi Hf Hp Hc.
  all: pose proof (inv_cons _ _ Hi) as Hcr; pose proof (region_lens _ _ _ (inv_region _ _ Hi)) as Hlens;
    apply Forall_app in Hlens as [Hlp Hls]; pose proof (sizes_nonneg pre Hlp) as Hsp; pose proof (sizes_nonneg suf Hls);
    pose proof (inv_size _ _ Hi) as Hsz; rewrite sizes_app in Hsz; pose proof ring_size_range;
    pose proof (zlen_nonneg pre); pose proof (zlen_nonneg suf);
    assert (Hav : u64 (prod_pos - consumer_pos (mc_mem m)) = sizes pre)
      by (rewrite Hp; unfold uwrap; change (2 ^ 64) with 18446744073709551616 in *; lia).
  all: cbn [process_loop]; rewrite Hav; destruct pre as [|r pre].
  1,3: do 2 eexists; (split; [reflexivity |]); exists [], suf; split; [apply progress_nil; try done; apply extends_refl |];
    split; [done |]; split; [lia |]; split; [done |]; split; [cbn; by rewrite orb_false_r | done].
  1: cbn in Hf; lia.
  rewrite zlen_cons in *. pose proof (zlen_nonneg pre) as Hz0. replace (sizes (r :: pre) =? 0) with false by lia.
  destruct (interfere_inv m _ Hi) as (Hc1 & rs1 & Hi1 & He1 & Hq1).
  destruct (split_extends (r :: pre) suf rs1 He1) as (pre1' & suf1 & -> & Hep & Hl1 & Hs1 & Hqs1).
  apply extends_cons_inv in Hep as (r1 & pre1 & -> & Hev & _). cbn [length app sizes] in *.
  set (m1 := interfere kernel m) in *. pose proof (inv_region _ _ Hi1) as [Hat1 _]. destruct Hat1 as (Hr1 & Hw1 & Hb1).
  rewrite land_mask, <- Hc1, Hw1. cbn [mbind option_bind].
  destruct (word_flags r1 Hr1) as (-> & -> & ->). rewrite negb_involutive.
  destruct (rec_busy r1) eqn:Hbusy.
  { do 2 eexists. split; [reflexivity |]. exists [], (r1 :: pre1 ++ suf1).
    split; [|split; [lia | right; right; by exists r1, (pre1 ++ suf1)]].
    apply progress_nil; try done. cbn. lia. }
  assert (Hnext : forall a, let m4 := set_consumer_pos (interfere kernel (set_app m1 a)) (u64 (consumer_pos (mc_mem m1) + rec_size r1)) in
    exists pre4 suf4, extends (r :: pre ++ suf) (r1 :: pre4 ++ suf4) /\ length pre = length pre4 /\
      ring_inv (mc_mem m4) (pre4 ++ suf4) /\ sizes pre4 = sizes pre /\ (quiet_from (mc_time m) -> suf4 = suf)).
  { intros a. destruct (after_record m1 r1 pre1 suf1 a Hi1 Hbusy) as (pre4 & suf4 & He4 & Hl4 & Hi4 & Hs4 & Hq4).
    exists pre4, suf4. pose proof (evolves_len r r1 Hev) as Hrl. unfold rec_size in Hs1. rewrite Hrl in Hs1.
    split; [by eapply extends_trans |]. split; [lia |]. split; [exact Hi4 |]. split; [lia |].
    intros Hq. rewrite (Hq4 ltac:(intros k mem Hk; apply Hq; cbn in Hk; lia)). exact (Hqs1 (Hq1 Hq)). }
  destruct (rec_discard r1) eqn:Hdisc; cbn [negb].
  - destruct (Hnext (mc_app m1)) as (pre4 & suf4 & He4 & Hl4 & Hi4 & Hs4 & Hq4).
    replace (set_app m1 (mc_app m1)) with m1 in * by (by destruct m1).
    eapply (process_next fuel prod_pos _ got cnt m r1 _ pre4 suf4 _ cnt _ (r :: pre) suf IH eq_refl eq_refl);
      try eassumption; cbn [length app] in *; try lia; try done.
    + cbn [mc_mem set_consumer_pos consumer_pos]. rewrite Hp, Hs4, <- Hc1. unfold uwrap. rewrite Zplus_mod_idemp_l. f_equal.
      pose proof (evolves_len r r1 Hev) as Hrl. unfold rec_size. rewrite Hrl. lia.
    + cbn [mc_mem set_consumer_pos consumer_pos]. by rewrite Hc1.
    + cbn. lia.
    + intros l. cbn [deliver]. by rewrite Hdisc.
  - rewrite (undiscarded_word r1 Hbusy Hdisc), Hb1. cbn [mbind option_bind].
    change (mc_app m1) with (mc_app m). destruct (cb (mc_app m) (rec_bytes r1)) as [err a] eqn:Hcb.
    destruct (Hnext a) as (pre4 & suf4 & He4 & Hl4 & Hi4 & Hs4 & Hq4). destruct (err <? 0) eqn:Herr.
    + do 2 eexists. split; [reflexivity |]. exists [r1], (pre4 ++ suf4). split; [|split; [lia | left; lia]]. split.
      * exact Hi4.
      * exact He4.
      * by constructor.
      * cbn [mc_mem set_consumer_pos consumer_pos sizes]. by rewrite Hc1, Z.add_0_r.
      * cbn. lia.
      * cbn [deliver]. by rewrite Hdisc, Hcb, Herr.
    + eapply (process_next fuel prod_pos _ got cnt m r1 _ pre4 suf4 _ (cnt + 1) _ (r :: pre) suf IH eq_refl eq_refl);
        try eassumption; cbn [length app] in *; try lia; try done.
      * cbn [mc_mem set_consumer_pos consumer_pos]. rewrite Hp, Hs4, <- Hc1. unfold uwrap. rewrite Zplus_mod_idemp_l. f_equal.
        pose proof (evolves_len r r1 Hev) as Hrl. unfold rec_size. rewrite Hrl. lia.
      * cbn [mc_mem set_consumer_pos consumer_pos]. by rewrite Hc1.
      * cbn. lia.
      * intros l. cbn [deliver]. by rewrite Hdisc, Hcb, Herr.
Qed.

(** *** The rounds *)

(** How a call ends: with the callback's error, at the limit, or when there is no
    completed record at the front. *)
Definition call_end (v : Z) (rest : list rec) : Prop := v < 0 \/ n <= v \/ rest = [] \/ first_busy rest.

Lemma progress_trans rs cnt m t1 r1 c1 m1 t2 r2 v m2 :
  progress rs cnt m t1 r1 c1 m1 -> progress r1 c1 m1 t2 r2 v m2 ->
  (forall l, deliver cb (mc_app m) cnt (t1 ++ l) = deliver cb (mc_app m1) c1 l) ->
  progress rs cnt m (t1 ++ t2) r2 v m2.
Proof.
  intros [P1 P2 P3 P4 P5 P6] [Q1 Q2 Q3 Q4 Q5 Q6] Hd. split.
  - exact Q1.
  - rewrite <- app_assoc. eapply extends_trans; [exact P2 |]. by apply extends_app_intro; [apply evolves_all_refl |].
  - by apply Forall_app.
  - rewrite Q4, P4, sizes_app. unfold uwrap. rewrite Zplus_mod_idemp_l. f_equal. lia.
  - lia.
  - by rewrite Hd.
Qed.

(** Delivery without an error can be continued. *)
Lemma deliver_app a cnt t c a' l :
  deliver cb a cnt t = (c, a', []) -> 0 <= c -> deliver cb a cnt (t ++ l) = deliver cb a' c l.
Proof.
  revert a cnt. induction t as [|r t IH]; intros a cnt; cbn [deliver app]; [by intros [= -> ->] |].
  destruct (rec_discard r); [apply IH |]. destruct (cb a (rec_bytes r)) as [err a1]. destruct (err <? 0) eqn:He; [|apply IH].
  intros [= -> -> ->] Hc. lia.
Qed.

Lemma process_rounds_spec rounds K rs cnt m :
  quiet_from K -> ring_inv (mc_mem m) rs -> 0 <= cnt < Z.max 1 n ->
  (2 <= rounds /\ K + 2 <= mc_time m + rounds)%nat \/ (1 <= rounds /\ K <= mc_time m)%nat /\ rs = [] ->
  exists v m' taken rest, process_rounds kernel rounds cb (ring_size - 1) n (consumer_pos (mc_mem m)) cnt m = Some (v, m') /\
    progress rs cnt m taken rest v m' /\ v <= Z.max 1 n /\ call_end v rest.
Proof.
  intros HK. revert rs cnt m. induction rounds as [|rounds IH]; intros rs cnt m Hi Hc Hr; [lia |].
  cbn [process_rounds]. destruct (interfere_inv m rs Hi) as (Hc1 & rs1 & Hi1 & He1 & Hq1).
  set (m1 := interfere kernel m) in *. pose proof (inv_avail _ _ Hi1) as Hav. pose proof (inv_prod _ _ Hi1) as Hprod.
  pose proof (region_lens _ _ _ (inv_region _ _ Hi1)) as Hlens. pose proof (sizes_nonneg rs1 Hlens) as Hsz.
  rewrite <- Hc1. destruct (process_loop_spec (loop_fuel (producer_pos (mc_mem m1)) (consumer_pos (mc_mem m1)))
    (producer_pos (mc_mem m1)) rs1 [] false cnt m1) as (e & m2 & Hrun & Hpost);
    [by rewrite app_nil_r | unfold loop_fuel; rewrite Hav; unfold zlen in Hsz; lia | exact Hprod | exact Hc |].
  rewrite Hrun. cbn [mbind option_bind].
  assert (Hstart : forall taken rest v, progress (rs1 ++ []) cnt m1 taken rest v m2 -> progress rs cnt m taken rest v m2).
  { intros taken rest v P. rewrite app_nil_r in P. destruct P as [P1 P2 P3 P4 P5 P6]. split; try done.
    - by eapply extends_trans.
    - by rewrite P4, Hc1.
    - cbn in P5. lia. }
  destruct e as [v|cons' got' cnt']; cbn [loop_post] in Hpost.
  - destruct Hpost as (taken & rest & P & Hv & Hend). exists v, m2, taken, rest. split; [reflexivity |].
    split; [by apply Hstart |]. split; [exact Hv |]. unfold call_end. tauto.
  - destruct Hpost as (taken & rest & P & -> & Hcnt & Hlen & -> & Hqq). pose proof (Hstart _ _ _ P) as P'.
    cbn [orb]. destruct (zlen rs1 =? 0) eqn:Hz; cbn [negb].
    + assert (rs1 = []) as -> by (destruct rs1; [done | rewrite zlen_cons in Hz; pose proof (zlen_nonneg rs1); lia]).
      destruct taken; [|done]. destruct P as [_ _ _ _ _ Pd]. injection Pd as <- _.
      exists cnt, m2, [], rest. split; [reflexivity |]. split; [exact P' |]. split; [lia |]. unfold call_end.
      rewrite (Hqq ltac:(by right)). tauto.
    + pose proof (pg_inv _ _ _ _ _ _ _ P) as Hi2. pose proof (pg_time _ _ _ _ _ _ _ P) as Ht2. cbn in Ht2.
      destruct (IH rest cnt' m2 Hi2 Hcnt) as (v & m' & taken' & rest' & Hrun' & P2 & Hv & Hend).
      { destruct Hr as [[Hr1 Hr2]|[[Hr1 Hr2] ->]].
        - destruct (decide (2 <= rounds)%nat) as [Hr3|Hr3]; [left; lia |]. right. split; [lia |].
          apply Hqq. left. intros k mem Hk. apply HK. cbn in Hk. lia.
        - rewrite (Hq1 ltac:(intros k mem Hk; apply HK; lia)) in Hz. done. }
      exists v, m', (taken ++ taken'), rest'. split; [exact Hrun' |]. split; [|split; [exact Hv | exact Hend]].
      eapply progress_trans; [exact P' | exact P2 |]. intros l. apply deliver_app; [|lia].
      exact (pg_deliver _ _ _ _ _ _ _ P').
Qed.
End Loops.
End Protocol.

(** ** The consumer *)

(** C7: [ringbuf_process_ring] against a kernel that runs at the same time and follows
    the protocol.  If the kernel stops producing (from its [K]th action on), the call
    returns.  It delivers each completed record at the front once, in order and with
    its bytes, skips discarded ones, never touches a record that is still busy, and
    leaves the consumer position behind the last record taken.  It ends with the
    error of a callback, when [n] samples are delivered, or when no completed record
    is left at the front; never more than [n] samples are delivered, but for [n = 0],
    where one is. *)
Theorem ringbuf_process_ring_spec {A} bits kernel (r : ring A) n app K rs :
  3 <= bits <= 31 -> kernel_ok bits kernel -> quiet_from kernel K -> ring_mask r = ring_size bits - 1 ->
  ring_inv bits (ring_memory r) rs -> 0 <= n < 2 ^ 64 ->
  exists v m taken rest,
    ringbuf_process_ring kernel (K + 2) r n app = Some (v, m) /\
    ring_inv bits (mc_mem m) rest /\ extends rs (taken ++ rest) /\
    Forall (fun r => rec_busy r = false) taken /\
    consumer_pos (mc_mem m) = u64 (consumer_pos (ring_memory r) + sizes taken) /\
    deliver (sample_cb r) app 0 taken = (v, mc_app m, []) /\
    v <= Z.max 1 n /\ (v < 0 \/ n <= v \/ rest = [] \/ first_busy rest).
Proof.
  intros Hb Hk Hq Hm Hi Hn. unfold ringbuf_process_ring. rewrite Hm.
  destruct (interfere_inv bits Hb kernel Hk (Machine (ring_memory r) 0 app) rs Hi) as (Hc1 & rs1 & Hi1 & He1 & _).
  set (m1 := interfere kernel (Machine (ring_memory r) 0 app)) in *.
  destruct (process_rounds_spec bits Hb kernel (sample_cb r) n Hk Hn (K + 2) K rs1 0 m1 Hq Hi1)
    as (v & m & taken & rest & Hrun & [P1 P2 P3 P4 P5 P6] & Hv & Hend); [lia | left; cbn; lia |].
  exists v, m, taken, rest. split; [exact Hrun |]. split; [exact P1 |]. split; [by eapply extends_trans |].
  split; [exact P3 |]. split; [by rewrite P4, Hc1 |]. split; [exact P6 |]. split; [exact Hv | exact Hend].
Qed.

#[export] Instance ring_mem_eq_dec : EqDecision ring_mem.
Proof. solve_decision. Defined.

(** A ring of 16 bytes with one record that the kernel completes at the third access. *)
Definition demo_busy : ring_mem := RingMem 0 16 [4; 0; 0; 128; 0; 0; 0; 0; 1; 2; 3; 4; 0; 0; 0; 0].
Definition demo_committed : ring_mem := RingMem 0 16 [4; 0; 0; 0; 0; 0; 0; 0; 9; 8; 7; 6; 0; 0; 0; 0].
Definition demo_kernel (k : nat) (mem : ring_mem) : ring_mem :=
  if bool_decide (k = 2%nat /\ mem = demo_busy) then demo_committed else mem.
Definition demo_ring : ring (list (list Z)) := Ring (fun app sample => (0, app ++ [sample])) demo_busy 15 3.

Lemma demo_busy_inv : ring_inv 4 demo_busy [Rec 4 true false [1; 2; 3; 4]].
Proof. split; [reflexivity | done | | cbv; congruence | reflexivity]. by repeat split. Qed.

Lemma demo_kernel_ok : kernel_ok 4 demo_kernel.
Proof.
  intros k mem rs Hi. unfold demo_kernel. case_bool_decide as Hd; [|split; [done |]; exists rs; split; [done | apply extends_refl]].
  destruct Hd as [_ ->]. split; [reflexivity |].
  rewrite (ring_inv_unique 4 ltac:(lia) demo_busy rs _ Hi demo_busy_inv).
  exists [Rec 4 false false [9; 8; 7; 6]]. split.
  - split; [reflexivity | done | | cbv; congruence | reflexivity]. by repeat split.
  - exists [Rec 4 false false [9; 8; 7; 6]], []. split; [reflexivity |]. by constructor.
Qed.

Lemma ringbuf_process_ring_spec_witness :
  exists m taken, ringbuf_process_ring demo_kernel (3 + 2) demo_ring 8 [] = Some (1, m) /\
    mc_app m = [[9; 8; 7; 6]] /\ consumer_pos (mc_mem m) = 16 /\
    deliver (sample_cb demo_ring) [] 0 taken = (1, mc_app m, []).
Proof.
  destruct (ringbuf_process_ring_spec 4 demo_kernel demo_ring 8 [] 3 [Rec 4 true false [1; 2; 3; 4]])
    as (v & m & taken & rest & Hrun & _ & _ & _ & _ & Hd & _ & _).
  - lia.
  - exact demo_kernel_ok.
  - intros k mem Hk. unfold demo_kernel. rewrite bool_decide_eq_false_2; [reflexivity | lia].
  - reflexivity.
  - exact demo_busy_inv.
  - lia.
  - assert (Hc : option_map (fun x => (fst x, mc_app (snd x), consumer_pos (mc_mem (snd x))))
      (ringbuf_process_ring demo_kernel (3 + 2) demo_ring 8 []) = Some (1, [[9; 8; 7; 6]], 16)) by (vm_compute; reflexivity).
    rewrite Hrun in Hc. injection Hc as -> Ha Hp. exists m, taken.
    split; [exact Hrun |]. split; [exact Ha |]. split; [exact Hp | exact Hd].
Defined.

(** ** Several rings *)
Fixpoint samples (rs : list rec) : Z :=
  match rs with [] => 0 | r :: rs => (if rec_discard r then 0 else 1) + samples rs end.

Lemma samples_nonneg rs : 0 <= samples rs.
Proof. induction rs as [|r rs IH]; cbn; [lia |]. destruct (rec_discard r); lia. Qed.

Lemma deliver_samples {A} (cb : A -> list Z -> Z * A) a cnt t v a' :
  deliver cb a cnt t = (v, a', []) -> v < 0 \/ v = cnt + samples t.
Proof.
  revert a cnt. induction t as [|r t IH]; intros a cnt; cbn [deliver samples]; [intros [= -> ->]; lia |].
  destruct (rec_discard r); [intros H; specialize (IH _ _ H); lia |].
  destruct (cb a (rec_bytes r)) as [err a1]. destruct (err <? 0) eqn:He; [intros [= -> -> ->]; lia |].
  intros H. specialize (IH _ _ H). lia.
Qed.

Section Rings.
Context {A : Type} (bits : Z -> Z) (kernel : Z -> nat -> ring_mem -> ring_mem) (K : nat).
Hypothesis (Hbits : forall i, 3 <= bits i <= 31).
Hypothesis (Hkernel : forall i, kernel_ok (bits i) (kernel i)).
Hypothesis (Hquiet : forall i, quiet_from (kernel i) K).

(** The records in each of the rings from index [i] on. *)
Fixpoint rings_ok (i : Z) (rings : list (ring A)) (rss : list (list rec)) : Prop :=
  match rings, rss with
  | [], [] => True
  | r :: rings, rs :: rss =>
      ring_mask r = ring_size (bits i) - 1 /\ ring_inv (bits i) (ring_memory r) rs /\ rings_ok (i + 1) rings rss
  | _, _ => False
  end.

(** The rings after a call that took the records [takens]. *)
Fixpoint rings_run (i : Z) (rings' : list (ring A)) (rss takens : list (list rec)) : Prop :=
  match rings', rss, takens with
  | [], [], [] => True
  | r' :: rings', rs :: rss, taken :: takens =>
      (exists rest, ring_inv (bits i) (ring_memory r') rest /\ extends rs (taken ++ rest)) /\
      Forall (fun r => rec_busy r = false) taken /\ rings_run (i + 1) rings' rss takens
  | _, _, _ => False
  end.

Fixpoint all_samples (takens : list (list rec)) : Z :=
  match takens with [] => 0 | t :: ts => samples t + all_samples ts end.

(** Rings that are not reached. *)
Lemma rings_run_none i rings rss :
  rings_ok i rings rss -> exists takens, rings_run i rings rss takens /\ all_samples takens = 0.
Proof.
  revert i rss. induction rings as [|r rings IH]; intros i [|rs rss]; cbn [rings_ok]; try done; [by exists [] |].
  intros (_ & Hi & H). destruct (IH _ _ H) as (ts & Hr & Ht). exists ([] :: ts). cbn [rings_run all_samples samples].
  split; [|lia]. split; [|done]. exists rs. split; [done | apply extends_refl].
Qed.

Lemma consume_n_loop_spec rings rss i n res app :
  rings_ok i rings rss -> 1 <= n < 2 ^ 64 -> 0 <= res ->
  exists ret rings' app' takens, consume_n_loop kernel (K + 2) rings i n res app = Some (ret, rings', app') /\
    rings_run i rings' rss takens /\
    (ret < 0 \/ ret = Z.min INT_MAX (res + all_samples takens) /\ all_samples takens <= n).
Proof.
  revert rss i n res app. induction rings as [|r rings IH]; intros rss i n res app Hok Hn Hres.
  { destruct rss; [|done]. exists (Z.min INT_MAX res), [], app, []. cbn [consume_n_loop all_samples rings_run].
    split; [|split; [done | right; split; [by rewrite Z.add_0_r | lia]]]. do 3 f_equal. case_if; lia. }
  destruct rss as [|rs rss]; [done |]. cbn [rings_ok] in Hok. destruct Hok as (Hm & Hi & Hok). cbn [consume_n_loop].
  unfold ringbuf_process_ring at 1. rewrite Hm.
  destruct (interfere_inv (bits i) (Hbits i) (kernel i) (Hkernel i) (Machine (ring_memory r) 0 app) rs Hi)
    as (Hc1 & rs1 & Hi1 & He1 & _).
  set (m1 := interfere (kernel i) (Machine (ring_memory r) 0 app)) in *.
  destruct (process_rounds_spec (bits i) (Hbits i) (kernel i) (sample_cb r) n (Hkernel i) ltac:(lia) (K + 2) K rs1 0 m1 (Hquiet i) Hi1)
    as (v & m & taken & rest & -> & [P1 P2 P3 P4 P5 P6] & Hv & _); [lia | left; cbn; lia |]. cbn [mbind option_bind].
  assert (Hstep : exists rest, ring_inv (bits i) (ring_memory (with_memory r (mc_mem m))) rest /\ extends rs (taken ++ rest)).
  { exists rest. split; [exact P1 | by eapply extends_trans]. }
  destruct (v <? 0) eqn:Hneg.
  { destruct (rings_run_none _ _ _ Hok) as (ts & Hts & _). do 2 eexists. exists (mc_app m), (taken :: ts).
    split; [reflexivity |]. split; [by split | left; lia]. }
  destruct (deliver_samples _ _ _ _ _ _ P6) as [Hbad|Hvs]; [lia |]. pose proof (samples_nonneg taken).
  rewrite (u64_small (n - v)) by lia. destruct (n - v =? 0) eqn:Hz.
  - destruct (rings_run_none _ _ _ Hok) as (ts & Hts & Hsum).
    exists (Z.min INT_MAX (res + v)), (with_memory r (mc_mem m) :: rings), (mc_app m), (taken :: ts).
    split; [do 3 f_equal; case_if; lia |]. split; [by split |]. right. cbn [all_samples]. rewrite Hsum. split; [f_equal; lia | lia].
  - destruct (IH rss (i + 1) (n - v) (res + v) (mc_app m) Hok ltac:(lia) ltac:(lia)) as (ret & rings' & app' & ts & -> & Hrun & Hret).
    cbn [mbind option_bind]. do 2 eexists. exists app', (taken :: ts). split; [reflexivity |]. split; [by split |].
    cbn [all_samples]. destruct Hret as [Hret|[-> Hret]]; [by left | right]. split; [f_equal; lia | lia].
Qed.
End Rings.

(** [ring_buffer__consume_n] with a positive limit, against kernels that follow the
    protocol and stop producing: it returns; from every ring a sequence of completed
    records at the front is taken and the rest left in order; without a callback
    error the result is the number of samples delivered (capped at [INT_MAX]), which
    is at most [n] over all rings. *)
Theorem ring_buffer__consume_n_spec {A} bits kernel K (rings : list (ring A)) rss n app :
  (forall i, 3 <= bits i <= 31) -> (forall i, kernel_ok (bits i) (kernel i)) -> (forall i, quiet_from (kernel i) K) ->
  rings_ok bits 0 rings rss -> 1 <= n < 2 ^ 64 ->
  exists ret rings' app' takens, ring_buffer__consume_n kernel (K + 2) rings n app = Some (ret, rings', app') /\
    rings_run bits 0 rings' rss takens /\
    (ret < 0 \/ ret = Z.min INT_MAX (all_samples takens) /\ all_samples takens <= n).
Proof.
  intros Hb Hk Hq Hok Hn. exact (consume_n_loop_spec bits kernel K Hb Hk Hq rings rss 0 n 0 app Hok Hn (Z.le_refl 0)).
Qed.

(** Two rings with a completed record each; the limit stops after the first. *)
Definition demo_full : ring_mem := demo_committed.
Definition demo_rings : list (ring (list (list Z))) :=
  [Ring (fun app sample => (0, app ++ [sample])) demo_full 15 3; Ring (fun app sample => (0, app ++ [sample])) demo_full 15 4].

Lemma demo_full_inv : ring_inv 4 demo_full [Rec 4 false false [9; 8; 7; 6]].
Proof. split; [reflexivity | done | | cbv; congruence | reflexivity]. by repeat split. Qed.

Lemma ring_buffer__consume_n_spec_witness :
  exists rings' app' takens, ring_buffer__consume_n (fun _ _ mem => mem) (0 + 2) demo_rings 1 [] = Some (1, rings', app') /\
    app' = [[9; 8; 7; 6]] /\ all_samples takens = 1.
Proof.
  destruct (ring_buffer__consume_n_spec (fun _ => 4) (fun _ _ mem => mem) 0 demo_rings
    [[Rec 4 false false [9; 8; 7; 6]]; [Rec 4 false false [9; 8; 7; 6]]] 1 [])
    as (ret & rings' & app' & takens & Hrun & _ & Hret).
  - intros i. lia.
  - intros i k mem rs Hi. split; [reflexivity |]. exists rs. split; [exact Hi | apply extends_refl].
  - intros i k mem _. reflexivity.
  - cbn [rings_ok demo_rings]. split; [reflexivity |]. split; [exact demo_full_inv |]. split; [reflexivity |].
    split; [exact demo_full_inv | exact I].
  - lia.
  - assert (Hc : option_map (fun x => (fst (fst x), snd x)) (ring_buffer__consume_n (fun _ _ mem => mem) (0 + 2) demo_rings 1 [])
      = Some (1, [[9; 8; 7; 6]])) by (vm_compute; reflexivity).
    rewrite Hrun in Hc. injection Hc as -> ->. exists rings', [[9; 8; 7; 6]], takens.
    split; [exact Hrun |]. split; [reflexivity |]. destruct Hret as [Hret|[Hret _]]; [lia |]. unfold INT_MAX in Hret. lia.
Defined.

(** With the limit 0 the first ring delivers one sample, the limit wraps around and
    all other rings are drained. *)
Lemma consume_n_zero :
  option_map (fun x => (fst (fst x), snd x)) (ring_buffer__consume_n (fun _ _ mem => mem) 2 demo_rings 0 [])
  = Some (2, [[9; 8; 7; 6]; [9; 8; 7; 6]]).
Proof. vm_compute. reflexivity. Qed.
