(* ===== verification/RingbufUser.v ===== *)
(** * RingbufUser: what the application writes to the user ring buffer

    The producer side of [Ringbuf]: a reservation appends a busy record behind those
    the kernel has not drained, without touching them; what the application writes to
    the sample and the commit change that record only; after a submit the record holds
    the bytes written.  The kernel drains completed records from the front at any
    time. *)
From S2P Require Import Prelude Ringbuf.
Open Scope Z_scope.

Section UserRing.
Context (bits : Z).
Hypothesis (Hbits : 3 <= bits <= 31).
Let N : Z := ring_size bits.

(** The kernel drains completed records and writes nothing. *)
Definition drain_ok (kernel : ring_mem -> ring_mem) : Prop :=
  forall mem rs, ring_inv bits mem rs ->
    producer_pos (kernel mem) = producer_pos mem /\ rb_data (kernel mem) = rb_data mem /\
    exists drained rest, rs = drained ++ rest /\ Forall (fun r => rec_busy r = false) drained /\
      ring_inv bits (kernel mem) rest.

(** ** Bytes of the doubly mapped data *)
Lemma N_range : 8 <= N <= 2147483648.
Proof. exact (ring_size_range bits Hbits). Qed.

(** The byte at a position. *)
Definition byte_at (data : list Z) (p : Z) : Z := default 0 (znth data (p mod N)).

Definition bytes_at (data : list Z) (p n : Z) : list Z := (fun i => byte_at data (p + i)) <$> seqZ 0 n.

Lemma zlen_bytes_at data p n : 0 <= n -> zlen (bytes_at data p n) = n.
Proof. intros Hn. unfold bytes_at. rewrite zlen_fmap. unfold zlen. rewrite length_seqZ. lia. Qed.

Lemma slice_mapped data off n :
  zlen data = N -> 0 <= off < N -> 0 <= n -> off + n <= 2 * N -> slice (mapped data) off n = Some (bytes_at data off n).
Proof.
  intros Hl Ho Hn Hle. unfold slice, mapped. rewrite zlen_app, Hl. replace (_ && _ && _) with true by lia. f_equal.
  apply list_eq. intros i. unfold bytes_at, ztake, zdrop. destruct (decide (Z.of_nat i < n)) as [Hi|Hi].
  - rewrite lookup_take_lt by lia. rewrite lookup_drop, list_lookup_fmap, lookup_seqZ_lt by lia. cbn [fmap option_fmap option_map].
    unfold byte_at, znth. pose proof N_range. rewrite Z.add_0_l.
    destruct (decide (off + Z.of_nat i < N)) as [Hw|Hw].
    + rewrite Z.mod_small by lia. replace (off + Z.of_nat i <? 0) with false by lia.
      rewrite lookup_app_l by (unfold zlen in Hl; lia). replace (Z.to_nat (off + Z.of_nat i)) with (Z.to_nat off + i)%nat by lia.
      destruct (lookup_lt_is_Some_2 data (Z.to_nat off + i)) as [x ->]; [unfold zlen in Hl; lia | done].
    + replace ((off + Z.of_nat i) mod N) with (off + Z.of_nat i - N) by (apply (Z.mod_unique _ _ 1); lia).
      replace (off + Z.of_nat i - N <? 0) with false by lia. rewrite lookup_app_r by (unfold zlen in Hl; lia).
      replace (Z.to_nat off + i - length data)%nat with (Z.to_nat (off + Z.of_nat i - N)) by (unfold zlen in Hl; lia).
      destruct (lookup_lt_is_Some_2 data (Z.to_nat (off + Z.of_nat i - N))) as [x ->]; [unfold zlen in Hl; lia | done].
  - rewrite lookup_take_ge by lia. symmetry. apply lookup_ge_None_2. rewrite length_fmap, length_seqZ. lia.
Qed.

Lemma bytes_at_mod data p n : bytes_at data (p mod N) n = bytes_at data p n.
Proof. unfold bytes_at. apply list_fmap_ext. intros i x _. unfold byte_at. by rewrite Zplus_mod_idemp_l. Qed.

(** The slice at a position. *)
Lemma slice_pos data p k n :
  zlen data = N -> 0 <= k -> 0 <= n -> k + n <= N -> slice (mapped data) (p mod N + k) n = Some (bytes_at data (p + k) n).
Proof.
  intros Hl Hk Hn Hle. pose proof N_range. pose proof (Z.mod_pos_bound p N ltac:(lia)).
  unfold slice. destruct (decide (p mod N + k < N)) as [Hw|Hw].
  - change (slice (mapped data) (p mod N + k) n = Some (bytes_at data (p + k) n)).
    rewrite slice_mapped by lia. rewrite <- (bytes_at_mod data (p mod N + k)), <- (bytes_at_mod data (p + k)).
    by rewrite Zplus_mod_idemp_l.
  - change (slice (mapped data) (p mod N + k) n = Some (bytes_at data (p + k) n)).
    assert (Hs : slice (mapped data) (p mod N + k) n = slice (mapped data) (p mod N + k - N) n).
    { unfold slice, mapped. rewrite zlen_app, Hl. replace (_ && _ && _) with true by lia.
      replace ((0 <=? p mod N + k - N) && _ && _) with true by lia. f_equal. unfold ztake, zdrop. unfold zlen in Hl.
      rewrite (drop_app_ge data data (Z.to_nat (p mod N + k))) by lia.
      rewrite (drop_app_le data data (Z.to_nat (p mod N + k - N))) by lia.
      replace (Z.to_nat (p mod N + k) - length data)%nat with (Z.to_nat (p mod N + k - N)) by lia.
      rewrite take_app_le; [done |]. rewrite length_drop. lia. }
    rewrite Hs, slice_mapped by lia. rewrite <- (bytes_at_mod data (p mod N + k - N)), <- (bytes_at_mod data (p + k)).
    replace (p mod N + k - N) with (p mod N + k + (-1) * N) by lia. rewrite Z.mod_add by lia. by rewrite Zplus_mod_idemp_l.
Qed.

(** ** Writes *)
Lemma zlen_ring_store data off bs : zlen (ring_store data off bs) = zlen data.
Proof. revert data off. induction bs as [|b bs IH]; intros; cbn [ring_store]; [done |]. by rewrite IH, zlen_zupd. Qed.

Lemma ring_store_other data off bs j :
  zlen data = N -> (forall i, 0 <= i < zlen bs -> (off + i) mod N <> j) -> znth (ring_store data off bs) j = znth data j.
Proof.
  revert data off. induction bs as [|b bs IH]; intros data off Hl Hj; cbn [ring_store]; [done |]. rewrite zlen_cons in Hj.
  pose proof (zlen_nonneg bs). rewrite IH; [| by rewrite zlen_zupd |].
  - apply znth_zupd_ne. rewrite Hl. specialize (Hj 0 ltac:(lia)). by rewrite Z.add_0_r in Hj.
  - intros i Hi. replace (off + 1 + i) with (off + (1 + i)) by lia. apply Hj. lia.
Qed.

(** Two positions less than a ring apart are different bytes. *)
Lemma mod_apart a b : a <> b -> - N < a - b < N -> a mod N <> b mod N.
Proof.
  intros Hne Hr He. pose proof N_range. pose proof (Z.div_mod a N ltac:(lia)). pose proof (Z.div_mod b N ltac:(lia)).
  assert (Hq : a - b = N * (a / N - b / N)) by lia.
  assert (a / N - b / N = 0) by nia. lia.
Qed.

Lemma ring_store_same data off bs i :
  zlen data = N -> zlen bs <= N -> 0 <= i < zlen bs -> znth (ring_store data off bs) ((off + i) mod N) = znth bs i.
Proof.
  revert data off i. induction bs as [|b bs IH]; intros data off i Hl Hn Hi; [change (zlen (@nil Z)) with 0 in Hi; lia |].
  rewrite zlen_cons in *. cbn [ring_store]. pose proof N_range. pose proof (zlen_nonneg bs).
  destruct (decide (i = 0)) as [->|Hne].
  - rewrite Z.add_0_r. rewrite ring_store_other; [|by rewrite zlen_zupd |].
    + rewrite Hl. rewrite znth_zupd_eq; [done |]. rewrite Hl. apply Z.mod_pos_bound. lia.
    + intros k Hk. apply mod_apart; lia.
  - replace (off + i) with (off + 1 + (i - 1)) by lia. rewrite IH; [|by rewrite zlen_zupd | lia | lia].
    unfold znth. replace (i <? 0) with false by lia. replace (i - 1 <? 0) with false by lia.
    by replace (Z.to_nat i) with (S (Z.to_nat (i - 1))) by lia.
Qed.

Lemma bytes_at_store_same data off bs :
  zlen data = N -> zlen bs <= N -> bytes_at (ring_store data off bs) off (zlen bs) = bs.
Proof.
  intros Hl Hn. apply list_eq. intros i. unfold bytes_at. rewrite list_lookup_fmap.
  destruct (decide (Z.of_nat i < zlen bs)) as [Hi|Hi].
  - rewrite lookup_seqZ_lt by lia. cbn [fmap option_fmap option_map]. unfold byte_at. rewrite Z.add_0_l.
    rewrite ring_store_same by lia. unfold znth. replace (Z.of_nat i <? 0) with false by lia. rewrite Nat2Z.id.
    destruct (lookup_lt_is_Some_2 bs i) as [x ->]; [unfold zlen in Hi; lia | done].
  - rewrite lookup_seqZ_ge by lia. symmetry. apply lookup_ge_None_2. unfold zlen in Hi. lia.
Qed.

Lemma bytes_at_store_other data off bs p n :
  zlen data = N -> (forall i k, 0 <= i < zlen bs -> 0 <= k < n -> (off + i) mod N <> (p + k) mod N) ->
  bytes_at (ring_store data off bs) p n = bytes_at data p n.
Proof.
  intros Hl Hd. unfold bytes_at. apply list_fmap_ext. intros i k Hk. apply lookup_seqZ in Hk. unfold byte_at.
  rewrite ring_store_other; [done | done |]. intros j Hj. apply Hd; [lia | lia].
Qed.

(** A write next to what is read, in a window of the ring. *)
Lemma bytes_at_apart data q bs p n :
  zlen data = N -> 0 <= n -> (q + zlen bs <= p /\ p + n <= q + N) \/ (p + n <= q /\ q + zlen bs <= p + N) ->
  bytes_at (ring_store data q bs) p n = bytes_at data p n.
Proof. intros Hl Hn Hw. apply bytes_at_store_other; [done |]. intros i k Hi Hk. apply mod_apart; lia. Qed.

(** ** Records by their bytes *)
Definition rec_bytes_at (data : list Z) (p : Z) (r : rec) : Prop :=
  0 <= rec_len r < BPF_RINGBUF_DISCARD_BIT /\ le_combine (bytes_at data p 4) = rec_word r /\
  bytes_at data (p + 8) (rec_len r) = rec_bytes r.

Lemma rec_at_bytes data p r :
  zlen data = N -> rec_size r <= N -> rec_at bits data p r <-> rec_bytes_at data p r.
Proof.
  intros Hl Hs. unfold rec_at, rec_bytes_at, load, BPF_RINGBUF_HDR_SZ. fold N. pose proof N_range.
  pose proof (slice_pos data p 0 4 Hl ltac:(lia) ltac:(lia) ltac:(lia)) as H4. rewrite !Z.add_0_r in H4. rewrite H4.
  cbn [fmap option_fmap option_map]. unfold rec_size in Hs. split.
  - intros (H1 & H2 & H3). split; [done |]. injection H2 as H2. split; [done |].
    rewrite slice_pos in H3 by lia. by injection H3.
  - intros (H1 & H2 & H3). split; [done |]. rewrite H2. split; [done |]. rewrite slice_pos by lia. by rewrite H3.
Qed.

Fixpoint records_at (data : list Z) (p : Z) (rs : list rec) : Prop :=
  match rs with
  | [] => True
  | r :: rs => rec_bytes_at data p r /\ records_at data (p + rec_size r) rs
  end.

Lemma bytes_at_u64 data p n : bytes_at data (u64 p) n = bytes_at data p n.
Proof.
  rewrite <- (bytes_at_mod data (u64 p)), <- (bytes_at_mod data p). f_equal. unfold uwrap, N, ring_size.
  apply Z.mod_mod_divide. exists (2 ^ (64 - bits)). rewrite <- Z.pow_add_r by lia. f_equal. lia.
Qed.

Lemma region_records data p rs :
  zlen data = N -> sizes rs <= N -> Forall (fun r => 0 <= rec_len r < BPF_RINGBUF_DISCARD_BIT) rs ->
  region bits data (u64 p) rs <-> records_at data p rs.
Proof.
  intros Hl. revert p. induction rs as [|r rs IH]; intros p Hs Hf; [done |]. cbn [region records_at sizes] in *.
  apply Forall_cons in Hf as [Hr Hf]. pose proof (rec_size_bounds r Hr). pose proof (sizes_nonneg rs Hf). pose proof (zlen_nonneg rs).
  rewrite rec_at_bytes by (done || lia). unfold rec_bytes_at.
  replace (bytes_at data (u64 p) 4) with (bytes_at data p 4) by (by rewrite bytes_at_u64).
  replace (bytes_at data (u64 p + 8) (rec_len r)) with (bytes_at data (p + 8) (rec_len r)).
  2: { rewrite <- (bytes_at_u64 data (p + 8)), <- (bytes_at_u64 data (u64 p + 8)). f_equal. unfold uwrap. by rewrite Zplus_mod_idemp_l. }
  replace (u64 (u64 p + rec_size r)) with (u64 (p + rec_size r)) by (unfold uwrap; by rewrite Zplus_mod_idemp_l).
  by rewrite IH by (done || lia).
Qed.

Lemma ring_inv_records mem rs :
  ring_inv bits mem rs <->
  zlen (rb_data mem) = N /\ 0 <= consumer_pos mem < 2 ^ 64 /\
  Forall (fun r => 0 <= rec_len r < BPF_RINGBUF_DISCARD_BIT) rs /\ records_at (rb_data mem) (consumer_pos mem) rs /\
  sizes rs <= N /\ producer_pos mem = u64 (consumer_pos mem + sizes rs).
Proof.
  split.
  - intros [H1 H2 H3 H4 H5]. pose proof (region_lens bits _ _ _ H3) as Hf. destruct H2. split_and!; try done.
    apply region_records; try done. by rewrite u64_small by lia.
  - intros (H1 & H2 & Hf & H3 & H4 & H5). split; try done. apply region_records in H3; try done.
    by rewrite u64_small in H3 by lia.
Qed.

Lemma records_at_app data p rs rs' :
  records_at data p (rs ++ rs') <-> records_at data p rs /\ records_at data (p + sizes rs) rs'.
Proof.
  revert p. induction rs as [|r rs IH]; intros p; cbn [app records_at sizes]; [rewrite Z.add_0_r; tauto |].
  rewrite IH. replace (p + rec_size r + sizes rs) with (p + (rec_size r + sizes rs)) by lia. tauto.
Qed.

(** A write outside the records. *)
Lemma records_at_apart data q bs p rs :
  zlen data = N -> Forall (fun r => 0 <= rec_len r < BPF_RINGBUF_DISCARD_BIT) rs ->
  (q + zlen bs <= p /\ p + sizes rs <= q + N) \/ (p + sizes rs <= q /\ q + zlen bs <= p + N) ->
  records_at data p rs -> records_at (ring_store data q bs) p rs.
Proof.
  intros Hl. revert p. induction rs as [|r rs IH]; intros p Hf Hw; [done |]. cbn [records_at sizes] in *.
  apply Forall_cons in Hf as [Hr Hf]. pose proof (rec_size_bounds r Hr). pose proof (sizes_nonneg rs Hf).
  pose proof (zlen_nonneg rs). assert (rec_len r + 8 <= rec_size r) by (unfold rec_size; lia).
  intros [(Hn & Hword & Hbs) Hs]. split; [|by apply IH; [| lia |]].
  split; [done |]. rewrite !bytes_at_apart by (done || lia). done.
Qed.

Lemma ring_store_mod data p k bs : zlen data = N -> ring_store data (p mod N + k) bs = ring_store data (p + k) bs.
Proof.
  revert data k. induction bs as [|b bs IH]; intros data k Hl; cbn [ring_store]; [done |]. rewrite Hl, Zplus_mod_idemp_l.
  replace (p mod N + k + 1) with (p mod N + (k + 1)) by lia. replace (p + k + 1) with (p + (k + 1)) by lia.
  apply IH. by rewrite zlen_zupd.
Qed.

Lemma ring_store_pos data p bs : zlen data = N -> ring_store data (p mod N) bs = ring_store data p bs.
Proof. intros Hl. pose proof (ring_store_mod data p 0 bs Hl) as H. by rewrite !Z.add_0_r in H. Qed.

(** The positions of the ring are taken modulo [2 ^ 64]. *)
Lemma u64_mod p : u64 p mod N = p mod N.
Proof.
  unfold uwrap, N, ring_size. apply Z.mod_mod_divide. exists (2 ^ (64 - bits)). rewrite <- Z.pow_add_r by lia. f_equal. lia.
Qed.

Lemma rec_word_range r : 0 <= rec_len r < BPF_RINGBUF_DISCARD_BIT -> 0 <= rec_word r < 4294967296.
Proof.
  unfold rec_word, BPF_RINGBUF_BUSY_BIT, BPF_RINGBUF_DISCARD_BIT. intros H.
  destruct (rec_busy r), (rec_discard r); cbn [Z.b2z]; lia.
Qed.

(** The header word at a position is set; the sample stays. *)
Lemma set_header data p r r' :
  zlen data = N -> rec_size r <= N -> rec_len r' = rec_len r -> rec_bytes r' = rec_bytes r ->
  rec_bytes_at data p r -> rec_bytes_at (ring_store data p (le_split 4 (rec_word r'))) p r'.
Proof.
  intros Hl Hs Hn Hb (H1 & H2 & H3). assert (rec_len r + 8 <= rec_size r) by (unfold rec_size; lia).
  split; [by rewrite Hn |]. split.
  - pose proof (bytes_at_store_same data p (le_split 4 (rec_word r')) Hl) as Hsame.
    change (zlen (le_split 4 (rec_word r'))) with 4 in Hsame. rewrite Hsame by lia.
    apply le_combine_split. apply rec_word_range. by rewrite Hn.
  - rewrite bytes_at_apart; [by rewrite Hn, Hb | done | by rewrite Hn; lia |]. change (zlen (le_split _ _)) with 4. lia.
Qed.

(** The sample at a position is written. *)
Lemma set_sample data p r bs :
  zlen data = N -> rec_size r <= N -> zlen bs = rec_len r ->
  rec_bytes_at data p r -> rec_bytes_at (ring_store data (p + 8) bs) p (Rec (rec_len r) (rec_busy r) (rec_discard r) bs).
Proof.
  intros Hl Hs Hn (H1 & H2 & H3). assert (rec_len r + 8 <= rec_size r) by (unfold rec_size; lia).
  split; [done |]. split; cbn [rec_len rec_bytes].
  - rewrite bytes_at_apart by (done || lia). exact H2.
  - rewrite <- Hn. apply bytes_at_store_same; [done | lia].
Qed.

(** ** One record changed by a write inside it *)
Lemma update_record mem pre r suf q bs r' :
  ring_inv bits mem (pre ++ r :: suf) -> rec_len r' = rec_len r ->
  0 <= q -> q + zlen bs <= rec_size r ->
  (rec_bytes_at (rb_data mem) (consumer_pos mem + sizes pre) r ->
   rec_bytes_at (ring_store (rb_data mem) (consumer_pos mem + sizes pre + q) bs) (consumer_pos mem + sizes pre) r') ->
  ring_inv bits (RingMem (consumer_pos mem) (producer_pos mem)
    (ring_store (rb_data mem) (consumer_pos mem + sizes pre + q) bs)) (pre ++ r' :: suf).
Proof.
  intros Hinv Hlen Hq Hbs Hr. apply ring_inv_records in Hinv as (Hl & Hc & Hf & Hrec & Hs & Hp).
  assert (Hsz : rec_size r' = rec_size r) by (unfold rec_size; by rewrite Hlen).
  apply ring_inv_records. cbn [rb_data consumer_pos producer_pos]. rewrite sizes_app in *. cbn [sizes] in *. rewrite Hsz.
  apply Forall_app in Hf as [Hpre [Hr0 Hsuf]%Forall_cons]. apply records_at_app in Hrec as [Hrpre [Hrr Hrsuf]].
  pose proof (sizes_nonneg pre Hpre). pose proof (sizes_nonneg suf Hsuf). pose proof (zlen_nonneg pre). pose proof (zlen_nonneg suf).
  pose proof (zlen_nonneg bs).
  split_and!; try done; try lia.
  - by rewrite zlen_ring_store.
  - apply Forall_app_2; [done |]. apply Forall_cons_2; [by rewrite Hlen | done].
  - apply records_at_app. split; [apply records_at_apart; try done; lia |]. cbn [records_at]. split; [by apply Hr |].
    rewrite Hsz. apply records_at_apart; try done; lia.
Qed.

(** The sample of the record behind [pre]. *)
Definition sample_at (mem : ring_mem) (pre : list rec) : Z := (consumer_pos mem + sizes pre + BPF_RINGBUF_HDR_SZ) mod N.

(** The application writes [bs] to a sample. *)
Definition write_sample (rb : user_ring_buffer) (sample : Z) (bs : list Z) : user_ring_buffer :=
  UserRing (RingMem (consumer_pos (urb_mem rb)) (producer_pos (urb_mem rb)) (ring_store (rb_data (urb_mem rb)) sample bs))
    (urb_mask rb) (urb_map_fd rb).

Lemma write_sample_ok rb pre r suf bs :
  ring_inv bits (urb_mem rb) (pre ++ r :: suf) -> zlen bs = rec_len r ->
  ring_inv bits (urb_mem (write_sample rb (sample_at (urb_mem rb) pre) bs))
    (pre ++ Rec (rec_len r) (rec_busy r) (rec_discard r) bs :: suf).
Proof.
  intros Hinv Hn. pose proof (proj1 (ring_inv_records _ _) Hinv) as (Hl & Hc & Hf & Hrec & Hs & Hp).
  unfold write_sample, sample_at. cbn [urb_mem]. rewrite ring_store_pos by done.
  apply Forall_app in Hf as [Hpre [Hr0 Hsuf]%Forall_cons]. rewrite sizes_app in Hs. cbn [sizes] in Hs.
  pose proof (sizes_nonneg pre Hpre). pose proof (sizes_nonneg suf Hsuf). pose proof (zlen_nonneg pre). pose proof (zlen_nonneg suf).
  eapply update_record; [exact Hinv | done | unfold BPF_RINGBUF_HDR_SZ; lia | |].
  - unfold BPF_RINGBUF_HDR_SZ, rec_size. lia.
  - apply set_sample; [done | lia | done].
Qed.

(** The commit of the record behind [pre]. *)
Definition committed (r : rec) (discard : bool) : rec := Rec (rec_len r) false (rec_discard r || discard) (rec_bytes r).

Lemma committed_word r (discard : bool) :
  0 <= rec_len r < BPF_RINGBUF_DISCARD_BIT ->
  (let new_len := Z.land (rec_word r) (UINT32_MAX - BPF_RINGBUF_BUSY_BIT) in
   if discard then Z.lor new_len BPF_RINGBUF_DISCARD_BIT else new_len) = rec_word (committed r discard).
Proof.
  intros Hr. pose proof (rec_word_range r Hr) as Hw. cbn zeta.
  assert (Hland : Z.land (rec_word r) (UINT32_MAX - BPF_RINGBUF_BUSY_BIT) = rec_len r + Z.b2z (rec_discard r) * BPF_RINGBUF_DISCARD_BIT).
  { change (UINT32_MAX - BPF_RINGBUF_BUSY_BIT) with (Z.ones 31). rewrite Z.land_ones by lia. unfold rec_word.
    unfold BPF_RINGBUF_BUSY_BIT, BPF_RINGBUF_DISCARD_BIT in *. change (2 ^ 31) with 2147483648.
    destruct (rec_busy r), (rec_discard r); cbn [Z.b2z]; lia. }
  rewrite Hland. unfold rec_word, committed. cbn [rec_len rec_busy rec_discard Z.b2z].
  destruct discard; [| rewrite orb_false_r; lia]. rewrite orb_true_r. cbn [Z.b2z].
  assert (Hor : forall x, 0 <= x <= 1 -> Z.lor (rec_len r + x * BPF_RINGBUF_DISCARD_BIT) BPF_RINGBUF_DISCARD_BIT
    = rec_len r + BPF_RINGBUF_DISCARD_BIT).
  { intros x Hx. unfold BPF_RINGBUF_DISCARD_BIT in *. change 1073741824 with (2 ^ 30) in *.
    replace (rec_len r + x * 2 ^ 30) with (Z.lor (Z.shiftl x 30) (rec_len r)) by (rewrite lor_shift_add by lia; lia).
    rewrite <- Z.lor_assoc, (Z.lor_comm (rec_len r)), Z.lor_assoc. change (2 ^ 30) with (Z.shiftl 1 30) at 1.
    rewrite <- Z.shiftl_lor, lor_shift_add by lia. assert (x = 0 \/ x = 1) as [-> | ->] by lia;
      [change (Z.lor 0 1) with 1 | change (Z.lor 1 1) with 1]; lia. }
  rewrite Hor by (destruct (rec_discard r); cbn [Z.b2z]; lia). lia.
Qed.

Lemma header_of_sample mem pre :
  Z.land (u64 (N - 1 + 1 + sample_at mem pre - BPF_RINGBUF_HDR_SZ)) (N - 1) = (consumer_pos mem + sizes pre) mod N.
Proof.
  unfold N. rewrite land_mask by done. fold N. rewrite u64_mod. unfold sample_at, BPF_RINGBUF_HDR_SZ. pose proof N_range.
  rewrite <- (Zminus_mod_idemp_l (N - 1 + 1 + _)). replace (N - 1 + 1 + (consumer_pos mem + sizes pre + 8) mod N)
    with ((consumer_pos mem + sizes pre + 8) mod N + 1 * N) by lia.
  rewrite Z.mod_add, Zmod_mod, Zminus_mod_idemp_l by lia. f_equal. lia.
Qed.

(** The first record behind [pre] in the memory. *)
Lemma inv_at mem pre r suf :
  ring_inv bits mem (pre ++ r :: suf) ->
  0 <= rec_len r < BPF_RINGBUF_DISCARD_BIT /\ rec_size r <= N /\ 0 <= sizes pre /\
  rec_bytes_at (rb_data mem) (consumer_pos mem + sizes pre) r.
Proof.
  intros (Hl & Hc & Hf & Hrec & Hs & Hp)%ring_inv_records. rewrite sizes_app in Hs. cbn [sizes] in Hs.
  apply Forall_app in Hf as [Hpre [Hr0 Hsuf]%Forall_cons]. apply records_at_app in Hrec as [_ [Hrr _]].
  pose proof (sizes_nonneg pre Hpre). pose proof (sizes_nonneg suf Hsuf). pose proof (zlen_nonneg pre). pose proof (zlen_nonneg suf).
  split_and!; try done; lia.
Qed.

Lemma user_ringbuf_commit_ok rb pre r suf discard :
  ring_inv bits (urb_mem rb) (pre ++ r :: suf) -> urb_mask rb = N - 1 ->
  exists rb', user_ringbuf_commit rb (sample_at (urb_mem rb) pre) discard = Some rb' /\ urb_mask rb' = N - 1 /\
    consumer_pos (urb_mem rb') = consumer_pos (urb_mem rb) /\ producer_pos (urb_mem rb') = producer_pos (urb_mem rb) /\
    ring_inv bits (urb_mem rb') (pre ++ committed r discard :: suf).
Proof.
  intros Hinv Hm. destruct (inv_at _ _ _ _ Hinv) as (Hr & Hs & Hpre & Hat). pose proof (inv_len _ _ _ Hinv) as Hl.
  pose proof N_range. unfold user_ringbuf_commit. rewrite Hm, header_of_sample. unfold load.
  pose proof (slice_pos (rb_data (urb_mem rb)) (consumer_pos (urb_mem rb) + sizes pre) 0 4 Hl ltac:(lia) ltac:(lia) ltac:(lia)) as H4.
  rewrite !Z.add_0_r in H4. rewrite H4. cbn [mbind option_bind fmap option_fmap option_map].
  destruct Hat as (Hat1 & Hat2 & Hat3). rewrite Hat2. pose proof (committed_word r discard Hr) as Hw. cbn zeta in Hw. rewrite Hw.
  eexists. split; [reflexivity |]. cbn [urb_mask urb_mem consumer_pos producer_pos]. split_and!; try done.
  rewrite ring_store_pos by done. rewrite <- (Z.add_0_r (consumer_pos (urb_mem rb) + sizes pre)).
  eapply update_record; [exact Hinv | done | lia | change (zlen (le_split _ _)) with 4; unfold rec_size in *; lia |].
  rewrite Z.add_0_r. by apply set_header.
Qed.

(** ** Reservation *)
Lemma size_guard size :
  0 <= size < 2 ^ 32 -> (Z.land size (Z.lor BPF_RINGBUF_BUSY_BIT BPF_RINGBUF_DISCARD_BIT) =? 0) = (size <? BPF_RINGBUF_DISCARD_BIT).
Proof.
  intros Hs. change (Z.lor _ _) with (Z.shiftl 3 30). apply eq_true_iff_eq. rewrite Z.eqb_eq, Z.ltb_lt.
  assert (Hq : Z.shiftr (Z.land size (Z.shiftl 3 30)) 30 = size / 2 ^ 30).
  { rewrite Z.shiftr_land, Z.shiftr_shiftl_l, Z.shiftr_div_pow2 by lia. change (Z.shiftl 3 (30 - 30)) with (Z.ones 2).
    rewrite Z.land_ones by lia. apply Z.mod_small. change (2 ^ 32) with 4294967296 in Hs. change (2 ^ 30) with 1073741824. lia. }
  change (2 ^ 30) with BPF_RINGBUF_DISCARD_BIT in Hq. unfold BPF_RINGBUF_DISCARD_BIT in *. split.
  - intros H0. rewrite H0, Z.shiftr_0_l in Hq. change (2 ^ 32) with 4294967296 in Hs. lia.
  - intros Hlt. apply Z.bits_inj'. intros i Hi. rewrite Z.land_spec, Z.bits_0. destruct (decide (i < 30)).
    + rewrite Z.shiftl_spec_low by lia. apply andb_false_r.
    + rewrite <- (Z.mod_small size (2 ^ 30)) by (change (2 ^ 30) with 1073741824; lia).
      rewrite Z.mod_pow2_bits_high by lia. done.
Qed.

Lemma lor_busy size : 0 <= size < BPF_RINGBUF_DISCARD_BIT -> Z.lor size BPF_RINGBUF_BUSY_BIT = size + BPF_RINGBUF_BUSY_BIT.
Proof.
  unfold BPF_RINGBUF_DISCARD_BIT, BPF_RINGBUF_BUSY_BIT. intros H. rewrite Z.lor_comm.
  change (Z.lor 2147483648 size) with (Z.lor (Z.shiftl 1 31) size).
  rewrite lor_shift_add by lia. lia.
Qed.

(** A busy record behind the others. *)
Lemma append_record mem rs size :
  ring_inv bits mem rs -> 0 <= size < BPF_RINGBUF_DISCARD_BIT -> sizes rs + rec_size (Rec size true false []) <= N ->
  let p := consumer_pos mem + sizes rs in
  let data := ring_store (ring_store (rb_data mem) p (le_split 4 (size + BPF_RINGBUF_BUSY_BIT))) (p + 4) (le_split 4 0) in
  exists bytes, ring_inv bits (RingMem (consumer_pos mem) (u64 (producer_pos mem + rec_size (Rec size true false []))) data)
    (rs ++ [Rec size true false bytes]).
Proof.
  intros Hinv Hsz Hroom p data. pose proof (proj1 (ring_inv_records _ _) Hinv) as (Hl & Hc & Hf & Hrec & Hs & Hp).
  pose proof (sizes_nonneg rs Hf). pose proof (zlen_nonneg rs). assert (size + 8 <= rec_size (Rec size true false [])) by (unfold rec_size; cbn [rec_len]; lia).
  assert (Hl1 : zlen (ring_store (rb_data mem) p (le_split 4 (size + BPF_RINGBUF_BUSY_BIT))) = N) by by rewrite zlen_ring_store.
  exists (bytes_at data (p + 8) size). apply ring_inv_records. cbn [rb_data consumer_pos producer_pos].
  rewrite sizes_app. cbn [sizes]. change (rec_size (Rec size true false (bytes_at data (p + 8) size))) with (rec_size (Rec size true false [])).
  split_and!; try done; try lia.
  - unfold data. by rewrite !zlen_ring_store.
  - apply Forall_app_2; [done |]. by apply Forall_singleton.
  - apply records_at_app. split.
    + unfold data. do 2 (apply records_at_apart; [by rewrite ?zlen_ring_store | done | unfold p; change (zlen (le_split 4 _)) with 4; lia |]). done.
    + cbn [records_at]. split; [|done]. split; [done |]. split; [|done]. unfold data. rewrite bytes_at_apart; [| done | lia |].
      2: { change (zlen (le_split 4 _)) with 4. pose proof N_range. unfold p. lia. }
      pose proof (bytes_at_store_same (rb_data mem) p (le_split 4 (size + BPF_RINGBUF_BUSY_BIT)) Hl) as Hsame.
      change (zlen (le_split 4 _)) with 4 in Hsame. pose proof N_range. fold p. rewrite Hsame by lia.
      rewrite le_combine_split; unfold rec_word, BPF_RINGBUF_BUSY_BIT, BPF_RINGBUF_DISCARD_BIT in *; cbn [rec_len rec_busy rec_discard Z.b2z]; lia.
  - rewrite Hp. unfold uwrap. rewrite Zplus_mod_idemp_l. f_equal. lia.
Qed.

(** What a reservation of [size] bytes does to a ring holding [rs], of which the kernel
    may drain a part. *)
Definition reserved (rs : list rec) (size : Z) (r : result Z) (rb' : user_ring_buffer) : Prop :=
  exists drained rest, rs = drained ++ rest /\ Forall (fun r => rec_busy r = false) drained /\
    let need := rec_size (Rec size true false []) in
    if N <? need then r = Err E2BIG /\ ring_inv bits (urb_mem rb') rest
    else if N - sizes rest <? need then r = Err ENOSPC /\ ring_inv bits (urb_mem rb') rest
    else r = Ok (sample_at (urb_mem rb') rest) /\
         exists bytes, ring_inv bits (urb_mem rb') (rest ++ [Rec size true false bytes]).

Lemma user_ring_buffer__reserve_ok kernel rb rs size :
  drain_ok kernel -> ring_inv bits (urb_mem rb) rs -> urb_mask rb = N - 1 -> 0 <= size < BPF_RINGBUF_DISCARD_BIT ->
  let '(r, rb') := user_ring_buffer__reserve kernel rb size in urb_mask rb' = N - 1 /\ reserved rs size r rb'.
Proof.
  intros Hk Hinv Hm Hsz. unfold user_ring_buffer__reserve. rewrite size_guard by (unfold BPF_RINGBUF_DISCARD_BIT in *; lia).
  replace (size <? BPF_RINGBUF_DISCARD_BIT) with true by lia. cbn [negb].
  destruct (Hk _ _ Hinv) as (Hpp & Hdd & drained & rest & Hrs & Hdr & Hrest). clear Hpp Hdd Hk Hinv.
  set (mem := kernel (urb_mem rb)) in *. cbn [urb_mask urb_map_fd]. rewrite Hm. pose proof N_range as HN.
  replace (N - 1 + 1) with N by lia. rewrite (u32_small N) by lia. rewrite (inv_avail bits Hbits _ _ Hrest).
  pose proof (proj1 (ring_inv_records _ _) Hrest) as (Hl & Hc & Hf & Hrec & Hs & Hp).
  pose proof (sizes_nonneg rest Hf). pose proof (zlen_nonneg rest). rewrite (u32_small (N - sizes rest)) by lia.
  replace (u32 (u32 (size + BPF_RINGBUF_HDR_SZ + 7) / 8 * 8)) with (rec_size (Rec size true false [])).
  2: { unfold rec_size, BPF_RINGBUF_HDR_SZ, BPF_RINGBUF_DISCARD_BIT in *. cbn [rec_len]. rewrite (u32_small (size + 8 + 7)) by lia.
       rewrite u32_small by lia. do 2 f_equal. lia. }
  set (need := rec_size (Rec size true false [])) in *. destruct (N <? need) eqn:E1; [|destruct (N - sizes rest <? need) eqn:E2].
  - split; [done |]. exists drained, rest. cbn zeta. fold need. rewrite E1. done.
  - split; [done |]. exists drained, rest. cbn zeta. fold need. rewrite E1, E2. done.
  - split; [done |]. exists drained, rest. cbn zeta. fold need. rewrite E1, E2. split; [done |]. split; [done |].
    unfold N. rewrite !land_mask by done. fold N. split.
    + f_equal. rewrite u64_mod, Hp. unfold sample_at. cbn [urb_mem consumer_pos].
      rewrite <- Zplus_mod_idemp_l, u64_mod, Zplus_mod_idemp_l. done.
    + cbn [urb_mem]. rewrite ring_store_mod by (by rewrite zlen_ring_store). rewrite ring_store_pos by done.
      destruct (append_record mem rest size Hrest Hsz ltac:(fold need; lia)) as [bytes Hb]. exists bytes.
      rewrite lor_busy by done. rewrite <- (ring_store_pos (rb_data mem) (producer_pos mem)) by done.
      rewrite <- (ring_store_mod _ (producer_pos mem)) by (by rewrite zlen_ring_store).
      rewrite Hp, u64_mod, ring_store_pos, ring_store_mod by (rewrite ?zlen_ring_store; done). rewrite <- Hp. exact Hb.
Qed.

(** The kernel drains while a reservation is out. *)
Lemma drain_keeps kernel mem pre r :
  drain_ok kernel -> ring_inv bits mem (pre ++ [r]) -> rec_busy r = true ->
  exists drained pre', pre = drained ++ pre' /\ Forall (fun r => rec_busy r = false) drained /\
    ring_inv bits (kernel mem) (pre' ++ [r]) /\ sample_at (kernel mem) pre' = sample_at mem pre.
Proof.
  intros Hk Hinv Hb. destruct (Hk _ _ Hinv) as (Hpp & _ & drained & rest & Hrs & Hdr & Hrest).
  assert (exists pre', rest = pre' ++ [r]) as [pre' ->].
  { destruct (exists_last (l := rest)) as (pre' & r' & ->).
    - intros ->. rewrite app_nil_r in Hrs. rewrite <- Hrs in Hdr. apply Forall_app in Hdr as [_ Hlast]. apply Forall_inv in Hlast. congruence.
    - rewrite app_assoc in Hrs. apply app_inj_tail in Hrs as [_ ->]. by exists pre'. }
  rewrite app_assoc in Hrs. apply app_inj_tail in Hrs as [-> _]. exists drained, pre'. split_and!; try done.
  pose proof (inv_prod _ _ _ Hinv) as H1. pose proof (inv_prod _ _ _ Hrest) as H2. rewrite Hpp, H1 in H2. rewrite !sizes_app in *.
  cbn [sizes] in *. unfold sample_at. rewrite <- (u64_mod (consumer_pos (kernel mem) + _ + _)), <- (u64_mod (consumer_pos mem + _ + _)). f_equal.
  rewrite sizes_app. set (x := consumer_pos (kernel mem)) in *. set (y := consumer_pos mem) in *. unfold uwrap in *.
  change (2 ^ 64) with 18446744073709551616 in *. unfold BPF_RINGBUF_HDR_SZ. lia.
Qed.
End UserRing.

(** ** A message sent *)
Lemma region_lens_app bits mem drained rest :
  ring_inv bits mem (drained ++ rest) -> 0 <= sizes drained /\ 0 <= sizes rest.
Proof.
  intros H. pose proof (region_lens _ _ _ _ (inv_region _ _ _ H)) as [H1 H2]%Forall_app.
  pose proof (sizes_nonneg _ H1). pose proof (sizes_nonneg _ H2). pose proof (zlen_nonneg drained). pose proof (zlen_nonneg rest). lia.
Qed.

(** The kernel runs between two steps of the application. *)
Definition kernel_step (kernel : ring_mem -> ring_mem) (rb : user_ring_buffer) : user_ring_buffer :=
  UserRing (kernel (urb_mem rb)) (urb_mask rb) (urb_map_fd rb).

(** A client: reserve, fill, submit. *)
Definition send (k1 k2 k3 : ring_mem -> ring_mem) (rb : user_ring_buffer) (bs : list Z) :
    option (result Z * user_ring_buffer) :=
  match user_ring_buffer__reserve k1 rb (zlen bs) with
  | (Err e, rb) => Some (Err e, rb)
  | (Ok sample, rb) =>
      let rb := write_sample (kernel_step k2 rb) sample bs in
      rb ← user_ring_buffer__submit (kernel_step k3 rb) sample;
      Some (Ok sample, rb)
  end.

Lemma kernel_step_busy bits kernel rb pre r :
  3 <= bits <= 31 -> drain_ok bits kernel -> ring_inv bits (urb_mem rb) (pre ++ [r]) -> rec_busy r = true ->
  exists drained pre', pre = drained ++ pre' /\ Forall (fun r => rec_busy r = false) drained /\
    ring_inv bits (urb_mem (kernel_step kernel rb)) (pre' ++ [r]) /\
    sample_at bits (urb_mem (kernel_step kernel rb)) pre' = sample_at bits (urb_mem rb) pre.
Proof. intros. by apply drain_keeps. Qed.

(** A ring of 32 bytes with one complete record of 4 bytes; the kernel at rest. *)
Definition demo_user : user_ring_buffer :=
  UserRing (RingMem 24 40 ([0; 0; 0; 0; 0; 0; 0; 0] ++ repeat 0 16 ++ [4; 0; 0; 0; 0; 0; 0; 0])) 31 3.
Definition demo_rec : rec := Rec 4 false false [0; 0; 0; 0].

Lemma demo_user_inv : ring_inv 5 (urb_mem demo_user) [demo_rec].
Proof. by split; cbn; repeat split; vm_compute. Qed.

Lemma drain_id bits : drain_ok bits (fun mem => mem).
Proof. intros mem rs H. split; [done |]. split; [done |]. exists [], rs. done. Qed.

(** [user_ring_buffer__reserve] refuses a size that does not fit in the length bits
    with [E2BIG] and changes nothing; otherwise, with the kernel draining completed
    records at the front meanwhile, it refuses with [E2BIG] a record larger than the ring
    and with [ENOSPC] one larger than what is free, and else appends one busy record of
    the size asked for behind the undrained ones, which it leaves as they are, and
    returns the address of that record's sample. *)
Theorem user_ring_buffer__reserve_spec bits kernel rb rs size :
  3 <= bits <= 31 -> drain_ok bits kernel -> ring_inv bits (urb_mem rb) rs -> urb_mask rb = ring_size bits - 1 ->
  0 <= size < 2 ^ 32 ->
  let '(r, rb') := user_ring_buffer__reserve kernel rb size in
  urb_mask rb' = ring_size bits - 1 /\
  if size <? BPF_RINGBUF_DISCARD_BIT then reserved bits rs size r rb' else r = Err E2BIG /\ rb' = rb.
Proof.
  intros Hbits Hk Hinv Hm Hsz. destruct (size <? BPF_RINGBUF_DISCARD_BIT) eqn:E.
  - apply user_ring_buffer__reserve_ok; try done. lia.
  - unfold user_ring_buffer__reserve. rewrite size_guard, E by done. cbn [negb]. done.
Qed.

Lemma user_ring_buffer__reserve_spec_witness :
  let '(r, rb') := user_ring_buffer__reserve (fun mem => mem) demo_user 7 in
  urb_mask rb' = 31 /\ reserved 5 [demo_rec] 7 r rb'.
Proof.
  exact (user_ring_buffer__reserve_spec 5 (fun mem => mem) demo_user [demo_rec] 7 ltac:(lia) (drain_id 5) demo_user_inv eq_refl ltac:(lia)).
Defined.

(** Submitting or discarding a reserved sample clears the busy bit of its record, sets
    the discard bit for a discard, and changes no other record, no sample and no
    position. *)
Theorem user_ringbuf_commit_spec bits rb pre r suf (discard : bool) :
  3 <= bits <= 31 -> ring_inv bits (urb_mem rb) (pre ++ r :: suf) -> urb_mask rb = ring_size bits - 1 ->
  exists rb', (if discard then user_ring_buffer__discard rb (sample_at bits (urb_mem rb) pre)
               else user_ring_buffer__submit rb (sample_at bits (urb_mem rb) pre)) = Some rb' /\
    urb_mask rb' = ring_size bits - 1 /\
    consumer_pos (urb_mem rb') = consumer_pos (urb_mem rb) /\ producer_pos (urb_mem rb') = producer_pos (urb_mem rb) /\
    ring_inv bits (urb_mem rb') (pre ++ Rec (rec_len r) false (rec_discard r || discard) (rec_bytes r) :: suf).
Proof.
  intros Hbits Hinv Hm. destruct (user_ringbuf_commit_ok bits Hbits rb pre r suf discard Hinv Hm) as (rb' & Hc & H).
  exists rb'. split; [by destruct discard | exact H].
Qed.

Lemma user_ringbuf_commit_spec_witness :
  exists rb', user_ring_buffer__discard demo_user 0 = Some rb' /\ ring_inv 5 (urb_mem rb') [Rec 4 false true [0; 0; 0; 0]].
Proof.
  destruct (user_ringbuf_commit_spec 5 demo_user [] demo_rec [] true ltac:(lia) demo_user_inv eq_refl)
    as (rb' & Hc & _ & _ & _ & Hinv).
  exists rb'. split; [exact Hc | exact Hinv].
Defined.

(** C8: reserving a sample, writing the bytes [bs] to it and submitting it, with the kernel
    draining records before, between and after, either fails for lack of room or leaves
    behind the undrained records one more, complete and not discarded, holding exactly
    [bs]; it always gets there when the ring has room for it beside all records. *)
Theorem user_ring_send_roundtrip bits k1 k2 k3 rb rs bs :
  3 <= bits <= 31 -> drain_ok bits k1 -> drain_ok bits k2 -> drain_ok bits k3 ->
  ring_inv bits (urb_mem rb) rs -> urb_mask rb = ring_size bits - 1 -> zlen bs < BPF_RINGBUF_DISCARD_BIT ->
  exists r rb', send k1 k2 k3 rb bs = Some (r, rb') /\
    match r with
    | Err e => (e = E2BIG \/ e = ENOSPC) /\ ring_size bits < sizes rs + rec_size (Rec (zlen bs) false false bs)
    | Ok _ => exists drained rest, rs = drained ++ rest /\ Forall (fun r => rec_busy r = false) drained /\
        ring_inv bits (urb_mem rb') (rest ++ [Rec (zlen bs) false false bs])
    end.
Proof.
  intros Hbits H1 H2 H3 Hinv Hm Hlen. pose proof (zlen_nonneg bs). unfold send.
  pose proof (user_ring_buffer__reserve_ok bits Hbits k1 rb rs (zlen bs) H1 Hinv Hm ltac:(lia)) as Hr.
  destruct (user_ring_buffer__reserve k1 rb (zlen bs)) as [r rb1]. destruct Hr as (Hm1 & drained & rest & -> & Hd & Hr).
  apply region_lens_app in Hinv as [Hd0 Hs0].
  change (rec_size (Rec (zlen bs) true false [])) with (rec_size (Rec (zlen bs) false false bs)) in Hr.
  cbn zeta in Hr. destruct (_ <? _) eqn:E1 in Hr; [|destruct (_ <? _) eqn:E2 in Hr].
  - destruct Hr as [-> _]. eexists _, _. split; [reflexivity |]. split; [by left | rewrite sizes_app; lia].
  - destruct Hr as [-> _]. eexists _, _. split; [reflexivity |]. split; [by right | rewrite sizes_app; lia].
  - destruct Hr as [-> [bytes Hi1]]. cbn zeta.
    destruct (kernel_step_busy bits k2 rb1 rest _ Hbits H2 Hi1 eq_refl) as (d2 & p2 & -> & Hd2 & Hi2 & Hs2). rewrite <- Hs2.
    pose proof (write_sample_ok bits Hbits _ p2 _ [] bs Hi2 eq_refl) as Hi3.
    set (rb3 := write_sample _ _ bs) in *. cbn [rec_len rec_busy rec_discard] in Hi3.
    destruct (kernel_step_busy bits k3 rb3 p2 _ Hbits H3 Hi3 eq_refl) as (d3 & p3 & -> & Hd3 & Hi4 & Hs3).
    change (sample_at bits (urb_mem (kernel_step k2 rb1)) (d3 ++ p3)) with (sample_at bits (urb_mem rb3) (d3 ++ p3)).
    rewrite <- Hs3. destruct (user_ringbuf_commit_ok bits Hbits (kernel_step k3 rb3) p3 _ [] false Hi4 Hm1) as (rb5 & Hc & _ & _ & _ & Hi5).
    unfold user_ring_buffer__submit. rewrite Hc. eexists _, _. split; [reflexivity |].
    exists (drained ++ d2 ++ d3), p3. rewrite <- !app_assoc. split; [done |]. split; [by rewrite !Forall_app | exact Hi5].
Qed.

Lemma user_ring_send_roundtrip_witness :
  exists rb', send (fun mem => mem) (fun mem => mem) (fun mem => mem) demo_user [7; 7] = Some (Ok 16, rb') /\
    exists drained rest, [demo_rec] = drained ++ rest /\ Forall (fun r => rec_busy r = false) drained /\
      ring_inv 5 (urb_mem rb') (rest ++ [Rec 2 false false [7; 7]]).
Proof.
  destruct (user_ring_send_roundtrip 5 (fun mem => mem) (fun mem => mem) (fun mem => mem) demo_user [demo_rec] [7; 7] ltac:(lia)
    (drain_id 5) (drain_id 5) (drain_id 5) demo_user_inv eq_refl eq_refl) as (r & rb' & Hs & Hr).
  assert (Hr0 : fst <$> send (fun mem => mem) (fun mem => mem) (fun mem => mem) demo_user [7; 7] = Some (Ok 16)) by (vm_compute; reflexivity).
  rewrite Hs in Hr0. injection Hr0 as ->. exists rb'. split; [exact Hs | exact Hr].
Defined.

(** ** Blocking reservations *)
Lemma reserved_drained bits d rest size r rb' :
  Forall (fun r => rec_busy r = false) d -> reserved bits rest size r rb' -> reserved bits (d ++ rest) size r rb'.
Proof.
  intros Hd (d2 & rest2 & -> & Hd2 & H). exists (d ++ d2), rest2. rewrite <- app_assoc. split; [done |].
  split; [by apply Forall_app_2 | exact H].
Qed.

Lemma reserve_loop_fuel fuel k kernel waits size timeout_ms start ms attempt rb x :
  reserve_loop fuel kernel waits size timeout_ms start ms attempt rb = Some x ->
  reserve_loop (fuel + k) kernel waits size timeout_ms start ms attempt rb = Some x.
Proof.
  revert ms attempt rb. induction fuel as [|fuel IH]; intros ms attempt rb; [done |]. cbn [Nat.add reserve_loop].
  destruct (user_ring_buffer__reserve _ _ _) as [[|] rb1]; [done |]. destruct (negb _); [done |].
  destruct (wait_epoll _); [|done]. cbn zeta. destruct (if timeout_ms =? -1 then _ else _); [|done].
  destruct (0 <? _); [apply IH | done].
Qed.

Section Blocking.
Context (bits : Z) (kernel : nat -> ring_mem -> ring_mem) (waits : nat -> wait_result) (timeout_ms : Z) (start : timespec).
Hypothesis (Hbits : 3 <= bits <= 31) (Hk : forall k, drain_ok bits (kernel k)).

(** The wait after attempt [k] fails or uses up the timeout, or there is none. *)
Definition wait_over (k : nat) : Prop :=
  match wait_epoll (waits k) with
  | Err _ => True
  | Ok _ =>
      timeout_ms = -1 \/
      match wait_clock (waits k) with
      | Err _ => True
      | Ok curr => s32 (timeout_ms - s32 (ns_elapsed_timespec start curr / 1000000)) <= 0
      end
  end.

(** The call ends with what a reservation gives, or with the error of a wait. *)
Definition blocking_result (rs : list rec) (size : Z) (r : result Z) (rb' : user_ring_buffer) : Prop :=
  urb_mask rb' = ring_size bits - 1 /\
  (reserved bits rs size r rb' \/
   exists drained rest k e, rs = drained ++ rest /\ Forall (fun r => rec_busy r = false) drained /\ r = Err e /\
     (wait_epoll (waits k) = Err e \/ wait_clock (waits k) = Err e) /\ ring_inv bits (urb_mem rb') rest).

Lemma blocking_drained d rest size r rb' :
  Forall (fun r => rec_busy r = false) d -> blocking_result rest size r rb' -> blocking_result (d ++ rest) size r rb'.
Proof.
  intros Hd [Hm [H | (d2 & rest2 & k & e & -> & Hd2 & H)]]; (split; [done |]).
  - left. by apply reserved_drained.
  - right. exists (d ++ d2), rest2, k, e. rewrite <- app_assoc. split; [done |]. split; [by apply Forall_app_2 | done].
Qed.

Lemma reserve_loop_ok fuel ms_remaining attempt n rb rs size :
  (timeout_ms = -1 -> ms_remaining <= 0) ->
  wait_over (attempt + n) -> (n < fuel)%nat -> ring_inv bits (urb_mem rb) rs -> urb_mask rb = ring_size bits - 1 ->
  0 <= size < BPF_RINGBUF_DISCARD_BIT ->
  exists r rb', reserve_loop fuel kernel waits size timeout_ms start ms_remaining attempt rb = Some (r, rb') /\
    blocking_result rs size r rb'.
Proof.
  intros Hms Hover Hf Hinv Hm Hsz. revert ms_remaining attempt n rb rs Hms Hover Hf Hinv Hm.
  induction fuel as [|fuel IH]; intros ms_remaining attempt n rb rs Hms Hover Hf Hinv Hm; [lia |]. cbn [reserve_loop].
  pose proof (user_ring_buffer__reserve_ok bits Hbits _ rb rs size (Hk attempt) Hinv Hm Hsz) as Hr.
  destruct (user_ring_buffer__reserve (kernel attempt) rb size) as [r rb1]. destruct Hr as [Hm1 Hr].
  destruct r as [sample | e]; [eexists _, _; split; [reflexivity |]; split; [done | by left] |].
  destruct (e =? ENOSPC) eqn:E; cbn [negb]; [|eexists _, _; split; [reflexivity |]; split; [done | by left]].
  assert (exists d rest, rs = d ++ rest /\ Forall (fun r => rec_busy r = false) d /\ ring_inv bits (urb_mem rb1) rest)
    as (d & rest & -> & Hd & Hrest).
  { destruct Hr as (d & rest & H1 & H2 & H3). exists d, rest. cbn zeta in H3.
    destruct (_ <? _) in H3; [|destruct (_ <? _) in H3]; destruct H3 as [He H3]; done. }
  assert (Hrec : forall ms, timeout_ms <> -1 -> ~ wait_over attempt ->
    exists r rb', reserve_loop fuel kernel waits size timeout_ms start ms (S attempt) rb1 = Some (r, rb') /\
      blocking_result (d ++ rest) size r rb').
  { intros ms Hms' Hno. destruct n as [|n]; [by rewrite Nat.add_0_r in Hover |].
    destruct (IH ms (S attempt) n rb1 rest) as (r & rb' & He & Hb); try done; [by rewrite Nat.add_succ_comm | lia |].
    exists r, rb'. split; [done |]. by apply blocking_drained. }
  assert (Hlast : exists r rb', Some (user_ring_buffer__reserve (kernel (S attempt)) rb1 size) = Some (r, rb') /\
    blocking_result (d ++ rest) size r rb').
  { pose proof (user_ring_buffer__reserve_ok bits Hbits _ rb1 rest size (Hk (S attempt)) Hrest Hm1 Hsz) as Hr2.
    destruct (user_ring_buffer__reserve (kernel (S attempt)) rb1 size) as [r2 rb2]. destruct Hr2 as [Hm2 Hr2].
    eexists _, _. split; [reflexivity |]. apply blocking_drained; [done |]. split; [done | by left]. }
  assert (Herr : forall e', wait_epoll (waits attempt) = Err e' \/ wait_clock (waits attempt) = Err e' ->
    blocking_result (d ++ rest) size (Err e') rb1).
  { intros e' He'. split; [done |]. right. exists d, rest, attempt, e'. done. }
  unfold wait_over in Hrec. destruct (wait_epoll (waits attempt)) as [w|e'] eqn:Ew; [|eexists _, _; split; [reflexivity | by apply Herr; left]].
  cbn zeta. destruct (timeout_ms =? -1) eqn:Et; [replace (0 <? ms_remaining) with false by lia; exact Hlast |].
  destruct (wait_clock (waits attempt)) as [curr|e'] eqn:Ec; [|eexists _, _; split; [reflexivity | by apply Herr; right]].
  destruct (0 <? _) eqn:El; [apply Hrec; [lia |]; intros [? | ?]; lia | exact Hlast].
Qed.
End Blocking.

(** C25: [user_ring_buffer__reserve_blocking] refuses a timeout below -1; otherwise, as soon
    as one of its waits fails or the clock shows the timeout used up (or, before that, a
    reservation succeeds or is refused for a reason other than lack of room), it returns
    what its last reservation gave or the error of the wait: an appended busy record, or
    an error with every undrained record as it was.  With the timeout -1, which is to
    block indefinitely, that is after the first wait already. *)
Theorem user_ring_buffer__reserve_blocking_spec bits kernel waits start rb rs size timeout_ms n :
  3 <= bits <= 31 -> (forall k, drain_ok bits (kernel k)) -> ring_inv bits (urb_mem rb) rs -> urb_mask rb = ring_size bits - 1 ->
  0 <= size < BPF_RINGBUF_DISCARD_BIT -> wait_over waits timeout_ms start n ->
  exists r rb', user_ring_buffer__reserve_blocking (S n) kernel (Ok start) waits rb size timeout_ms = Some (r, rb') /\
    (timeout_ms = -1 -> user_ring_buffer__reserve_blocking 1 kernel (Ok start) waits rb size timeout_ms = Some (r, rb')) /\
    if timeout_ms <? -1 then r = Err EINVAL /\ rb' = rb else blocking_result bits waits rs size r rb'.
Proof.
  intros Hbits Hk Hinv Hm Hsz Hover. unfold user_ring_buffer__reserve_blocking.
  destruct (timeout_ms <? -1) eqn:Et.
  { replace ((timeout_ms <? 0) && negb (timeout_ms =? -1)) with true by lia. by eexists _, _. }
  replace ((timeout_ms <? 0) && negb (timeout_ms =? -1)) with false by lia.
  destruct (timeout_ms =? -1) eqn:E1; cbn [negb].
  - assert (timeout_ms = -1) as -> by lia.
    destruct (reserve_loop_ok bits kernel waits (-1) (0, 0) Hbits Hk 1 (-1) 0 0 rb rs size) as (r & rb' & Hr & Hres); try (done || lia).
    { unfold wait_over. case_match; [by left | done]. }
    exists r, rb'. split; [|done]. exact (reserve_loop_fuel 1 n _ _ _ _ _ _ _ _ _ Hr).
  - destruct (reserve_loop_ok bits kernel waits timeout_ms start Hbits Hk (S n) timeout_ms 0 n rb rs size) as (r & rb' & Hr & Hres); try (done || lia).
    exists r, rb'. split; [done |]. split; [intros ->; done | done].
Qed.

(** A call that is to block indefinitely gives up after the first event. *)
Lemma user_ring_buffer__reserve_blocking_spec_witness :
  let waits := fun _ => WaitResult (Ok 1) (Ok (0, 0)) in
  exists rb', user_ring_buffer__reserve_blocking 1 (fun _ mem => mem) (Ok (0, 0)) waits demo_user 24 (-1) = Some (Err ENOSPC, rb') /\
    blocking_result 5 waits [demo_rec] 24 (Err ENOSPC) rb'.
Proof.
  cbn zeta. destruct (user_ring_buffer__reserve_blocking_spec 5 (fun _ mem => mem) (fun _ => WaitResult (Ok 1) (Ok (0, 0))) (0, 0)
    demo_user [demo_rec] 24 (-1) 0 ltac:(lia) (fun _ => drain_id 5) demo_user_inv eq_refl ltac:(split; [lia | reflexivity])
    (or_introl eq_refl)) as (r & rb' & Hr & _ & Hres).
  assert (Hr0 : fst <$> Some (r, rb') = Some (Err ENOSPC)) by (rewrite <- Hr; vm_compute; reflexivity).
  injection Hr0 as ->. exists rb'. split; [exact Hr | exact Hres].
Defined.
