(* ===== verification/CoreTypes.v ===== *)
(** * CoreTypes: compatible and matching types for CO-RE

    The comparison of types of two BTF objects, a local one (of the BPF program) and a
    target one (of the kernel), from [src/src/relo_core.c] and the helpers it uses of
    [src/src/libbpf.c]: names without their flavor suffix, [skip_mods_and_typedefs],
    [__bpf_core_types_are_compat], [bpf_core_fields_are_compat] and
    [__bpf_core_types_match].

    The code follows modifiers, typedefs and arrays without a bound.  A chain longer
    than the number of types has a cycle, on which the code would run forever: that is
    [None], like a null pointer that is followed.  The theorems are about objects
    without such cycles and with references that exist ([core_ok]). *)
From S2P Require Import Prelude Hashmap Mem Strset BtfTypes Btf BtfParse BtfWrite.
Open Scope Z_scope.

(** ** Names *)

(** A byte of a string; the terminating NUL is 0. *)
Definition chr (s : list Z) (i : Z) : Z := default 0 (znth s i).

Fixpoint strncmp (n : nat) (a b : list Z) : Z :=
  match n with
  | O => 0
  | S n =>
      match a, b with
      | [], [] => 0
      | [], y :: _ => - y
      | x :: _, [] => x
      | x :: a, y :: b => if x =? y then strncmp n a b else x - y
      end
  end.

(** The test of [name + i]. *)
Definition bpf_core_is_flavor_sep (name : list Z) (i : Z) : bool :=
  negb (chr name i =? 95) && (chr name (i + 1) =? 95) && (chr name (i + 2) =? 95) && (chr name (i + 3) =? 95)
  && negb (chr name (i + 4) =? 95).

(** The loop from [i = k - 1] down. *)
Fixpoint essential_loop (k : nat) (name : list Z) : Z :=
  match k with
  | O => zlen name
  | S i => if bpf_core_is_flavor_sep name (Z.of_nat i) then Z.of_nat i + 1 else essential_loop i name
  end.

Definition bpf_core_essential_name_len (name : list Z) : Z := essential_loop (Z.to_nat (zlen name - 4)) name.

(** The string at an offset; the inner [None] is the null pointer. *)
Definition name_str (b : btf) (off : Z) : option (option (list Z)) :=
  match btf__name_by_offset b off with
  | None => Some None
  | Some p => s ← cstr p; Some (Some s)
  end.

(** ** Skipping *)
Fixpoint skip_loop (fuel : nat) (b : btf) (t : btf_type) (id : Z) : option (Z * btf_type) :=
  if btf_is_mod t || btf_is_typedef t then
    match fuel with
    | O => None
    | S fuel => t' ← btf__type_by_id b (t_type t); skip_loop fuel b t' (t_type t)
    end
  else Some (id, t).

(** The identifier and the type reached. *)
Definition skip_mods_and_typedefs (b : btf) (id : Z) : option (Z * btf_type) :=
  t ← btf__type_by_id b id; skip_loop (Z.to_nat (btf__type_cnt b)) b t id.

Definition btf_is_ptr (t : btf_type) : bool := bool_decide (btf_kind t = BTF_KIND_PTR).
Definition btf_is_array (t : btf_type) : bool := bool_decide (btf_kind t = BTF_KIND_ARRAY).
Definition btf_is_enum (t : btf_type) : bool := bool_decide (btf_kind t = BTF_KIND_ENUM).

(** ** Compatible types *)
Definition MAX_CORE_DEPTH : nat := 32.

Section TwoObjects.
Context (local_btf targ_btf : btf).

(** The parameters of two prototypes, [n] being left; [sub] is the recursive call, which
    there is none of when no levels are left. *)
Fixpoint compat_params (sub : option (Z -> Z -> option Z)) (n : nat) (i : Z) (local_type targ_type : btf_type) : option Z :=
  match n with
  | O => Some 1
  | S n =>
      match sub with
      | None => Some (- EINVAL)
      | Some rec =>
          local_p ← btf_param local_type i;
          targ_p ← btf_param targ_type i;
          '(local_id, _) ← skip_mods_and_typedefs local_btf (param_type local_p);
          '(targ_id, _) ← skip_mods_and_typedefs targ_btf (param_type targ_p);
          err ← rec local_id targ_id;
          if err <=? 0 then Some err else compat_params sub n (i + 1) local_type targ_type
      end
  end.

(** The switch on the kind; [rec] is the jump to the label [recur]. *)
Definition compat_switch (sub : option (Z -> Z -> option Z)) (rec : Z -> Z -> option Z) (local_type targ_type : btf_type) :
    option Z :=
  match btf_kind local_type with
  | BTF_KIND_UNKN | BTF_KIND_STRUCT | BTF_KIND_UNION | BTF_KIND_ENUM | BTF_KIND_FWD | BTF_KIND_ENUM64 => Some 1
  | BTF_KIND_INT =>
      lo ← btf_int_offset local_type; to ← btf_int_offset targ_type;
      Some (Z.b2z ((lo =? 0) && (to =? 0)))
  | BTF_KIND_PTR => rec (t_type local_type) (t_type targ_type)
  | BTF_KIND_ARRAY =>
      la ← btf_array local_type; ta ← btf_array targ_type;
      rec (array_type la) (array_type ta)
  | BTF_KIND_FUNC_PROTO =>
      if negb (btf_vlen local_type =? btf_vlen targ_type) then Some 0 else
      err ← compat_params sub (Z.to_nat (btf_vlen local_type)) 0 local_type targ_type;
      if err <=? 0 then Some err else
      '(local_id, _) ← skip_mods_and_typedefs local_btf (t_type local_type);
      '(targ_id, _) ← skip_mods_and_typedefs targ_btf (t_type targ_type);
      rec local_id targ_id
  | _ => Some 0
  end.

(** From the label [recur] on, [depth] being what is left. *)
Fixpoint compat_loop (sub : option (Z -> Z -> option Z)) (depth : nat) (local_id targ_id : Z) : option Z :=
  match depth with
  | O => Some (- EINVAL)
  | S depth =>
      '(local_id, local_type) ← skip_mods_and_typedefs local_btf local_id;
      '(targ_id, targ_type) ← skip_mods_and_typedefs targ_btf targ_id;
      if negb (btf_kind_core_compat local_type targ_type) then Some 0 else
      compat_switch sub (compat_loop sub depth) local_type targ_type
  end.

Fixpoint __bpf_core_types_are_compat (level : nat) (local_id targ_id : Z) : option Z :=
  local_type ← btf_type_by_id local_btf local_id;
  targ_type ← btf_type_by_id targ_btf targ_id;
  if negb (btf_kind_core_compat local_type targ_type) then Some 0 else
  compat_loop (match level with O => None | S level => Some (__bpf_core_types_are_compat level) end)
    MAX_CORE_DEPTH local_id targ_id.

Definition bpf_core_types_are_compat (local_id targ_id : Z) : option Z := __bpf_core_types_are_compat 32 local_id targ_id.

(** ** Compatible fields *)

(** One of the two names is anonymous or both are the same without flavors. *)
Definition essential_equal (local_name targ_name : list Z) : bool :=
  let local_len := bpf_core_essential_name_len local_name in
  let targ_len := bpf_core_essential_name_len targ_name in
  (local_len =? targ_len) && (strncmp (Z.to_nat local_len) local_name targ_name =? 0).

(** The switch on the kind; [rec] is the comparison from the label [recur] on. *)
Definition fields_switch (rec : Z -> Z -> option Z) (local_type targ_type : btf_type) : option Z :=
  match btf_kind local_type with
  | BTF_KIND_PTR | BTF_KIND_FLOAT => Some 1
  | BTF_KIND_FWD | BTF_KIND_ENUM64 | BTF_KIND_ENUM =>
      local_name ← name_str local_btf (name_off local_type);
      targ_name ← name_str targ_btf (name_off targ_type);
      local_name ← local_name; targ_name ← targ_name;
      let local_len := bpf_core_essential_name_len local_name in
      let targ_len := bpf_core_essential_name_len targ_name in
      Some (Z.b2z ((local_len =? 0) || (targ_len =? 0) || essential_equal local_name targ_name))
  | BTF_KIND_INT =>
      lo ← btf_int_offset local_type; to ← btf_int_offset targ_type;
      Some (Z.b2z ((lo =? 0) && (to =? 0)))
  | BTF_KIND_ARRAY =>
      la ← btf_array local_type; ta ← btf_array targ_type;
      rec (array_type la) (array_type ta)
  | _ => Some 0
  end.

(** A pair of arrays is followed at most until one of the chains has visited every type
    of its object. *)
Fixpoint fields_compat_loop (fuel : nat) (local_id targ_id : Z) : option Z :=
  match fuel with
  | O => None
  | S fuel =>
      '(local_id, local_type) ← skip_mods_and_typedefs local_btf local_id;
      '(targ_id, targ_type) ← skip_mods_and_typedefs targ_btf targ_id;
      if btf_is_composite local_type && btf_is_composite targ_type then Some 1 else
      if negb (btf_kind_core_compat local_type targ_type) then Some 0 else
      fields_switch (fields_compat_loop fuel) local_type targ_type
  end.

Definition fields_fuel : nat := S (Z.to_nat (btf__type_cnt local_btf) + Z.to_nat (btf__type_cnt targ_btf)).

Definition bpf_core_fields_are_compat (local_id targ_id : Z) : option Z := fields_compat_loop fields_fuel local_id targ_id.

(** ** Matching types *)
Definition bpf_core_names_match (local_name_off targ_name_off : Z) : option bool :=
  local_n ← name_str local_btf local_name_off;
  targ_n ← name_str targ_btf targ_name_off;
  if str_is_empty targ_n then Some (str_is_empty local_n) else
  local_n ← local_n; targ_n ← targ_n;
  Some (essential_equal local_n targ_n).

(** The name of an enumerator. *)
Definition enumerator_name_off (t : btf_type) (i : Z) : option Z :=
  if btf_is_enum t then enum_name_off <$> btf_enum t i else enum64_name_off <$> btf_enum64 t i.

(** The inner loop, [n] enumerators of the target being left. *)
Fixpoint enum_find (n : nat) (j local_n_off : Z) (targ_t : btf_type) : option bool :=
  match n with
  | O => Some false
  | S n =>
      targ_n_off ← enumerator_name_off targ_t j;
      names ← bpf_core_names_match local_n_off targ_n_off;
      if negb names then enum_find n (j + 1) local_n_off targ_t else Some true
  end.

Fixpoint enums_loop (n : nat) (i : Z) (local_t targ_t : btf_type) : option Z :=
  match n with
  | O => Some 1
  | S n =>
      local_n_off ← enumerator_name_off local_t i;
      matched ← enum_find (Z.to_nat (btf_vlen targ_t)) 0 local_n_off targ_t;
      if negb matched then Some 0 else enums_loop n (i + 1) local_t targ_t
  end.

Definition bpf_core_enums_match (local_t targ_t : btf_type) : option Z :=
  if negb (t_size local_t =? t_size targ_t) then Some 0 else
  if btf_vlen targ_t <? btf_vlen local_t then Some 0 else
  enums_loop (Z.to_nat (btf_vlen local_t)) 0 local_t targ_t.

(** The inner loop over members: 1 when a member matches, 0 when none does, or the error
    of the comparison [sub]. *)
Fixpoint member_find (sub : Z -> Z -> option Z) (n : nat) (j : Z) (local_m : btf_member_t) (targ_t : btf_type) : option Z :=
  match n with
  | O => Some 0
  | S n =>
      targ_m ← btf_member targ_t j;
      names ← bpf_core_names_match (member_name_off local_m) (member_name_off targ_m);
      if negb names then member_find sub n (j + 1) local_m targ_t else
      err ← sub (member_type local_m) (member_type targ_m);
      if err <? 0 then Some err else
      if 0 <? err then Some 1 else member_find sub n (j + 1) local_m targ_t
  end.

Fixpoint members_loop (sub : Z -> Z -> option Z) (n : nat) (i : Z) (local_t targ_t : btf_type) : option Z :=
  match n with
  | O => Some 1
  | S n =>
      local_m ← btf_member local_t i;
      err ← member_find sub (Z.to_nat (btf_vlen targ_t)) 0 local_m targ_t;
      if err <? 0 then Some err else
      if err =? 0 then Some 0 else members_loop sub n (i + 1) local_t targ_t
  end.

Definition bpf_core_composites_match (sub : Z -> Z -> option Z) (local_t targ_t : btf_type) : option Z :=
  if btf_vlen targ_t <? btf_vlen local_t then Some 0 else
  members_loop sub (Z.to_nat (btf_vlen local_t)) 0 local_t targ_t.

Fixpoint match_params (sub : Z -> Z -> option Z) (n : nat) (i : Z) (local_t targ_t : btf_type) : option Z :=
  match n with
  | O => Some 1
  | S n =>
      local_p ← btf_param local_t i;
      targ_p ← btf_param targ_t i;
      err ← sub (param_type local_p) (param_type targ_p);
      if err <=? 0 then Some err else match_params sub n (i + 1) local_t targ_t
  end.

(** The switch on the kind: [sub behind_ptr] is the call at the next level, [rec behind_ptr]
    the jump to the label [recur]. *)
Definition match_switch (sub rec : bool -> Z -> Z -> option Z) (behind_ptr : bool) (local_t targ_t : btf_type) : option Z :=
  let local_k := btf_kind local_t in
  let targ_k := btf_kind targ_t in
  let same := bool_decide (local_k = targ_k) in
  match local_k with
  | BTF_KIND_UNKN => Some (Z.b2z same)
  | BTF_KIND_FWD =>
      let local_f := btf_kflag local_t in
      if behind_ptr then
        if same then Some (Z.b2z (Bool.eqb local_f (btf_kflag targ_t))) else
        Some (Z.b2z ((bool_decide (targ_k = BTF_KIND_STRUCT) && negb local_f)
                     || (bool_decide (targ_k = BTF_KIND_UNION) && local_f)))
      else
        if negb same then Some 0 else Some (Z.b2z (Bool.eqb local_f (btf_kflag targ_t)))
  | BTF_KIND_ENUM | BTF_KIND_ENUM64 =>
      if negb (btf_is_any_enum targ_t) then Some 0 else bpf_core_enums_match local_t targ_t
  | BTF_KIND_STRUCT | BTF_KIND_UNION =>
      if behind_ptr then
        if same then Some 1 else
        if negb (bool_decide (targ_k = BTF_KIND_FWD)) then Some 0 else
        Some (Z.b2z (Bool.eqb (bool_decide (local_k = BTF_KIND_UNION)) (btf_kflag targ_t)))
      else
        if negb same then Some 0 else bpf_core_composites_match (sub behind_ptr) local_t targ_t
  | BTF_KIND_INT =>
      if negb same then Some 0 else
      le ← btf_int_encoding local_t; te ← btf_int_encoding targ_t;
      let local_sgn := Z.land le BTF_INT_SIGNED in
      let targ_sgn := Z.land te BTF_INT_SIGNED in
      Some (Z.b2z ((t_size local_t =? t_size targ_t) && (local_sgn =? targ_sgn)))
  | BTF_KIND_PTR =>
      if negb same then Some 0 else rec true (t_type local_t) (t_type targ_t)
  | BTF_KIND_ARRAY =>
      if negb same then Some 0 else
      la ← btf_array local_t; ta ← btf_array targ_t;
      if negb (array_nelems la =? array_nelems ta) then Some 0 else
      rec behind_ptr (array_type la) (array_type ta)
  | BTF_KIND_FUNC_PROTO =>
      if negb same then Some 0 else
      if negb (btf_vlen local_t =? btf_vlen targ_t) then Some 0 else
      err ← match_params (sub behind_ptr) (Z.to_nat (btf_vlen local_t)) 0 local_t targ_t;
      if err <=? 0 then Some err else
      rec behind_ptr (t_type local_t) (t_type targ_t)
  | _ => Some 0
  end.

(** From the label [recur] on. *)
Fixpoint match_loop (sub : bool -> Z -> Z -> option Z) (depth : nat) (behind_ptr : bool) (local_id targ_id : Z) : option Z :=
  match depth with
  | O => Some (- EINVAL)
  | S depth =>
      '(local_id, local_t) ← skip_mods_and_typedefs local_btf local_id;
      '(targ_id, targ_t) ← skip_mods_and_typedefs targ_btf targ_id;
      names ← bpf_core_names_match (name_off local_t) (name_off targ_t);
      if negb names then Some 0 else
      match_switch sub (match_loop sub depth) behind_ptr local_t targ_t
  end.

Fixpoint __bpf_core_types_match (level : nat) (behind_ptr : bool) (local_id targ_id : Z) : option Z :=
  match level with
  | O => Some (- EINVAL)
  | S level => match_loop (__bpf_core_types_match level) MAX_CORE_DEPTH behind_ptr local_id targ_id
  end.

Definition bpf_core_types_match (local_id targ_id : Z) : option Z := __bpf_core_types_match 32 false local_id targ_id.
End TwoObjects.

(** ** What the relocation code relies on *)

(** The references it follows: all identifiers but the unused word of a forward
    declaration. *)
Definition followed_ids (k : btf_kind_t) (vlen : Z) : list Z :=
  match k with BTF_KIND_FWD => [] | _ => id_fields k vlen end.

(** The references that are followed without a bound: a cycle among them does not end. *)
Definition unbounded_ref (t : btf_type) : option Z :=
  if btf_is_mod t || btf_is_typedef t then Some (t_type t)
  else if btf_is_array t then array_type <$> btf_array t else None.

Class CoreBtf (b : btf) : Prop := {
  core_total id : 0 <= id < btf__type_cnt b -> is_Some (btf__type_by_id b id);
  core_fits id t : btf__type_by_id b id = Some t -> type_fits t;
  core_ids id t off : btf__type_by_id b id = Some t -> off ∈ followed_ids (btf_kind t) (btf_vlen t) ->
    exists w, type_word t off = Some w /\ is_Some (btf__type_by_id b w);
  core_strs id t off : btf__type_by_id b id = Some t -> off ∈ 0 :: str_fields (btf_kind t) (btf_vlen t) ->
    exists w s, type_word t off = Some w /\ name_str b w = Some (Some s) /\ pos_str s;
  core_acyclic : exists rank : Z -> nat, forall id t, btf__type_by_id b id = Some t ->
    (rank id <= Z.to_nat (btf__type_cnt b))%nat /\ forall w, unbounded_ref t = Some w -> (rank w < rank id)%nat
}.

Section CoreBtf.
Context (b : btf) `{CoreBtf b}.

Lemma core_name id t : btf__type_by_id b id = Some t -> exists s, name_str b (name_off t) = Some (Some s) /\ pos_str s.
Proof.
  intros Ht. destruct (core_strs id t 0 Ht ltac:(left)) as (w & s & Hw & Hs). cbn in Hw. injection Hw as <-. by exists s.
Qed.

Lemma core_type id t :
  btf__type_by_id b id = Some t -> 8 ∈ followed_ids (btf_kind t) (btf_vlen t) -> is_Some (btf__type_by_id b (t_type t)).
Proof. intros Ht Hin. destruct (core_ids id t 8 Ht Hin) as (w & Hw & Hs). cbn in Hw. by injection Hw as <-. Qed.

Lemma core_mod id t :
  btf__type_by_id b id = Some t -> btf_is_mod t || btf_is_typedef t = true -> is_Some (btf__type_by_id b (t_type t)).
Proof.
  intros Ht Hm. apply (core_type id t Ht). unfold btf_is_mod, btf_is_typedef in Hm.
  destruct (btf_kind t); try done; cbn; left.
Qed.

Lemma core_array id t :
  btf__type_by_id b id = Some t -> btf_kind t = BTF_KIND_ARRAY ->
  exists a, btf_array t = Some a /\ is_Some (btf__type_by_id b (array_type a)).
Proof.
  intros Ht Hk. destruct (core_ids id t 12 Ht) as (w & Hw & Hs); [rewrite Hk; left |].
  pose proof (core_fits id t Ht) as Hf. unfold type_fits in Hf. rewrite Hk in Hf. specialize (Hf I). cbn in Hf.
  unfold btf_array. change (type_word t 12) with (znth (extra t) 0) in Hw. rewrite Hw.
  destruct (znth_is_Some (extra t) 1) as [x ->]; [lia |]. destruct (znth_is_Some (extra t) 2) as [y ->]; [lia |].
  cbn. eexists. split; [reflexivity | done].
Qed.

Lemma core_int id t : btf__type_by_id b id = Some t -> btf_kind t = BTF_KIND_INT -> exists d, btf_int_data t = Some d.
Proof.
  intros Ht Hk. pose proof (core_fits id t Ht) as Hf. unfold type_fits in Hf. rewrite Hk in Hf. specialize (Hf I). cbn in Hf.
  apply znth_is_Some. lia.
Qed.

Lemma in_elems_intro n base sz offs i o : 0 <= i < n -> o ∈ offs -> base + i * sz + o ∈ in_elems n base sz offs.
Proof.
  intros Hi Ho. unfold in_elems. apply list_elem_of_join. exists ((fun o => base + Z.of_nat (Z.to_nat i) * sz + o) <$> offs). split.
  - apply list_elem_of_fmap. exists o. split; [by rewrite Z2Nat.id by lia | done].
  - apply list_elem_of_fmap. exists (Z.to_nat i). split; [done |]. apply elem_of_seq. lia.
Qed.

Lemma core_param id t i :
  btf__type_by_id b id = Some t -> btf_kind t = BTF_KIND_FUNC_PROTO -> 0 <= i < btf_vlen t ->
  exists p, btf_param t i = Some p /\ is_Some (btf__type_by_id b (param_type p)).
Proof.
  intros Ht Hk Hi. pose proof (core_fits id t Ht) as Hf. unfold type_fits in Hf. rewrite Hk in Hf. specialize (Hf I). cbn in Hf.
  destruct (words2 t i) as (x & y & Hx & Hy & Hwx & Hwy); [lia.. |].
  destruct (core_ids id t (12 + i * 8 + 4) Ht) as (w & Hw & Hs).
  { rewrite Hk. cbn. right. apply in_elems_intro; [done | left]. }
  unfold btf_param. rewrite Hx, Hy. cbn. eexists. split; [reflexivity |]. cbn. congruence.
Qed.

Lemma core_member id t i :
  btf__type_by_id b id = Some t -> btf_is_composite t = true -> 0 <= i < btf_vlen t ->
  exists m s, btf_member t i = Some m /\ is_Some (btf__type_by_id b (member_type m)) /\
    name_str b (member_name_off m) = Some (Some s) /\ pos_str s.
Proof.
  intros Ht Hk Hi. pose proof (core_fits id t Ht) as Hf. unfold type_fits in Hf.
  assert (Hc : known_kind (btf_kind t) /\ extra_words (btf_kind t) (btf_vlen t) = 3 * btf_vlen t /\
    12 + i * 12 + 4 ∈ followed_ids (btf_kind t) (btf_vlen t) /\ 12 + i * 12 + 0 ∈ str_fields (btf_kind t) (btf_vlen t)).
  { unfold btf_is_composite, btf_is_struct, btf_is_union in Hk.
    destruct (btf_kind t) eqn:E; try discriminate; cbn; (split_and!; [done | done | apply in_elems_intro; [done | left] |
      right; apply in_elems_intro; [done | left]]). }
  destruct Hc as (Hkk & Hx & Hin & Hins). specialize (Hf Hkk). rewrite Hx in Hf.
  destruct (words3 t i) as (x & y & z & Ha & Hb & Hc & Hwx & Hwy); [lia.. |].
  destruct (core_ids id t _ Ht Hin) as (w & Hw & Hs). destruct (core_strs id t _ Ht ltac:(right; exact Hins)) as (w' & s & Hw' & Hs').
  unfold btf_member. rewrite Ha, Hb, Hc. cbn. eexists _, s. split; [reflexivity |]. cbn. split; congruence.
Qed.

Lemma core_enumerator id t i :
  btf__type_by_id b id = Some t -> btf_is_any_enum t = true -> 0 <= i < btf_vlen t ->
  exists off s, enumerator_name_off t i = Some off /\ name_str b off = Some (Some s) /\ pos_str s.
Proof.
  intros Ht Hk Hi. pose proof (core_fits id t Ht) as Hf. unfold type_fits in Hf. unfold enumerator_name_off, btf_is_enum.
  unfold btf_is_any_enum in Hk. destruct (btf_kind t) eqn:E; try discriminate; specialize (Hf I); cbn in Hf.
  - destruct (words2 t i) as (x & y & Hx & Hy & Hwx & Hwy); [lia.. |]. rewrite bool_decide_eq_true_2 by done.
    destruct (core_strs id t (12 + i * 8 + 0) Ht) as (w & s & Hw & Hs).
    { rewrite E. right. cbn. right. apply in_elems_intro; [done | left]. }
    unfold btf_enum. rewrite Hx, Hy. cbn. exists x, s. split; [done |]. congruence.
  - destruct (words3 t i) as (x & y & z & Hx & Hy & Hz & Hwx & Hwy); [lia.. |]. rewrite bool_decide_eq_false_2 by done.
    destruct (core_strs id t (12 + i * 12 + 0) Ht) as (w & s & Hw & Hs).
    { rewrite E. right. cbn. right. apply in_elems_intro; [done | left]. }
    unfold btf_enum64. rewrite Hx, Hy, Hz. cbn. exists x, s. split; [done |]. congruence.
Qed.
End CoreBtf.

(** ** Objects that satisfy it *)
Lemma type_by_id_range b id t :
  base_btf b = None -> 0 <= start_id b -> btf__type_by_id b id = Some t -> 0 <= id < btf__type_cnt b.
Proof.
  intros Hb Hs. unfold btf__type_by_id, btf__type_cnt. destruct (_ <=? id) eqn:E; [done |]. rewrite btf_type_by_id_eq, Hb.
  destruct (id =? 0) eqn:E0; [lia |]. destruct (id <? start_id b) eqn:E1; [done | lia].
Qed.

(** What [btf_new] checks is enough, up to the results of prototypes, which it does not
    check, and cycles. *)
Lemma core_btf_sane b :
  btf_ok b -> base_btf b = None -> 0 < str_len (hdr b) ->
  (forall id, start_id b <= id < start_id b + nr_types b ->
     exists t, btf_type_by_id b id = Some t /\ type_fits t /\ type_sane b t) ->
  (forall id t, btf__type_by_id b id = Some t -> btf_kind t = BTF_KIND_FUNC_PROTO -> is_Some (btf__type_by_id b (t_type t))) ->
  (exists rank : Z -> nat, forall id t, btf__type_by_id b id = Some t ->
     (rank id <= Z.to_nat (btf__type_cnt b))%nat /\ forall w, unbounded_ref t = Some w -> (rank w < rank id)%nat) ->
  CoreBtf b.
Proof.
  intros Hok Hbase Hstr Hsane Hret Hacyc.
  pose proof (btf_ok_unfold b Hok) as ([cs Hcs] & _ & Hid & Hlt & Hst). rewrite Hbase in Hst. destruct Hst as [Hst Hso].
  assert (Hcnt : btf__type_cnt b = start_id b + nr_types b).
  { unfold btf__type_cnt. pose proof (types_count _ _ Hcs). pose proof (zlen_nonneg cs). apply u32_small. lia. }
  assert (Hvoid : is_Some (btf__str_by_offset b 0)).
  { rewrite btf__str_by_offset_eq, Hso. cbn [Z.ltb Z.compare]. change (u32 (0 - 0)) with 0. replace (0 <? str_len (hdr b)) with true by lia. by eexists. }
  assert (Ht : forall id t, btf__type_by_id b id = Some t -> t = btf_void \/ (type_fits t /\ type_sane b t)).
  { intros id t H1. pose proof (type_by_id_range b id t Hbase ltac:(lia) H1) as Hr. destruct (decide (id = 0)) as [->|Hne].
    - left. unfold btf__type_by_id in H1. destruct (_ <=? 0) in H1; [done |]. rewrite btf_type_by_id_eq in H1. cbn in H1. congruence.
    - right. destruct (Hsane id ltac:(lia)) as (t2 & H2 & Hf & Hs). unfold btf__type_by_id in H1. destruct (_ <=? id) in H1; [done |].
      rewrite H2 in H1. injection H1 as <-. done. }
  assert (Hname : forall w, is_Some (btf__str_by_offset b w) -> exists s, name_str b w = Some (Some s) /\ pos_str s).
  { intros w [p Hp]. destruct (btf__str_by_offset_ok b w p Hok Hp) as (s & Hs & Hpos). exists s. split; [|done].
    unfold name_str, btf__name_by_offset. by rewrite Hp, Hs. }
  split; [| | | | exact Hacyc].
  - intros id H1. pose proof (btf__type_by_id_spec b id Hok ltac:(lia)) as Hspec. rewrite <- Hcnt in Hspec.
    replace (id <? btf__type_cnt b) with true in Hspec by lia. destruct Hspec as (t & H2 & _). by exists t.
  - intros id t H1. destruct (Ht id t H1) as [-> | [? _]]; [by intros [] | done].
  - intros id t off H1 Hoff. destruct (Ht id t H1) as [-> | [_ Hs]]; [by apply elem_of_nil in Hoff |].
    destruct (decide (btf_kind t = BTF_KIND_FUNC_PROTO /\ off = 8)) as [[Hk ->]|Hne].
    + exists (t_type t). split; [done |]. by apply (Hret id t).
    + apply (sane_ids _ _ Hs). unfold followed_ids, checked_ids in *. destruct (btf_kind t); try done.
      apply elem_of_cons in Hoff as [->|?]; [by destruct Hne | done].
  - intros id t off H1 Hoff. destruct (Ht id t H1) as [-> | [_ Hs]].
    + apply elem_of_cons in Hoff as [->|Hoff%elem_of_nil]; [|done]. destruct (Hname 0 Hvoid) as (s & Hn & Hp). by exists 0, s.
    + apply elem_of_cons in Hoff as [->|Hoff].
      * destruct (Hname _ (sane_name _ _ Hs)) as (s & Hn & Hp). by exists (name_off t), s.
      * destruct (sane_strs _ _ Hs off Hoff) as (w & Hw & Hws). destruct (Hname w Hws) as (s & Hn & Hp). by exists w, s.
Qed.

(** A check for objects whose modifiers, typedefs and arrays refer to earlier types. *)
Definition core_check_at (b : btf) (id : Z) : bool :=
  match btf__type_by_id b id with
  | None => false
  | Some t =>
      (negb (bool_decide (known_kind (btf_kind t))) || (extra_words (btf_kind t) (btf_vlen t) <=? zlen (extra t))) &&
      forallb (fun off => match type_word t off with
                          | Some w => bool_decide (is_Some (btf__type_by_id b w)) | None => false end)
        (followed_ids (btf_kind t) (btf_vlen t)) &&
      forallb (fun off => match type_word t off with
                          | Some w => match name_str b w with Some (Some s) => forallb (Z.ltb 0) s | _ => false end
                          | None => false end)
        (0 :: str_fields (btf_kind t) (btf_vlen t)) &&
      match unbounded_ref t with Some w => (0 <=? w) && (w <? id) | None => true end
  end.

Definition core_check (b : btf) : bool := forallb (core_check_at b) (seqZ 0 (btf__type_cnt b)).

Lemma core_check_sound b : base_btf b = None -> 0 <= start_id b -> core_check b = true -> CoreBtf b.
Proof.
  intros Hb Hs Hc. unfold core_check in Hc. rewrite forallb_forall in Hc.
  assert (Hat : forall id t, btf__type_by_id b id = Some t -> core_check_at b id = true).
  { intros id t Ht. pose proof (type_by_id_range b id t Hb Hs Ht) as Hr. apply Hc. apply list_elem_of_In. apply elem_of_seqZ. lia. }
  unfold core_check_at in Hat.
  split.
  - intros id Hid. specialize (Hc id ltac:(apply list_elem_of_In, elem_of_seqZ; lia)). unfold core_check_at in Hc.
    destruct (btf__type_by_id b id); [by eexists | done].
  - intros id t Ht. specialize (Hat id t Ht). rewrite Ht in Hat. rewrite !andb_true_iff in Hat. destruct Hat as [[[Hf _] _] _].
    intros Hk. rewrite bool_decide_eq_true_2 in Hf by done. cbn in Hf. lia.
  - intros id t off Ht Hoff. specialize (Hat id t Ht). rewrite Ht in Hat. rewrite !andb_true_iff in Hat. destruct Hat as [[[_ Hf] _] _].
    rewrite forallb_forall in Hf. specialize (Hf off ltac:(by apply list_elem_of_In)). destruct (type_word t off) as [w|]; [|done].
    exists w. split; [done |]. by apply bool_decide_eq_true_1 in Hf.
  - intros id t off Ht Hoff. specialize (Hat id t Ht). rewrite Ht in Hat. rewrite !andb_true_iff in Hat. destruct Hat as [[_ Hf] _].
    rewrite forallb_forall in Hf. specialize (Hf off ltac:(by apply list_elem_of_In)). destruct (type_word t off) as [w|]; [|done].
    destruct (name_str b w) as [[s|]|] eqn:Hn; try done. exists w, s. split_and!; [done.. |]. apply Forall_forall.
    intros x Hx. rewrite forallb_forall in Hf. specialize (Hf x ltac:(by apply list_elem_of_In)). lia.
  - exists Z.to_nat. intros id t Ht. pose proof (type_by_id_range b id t Hb Hs Ht). split; [lia |]. intros w Hw.
    specialize (Hat id t Ht). rewrite Ht in Hat. rewrite !andb_true_iff in Hat. destruct Hat as [_ Hf]. rewrite Hw in Hf. lia.
Qed.
