(* ===== verification/CoreDemo.v ===== *)
(** * CoreDemo: two small BTF objects

    A local and a target object on which the theorems about relocations are applied.
    They are parsed by [btf_new] and satisfy [CoreBtf]. *)
From Stdlib Require String.
From stdpp Require Import strings.
From S2P Require Import Prelude Hashmap Mem Strset BtfTypes Btf BtfParse BtfWrite CoreTypes.
Open Scope Z_scope.

(** The program's: an [int], [struct s] with its fields [x] and [y], a typedef and a pointer
    to it, an array, an enum, a prototype, [struct t___l] with an array and a [struct s], and
    a bit field. *)
Definition local_strs : list Z := mjoin ((fun s => ascii_bytes s ++ [0]) <$>
  [String.EmptyString; "int"; "s"; "x"; "y"; "s_t"; "e"; "A"; "B"; "a"; "p"; "t___l"; "arr"; "bf"; "b"; "0"; "0:0:2"; "0:1:1"; "0:1"]%string).
Definition local_types : list Z :=
  [1; 16777216; 4; 16777248]
  ++ [5; 67108866; 8; 7; 1; 0; 9; 1; 32]
  ++ [11; 134217728; 2]
  ++ [0; 33554432; 3]
  ++ [0; 50331648; 0; 1; 1; 4]
  ++ [15; 100663298; 4; 17; 1; 19; 2]
  ++ [0; 218103810; 1; 21; 1; 23; 4]
  ++ [25; 67108866; 24; 31; 5; 0; 5; 2; 128]
  ++ [35; 2214592513; 8; 38; 1; 50331685].

(** The kernel's: [struct s] has its fields in an embedded struct behind another one,
    [struct t] has them in the other order. *)
Definition targ_strs : list Z := mjoin ((fun s => ascii_bytes s ++ [0]) <$>
  [String.EmptyString; "int"; "s"; "pad"; "x"; "y"; "e"; "A"; "B"; "a"; "p"; "t"; "arr"; "bf"; "b"]%string).
Definition targ_types : list Z :=
  [1; 16777216; 4; 16777248]
  ++ [0; 67108866; 8; 13; 1; 0; 11; 1; 32]
  ++ [5; 67108866; 16; 7; 1; 0; 0; 2; 64]
  ++ [0; 33554432; 3]
  ++ [0; 50331648; 0; 1; 1; 8]
  ++ [15; 100663298; 4; 19; 7; 17; 5]
  ++ [0; 218103810; 1; 21; 1; 23; 4]
  ++ [25; 67108866; 48; 5; 3; 0; 27; 5; 128]
  ++ [31; 2214592513; 8; 34; 1; 50331693].

Definition demo_bytes (types strs : list Z) : list Z :=
  bytes_of ([125855; 24; 0; 4 * zlen types; 4 * zlen types; zlen strs] ++ types) ++ strs.

Definition parsed (data : list Z) : btf :=
  match btf_new data None [] with Some (Ok b, _) => b | _ => btf_fresh None 0 end.

Definition demo_local : btf := Eval vm_compute in parsed (demo_bytes local_types local_strs).
Definition demo_targ : btf := Eval vm_compute in parsed (demo_bytes targ_types targ_strs).

#[export] Instance demo_local_core : CoreBtf demo_local.
Proof. apply core_check_sound; [reflexivity | by apply Z.leb_le | vm_compute; reflexivity]. Qed.

#[export] Instance demo_targ_core : CoreBtf demo_targ.
Proof. apply core_check_sound; [reflexivity | by apply Z.leb_le | vm_compute; reflexivity]. Qed.
