(* ===== verification/CoreCompat.v ===== *)
(** * CoreCompat: what the comparison of types decides

    [compatible] is the relation that the comment of [bpf_core_types_are_compat] in
    [src/src/libbpf.c] describes, without the limits on depth;
    [__bpf_core_types_are_compat] decides it for types that are not nested too deeply
    and refuses others.  It is symmetric, like the comparison of fields. *)
From S2P Require Import Prelude Hashmap Mem Strset BtfTypes Btf BtfParse BtfWrite CoreTypes CoreDemo.
Open Scope Z_scope.

(** ** Skipping modifiers and typedefs *)
Section Skip.
Context (b : btf) `{CoreBtf b}.

Lemma skip_loop_spec rank fuel id t :
  (forall id t, btf__type_by_id b id = Some t -> forall w, unbounded_ref t = Some w -> (rank w < rank id)%nat) ->
  btf__type_by_id b id = Some t -> (rank id <= fuel)%nat ->
  exists id' t', skip_loop fuel b t id = Some (id', t') /\ btf__type_by_id b id' = Some t' /\
    btf_is_mod t' || btf_is_typedef t' = false /\ (rank id' <= rank id)%nat.
Proof.
  intros Hrank. revert id t. induction fuel as [|fuel IH]; intros id t Ht Hf; cbn [skip_loop];
    destruct (btf_is_mod t || btf_is_typedef t) eqn:Hm; try (by exists id, t).
  - pose proof (Hrank id t Ht (t_type t)) as Hr. unfold unbounded_ref in Hr. rewrite Hm in Hr. specialize (Hr eq_refl). lia.
  - destruct (core_mod b id t Ht Hm) as [t' Ht']. rewrite Ht'. cbn [mbind option_bind].
    pose proof (Hrank id t Ht (t_type t)) as Hr. unfold unbounded_ref in Hr. rewrite Hm in Hr. specialize (Hr eq_refl).
    destruct (IH (t_type t) t' Ht' ltac:(lia)) as (id2 & t2 & H1 & H2 & H3 & H4). exists id2, t2. split_and!; try done. lia.
Qed.

Lemma skip_spec id :
  is_Some (btf__type_by_id b id) ->
  exists id' t', skip_mods_and_typedefs b id = Some (id', t') /\ btf__type_by_id b id' = Some t' /\
    btf_is_mod t' || btf_is_typedef t' = false.
Proof.
  intros [t Ht]. destruct (core_acyclic (b := b)) as [rank Hr].
  destruct (skip_loop_spec rank (Z.to_nat (btf__type_cnt b)) id t) as (id' & t' & H1 & H2 & H3 & _).
  - intros i ti Hi. by apply Hr.
  - done.
  - by apply (Hr id t).
  - exists id', t'. unfold skip_mods_and_typedefs. rewrite Ht. done.
Qed.

(** What is reached is reached from itself. *)
Lemma skip_done id t :
  btf__type_by_id b id = Some t -> btf_is_mod t || btf_is_typedef t = false -> skip_mods_and_typedefs b id = Some (id, t).
Proof. intros Ht Hm. unfold skip_mods_and_typedefs. rewrite Ht. cbn [mbind option_bind]. destruct (Z.to_nat _); cbn [skip_loop]; by rewrite Hm. Qed.

Lemma skip_valid id id' t' :
  skip_mods_and_typedefs b id = Some (id', t') -> btf__type_by_id b id' = Some t' /\ skip_mods_and_typedefs b id' = Some (id', t').
Proof.
  intros Hs. assert (Hv : is_Some (btf__type_by_id b id)).
  { unfold skip_mods_and_typedefs in Hs. destruct (btf__type_by_id b id); [by eexists | done]. }
  destruct (skip_spec id Hv) as (id2 & t2 & H1 & H2 & H3). rewrite Hs in H1. injection H1 as -> ->. split; [done |].
  by apply skip_done.
Qed.
End Skip.

(** ** The relation *)
Section Compat.
Context (lb tb : btf).

(** The kinds of which any two types are compatible. *)
Definition leaf_kind (k : btf_kind_t) : bool :=
  match k with
  | BTF_KIND_UNKN | BTF_KIND_STRUCT | BTF_KIND_UNION | BTF_KIND_ENUM | BTF_KIND_FWD | BTF_KIND_ENUM64 => true
  | _ => false
  end.

Inductive compatible : Z -> Z -> Prop :=
  | compat_types l t l' lt t' tt :
      skip_mods_and_typedefs lb l = Some (l', lt) -> skip_mods_and_typedefs tb t = Some (t', tt) ->
      btf_kind_core_compat lt tt = true -> compatible_kind lt tt -> compatible l t
with compatible_kind : btf_type -> btf_type -> Prop :=
  | compat_named lt tt :
      leaf_kind (btf_kind lt) = true -> compatible_kind lt tt
  | compat_int lt tt :
      btf_kind lt = BTF_KIND_INT -> btf_int_offset lt = Some 0 -> btf_int_offset tt = Some 0 -> compatible_kind lt tt
  | compat_ptr lt tt : btf_kind lt = BTF_KIND_PTR -> compatible (t_type lt) (t_type tt) -> compatible_kind lt tt
  | compat_array lt tt la ta :
      btf_kind lt = BTF_KIND_ARRAY -> btf_array lt = Some la -> btf_array tt = Some ta ->
      compatible (array_type la) (array_type ta) -> compatible_kind lt tt
  | compat_proto lt tt :
      btf_kind lt = BTF_KIND_FUNC_PROTO -> btf_vlen lt = btf_vlen tt ->
      (forall i lp tp, 0 <= i < btf_vlen lt -> btf_param lt i = Some lp -> btf_param tt i = Some tp ->
         compatible (param_type lp) (param_type tp)) ->
      compatible (t_type lt) (t_type tt) -> compatible_kind lt tt.

(** Every chain of pointers, arrays, parameters and results ends within [d] steps. *)
Fixpoint shallow (d : nat) (id : Z) : Prop :=
  match d with
  | O => False
  | S d =>
      forall id' t, skip_mods_and_typedefs lb id = Some (id', t) ->
        match btf_kind t with
        | BTF_KIND_PTR => shallow d (t_type t)
        | BTF_KIND_ARRAY => forall a, btf_array t = Some a -> shallow d (array_type a)
        | BTF_KIND_FUNC_PROTO =>
            (forall i p, 0 <= i < btf_vlen t -> btf_param t i = Some p -> shallow d (param_type p)) /\ shallow d (t_type t)
        | _ => True
        end
  end.

(** An answer: yes, no, or too deep, which it is not when [d]. *)
Definition verdict (d : Prop) (r : Z) (P : Prop) : Prop :=
  (r = 1 /\ P) \/ (r = 0 /\ ~ P) \/ (r = - EINVAL /\ ~ d).

Lemma verdict_bool (d : Prop) (x : bool) (P : Prop) : (x = true <-> P) -> verdict d (Z.b2z x) P.
Proof. intros HP. destruct x; [left; split; [done | by apply HP] | right; left; split; [done |]]. intros Hp. by apply HP in Hp. Qed.

Lemma verdict_weaken (d d' : Prop) r (P P' : Prop) : (d' -> d) -> (P <-> P') -> verdict d r P -> verdict d' r P'.
Proof. intros Hd HP [[-> ?] | [[-> ?] | [-> ?]]]; [left | right; left | right; right]; tauto. Qed.

#[export] Instance verdict_proper : Proper (iff ==> eq ==> iff ==> iff) verdict.
Proof. intros d d' Hd r r' -> P P' HP. unfold verdict. by rewrite Hd, HP. Qed.

Lemma verdict_no (d P : Prop) : ~ P -> verdict d 0 P.
Proof. intros. by right; left. Qed.

Lemma compatible_inv l t l' lt t' tt :
  skip_mods_and_typedefs lb l = Some (l', lt) -> skip_mods_and_typedefs tb t = Some (t', tt) ->
  compatible l t <-> btf_kind_core_compat lt tt = true /\ compatible_kind lt tt.
Proof.
  intros Hl Ht. split.
  - intros Hc. inversion Hc as [? ? l2 lt2 t2 tt2 Hl2 Ht2 Hk Hck]; subst. rewrite Hl in Hl2. rewrite Ht in Ht2.
    injection Hl2 as <- <-. injection Ht2 as <- <-. done.
  - intros [H1 H2]. by econstructor.
Qed.

Lemma shallow_step d l l' lt :
  skip_mods_and_typedefs lb l = Some (l', lt) -> shallow d l ->
  match btf_kind lt with
  | BTF_KIND_PTR => shallow (pred d) (t_type lt)
  | BTF_KIND_ARRAY => forall a, btf_array lt = Some a -> shallow (pred d) (array_type a)
  | BTF_KIND_FUNC_PROTO =>
      (forall i p, 0 <= i < btf_vlen lt -> btf_param lt i = Some p -> shallow (pred d) (param_type p)) /\
      shallow (pred d) (t_type lt)
  | _ => True
  end.
Proof. destruct d as [|d]; [intros _ [] |]. intros Hs Hd. exact (Hd _ _ Hs). Qed.

Lemma compatible_kinds lt tt : compatible_kind lt tt ->
  match btf_kind lt with
  | BTF_KIND_UNKN | BTF_KIND_STRUCT | BTF_KIND_UNION | BTF_KIND_ENUM | BTF_KIND_FWD | BTF_KIND_ENUM64 => True
  | BTF_KIND_INT => btf_int_offset lt = Some 0 /\ btf_int_offset tt = Some 0
  | BTF_KIND_PTR => compatible (t_type lt) (t_type tt)
  | BTF_KIND_ARRAY => exists la ta, btf_array lt = Some la /\ btf_array tt = Some ta /\ compatible (array_type la) (array_type ta)
  | BTF_KIND_FUNC_PROTO =>
      btf_vlen lt = btf_vlen tt /\
      (forall i lp tp, 0 <= i < btf_vlen lt -> btf_param lt i = Some lp -> btf_param tt i = Some tp ->
         compatible (param_type lp) (param_type tp)) /\
      compatible (t_type lt) (t_type tt)
  | _ => False
  end.
Proof.
  intros [lt' tt' Hk | lt' tt' Hk H1 H2 | lt' tt' Hk H1 | lt' tt' la ta Hk H1 H2 H3 | lt' tt' Hk H1 H2 H3].
  - unfold leaf_kind in Hk. destruct (btf_kind lt'); (exact I || discriminate).
  - rewrite Hk. exact (conj H1 H2).
  - rewrite Hk. exact H1.
  - rewrite Hk. exists la, ta. exact (conj H1 (conj H2 H3)).
  - rewrite Hk. exact (conj H1 (conj H2 H3)).
Qed.

Lemma core_compat_kind lt tt : btf_kind_core_compat lt tt = true -> btf_is_any_enum lt = false -> btf_kind tt = btf_kind lt.
Proof.
  unfold btf_kind_core_compat. intros Hc Hn. rewrite Hn in Hc. cbn in Hc. rewrite orb_false_r in Hc.
  by apply bool_decide_eq_true_1 in Hc.
Qed.
End Compat.

Lemma shallow_skip lb `{CoreBtf lb} l l' lt d :
  skip_mods_and_typedefs lb l = Some (l', lt) -> shallow lb d l -> shallow lb d l'.
Proof.
  intros Hs. destruct d as [|d]; [done |]. intros Hd id' t Hid. apply (Hd id' t).
  apply skip_valid in Hs as Hv; [|done]. destruct Hv as [_ Hv]. congruence.
Qed.

Lemma compatible_skip lb tb `{CoreBtf lb} `{CoreBtf tb} l t l' lt t' tt :
  skip_mods_and_typedefs lb l = Some (l', lt) -> skip_mods_and_typedefs tb t = Some (t', tt) ->
  compatible lb tb l' t' <-> compatible lb tb l t.
Proof.
  intros Hl Ht. pose proof (skip_valid lb _ _ _ Hl) as [_ Hl']. pose proof (skip_valid tb _ _ _ Ht) as [_ Ht'].
  rewrite (compatible_inv lb tb l t _ _ _ _ Hl Ht). by rewrite (compatible_inv lb tb l' t' _ _ _ _ Hl' Ht').
Qed.

Section CompatLoop.
Context (lb tb : btf) `{CoreBtf lb} `{CoreBtf tb}.

Definition valid_ids (l t : Z) : Prop := is_Some (btf__type_by_id lb l) /\ is_Some (btf__type_by_id tb t).

(** The call at the level below, [level] being the levels left. *)
Definition sub_ok (sub : option (Z -> Z -> option Z)) (level : nat) : Prop :=
  match sub with
  | None => level = O
  | Some f => exists n, level = S n /\ forall l t l' lt t' tt,
      skip_mods_and_typedefs lb l = Some (l', lt) -> skip_mods_and_typedefs tb t = Some (t', tt) ->
      exists r, f l' t' = Some r /\ forall d, (d <= n)%nat -> verdict (shallow lb d l) r (compatible lb tb l t)
  end.

Lemma compat_params_spec sub level lt tt lid tid n i :
  sub_ok sub level -> btf__type_by_id lb lid = Some lt -> btf__type_by_id tb tid = Some tt ->
  btf_kind lt = BTF_KIND_FUNC_PROTO -> btf_kind tt = BTF_KIND_FUNC_PROTO -> btf_vlen lt = btf_vlen tt ->
  0 <= i -> i + Z.of_nat n = btf_vlen lt ->
  exists r, compat_params lb tb sub n i lt tt = Some r /\ forall d, (d <= level)%nat ->
    verdict (forall j p, i <= j < btf_vlen lt -> btf_param lt j = Some p -> shallow lb (pred d) (param_type p)) r
      (forall j lp tp, i <= j < btf_vlen lt -> btf_param lt j = Some lp -> btf_param tt j = Some tp ->
         compatible lb tb (param_type lp) (param_type tp)).
Proof.
  intros Hsub Hl Ht Hkl Hkt Hv. revert i. induction n as [|n IH]; intros i Hi Hn; cbn [compat_params].
  - exists 1. split; [done |]. intros d Hd. left. split; [done |]. intros j lp tp Hj. lia.
  - destruct (core_param lb lid lt i Hl Hkl ltac:(lia)) as (lp & Hlp & Hlv). destruct sub as [f|].
    2: { exists (- EINVAL). split; [done |]. intros d Hd. right; right. split; [done |]. cbn in Hsub. subst level.
         assert (d = O) as -> by lia. intros Hsh. apply (Hsh i lp); [lia | done]. }
    destruct (core_param tb tid tt i Ht Hkt ltac:(lia)) as (tp & Htp & Htv).
    rewrite Hlp, Htp. cbn [mbind option_bind].
    destruct (skip_spec lb _ Hlv) as (l' & lt' & Hsl & _). destruct (skip_spec tb _ Htv) as (t' & tt' & Hst & _).
    rewrite Hsl, Hst. cbn [mbind option_bind]. destruct Hsub as (m & -> & Hf).
    destruct (Hf _ _ _ _ _ _ Hsl Hst) as (r & -> & Hr). cbn [mbind option_bind].
    destruct (r <=? 0) eqn:Er.
    + exists r. split; [done |]. intros d Hd. destruct (Hr (pred d) ltac:(lia)) as [[-> _] | [[-> Hno] | [-> Hno]]]; [done | |].
      * right; left. split; [done |]. intros Hall. apply Hno. eapply (Hall i); (done || lia).
      * right; right. split; [done |]. intros Hall. apply Hno. eapply (Hall i); (done || lia).
    + destruct (IH (i + 1) ltac:(lia) ltac:(lia)) as (r2 & -> & Hr2). exists r2. split; [done |]. intros d Hd.
      assert (Hyes : compatible lb tb (param_type lp) (param_type tp)).
      { destruct (Hr (pred d) ltac:(lia)) as [[_ ?] | [[-> _] | [-> _]]]; done. }
      specialize (Hr2 d Hd). revert Hr2. apply verdict_weaken.
      * intros Hsh j p Hj. apply Hsh. lia.
      * split; intros Hall j lp2 tp2 Hj H1 H2; [|by apply (Hall j); [lia | |]].
        destruct (decide (j = i)) as [->|Hne]; [|by apply (Hall j); [lia | |]]. rewrite Hlp in H1. rewrite Htp in H2.
        by injection H1 as <-; injection H2 as <-.
Qed.

Lemma verdict_leaf (d : Prop) lt tt :
  leaf_kind (btf_kind lt) = true -> verdict d 1 (compatible_kind lb tb lt tt).
Proof. intros Hk. left. split; [done |]. by constructor. Qed.

Definition rec_ok (rec : Z -> Z -> option Z) (depth level : nat) : Prop :=
  forall l t, valid_ids l t -> exists r, rec l t = Some r /\ forall d, (d <= depth)%nat -> (d <= level)%nat ->
    verdict (shallow lb d l) r (compatible lb tb l t).

Section Switch.
Context (sub : option (Z -> Z -> option Z)) (rec : Z -> Z -> option Z) (depth level : nat).
Context (l l' t' : Z) (lt tt : btf_type).
Hypothesis (Hsub : sub_ok sub level) (Hrec : rec_ok rec depth level).
Hypothesis (Hsl : skip_mods_and_typedefs lb l = Some (l', lt)).
Hypothesis (Hlt : btf__type_by_id lb l' = Some lt) (Htt : btf__type_by_id tb t' = Some tt).

Lemma compat_proto_spec :
  btf_kind lt = BTF_KIND_FUNC_PROTO -> btf_kind tt = BTF_KIND_FUNC_PROTO ->
  exists r, compat_switch lb tb sub rec lt tt = Some r /\ forall d, (d <= S depth)%nat -> (d <= level)%nat ->
    verdict (shallow lb d l) r (compatible_kind lb tb lt tt).
Proof.
  intros Hk Hkind. unfold compat_switch. rewrite Hk. pose proof (fun d => shallow_step lb d l l' lt Hsl) as Hsh. rewrite Hk in Hsh.
  destruct (btf_vlen lt =? btf_vlen tt) eqn:Ev; cbn [negb].
  2: { exists 0. split; [done |]. intros. apply verdict_no. intros Hc%compatible_kinds. rewrite Hk in Hc. lia. }
  pose proof (vlen_range lt).
  destruct (compat_params_spec sub level lt tt l' t' (Z.to_nat (btf_vlen lt)) 0 Hsub Hlt Htt Hk Hkind) as (r & -> & Hr); [lia.. |].
  cbn [mbind option_bind].
  assert (Hpar : compatible_kind lb tb lt tt <->
    (forall j lp tp, 0 <= j < btf_vlen lt -> btf_param lt j = Some lp -> btf_param tt j = Some tp ->
       compatible lb tb (param_type lp) (param_type tp)) /\ compatible lb tb (t_type lt) (t_type tt)).
  { split; [intros Hc%compatible_kinds; rewrite Hk in Hc; tauto |]. intros [Hp Hret]. apply compat_proto; try done. lia. }
  setoid_rewrite Hpar. destruct (r <=? 0) eqn:Er.
  + exists r. split; [done |]. intros d Hd Hlev.
    destruct (Hr d Hlev) as [[-> _] | [[-> Hno] | [-> Hno]]]; [done | apply verdict_no; tauto |].
    right; right. split; [done |]. intros Hd'%Hsh. tauto.
  + assert (Hvl : is_Some (btf__type_by_id lb (t_type lt))) by (apply (core_type lb l' lt Hlt); rewrite Hk; left).
    assert (Hvt : is_Some (btf__type_by_id tb (t_type tt))) by (apply (core_type tb t' tt Htt); rewrite Hkind; left).
    destruct (skip_spec lb _ Hvl) as (l2 & lt2 & Hsl2 & Hlt2 & _). destruct (skip_spec tb _ Hvt) as (t2 & tt2 & Hst2 & Htt2 & _).
    rewrite Hsl2, Hst2. cbn [mbind option_bind]. destruct (Hrec l2 t2) as (r2 & Hr2 & Hv2); [by split; eexists |].
    exists r2. split; [exact Hr2 |]. intros d Hd Hlev.
    eapply verdict_weaken; [| | exact (Hv2 (pred d) ltac:(lia) ltac:(lia))].
    * intros [_ Hd']%Hsh. exact (shallow_skip lb _ _ _ _ Hsl2 Hd').
    * destruct (Hr d Hlev) as [[_ Hp] | [[-> _] | [-> _]]]; [| done | done].
      rewrite (compatible_skip lb tb (t_type lt) (t_type tt) l2 lt2 t2 tt2) by done. tauto.
Qed.

Lemma compat_switch_spec :
  btf_kind_core_compat lt tt = true ->
  exists r, compat_switch lb tb sub rec lt tt = Some r /\ forall d, (d <= S depth)%nat -> (d <= level)%nat ->
    verdict (shallow lb d l) r (compatible_kind lb tb lt tt).
Proof.
  intros Hcc. pose proof compat_proto_spec as Hproto. unfold compat_switch in *.
  pose proof (core_compat_kind lt tt Hcc) as Hkind. unfold btf_is_any_enum in Hkind.
  pose proof (fun d => shallow_step lb d l l' lt Hsl) as Hsh.
  destruct (btf_kind lt) eqn:Hk; try (exists 1; split; [done |]; intros; apply verdict_leaf; rewrite Hk; reflexivity);
    try (exists 0; split; [done |]; intros; apply verdict_no; intros Hc%compatible_kinds; rewrite Hk in Hc; exact Hc);
    specialize (Hkind eq_refl).
  - destruct (core_int lb l' lt Hlt Hk) as [ld Hld]. destruct (core_int tb t' tt Htt Hkind) as [td Htd].
    unfold btf_int_offset in *. rewrite Hld, Htd. cbn [mbind option_bind fmap option_fmap option_map].
    eexists. split; [reflexivity |]. intros. apply verdict_bool. rewrite andb_true_iff, !Z.eqb_eq. split.
    + intros [Hlo Hto]. apply compat_int; unfold btf_int_offset; rewrite ?Hld, ?Htd; cbn; congruence.
    + intros Hc%compatible_kinds. rewrite Hk in Hc. unfold btf_int_offset in Hc. rewrite Hld, Htd in Hc. cbn in Hc.
      destruct Hc. split; congruence.
  - destruct (Hrec (t_type lt) (t_type tt)) as (r & Hr & Hv).
    { split; [apply (core_type lb l' lt Hlt); rewrite Hk | apply (core_type tb t' tt Htt); rewrite Hkind]; left. }
    exists r. split; [exact Hr |]. intros d Hd Hlev. eapply verdict_weaken; [exact (Hsh d) | | apply Hv; lia].
    split; [by apply compat_ptr | intros Hc%compatible_kinds; by rewrite Hk in Hc].
  - destruct (core_array lb l' lt Hlt Hk) as (la & Hla & Hvl). destruct (core_array tb t' tt Htt Hkind) as (ta & Hta & Hvt).
    rewrite Hla, Hta. cbn [mbind option_bind]. destruct (Hrec (array_type la) (array_type ta)) as (r & Hr & Hv); [done |].
    exists r. split; [exact Hr |]. intros d Hd Hlev.
    eapply verdict_weaken; [exact (fun hs => Hsh d hs la Hla) | | apply Hv; lia].
    split; [by eapply compat_array | intros Hc%compatible_kinds; rewrite Hk in Hc].
    destruct Hc as (la' & ta' & H1' & H2' & Hc). congruence.
  - exact (Hproto eq_refl Hkind).
Qed.
End Switch.

Lemma compat_loop_spec sub level depth : sub_ok sub level -> rec_ok (compat_loop lb tb sub depth) depth level.
Proof.
  intros Hsub. induction depth as [|depth IH]; intros l t [Hl Ht]; cbn [compat_loop].
  { exists (- EINVAL). split; [done |]. intros d Hd _. right; right. split; [done |]. assert (d = O) as -> by lia. exact (fun f => f). }
  destruct (skip_spec lb l Hl) as (l' & lt & Hsl & Hlt & _). destruct (skip_spec tb t Ht) as (t' & tt & Hst & Htt & _).
  rewrite Hsl, Hst. cbn [mbind option_bind].
  pose proof (compatible_inv lb tb l t l' lt t' tt Hsl Hst) as Hinv.
  destruct (btf_kind_core_compat lt tt) eqn:Hcc; cbn [negb].
  2: { exists 0. split; [done |]. intros. apply verdict_no. rewrite Hinv. by intros [? _]. }
  assert (Hinv' : compatible lb tb l t <-> compatible_kind lb tb lt tt) by tauto. setoid_rewrite Hinv'.
  by apply (compat_switch_spec sub (compat_loop lb tb sub depth) depth level l l' t' lt tt).
Qed.
End CompatLoop.

(** ** The decision *)

(** The kinds of the types as given agree, before modifiers and typedefs are skipped. *)
Definition root_compat (lb tb : btf) (l t : Z) : Prop :=
  exists lt tt, btf__type_by_id lb l = Some lt /\ btf__type_by_id tb t = Some tt /\ btf_kind_core_compat lt tt = true.

Lemma type_by_id_checked b id t : btf__type_by_id b id = Some t -> btf_type_by_id b id = Some t.
Proof. unfold btf__type_by_id. by case_match. Qed.

(** The call at one level, given the calls at the level below. *)
Lemma compat_level lb tb `{CoreBtf lb} `{CoreBtf tb} sub level l t :
  sub_ok lb tb sub level -> (level <= MAX_CORE_DEPTH)%nat -> valid_ids lb tb l t ->
  exists r, (local_type ← btf_type_by_id lb l; targ_type ← btf_type_by_id tb t;
      if negb (btf_kind_core_compat local_type targ_type) then Some 0 else compat_loop lb tb sub MAX_CORE_DEPTH l t) = Some r /\
    forall d, (d <= level)%nat -> verdict (shallow lb d l) r (root_compat lb tb l t /\ compatible lb tb l t).
Proof.
  intros Hsub Hlev Hv. pose proof Hv as [[lt Hlt] [tt Htt]].
  rewrite (type_by_id_checked _ _ _ Hlt), (type_by_id_checked _ _ _ Htt). cbn [mbind option_bind].
  destruct (btf_kind_core_compat lt tt) eqn:Hcc; cbn [negb].
  - destruct (compat_loop_spec lb tb sub level MAX_CORE_DEPTH Hsub l t Hv) as (r & Hr & Hver). exists r. split; [exact Hr |].
    intros d Hd. eapply verdict_weaken; [exact (fun h => h) | | apply Hver; lia].
    split; [|tauto]. intros Hc. split; [by exists lt, tt | done].
  - exists 0. split; [done |]. intros. apply verdict_no. intros [(lt2 & tt2 & Hl2 & Ht2 & Hc) _]. congruence.
Qed.

Lemma types_are_compat_ok lb tb `{CoreBtf lb} `{CoreBtf tb} level l t :
  (level <= MAX_CORE_DEPTH)%nat -> valid_ids lb tb l t ->
  exists r, __bpf_core_types_are_compat lb tb level l t = Some r /\ forall d, (d <= level)%nat ->
    verdict (shallow lb d l) r (root_compat lb tb l t /\ compatible lb tb l t).
Proof.
  revert l t. induction level as [|level IH]; intros l t Hlev Hv; cbn [__bpf_core_types_are_compat].
  { by apply compat_level. }
  apply compat_level; [done | done | | done | done]. exists level. split; [done |]. intros l2 t2 l' lt t' tt Hl Ht.
  pose proof (skip_valid lb _ _ _ Hl) as [Hvl Hl']. pose proof (skip_valid tb _ _ _ Ht) as [Hvt Ht'].
  destruct (IH l' t' ltac:(lia)) as (r & Hr & Hver); [by split; eexists |]. exists r. split; [exact Hr |]. intros d Hd.
  eapply verdict_weaken; [exact (shallow_skip lb _ _ _ d Hl) | | exact (Hver d Hd)].
  rewrite (compatible_skip lb tb l2 t2 l' lt t' tt Hl Ht). split; [tauto |]. intros Hc. split; [|done].
  exists lt, tt. split_and!; [done.. |]. by apply (compatible_inv lb tb l2 t2 l' lt t' tt Hl Ht) in Hc as [? _].
Qed.

(** C30: on BTF whose references exist and are acyclic, [bpf_core_types_are_compat] always
    returns 1 or 0, or [-EINVAL], the last only for types nested 32 levels deep or more.
    It is 1 exactly if the two types as they are given have the same kind ([root_compat],
    where modifiers and typedefs are not looked through) and are related by [compatible]:
    below the root modifiers and typedefs are skipped, kinds agree, pointers, array elements,
    return types and parameters are compatible in turn, and integers have no bit offset.
    The comment of the function says neither that modifiers and typedefs of the root
    count nor that integers with an offset are refused. *)
Theorem bpf_core_types_are_compat_spec lb tb `{CoreBtf lb} `{CoreBtf tb} local_id targ_id :
  is_Some (btf__type_by_id lb local_id) -> is_Some (btf__type_by_id tb targ_id) ->
  exists r, bpf_core_types_are_compat lb tb local_id targ_id = Some r /\
    ((r = 1 /\ root_compat lb tb local_id targ_id /\ compatible lb tb local_id targ_id) \/
     (r = 0 /\ ~ (root_compat lb tb local_id targ_id /\ compatible lb tb local_id targ_id)) \/
     (r = - EINVAL /\ ~ shallow lb 32 local_id)).
Proof.
  intros Hl Ht. destruct (types_are_compat_ok lb tb 32 local_id targ_id) as (r & Hr & Hv); [done | done |].
  exists r. split; [exact Hr |]. exact (Hv 32%nat ltac:(done)).
Qed.

Lemma bpf_core_types_are_compat_spec_witness :
  root_compat demo_local demo_targ 7 7 /\ compatible demo_local demo_targ 7 7.
Proof.
  destruct (bpf_core_types_are_compat_spec demo_local demo_targ 7 7) as (r & Hr & Hcase); [by eexists.. |].
  assert (Hr1 : Some r = Some 1) by (rewrite <- Hr; vm_compute; reflexivity). injection Hr1 as ->.
  destruct Hcase as [[_ Hc] | [[H0 _] | [H0 _]]]; [exact Hc | discriminate | discriminate].
Defined.

(** ** Symmetry *)
Lemma strncmp_opp n a c : strncmp n a c = - strncmp n c a.
Proof.
  revert a c. induction n as [|n IH]; intros [|x a] [|y c]; cbn [strncmp]; try lia.
  rewrite (Z.eqb_sym y). destruct (x =? y) eqn:E; [apply IH | lia].
Qed.

Lemma core_compat_sym lt tt : btf_kind_core_compat lt tt = btf_kind_core_compat tt lt.
Proof.
  unfold btf_kind_core_compat. rewrite (andb_comm (btf_is_any_enum lt)). f_equal. apply bool_decide_ext. done.
Qed.

(** What two steps read, in either order. *)
Lemma bind2_ext {A B C} (x : option A) (y : option B) (f : A -> B -> option C) (g : B -> A -> option C) :
  (forall a b, x = Some a -> y = Some b -> f a b = g b a) -> (a ← x; b ← y; f a b) = (b ← y; a ← x; g b a).
Proof. intros Hfg. destruct x, y; cbn; try done. by apply Hfg. Qed.

(** The same for steps that give pairs. *)
Ltac both_steps :=
  match goal with
  | |- (mbind _ ?x) = (mbind _ ?y) => destruct x as [[? ?]|], y as [[? ?]|]; cbn [mbind option_bind]; try reflexivity
  end.

Lemma compat_params_sym lb tb sub sub' n i lt tt :
  match sub, sub' with
  | None, None => True | Some f, Some g => forall l t, f l t = g t l | _, _ => False
  end -> compat_params lb tb sub n i lt tt = compat_params tb lb sub' n i tt lt.
Proof.
  intros Hsub. revert i. induction n as [|n IH]; intros i; [done |]. cbn [compat_params].
  destruct sub as [f|], sub' as [g|]; try done. apply bind2_ext. intros lp tp _ _.
  both_steps. rewrite Hsub. destruct (g _ _); cbn; [|done]. case_match; [done | apply IH].
Qed.

Lemma enum_kinds lt tt :
  btf_kind_core_compat lt tt = true ->
  btf_kind lt = btf_kind tt \/ (btf_is_any_enum lt = true /\ btf_is_any_enum tt = true).
Proof.
  unfold btf_kind_core_compat. intros [Hb | He]%orb_true_iff; [left; by apply bool_decide_eq_true_1 in Hb | right].
  by apply andb_true_iff in He.
Qed.

Lemma compat_switch_sym lb tb sub sub' rec rec' lt tt :
  match sub, sub' with
  | None, None => True | Some f, Some g => forall l t, f l t = g t l | _, _ => False
  end -> (forall l t, rec l t = rec' t l) -> btf_kind_core_compat lt tt = true ->
  compat_switch lb tb sub rec lt tt = compat_switch tb lb sub' rec' tt lt.
Proof.
  intros Hsub Hrec Hc. unfold compat_switch. destruct (enum_kinds lt tt Hc) as [Hk | [Hl Ht]].
  - rewrite <- Hk. destruct (btf_kind lt); try reflexivity.
    + apply bind2_ext. intros x y _ _. by rewrite andb_comm.
    + apply Hrec.
    + apply bind2_ext. intros x y _ _. apply Hrec.
    + rewrite (Z.eqb_sym (btf_vlen tt)). destruct (btf_vlen lt =? btf_vlen tt) eqn:Ev; cbn [negb]; [|done].
      apply Z.eqb_eq in Ev. rewrite <- Ev. rewrite (compat_params_sym lb tb sub sub') by done.
      destruct (compat_params tb lb sub' _ _ _ _); cbn [mbind option_bind]; [|done]. destruct (_ <=? 0); [done |].
      both_steps. apply Hrec.
  - unfold btf_is_any_enum in Hl, Ht. destruct (btf_kind lt); try discriminate; destruct (btf_kind tt); try discriminate; reflexivity.
Qed.

Lemma compat_loop_sym lb tb sub sub' depth l t :
  match sub, sub' with
  | None, None => True | Some f, Some g => forall l t, f l t = g t l | _, _ => False
  end -> compat_loop lb tb sub depth l t = compat_loop tb lb sub' depth t l.
Proof.
  intros Hsub. revert l t. induction depth as [|depth IH]; intros l t; [done |]. cbn [compat_loop].
  destruct (skip_mods_and_typedefs lb l) as [[l' lt]|], (skip_mods_and_typedefs tb t) as [[t' tt]|]; cbn [mbind option_bind]; try done.
  rewrite (core_compat_sym tt lt). destruct (btf_kind_core_compat lt tt) eqn:Hc; [|done]. cbn [negb].
  by apply compat_switch_sym.
Qed.

Lemma types_are_compat_sym lb tb level l t :
  __bpf_core_types_are_compat lb tb level l t = __bpf_core_types_are_compat tb lb level t l.
Proof.
  revert l t. induction level as [|level IH]; intros l t; cbn [__bpf_core_types_are_compat]; apply bind2_ext; intros lt tt _ _;
    rewrite (core_compat_sym tt lt); (destruct (btf_kind_core_compat lt tt); [|done]); cbn [negb]; by apply compat_loop_sym.
Qed.

(** ** Fields *)
Lemma skip_rank b `{CoreBtf b} rank id id' t' :
  (forall id t, btf__type_by_id b id = Some t -> forall w, unbounded_ref t = Some w -> (rank w < rank id)%nat) ->
  (rank id <= Z.to_nat (btf__type_cnt b))%nat -> skip_mods_and_typedefs b id = Some (id', t') -> (rank id' <= rank id)%nat.
Proof.
  intros Hr Hid Hs. unfold skip_mods_and_typedefs in Hs. destruct (btf__type_by_id b id) as [t|] eqn:Ht; [|done].
  cbn [mbind option_bind] in Hs. destruct (skip_loop_spec b rank _ id t Hr Ht Hid) as (id2 & t2 & H1 & _ & _ & H4). congruence.
Qed.

Lemma core_array_rank b rank id t a :
  (forall id t, btf__type_by_id b id = Some t -> forall w, unbounded_ref t = Some w -> (rank w < rank id)%nat) ->
  btf__type_by_id b id = Some t -> btf_kind t = BTF_KIND_ARRAY -> btf_array t = Some a -> (rank (array_type a) < rank id)%nat.
Proof.
  intros Hr Ht Hk Ha. apply (Hr id t Ht). unfold unbounded_ref, btf_is_mod, btf_is_typedef, btf_is_array. rewrite Hk, Ha. done.
Qed.

Lemma essential_equal_sym a c : essential_equal a c = essential_equal c a.
Proof.
  unfold essential_equal. rewrite (Z.eqb_sym (bpf_core_essential_name_len c)).
  destruct (_ =? _) eqn:E; [|done]. apply Z.eqb_eq in E. rewrite E. cbn [andb]. rewrite (strncmp_opp _ c a).
  apply eq_true_iff_eq. rewrite !Z.eqb_eq. lia.
Qed.

(** ** Names without flavors *)
Definition essential (name : list Z) : list Z := ztake (bpf_core_essential_name_len name) name.

Lemma essential_loop_range k name : Z.of_nat k <= zlen name -> 0 <= essential_loop k name <= zlen name.
Proof.
  pose proof (zlen_nonneg name). induction k as [|k IH]; intros Hk; cbn [essential_loop]; [lia |].
  destruct (bpf_core_is_flavor_sep name (Z.of_nat k)); [lia | apply IH; lia].
Qed.

Lemma essential_len_range name : 0 <= bpf_core_essential_name_len name <= zlen name.
Proof. unfold bpf_core_essential_name_len. pose proof (zlen_nonneg name). apply essential_loop_range. lia. Qed.

Lemma zlen_essential name : zlen (essential name) = bpf_core_essential_name_len name.
Proof. pose proof (essential_len_range name). unfold essential. rewrite zlen_ztake; lia. Qed.

Lemma strncmp_eq n a c : pos_str a -> pos_str c -> strncmp n a c = 0 <-> take n a = take n c.
Proof.
  revert a c. induction n as [|n IH]; intros a c Ha Hc; [done |]. destruct a as [|x a], c as [|y c]; cbn [strncmp take]; [done | | |].
  - apply Forall_cons in Hc as [Hy _]. split; [lia | done].
  - apply Forall_cons in Ha as [Hx _]. split; [lia | done].
  - apply Forall_cons in Ha as [_ Ha]. apply Forall_cons in Hc as [_ Hc]. destruct (x =? y) eqn:E.
    + apply Z.eqb_eq in E as ->. rewrite (IH a c Ha Hc). split; [by intros -> | by intros [=]].
    + split; [lia | intros [= ? _]; lia].
Qed.

Lemma essential_equal_iff a c : pos_str a -> pos_str c -> essential_equal a c = true <-> essential a = essential c.
Proof.
  intros Ha Hc. unfold essential_equal. rewrite andb_true_iff, !Z.eqb_eq, strncmp_eq by done. unfold essential, ztake. split.
  - intros [H1 H2]. rewrite <- H1. done.
  - intros He. assert (Hz : zlen (essential a) = zlen (essential c)) by (unfold essential, ztake; by rewrite He).
    rewrite !zlen_essential in Hz. split; [done |]. by rewrite Hz in He |- *.
Qed.

(** ** What the comparison of fields decides *)
Section Fields.
Context (lb tb : btf).

(** The names of two types. *)
Definition type_names (lt tt : btf_type) (P : list Z -> list Z -> Prop) : Prop :=
  exists ln tn, name_str lb (name_off lt) = Some (Some ln) /\ name_str tb (name_off tt) = Some (Some tn) /\ P ln tn.

Inductive field_compatible : Z -> Z -> Prop :=
  | field_types l t l' lt t' tt :
      skip_mods_and_typedefs lb l = Some (l', lt) -> skip_mods_and_typedefs tb t = Some (t', tt) ->
      field_kind lt tt -> field_compatible l t
with field_kind : btf_type -> btf_type -> Prop :=
  | field_composite lt tt : btf_is_composite lt = true -> btf_is_composite tt = true -> field_kind lt tt
  | field_ptr lt tt : btf_kind lt = BTF_KIND_PTR -> btf_kind tt = BTF_KIND_PTR -> field_kind lt tt
  | field_float lt tt : btf_kind lt = BTF_KIND_FLOAT -> btf_kind tt = BTF_KIND_FLOAT -> field_kind lt tt
  | field_enum lt tt :
      btf_is_any_enum lt = true -> btf_is_any_enum tt = true ->
      type_names lt tt (fun ln tn => essential ln = [] \/ essential tn = [] \/ essential ln = essential tn) -> field_kind lt tt
  | field_fwd lt tt :
      btf_kind lt = BTF_KIND_FWD -> btf_kind tt = BTF_KIND_FWD ->
      type_names lt tt (fun ln tn => essential ln = [] \/ essential tn = [] \/ essential ln = essential tn) -> field_kind lt tt
  | field_int lt tt :
      btf_kind lt = BTF_KIND_INT -> btf_kind tt = BTF_KIND_INT -> btf_int_offset lt = Some 0 -> btf_int_offset tt = Some 0 ->
      field_kind lt tt
  | field_array lt tt la ta :
      btf_kind lt = BTF_KIND_ARRAY -> btf_kind tt = BTF_KIND_ARRAY -> btf_array lt = Some la -> btf_array tt = Some ta ->
      field_compatible (array_type la) (array_type ta) -> field_kind lt tt.

Lemma field_compatible_inv l t l' lt t' tt :
  skip_mods_and_typedefs lb l = Some (l', lt) -> skip_mods_and_typedefs tb t = Some (t', tt) ->
  field_compatible l t <-> field_kind lt tt.
Proof.
  intros Hl Ht. split.
  - intros Hc. inversion Hc as [? ? l2 lt2 t2 tt2 Hl2 Ht2 Hk]; subst. rewrite Hl in Hl2. rewrite Ht in Ht2.
    injection Hl2 as <- <-. injection Ht2 as <- <-. done.
  - intros Hk. by econstructor.
Qed.

Lemma same_kind_compat lt tt : btf_kind lt = btf_kind tt -> btf_kind_core_compat lt tt = true.
Proof. intros E. unfold btf_kind_core_compat. by rewrite bool_decide_eq_true_2. Qed.

Lemma enums_compat lt tt : btf_is_any_enum lt = true -> btf_is_any_enum tt = true -> btf_kind_core_compat lt tt = true.
Proof. intros H1 H2. unfold btf_kind_core_compat. by rewrite H1, H2, orb_true_r. Qed.

(** The rules by the kind of the first type. *)
Lemma field_kinds lt tt :
  field_kind lt tt ->
  (btf_is_composite lt = true /\ btf_is_composite tt = true) \/
  (btf_kind_core_compat lt tt = true /\
   match btf_kind lt with
   | BTF_KIND_PTR | BTF_KIND_FLOAT => True
   | BTF_KIND_FWD | BTF_KIND_ENUM | BTF_KIND_ENUM64 =>
       type_names lt tt (fun ln tn => essential ln = [] \/ essential tn = [] \/ essential ln = essential tn)
   | BTF_KIND_INT => btf_int_offset lt = Some 0 /\ btf_int_offset tt = Some 0
   | BTF_KIND_ARRAY =>
       exists la ta, btf_array lt = Some la /\ btf_array tt = Some ta /\ field_compatible (array_type la) (array_type ta)
   | _ => False
   end).
Proof.
  intros [lt' tt' H1 H2 | lt' tt' H1 H2 | lt' tt' H1 H2 | lt' tt' H1 H2 H3 | lt' tt' H1 H2 H3 | lt' tt' H1 H2 H3 H4 |
          lt' tt' la ta H1 H2 H3 H4 H5]; [by left | right ..]; (split; [first [apply enums_compat; assumption | apply same_kind_compat; congruence] |]).
  - by rewrite H1.
  - by rewrite H1.
  - unfold btf_is_any_enum in H1. destruct (btf_kind lt'); try discriminate; exact H3.
  - by rewrite H1.
  - by rewrite H1.
  - rewrite H1. by exists la, ta.
Qed.
End Fields.

Lemma fields_names lb tb `{CoreBtf lb} `{CoreBtf tb} l t lt tt :
  btf__type_by_id lb l = Some lt -> btf__type_by_id tb t = Some tt ->
  exists r, (local_name ← name_str lb (name_off lt); targ_name ← name_str tb (name_off tt);
      local_name ← local_name; targ_name ← targ_name;
      Some (Z.b2z ((bpf_core_essential_name_len local_name =? 0) || (bpf_core_essential_name_len targ_name =? 0)
         || essential_equal local_name targ_name))) = Some (Z.b2z r) /\
    (r = true <-> type_names lb tb lt tt (fun ln tn => essential ln = [] \/ essential tn = [] \/ essential ln = essential tn)).
Proof.
  intros Hl Ht. destruct (core_name lb l lt Hl) as (ln & Hln & Hpl). destruct (core_name tb t tt Ht) as (tn & Htn & Hpt).
  rewrite Hln, Htn. cbn [mbind option_bind]. eexists. split; [reflexivity |].
  assert (Hnil : forall s, (bpf_core_essential_name_len s =? 0) = true <-> essential s = []).
  { intros s. rewrite Z.eqb_eq, <- zlen_essential. destruct (essential s) as [|x e]; [done |]. rewrite zlen_cons.
    pose proof (zlen_nonneg e). split; [lia | done]. }
  rewrite !orb_true_iff, !Hnil, essential_equal_iff by done. split.
  - intros Hor. exists ln, tn. tauto.
  - intros (ln2 & tn2 & E1 & E2 & Hor). rewrite Hln in E1. rewrite Htn in E2. injection E1 as ->. injection E2 as ->. tauto.
Qed.

(** One step on types of compatible kinds; [rec] is the comparison of array elements. *)
Lemma fields_step lb tb `{CoreBtf lb} `{CoreBtf tb} (rec : Z -> Z -> option Z) l t lt tt :
  btf__type_by_id lb l = Some lt -> btf__type_by_id tb t = Some tt ->
  btf_is_composite lt && btf_is_composite tt = false -> btf_kind_core_compat lt tt = true ->
  (btf_kind lt = BTF_KIND_ARRAY -> forall la ta, btf_array lt = Some la -> btf_array tt = Some ta ->
     is_Some (btf__type_by_id lb (array_type la)) -> is_Some (btf__type_by_id tb (array_type ta)) ->
     exists r, rec (array_type la) (array_type ta) = Some (Z.b2z r) /\
       (r = true <-> field_compatible lb tb (array_type la) (array_type ta))) ->
  exists r, fields_switch lb tb rec lt tt = Some (Z.b2z r) /\ (r = true <-> field_kind lb tb lt tt).
Proof.
  intros Hlt Htt Hcomp Hcc Hrec. unfold fields_switch.
  assert (Hno : forall P : Prop, (btf_kind_core_compat lt tt = true -> match btf_kind lt with
     | BTF_KIND_PTR | BTF_KIND_FLOAT => True
     | BTF_KIND_FWD | BTF_KIND_ENUM | BTF_KIND_ENUM64 =>
         type_names lb tb lt tt (fun ln tn => essential ln = [] \/ essential tn = [] \/ essential ln = essential tn)
     | BTF_KIND_INT => btf_int_offset lt = Some 0 /\ btf_int_offset tt = Some 0
     | BTF_KIND_ARRAY =>
         exists la ta, btf_array lt = Some la /\ btf_array tt = Some ta /\ field_compatible lb tb (array_type la) (array_type ta)
     | _ => False end -> P) -> field_kind lb tb lt tt -> P).
  { intros P HP Hk. destruct (field_kinds lb tb lt tt Hk) as [[H1 H2] | [H1 H2]]; [by rewrite H1, H2 in Hcomp | by apply HP]. }
  pose proof (core_compat_kind lt tt Hcc) as Hkind. pose proof (fields_names lb tb l t lt tt Hlt Htt) as (rn & Hrn & Hnames).
  pose proof (enum_kinds lt tt Hcc) as Hek. unfold btf_is_any_enum in Hkind.
  assert (Henum : btf_is_any_enum lt = true -> rn = true -> field_kind lb tb lt tt).
  { intros He Hn. apply field_enum; [done | | by apply Hnames]. destruct Hek as [Hek | [_ ?]]; [|done].
    unfold btf_is_any_enum in *. by rewrite <- Hek. }
  unfold btf_is_any_enum in Henum.
  destruct (btf_kind lt) eqn:Hk; try (exists false; split; [reflexivity |]; split; [discriminate | apply Hno; intros _ []]).
  - specialize (Hkind eq_refl). destruct (core_int lb l lt Hlt Hk) as [ld Hld]. destruct (core_int tb t tt Htt Hkind) as [td Htd].
    unfold btf_int_offset. rewrite Hld, Htd. cbn [mbind option_bind fmap option_fmap option_map]. eexists. split; [reflexivity |].
    rewrite andb_true_iff, !Z.eqb_eq. split.
    + intros [Hlo Hto]. apply field_int; try done; unfold btf_int_offset; rewrite ?Hld, ?Htd; cbn; congruence.
    + apply Hno. intros _. unfold btf_int_offset. rewrite Hld, Htd. cbn. intros [Hlo Hto]. split; congruence.
  - exists true. split; [reflexivity |]. split; [|done]. intros _. apply field_ptr; [done | by apply Hkind].
  - specialize (Hkind eq_refl). destruct (core_array lb l lt Hlt Hk) as (la & Hla & Hvl). destruct (core_array tb t tt Htt Hkind) as (ta & Hta & Hvt).
    rewrite Hla, Hta. cbn [mbind option_bind]. destruct (Hrec eq_refl la ta) as (r & Hr & Hiff); try done.
    exists r. split; [exact Hr |]. rewrite Hiff. split; [by eapply field_array | apply Hno].
    intros _ (la2 & ta2 & E1 & E2 & Hf). congruence.
  - exists rn. split; [exact Hrn |]. split; [by apply Henum | apply Hno; intros _; apply Hnames].
  - exists rn. split; [exact Hrn |]. split; [|apply Hno; intros _; apply Hnames]. intros Hn. apply field_fwd; [done | by apply Hkind | by apply Hnames].
  - exists true. split; [reflexivity |]. split; [|done]. intros _. apply field_float; [done | by apply Hkind].
  - exists rn. split; [exact Hrn |]. split; [by apply Henum | apply Hno; intros _; apply Hnames].
Qed.

Lemma fields_loop_spec lb tb `{CoreBtf lb} `{CoreBtf tb} rank fuel l t :
  (forall id t, btf__type_by_id lb id = Some t -> (rank id <= Z.to_nat (btf__type_cnt lb))%nat /\
     forall w, unbounded_ref t = Some w -> (rank w < rank id)%nat) ->
  valid_ids lb tb l t -> (rank l < fuel)%nat ->
  exists r, fields_compat_loop lb tb fuel l t = Some (Z.b2z r) /\ (r = true <-> field_compatible lb tb l t).
Proof.
  intros Hr. revert l t. induction fuel as [|fuel IH]; intros l t [Hl Ht] Hf; [lia |]. cbn [fields_compat_loop].
  destruct (skip_spec lb l Hl) as (l' & lt & Hsl & Hlt & _). destruct (skip_spec tb t Ht) as (t' & tt & Hst & Htt & _).
  rewrite Hsl, Hst. cbn [mbind option_bind]. setoid_rewrite (field_compatible_inv lb tb l t l' lt t' tt Hsl Hst).
  destruct (btf_is_composite lt && btf_is_composite tt) eqn:Hcomp.
  { apply andb_true_iff in Hcomp as [H1 H2]. exists true. split; [done |]. split; [|done]. intros _. by apply field_composite. }
  destruct (btf_kind_core_compat lt tt) eqn:Hcc; cbn [negb].
  2: { exists false. split; [done |]. split; [done |]. intros [[H1 H2] | [? _]]%field_kinds; [by rewrite H1, H2 in Hcomp | congruence]. }
  apply (fields_step lb tb (fields_compat_loop lb tb fuel) l' t'); try done. intros Hk la ta Hla Hta Hvl Hvt. apply IH; [done |].
  pose proof (core_array_rank lb rank l' lt la (fun i ti Hi => proj2 (Hr i ti Hi)) Hlt Hk Hla).
  destruct Hl as [lt0 Hlt0]. pose proof (skip_rank lb rank l l' lt (fun i ti Hi => proj2 (Hr i ti Hi)) (proj1 (Hr l lt0 Hlt0)) Hsl). lia.
Qed.

Lemma fields_are_compat_ok lb tb `{CoreBtf lb} `{CoreBtf tb} l t :
  valid_ids lb tb l t ->
  exists r, bpf_core_fields_are_compat lb tb l t = Some (Z.b2z r) /\ (r = true <-> field_compatible lb tb l t).
Proof.
  intros [[lt Hl] Ht]. destruct (core_acyclic (b := lb)) as [rank Hr].
  apply (fields_loop_spec lb tb rank); [exact Hr | split; [by exists lt | done] |].
  unfold fields_fuel. destruct (Hr _ _ Hl) as [Hle _]. lia.
Qed.

(** C33: on BTF whose references exist and are acyclic, [bpf_core_fields_are_compat] always
    returns, 1 for fields whose types are compatible by the rules of its comment (structs
    and unions are mixed, enums and forward declarations are compared by name without
    flavors, arrays by their elements) and 0 for others. *)
Theorem bpf_core_fields_are_compat_spec lb tb `{CoreBtf lb} `{CoreBtf tb} local_id targ_id :
  is_Some (btf__type_by_id lb local_id) -> is_Some (btf__type_by_id tb targ_id) ->
  exists r, bpf_core_fields_are_compat lb tb local_id targ_id = Some (Z.b2z r) /\
    (r = true <-> field_compatible lb tb local_id targ_id).
Proof. intros Hl Ht. by apply fields_are_compat_ok. Qed.

Lemma bpf_core_fields_are_compat_spec_witness : field_compatible demo_local demo_targ 5 5.
Proof.
  destruct (bpf_core_fields_are_compat_spec demo_local demo_targ 5 5) as (r & Hr & Hiff); [by eexists.. |].
  apply Hiff. assert (Hr1 : Some (Z.b2z r) = Some 1) by (rewrite <- Hr; vm_compute; reflexivity). by destruct r.
Defined.

Lemma fields_switch_sym lb tb rec rec' lt tt :
  (forall l t, rec l t = rec' t l) -> btf_kind_core_compat lt tt = true ->
  fields_switch lb tb rec lt tt = fields_switch tb lb rec' tt lt.
Proof.
  intros Hrec Hcc.
  assert (Hnames : forall A B : option (option (list Z)),
    (ln ← A; tn ← B; ln ← ln; tn ← tn;
     Some (Z.b2z ((bpf_core_essential_name_len ln =? 0) || (bpf_core_essential_name_len tn =? 0) || essential_equal ln tn))) =
    (tn ← B; ln ← A; tn ← tn; ln ← ln;
     Some (Z.b2z ((bpf_core_essential_name_len tn =? 0) || (bpf_core_essential_name_len ln =? 0) || essential_equal tn ln)))).
  { intros [[ln|]|] [[tn|]|]; cbn [mbind option_bind]; try done. rewrite (essential_equal_sym tn ln).
    by rewrite (orb_comm (bpf_core_essential_name_len ln =? 0)). }
  unfold fields_switch. destruct (enum_kinds lt tt Hcc) as [Hk | [Hl Ht]].
  - rewrite <- Hk. destruct (btf_kind lt); try reflexivity; try apply Hnames.
    + apply bind2_ext. intros x y _ _. by rewrite andb_comm.
    + apply bind2_ext. intros x y _ _. apply Hrec.
  - unfold btf_is_any_enum in Hl, Ht. destruct (btf_kind lt); try discriminate; destruct (btf_kind tt); try discriminate; apply Hnames.
Qed.

Lemma fields_loop_sym lb tb fuel l t : fields_compat_loop lb tb fuel l t = fields_compat_loop tb lb fuel t l.
Proof.
  revert l t. induction fuel as [|fuel IH]; intros l t; [done |]. cbn [fields_compat_loop].
  destruct (skip_mods_and_typedefs lb l) as [[l' lt]|], (skip_mods_and_typedefs tb t) as [[t' tt]|]; cbn [mbind option_bind]; try done.
  rewrite (andb_comm (btf_is_composite tt)), (core_compat_sym tt lt). destruct (_ && _); [done |].
  destruct (btf_kind_core_compat lt tt) eqn:Hcc; [|done]. cbn [negb]. by apply fields_switch_sym.
Qed.

(** Compatibility of types and of fields is symmetric: comparing the target with the
    local type gives the same answer, errors included, for any two objects. *)
Theorem core_compat_symmetric lb tb local_id targ_id :
  bpf_core_types_are_compat lb tb local_id targ_id = bpf_core_types_are_compat tb lb targ_id local_id /\
  bpf_core_fields_are_compat lb tb local_id targ_id = bpf_core_fields_are_compat tb lb targ_id local_id.
Proof.
  split; [apply types_are_compat_sym |]. unfold bpf_core_fields_are_compat, fields_fuel.
  rewrite (Nat.add_comm (Z.to_nat (btf__type_cnt tb))). apply fields_loop_sym.
Qed.

(** ** Flavors *)
Lemma chr_app_r a c i : zlen a <= i -> chr (a ++ c) i = chr c (i - zlen a).
Proof.
  intros Hi. pose proof (zlen_nonneg a). unfold chr, znth, zlen in *. replace (i <? 0) with false by lia.
  replace (i - Z.of_nat (length a) <? 0) with false by lia. rewrite lookup_app_r by lia. do 2 f_equal. lia.
Qed.

Lemma sep_app a s i : 0 <= i -> bpf_core_is_flavor_sep (a ++ s) (zlen a + i) = bpf_core_is_flavor_sep s i.
Proof.
  intros Hi. unfold bpf_core_is_flavor_sep. rewrite !chr_app_r by lia.
  replace (zlen a + i - zlen a) with i by lia. replace (zlen a + i + 1 - zlen a) with (i + 1) by lia.
  replace (zlen a + i + 2 - zlen a) with (i + 2) by lia. replace (zlen a + i + 3 - zlen a) with (i + 3) by lia.
  by replace (zlen a + i + 4 - zlen a) with (i + 4) by lia.
Qed.

Lemma essential_loop_skip k n name :
  (n <= k)%nat -> (forall i, (n <= i < k)%nat -> bpf_core_is_flavor_sep name (Z.of_nat i) = false) ->
  essential_loop k name = essential_loop n name.
Proof.
  intros Hle Hno. induction k as [|k IH]; [by assert (n = O) as -> by lia |]. destruct (decide (n = S k)) as [->|Hne]; [done |].
  cbn [essential_loop]. rewrite Hno by lia. apply IH; [lia |]. intros i Hi. apply Hno. lia.
Qed.

(** The essential name of a name with a flavor is the name without it: for a base name
    that does not end in an underscore, a separator of three underscores and a flavor that
    does not start with one and has no separator itself, the code gives the length of the
    base name. *)
Theorem essential_name_flavor base c f flavor :
  c <> 95 -> f <> 95 -> (forall i, bpf_core_is_flavor_sep (f :: flavor) i = false) ->
  essential ((base ++ [c]) ++ [95; 95; 95] ++ f :: flavor) = base ++ [c].
Proof.
  intros Hc Hf Hno. pose proof (zlen_nonneg base). pose proof (zlen_nonneg flavor).
  set (tail := c :: 95 :: 95 :: 95 :: f :: flavor). assert (Hname : (base ++ [c]) ++ [95; 95; 95] ++ f :: flavor = base ++ tail) by (by rewrite <- app_assoc).
  assert (Hlen : bpf_core_essential_name_len (base ++ tail) = zlen base + 1).
  { unfold bpf_core_essential_name_len. rewrite (essential_loop_skip _ (S (Z.to_nat (zlen base)))).
    - cbn [essential_loop]. rewrite Z2Nat.id by lia. pose proof (sep_app base tail 0 ltac:(lia)) as E. rewrite Z.add_0_r in E. rewrite E.
      replace (bpf_core_is_flavor_sep tail 0) with true; [done |]. unfold bpf_core_is_flavor_sep.
      change (true = negb (c =? 95) && true && true && true && negb (f =? 95)). by replace (c =? 95) with false; [replace (f =? 95) with false |]; [| lia..].
    - unfold tail. rewrite zlen_app, !zlen_cons. lia.
    - intros i Hi. replace (Z.of_nat i) with (zlen base + (Z.of_nat i - zlen base)) by lia. rewrite sep_app by lia.
      set (k := Z.of_nat i - zlen base). assert (1 <= k) by lia. destruct (decide (k < 4)) as [Hk|Hk].
      + unfold bpf_core_is_flavor_sep. by assert (k = 1 \/ k = 2 \/ k = 3) as [-> | [-> | ->]] by lia.
      + pose proof (sep_app [c; 95; 95; 95] (f :: flavor) (k - 4) ltac:(lia)) as E.
        replace (zlen [c; 95; 95; 95] + (k - 4)) with k in E by (change (zlen [c; 95; 95; 95]) with 4; lia).
        change ([c; 95; 95; 95] ++ f :: flavor) with tail in E. by rewrite E. }
  unfold essential. rewrite Hname, Hlen. replace (zlen base + 1) with (zlen (base ++ [c])) by (rewrite zlen_app; done).
  rewrite <- Hname. apply ztake_app_zlen.
Qed.

Lemma no_underscore s i : Forall (fun x => x <> 95) s -> bpf_core_is_flavor_sep s i = false.
Proof.
  intros Hs. unfold bpf_core_is_flavor_sep. replace (chr s (i + 1) =? 95) with false; [by rewrite andb_false_r |].
  symmetry. apply Z.eqb_neq. unfold chr, znth. case_if; [done |]. destruct (s !! Z.to_nat (i + 1)) as [x|] eqn:E; [|done].
  by apply (Forall_lookup_1 _ _ _ _ Hs E).
Qed.

(** [ab___cd] *)
Lemma essential_name_flavor_witness : essential [97; 98; 95; 95; 95; 99; 100] = [97; 98].
Proof.
  apply (essential_name_flavor [97] 98 99 [100]); [discriminate | discriminate |]. intros i. apply no_underscore.
  repeat constructor; discriminate.
Defined.
