(* ===== verification/CoreMatch.v ===== *)
(** * CoreMatch: what the matching of types decides

    [core_match] is the relation that the comment of [__bpf_core_types_match] in
    [src/src/relo_core.c] describes: modifiers and typedefs are stripped, names are
    compared without flavors, members and enumerators of the local type exist in the
    target, and behind a pointer a struct is only compared by name and kind.  The code
    decides it for types that are not nested too deeply and refuses others. *)
From S2P Require Import Prelude Hashmap Mem Strset BtfTypes Btf BtfParse BtfWrite CoreTypes CoreDemo CoreCompat.
Open Scope Z_scope.

Section Match.
Context (lb tb : btf).

(** Two names are the same without flavors. *)
Definition same_name (lo to : Z) : Prop :=
  exists ln tn, name_str lb lo = Some (Some ln) /\ name_str tb to = Some (Some tn) /\ essential ln = essential tn.

Inductive core_match : bool -> Z -> Z -> Prop :=
  | match_types behind l t l' lt t' tt :
      skip_mods_and_typedefs lb l = Some (l', lt) -> skip_mods_and_typedefs tb t = Some (t', tt) ->
      same_name (name_off lt) (name_off tt) -> match_kind behind lt tt -> core_match behind l t
with match_kind : bool -> btf_type -> btf_type -> Prop :=
  | match_void behind lt tt : btf_kind lt = BTF_KIND_UNKN -> btf_kind tt = BTF_KIND_UNKN -> match_kind behind lt tt
  | match_fwd behind lt tt :
      btf_kind lt = BTF_KIND_FWD -> btf_kind tt = BTF_KIND_FWD -> btf_kflag lt = btf_kflag tt -> match_kind behind lt tt
  | match_fwd_composite lt tt :
      btf_kind lt = BTF_KIND_FWD -> btf_kind tt = (if btf_kflag lt then BTF_KIND_UNION else BTF_KIND_STRUCT) ->
      match_kind true lt tt
  | match_enum behind lt tt :
      btf_is_any_enum lt = true -> btf_is_any_enum tt = true -> t_size lt = t_size tt -> btf_vlen lt <= btf_vlen tt ->
      (forall i, 0 <= i < btf_vlen lt -> exists lo, enumerator_name_off lt i = Some lo /\
         exists j to, 0 <= j < btf_vlen tt /\ enumerator_name_off tt j = Some to /\ same_name lo to) ->
      match_kind behind lt tt
  | match_behind lt tt : btf_is_composite lt = true -> btf_kind tt = btf_kind lt -> match_kind true lt tt
  | match_behind_fwd lt tt :
      btf_is_composite lt = true -> btf_kind tt = BTF_KIND_FWD -> btf_kflag tt = btf_is_union lt -> match_kind true lt tt
  | match_composite lt tt :
      btf_is_composite lt = true -> btf_kind tt = btf_kind lt -> btf_vlen lt <= btf_vlen tt ->
      (forall i lm, 0 <= i < btf_vlen lt -> btf_member lt i = Some lm -> has_member lm tt) -> match_kind false lt tt
  | match_int behind lt tt le te :
      btf_kind lt = BTF_KIND_INT -> btf_kind tt = BTF_KIND_INT -> t_size lt = t_size tt ->
      btf_int_encoding lt = Some le -> btf_int_encoding tt = Some te ->
      Z.land le BTF_INT_SIGNED = Z.land te BTF_INT_SIGNED -> match_kind behind lt tt
  | match_ptr behind lt tt :
      btf_kind lt = BTF_KIND_PTR -> btf_kind tt = BTF_KIND_PTR -> core_match true (t_type lt) (t_type tt) ->
      match_kind behind lt tt
  | match_array behind lt tt la ta :
      btf_kind lt = BTF_KIND_ARRAY -> btf_kind tt = BTF_KIND_ARRAY -> btf_array lt = Some la -> btf_array tt = Some ta ->
      array_nelems la = array_nelems ta -> core_match behind (array_type la) (array_type ta) -> match_kind behind lt tt
  | match_proto behind lt tt :
      btf_kind lt = BTF_KIND_FUNC_PROTO -> btf_kind tt = BTF_KIND_FUNC_PROTO -> btf_vlen lt = btf_vlen tt ->
      (forall i lp tp, 0 <= i < btf_vlen lt -> btf_param lt i = Some lp -> btf_param tt i = Some tp ->
         core_match behind (param_type lp) (param_type tp)) ->
      core_match behind (t_type lt) (t_type tt) -> match_kind behind lt tt
with has_member : btf_member_t -> btf_type -> Prop :=
  | member_matches lm tt j tm :
      0 <= j < btf_vlen tt -> btf_member tt j = Some tm -> same_name (member_name_off lm) (member_name_off tm) ->
      core_match false (member_type lm) (member_type tm) -> has_member lm tt.

(** Every chain of pointers, arrays, members, parameters and results ends within [d] steps;
    members are not followed behind a pointer. *)
Fixpoint shallow_match (d : nat) (behind : bool) (id : Z) : Prop :=
  match d with
  | O => False
  | S d =>
      forall id' t, skip_mods_and_typedefs lb id = Some (id', t) ->
        match btf_kind t with
        | BTF_KIND_PTR => shallow_match d true (t_type t)
        | BTF_KIND_ARRAY => forall a, btf_array t = Some a -> shallow_match d behind (array_type a)
        | BTF_KIND_STRUCT | BTF_KIND_UNION =>
            behind = false -> forall i m, 0 <= i < btf_vlen t -> btf_member t i = Some m -> shallow_match d behind (member_type m)
        | BTF_KIND_FUNC_PROTO =>
            (forall i p, 0 <= i < btf_vlen t -> btf_param t i = Some p -> shallow_match d behind (param_type p)) /\
            shallow_match d behind (t_type t)
        | _ => True
        end
  end.

Lemma shallow_match_step d behind l l' lt :
  skip_mods_and_typedefs lb l = Some (l', lt) -> shallow_match d behind l ->
  match btf_kind lt with
  | BTF_KIND_PTR => shallow_match (pred d) true (t_type lt)
  | BTF_KIND_ARRAY => forall a, btf_array lt = Some a -> shallow_match (pred d) behind (array_type a)
  | BTF_KIND_STRUCT | BTF_KIND_UNION =>
      behind = false -> forall i m, 0 <= i < btf_vlen lt -> btf_member lt i = Some m -> shallow_match (pred d) behind (member_type m)
  | BTF_KIND_FUNC_PROTO =>
      (forall i p, 0 <= i < btf_vlen lt -> btf_param lt i = Some p -> shallow_match (pred d) behind (param_type p)) /\
      shallow_match (pred d) behind (t_type lt)
  | _ => True
  end.
Proof. destruct d as [|d]; [intros _ [] |]. intros Hs Hd. exact (Hd _ _ Hs). Qed.

Lemma core_match_inv behind l t l' lt t' tt :
  skip_mods_and_typedefs lb l = Some (l', lt) -> skip_mods_and_typedefs tb t = Some (t', tt) ->
  core_match behind l t <-> same_name (name_off lt) (name_off tt) /\ match_kind behind lt tt.
Proof.
  intros Hl Ht. split.
  - intros Hc. inversion Hc as [? ? ? l2 lt2 t2 tt2 Hl2 Ht2 Hn Hk]; subst. rewrite Hl in Hl2. rewrite Ht in Ht2.
    injection Hl2 as <- <-. injection Ht2 as <- <-. done.
  - intros [H1 H2]. by econstructor.
Qed.

(** *** Names *)
Lemma essential_nil s : essential s = [] <-> s = [].
Proof.
  split; [|by intros ->]. intros He. destruct s as [|x s]; [done |]. exfalso.
  assert (Hz : zlen (essential (x :: s)) = 0) by by rewrite He. rewrite zlen_essential in Hz. revert Hz.
  unfold bpf_core_essential_name_len. generalize (Z.to_nat (zlen (x :: s) - 4)). induction n as [|n IH]; cbn [essential_loop].
  - rewrite zlen_cons. pose proof (zlen_nonneg s). lia.
  - case_match; [lia | exact IH].
Qed.

Lemma names_match_spec lo to ln tn :
  name_str lb lo = Some (Some ln) -> name_str tb to = Some (Some tn) -> pos_str ln -> pos_str tn ->
  exists r, bpf_core_names_match lb tb lo to = Some r /\ (r = true <-> same_name lo to).
Proof.
  intros Hl Ht Hpl Hpt. unfold bpf_core_names_match. rewrite Hl, Ht. cbn [mbind option_bind].
  assert (Hsame : same_name lo to <-> essential ln = essential tn).
  { split; [|intros E; by exists ln, tn]. intros (ln2 & tn2 & E1 & E2 & E). congruence. }
  setoid_rewrite Hsame. destruct tn as [|y tn]; cbn [str_is_empty].
  - exists (match ln with [] => true | _ => false end). split; [by destruct ln |].
    change (essential []) with (@nil Z). rewrite essential_nil. by destruct ln.
  - exists (essential_equal ln (y :: tn)). split; [done | by apply essential_equal_iff].
Qed.
End Match.

(** ** The loops *)
Section MatchLoops.
Context (lb tb : btf) `{CoreBtf lb} `{CoreBtf tb}.

Lemma enum_find_spec tid tt lo ln n j :
  btf__type_by_id tb tid = Some tt -> btf_is_any_enum tt = true -> name_str lb lo = Some (Some ln) -> pos_str ln ->
  0 <= j -> j + Z.of_nat n = btf_vlen tt ->
  exists r, enum_find lb tb n j lo tt = Some r /\
    (r = true <-> exists k to, j <= k < btf_vlen tt /\ enumerator_name_off tt k = Some to /\ same_name lb tb lo to).
Proof.
  intros Ht He Hln Hp. revert j. induction n as [|n IH]; intros j Hj Hn; cbn [enum_find].
  { exists false. split; [done |]. split; [done |]. intros (k & to & Hk & _). lia. }
  destruct (core_enumerator tb tid tt j Ht He ltac:(lia)) as (to & tn & Hto & Htn & Hpt). rewrite Hto. cbn [mbind option_bind].
  destruct (names_match_spec lb tb lo to ln tn Hln Htn Hp Hpt) as (r & -> & Hr). cbn [mbind option_bind].
  destruct r; cbn [negb].
  - exists true. split; [done |]. split; [|done]. intros _. exists j, to. split_and!; [lia.. | done | by apply Hr].
  - destruct (IH (j + 1) ltac:(lia) ltac:(lia)) as (r & -> & Hr'). exists r. split; [done |]. rewrite Hr'. split.
    + intros (k & to' & Hk & Hs). exists k, to'. split; [lia | done].
    + intros (k & to' & Hk & Hto' & Hs). exists k, to'. split; [|done]. destruct (decide (k = j)) as [->|]; [|lia].
      rewrite Hto in Hto'. injection Hto' as <-. by apply Hr in Hs.
Qed.

Definition enumerator_matched (lt tt : btf_type) (i : Z) : Prop :=
  exists lo, enumerator_name_off lt i = Some lo /\
    exists j to, 0 <= j < btf_vlen tt /\ enumerator_name_off tt j = Some to /\ same_name lb tb lo to.

Lemma enums_loop_spec lid tid lt tt n i :
  btf__type_by_id lb lid = Some lt -> btf__type_by_id tb tid = Some tt -> btf_is_any_enum lt = true -> btf_is_any_enum tt = true ->
  0 <= i -> i + Z.of_nat n = btf_vlen lt ->
  exists r, enums_loop lb tb n i lt tt = Some (Z.b2z r) /\
    (r = true <-> forall k, i <= k < btf_vlen lt -> enumerator_matched lt tt k).
Proof.
  intros Hl Ht Hel Het. revert i. induction n as [|n IH]; intros i Hi Hn; cbn [enums_loop].
  { exists true. split; [done |]. split; [|done]. intros _ k Hk. lia. }
  destruct (core_enumerator lb lid lt i Hl Hel ltac:(lia)) as (lo & ln & Hlo & Hln & Hpl). rewrite Hlo. cbn [mbind option_bind].
  pose proof (vlen_range tt).
  destruct (enum_find_spec tid tt lo ln (Z.to_nat (btf_vlen tt)) 0 Ht Het Hln Hpl) as (r & -> & Hr); [lia.. |].
  cbn [mbind option_bind]. destruct r; cbn [negb].
  - destruct (IH (i + 1) ltac:(lia) ltac:(lia)) as (r & -> & Hr'). exists r. split; [done |]. rewrite Hr'. split.
    + intros Hall k Hk. destruct (decide (k = i)) as [->|]; [|apply Hall; lia]. exists lo. split; [done |]. by apply Hr.
    + intros Hall k Hk. apply Hall. lia.
  - exists false. split; [done |]. split; [done |]. intros Hall. destruct (Hall i ltac:(lia)) as (lo' & Hlo' & Hm).
    rewrite Hlo in Hlo'. injection Hlo' as <-. by apply Hr in Hm.
Qed.

Lemma bpf_core_enums_match_ok lid tid lt tt :
  btf__type_by_id lb lid = Some lt -> btf__type_by_id tb tid = Some tt -> btf_is_any_enum lt = true -> btf_is_any_enum tt = true ->
  exists r, bpf_core_enums_match lb tb lt tt = Some (Z.b2z r) /\
    (r = true <-> t_size lt = t_size tt /\ btf_vlen lt <= btf_vlen tt /\
       forall k, 0 <= k < btf_vlen lt -> enumerator_matched lt tt k).
Proof.
  intros Hl Ht Hel Het. unfold bpf_core_enums_match. pose proof (vlen_range lt).
  destruct (t_size lt =? t_size tt) eqn:E1; cbn [negb]; [|exists false; split; [done |]; split; [done | lia]].
  destruct (btf_vlen tt <? btf_vlen lt) eqn:E2; [exists false; split; [done |]; split; [done | lia] |].
  destruct (enums_loop_spec lid tid lt tt (Z.to_nat (btf_vlen lt)) 0 Hl Ht Hel Het) as (r & -> & Hr); [lia.. |].
  exists r. split; [done |]. rewrite Hr. split; [intros Hall; split_and!; [lia.. | done] | tauto].
Qed.

(** What the call at the level below gives; [n] are its levels. *)
Definition match_sub (sub : bool -> Z -> Z -> option Z) (n : nat) : Prop :=
  forall behind l t, valid_ids lb tb l t ->
    exists r, sub behind l t = Some r /\ forall d, (d <= n)%nat -> verdict (shallow_match lb d behind l) r (core_match lb tb behind l t).

Lemma verdict_err (d P : Prop) r : verdict d r P -> r < 0 -> r = - EINVAL /\ ~ d.
Proof. intros [[-> _] | [[-> _] | ?]] Hlt; [lia | lia | done]. Qed.

Lemma member_find_spec sub n tid tt lm ln k j :
  match_sub sub n -> btf__type_by_id tb tid = Some tt -> btf_is_composite tt = true ->
  name_str lb (member_name_off lm) = Some (Some ln) -> pos_str ln -> is_Some (btf__type_by_id lb (member_type lm)) ->
  0 <= j -> j + Z.of_nat k = btf_vlen tt ->
  exists r, member_find lb tb (sub false) k j lm tt = Some r /\ forall d, (d <= n)%nat ->
    verdict (shallow_match lb d false (member_type lm)) r
      (exists i tm, j <= i < btf_vlen tt /\ btf_member tt i = Some tm /\ same_name lb tb (member_name_off lm) (member_name_off tm) /\
         core_match lb tb false (member_type lm) (member_type tm)).
Proof.
  intros Hsub Ht Hc Hln Hpl Hlv. revert j. induction k as [|k IH]; intros j Hj Hk; cbn [member_find].
  { exists 0. split; [done |]. intros d _. apply verdict_no. intros (i & tm & Hi & _). lia. }
  destruct (core_member tb tid tt j Ht Hc ltac:(lia)) as (tm & tn & Htm & Htv & Htn & Hpt). rewrite Htm. cbn [mbind option_bind].
  destruct (names_match_spec lb tb _ _ ln tn Hln Htn Hpl Hpt) as (same & -> & Hsame). cbn [mbind option_bind].
  assert (Hrest : (~ (same_name lb tb (member_name_off lm) (member_name_off tm) /\
       core_match lb tb false (member_type lm) (member_type tm))) ->
    exists r, member_find lb tb (sub false) k (j + 1) lm tt = Some r /\ forall d, (d <= n)%nat ->
      verdict (shallow_match lb d false (member_type lm)) r
        (exists i tm, j <= i < btf_vlen tt /\ btf_member tt i = Some tm /\ same_name lb tb (member_name_off lm) (member_name_off tm) /\
           core_match lb tb false (member_type lm) (member_type tm))).
  { intros Hno. destruct (IH (j + 1) ltac:(lia) ltac:(lia)) as (r & -> & Hr). exists r. split; [done |]. intros d Hd.
    eapply verdict_weaken; [exact (fun h => h) | | exact (Hr d Hd)]. split.
    - intros (i & tm' & Hi & Hrest). exists i, tm'. split; [lia | done].
    - intros (i & tm' & Hi & Htm' & Hrest). exists i, tm'. split; [|done]. destruct (decide (i = j)) as [->|]; [|lia].
      rewrite Htm in Htm'. by injection Htm' as <-. }
  destruct same; cbn [negb]; [|apply Hrest; intros [Hs%Hsame _]; discriminate].
  destruct (Hsub false (member_type lm) (member_type tm)) as (r & -> & Hr); [done |]. cbn [mbind option_bind].
  destruct (r <? 0) eqn:E1.
  { exists r. split; [done |]. intros d Hd. right; right. by apply (verdict_err _ _ _ (Hr d Hd)); lia. }
  destruct (0 <? r) eqn:E2.
  - exists 1. split; [done |]. intros d Hd. left. split; [done |]. exists j, tm. split_and!; [lia.. | done | by apply Hsame |].
    by destruct (Hr d Hd) as [[_ ?] | [[-> _] | [-> _]]].
  - apply Hrest. intros [_ Hm]. destruct (Hr O ltac:(lia)) as [[-> _] | [[-> ?] | [-> _]]]; done.
Qed.

Lemma has_member_iff lm tt :
  has_member lb tb lm tt <-> exists i tm, 0 <= i < btf_vlen tt /\ btf_member tt i = Some tm /\
    same_name lb tb (member_name_off lm) (member_name_off tm) /\ core_match lb tb false (member_type lm) (member_type tm).
Proof.
  split; [intros [? ? j tm]; by exists j, tm | intros (j & tm & ? & ? & ? & ?); by econstructor].
Qed.

Lemma members_loop_spec sub n lid tid lt tt k i :
  match_sub sub n -> btf__type_by_id lb lid = Some lt -> btf__type_by_id tb tid = Some tt ->
  btf_is_composite lt = true -> btf_is_composite tt = true -> 0 <= i -> i + Z.of_nat k = btf_vlen lt ->
  exists r, members_loop lb tb (sub false) k i lt tt = Some r /\ forall d, (d <= n)%nat ->
    verdict (forall j m, i <= j < btf_vlen lt -> btf_member lt j = Some m -> shallow_match lb d false (member_type m)) r
      (forall j lm, i <= j < btf_vlen lt -> btf_member lt j = Some lm -> has_member lb tb lm tt).
Proof.
  intros Hsub Hl Ht Hcl Hct. revert i. induction k as [|k IH]; intros i Hi Hk; cbn [members_loop].
  { exists 1. split; [done |]. intros d _. left. split; [done |]. intros j lm Hj. lia. }
  destruct (core_member lb lid lt i Hl Hcl ltac:(lia)) as (lm & ln & Hlm & Hlv & Hln & Hpl). rewrite Hlm. cbn [mbind option_bind].
  pose proof (vlen_range tt).
  destruct (member_find_spec sub n tid tt lm ln (Z.to_nat (btf_vlen tt)) 0 Hsub Ht Hct Hln Hpl Hlv) as (r & -> & Hr); [lia.. |].
  setoid_rewrite <- has_member_iff in Hr. cbn [mbind option_bind]. destruct (r <? 0) eqn:E1; [|destruct (r =? 0) eqn:E2].
  - exists r. split; [done |]. intros d Hd. right; right. destruct (verdict_err _ _ _ (Hr d Hd) ltac:(lia)) as [-> Hno].
    split; [done |]. intros Hall. apply Hno. by apply (Hall i); [lia |].
  - exists 0. split; [done |]. intros d Hd. apply verdict_no. intros Hall. specialize (Hall i lm ltac:(lia) Hlm).
    destruct (Hr d Hd) as [[-> _] | [[_ Hno] | [-> _]]]; [done | by apply Hno | done].
  - destruct (IH (i + 1) ltac:(lia) ltac:(lia)) as (r2 & -> & Hr2). exists r2. split; [done |]. intros d Hd.
    assert (Hyes : has_member lb tb lm tt) by (destruct (Hr d Hd) as [[_ ?] | [[-> _] | [-> _]]]; done).
    eapply verdict_weaken; [| | exact (Hr2 d Hd)].
    + intros Hall j m Hj. apply Hall. lia.
    + split; intros Hall j lm2 Hj Hlm2; [|apply (Hall j); [lia | done]].
      destruct (decide (j = i)) as [->|]; [congruence | apply (Hall j); [lia | done]].
Qed.

Lemma match_params_spec sub n behind lid tid lt tt k i :
  match_sub sub n -> btf__type_by_id lb lid = Some lt -> btf__type_by_id tb tid = Some tt ->
  btf_kind lt = BTF_KIND_FUNC_PROTO -> btf_kind tt = BTF_KIND_FUNC_PROTO -> btf_vlen lt = btf_vlen tt ->
  0 <= i -> i + Z.of_nat k = btf_vlen lt ->
  exists r, match_params (sub behind) k i lt tt = Some r /\ forall d, (d <= n)%nat ->
    verdict (forall j p, i <= j < btf_vlen lt -> btf_param lt j = Some p -> shallow_match lb d behind (param_type p)) r
      (forall j lp tp, i <= j < btf_vlen lt -> btf_param lt j = Some lp -> btf_param tt j = Some tp ->
         core_match lb tb behind (param_type lp) (param_type tp)).
Proof.
  intros Hsub Hl Ht Hkl Hkt Hv. revert i. induction k as [|k IH]; intros i Hi Hk; cbn [match_params].
  { exists 1. split; [done |]. intros d _. left. split; [done |]. intros j lp tp Hj. lia. }
  destruct (core_param lb lid lt i Hl Hkl ltac:(lia)) as (lp & Hlp & Hlv).
  destruct (core_param tb tid tt i Ht Hkt ltac:(lia)) as (tp & Htp & Htv). rewrite Hlp, Htp. cbn [mbind option_bind].
  destruct (Hsub behind (param_type lp) (param_type tp)) as (r & -> & Hr); [done |]. cbn [mbind option_bind].
  destruct (r <=? 0) eqn:Er.
  - exists r. split; [done |]. intros d Hd. destruct (Hr d Hd) as [[-> _] | [[-> Hno] | [-> Hno]]]; [done | |].
    + right; left. split; [done |]. intros Hall. apply Hno. eapply (Hall i); (done || lia).
    + right; right. split; [done |]. intros Hall. apply Hno. eapply (Hall i); (done || lia).
  - destruct (IH (i + 1) ltac:(lia) ltac:(lia)) as (r2 & -> & Hr2). exists r2. split; [done |]. intros d Hd.
    assert (Hyes : core_match lb tb behind (param_type lp) (param_type tp)) by (destruct (Hr d Hd) as [[_ ?] | [[-> _] | [-> _]]]; done).
    eapply verdict_weaken; [| | exact (Hr2 d Hd)].
    + intros Hall j p Hj. apply Hall. lia.
    + split; intros Hall j lp2 tp2 Hj H1' H2'; [|by apply (Hall j); [lia | |]].
      destruct (decide (j = i)) as [->|]; [congruence | by apply (Hall j); [lia | |]].
Qed.

Lemma composite_kind t : btf_is_composite t = true -> btf_kind t = BTF_KIND_STRUCT \/ btf_kind t = BTF_KIND_UNION.
Proof. unfold btf_is_composite. destruct (btf_kind t); try discriminate; auto. Qed.

(** The rules by the kind of the local type. *)
Lemma match_kinds behind lt tt :
  match_kind lb tb behind lt tt ->
  match btf_kind lt with
  | BTF_KIND_UNKN => btf_kind tt = BTF_KIND_UNKN
  | BTF_KIND_FWD =>
      (btf_kind tt = BTF_KIND_FWD /\ btf_kflag lt = btf_kflag tt) \/
      (behind = true /\ btf_kind tt = if btf_kflag lt then BTF_KIND_UNION else BTF_KIND_STRUCT)
  | BTF_KIND_ENUM | BTF_KIND_ENUM64 =>
      btf_is_any_enum tt = true /\ t_size lt = t_size tt /\ btf_vlen lt <= btf_vlen tt /\
      forall k, 0 <= k < btf_vlen lt -> enumerator_matched lt tt k
  | BTF_KIND_STRUCT | BTF_KIND_UNION =>
      if behind then btf_kind tt = btf_kind lt \/ (btf_kind tt = BTF_KIND_FWD /\ btf_kflag tt = btf_is_union lt)
      else btf_kind tt = btf_kind lt /\ btf_vlen lt <= btf_vlen tt /\
        forall i lm, 0 <= i < btf_vlen lt -> btf_member lt i = Some lm -> has_member lb tb lm tt
  | BTF_KIND_INT =>
      btf_kind tt = BTF_KIND_INT /\ t_size lt = t_size tt /\
      exists le te, btf_int_encoding lt = Some le /\ btf_int_encoding tt = Some te /\
        Z.land le BTF_INT_SIGNED = Z.land te BTF_INT_SIGNED
  | BTF_KIND_PTR => btf_kind tt = BTF_KIND_PTR /\ core_match lb tb true (t_type lt) (t_type tt)
  | BTF_KIND_ARRAY =>
      btf_kind tt = BTF_KIND_ARRAY /\ exists la ta, btf_array lt = Some la /\ btf_array tt = Some ta /\
        array_nelems la = array_nelems ta /\ core_match lb tb behind (array_type la) (array_type ta)
  | BTF_KIND_FUNC_PROTO =>
      btf_kind tt = BTF_KIND_FUNC_PROTO /\ btf_vlen lt = btf_vlen tt /\
      (forall i lp tp, 0 <= i < btf_vlen lt -> btf_param lt i = Some lp -> btf_param tt i = Some tp ->
         core_match lb tb behind (param_type lp) (param_type tp)) /\
      core_match lb tb behind (t_type lt) (t_type tt)
  | _ => False
  end.
Proof.
  intros [bh lt' tt' H1 H2 | bh lt' tt' H1 H2 H3 | lt' tt' H1 H2 | bh lt' tt' H1 H2 H3 H4 H5 | lt' tt' H1 H2 | lt' tt' H1 H2 H3 |
          lt' tt' H1 H2 H3 H4 | bh lt' tt' le te H1 H2 H3 H4 H5 H6 | bh lt' tt' H1 H2 H3 | bh lt' tt' la ta H1 H2 H3 H4 H5 H6 |
          bh lt' tt' H1 H2 H3 H4 H5].
  - by rewrite H1.
  - rewrite H1. by left.
  - rewrite H1. by right.
  - unfold btf_is_any_enum in H1. destruct (btf_kind lt'); try discriminate; exact (conj H2 (conj H3 (conj H4 H5))).
  - destruct (composite_kind lt' H1) as [E | E]; rewrite E in H2 |- *; by left.
  - destruct (composite_kind lt' H1) as [-> | ->]; right; exact (conj H2 H3).
  - destruct (composite_kind lt' H1) as [E | E]; rewrite E in H2 |- *; exact (conj H2 (conj H3 H4)).
  - rewrite H1. split; [exact H2 |]. split; [exact H3 |]. by exists le, te.
  - rewrite H1. exact (conj H2 H3).
  - rewrite H1. split; [exact H2 |]. by exists la, ta.
  - rewrite H1. exact (conj H2 (conj H3 (conj H4 H5))).
Qed.

Definition match_rec (rec : bool -> Z -> Z -> option Z) (depth level : nat) : Prop :=
  forall behind l t, valid_ids lb tb l t -> exists r, rec behind l t = Some r /\ forall d, (d <= depth)%nat -> (d <= level)%nat ->
    verdict (shallow_match lb d behind l) r (core_match lb tb behind l t).

(** *** The switch *)
Section MatchSwitch.
Context (sub rec : bool -> Z -> Z -> option Z) (depth level : nat) (behind : bool) (l l' t' : Z) (lt tt : btf_type).
Hypothesis (Hsub : match_sub sub level) (Hrec : match_rec rec depth (S level)).
Hypothesis (Hsl : skip_mods_and_typedefs lb l = Some (l', lt)).
Hypothesis (Hlt : btf__type_by_id lb l' = Some lt) (Htt : btf__type_by_id tb t' = Some tt).

(** The claim about the switch. *)
Definition switch_ok : Prop :=
  exists r, match_switch lb tb sub rec behind lt tt = Some r /\ forall d, (d <= S depth)%nat -> (d <= S level)%nat ->
    verdict (shallow_match lb d behind l) r (match_kind lb tb behind lt tt).

Lemma switch_bool (x : bool) :
  match_switch lb tb sub rec behind lt tt = Some (Z.b2z x) -> (x = true <-> match_kind lb tb behind lt tt) -> switch_ok.
Proof. intros Hs Hx. exists (Z.b2z x). split; [exact Hs |]. intros. by apply verdict_bool. Qed.

Lemma switch_fwd : btf_kind lt = BTF_KIND_FWD -> switch_ok.
Proof.
  intros Hk. pose proof (match_kinds behind lt tt) as Hinv. rewrite Hk in Hinv.
  destruct (decide (btf_kind tt = BTF_KIND_FWD)) as [E|E].
  - apply (switch_bool (Bool.eqb (btf_kflag lt) (btf_kflag tt))).
    + unfold match_switch. rewrite Hk, E. cbn zeta. rewrite bool_decide_eq_true_2 by done. by destruct behind.
    + rewrite eqb_true_iff. split; [by apply match_fwd |]. intros Hm. destruct (Hinv Hm) as [[_ ?] | [_ Ht]]; [done |].
      rewrite E in Ht. by destruct (btf_kflag lt).
  - destruct behind eqn:Hb.
    + eapply switch_bool; [unfold match_switch; rewrite Hk; cbn zeta; rewrite Hb, bool_decide_eq_false_2 by congruence; reflexivity |].
      rewrite Hb, orb_true_iff, !andb_true_iff, !bool_decide_eq_true, negb_true_iff. split.
      * intros [[Ht Hf] | [Ht Hf]]; apply match_fwd_composite; try done; by rewrite Hf.
      * intros Hm. destruct (Hinv Hm) as [[? _] | [_ Ht]]; [done |]. destruct (btf_kflag lt); [by right | by left].
    + apply (switch_bool false); [unfold match_switch; rewrite Hk; cbn zeta; by rewrite Hb, bool_decide_eq_false_2 by congruence |].
      rewrite Hb. split; [done |]. intros Hm. by destruct (Hinv Hm) as [[? _] | [? _]].
Qed.

Lemma switch_enum : btf_is_any_enum lt = true -> switch_ok.
Proof.
  intros He. pose proof (match_kinds behind lt tt) as Hinv.
  assert (Hs : match_switch lb tb sub rec behind lt tt =
    if negb (btf_is_any_enum tt) then Some 0 else bpf_core_enums_match lb tb lt tt).
  { unfold match_switch. unfold btf_is_any_enum in He. destruct (btf_kind lt); try discriminate; reflexivity. }
  assert (Hinv' : match_kind lb tb behind lt tt -> btf_is_any_enum tt = true /\ t_size lt = t_size tt /\ btf_vlen lt <= btf_vlen tt /\
      forall k, 0 <= k < btf_vlen lt -> enumerator_matched lt tt k).
  { intros Hm. specialize (Hinv Hm). unfold btf_is_any_enum in He. destruct (btf_kind lt); try discriminate; exact Hinv. }
  destruct (btf_is_any_enum tt) eqn:Ht; cbn [negb] in Hs.
  - destruct (bpf_core_enums_match_ok l' t' lt tt Hlt Htt He Ht) as (r & Hr & Hiff). apply (switch_bool r); [congruence |].
    rewrite Hiff. split; [|tauto]. intros (H1 & H2 & H3). by apply match_enum.
  - apply (switch_bool false); [exact Hs |]. split; [done |]. by intros [? _]%Hinv'.
Qed.

Lemma switch_composite : btf_is_composite lt = true -> switch_ok.
Proof.
  intros Hc. pose proof (match_kinds behind lt tt) as Hinv. pose proof (shallow_match_step lb) as Hsh.
  assert (Hs : match_switch lb tb sub rec behind lt tt =
    let same := bool_decide (btf_kind lt = btf_kind tt) in
    if behind then
      if same then Some 1 else
      if negb (bool_decide (btf_kind tt = BTF_KIND_FWD)) then Some 0 else
      Some (Z.b2z (Bool.eqb (btf_is_union lt) (btf_kflag tt)))
    else if negb same then Some 0 else bpf_core_composites_match lb tb (sub behind) lt tt).
  { unfold match_switch, btf_is_union. destruct (composite_kind lt Hc) as [-> | ->]; reflexivity. }
  assert (Hinv' : match_kind lb tb behind lt tt ->
    if behind then btf_kind tt = btf_kind lt \/ (btf_kind tt = BTF_KIND_FWD /\ btf_kflag tt = btf_is_union lt)
    else btf_kind tt = btf_kind lt /\ btf_vlen lt <= btf_vlen tt /\
      forall i lm, 0 <= i < btf_vlen lt -> btf_member lt i = Some lm -> has_member lb tb lm tt).
  { intros Hm. specialize (Hinv Hm). destruct (composite_kind lt Hc) as [E | E]; rewrite E in Hinv |- *; exact Hinv. }
  cbn zeta in Hs. destruct (decide (btf_kind lt = btf_kind tt)) as [E|E].
  - rewrite bool_decide_eq_true_2 in Hs by done. destruct behind eqn:Hb.
    + apply (switch_bool true); [by rewrite Hb |]. rewrite Hb. split; [intros _; by apply match_behind | done].
    + cbn [negb] in Hs. unfold bpf_core_composites_match in Hs. unfold switch_ok. rewrite Hb, Hs. clear Hs.
      assert (Hct : btf_is_composite tt = true) by (unfold btf_is_composite in *; by rewrite <- E).
      destruct (btf_vlen tt <? btf_vlen lt) eqn:Ev.
      { exists 0. split; [done |]. intros. apply verdict_no. intros (_ & ? & _)%Hinv'. lia. }
      pose proof (vlen_range lt).
      destruct (members_loop_spec sub level l' t' lt tt (Z.to_nat (btf_vlen lt)) 0 Hsub Hlt Htt Hc Hct) as (r & -> & Hr); [lia.. |].
      exists r. split; [done |]. intros d Hd Hlev. eapply verdict_weaken; [| | exact (Hr (pred d) ltac:(lia))].
      * intros Hd'. apply (Hsh d false l l' lt Hsl) in Hd'. by destruct (composite_kind lt Hc) as [E2 | E2]; rewrite E2 in Hd'; apply Hd'.
      * split; [|by intros (_ & _ & ?)%Hinv']. intros Hall. apply match_composite; [done | done | lia | done].
  - rewrite bool_decide_eq_false_2 in Hs by done. destruct behind eqn:Hb; cbn [negb] in Hs.
    + destruct (decide (btf_kind tt = BTF_KIND_FWD)) as [Ef|Ef].
      * rewrite bool_decide_eq_true_2 in Hs by done. cbn [negb] in Hs. eapply switch_bool; [rewrite Hb; exact Hs |]. rewrite Hb, eqb_true_iff.
        split; [intros ?; by apply match_behind_fwd |]. intros [? | [_ ?]]%Hinv'; congruence.
      * rewrite bool_decide_eq_false_2 in Hs by done. apply (switch_bool false); [by rewrite Hb |]. rewrite Hb. split; [done |].
        intros [? | [? _]]%Hinv'; congruence.
    + apply (switch_bool false); [by rewrite Hb |]. rewrite Hb. split; [done |]. intros [? _]%Hinv'. congruence.
Qed.

(** A target of another kind. *)
Lemma switch_other :
  match_switch lb tb sub rec behind lt tt = Some 0 -> (match_kind lb tb behind lt tt -> False) -> switch_ok.
Proof. intros Hs Hno. apply (switch_bool false); [exact Hs |]. split; [done |]. intros Hm. by destruct (Hno Hm). Qed.

Lemma switch_int : btf_kind lt = BTF_KIND_INT -> switch_ok.
Proof.
  intros Hk. pose proof (match_kinds behind lt tt) as Hinv. rewrite Hk in Hinv.
  destruct (decide (btf_kind tt = BTF_KIND_INT)) as [E|E].
  2: { apply switch_other; [|by intros [? _]%Hinv]. unfold match_switch. rewrite Hk. cbn zeta. by rewrite bool_decide_eq_false_2 by congruence. }
  destruct (core_int lb l' lt Hlt Hk) as [ld Hld]. destruct (core_int tb t' tt Htt E) as [td Htd].
  assert (He : btf_int_encoding lt = Some (BTF_INT_ENCODING ld) /\ btf_int_encoding tt = Some (BTF_INT_ENCODING td))
    by (unfold btf_int_encoding; by rewrite Hld, Htd).
  destruct He as [Hle Hte].
  eapply switch_bool; [unfold match_switch; rewrite Hk, E, Hle, Hte; cbn zeta; rewrite bool_decide_eq_true_2 by done; reflexivity |].
  rewrite andb_true_iff, !Z.eqb_eq. split.
  - intros [H1 H2]. by eapply match_int.
  - intros (_ & ? & le & te & E1 & E2 & Hl)%Hinv. split; congruence.
Qed.

Lemma switch_ptr : btf_kind lt = BTF_KIND_PTR -> switch_ok.
Proof.
  intros Hk. pose proof (match_kinds behind lt tt) as Hinv. rewrite Hk in Hinv.
  pose proof (fun d => shallow_match_step lb d behind l l' lt Hsl) as Hsh. rewrite Hk in Hsh.
  destruct (decide (btf_kind tt = BTF_KIND_PTR)) as [E|E].
  2: { apply switch_other; [|by intros [? _]%Hinv]. unfold match_switch. rewrite Hk. cbn zeta. by rewrite bool_decide_eq_false_2 by congruence. }
  destruct (Hrec true (t_type lt) (t_type tt)) as (r & Hr & Hv).
  { split; [apply (core_type lb l' lt Hlt); rewrite Hk | apply (core_type tb t' tt Htt); rewrite E]; left. }
  exists r. split; [unfold match_switch; rewrite Hk, E; cbn zeta; rewrite bool_decide_eq_true_2 by done; exact Hr |].
  intros d Hd Hlev. eapply verdict_weaken; [exact (Hsh d) | | apply Hv; lia]. split; [by apply match_ptr | by intros [_ ?]%Hinv].
Qed.

Lemma switch_array : btf_kind lt = BTF_KIND_ARRAY -> switch_ok.
Proof.
  intros Hk. pose proof (match_kinds behind lt tt) as Hinv. rewrite Hk in Hinv.
  pose proof (fun d => shallow_match_step lb d behind l l' lt Hsl) as Hsh. rewrite Hk in Hsh.
  destruct (decide (btf_kind tt = BTF_KIND_ARRAY)) as [E|E].
  2: { apply switch_other; [|by intros [? _]%Hinv]. unfold match_switch. rewrite Hk. cbn zeta. by rewrite bool_decide_eq_false_2 by congruence. }
  destruct (core_array lb l' lt Hlt Hk) as (la & Hla & Hvl). destruct (core_array tb t' tt Htt E) as (ta & Hta & Hvt).
  assert (Hs : match_switch lb tb sub rec behind lt tt =
    if negb (array_nelems la =? array_nelems ta) then Some 0 else rec behind (array_type la) (array_type ta)).
  { unfold match_switch. rewrite Hk, E, Hla, Hta. cbn zeta. by rewrite bool_decide_eq_true_2 by done. }
  destruct (array_nelems la =? array_nelems ta) eqn:En; cbn [negb] in Hs.
  2: { apply switch_other; [exact Hs |]. intros (_ & la2 & ta2 & E1 & E2 & ? & _)%Hinv. rewrite Hla in E1. rewrite Hta in E2.
       injection E1 as <-. injection E2 as <-. lia. }
  destruct (Hrec behind (array_type la) (array_type ta)) as (r & Hr & Hv); [done |].
  exists r. split; [congruence |]. intros d Hd Hlev.
  eapply verdict_weaken; [exact (fun hs => Hsh d hs la Hla) | | apply Hv; lia]. split.
  - intros Hm. eapply match_array; try done. lia.
  - intros (_ & la2 & ta2 & E1 & E2 & _ & Hm)%Hinv. congruence.
Qed.

Lemma switch_proto : btf_kind lt = BTF_KIND_FUNC_PROTO -> switch_ok.
Proof.
  intros Hk. pose proof (match_kinds behind lt tt) as Hinv. rewrite Hk in Hinv.
  pose proof (fun d => shallow_match_step lb d behind l l' lt Hsl) as Hsh. rewrite Hk in Hsh.
  destruct (decide (btf_kind tt = BTF_KIND_FUNC_PROTO)) as [E|E].
  2: { apply switch_other; [|by intros [? _]%Hinv]. unfold match_switch. rewrite Hk. cbn zeta. by rewrite bool_decide_eq_false_2 by congruence. }
  assert (Hs : match_switch lb tb sub rec behind lt tt =
    if negb (btf_vlen lt =? btf_vlen tt) then Some 0 else
    err ← match_params (sub behind) (Z.to_nat (btf_vlen lt)) 0 lt tt;
    if err <=? 0 then Some err else rec behind (t_type lt) (t_type tt)).
  { unfold match_switch. rewrite Hk, E. cbn zeta. by rewrite bool_decide_eq_true_2 by done. }
  destruct (btf_vlen lt =? btf_vlen tt) eqn:Ev; cbn [negb] in Hs.
  2: { apply switch_other; [exact Hs |]. intros (_ & ? & _)%Hinv. lia. }
  pose proof (vlen_range lt).
  destruct (match_params_spec sub level behind l' t' lt tt (Z.to_nat (btf_vlen lt)) 0 Hsub Hlt Htt Hk E) as (r & Hr & Hv); [lia.. |].
  unfold switch_ok. rewrite Hs, Hr. cbn [mbind option_bind]. destruct (r <=? 0) eqn:Er.
  - exists r. split; [done |]. intros d Hd Hlev. destruct (Hv (pred d) ltac:(lia)) as [[-> _] | [[-> Hno] | [-> Hno]]]; [done | |].
    + apply verdict_no. intros (_ & _ & ? & _)%Hinv. tauto.
    + right; right. split; [done |]. intros Hd'%Hsh. tauto.
  - destruct (Hrec behind (t_type lt) (t_type tt)) as (r2 & Hr2 & Hv2).
    { split; [apply (core_type lb l' lt Hlt); rewrite Hk | apply (core_type tb t' tt Htt); rewrite E]; left. }
    exists r2. split; [exact Hr2 |]. intros d Hd Hlev. eapply verdict_weaken; [| | exact (Hv2 (pred d) ltac:(lia) ltac:(lia))].
    + intros [_ Hd']%Hsh. exact Hd'.
    + destruct (Hv (pred d) ltac:(lia)) as [[_ Hp] | [[-> _] | [-> _]]]; [| done | done]. split.
      * intros Hm. apply match_proto; try done. lia.
      * by intros (_ & _ & _ & ?)%Hinv.
Qed.

Lemma match_switch_spec : switch_ok.
Proof.
  pose proof (match_kinds behind lt tt) as Hinv.
  destruct (btf_kind lt) eqn:Hk; try (apply switch_other; [unfold match_switch; rewrite Hk; reflexivity | exact Hinv]).
  - apply (switch_bool (bool_decide (BTF_KIND_UNKN = btf_kind tt))); [unfold match_switch; by rewrite Hk |].
    rewrite bool_decide_eq_true. split; [intros E; by apply match_void | intros Hm; symmetry; by apply Hinv].
  - by apply switch_int.
  - by apply switch_ptr.
  - by apply switch_array.
  - apply switch_composite. unfold btf_is_composite. by rewrite Hk.
  - apply switch_composite. unfold btf_is_composite. by rewrite Hk.
  - apply switch_enum. unfold btf_is_any_enum. by rewrite Hk.
  - by apply switch_fwd.
  - by apply switch_proto.
  - apply switch_enum. unfold btf_is_any_enum. by rewrite Hk.
Qed.
End MatchSwitch.

Lemma match_loop_spec sub level depth : match_sub sub level -> match_rec (match_loop lb tb sub depth) depth (S level).
Proof.
  intros Hsub. induction depth as [|depth IH]; intros behind l t [Hl Ht]; cbn [match_loop].
  { exists (- EINVAL). split; [done |]. intros d Hd _. right; right. split; [done |]. assert (d = O) as -> by lia. exact (fun f => f). }
  destruct (skip_spec lb l Hl) as (l' & lt & Hsl & Hlt & _). destruct (skip_spec tb t Ht) as (t' & tt & Hst & Htt & _).
  rewrite Hsl, Hst. cbn [mbind option_bind].
  pose proof (core_match_inv lb tb behind l t l' lt t' tt Hsl Hst) as Hinv.
  destruct (core_name lb l' lt Hlt) as (ln & Hln & Hpl). destruct (core_name tb t' tt Htt) as (tn & Htn & Hpt).
  destruct (names_match_spec lb tb _ _ ln tn Hln Htn Hpl Hpt) as (same & -> & Hsame). cbn [mbind option_bind].
  destruct same; cbn [negb].
  2: { exists 0. split; [done |]. intros. apply verdict_no. rewrite Hinv. by intros [?%Hsame _]. }
  assert (Hinv' : core_match lb tb behind l t <-> match_kind lb tb behind lt tt) by (rewrite Hinv, <- Hsame; tauto).
  setoid_rewrite Hinv'. by apply (match_switch_spec sub (match_loop lb tb sub depth) depth level behind l l' t' lt tt).
Qed.

Lemma types_match_ok level : (level <= MAX_CORE_DEPTH)%nat -> match_sub (__bpf_core_types_match lb tb level) level.
Proof.
  induction level as [|level IH]; intros Hlev behind l t Hv; cbn [__bpf_core_types_match].
  { exists (- EINVAL). split; [done |]. intros d Hd. right; right. split; [done |]. assert (d = O) as -> by lia. exact (fun f => f). }
  destruct (match_loop_spec (__bpf_core_types_match lb tb level) level MAX_CORE_DEPTH (IH ltac:(lia)) behind l t Hv) as (r & Hr & Hver).
  exists r. split; [exact Hr |]. intros d Hd. apply Hver; lia.
Qed.
End MatchLoops.

(** C29: on BTF whose references exist and are acyclic, [bpf_core_types_match] always returns,
    1 for types that match as its comment describes (arrays of the same size, prototypes of
    as many parameters, no more members or enumerators in the local type), 0 for types that
    do not, and [-EINVAL] only for types nested 32 levels deep or more. *)
Theorem bpf_core_types_match_spec lb tb `{CoreBtf lb} `{CoreBtf tb} local_id targ_id :
  is_Some (btf__type_by_id lb local_id) -> is_Some (btf__type_by_id tb targ_id) ->
  exists r, bpf_core_types_match lb tb local_id targ_id = Some r /\
    ((r = 1 /\ core_match lb tb false local_id targ_id) \/
     (r = 0 /\ ~ core_match lb tb false local_id targ_id) \/
     (r = - EINVAL /\ ~ shallow_match lb 32 false local_id)).
Proof.
  intros Hl Ht. destruct (types_match_ok lb tb 32 ltac:(done) false local_id targ_id) as (r & Hr & Hv); [done |].
  exists r. split; [exact Hr |]. exact (Hv 32%nat ltac:(done)).
Qed.

Lemma bpf_core_types_match_spec_witness :
  core_match demo_local demo_targ false 6 6 /\ ~ core_match demo_local demo_targ false 2 3.
Proof.
  destruct (bpf_core_types_match_spec demo_local demo_targ 6 6) as (r & Hr & Hcase); [by eexists.. |].
  assert (Hr1 : Some r = Some 1) by (rewrite <- Hr; vm_compute; reflexivity). injection Hr1 as ->.
  destruct (bpf_core_types_match_spec demo_local demo_targ 2 3) as (r2 & Hr2 & Hcase2); [by eexists.. |].
  assert (Hr0 : Some r2 = Some 0) by (rewrite <- Hr2; vm_compute; reflexivity). injection Hr0 as ->.
  split.
  - destruct Hcase as [[_ Hc] | [[H0 _] | [H0 _]]]; [exact Hc | discriminate | discriminate].
  - destruct Hcase2 as [[H0 _] | [[_ Hc] | [H0 _]]]; [discriminate | exact Hc | discriminate].
Defined.
