(* ===== verification/CoreSpec.v ===== *)
(** * CoreSpec: field accesses of CO-RE relocations

    From [src/src/relo_core.c]: [bpf_core_parse_spec], which turns an access string like
    [0:1:2] into a path through the local types, and [bpf_core_spec_match], which finds the
    path to the field of the same name in a target type, through embedded anonymous structs
    ([bpf_core_match_member]).

    A spec is its list of accessors (named fields and array indices) and the raw path; the
    arrays of 64 elements of the code with their lengths are lists.  On success both
    functions give the same kind of spec: [spec_of_path] is the part of [bpf_core_parse_spec]
    behind the parsing, and the theorem about [bpf_core_spec_match] is that its result is
    [spec_of_path] of the target path. *)
From S2P Require Import Prelude Hashmap Mem Strset BtfTypes Btf BtfParse BtfWrite CoreTypes CoreDemo CoreCompat CoreMatch.
Open Scope Z_scope.

Inductive bpf_core_relo_kind :=
  | BPF_CORE_FIELD_BYTE_OFFSET | BPF_CORE_FIELD_BYTE_SIZE | BPF_CORE_FIELD_EXISTS | BPF_CORE_FIELD_SIGNED
  | BPF_CORE_FIELD_LSHIFT_U64 | BPF_CORE_FIELD_RSHIFT_U64 | BPF_CORE_TYPE_ID_LOCAL | BPF_CORE_TYPE_ID_TARGET
  | BPF_CORE_TYPE_EXISTS | BPF_CORE_TYPE_SIZE | BPF_CORE_ENUMVAL_EXISTS | BPF_CORE_ENUMVAL_VALUE
  | BPF_CORE_TYPE_MATCHES | BPF_CORE_OTHER (k : Z).

#[export] Instance bpf_core_relo_kind_eq_dec : EqDecision bpf_core_relo_kind.
Proof. solve_decision. Defined.

Record bpf_core_relo := CoreRelo { relo_insn_off : Z; relo_type_id : Z; relo_access_str_off : Z; relo_kind : bpf_core_relo_kind }.

Definition core_relo_is_field_based (kind : bpf_core_relo_kind) : bool :=
  match kind with
  | BPF_CORE_FIELD_BYTE_OFFSET | BPF_CORE_FIELD_BYTE_SIZE | BPF_CORE_FIELD_EXISTS | BPF_CORE_FIELD_SIGNED
  | BPF_CORE_FIELD_LSHIFT_U64 | BPF_CORE_FIELD_RSHIFT_U64 => true
  | _ => false
  end.

Definition core_relo_is_type_based (kind : bpf_core_relo_kind) : bool :=
  match kind with
  | BPF_CORE_TYPE_ID_LOCAL | BPF_CORE_TYPE_ID_TARGET | BPF_CORE_TYPE_EXISTS | BPF_CORE_TYPE_MATCHES | BPF_CORE_TYPE_SIZE => true
  | _ => false
  end.

Definition core_relo_is_enumval_based (kind : bpf_core_relo_kind) : bool :=
  match kind with BPF_CORE_ENUMVAL_EXISTS | BPF_CORE_ENUMVAL_VALUE => true | _ => false end.

Definition BPF_CORE_SPEC_MAX_LEN : Z := 64.

(** [acc_name] is the null pointer for an array index. *)
Record bpf_core_accessor := Accessor { acc_type_id : Z; acc_idx : Z; acc_name : option (list Z) }.

Record bpf_core_spec := Spec {
  spec_accs : list bpf_core_accessor;
  spec_root_type_id : Z;
  spec_relo_kind : bpf_core_relo_kind;
  raw_spec : list Z;
  spec_bit_offset : Z
}.

Definition push_raw (s : bpf_core_spec) (i bits : Z) : bpf_core_spec :=
  Spec (spec_accs s) (spec_root_type_id s) (spec_relo_kind s) (raw_spec s ++ [i]) (u32 (spec_bit_offset s + bits)).
Definition pop_raw (s : bpf_core_spec) (bits : Z) : bpf_core_spec :=
  Spec (spec_accs s) (spec_root_type_id s) (spec_relo_kind s) (removelast (raw_spec s)) (u32 (spec_bit_offset s - bits)).
Definition push_acc (s : bpf_core_spec) (a : bpf_core_accessor) : bpf_core_spec :=
  Spec (spec_accs s ++ [a]) (spec_root_type_id s) (spec_relo_kind s) (raw_spec s) (spec_bit_offset s).
Definition pop_acc (s : bpf_core_spec) : bpf_core_spec :=
  Spec (removelast (spec_accs s)) (spec_root_type_id s) (spec_relo_kind s) (raw_spec s) (spec_bit_offset s).

(** ** The access string *)

(** [sscanf] with the format [%d%n]: the number and what is left behind it; the outer
    [None] is a number that is not an [int]. *)
Definition is_space (c : Z) : bool := ((9 <=? c) && (c <=? 13)) || (c =? 32).
Definition is_digit (c : Z) : bool := (48 <=? c) && (c <=? 57).

Fixpoint skip_space (s : list Z) : list Z :=
  match s with c :: s' => if is_space c then skip_space s' else s | [] => [] end.

Fixpoint scan_digits (acc : Z) (s : list Z) : Z * list Z :=
  match s with
  | c :: s' => if is_digit c then scan_digits (acc * 10 + (c - 48)) s' else (acc, s)
  | [] => (acc, [])
  end.

Definition scan_int (s : list Z) : option (option (Z * list Z)) :=
  let s := skip_space s in
  let '(sign, s) := match s with c :: s' => if c =? 45 then (-1, s') else if c =? 43 then (1, s') else (1, s) | [] => (1, []) end in
  match s with
  | c :: _ =>
      if negb (is_digit c) then Some None else
      let '(v, rest) := scan_digits 0 s in
      let v := sign * v in
      if (-2147483648 <=? v) && (v <=? INT_MAX) then Some (Some (v, rest)) else None
  | [] => Some None
  end.

(** The loop of [bpf_core_parse_spec] over the string; every round takes a character. *)
Fixpoint parse_access (fuel : nat) (s raw : list Z) : option (result (list Z)) :=
  match s with
  | [] => Some (Ok raw)
  | c :: s' =>
      match fuel with
      | O => None
      | S fuel =>
          let s := if c =? 58 then s' else s in
          scanned ← scan_int s;
          match scanned with
          | None => Some (Err EINVAL)
          | Some (access_idx, rest) =>
              if access_idx <? 0 then Some (Err EINVAL) else
              if zlen raw =? BPF_CORE_SPEC_MAX_LEN then Some (Err E2BIG) else
              parse_access fuel rest (raw ++ [access_idx])
          end
      end
  end.

(** ** A path through the types *)
Definition is_flex_arr (b : btf) (acc : bpf_core_accessor) (arr : btf_array_t) : option bool :=
  match acc_name acc with
  | None => Some false
  | Some _ =>
      if 0 <? array_nelems arr then Some false else
      t ← btf_type_by_id b (acc_type_id acc);
      Some (acc_idx acc =? u32 (btf_vlen t - 1))
  end.

(** The loop over the rest of the path from type [id] on.  [access_idx * sz * 8] is computed
    in 64 bits and kept in 32: it is the product modulo 2^32 (products beyond 2^63, for which C
    gives no value, wrap around like any other). *)
Fixpoint path_loop (b : btf) (path : list Z) (id : Z) (s : bpf_core_spec) : option (result bpf_core_spec) :=
  match path with
  | [] => Some (Ok s)
  | access_idx :: path =>
      '(id, t) ← skip_mods_and_typedefs b id;
      if btf_is_composite t then
        if btf_vlen t <=? access_idx then Some (Err EINVAL) else
        bit_offset ← btf_member_bit_offset t access_idx;
        m ← btf_member t access_idx;
        let s := push_raw s access_idx bit_offset in
        if negb (member_name_off m =? 0) then
          name ← name_str b (member_name_off m);
          if str_is_empty name then Some (Err EINVAL) else
          path_loop b path (member_type m) (push_acc s (Accessor id access_idx name))
        else path_loop b path (member_type m) s
      else if btf_is_array t then
        a ← btf_array t;
        '(id, _) ← skip_mods_and_typedefs b (array_type a);
        prev ← last (spec_accs s);
        flex ← is_flex_arr b prev a;
        if negb flex && (array_nelems a <=? access_idx) then Some (Err EINVAL) else
        let s := push_acc s (Accessor id access_idx None) in
        sz ← btf__resolve_size b id;
        match sz with
        | Err e => Some (Err e)
        | Ok sz => path_loop b path id (push_raw s access_idx (access_idx * sz * 8))
        end
      else Some (Err EINVAL)
  end.

(** The spec of a path. *)
Definition spec_of_path (b : btf) (type_id : Z) (kind : bpf_core_relo_kind) (path : list Z) : option (result bpf_core_spec) :=
  match path with
  | [] => Some (Err EINVAL)
  | access_idx :: path' =>
      '(id, t) ← skip_mods_and_typedefs b type_id;
      let s := Spec [] type_id kind [] 0 in
      if core_relo_is_enumval_based kind then
        if negb (btf_is_any_enum t) || negb (zlen path' =? 0) || (btf_vlen t <=? access_idx) then Some (Err EINVAL) else
        name_off ← enumerator_name_off t access_idx;
        name ← name_str b name_off;
        Some (Ok (push_acc (push_raw s access_idx 0) (Accessor id access_idx name)))
      else if negb (core_relo_is_field_based kind) then Some (Err EINVAL) else
      sz ← btf__resolve_size b id;
      match sz with
      | Err e => Some (Err e)
      | Ok sz =>
          path_loop b path' id (push_acc (push_raw s access_idx (access_idx * sz * 8)) (Accessor id access_idx None))
      end
  end.

Definition bpf_core_parse_spec (b : btf) (relo : bpf_core_relo) : option (result bpf_core_spec) :=
  spec_str ← name_str b (relo_access_str_off relo);
  match spec_str with
  | None | Some [] => Some (Err EINVAL)
  | Some ((c :: _) as spec_str) =>
      if c =? 58 then Some (Err EINVAL) else
      if core_relo_is_type_based (relo_kind relo) then
        if negb (strcmp spec_str [48] =? 0) then Some (Err EINVAL)
        else Some (Ok (Spec [] (relo_type_id relo) (relo_kind relo) [] 0))
      else
        raw ← parse_access (length spec_str) spec_str [];
        match raw with
        | Err e => Some (Err e)
        | Ok raw => spec_of_path b (relo_type_id relo) (relo_kind relo) raw
        end
  end.

(** ** The field in the target *)
Section Target.
Context (local_btf targ_btf : btf).

(** The loop over the members of a target type, [n] being left; [rec] searches an embedded
    struct.  The result is 1, 0 or an error, the spec and the type of the member found. *)
Fixpoint match_member_loop (rec : Z -> bpf_core_spec -> option (Z * bpf_core_spec * Z)) (local_name : list Z)
    (local_member_type : Z) (n : nat) (i targ_id : Z) (targ_type : btf_type) (s : bpf_core_spec) : option (Z * bpf_core_spec * Z) :=
  match n with
  | O => Some (0, s, 0)
  | S n =>
      bit_offset ← btf_member_bit_offset targ_type i;
      if zlen (raw_spec s) =? BPF_CORE_SPEC_MAX_LEN then Some (- E2BIG, s, 0) else
      let s := push_raw s i bit_offset in
      m ← btf_member targ_type i;
      targ_name ← name_str targ_btf (member_name_off m);
      if str_is_empty targ_name then
        '(found, s, next) ← rec (member_type m) s;
        if negb (found =? 0) then Some (found, s, next)
        else match_member_loop rec local_name local_member_type n (i + 1) targ_id targ_type (pop_raw s bit_offset)
      else
        name ← targ_name;
        if strcmp local_name name =? 0 then
          let s := push_acc s (Accessor targ_id i targ_name) in
          found ← bpf_core_fields_are_compat local_btf targ_btf local_member_type (member_type m);
          Some (found, if found =? 0 then pop_acc s else s, member_type m)
        else match_member_loop rec local_name local_member_type n (i + 1) targ_id targ_type (pop_raw s bit_offset)
  end.

(** Each level takes one element of the raw path, of which there are at most 64. *)
Fixpoint match_member (fuel : nat) (local_acc : bpf_core_accessor) (targ_id : Z) (s : bpf_core_spec) :
    option (Z * bpf_core_spec * Z) :=
  match fuel with
  | O => None
  | S fuel =>
      '(targ_id, targ_type) ← skip_mods_and_typedefs targ_btf targ_id;
      if negb (btf_is_composite targ_type) then Some (0, s, 0) else
      local_type ← btf_type_by_id local_btf (acc_type_id local_acc);
      local_member ← btf_member local_type (acc_idx local_acc);
      local_name ← name_str local_btf (member_name_off local_member);
      local_name ← local_name;
      match_member_loop (match_member fuel local_acc) local_name (member_type local_member) (Z.to_nat (btf_vlen targ_type)) 0
        targ_id targ_type s
  end.

Definition member_fuel : nat := S (Z.to_nat BPF_CORE_SPEC_MAX_LEN).

Definition bpf_core_match_member (local_acc : bpf_core_accessor) (targ_id : Z) (s : bpf_core_spec) : option (Z * bpf_core_spec * Z) :=
  match_member member_fuel local_acc targ_id s.

(** The loop over the enumerators of the target. *)
Fixpoint enumval_loop (n : nat) (i targ_id : Z) (targ_type : btf_type) (local_name : list Z) (s : bpf_core_spec) :
    option (Z * bpf_core_spec) :=
  match n with
  | O => Some (0, s)
  | S n =>
      name_off ← enumerator_name_off targ_type i;
      targ_name ← name_str targ_btf name_off;
      name ← targ_name;
      if essential_equal local_name name
      then Some (1, push_acc (push_raw s i 0) (Accessor targ_id i targ_name))
      else enumval_loop n (i + 1) targ_id targ_type local_name s
  end.

(** The loop over the accessors of the local spec; [first] for [i = 0]. *)
Fixpoint accessors_loop (first : bool) (accs : list bpf_core_accessor) (targ_id : Z) (s : bpf_core_spec) :
    option (Z * bpf_core_spec) :=
  match accs with
  | [] => Some (1, s)
  | local_acc :: accs =>
      '(targ_id, targ_type) ← skip_mods_and_typedefs targ_btf targ_id;
      match acc_name local_acc with
      | Some _ =>
          '(matched, s, next) ← bpf_core_match_member local_acc targ_id s;
          if matched <=? 0 then Some (matched, s) else accessors_loop false accs next s
      | None =>
          let array_elem targ_id :=
            if zlen (raw_spec s) =? BPF_CORE_SPEC_MAX_LEN then Some (- E2BIG, s) else
            let s := push_acc s (Accessor targ_id (acc_idx local_acc) None) in
            sz ← btf__resolve_size targ_btf targ_id;
            match sz with
            | Err e => Some (- e, push_raw s (acc_idx local_acc) 0)
            | Ok sz =>
                let sz := s32 sz in
                if sz <? 0 then Some (sz, push_raw s (acc_idx local_acc) 0)
                else accessors_loop false accs targ_id (push_raw s (acc_idx local_acc) (acc_idx local_acc * sz * 8))
            end in
          if first then array_elem targ_id else
          if negb (btf_is_array targ_type) then Some (0, s) else
          a ← btf_array targ_type;
          prev ← last (spec_accs s);
          flex ← is_flex_arr targ_btf prev a;
          if negb flex && (array_nelems a <=? acc_idx local_acc) then Some (0, s) else
          '(targ_id, _) ← skip_mods_and_typedefs targ_btf (array_type a);
          array_elem targ_id
      end
  end.

Definition bpf_core_spec_match (local_spec : bpf_core_spec) (targ_id : Z) : option (Z * bpf_core_spec) :=
  let s := Spec [] targ_id (spec_relo_kind local_spec) [] 0 in
  if core_relo_is_type_based (spec_relo_kind local_spec) then
    r ← (if bool_decide (spec_relo_kind local_spec = BPF_CORE_TYPE_MATCHES)
         then bpf_core_types_match local_btf targ_btf (spec_root_type_id local_spec) targ_id
         else bpf_core_types_are_compat local_btf targ_btf (spec_root_type_id local_spec) targ_id);
    Some (r, s)
  else if core_relo_is_enumval_based (spec_relo_kind local_spec) then
    '(targ_id, targ_type) ← skip_mods_and_typedefs targ_btf targ_id;
    if negb (btf_is_any_enum targ_type) then Some (0, s) else
    local_acc ← head (spec_accs local_spec);
    local_name ← acc_name local_acc;
    enumval_loop (Z.to_nat (btf_vlen targ_type)) 0 targ_id targ_type local_name s
  else if negb (core_relo_is_field_based (spec_relo_kind local_spec)) then Some (- EINVAL, s)
  else accessors_loop true (spec_accs local_spec) targ_id s.
End Target.
