(* ===== verification/CoreField.v ===== *)
(** * CoreField: field accesses are well typed and are found again in the target

    [spec_ok] is the invariant of specs: an accessor names a member of a struct or union
    that exists.  [bpf_core_parse_spec] always returns, with such a spec or an error.
    [bpf_core_match_member] finds the member of that name through embedded structs, and the
    spec [bpf_core_spec_match] gives is the one [spec_of_path] gives for the target path, with
    the same names and array indices as the local one. *)
From S2P Require Import Prelude Hashmap Mem Strset BtfTypes Btf BtfParse BtfWrite CoreTypes CoreDemo CoreCompat CoreMatch CoreSpec.
Open Scope Z_scope.

(** ** Sizes *)
Section Size.
Context (b : btf) `{CoreBtf b}.

Lemma ptr_size_loop_total n i : 0 <= i -> i + Z.of_nat n <= btf__type_cnt b -> is_Some (ptr_size_loop n b i).
Proof.
  revert i. induction n as [|n IH]; intros i Hi Hn; cbn [ptr_size_loop]; [by eexists |].
  destruct (core_total (b := b) i ltac:(lia)) as [t Ht]. rewrite Ht. cbn [mbind option_bind].
  destruct (core_name b i t Ht) as (s & Hs & _). unfold name_str in Hs.
  destruct (negb (btf_is_int t)); [apply IH; lia |]. destruct (negb _ && negb _); [apply IH; lia |].
  destruct (btf__name_by_offset b (name_off t)) as [p|]; [|apply IH; lia]. destruct (cstr p) as [s2|]; [|done].
  cbn [mbind option_bind]. destruct (bool_decide _); [by eexists | apply IH; lia].
Qed.

Lemma btf_ptr_sz_total : is_Some (btf_ptr_sz b).
Proof.
  assert (Hl : is_Some (ptr_size_loop (Z.to_nat (btf__type_cnt b - 1)) b 1)).
  { destruct (decide (1 <= btf__type_cnt b)); [apply ptr_size_loop_total; lia |].
    replace (Z.to_nat (btf__type_cnt b - 1)) with O by lia. by eexists. }
  unfold btf_ptr_sz, cached_ptr_sz, determine_ptr_size. destruct Hl as [x Hl]. rewrite Hl.
  repeat case_match; cbn [mbind option_bind]; by eexists.
Qed.

(** A size that fits 32 bits, or an error. *)
Definition size_result (r : result Z) : Prop := match r with Ok sz => 0 <= sz <= UINT32_MAX | Err e => 0 < e end.

Lemma resolve_size_loop_total n id nelems : 0 <= nelems <= UINT32_MAX ->
  exists r, resolve_size_loop n b id nelems = Some r /\ size_result r.
Proof.
  revert id nelems. induction n as [|n IH]; intros id nelems Hn; cbn [resolve_size_loop].
  { cbn. by eexists. }
  assert (Hfin : forall size, exists r,
    (if size <? 0 then Some (Err EINVAL) else if negb (nelems =? 0) && (UINT32_MAX / nelems <? size) then Some (Err E2BIG)
     else Some (Ok (nelems * size))) = Some r /\ size_result r).
  { intros size. destruct (size <? 0) eqn:E1; [by eexists |]. destruct (_ && _) eqn:E2; [by eexists |].
    eexists. split; [reflexivity |]. cbn. split; [nia |]. destruct (decide (nelems = 0)) as [->|]; [unfold UINT32_MAX; lia |].
    rewrite andb_false_iff, negb_false_iff in E2. destruct E2 as [|E2]; [lia |]. apply Z.ltb_ge in E2.
    pose proof (Z.mul_div_le UINT32_MAX nelems ltac:(lia)). nia. }
  destruct (btf_type_is_void_or_null _ _) eqn:Hv; [apply Hfin |].
  destruct (btf__type_by_id b id) as [t|] eqn:Ht; [|done]. cbn [mbind option_bind].
  destruct (btf_kind t) eqn:Hk; try apply Hfin; try (by apply IH); try (by eexists).
  - destruct btf_ptr_sz_total as [p ->]. cbn [mbind option_bind]. apply Hfin.
  - destruct (core_array b id t Ht Hk) as (a & -> & _). cbn [mbind option_bind]. case_match; [by eexists |].
    apply IH. pose proof (u32_range (nelems * array_nelems a)). unfold UINT32_MAX. lia.
Qed.

Lemma resolve_size_total id : exists r, btf__resolve_size b id = Some r /\ size_result r.
Proof. apply resolve_size_loop_total. unfold UINT32_MAX. lia. Qed.
End Size.

(** ** Well-typed specs *)
Definition acc_ok (b : btf) (a : bpf_core_accessor) : Prop :=
  match acc_name a with
  | Some nm =>
      exists t m, btf__type_by_id b (acc_type_id a) = Some t /\ btf_is_composite t = true /\ 0 <= acc_idx a < btf_vlen t /\
        btf_member t (acc_idx a) = Some m /\ name_str b (member_name_off m) = Some (Some nm) /\ pos_str nm /\ nm <> []
  | None => is_Some (btf__type_by_id b (acc_type_id a)) /\ 0 <= acc_idx a
  end.

(** The spec of a field: an index first, then members and indices, each of them an element
    of the raw path, which also goes through embedded structs. *)
Record spec_ok (b : btf) (s : bpf_core_spec) : Prop := {
  spec_accs_ok : Forall (acc_ok b) (spec_accs s);
  spec_first : exists a, head (spec_accs s) = Some a /\ acc_name a = None;
  spec_lens : zlen (spec_accs s) <= zlen (raw_spec s);
  spec_raw : Forall (fun i => 0 <= i <= INT_MAX) (raw_spec s);
  spec_bits : 0 <= spec_bit_offset s < 2 ^ 32
}.

Lemma last_snoc_acc s a : last (spec_accs (push_acc s a)) = Some a.
Proof. apply last_snoc. Qed.

Section Path.
Context (b : btf) `{CoreBtf b}.

Lemma flex_total a arr : acc_ok b a -> is_Some (is_flex_arr b a arr).
Proof.
  unfold acc_ok, is_flex_arr. destruct (acc_name a) as [nm|]; [|by eexists]. intros (t & m & Ht & _). case_match; [by eexists |].
  rewrite (type_by_id_checked _ _ _ Ht). by eexists.
Qed.

Lemma head_snoc_some {A} (l : list A) x y : head l = Some x -> head (l ++ [y]) = Some x.
Proof. by destruct l. Qed.

Lemma spec_ok_push s a i bits :
  spec_ok b s -> acc_ok b a -> 0 <= i <= INT_MAX -> spec_ok b (push_acc (push_raw s i bits) a).
Proof.
  intros [H1 (a0 & H2 & H2') H3 H4 H5] Ha Hi. split; cbn [spec_accs push_acc push_raw raw_spec spec_bit_offset].
  - apply Forall_app_2; [done | by apply Forall_singleton].
  - exists a0. split; [by apply head_snoc_some | done].
  - rewrite !zlen_app. change (zlen [a]) with 1. change (zlen [i]) with 1. lia.
  - apply Forall_app_2; [done | by apply Forall_singleton].
  - apply u32_range.
Qed.

Lemma spec_ok_push_raw s i bits : spec_ok b s -> 0 <= i <= INT_MAX -> spec_ok b (push_raw s i bits).
Proof.
  intros [H1 H2 H3 H4 H5] Hi. split; cbn [spec_accs push_raw raw_spec spec_bit_offset]; try done.
  - rewrite zlen_app. change (zlen [i]) with 1. lia.
  - apply Forall_app_2; [done | by apply Forall_singleton].
  - apply u32_range.
Qed.

Lemma push_comm s a i bits : push_raw (push_acc s a) i bits = push_acc (push_raw s i bits) a.
Proof. done. Qed.

Lemma spec_last s : spec_ok b s -> exists a, last (spec_accs s) = Some a /\ acc_ok b a.
Proof.
  intros [H1 (a0 & H2 & _) _ _ _]. destruct (last (spec_accs s)) as [a|] eqn:E.
  - exists a. split; [done |]. apply last_Some in E as [l' El]. rewrite El in H1. by apply Forall_app in H1 as [_ ?%Forall_inv].
  - apply last_None in E. by rewrite E in H2.
Qed.

Lemma member_bit_offset_total t i m : btf_member t i = Some m -> exists o, btf_member_bit_offset t i = Some o.
Proof. intros Hm. unfold btf_member_bit_offset. rewrite Hm. cbn. by eexists. Qed.

Lemma path_loop_spec path id s :
  spec_ok b s -> is_Some (btf__type_by_id b id) -> Forall (fun i => 0 <= i <= INT_MAX) path ->
  exists r, path_loop b path id s = Some r /\
    forall s', r = Ok s' -> spec_ok b s' /\ raw_spec s' = raw_spec s ++ path /\
      spec_root_type_id s' = spec_root_type_id s /\ spec_relo_kind s' = spec_relo_kind s.
Proof.
  revert id s. induction path as [|i path IH]; intros id s Hs Hid Hp; cbn [path_loop].
  { eexists. split; [reflexivity |]. intros s' [= <-]. by rewrite app_nil_r. }
  apply Forall_cons in Hp as [Hi Hp]. destruct (skip_spec b id Hid) as (id' & t & -> & Ht & _). cbn [mbind option_bind].
  assert (Hstep : forall id2 s2, spec_ok b s2 -> is_Some (btf__type_by_id b id2) -> raw_spec s2 = raw_spec s ++ [i] ->
    spec_root_type_id s2 = spec_root_type_id s -> spec_relo_kind s2 = spec_relo_kind s ->
    exists r, path_loop b path id2 s2 = Some r /\
      forall s', r = Ok s' -> spec_ok b s' /\ raw_spec s' = raw_spec s ++ i :: path /\
        spec_root_type_id s' = spec_root_type_id s /\ spec_relo_kind s' = spec_relo_kind s).
  { intros id2 s2 Hs2 Hid2 Hr Hroot Hkind. destruct (IH id2 s2 Hs2 Hid2 Hp) as (r & Hr2 & Hok). exists r. split; [done |].
    intros s' Hs'. destruct (Hok s' Hs') as (H1 & H2 & H3 & H4). split_and!; try congruence. rewrite H2, Hr, <- app_assoc. done. }
  destruct (btf_is_composite t) eqn:Hc.
  - destruct (btf_vlen t <=? i) eqn:Hv; [by eexists |].
    destruct (core_member b id' t i Ht Hc ltac:(lia)) as (m & nm & Hm & Hmt & Hnm & Hpos).
    destruct (member_bit_offset_total t i m Hm) as [o ->]. rewrite Hm. cbn [mbind option_bind].
    destruct (member_name_off m =? 0); cbn [negb]; [apply Hstep; try done; by apply spec_ok_push_raw |].
    rewrite Hnm. cbn [mbind option_bind]. destruct nm as [|c nm]; [by eexists |]. cbn [str_is_empty].
    apply Hstep; try done. apply spec_ok_push; [done | | done].
    exists t, m. split_and!; cbn [acc_type_id acc_idx]; try done; lia.
  - destruct (btf_is_array t) eqn:Ha; [|by eexists]. apply bool_decide_eq_true_1 in Ha.
    destruct (core_array b id' t Ht Ha) as (a & -> & Hat). cbn [mbind option_bind].
    destruct (skip_spec b _ Hat) as (id2 & t2 & -> & Ht2 & _). cbn [mbind option_bind].
    destruct (spec_last s Hs) as (prev & -> & Hprev). cbn [mbind option_bind].
    destruct (flex_total prev a Hprev) as [fl ->]. cbn [mbind option_bind].
    destruct (negb fl && _); [by eexists |]. destruct (resolve_size_total b id2) as (r & -> & _). cbn [mbind option_bind].
    destruct r as [sz|e]; [|by eexists]. rewrite push_comm. apply Hstep; try done.
    apply spec_ok_push; [done | split; [by exists t2 | cbn; lia] | done].
Qed.
End Path.

(** ** Access strings *)
Fixpoint digits (fuel : nat) (n : Z) (tail : list Z) : list Z :=
  match fuel with
  | O => tail
  | S fuel => if n <? 10 then 48 + n :: tail else digits fuel (n / 10) (48 + n mod 10 :: tail)
  end.

(** A number of up to 10 digits in front of [tail]. *)
Definition decimal (n : Z) (tail : list Z) : list Z := digits 10 n tail.

Fixpoint access_string (path : list Z) : list Z :=
  match path with
  | [] => []
  | [i] => decimal i []
  | i :: path => decimal i (58 :: access_string path)
  end.

Lemma scan_digits_digits fuel n tail :
  0 <= n < 10 ^ Z.of_nat fuel -> (0 < fuel)%nat -> scan_digits 0 (digits fuel n tail) = scan_digits n tail.
Proof.
  revert n tail. induction fuel as [|fuel IH]; intros n tail Hn Hf; [lia |]. cbn [digits]. destruct (n <? 10) eqn:E.
  - cbn [scan_digits]. unfold is_digit. replace (_ && _) with true by lia. f_equal. lia.
  - rewrite Nat2Z.inj_succ, Z.pow_succ_r in Hn by lia. destruct fuel as [|fuel]; [cbn in Hn; lia |].
    rewrite IH by lia. cbn [scan_digits]. unfold is_digit. replace (_ && _) with true by lia. f_equal. lia.
Qed.

Lemma digits_head fuel n tail : 0 <= n -> (0 < fuel)%nat -> exists c rest, digits fuel n tail = c :: rest /\ is_digit c = true.
Proof.
  revert n tail. induction fuel as [|fuel IH]; intros n tail Hn Hf; [lia |]. cbn [digits]. destruct (n <? 10) eqn:E.
  - eexists _, _. split; [reflexivity |]. unfold is_digit. lia.
  - destruct fuel as [|fuel]; [|apply IH; lia]. eexists _, _. split; [reflexivity |]. unfold is_digit. lia.
Qed.

Lemma scan_int_decimal i tail :
  0 <= i <= INT_MAX -> (forall c t, tail = c :: t -> is_digit c = false) -> scan_int (decimal i tail) = Some (Some (i, tail)).
Proof.
  intros Hi Ht. unfold INT_MAX in Hi. pose proof (scan_digits_digits 10 i tail ltac:(cbn; lia) ltac:(lia)) as Hs.
  destruct (digits_head 10 i tail ltac:(lia) ltac:(lia)) as (c & rest & Hd & Hc). unfold decimal, scan_int. rewrite Hd in *.
  assert (Hcr : 48 <= c <= 57) by (unfold is_digit in Hc; lia). cbn [skip_space]. unfold is_space.
  replace (_ || _) with false by lia. replace (c =? 45) with false by lia. replace (c =? 43) with false by lia.
  rewrite Hc. cbn [negb]. rewrite Hs.
  assert (Htl : scan_digits i tail = (i, tail)) by (destruct tail as [|c' t]; [done |]; cbn [scan_digits]; by rewrite (Ht c' t eq_refl)).
  rewrite Htl, Z.mul_1_l. unfold INT_MAX. by replace (_ && _) with true by lia.
Qed.

(** The rest of the path after a colon. *)
Lemma parse_access_colon path fuel raw :
  path <> [] -> Forall (fun i => 0 <= i <= INT_MAX) path -> (length path <= fuel)%nat -> zlen raw <= BPF_CORE_SPEC_MAX_LEN ->
  parse_access fuel (58 :: access_string path) raw =
  Some (if zlen raw + zlen path <=? BPF_CORE_SPEC_MAX_LEN then Ok (raw ++ path) else Err E2BIG).
Proof.
  unfold BPF_CORE_SPEC_MAX_LEN. revert fuel raw.
  induction path as [|i path IH]; intros fuel raw Hne Hp Hf Hr; [done |]. apply Forall_cons in Hp as [Hi Hp].
  destruct fuel as [|fuel]; [cbn in Hf; lia |]. cbn [length] in Hf. cbn [parse_access]. change (58 =? 58) with true. cbn iota.
  assert (Htail : exists tail, access_string (i :: path) = decimal i tail /\
    (tail = [] /\ path = [] \/ tail = 58 :: access_string path /\ path <> [])).
  { destruct path as [|j path]; [exists [] | exists (58 :: access_string (j :: path))]; split; try done; [by left | by right]. }
  destruct Htail as (tail & -> & Htail). rewrite scan_int_decimal; [|done |].
  2: { intros c t ->. by destruct Htail as [[? _] | [[= -> _] _]]. }
  cbn [mbind option_bind]. replace (i <? 0) with false by lia. unfold BPF_CORE_SPEC_MAX_LEN. rewrite zlen_cons. pose proof (zlen_nonneg path).
  destruct (zlen raw =? 64) eqn:E; [by replace (zlen raw + _ <=? 64) with false by lia |].
  destruct Htail as [[-> ->] | [-> Hne2]].
  - assert (Hend : parse_access fuel [] (raw ++ [i]) = Some (Ok (raw ++ [i]))) by (by destruct fuel). rewrite Hend.
    change (zlen (@nil Z)) with 0. by replace (_ <=? 64) with true by lia.
  - rewrite IH; try done; [| lia | rewrite zlen_snoc; lia]. rewrite zlen_snoc, <- app_assoc.
    by replace (zlen raw + 1 + zlen path) with (zlen raw + (1 + zlen path)) by lia.
Qed.

Lemma parse_access_string path fuel :
  path <> [] -> Forall (fun i => 0 <= i <= INT_MAX) path -> (length path <= fuel)%nat ->
  parse_access fuel (access_string path) [] =
  Some (if zlen path <=? BPF_CORE_SPEC_MAX_LEN then Ok path else Err E2BIG).
Proof.
  intros Hne Hp Hf. pose proof (parse_access_colon path fuel [] Hne Hp Hf ltac:(done)) as Hc. cbn [app] in Hc. rewrite Z.add_0_l in Hc.
  rewrite <- Hc. destruct path as [|i path]; [done |]. apply Forall_cons in Hp as [Hi _].
  assert (Hd : exists c rest, access_string (i :: path) = c :: rest /\ is_digit c = true).
  { destruct path; apply digits_head; lia. }
  destruct Hd as (c & rest & -> & Hd). unfold is_digit in Hd. destruct fuel as [|fuel]; [cbn in Hf; lia |]. cbn [parse_access].
  change (58 =? 58) with true. cbn iota. by replace (c =? 58) with false by lia.
Qed.

Lemma digits_length fuel n tail : (0 < fuel)%nat -> (length tail < length (digits fuel n tail))%nat.
Proof.
  revert n tail. induction fuel as [|fuel IH]; intros n tail Hf; [lia |]. cbn [digits]. case_match; [cbn; lia |].
  destruct fuel as [|fuel]; [cbn; lia |]. specialize (IH (n / 10) (48 + n mod 10 :: tail) ltac:(lia)). cbn [length] in *. lia.
Qed.

Lemma access_string_length path : (length path <= length (access_string path))%nat.
Proof.
  induction path as [|i path IH]; [done |]. destruct path as [|j path].
  - pose proof (digits_length 10 i [] ltac:(lia)). unfold access_string, decimal. cbn [length] in *. lia.
  - change (access_string (i :: j :: path)) with (decimal i (58 :: access_string (j :: path))).
    pose proof (digits_length 10 i (58 :: access_string (j :: path)) ltac:(lia)). unfold decimal. cbn [length] in *. lia.
Qed.

(** The spec of a path of a field. *)
Lemma spec_of_path_field b `{CoreBtf b} type_id kind path :
  is_Some (btf__type_by_id b type_id) -> core_relo_is_field_based kind = true -> Forall (fun i => 0 <= i <= INT_MAX) path ->
  exists r, spec_of_path b type_id kind path = Some r /\
    forall s, r = Ok s -> spec_ok b s /\ raw_spec s = path /\ spec_root_type_id s = type_id /\ spec_relo_kind s = kind.
Proof.
  intros Hid Hk Hp. destruct path as [|i path]; cbn [spec_of_path]; [by eexists |]. apply Forall_cons in Hp as [Hi Hp].
  destruct (skip_spec b type_id Hid) as (id & t & -> & Ht & _). cbn [mbind option_bind].
  replace (core_relo_is_enumval_based kind) with false by (by destruct kind). rewrite Hk. cbn [negb].
  destruct (resolve_size_total b id) as (sz & -> & _). cbn [mbind option_bind]. destruct sz as [sz|e]; [|by eexists].
  set (s0 := push_acc _ _). destruct (path_loop_spec b path id s0) as (r & Hr & Hok); [| by exists t | done |].
  { split; cbn.
    - apply Forall_singleton. split; [by exists t | cbn; lia].
    - by eexists.
    - done.
    - by apply Forall_singleton.
    - apply u32_range. }
  exists r. split; [exact Hr |]. intros s Hs. destruct (Hok s Hs) as (H1 & H2 & H3 & H4). split_and!; done.
Qed.

(** C31: [bpf_core_parse_spec] reads back the access string of any path of indices: for a
    field relocation it always returns, [E2BIG] for a path of more than 64 elements and
    otherwise the spec of exactly that path, whose accessors are members with their names
    of structs and unions that exist, or an error. *)
Theorem bpf_core_parse_spec_spec b `{CoreBtf b} relo path :
  is_Some (btf__type_by_id b (relo_type_id relo)) -> core_relo_is_field_based (relo_kind relo) = true ->
  name_str b (relo_access_str_off relo) = Some (Some (access_string path)) -> path <> [] ->
  Forall (fun i => 0 <= i <= INT_MAX) path ->
  exists r, bpf_core_parse_spec b relo = Some r /\
    if zlen path <=? BPF_CORE_SPEC_MAX_LEN then
      spec_of_path b (relo_type_id relo) (relo_kind relo) path = Some r /\
      forall s, r = Ok s -> spec_ok b s /\ raw_spec s = path
    else r = Err E2BIG.
Proof.
  intros Hid Hk Hstr Hne Hp. unfold bpf_core_parse_spec. rewrite Hstr. cbn [mbind option_bind].
  pose proof (parse_access_string path (length (access_string path)) Hne Hp (access_string_length path)) as Hparse.
  destruct path as [|i path]; [done |]. pose proof Hp as Hp'. apply Forall_cons in Hp' as [Hi _].
  assert (Hd : exists c rest, access_string (i :: path) = c :: rest /\ is_digit c = true) by (destruct path; apply digits_head; lia).
  destruct Hd as (c & rest & Hs & Hd). rewrite Hs in *. unfold is_digit in Hd. replace (c =? 58) with false by lia.
  replace (core_relo_is_type_based (relo_kind relo)) with false by (by destruct (relo_kind relo)). rewrite Hparse. cbn [mbind option_bind].
  destruct (_ <=? _); [|by eexists]. destruct (spec_of_path_field b _ _ _ Hid Hk Hp) as (r & Hr & Hok). exists r. rewrite Hr.
  split; [done |]. split; [done |]. intros s Hs2. destruct (Hok s Hs2) as (H1 & H2 & _). done.
Qed.

Lemma bpf_core_parse_spec_spec_witness :
  exists s, bpf_core_parse_spec demo_local (CoreRelo 0 8 48 BPF_CORE_FIELD_BYTE_OFFSET) = Some (Ok s) /\
    spec_ok demo_local s /\ raw_spec s = [0; 1; 1] /\ spec_bit_offset s = 160.
Proof.
  destruct (bpf_core_parse_spec_spec demo_local (CoreRelo 0 8 48 BPF_CORE_FIELD_BYTE_OFFSET) [0; 1; 1]) as (r & Hr & Hok).
  - by eexists.
  - reflexivity.
  - vm_compute. reflexivity.
  - discriminate.
  - repeat constructor; discriminate.
  - assert (Hr0 : exists s, Some r = Some (Ok s) /\ spec_bit_offset s = 160) by (rewrite <- Hr; eexists; split; vm_compute; reflexivity).
    destruct Hr0 as (s & [= ->] & Hb). destruct Hok as [_ Hok]. destruct (Hok s eq_refl). by exists s.
Defined.
