(* ===== verification/CoreMember.v ===== *)
(** * CoreMember: a field is found again in the target type

    [bpf_core_match_member] searches the members of a target type, through embedded structs,
    for the one with a given name; [member_path] is the relation it decides.  The spec that
    [bpf_core_spec_match] builds for a field is the spec [spec_of_path] of
    [bpf_core_parse_spec] gives for the raw path in the target, and its accessors have the
    names and the array indices of the local ones. *)
From Stdlib Require String.
From stdpp Require Import strings.
From S2P Require Import Prelude Hashmap Mem Strset BtfTypes Btf BtfFind BtfParse BtfWrite CoreTypes CoreDemo CoreCompat CoreMatch CoreSpec CoreField.
Open Scope Z_scope.

Lemma composite_not_array t : btf_is_composite t = true -> btf_is_array t = false.
Proof. unfold btf_is_composite, btf_is_struct, btf_is_union, btf_is_array. by destruct (btf_kind t). Qed.

(** ** Members through embedded structs *)

(** [m] is member [i] of the struct or union behind the modifiers and typedefs of [id]. *)
Definition member_at (b : btf) (id id' i : Z) (m : btf_member_t) : Prop :=
  exists t, skip_mods_and_typedefs b id = Some (id', t) /\ btf_is_composite t = true /\ 0 <= i < btf_vlen t /\ btf_member t i = Some m.

(** [path] leads from [id] to a member called [name], of type [mt]. *)
Inductive member_path (b : btf) : Z -> list Z -> list Z -> Z -> Prop :=
  | path_here id id' i m c name :
      member_at b id id' i m -> name_str b (member_name_off m) = Some (Some (c :: name)) ->
      member_path b id [i] (c :: name) (member_type m)
  | path_embedded id id' i m path name mt :
      member_at b id id' i m -> name_str b (member_name_off m) = Some (Some []) ->
      member_path b (member_type m) path name mt -> member_path b id (i :: path) name mt.

(** Structs are embedded at most [d - 1] deep in [id]. *)
Fixpoint nested (b : btf) (d : nat) (id : Z) : Prop :=
  match d with
  | O => False
  | S d => forall id' i m, member_at b id id' i m -> name_str b (member_name_off m) = Some (Some []) -> nested b d (member_type m)
  end.

(** What C promises of structs: a name is the name of one field only, those of embedded
    structs included, and only structs and unions are embedded.  The empty string is the
    one at offset 0. *)
Class UniqueMembers (b : btf) : Prop := {
  unique_path id p1 p2 name mt1 mt2 : member_path b id p1 name mt1 -> member_path b id p2 name mt2 -> p1 = p2;
  anon_offset id id' i m s : member_at b id id' i m -> name_str b (member_name_off m) = Some (Some s) ->
    member_name_off m = 0 <-> s = [];
  anon_composite id id' i m : member_at b id id' i m -> name_str b (member_name_off m) = Some (Some []) ->
    exists mid t, skip_mods_and_typedefs b (member_type m) = Some (mid, t) /\ btf_is_composite t = true
}.

(** The type of the field of a named accessor. *)
Definition acc_field (b : btf) (a : bpf_core_accessor) : option Z :=
  t ← btf__type_by_id b (acc_type_id a); m ← btf_member t (acc_idx a); Some (member_type m).

Lemma acc_named b `{CoreBtf b} a nm :
  acc_ok b a -> acc_name a = Some nm -> exists t m, btf__type_by_id b (acc_type_id a) = Some t /\ btf_member t (acc_idx a) = Some m /\
    name_str b (member_name_off m) = Some (Some nm) /\ pos_str nm /\ acc_field b a = Some (member_type m) /\ is_Some (btf__type_by_id b (member_type m)).
Proof.
  unfold acc_ok. intros Ha Hn. rewrite Hn in Ha. destruct Ha as (t & m & Ht & Hc & Hi & Hm & Hnm & Hp & _). exists t, m.
  destruct (core_member b _ t _ Ht Hc Hi) as (m' & s & Hm' & Hty & _). assert (m' = m) as -> by congruence.
  unfold acc_field. rewrite Ht. cbn [mbind option_bind]. by rewrite Hm.
Qed.

Section Member.
Context (lb tb : btf) `{CoreBtf lb} `{CoreBtf tb} `{UniqueMembers tb}.

Definition same_access (la ta : bpf_core_accessor) : Prop :=
  match acc_name la, acc_name ta with
  | Some ln, Some tn => ln = tn /\ exists l t, acc_field lb la = Some l /\ acc_field tb ta = Some t /\ field_compatible lb tb l t
  | None, None => acc_idx la = acc_idx ta
  | _, _ => False
  end.

Section Loop.
Context (lname : list Z) (lmt : Z).
Hypothesis (Hlname : pos_str lname) (Hlmt : is_Some (btf__type_by_id lb lmt)).

(** [s'] is [s] with the path to the field and its accessor. *)
Definition pushed (id : Z) (s : bpf_core_spec) (path : list Z) (mt : Z) (s' : bpf_core_spec) : Prop :=
  raw_spec s' = raw_spec s ++ path /\
  (exists a, spec_accs s' = spec_accs s ++ [a] /\ acc_name a = Some lname /\ acc_ok tb a /\ acc_field tb a = Some mt) /\
  0 <= spec_bit_offset s' < 2 ^ 32 /\
  forall rest, path_loop tb (path ++ rest) id s = path_loop tb rest mt s'.

(** The field of that name is not compatible. *)
Definition incompatible (id : Z) : Prop := exists p mt, member_path tb id p lname mt /\ ~ field_compatible lb tb lmt mt.

Definition match_post (id : Z) (s : bpf_core_spec) (r : Z * bpf_core_spec * Z) : Prop :=
  let '(found, s', next) := r in
  zlen (raw_spec s) <= zlen (raw_spec s') <= BPF_CORE_SPEC_MAX_LEN /\
  ((found = 1 /\ exists p, member_path tb id p lname next /\ field_compatible lb tb lmt next /\ pushed id s p next s') \/
   (found = 0 /\ s' = s /\ forall p mt, ~ member_path tb id p lname mt) \/
   ((found = 0 \/ found = - E2BIG) /\ incompatible id) \/
   (found = - E2BIG /\ forall d, nested tb d id -> BPF_CORE_SPEC_MAX_LEN < zlen (raw_spec s) + Z.of_nat d)).

Definition rec_found (rec : Z -> bpf_core_spec -> option (Z * bpf_core_spec * Z)) (fuel : Z) : Prop :=
  forall mt s, is_Some (btf__type_by_id tb mt) -> 0 <= spec_bit_offset s < 2 ^ 32 ->
  zlen (raw_spec s) <= BPF_CORE_SPEC_MAX_LEN -> BPF_CORE_SPEC_MAX_LEN < fuel + zlen (raw_spec s) ->
  exists r, rec mt s = Some r /\ match_post mt s r.

Lemma pop_push s i bits : 0 <= spec_bit_offset s < 2 ^ 32 -> pop_raw (push_raw s i bits) bits = s.
Proof.
  intros Hb. destruct s as [accs root kind raw off]. unfold pop_raw, push_raw. cbn in *. rewrite removelast_last. f_equal.
  unfold uwrap in *. rewrite Zminus_mod_idemp_l. replace (off + bits - bits) with off by lia. by rewrite Z.mod_small.
Qed.

Lemma removelast_zlen (l : list Z) : zlen (removelast l) = Z.max 0 (zlen l - 1).
Proof.
  destruct (decide (l = [])) as [->|Hne]; [done |]. destruct (exists_last Hne) as (l' & x & ->).
  rewrite removelast_last, zlen_snoc. pose proof (zlen_nonneg l'). lia.
Qed.

(** Where the loop is: nothing of that name so far and the spec as it was, or an
    incompatible field of that name. *)
Definition searched (id i : Z) (s0 s : bpf_core_spec) : Prop :=
  (s = s0 /\ forall j p mt, j < i -> ~ member_path tb id (j :: p) lname mt) \/
  exists j p mt, j < i /\ member_path tb id (j :: p) lname mt /\ ~ field_compatible lb tb lmt mt.

Lemma searched_clean id i s0 s p mt : searched id i s0 s -> member_path tb id (i :: p) lname mt -> s = s0.
Proof.
  intros [[-> _] | (j & p2 & mt2 & Hj & Hp2 & _)] Hp; [done |].
  pose proof (unique_path _ _ _ _ _ _ Hp Hp2) as [= ->]. lia.
Qed.

Lemma member_path_inv id id' i m nm p name mt :
  member_at tb id id' i m -> name_str tb (member_name_off m) = Some (Some nm) -> member_path tb id (i :: p) name mt ->
  (nm = name /\ nm <> [] /\ p = [] /\ mt = member_type m) \/ (nm = [] /\ member_path tb (member_type m) p name mt).
Proof.
  intros (t & Hs & _ & _ & Hm) Hnm Hp. inversion Hp as [id1 id2 i1 m1 c name1 (t1 & Hs1 & _ & _ & Hm1) Hn1 | id1 id2 i1 m1 p1 name1 mt1 (t1 & Hs1 & _ & _ & Hm1) Hn1 Hp1]; subst;
    rewrite Hs in Hs1; injection Hs1 as <- <-; rewrite Hm in Hm1; injection Hm1 as <-; rewrite Hnm in Hn1; injection Hn1 as ->; [by left | by right].
Qed.

(** The next member, when this one is not the field. *)
Lemma searched_next id id' i m nm s0 s :
  member_at tb id id' i m -> name_str tb (member_name_off m) = Some (Some nm) ->
  (forall p mt, ~ member_path tb id (i :: p) lname mt) -> searched id i s0 s -> searched id (i + 1) s0 s.
Proof.
  intros Hm Hnm Hno [[-> Hc] | (j & p & mt & Hj & Hp)]; [left | right; exists j, p, mt; split; [lia | done]].
  split; [done |]. intros j p mt Hj Hp. destruct (decide (j = i)) as [->|]; [by apply (Hno p mt) | apply (Hc j p mt); [lia | done]].
Qed.

(** Pushing a member of a struct is a step of [path_loop]. *)
Lemma path_loop_member id id' i m nm s bits rest :
  member_at tb id id' i m -> name_str tb (member_name_off m) = Some (Some nm) ->
  (t ← snd <$> skip_mods_and_typedefs tb id; btf_member_bit_offset t i) = Some bits ->
  path_loop tb (i :: rest) id s =
  path_loop tb rest (member_type m) (match nm with [] => push_raw s i bits | _ => push_acc (push_raw s i bits) (Accessor id' i (Some nm)) end).
Proof.
  intros Hat Hnm Hbits. pose proof (anon_offset id id' i m nm Hat Hnm) as Hz. destruct Hat as (t & Hs & Hc & Hi & Hm).
  cbn [path_loop]. rewrite Hs in *. cbn in Hbits. cbn [mbind option_bind]. rewrite Hc, Hbits, Hm. replace (btf_vlen t <=? i) with false by lia.
  cbn [mbind option_bind]. destruct nm as [|c nm].
  - by rewrite (proj2 Hz eq_refl).
  - assert (Hne : member_name_off m <> 0) by (intros E; by apply Hz in E). replace (member_name_off m =? 0) with false by lia.
    rewrite Hnm. done.
Qed.

Lemma pushed_here id id' i m s bits :
  member_at tb id id' i m -> name_str tb (member_name_off m) = Some (Some lname) -> lname <> [] ->
  (t ← snd <$> skip_mods_and_typedefs tb id; btf_member_bit_offset t i) = Some bits ->
  pushed id s [i] (member_type m) (push_acc (push_raw s i bits) (Accessor id' i (Some lname))).
Proof.
  intros Hat Hnm Hne Hbits. split; [done |]. split.
  - eexists. split; [reflexivity |]. split; [done |]. destruct Hat as (t & Hs & Hc & Hi & Hm).
    destruct (skip_valid tb _ _ _ Hs) as [Ht _]. split.
    + exists t, m. cbn [acc_type_id acc_idx]. done.
    + unfold acc_field. cbn [acc_type_id acc_idx]. rewrite Ht. cbn [mbind option_bind]. by rewrite Hm.
  - split; [apply u32_range |]. intros rest. cbn [app]. rewrite (path_loop_member id id' i m lname s bits rest) by done. by destruct lname.
Qed.

Lemma pushed_embedded id id' i m s bits p mt s' :
  member_at tb id id' i m -> name_str tb (member_name_off m) = Some (Some []) ->
  (t ← snd <$> skip_mods_and_typedefs tb id; btf_member_bit_offset t i) = Some bits ->
  pushed (member_type m) (push_raw s i bits) p mt s' -> pushed id s (i :: p) mt s'.
Proof.
  intros Hat Hnm Hbits (Hraw & Hacc & Hbit & Hloop). split; [|split; [|split]].
  - rewrite Hraw. cbn [raw_spec push_raw]. by rewrite <- app_assoc.
  - exact Hacc.
  - exact Hbit.
  - intros rest. cbn [app]. rewrite (path_loop_member id id' i m [] s bits (p ++ rest)) by done. apply Hloop.
Qed.

(** The member of that name. *)
Lemma match_hit id id' i m s0 s bits :
  searched id i s0 s -> member_at tb id id' i m -> name_str tb (member_name_off m) = Some (Some lname) -> lname <> [] ->
  (t ← snd <$> skip_mods_and_typedefs tb id; btf_member_bit_offset t i) = Some bits ->
  is_Some (btf__type_by_id tb (member_type m)) -> zlen (raw_spec s) < BPF_CORE_SPEC_MAX_LEN ->
  let s1 := push_acc (push_raw s i bits) (Accessor id' i (Some lname)) in
  exists r, (found ← bpf_core_fields_are_compat lb tb lmt (member_type m);
      Some (found, if found =? 0 then pop_acc s1 else s1, member_type m)) = Some r /\ match_post id s0 r.
Proof.
  intros Hse Hat Hnm Hne Hbits Hmt Hlen s1.
  assert (Hpath : member_path tb id [i] lname (member_type m)) by (destruct lname; [done | by eapply path_here]).
  pose proof (searched_clean _ _ _ _ _ _ Hse Hpath) as ->.
  destruct (fields_are_compat_ok lb tb lmt (member_type m)) as (r & -> & Hr); [done |]. cbn [mbind option_bind].
  assert (Hz : zlen (raw_spec s1) = zlen (raw_spec s0) + 1) by apply zlen_snoc.
  eexists. split; [reflexivity |]. destruct r; cbn [Z.b2z Z.eqb].
  - split; [lia |]. left. split; [done |]. exists [i]. split; [done |]. split; [by apply Hr | by apply pushed_here].
  - split; [cbn [raw_spec pop_acc]; lia |]. right; right; left. split; [by left |]. exists [i], (member_type m). split; [done |].
    intros Hf. by apply Hr in Hf.
Qed.

(** The search ends where the path is full. *)
Lemma search_too_deep id i s0 s s' next :
  searched id i s0 s -> (forall d, nested tb d id -> BPF_CORE_SPEC_MAX_LEN < zlen (raw_spec s) + Z.of_nat d) ->
  zlen (raw_spec s0) <= zlen (raw_spec s') <= BPF_CORE_SPEC_MAX_LEN -> match_post id s0 (- E2BIG, s', next).
Proof.
  intros Hse Hd Hl. split; [done |]. right; right. destruct Hse as [[-> _] | (j & p & mt & _ & Hp & Hnc)]; [by right | left].
  split; [by right | by eexists _, _].
Qed.

Lemma match_member_loop_spec rec fuel id id' t s0 n :
  rec_found rec fuel -> skip_mods_and_typedefs tb id = Some (id', t) -> btf_is_composite t = true ->
  0 <= spec_bit_offset s0 < 2 ^ 32 -> forall i s,
  0 <= i -> i + Z.of_nat n = btf_vlen t -> searched id i s0 s ->
  zlen (raw_spec s0) <= zlen (raw_spec s) <= BPF_CORE_SPEC_MAX_LEN -> BPF_CORE_SPEC_MAX_LEN <= fuel + zlen (raw_spec s0) ->
  exists r, match_member_loop lb tb rec lname lmt n i id' t s = Some r /\ match_post id s0 r.
Proof.
  intros Hrec Hs Hc Hb0. induction n as [|n IH]; intros i s Hi Hn Hse Hlen Hfuel; cbn [match_member_loop].
  { eexists. split; [reflexivity |]. split; [done |]. right.
    destruct Hse as [[-> Hno] | (j & p & mt & _ & Hp & Hnc)]; [left | right; left; split; [by left | by eexists _, _]].
    split; [done |]. split; [done |]. intros p mt Hp. destruct p as [|j p]; [inversion Hp |]. apply (Hno j p mt); [|done].
    inversion Hp as [? ? ? ? ? ? (t1 & Hs1 & _ & Hr1 & _) | ? ? ? ? ? ? ? (t1 & Hs1 & _ & Hr1 & _)]; subst;
      rewrite Hs in Hs1; injection Hs1 as <- <-; lia. }
  destruct (skip_valid tb _ _ _ Hs) as [Ht _].
  destruct (core_member tb id' t i Ht Hc ltac:(lia)) as (m & nm & Hm & Hmt & Hnm & Hpos).
  assert (Hat : member_at tb id id' i m) by (exists t; split_and!; (done || lia)).
  destruct (member_bit_offset_total t i m Hm) as [bits Hbits]. rewrite Hbits, Hm. cbn [mbind option_bind].
  assert (Hbits' : (t ← snd <$> skip_mods_and_typedefs tb id; btf_member_bit_offset t i) = Some bits) by (by rewrite Hs).
  destruct (zlen (raw_spec s) =? BPF_CORE_SPEC_MAX_LEN) eqn:Efull; [eexists; split; [reflexivity |]; eapply search_too_deep; [exact Hse | | lia]; intros [|d] Hd; [done | lia] |].
  rewrite Hnm. cbn [mbind option_bind].
  assert (Hzp : zlen (raw_spec (push_raw s i bits)) = zlen (raw_spec s) + 1) by apply zlen_snoc.
  destruct nm as [|c nm]; cbn [str_is_empty].
  - destruct (Hrec (member_type m) (push_raw s i bits) Hmt ltac:(apply u32_range) ltac:(lia) ltac:(lia)) as ([[found s'] next] & -> & Hpost).
    cbn [mbind option_bind]. destruct Hpost as [Hl [[-> (p & Hp & Hcp & Hpu)] | [Hno | [[Hf (p & mt & Hp & Hnc)] | [-> Hdeep]]]]]; cbn [Z.eqb negb].
    + eexists. split; [reflexivity |]. split; [lia |]. left. split; [done |]. exists (i :: p).
      assert (Hpath : member_path tb id (i :: p) lname next) by (by eapply path_embedded).
      pose proof (searched_clean _ _ _ _ _ _ Hse Hpath) as ->. split; [done |]. split; [done |]. by eapply pushed_embedded.
    + destruct Hno as (-> & -> & Hno). apply IH; try lia.
      * eapply searched_next; [exact Hat | exact Hnm | |].
        -- intros p mt Hp. destruct (member_path_inv _ _ _ _ _ _ _ _ Hat Hnm Hp) as [(_ & Hnil & _) | [_ Hp']]; [done | by apply (Hno p mt)].
        -- destruct Hse as [[-> Hc0] | Hd]; [left | by right]. by rewrite pop_push.
      * cbn [raw_spec pop_raw push_raw]. rewrite removelast_last. lia.
    + assert (Hpath : member_path tb id (i :: p) lname mt) by (by eapply path_embedded).
      destruct Hf as [-> | ->]; cbn [Z.eqb negb].
      * apply IH; try lia; [right; exists i, p, mt; split; [lia | done] |].
        cbn [raw_spec pop_raw]. rewrite removelast_zlen. pose proof (zlen_nonneg (raw_spec s0)). lia.
      * eexists. split; [reflexivity |]. split; [lia |]. right; right; left. split; [by right | by eexists _, _].
    + eexists. split; [reflexivity |]. eapply search_too_deep; [exact Hse | | lia]. intros d Hd. destruct d as [|d]; [done |].
      specialize (Hdeep d (Hd _ _ _ Hat Hnm)). lia.
  - destruct (strcmp lname (c :: nm) =? 0) eqn:Ecmp.
    + apply Z.eqb_eq, strcmp_eq_iff in Ecmp; [|done..]. rewrite <- Ecmp in *.
      apply (match_hit id id' i m s0 s bits); try done; [by rewrite Ecmp | lia].
    + apply IH; try lia.
      * eapply searched_next; [exact Hat | exact Hnm | |].
        -- intros p mt Hp. destruct (member_path_inv _ _ _ _ _ _ _ _ Hat Hnm Hp) as [(<- & _) | [? _]]; [|done].
           apply Z.eqb_neq in Ecmp. apply Ecmp. by apply strcmp_eq_iff.
        -- destruct Hse as [[-> Hc0] | Hd]; [left | by right]. by rewrite pop_push.
      * cbn [raw_spec pop_raw]. rewrite removelast_zlen. pose proof (zlen_nonneg (raw_spec s0)). lia.
Qed.
End Loop.

Lemma match_member_found a nm lmt fuel :
  acc_ok lb a -> acc_name a = Some nm -> acc_field lb a = Some lmt -> rec_found nm lmt (match_member lb tb fuel a) (Z.of_nat fuel).
Proof.
  intros Ha Hn Hf. destruct (acc_named lb a nm Ha Hn) as (lt & lm & Hlt & Hlm & Hlnm & Hpos & Hf2 & Hv). assert (lmt = member_type lm) as -> by congruence.
  induction fuel as [|fuel IH]; intros mt s Hmt Hb Hlen Hfuel; [lia |]. cbn [match_member].
  destruct (skip_spec tb mt Hmt) as (id & t & Hs & Ht & _). rewrite Hs. cbn [mbind option_bind].
  destruct (btf_is_composite t) eqn:Hc; cbn [negb].
  - rewrite (type_by_id_checked _ _ _ Hlt). cbn [mbind option_bind]. rewrite Hlm. cbn [mbind option_bind]. rewrite Hlnm. cbn [mbind option_bind].
    apply (match_member_loop_spec nm (member_type lm) Hpos Hv _ (Z.of_nat fuel) mt); try done; try lia.
    + pose proof (vlen_range t). lia.
    + left. split; [done |]. intros j p mt' Hj Hp.
      inversion Hp as [? ? ? ? ? ? (t1 & Hs1 & _ & Hr1 & _) | ? ? ? ? ? ? ? (t1 & Hs1 & _ & Hr1 & _)]; subst; lia.
  - eexists. split; [reflexivity |]. split; [lia |]. right; left. split; [done |]. split; [done |]. intros p mt' Hp.
    inversion Hp as [? ? ? ? ? ? (t1 & Hs1 & Hc1 & _) | ? ? ? ? ? ? ? (t1 & Hs1 & Hc1 & _)]; subst; congruence.
Qed.

(** ** Paths and their accessors *)

(** A step through an array. *)
Lemma path_loop_array i path id s s2 id' t :
  skip_mods_and_typedefs tb id = Some (id', t) -> btf_is_composite t = false -> path_loop tb (i :: path) id s = Some (Ok s2) ->
  btf_is_array t = true /\ exists a id2 t2 prev fl sz, btf_array t = Some a /\ skip_mods_and_typedefs tb (array_type a) = Some (id2, t2) /\
    last (spec_accs s) = Some prev /\ is_flex_arr tb prev a = Some fl /\ negb fl && (array_nelems a <=? i) = false /\
    btf__resolve_size tb id2 = Some (Ok sz) /\ path_loop tb path id2 (push_raw (push_acc s (Accessor id2 i None)) i (i * sz * 8)) = Some (Ok s2).
Proof.
  intros Hs Hc. cbn [path_loop]. rewrite Hs. cbn [mbind option_bind]. rewrite Hc. destruct (btf_is_array t); [|done].
  destruct (btf_array t) as [a|] eqn:Ha; [|done]. cbn [mbind option_bind].
  destruct (skip_mods_and_typedefs tb (array_type a)) as [[id2 t2]|] eqn:Hs2; [|done]. cbn [mbind option_bind].
  destruct (last _) as [prev|] eqn:Hl; [|done]. cbn [mbind option_bind]. destruct (is_flex_arr tb prev a) as [fl|] eqn:Hf; [|done]. cbn [mbind option_bind].
  destruct (negb fl && _) eqn:Hn; [done |]. destruct (btf__resolve_size tb id2) as [[sz|e]|] eqn:Hsz; [|done..]. cbn [mbind option_bind].
  intros Hp. split; [done |]. exists a, id2, t2, prev, fl, sz. done.
Qed.
Lemma path_loop_accs path id s s2 : path_loop tb path id s = Some (Ok s2) -> exists tas, spec_accs s2 = spec_accs s ++ tas.
Proof.
  revert id s. induction path as [|i path IH]; intros id s Hp; [injection Hp as <-; exists []; by rewrite app_nil_r |].
  pose proof Hp as Hstep. cbn [path_loop] in Hstep.
  destruct (skip_mods_and_typedefs tb id) as [[id' t]|] eqn:Hs; [|done]. cbn [mbind option_bind] in Hstep.
  destruct (btf_is_composite t) eqn:Hc.
  - destruct (_ <=? _); [done |]. destruct (btf_member_bit_offset t i); [|done]. destruct (btf_member t i) as [m|]; [|done]. cbn [mbind option_bind] in Hstep.
    destruct (negb _); [|by apply IH in Hstep]. destruct (name_str tb _) as [nm|]; [|done]. cbn [mbind option_bind] in Hstep.
    destruct (str_is_empty nm); [done |]. apply IH in Hstep as [tas E]. exists (Accessor id' i nm :: tas). rewrite E. cbn. by rewrite <- app_assoc.
  - destruct (path_loop_array _ _ _ _ _ _ _ Hs Hc Hp) as (_ & a & id2 & t2 & prev & fl & sz & _ & _ & _ & _ & _ & _ & [tas E]%IH).
    exists (Accessor id2 i None :: tas). rewrite E. cbn. by rewrite <- app_assoc.
Qed.

(** The first accessor of a path decides what it leads through. *)
Lemma path_first path id s s2 ta tas :
  is_Some (btf__type_by_id tb id) -> Forall (Z.le 0) path ->
  path_loop tb path id s = Some (Ok s2) -> spec_accs s2 = spec_accs s ++ ta :: tas ->
  match acc_name ta with
  | Some nm => exists p1 rest mt, path = p1 ++ rest /\ member_path tb id p1 nm mt /\ acc_field tb ta = Some mt
  | None => exists id' t rest, skip_mods_and_typedefs tb id = Some (id', t) /\ btf_is_array t = true /\ path = acc_idx ta :: rest
  end.
Proof.
  revert id s. induction path as [|i path IH]; intros id s Hid Hpath Hp Hacc.
  { injection Hp as <-. apply (f_equal length) in Hacc. rewrite length_app in Hacc. cbn in Hacc. lia. }
  apply Forall_cons in Hpath as [Hi Hpath].
  destruct (skip_spec tb id Hid) as (id' & t & Hs & Ht & _). pose proof Hp as Hstep. cbn [path_loop] in Hstep. rewrite Hs in Hstep.
  cbn [mbind option_bind] in Hstep. destruct (btf_is_composite t) eqn:Hc; [|clear Hstep].
  - destruct (btf_vlen t <=? i) eqn:Hv; [done |]. clear Hstep.
    destruct (core_member tb id' t i Ht Hc ltac:(lia)) as (m & nm & Hm & Hmt & Hnm & _).
    assert (Hat : member_at tb id id' i m) by (exists t; split_and!; (done || lia)).
    destruct (member_bit_offset_total t i m Hm) as [bits Hbits].
    rewrite (path_loop_member id id' i m nm s bits path Hat Hnm) in Hp by (by rewrite Hs). destruct nm as [|c nm].
    + specialize (IH _ _ Hmt Hpath Hp Hacc). destruct (anon_composite _ _ _ _ Hat Hnm) as (mid & mtt & Hms & Hmc).
      destruct (acc_name ta) as [tn|].
      * destruct IH as (p1 & rest & mt & -> & Hmp & Hf). exists (i :: p1), rest, mt. split_and!; try done. by eapply path_embedded.
      * destruct IH as (id2 & t2 & rest & Hs2 & Ha2 & _). rewrite Hms in Hs2. injection Hs2 as <- <-. by rewrite (composite_not_array _ Hmc) in Ha2.
    + destruct (path_loop_accs _ _ _ _ Hp) as [tas2 E]. rewrite Hacc in E. cbn in E. rewrite <- app_assoc in E. apply app_inv_head in E as [= -> ->].
      cbn [acc_name]. exists [i], path, (member_type m). split_and!; [done | by eapply path_here |].
      unfold acc_field. cbn [acc_type_id acc_idx]. rewrite Ht. cbn [mbind option_bind]. by rewrite Hm.
  - destruct (path_loop_array _ _ _ _ _ _ _ Hs Hc Hp) as (Ha & a & id2 & t2 & prev & fl & sz & _ & _ & _ & _ & _ & _ & Hrest).
    destruct (path_loop_accs _ _ _ _ Hrest) as [tas2 E]. rewrite Hacc in E. cbn in E. rewrite <- app_assoc in E. apply app_inv_head in E as [= -> ->].
    cbn [acc_name acc_idx]. by exists id', t, path.
Qed.

Lemma member_path_fun id p nm mt1 mt2 : member_path tb id p nm mt1 -> member_path tb id p nm mt2 -> mt1 = mt2.
Proof.
  intros Hp. revert mt2. induction Hp as [id id' i m c nm Hat Hnm | id id' i m p nm mt Hat Hnm Hp IH]; intros mt2 Hp2.
  - destruct (member_path_inv _ _ _ _ _ _ _ _ Hat Hnm Hp2) as [(_ & _ & _ & ->) | [? _]]; done.
  - destruct (member_path_inv _ _ _ _ _ _ _ _ Hat Hnm Hp2) as [(_ & ? & _) | [_ Hp3]]; [done | by apply IH].
Qed.

Lemma member_path_nested d id p nm mt : nested tb d id -> member_path tb id p nm mt -> zlen p <= Z.of_nat d.
Proof.
  intros Hd Hp. revert d Hd. induction Hp as [id id' i m c nm Hat Hnm | id id' i m p nm mt Hat Hnm Hp IH]; intros [|d] Hd; try done.
  - change (zlen [i]) with 1. lia.
  - rewrite zlen_cons. specialize (IH d (Hd _ _ _ Hat Hnm)). lia.
Qed.

(** ** The accessors of a local spec *)
Lemma path_loop_skip path id id' t s :
  skip_mods_and_typedefs tb id = Some (id', t) -> path_loop tb path id s = path_loop tb path id' s.
Proof. intros Hs. destruct (skip_valid tb _ _ _ Hs) as [_ Hs']. destruct path; [done |]. cbn [path_loop]. by rewrite Hs, Hs'. Qed.

(** The target path cannot be extended to the accesses [accs]. *)
Definition no_path (accs : list bpf_core_accessor) (id : Z) (s : bpf_core_spec) : Prop :=
  forall path s2 tas, Forall (Z.le 0) path -> path_loop tb path id s = Some (Ok s2) -> spec_accs s2 = spec_accs s ++ tas ->
  ~ Forall2 same_access accs tas.

(** The size of a type that has none, or not one that is an [int]. *)
Definition size_error (r : Z) : Prop :=
  exists id res, btf__resolve_size tb id = Some res /\ match res with Ok sz => r = s32 sz /\ r < 0 | Err e => r = - e /\ 0 < e end.

Definition too_deep (accs : list bpf_core_accessor) (s : bpf_core_spec) : Prop :=
  forall d, (forall id, is_Some (btf__type_by_id tb id) -> nested tb d id) ->
  BPF_CORE_SPEC_MAX_LEN < zlen (raw_spec s) + zlen accs * Z.of_nat d.

Definition accs_post (accs : list bpf_core_accessor) (id : Z) (s : bpf_core_spec) (r : Z * bpf_core_spec) : Prop :=
  let '(r, s') := r in
  (r = 1 /\ exists path tas, raw_spec s' = raw_spec s ++ path /\ path_loop tb path id s = Some (Ok s') /\
     spec_accs s' = spec_accs s ++ tas /\ Forall2 same_access accs tas) \/
  ((r = 0 \/ r = - E2BIG) /\ no_path accs id s) \/
  (r = - E2BIG /\ too_deep accs s) \/ size_error r.

Record targ_ok (s : bpf_core_spec) : Prop := {
  targ_accs : Forall (acc_ok tb) (spec_accs s);
  targ_raw : zlen (raw_spec s) <= BPF_CORE_SPEC_MAX_LEN;
  targ_bits : 0 <= spec_bit_offset s < 2 ^ 32
}.

Definition loop_ok (accs : list bpf_core_accessor) : Prop :=
  forall id s, is_Some (btf__type_by_id tb id) -> targ_ok s -> spec_accs s <> [] ->
  exists r, accessors_loop lb tb false accs id s = Some r /\ accs_post accs id s r.

Definition elem (id i sz : Z) (s : bpf_core_spec) : bpf_core_spec := push_raw (push_acc s (Accessor id i None)) i (i * sz * 8).

(** The accesses behind an index into elements of type [id]. *)
Definition elem_post (la : bpf_core_accessor) (accs : list bpf_core_accessor) (id : Z) (s : bpf_core_spec) (r : Z * bpf_core_spec) : Prop :=
  let '(r, s') := r in
  (r = 1 /\ exists path tas sz, raw_spec s' = raw_spec s ++ acc_idx la :: path /\ btf__resolve_size tb id = Some (Ok sz) /\
     path_loop tb path id (elem id (acc_idx la) sz s) = Some (Ok s') /\
     spec_accs s' = spec_accs s ++ Accessor id (acc_idx la) None :: tas /\ Forall2 same_access accs tas) \/
  ((r = 0 \/ r = - E2BIG) /\ forall sz, btf__resolve_size tb id = Some (Ok sz) -> no_path accs id (elem id (acc_idx la) sz s)) \/
  (r = - E2BIG /\ too_deep (la :: accs) s) \/ size_error r.

Lemma elem_targ_ok id i sz s :
  is_Some (btf__type_by_id tb id) -> 0 <= i -> targ_ok s -> zlen (raw_spec s) < BPF_CORE_SPEC_MAX_LEN -> targ_ok (elem id i sz s).
Proof.
  intros Hid Hi [Ha Hr Hb] Hl. split; cbn [elem push_raw push_acc spec_accs raw_spec spec_bit_offset].
  - apply Forall_app_2; [done | by apply Forall_singleton].
  - rewrite zlen_snoc. lia.
  - apply u32_range.
Qed.

Lemma s32_nonneg z : 0 <= z < 4294967296 -> 0 <= s32 z -> s32 z = z.
Proof.
  intros Hz Hs. destruct (decide (z < 2147483648)); [apply s32_small; lia |]. exfalso. unfold swrap in Hs.
  change (2 ^ (32 - 1)) with 2147483648 in Hs. change (2 ^ 32) with 4294967296 in Hs. lia.
Qed.

Lemma elem_spec la accs id s :
  acc_ok lb la -> acc_name la = None -> loop_ok accs -> is_Some (btf__type_by_id tb id) -> targ_ok s ->
  exists r, (if zlen (raw_spec s) =? BPF_CORE_SPEC_MAX_LEN then Some (- E2BIG, s) else
    sz ← btf__resolve_size tb id;
    match sz with
    | Err e => Some (- e, push_raw (push_acc s (Accessor id (acc_idx la) None)) (acc_idx la) 0)
    | Ok sz =>
        if s32 sz <? 0 then Some (s32 sz, push_raw (push_acc s (Accessor id (acc_idx la) None)) (acc_idx la) 0)
        else accessors_loop lb tb false accs id (elem id (acc_idx la) (s32 sz) s)
    end) = Some r /\ elem_post la accs id s r.
Proof.
  intros Hla Hn IH Hid Hs. unfold acc_ok in Hla. rewrite Hn in Hla. destruct Hla as [_ Hi]. pose proof (zlen_nonneg accs).
  destruct (zlen (raw_spec s) =? BPF_CORE_SPEC_MAX_LEN) eqn:E.
  { eexists. split; [reflexivity |]. right; right; left. split; [done |]. intros d Hd. specialize (Hd id Hid). destruct d; [done |].
    rewrite zlen_cons. nia. }
  destruct (resolve_size_total tb id) as (res & Hres & Hrange). rewrite Hres. cbn [mbind option_bind]. destruct res as [sz|e].
  2: { eexists. split; [reflexivity |]. right; right; right. by exists id, (Err e). }
  destruct (s32 sz <? 0) eqn:Es; [eexists; split; [reflexivity |]; right; right; right; exists id, (Ok sz); split; [done | lia] |].
  cbn in Hrange. unfold UINT32_MAX in Hrange.
  assert (Hsz : s32 sz = sz) by (apply s32_nonneg; lia). rewrite Hsz.
  pose proof (elem_targ_ok id (acc_idx la) sz s Hid Hi Hs ltac:(destruct Hs; lia)) as Hs2.
  destruct (IH id _ Hid Hs2) as ([r s'] & Hr & Hpost); [cbn; by destruct (spec_accs s) |].
  eexists. split; [exact Hr |]. destruct Hpost as [[-> (path & tas & H1' & H2' & H3' & H4')] | [[Hr0 Hno] | [[-> Hd] | He]]].
  - left. split; [done |]. exists path, tas, sz. cbn in H1', H3'. rewrite <- app_assoc in H1', H3'. done.
  - right; left. split; [done |]. intros sz2 Hsz2. assert (sz2 = sz) as -> by congruence. done.
  - right; right; left. split; [done |]. intros d Hnest. specialize (Hd d Hnest). cbn [elem push_raw raw_spec push_acc] in Hd.
    rewrite zlen_snoc in Hd. rewrite zlen_cons. specialize (Hnest id Hid). destruct d; [done |]. nia.
  - by right; right; right.
Qed.

(** The accesses behind a field that was found. *)
Lemma named_step la nm lm accs id s p next s' r :
  is_Some (btf__type_by_id tb id) -> acc_name la = Some nm -> acc_field lb la = Some (member_type lm) ->
  member_path tb id p nm next -> field_compatible lb tb (member_type lm) next -> pushed nm id s p next s' ->
  accs_post accs next s' r -> accs_post (la :: accs) id s r.
Proof.
  intros Hid Hn Hf Hmp Hc (Hraw & (ta & Hta & Htn & _ & Htf) & _ & Hloop).
  assert (Hsame : same_access la ta) by (unfold same_access; rewrite Hn, Htn; split; [done | by eexists _, _]).
  destruct r as [r s2]. intros [[-> (path & tas & H1' & H2' & H3' & H4')] | [[Hr0 Hno] | [[-> Hd] | He]]].
  - left. split; [done |]. exists (p ++ path), (ta :: tas). rewrite H1', Hraw, Hloop, H3', Hta, <- !app_assoc. by split_and!; [| | |constructor].
  - right; left. split; [done |]. intros path s3 tas Hp0 Hp Hacc Hall. inversion Hall as [|? ta' ? tas' Hsame' Hall']; subst.
    unfold same_access in Hsame'. rewrite Hn in Hsame'. pose proof (path_first _ _ _ _ _ _ Hid Hp0 Hp Hacc) as Hfirst.
    destruct (acc_name ta') as [tn|]; [|done]. destruct Hsame' as (<- & _). destruct Hfirst as (p1 & rest & mt & -> & Hmp' & _).
    pose proof (unique_path _ _ _ _ _ _ Hmp Hmp') as <-. rewrite Hloop in Hp. apply Forall_app in Hp0 as [_ Hp0].
    destruct (path_loop_accs _ _ _ _ Hp) as [tas2 E]. apply (Hno rest s3 tas2 Hp0 Hp E).
    rewrite Hacc, Hta, <- app_assoc in E. apply app_inv_head in E. by injection E as _ <-.
  - right; right; left. split; [done |]. intros d Hnest. specialize (Hd d Hnest). pose proof (member_path_nested d _ _ _ _ (Hnest id Hid) Hmp).
    rewrite Hraw, zlen_app in Hd. rewrite zlen_cons. lia.
  - by right; right; right.
Qed.

(** An accessor by name. *)
Lemma named_spec la nm accs id s :
  acc_ok lb la -> acc_name la = Some nm -> loop_ok accs -> is_Some (btf__type_by_id tb id) -> targ_ok s -> spec_accs s <> [] ->
  exists r, ('(matched, s, next) ← bpf_core_match_member lb tb la id s;
    if matched <=? 0 then Some (matched, s) else accessors_loop lb tb false accs next s) = Some r /\ accs_post (la :: accs) id s r.
Proof.
  intros Hla Hn IH Hid [Ha Hr Hb] Hne. destruct (acc_named lb la nm Hla Hn) as (lt & lm & _ & _ & _ & _ & Hf & _).
  destruct (match_member_found la nm (member_type lm) member_fuel Hla Hn Hf id s Hid Hb Hr) as ([[found s'] next] & Hm & Hl & Hpost).
  { unfold member_fuel, BPF_CORE_SPEC_MAX_LEN. pose proof (zlen_nonneg (raw_spec s)). lia. }
  unfold bpf_core_match_member. rewrite Hm. cbn [mbind option_bind].
  assert (Hnone : incompatible nm (member_type lm) id \/ (forall p mt, ~ member_path tb id p nm mt) -> no_path (la :: accs) id s).
  { intros Hno path s2 tas Hp0 Hp Hacc Hall. inversion Hall as [|? ta ? tas' Hsame _]; subst. unfold same_access in Hsame. rewrite Hn in Hsame.
    pose proof (path_first _ _ _ _ _ _ Hid Hp0 Hp Hacc) as Hfirst. destruct (acc_name ta) as [tn|]; [|done].
    destruct Hsame as (<- & l & t & Hl1 & Ht1 & Hc). destruct Hfirst as (p1 & rest & mt & _ & Hmp & Hf2).
    destruct Hno as [(p2 & mt2 & Hmp2 & Hnc) | Hno]; [|by apply (Hno p1 mt)].
    pose proof (unique_path _ _ _ _ _ _ Hmp Hmp2) as <-. pose proof (member_path_fun _ _ _ _ _ Hmp Hmp2) as <-. apply Hnc. congruence. }
  destruct Hpost as [[-> (p & Hmp & Hc & Hpu)] | [(-> & -> & Hno) | [[Hf0 Hinc] | [-> Hdeep]]]].
  - destruct Hpu as (Hraw & (ta & Hta & Htn & Htok & Htf) & Hb' & Hloop). cbn [Z.leb Z.compare].
    destruct (IH next s') as ([r s2] & Hr2 & Hpost); [destruct (acc_named tb ta nm Htok Htn) as (? & ? & _ & _ & _ & _ & ? & ?); congruence | | by rewrite Hta; destruct (spec_accs s) |].
    { split; [|lia | done]. rewrite Hta. apply Forall_app_2; [done | by apply Forall_singleton]. }
    eexists. split; [exact Hr2 |]. apply (named_step la nm lm accs id s p next s'); try done. split; [done |]. split; [by exists ta | done].
  - eexists. split; [reflexivity |]. right; left. split; [by left |]. apply Hnone. by right.
  - eexists. split; [by destruct Hf0 as [-> | ->] |]. right; left. split; [by destruct Hf0 as [-> | ->]; [left | right] |]. apply Hnone. by left.
  - eexists. split; [reflexivity |]. right; right; left. split; [done |]. intros d Hnest. specialize (Hdeep d (Hnest id Hid)).
    rewrite zlen_cons. pose proof (zlen_nonneg accs). nia.
Qed.

(** An index into an array. *)
Lemma index_first la accs id id' t s path s2 tas :
  skip_mods_and_typedefs tb id = Some (id', t) -> is_Some (btf__type_by_id tb id) -> acc_name la = None -> Forall (Z.le 0) path ->
  path_loop tb path id s = Some (Ok s2) -> spec_accs s2 = spec_accs s ++ tas -> Forall2 same_access (la :: accs) tas ->
  exists rest ta tas', path = acc_idx la :: rest /\ btf_is_array t = true /\ Forall (Z.le 0) rest /\ tas = ta :: tas' /\ Forall2 same_access accs tas'.
Proof.
  intros Hs Hid Hn Hp0 Hp Hacc Hall. inversion Hall as [|? ta ? tas' Hsame Hall']; subst. unfold same_access in Hsame. rewrite Hn in Hsame.
  pose proof (path_first _ _ _ _ _ _ Hid Hp0 Hp Hacc) as Hfirst. destruct (acc_name ta) as [tn|]; [done |].
  destruct Hfirst as (id2 & t2 & rest & Hs' & Ha & ->). rewrite Hs in Hs'. injection Hs' as <- <-. apply Forall_cons in Hp0 as [_ Hp0].
  exists rest, ta, tas'. by rewrite Hsame.
Qed.

Section Index.
Context (id id2 : Z) (t t2 : btf_type) (a : btf_array_t) (s : bpf_core_spec) (prev : bpf_core_accessor) (fl : bool).
Hypothesis (Ht : btf__type_by_id tb id = Some t) (Hs : skip_mods_and_typedefs tb id = Some (id, t)) (Hbar : btf_array t = Some a) (Ha : btf_is_array t = true).
Hypothesis (Hs2 : skip_mods_and_typedefs tb (array_type a) = Some (id2, t2)).
Hypothesis (Hlast : last (spec_accs s) = Some prev) (Hfl : is_flex_arr tb prev a = Some fl).

Lemma array_not_composite : btf_is_composite t = false.
Proof. destruct (btf_is_composite t) eqn:E; [by rewrite (composite_not_array _ E) in Ha | done]. Qed.

Lemma path_loop_elem i rest sz :
  negb fl && (array_nelems a <=? i) = false -> btf__resolve_size tb id2 = Some (Ok sz) ->
  path_loop tb (i :: rest) id s = path_loop tb rest id2 (elem id2 i sz s).
Proof.
  intros Hr Hsz. cbn [path_loop]. rewrite Hs. cbn [mbind option_bind]. rewrite array_not_composite, Ha, Hbar. cbn [mbind option_bind].
  rewrite Hs2. cbn [mbind option_bind]. rewrite Hlast. cbn [mbind option_bind]. rewrite Hfl. cbn [mbind option_bind]. rewrite Hr, Hsz. done.
Qed.

Lemma index_step la accs r :
  acc_name la = None -> negb fl && (array_nelems a <=? acc_idx la) = false -> elem_post la accs id2 s r -> accs_post (la :: accs) id s r.
Proof.
  intros Hn Hr. destruct r as [r s']. intros [[-> (path & tas & sz & H1' & Hsz & H2' & H3' & H4')] | [[Hr0 Hno] | Hrest]].
  - left. split; [done |]. exists (acc_idx la :: path), (Accessor id2 (acc_idx la) None :: tas).
    rewrite (path_loop_elem _ _ sz) by done. split_and!; try done. constructor; [|done]. unfold same_access. by rewrite Hn.
  - right; left. split; [done |]. intros path s3 tas Hp0 Hp Hacc Hall.
    destruct (index_first la accs id id t s path s3 tas Hs ltac:(by exists t) Hn Hp0 Hp Hacc Hall) as (rest & ta & tas' & -> & _ & Hrest0 & -> & Hall').
    destruct (path_loop_array _ _ _ _ _ _ _ Hs array_not_composite Hp) as (_ & a' & id2' & t2' & prev' & fl' & sz & Ha' & Hs2' & _ & _ & _ & Hsz & Hp').
    rewrite Hbar in Ha'. injection Ha' as <-. rewrite Hs2 in Hs2'. injection Hs2' as <- <-.
    destruct (path_loop_accs _ _ _ _ Hp') as [tas2 E]. apply (Hno sz Hsz rest s3 tas2 Hrest0 Hp' E).
    rewrite Hacc in E. cbn in E. rewrite <- app_assoc in E. apply app_inv_head in E. by injection E as _ <-.
  - right; right. exact Hrest.
Qed.
End Index.

Lemma index_spec la accs id t s :
  acc_ok lb la -> acc_name la = None -> loop_ok accs -> btf__type_by_id tb id = Some t -> skip_mods_and_typedefs tb id = Some (id, t) ->
  targ_ok s -> spec_accs s <> [] -> exists r, accessors_loop lb tb false (la :: accs) id s = Some r /\ accs_post (la :: accs) id s r.
Proof.
  intros Hla Hn IH Ht Hs Hok Hne. cbn [accessors_loop]. rewrite Hs. cbn [mbind option_bind]. rewrite Hn.
  assert (Hno0 : (forall rest s2, path_loop tb (acc_idx la :: rest) id s = Some (Ok s2) -> btf_is_array t = true -> False) ->
    accs_post (la :: accs) id s (0, s)).
  { intros Hno. right; left. split; [by left |]. intros path s2 tas Hp0 Hp Hacc Hall.
    destruct (index_first la accs id id t s path s2 tas Hs ltac:(by exists t) Hn Hp0 Hp Hacc Hall) as (rest & _ & _ & -> & Ha & _). by eapply Hno. }
  destruct (btf_is_array t) eqn:Ha; cbn [negb]; [|eexists; split; [reflexivity | by apply Hno0]].
  assert (Hk : btf_kind t = BTF_KIND_ARRAY) by (by apply bool_decide_eq_true_1 in Ha).
  destruct (core_array tb id t Ht Hk) as (a & Hbar & Hat). rewrite Hbar. cbn [mbind option_bind].
  destruct (last (spec_accs s)) as [prev|] eqn:Hlast; [|by apply last_None in Hlast]. cbn [mbind option_bind].
  assert (Hprev : acc_ok tb prev) by (apply last_Some in Hlast as [l El]; destruct Hok as [Hall _ _]; rewrite El in Hall; by apply Forall_app in Hall as [_ ?%Forall_inv]).
  destruct (flex_total tb prev a Hprev) as [fl Hfl]. rewrite Hfl. cbn [mbind option_bind].
  destruct (negb fl && (array_nelems a <=? acc_idx la)) eqn:Hrange.
  { eexists. split; [reflexivity |]. apply Hno0. intros rest s2 Hp _.
    destruct (path_loop_array _ _ _ _ _ _ _ Hs (array_not_composite t Ha) Hp) as (_ & a2 & id2 & t2 & prev2 & fl2 & sz & ? & _ & ? & ? & ? & _). congruence. }
  destruct (skip_spec tb _ Hat) as (id2 & t2 & Hs2 & Ht2 & _). rewrite Hs2. cbn [mbind option_bind].
  destruct (elem_spec la accs id2 s Hla Hn IH ltac:(by exists t2) Hok) as (r & Hr & Hpost). exists r. split; [exact Hr |].
  by apply (index_step id id2 t t2 a s prev fl).
Qed.

Lemma accessors_loop_spec accs : Forall (acc_ok lb) accs -> loop_ok accs.
Proof.
  induction accs as [|la accs IH]; intros Hall id s Hid Hok Hne.
  { eexists. split; [reflexivity |]. left. split; [done |]. exists [], []. rewrite !app_nil_r. by repeat split. }
  apply Forall_cons in Hall as [Hla Hall]. destruct (skip_spec tb id Hid) as (id' & t & Hs & Ht & _). destruct (skip_valid tb _ _ _ Hs) as [_ Hs'].
  assert (Hgo : exists r, accessors_loop lb tb false (la :: accs) id' s = Some r /\ accs_post (la :: accs) id' s r).
  { destruct (acc_name la) as [nm|] eqn:Hn; [|by eapply index_spec; eauto].
    cbn [accessors_loop]. rewrite Hs'. cbn [mbind option_bind]. rewrite Hn. apply (named_spec la nm); eauto. }
  destruct Hgo as (r & Hr & Hpost). exists r. split; [cbn [accessors_loop] in *; by rewrite Hs, Hs' in * |].
  destruct r as [r s']. destruct Hpost as [[-> (path & tas & H1' & H2' & H3')] | [[Hr0 Hno] | Hrest]].
  - left. split; [done |]. exists path, tas. by rewrite (path_loop_skip path id id' t).
  - right; left. split; [done |]. intros path s2 tas. rewrite (path_loop_skip path id id' t) by done. apply Hno.
  - right; right. exact Hrest.
Qed.

Lemma spec_of_path_elem targ_id kind id t i path s2 :
  skip_mods_and_typedefs tb targ_id = Some (id, t) -> core_relo_is_field_based kind = true ->
  spec_of_path tb targ_id kind (i :: path) = Some (Ok s2) <->
  exists sz, btf__resolve_size tb id = Some (Ok sz) /\ path_loop tb path id (elem id i sz (Spec [] targ_id kind [] 0)) = Some (Ok s2).
Proof.
  intros Hs Hk. cbn [spec_of_path]. rewrite Hs. cbn [mbind option_bind].
  replace (core_relo_is_enumval_based kind) with false by (by destruct kind). rewrite Hk. cbn [negb]. split.
  - destruct (btf__resolve_size tb id) as [[sz|e]|]; [|done..]. intros Hp. by exists sz.
  - intros (sz & -> & Hp). exact Hp.
Qed.

(** The first accessor, an index into an array of the root type. *)
Lemma first_spec la accs targ_id id t s :
  acc_ok lb la -> acc_name la = None -> Forall (acc_ok lb) accs -> skip_mods_and_typedefs tb targ_id = Some (id, t) -> targ_ok s ->
  exists r, accessors_loop lb tb true (la :: accs) targ_id s = Some r /\ elem_post la accs id s r.
Proof.
  intros Hla Hn Hall Hs Hok. destruct (skip_valid tb _ _ _ Hs) as [Ht _]. cbn [accessors_loop]. rewrite Hs. cbn [mbind option_bind]. rewrite Hn.
  apply elem_spec; try done. by apply accessors_loop_spec.
Qed.
End Member.

(** C9: on BTF whose references exist and are acyclic ([CoreBtf]), and for a target in which no two fields of a struct have the same name, those of
    embedded structs included, and only structs and unions are embedded ([UniqueMembers],
    which C promises and [btf_new] does not check), [bpf_core_spec_match] finds the field of
    the target that the local access names, wherever it is there.  It always returns.
    1: the result is the spec that parsing its raw path on the target type gives, and its
    accessors are the local ones, fields by the same name and of compatible type and the
    same array indices.  0: no path of the target has such accessors.  An error is [E2BIG], when there is no such path either or structs
    are embedded too deep for 64 path elements, or the error of a type without a size. *)
Theorem bpf_core_spec_match_field lb tb `{CoreBtf lb} `{CoreBtf tb} `{UniqueMembers tb} local_spec targ_id :
  spec_ok lb local_spec -> core_relo_is_field_based (spec_relo_kind local_spec) = true -> is_Some (btf__type_by_id tb targ_id) ->
  exists r s', bpf_core_spec_match lb tb local_spec targ_id = Some (r, s') /\
    ((r = 1 /\ spec_of_path tb targ_id (spec_relo_kind local_spec) (raw_spec s') = Some (Ok s') /\
        Forall2 (same_access lb tb) (spec_accs local_spec) (spec_accs s')) \/
     ((r = 0 \/ r = - E2BIG) /\ forall path s2, Forall (Z.le 0) path ->
        spec_of_path tb targ_id (spec_relo_kind local_spec) path = Some (Ok s2) ->
        ~ Forall2 (same_access lb tb) (spec_accs local_spec) (spec_accs s2)) \/
     (r = - E2BIG /\ forall d, (forall id, is_Some (btf__type_by_id tb id) -> nested tb d id) ->
        BPF_CORE_SPEC_MAX_LEN < zlen (spec_accs local_spec) * Z.of_nat d) \/
     size_error tb r).
Proof.
  intros Hok Hk Hid. unfold bpf_core_spec_match.
  replace (core_relo_is_type_based _) with false by (by destruct (spec_relo_kind local_spec)).
  replace (core_relo_is_enumval_based _) with false by (by destruct (spec_relo_kind local_spec)). rewrite Hk. cbn [negb].
  destruct (spec_first _ _ Hok) as (la & Hhd & Hn). pose proof (spec_accs_ok _ _ Hok) as Hall.
  destruct (spec_accs local_spec) as [|la' accs]; [done |]. injection Hhd as ->. apply Forall_cons in Hall as [Hla Hall].
  destruct (skip_spec tb targ_id Hid) as (id & t & Hs & Ht & _). set (s0 := Spec [] targ_id (spec_relo_kind local_spec) [] 0).
  assert (Hs0 : targ_ok tb s0) by (split; [constructor | by apply Z.leb_le | by split; [apply Z.leb_le | apply Z.ltb_lt]]).
  destruct (first_spec lb tb la accs targ_id id t s0 Hla Hn Hall Hs Hs0) as ([r s'] & Hr & Hpost).
  exists r, s'. split; [exact Hr |].
  destruct Hpost as [[-> (path & tas & sz & H1' & Hsz & H2' & H3' & H4')] | [[Hr0 Hno] | [[-> Hd] | He]]].
  - left. split; [done |]. rewrite H1', H3'. split; [apply (spec_of_path_elem tb targ_id _ id t); [done.. | by exists sz] |].
    constructor; [|done]. unfold same_access. by rewrite Hn.
  - right; left. split; [done |]. intros [|i path] s2 Hp0 Hp Hsame; [done |]. apply Forall_cons in Hp0 as [_ Hp0].
    apply (spec_of_path_elem tb targ_id _ id t) in Hp as (sz & Hsz & Hp); [|done..]. destruct (path_loop_accs tb _ _ _ _ Hp) as [tas E].
    pose proof Hsame as Hi. rewrite E in Hi. inversion Hi as [|? ? ? ? Hi' Hrest]; subst. unfold same_access in Hi'. rewrite Hn in Hi'. cbn [acc_name acc_idx] in Hi'. subst i.
    by apply (Hno sz Hsz path s2 tas Hp0 Hp E).
  - right; right; left. split; [done |]. intros d Hnest. specialize (Hd d Hnest). rewrite (eq_refl : zlen (raw_spec s0) = 0) in Hd. lia.
  - by right; right; right.
Qed.

(** ** The promise, checked by enumeration *)
(** A path of an embedded struct. *)
Definition under (i : Z) (p : list Z * list Z) : list Z * list Z := (i :: fst p, snd p).

Fixpoint member_paths (fuel : nat) (b : btf) (id : Z) : option (list (list Z * list Z)) :=
  match fuel with
  | O => None
  | S fuel =>
      match skip_mods_and_typedefs b id with
      | None => Some []
      | Some (_, t) =>
          if negb (btf_is_composite t) then Some [] else
          option_map (@mjoin list _ _) (mapM (fun i =>
            m ← btf_member t i;
            name ← name_str b (member_name_off m);
            match name with
            | None => None
            | Some [] =>
                '(_, mt) ← skip_mods_and_typedefs b (member_type m);
                if negb (btf_is_composite mt) || negb (member_name_off m =? 0) then None else
                paths ← member_paths fuel b (member_type m);
                Some (map (under i) paths)
            | Some name => if member_name_off m =? 0 then None else Some [([i], name)]
            end) (seqZ 0 (btf_vlen t)))
      end
  end.

Lemma member_paths_at fuel b id id' i m l :
  member_paths (S fuel) b id = Some l -> member_at b id id' i m ->
  exists name, name_str b (member_name_off m) = Some (Some name) /\ (member_name_off m = 0 <-> name = []) /\
    if bool_decide (name = []) then
      (exists mid mt, skip_mods_and_typedefs b (member_type m) = Some (mid, mt) /\ btf_is_composite mt = true) /\
      exists paths, member_paths fuel b (member_type m) = Some paths /\ forall p, p ∈ paths -> under i p ∈ l
    else ([i], name) ∈ l.
Proof.
  intros Hl (t & Hs & Hc & Hi & Hm). cbn [member_paths] in Hl. rewrite Hs, Hc in Hl. cbn [negb] in Hl.
  destruct (mapM _ _) as [ls|] eqn:Hls; [|done]. injection Hl as <-. apply mapM_Some in Hls.
  assert (Hlk : seqZ 0 (btf_vlen t) !! Z.to_nat i = Some i) by (rewrite lookup_seqZ; lia).
  destruct (Forall2_lookup_l _ _ _ _ _ Hls Hlk) as (y & Hy & Hf). apply list_elem_of_lookup_2 in Hy. rewrite Hm in Hf. cbn [mbind option_bind] in Hf.
  destruct (name_str b (member_name_off m)) as [[name|]|]; [|done..]. cbn [mbind option_bind] in Hf. exists name. split; [done |].
  destruct name as [|c name]; [rewrite bool_decide_eq_true_2 by done | rewrite bool_decide_eq_false_2 by done].
  - destruct (skip_mods_and_typedefs b (member_type m)) as [[mid mt]|]; [|done]. cbn [mbind option_bind] in Hf.
    destruct (btf_is_composite mt) eqn:Hmc; [|done]. destruct (member_name_off m =? 0) eqn:E; [|done]. cbn [negb orb] in Hf.
    destruct (member_paths fuel b (member_type m)) as [paths|]; [|done]. injection Hf as <-.
    split; [split; [done | lia] |]. split; [by exists mid, mt |]. exists paths. split; [done |].
    intros p Hp. apply list_elem_of_join. exists (map (under i) paths). split; [|done]. by apply (list_elem_of_fmap_2 (under i)).
  - destruct (member_name_off m =? 0) eqn:E; [done |]. injection Hf as <-. split; [split; [lia | done] |].
    apply list_elem_of_join. exists [([i], c :: name)]. split; [by apply list_elem_of_singleton | done].
Qed.

Lemma member_paths_complete b id p name mt :
  member_path b id p name mt -> forall fuel l, member_paths fuel b id = Some l -> (p, name) ∈ l.
Proof.
  induction 1 as [id id' i m c name Hat Hnm | id id' i m p name mt Hat Hnm Hp IH]; intros [|fuel] l Hl; try done;
    destruct (member_paths_at fuel b id id' i m l Hl Hat) as (nm & Hnm' & _ & Hin); rewrite Hnm in Hnm'; injection Hnm' as <-.
  - by rewrite bool_decide_eq_false_2 in Hin.
  - rewrite bool_decide_eq_true_2 in Hin by done. destruct Hin as (_ & paths & Hps & Hall). by apply (Hall (p, name)), (IH fuel).
Qed.

Definition unique_check (fuel : nat) (b : btf) : bool :=
  forallb (fun id => match member_paths (S fuel) b id with Some l => bool_decide (NoDup (snd <$> l)) | None => false end)
    (seqZ 0 (btf__type_cnt b)).

Lemma unique_check_sound fuel b : base_btf b = None -> 0 <= start_id b -> unique_check fuel b = true -> UniqueMembers b.
Proof.
  intros Hb Hs Hc. unfold unique_check in Hc. rewrite forallb_forall in Hc.
  assert (Hat : forall id id' t, skip_mods_and_typedefs b id = Some (id', t) -> exists l, member_paths (S fuel) b id = Some l /\ NoDup (snd <$> l)).
  { intros id id' t Hsk. assert (exists t0, btf__type_by_id b id = Some t0) as [t0 Ht0].
    { unfold skip_mods_and_typedefs in Hsk. destruct (btf__type_by_id b id); [by eexists | done]. }
    pose proof (type_by_id_range b id t0 Hb Hs Ht0). specialize (Hc id ltac:(apply list_elem_of_In, elem_of_seqZ; lia)).
    destruct (member_paths (S fuel) b id) as [l|]; [|done]. exists l. split; [done |]. by apply bool_decide_eq_true_1 in Hc. }
  split.
  - intros id p1 p2 name mt1 mt2 Hp1 Hp2. assert (exists id' t, skip_mods_and_typedefs b id = Some (id', t)) as (id' & t & Hsk).
    { inversion Hp1 as [? ? ? ? ? ? (t & Hsk & _) | ? ? ? ? ? ? ? (t & Hsk & _)]; by eexists _, _. }
    destruct (Hat _ _ _ Hsk) as (l & Hl & Hnd). pose proof (member_paths_complete _ _ _ _ _ Hp1 _ _ Hl) as [i1 Hi1]%list_elem_of_lookup.
    pose proof (member_paths_complete _ _ _ _ _ Hp2 _ _ Hl) as [i2 Hi2]%list_elem_of_lookup.
    assert (i1 = i2) as -> by (eapply (NoDup_lookup _ _ _ name Hnd); by rewrite list_lookup_fmap, ?Hi1, ?Hi2). congruence.
  - intros id id' i m s Hm Hnm. pose proof Hm as (t & Hsk & _). destruct (Hat _ _ _ Hsk) as (l & Hl & _).
    destruct (member_paths_at fuel b id id' i m l Hl Hm) as (nm & Hnm' & Hz & _). rewrite Hnm in Hnm'. by injection Hnm' as <-.
  - intros id id' i m Hm Hnm. pose proof Hm as (t & Hsk & _). destruct (Hat _ _ _ Hsk) as (l & Hl & _).
    destruct (member_paths_at fuel b id id' i m l Hl Hm) as (nm & Hnm' & _ & Hin). rewrite Hnm in Hnm'. injection Hnm' as <-.
    rewrite bool_decide_eq_true_2 in Hin by done. apply Hin.
Qed.

#[export] Instance demo_targ_unique : UniqueMembers demo_targ.
Proof. apply (unique_check_sound 2); [reflexivity | by apply Z.leb_le | vm_compute; reflexivity]. Qed.

Lemma bpf_core_spec_match_field_witness :
  exists ls s', bpf_core_parse_spec demo_local (CoreRelo 0 8 48 BPF_CORE_FIELD_BYTE_OFFSET) = Some (Ok ls) /\
    bpf_core_spec_match demo_local demo_targ ls 8 = Some (1, s') /\ raw_spec s' = [0; 0; 1; 0] /\
    spec_of_path demo_targ 8 BPF_CORE_FIELD_BYTE_OFFSET [0; 0; 1; 0] = Some (Ok s') /\
    Forall2 (same_access demo_local demo_targ) (spec_accs ls) (spec_accs s').
Proof.
  destruct (spec_of_path_field demo_local 8 BPF_CORE_FIELD_BYTE_OFFSET [0; 1; 1]) as (r & Hr & Hok); [by eexists | reflexivity | repeat constructor; discriminate |].
  assert (Hls : exists ls, Some r = Some (Ok ls) /\ exists s', bpf_core_spec_match demo_local demo_targ ls 8 = Some (1, s') /\ raw_spec s' = [0; 0; 1; 0]).
  { rewrite <- Hr. eexists. split; [vm_compute; reflexivity |]. eexists. split; vm_compute; reflexivity. }
  destruct Hls as (ls & [= ->] & s' & Hm & Hraw). destruct (Hok ls eq_refl) as (Hls & _ & _ & Hkind).
  destruct (bpf_core_spec_match_field demo_local demo_targ ls 8 Hls) as (r & s2 & Hm2 & Hcase); [by rewrite Hkind | by eexists |].
  rewrite Hm in Hm2. injection Hm2 as <- <-. rewrite Hkind, Hraw in Hcase. exists ls, s'. split; [rewrite <- Hr; vm_compute; reflexivity |].
  split; [exact Hm |]. split; [exact Hraw |]. destruct Hcase as [(_ & Hp & Hall) | [[[?|?] _] | [[? _] | He]]]; try discriminate; [by split |].
  destruct He as (id & [sz|e] & _ & He); lia.
Defined.

(** ** Repeated names *)

(** [struct s { struct { int *y; }; int y; }] *)
Definition dup_targ : btf := Eval vm_compute in parsed (demo_bytes
  ([1; 16777216; 4; 16777248] ++ [0; 33554432; 1] ++ [0; 67108865; 8; 7; 2; 0] ++ [5; 67108866; 16; 0; 3; 0; 7; 1; 64])
  (mjoin ((fun s => ascii_bytes s ++ [0]) <$> [String.EmptyString; "int"; "s"; "y"]%string))).

#[local] Instance dup_targ_core : CoreBtf dup_targ.
Proof. apply core_check_sound; [reflexivity | by apply Z.leb_le | vm_compute; reflexivity]. Qed.

(** The promise is needed.  A field of the same name but of another type in an embedded struct
    stays in the raw path, so that the result is not a path of the target at all. *)
Lemma bpf_core_spec_match_dirty :
  exists ls s', bpf_core_parse_spec demo_local (CoreRelo 0 2 54 BPF_CORE_FIELD_BYTE_OFFSET) = Some (Ok ls) /\
    bpf_core_spec_match demo_local dup_targ ls 4 = Some (1, s') /\ raw_spec s' = [0; 0; 1] /\
    spec_of_path dup_targ 4 BPF_CORE_FIELD_BYTE_OFFSET [0; 0; 1] = Some (Err EINVAL).
Proof.
  eexists _, _. split; [vm_compute; reflexivity |]. split; [vm_compute; reflexivity |]. split; vm_compute; reflexivity.
Qed.
