(* ===== verification/CoreCalc.v ===== *)
(** * CoreCalc: the values of CO-RE relocations

    From [src/src/relo_core.c]: [bpf_core_calc_field_relo], [bpf_core_calc_type_relo],
    [bpf_core_calc_enumval_relo] and [bpf_core_calc_relo], on a little-endian target.  The
    theorem about fields is what makes the relocations useful: reading the bytes that
    [BPF_CORE_FIELD_BYTE_OFFSET] and [BPF_CORE_FIELD_BYTE_SIZE] give and shifting by
    [BPF_CORE_FIELD_LSHIFT_U64] and [BPF_CORE_FIELD_RSHIFT_U64] gives the bits of the field,
    a bitfield or not. *)
From S2P Require Import Prelude Hashmap Mem Strset BtfTypes Btf BtfFind BtfParse BtfWrite CoreTypes CoreDemo CoreCompat CoreMatch CoreSpec CoreField CoreMember.
Open Scope Z_scope.

(** The output parameters of the functions that calculate a value. *)
Record calc_out := CalcOut { out_val : Z; out_sz : Z; out_type_id : Z; out_validate : bool }.

Definition set_val (v : Z) (out : calc_out) : calc_out := CalcOut v (out_sz out) (out_type_id out) (out_validate out).
Definition set_sz (sz : Z) (out : calc_out) : calc_out := CalcOut (out_val out) sz (out_type_id out) (out_validate out).
Definition set_type_id (id : Z) (out : calc_out) : calc_out := CalcOut (out_val out) (out_sz out) id (out_validate out).
Definition set_validate (v : bool) (out : calc_out) : calc_out := CalcOut (out_val out) (out_sz out) (out_type_id out) v.

Lemma out_val_set v out : out_val (set_val v out) = v.
Proof. done. Qed.
Lemma out_val_validate x out : out_val (set_validate x out) = out_val out.
Proof. done. Qed.
Lemma out_val_type_id x out : out_val (set_type_id x out) = out_val out.
Proof. done. Qed.
Lemma out_val_sz x out : out_val (set_sz x out) = out_val out.
Proof. done. Qed.

(** [while (btf_is_array(t))]: the element type of nested arrays. *)
Fixpoint elem_loop (fuel : nat) (b : btf) (id : Z) (t : btf_type) : option Z :=
  if btf_is_array t then
    match fuel with
    | O => None
    | S fuel =>
        a ← btf_array t;
        '(id, t) ← skip_mods_and_typedefs b (array_type a);
        elem_loop fuel b id t
    end
  else Some id.

(** The size and the id of the element behind the arrays of type [id]. *)
Definition elem_size (b : btf) (id type_id : Z) (out : calc_out) : option (Z * calc_out) :=
  '(elem_id, t) ← skip_mods_and_typedefs b id;
  elem_id ← elem_loop (S (Z.to_nat (btf__type_cnt b))) b elem_id t;
  sz ← btf__resolve_size b elem_id;
  match sz with
  | Err _ => Some (- EINVAL, out)
  | Ok sz => Some (0, set_type_id type_id (set_sz sz out))
  end.

(** The smallest aligned integer, from [byte_sz] bytes on, that covers a bitfield: its size
    and its byte offset. *)
Fixpoint window_loop (fuel : nat) (bit_off bit_sz byte_sz byte_off : Z) : option (result (Z * Z)) :=
  if u32 (byte_sz * 8) <? u32 (bit_off + bit_sz - byte_off * 8) then
    if 8 <=? byte_sz then Some (Err E2BIG) else
    match fuel with
    | O => None
    | S fuel =>
        let byte_sz := u32 (byte_sz * 2) in
        window_loop fuel bit_off bit_sz byte_sz (u32 (bit_off / 8 / byte_sz * byte_sz))
    end
  else Some (Ok (byte_sz, byte_off)).

(** The bytes of a field: whether it is a bitfield, the size in bits, the size in bytes and
    the byte offset.  A bitfield of a type of size 0 divides by zero. *)
Definition field_window (b : btf) (bit_off bit_sz : Z) (mt : btf_type) (field_type_id : Z) : option (result (bool * Z * Z * Z)) :=
  if 0 <? bit_sz then
    let byte_sz := t_type mt in
    if byte_sz =? 0 then None else
    w ← window_loop 3 bit_off bit_sz byte_sz (u32 (bit_off / 8 / byte_sz * byte_sz));
    match w with Err e => Some (Err e) | Ok (byte_sz, byte_off) => Some (Ok (true, bit_sz, byte_sz, byte_off)) end
  else
    sz ← btf__resolve_size b field_type_id;
    match sz with Err _ => Some (Err EINVAL) | Ok sz => Some (Ok (false, u32 (sz * 8), sz, bit_off / 8)) end.

(** An array element. *)
Definition calc_index (b : btf) (kind : bpf_core_relo_kind) (s : bpf_core_spec) (acc : bpf_core_accessor) (out : calc_out) :
    option (Z * calc_out) :=
  match kind with
  | BPF_CORE_FIELD_BYTE_OFFSET =>
      '(err, out) ← elem_size b (acc_type_id acc) (acc_type_id acc) (set_val (spec_bit_offset s / 8) out);
      Some (err, if err =? 0 then set_validate true out else out)
  | BPF_CORE_FIELD_BYTE_SIZE =>
      sz ← btf__resolve_size b (acc_type_id acc);
      match sz with Err _ => Some (- EINVAL, out) | Ok sz => Some (0, set_validate true (set_val sz out)) end
  | _ => Some (- EINVAL, out)
  end.

(** The value for a member whose bytes are known. *)
Definition member_value (b : btf) (kind : bpf_core_relo_kind) (bit_off : Z) (mt : btf_type) (field_type_id : Z)
    (bitfield : bool) (bit_sz byte_sz byte_off : Z) (out : calc_out) : option (Z * calc_out) :=
  let out := set_validate (negb bitfield) out in
  match kind with
  | BPF_CORE_FIELD_BYTE_OFFSET =>
      let out := set_val byte_off out in
      if bitfield then Some (0, out) else elem_size b field_type_id field_type_id out
  | BPF_CORE_FIELD_BYTE_SIZE => Some (0, set_val byte_sz out)
  | BPF_CORE_FIELD_SIGNED =>
      int_signed ← (if btf_is_int mt then enc ← btf_int_encoding mt; Some (negb (Z.land enc BTF_INT_SIGNED =? 0)) else Some false);
      let signed := (btf_is_any_enum mt && btf_kflag mt) || int_signed in
      Some (0, set_validate true (set_val (Z.b2z signed) out))
  | BPF_CORE_FIELD_LSHIFT_U64 => Some (0, set_val (u32 (64 - (bit_off + bit_sz - byte_off * 8))) out)
  | BPF_CORE_FIELD_RSHIFT_U64 => Some (0, set_validate true (set_val (u32 (64 - bit_sz)) out))
  | _ => Some (- EOPNOTSUPP, out)
  end.

(** A member. *)
Definition calc_member (b : btf) (kind : bpf_core_relo_kind) (s : bpf_core_spec) (acc : bpf_core_accessor) (out : calc_out) :
    option (Z * calc_out) :=
  t ← btf_type_by_id b (acc_type_id acc);
  m ← btf_member t (acc_idx acc);
  '(field_type_id, mt) ← skip_mods_and_typedefs b (member_type m);
  let bit_off := spec_bit_offset s in
  bit_sz ← btf_member_bitfield_size t (acc_idx acc);
  w ← field_window b bit_off bit_sz mt field_type_id;
  match w with
  | Err e => Some (- e, out)
  | Ok (bitfield, bit_sz, byte_sz, byte_off) => member_value b kind bit_off mt field_type_id bitfield bit_sz byte_sz byte_off out
  end.

Definition bpf_core_calc_field_relo (b : btf) (kind : bpf_core_relo_kind) (spec : option bpf_core_spec) (out : calc_out) :
    option (Z * calc_out) :=
  let out := set_sz 0 out in
  if bool_decide (kind = BPF_CORE_FIELD_EXISTS) then Some (0, set_val (if spec is Some _ then 1 else 0) out) else
  match spec with
  | None => Some (- EUCLEAN, out)
  | Some s =>
      acc ← last (spec_accs s);
      match acc_name acc with
      | None => calc_index b kind s acc out
      | Some _ => calc_member b kind s acc out
      end
  end.

Definition bpf_core_calc_type_relo (b : btf) (kind : bpf_core_relo_kind) (spec : option bpf_core_spec) (out : calc_out) :
    option (Z * calc_out) :=
  let out := set_validate true out in
  match spec with
  | None => Some (0, set_val 0 out)
  | Some s =>
      match kind with
      | BPF_CORE_TYPE_ID_TARGET => Some (0, set_validate false (set_val (spec_root_type_id s) out))
      | BPF_CORE_TYPE_EXISTS | BPF_CORE_TYPE_MATCHES => Some (0, set_val 1 out)
      | BPF_CORE_TYPE_SIZE =>
          sz ← btf__resolve_size b (spec_root_type_id s);
          match sz with Err _ => Some (- EINVAL, out) | Ok sz => Some (0, set_val sz out) end
      | _ => Some (- EOPNOTSUPP, out)
      end
  end.

Definition bpf_core_calc_enumval_relo (b : btf) (kind : bpf_core_relo_kind) (spec : option bpf_core_spec) (out : calc_out) :
    option (Z * calc_out) :=
  match kind with
  | BPF_CORE_ENUMVAL_EXISTS => Some (0, set_val (if spec is Some _ then 1 else 0) out)
  | BPF_CORE_ENUMVAL_VALUE =>
      match spec with
      | None => Some (- EUCLEAN, out)
      | Some s =>
          acc ← head (spec_accs s);
          t ← btf_type_by_id b (acc_type_id acc);
          if btf_is_enum t
          then e ← btf_enum t (acc_idx acc); Some (0, set_val (u64 (enum_val e)) out)
          else e ← btf_enum64 t (acc_idx acc); Some (0, set_val (btf_enum64_value e) out)
      end
  | _ => Some (- EOPNOTSUPP, out)
  end.

Record bpf_core_relo_res := ReloRes {
  orig_val : Z; new_val : Z; poison : bool; validate : bool; fail_memsz_adjust : bool;
  orig_sz : Z; orig_type_id : Z; new_sz : Z; new_type_id : Z
}.

(** Whether a load of another size still reads the value: pointers and unsigned integers. *)
Definition memsz_adjustable (lb tb : btf) (orig_id new_id : Z) : option bool :=
  orig_t ← btf_type_by_id lb orig_id;
  new_t ← btf_type_by_id tb new_id;
  if btf_is_ptr orig_t && btf_is_ptr new_t then Some true else
  if btf_is_int orig_t && btf_is_int new_t then
    enc1 ← btf_int_encoding orig_t;
    enc2 ← btf_int_encoding new_t;
    Some (negb (enc1 =? BTF_INT_SIGNED) && negb (enc2 =? BTF_INT_SIGNED))
  else Some false.

Definition relo_res (o n : calc_out) (fail : bool) : bpf_core_relo_res :=
  ReloRes (out_val o) (out_val n) false (out_validate o) fail (out_sz o) (out_type_id o) (out_sz n) (out_type_id n).

(** The local value and then, unless that failed, the target's. *)
Definition calc_both (calc : btf -> option bpf_core_spec -> calc_out -> option (Z * calc_out)) (lb tb : btf)
    (local_spec : bpf_core_spec) (targ_spec : option bpf_core_spec) : option (Z * bpf_core_relo_res) :=
  let out := CalcOut 0 0 0 true in
  '(err, orig) ← calc lb (Some local_spec) out;
  if negb (err =? 0) then Some (err, relo_res orig out false) else
  '(err, new) ← calc tb targ_spec out;
  Some (err, relo_res orig new false).

(** [tb] is the BTF of [targ_spec], which is the null pointer when there is no target. *)
Definition bpf_core_calc_relo (lb tb : btf) (kind : bpf_core_relo_kind) (local_spec : bpf_core_spec) (targ_spec : option bpf_core_spec) :
    option (Z * bpf_core_relo_res) :=
  '(err, res) ←
    (if core_relo_is_field_based kind then
       '(err, res) ← calc_both (fun b => bpf_core_calc_field_relo b kind) lb tb local_spec targ_spec;
       if negb (err =? 0) || (orig_sz res =? new_sz res) then Some (err, res) else
       ok ← memsz_adjustable lb tb (orig_type_id res) (new_type_id res);
       Some (0, ReloRes (orig_val res) (new_val res) false (validate res) (negb ok) (orig_sz res) (orig_type_id res) (new_sz res) (new_type_id res))
     else if core_relo_is_type_based kind then
       calc_both (fun b => bpf_core_calc_type_relo b kind) lb tb local_spec targ_spec
     else if core_relo_is_enumval_based kind then
       calc_both (fun b => bpf_core_calc_enumval_relo b kind) lb tb local_spec targ_spec
     else Some (- EOPNOTSUPP, relo_res (CalcOut 0 0 0 true) (CalcOut 0 0 0 true) false));
  if err =? - EUCLEAN
  then Some (0, ReloRes (orig_val res) (new_val res) true (validate res) (fail_memsz_adjust res) (orig_sz res) (orig_type_id res) (new_sz res) (new_type_id res))
  else Some (err, res).

(** ** Reading a field *)

(** [byte_sz] bytes at [byte_off] of the memory [mem], a number whose lowest byte is the
    first, and the [bit_sz] bits at [bit_off]. *)
Definition load (mem byte_off byte_sz : Z) : Z := (mem / 2 ^ (8 * byte_off)) mod 2 ^ (8 * byte_sz).
Definition bits_at (mem bit_off bit_sz : Z) : Z := (mem / 2 ^ bit_off) mod 2 ^ bit_sz.

Lemma mod_div_pow2 a p q : 0 <= p <= q -> (a mod 2 ^ q) / 2 ^ p = (a / 2 ^ p) mod 2 ^ (q - p).
Proof.
  intros Hp. apply Z.bits_inj'. intros i Hi. rewrite Z.div_pow2_bits by lia. destruct (decide (i < q - p)).
  - by rewrite !Z.mod_pow2_bits_low, Z.div_pow2_bits by lia.
  - by rewrite !Z.mod_pow2_bits_high by lia.
Qed.

Lemma mod_mod_pow2 a p q : 0 <= p <= q -> (a mod 2 ^ q) mod 2 ^ p = a mod 2 ^ p.
Proof.
  intros Hp. apply Z.bits_inj'. intros i Hi. destruct (decide (i < p)).
  - by rewrite !Z.mod_pow2_bits_low by lia.
  - by rewrite !Z.mod_pow2_bits_high by lia.
Qed.

(** An arithmetic shift of a wrapped number. *)
Lemma swrap_div w p z : 0 <= p < w -> swrap w z / 2 ^ p = swrap (w - p) (z / 2 ^ p).
Proof.
  intros Hp. assert (Hpos : 0 < 2 ^ p) by (apply Z.pow_pos_nonneg; lia). unfold swrap.
  replace (2 ^ (w - 1)) with (2 ^ (w - p - 1) * 2 ^ p) by (rewrite <- Z.pow_add_r by lia; f_equal; lia).
  rewrite <- Z.add_opp_r, <- Z.mul_opp_l, Z.div_add, mod_div_pow2, Z.div_add by lia. lia.
Qed.

Lemma swrap_mod w z : swrap w (z mod 2 ^ w) = swrap w z.
Proof. unfold swrap. by rewrite Zplus_mod_idemp_l. Qed.

(** The bytes of the window, shifted up to the top and then down, are the bits of the field,
    zero- or sign-extended. *)
Lemma window_reads mem bit_off bit_sz byte_off byte_sz :
  0 <= byte_off -> 8 * byte_off <= bit_off -> 0 < bit_sz -> bit_off + bit_sz <= 8 * (byte_off + byte_sz) -> byte_sz <= 8 ->
  let v := Z.shiftl (load mem byte_off byte_sz) (64 - (bit_off + bit_sz - byte_off * 8)) in
  Z.shiftr (u64 v) (64 - bit_sz) = bits_at mem bit_off bit_sz /\
  Z.shiftr (swrap 64 v) (64 - bit_sz) = swrap bit_sz (bits_at mem bit_off bit_sz).
Proof.
  intros H1 H2 H3 H4 H5 v. set (d := bit_off - 8 * byte_off). set (l := 64 - (bit_off + bit_sz - byte_off * 8)) in *.
  assert (Hdiv : (v / 2 ^ (64 - bit_sz)) mod 2 ^ bit_sz = bits_at mem bit_off bit_sz).
  { unfold v. rewrite Z.shiftl_mul_pow2 by lia. replace (64 - bit_sz) with (d + l) by lia.
    rewrite Z.pow_add_r, Z.div_mul_cancel_r by (lia || apply Z.pow_nonzero; lia).
    unfold load. rewrite mod_div_pow2, mod_mod_pow2, Z.div_div, <- Z.pow_add_r by (lia || apply Z.pow_nonzero; lia || apply Z.pow_pos_nonneg; lia).
    unfold bits_at. do 3 f_equal. lia. }
  rewrite !Z.shiftr_div_pow2 by lia. unfold uwrap. rewrite mod_div_pow2, swrap_div by lia.
  replace (64 - (64 - bit_sz)) with bit_sz by lia. rewrite Hdiv, <- swrap_mod, Hdiv. done.
Qed.

(** ** The window of a bitfield *)
Lemma window_spec n bit_off bit_sz byte_sz :
  0 <= bit_off < 2 ^ 31 -> 0 < bit_sz < 256 -> byte_sz = 1 \/ byte_sz = 2 \/ byte_sz = 4 \/ byte_sz = 8 -> 8 <= byte_sz * 2 ^ Z.of_nat n ->
  exists w, window_loop n bit_off bit_sz byte_sz (u32 (bit_off / 8 / byte_sz * byte_sz)) = Some w /\
    if bit_off mod 64 + bit_sz <=? 64 then
      exists sz off, w = Ok (sz, off) /\ byte_sz <= sz <= 8 /\ 0 <= off /\ 8 * off <= bit_off /\ bit_off + bit_sz <= 8 * (off + sz)
    else w = Err E2BIG.
Proof.
  change (2 ^ 31) with 2147483648. revert byte_sz. induction n as [|n IH]; intros byte_sz Ho Hs Hb Hn.
  - assert (byte_sz = 8) as -> by (cbn in Hn; lia). cbn [window_loop]. rewrite (u32_small (bit_off / 8 / 8 * 8)) by lia.
    rewrite (u32_small (8 * 8)), u32_small by lia. destruct (8 * 8 <? _) eqn:E; cbn [Z.leb Z.compare Pos.compare Pos.compare_cont].
    + eexists. split; [reflexivity |]. by replace (_ <=? 64) with false by lia.
    + eexists. split; [reflexivity |]. replace (bit_off mod 64 + bit_sz <=? 64) with true by lia. eexists _, _. split; [reflexivity | lia].
  - cbn [window_loop]. assert (Hoff : 0 <= bit_off / 8 / byte_sz * byte_sz /\ 8 * (bit_off / 8 / byte_sz * byte_sz) <= bit_off) by lia.
    rewrite (u32_small (bit_off / 8 / byte_sz * byte_sz)), (u32_small (byte_sz * 8)), (u32_small (bit_off + _ - _)) by lia.
    destruct (byte_sz * 8 <? _) eqn:E.
    + destruct (8 <=? byte_sz) eqn:E8; [eexists; split; [reflexivity |]; by replace (bit_off mod 64 + bit_sz <=? 64) with false by lia |].
      rewrite (u32_small (byte_sz * 2)) by lia. destruct (IH (byte_sz * 2) Ho Hs) as (w & Hw & Hok); [lia | |].
      { rewrite Nat2Z.inj_succ, Z.pow_succ_r in Hn by lia. lia. }
      exists w. split; [exact Hw |]. destruct (_ <=? 64); [|done]. destruct Hok as (sz & off & -> & Hok). eexists _, _. split; [reflexivity | lia].
    + eexists. split; [reflexivity |]. replace (bit_off mod 64 + bit_sz <=? 64) with true by lia. eexists _, _. split; [reflexivity | lia].
Qed.

(** ** The relocations of a field *)

(** The field at the end of a spec: the size of a bitfield or 0, and its type. *)
Definition last_member (b : btf) (s : bpf_core_spec) : option (Z * Z * btf_type) :=
  acc ← last (spec_accs s);
  _ ← acc_name acc;
  t ← btf_type_by_id b (acc_type_id acc);
  m ← btf_member t (acc_idx acc);
  '(field_type_id, mt) ← skip_mods_and_typedefs b (member_type m);
  bit_sz ← btf_member_bitfield_size t (acc_idx acc);
  Some (bit_sz, field_type_id, mt).

(** A bitfield of [w] bits of a type of 1, 2, 4 or 8 bytes. *)
Definition is_bitfield (b : btf) (s : bpf_core_spec) (w : Z) : Prop :=
  exists ft mt, last_member b s = Some (w, ft, mt) /\ 0 < w < 256 /\ (t_type mt = 1 \/ t_type mt = 2 \/ t_type mt = 4 \/ t_type mt = 8).

(** A field of [w] bits that is not a bitfield, at a byte boundary. *)
Definition is_plain (b : btf) (s : bpf_core_spec) (w : Z) : Prop :=
  exists ft mt sz, last_member b s = Some (0, ft, mt) /\ btf_is_array mt = false /\ btf__resolve_size b ft = Some (Ok sz) /\
    0 < sz <= 8 /\ w = 8 * sz /\ spec_bit_offset s mod 8 = 0.

Definition field_value (b : btf) (kind : bpf_core_relo_kind) (s : bpf_core_spec) (v : Z) : Prop :=
  exists out, bpf_core_calc_field_relo b kind (Some s) (CalcOut 0 0 0 true) = Some (0, out) /\ out_val out = v.

Definition field_error (b : btf) (kind : bpf_core_relo_kind) (s : bpf_core_spec) (e : Z) : Prop :=
  exists out, bpf_core_calc_field_relo b kind (Some s) (CalcOut 0 0 0 true) = Some (- e, out).

Definition value_kind (kind : bpf_core_relo_kind) : bool :=
  match kind with
  | BPF_CORE_FIELD_BYTE_OFFSET | BPF_CORE_FIELD_BYTE_SIZE | BPF_CORE_FIELD_LSHIFT_U64 | BPF_CORE_FIELD_RSHIFT_U64 | BPF_CORE_FIELD_SIGNED => true
  | _ => false
  end.

Lemma elem_loop_done fuel b id t : btf_is_array t = false -> elem_loop fuel b id t = Some id.
Proof. intros Ha. destruct fuel; cbn [elem_loop]; by rewrite Ha. Qed.

Lemma elem_size_plain b id t type_id sz out :
  skip_mods_and_typedefs b id = Some (id, t) -> btf_is_array t = false -> btf__resolve_size b id = Some (Ok sz) ->
  elem_size b id type_id out = Some (0, set_type_id type_id (set_sz sz out)).
Proof.
  unfold elem_size. intros Hs Ha. generalize (btf__resolve_size b). intros rs Hsz. rewrite Hs. cbn [mbind option_bind].
  rewrite (elem_loop_done _ _ _ _ Ha). cbn [mbind option_bind]. by rewrite Hsz.
Qed.

(** The value of a member from its bytes. *)
Lemma calc_field_member b s w ft mt kind out :
  last_member b s = Some (w, ft, mt) -> value_kind kind = true ->
  bpf_core_calc_field_relo b kind (Some s) out =
    (win ← field_window b (spec_bit_offset s) w mt ft;
     match win with
     | Err e => Some (- e, set_sz 0 out)
     | Ok (bitfield, bit_sz, byte_sz, byte_off) =>
         member_value b kind (spec_bit_offset s) mt ft bitfield bit_sz byte_sz byte_off (set_sz 0 out)
     end) /\ exists id, skip_mods_and_typedefs b id = Some (ft, mt).
Proof.
  unfold last_member. destruct (last (spec_accs s)) as [acc|] eqn:Hl; [|done]. cbn [mbind option_bind].
  destruct (acc_name acc) as [nm|] eqn:Hn; [|done]. cbn [mbind option_bind].
  destruct (btf_type_by_id b (acc_type_id acc)) as [t|] eqn:Ht; [|done]. cbn [mbind option_bind].
  destruct (btf_member t (acc_idx acc)) as [m|] eqn:Hm; [|done]. cbn [mbind option_bind].
  destruct (skip_mods_and_typedefs b (member_type m)) as [[ft' mt']|] eqn:Hs; [|done]. cbn [mbind option_bind].
  destruct (btf_member_bitfield_size t (acc_idx acc)) as [w'|] eqn:Hw; [|done]. intros [= -> -> ->] Hk. split; [|by exists (member_type m)].
  unfold bpf_core_calc_field_relo. rewrite bool_decide_eq_false_2 by (by intros ->). rewrite Hl. cbn [mbind option_bind]. rewrite Hn.
  unfold calc_member. rewrite Ht. cbn [mbind option_bind]. rewrite Hm. cbn [mbind option_bind]. rewrite Hs. cbn [mbind option_bind].
  rewrite Hw. reflexivity.
Qed.

(** The value of each kind, given the bytes of the field. *)
Lemma field_values b s w ft mt bf bit_sz byte_sz byte_off :
  last_member b s = Some (w, ft, mt) -> field_window b (spec_bit_offset s) w mt ft = Some (Ok (bf, bit_sz, byte_sz, byte_off)) ->
  (bf = false -> btf_is_array mt = false /\ skip_mods_and_typedefs b ft = Some (ft, mt) /\ exists sz, btf__resolve_size b ft = Some (Ok sz)) ->
  field_value b BPF_CORE_FIELD_BYTE_OFFSET s byte_off /\ field_value b BPF_CORE_FIELD_BYTE_SIZE s byte_sz /\
  field_value b BPF_CORE_FIELD_LSHIFT_U64 s (u32 (64 - (spec_bit_offset s + bit_sz - byte_off * 8))) /\
  field_value b BPF_CORE_FIELD_RSHIFT_U64 s (u32 (64 - bit_sz)).
Proof.
  intros Hl Hw Hbf.
  assert (Hall : forall kind v, value_kind kind = true ->
    (forall out, exists out', member_value b kind (spec_bit_offset s) mt ft bf bit_sz byte_sz byte_off out = Some (0, out') /\ out_val out' = v) ->
    field_value b kind s v).
  { intros kind v Hk Hc. destruct (calc_field_member b s w ft mt kind (CalcOut 0 0 0 true) Hl Hk) as [Heq _]. rewrite Hw in Heq.
    destruct (Hc (set_sz 0 (CalcOut 0 0 0 true))) as (out' & Hout & Hv). exists out'. split; [|exact Hv]. rewrite Heq. exact Hout. }
  split; [|split; [|split]]; apply Hall; try reflexivity; intros out;
    [|eexists; split; [reflexivity | by rewrite ?out_val_validate, out_val_set]..].
  destruct bf; [eexists; split; [reflexivity | by rewrite out_val_set] |]. destruct (Hbf eq_refl) as (Ha & Hsk & sz & Hsz).
  eexists. split; [by apply (elem_size_plain b ft mt ft sz) |]. by rewrite out_val_type_id, out_val_sz, out_val_set.
Qed.

(** Loading the bytes that the relocations of a field name and shifting them by the shifts
    that they give yields the [w] bits of the field. *)
Definition reads (b : btf) (s : bpf_core_spec) (w : Z) : Prop :=
  exists off sz l r,
    field_value b BPF_CORE_FIELD_BYTE_OFFSET s off /\ field_value b BPF_CORE_FIELD_BYTE_SIZE s sz /\
    field_value b BPF_CORE_FIELD_LSHIFT_U64 s l /\ field_value b BPF_CORE_FIELD_RSHIFT_U64 s r /\ sz <= 8 /\
    forall mem, Z.shiftr (u64 (Z.shiftl (load mem off sz) l)) r = bits_at mem (spec_bit_offset s) w /\
                Z.shiftr (swrap 64 (Z.shiftl (load mem off sz) l)) r = swrap w (bits_at mem (spec_bit_offset s) w).

Lemma window_reads_field b s w ft mt bf bit_sz byte_sz byte_off :
  last_member b s = Some (bit_sz, ft, mt) -> field_window b (spec_bit_offset s) bit_sz mt ft = Some (Ok (bf, w, byte_sz, byte_off)) ->
  (bf = false -> btf_is_array mt = false /\ skip_mods_and_typedefs b ft = Some (ft, mt) /\ exists sz, btf__resolve_size b ft = Some (Ok sz)) ->
  0 <= byte_off -> 8 * byte_off <= spec_bit_offset s -> 0 < w -> spec_bit_offset s + w <= 8 * (byte_off + byte_sz) -> byte_sz <= 8 ->
  reads b s w.
Proof.
  intros Hl Hw Hbf H1 H2 H3 H4 H5. destruct (field_values b s bit_sz ft mt bf w byte_sz byte_off Hl Hw Hbf) as (V1 & V2 & V3 & V4).
  rewrite u32_small in V3, V4 by lia. exists byte_off, byte_sz, (64 - (spec_bit_offset s + w - byte_off * 8)), (64 - w). split_and!; try done.
  intros mem. by apply window_reads.
Qed.

(** C11: the relocations of a field read the field.  For a bitfield in a type of 1, 2, 4 or 8
    bytes and for any other field of up to 8 bytes, the byte offset and the byte size that
    [bpf_core_calc_field_relo] gives name at most 8 bytes that contain the field, and
    shifting what is loaded from them left and right by the two shift relocations gives
    exactly the bits of the field, zero-extended, or sign-extended with an arithmetic
    shift.  Only a bitfield across an aligned 64-bit word, which one load cannot read, is
    refused, with [E2BIG]. *)
Theorem bpf_core_calc_field_reads b `{CoreBtf b} s w :
  0 <= spec_bit_offset s < 2 ^ 31 ->
  (is_plain b s w -> reads b s w) /\
  (is_bitfield b s w ->
     if spec_bit_offset s mod 64 + w <=? 64 then reads b s w
     else forall kind, value_kind kind = true -> field_error b kind s E2BIG).
Proof.
  intros Hb. split.
  - intros (ft & mt & sz & Hl & Ha & Hsz & Hr & -> & Hmod).
    destruct (calc_field_member b s 0 ft mt BPF_CORE_FIELD_SIGNED (CalcOut 0 0 0 true) Hl eq_refl) as (_ & id & Hs).
    destruct (skip_valid b _ _ _ Hs) as [_ Hs'].
    apply (window_reads_field b s (8 * sz) ft mt false 0 sz (spec_bit_offset s / 8)); try done; try lia.
    + unfold field_window. cbn [Z.ltb Z.compare]. rewrite Hsz. cbn [mbind option_bind]. rewrite u32_small by lia. by rewrite Z.mul_comm.
    + intros _. split_and!; [done.. | by exists sz].
  - intros (ft & mt & Hl & Hw & Hsz). destruct (window_spec 3 (spec_bit_offset s) w (t_type mt) Hb Hw Hsz ltac:(cbn; lia)) as (win & Hwin & Hok).
    assert (Hfw : field_window b (spec_bit_offset s) w mt ft =
      Some (match win with Err e => Err e | Ok (byte_sz, byte_off) => Ok (true, w, byte_sz, byte_off) end)).
    { unfold field_window. replace (0 <? w) with true by lia. replace (t_type mt =? 0) with false by lia. rewrite Hwin. cbn [mbind option_bind]. by destruct win as [[]|]. }
    destruct (_ <=? 64).
    + destruct Hok as (sz & off & -> & Hok). apply (window_reads_field b s w ft mt true w sz off); try done; lia.
    + subst win. intros kind Hk. destruct (calc_field_member b s w ft mt kind (CalcOut 0 0 0 true) Hl Hk) as [Heq _].
      eexists. rewrite Heq, Hfw. reflexivity.
Qed.

Lemma bpf_core_calc_field_reads_witness :
  exists s, spec_of_path demo_local 9 BPF_CORE_FIELD_BYTE_OFFSET [0; 0] = Some (Ok s) /\ spec_bit_offset s = 37 /\ reads demo_local s 3.
Proof.
  eexists. split; [vm_compute; reflexivity |]. split; [reflexivity |].
  match goal with |- reads _ ?s _ => destruct (bpf_core_calc_field_reads demo_local s 3) as [_ Hbit] end; [by split; [apply Z.leb_le | apply Z.ltb_lt] |].
  apply Hbit. eexists _, _. split; [vm_compute; reflexivity |]. split; [lia |]. right; right; left. reflexivity.
Defined.
