(* ===== verification/CorePatch.v ===== *)
(** * CorePatch: patching BPF instructions

    From [src/src/relo_core.c]: [bpf_core_patch_insn] with [bpf_core_poison_insn] and the
    conversions of access sizes.  The instructions are the list from the one to patch to the
    end of the program; a 64-bit load takes two of them. *)
From S2P Require Import Prelude Hashmap Mem Strset BtfTypes Btf BtfFind BtfParse BtfWrite CoreTypes CoreCompat CoreMatch CoreSpec CoreField CoreMember CoreCalc.
Open Scope Z_scope.

Record bpf_insn := BpfInsn { code : Z; dst_reg : Z; src_reg : Z; off : Z; imm : Z }.

Abbreviation BPF_LD := 0 (only parsing).
Abbreviation BPF_LDX := 1 (only parsing).
Abbreviation BPF_ST := 2 (only parsing).
Abbreviation BPF_STX := 3 (only parsing).
Abbreviation BPF_ALU := 4 (only parsing).
Abbreviation BPF_JMP := 5 (only parsing).
Abbreviation BPF_ALU64 := 7 (only parsing).
Abbreviation BPF_W := 0 (only parsing).
Abbreviation BPF_H := 8 (only parsing).
Abbreviation BPF_B := 16 (only parsing).
Abbreviation BPF_DW := 24 (only parsing).
Abbreviation BPF_IMM := 0 (only parsing).
Abbreviation BPF_K := 0 (only parsing).
Abbreviation BPF_CALL := 128 (only parsing).
Definition SHRT_MAX : Z := 32767.

Definition BPF_CLASS (code : Z) : Z := Z.land code 7.
Definition BPF_SIZE (code : Z) : Z := Z.land code 24.
Definition BPF_MODE (code : Z) : Z := Z.land code 224.
Definition BPF_SRC (code : Z) : Z := Z.land code 8.

Definition is_ldimm64_insn (insn : bpf_insn) : bool := code insn =? Z.lor (Z.lor BPF_LD BPF_IMM) BPF_DW.

Definition poisoned : bpf_insn := BpfInsn (Z.lor BPF_JMP BPF_CALL) 0 0 0 195896080.

(** [None]: past the end of the program. *)
Fixpoint poison_loop (n : nat) (insns : list bpf_insn) : option (list bpf_insn) :=
  match n, insns with
  | O, _ => Some insns
  | S n, _ :: insns => rest ← poison_loop n insns; Some (poisoned :: rest)
  | S _, [] => None
  end.

Definition bpf_core_poison_insn (insns : list bpf_insn) : option (Z * list bpf_insn) :=
  insn ← head insns;
  insns ← poison_loop (if is_ldimm64_insn insn then 2 else 1) insns;
  Some (0, insns).

Definition insn_bpf_size_to_bytes (insn : bpf_insn) : Z :=
  let size := BPF_SIZE (code insn) in
  if size =? BPF_DW then 8 else if size =? BPF_W then 4 else if size =? BPF_H then 2 else if size =? BPF_B then 1 else -1.

Definition insn_bytes_to_bpf_size (sz : Z) : Z :=
  if sz =? 8 then BPF_DW else if sz =? 4 then BPF_W else if sz =? 2 then BPF_H else if sz =? 1 then BPF_B else -1.

Definition set_imm (insn : bpf_insn) (v : Z) : bpf_insn := BpfInsn (code insn) (dst_reg insn) (src_reg insn) (off insn) (s32 v).
Definition set_off (insn : bpf_insn) (v : Z) : bpf_insn := BpfInsn (code insn) (dst_reg insn) (src_reg insn) (swrap 16 v) (imm insn).
Definition set_code (insn : bpf_insn) (c : Z) : bpf_insn := BpfInsn (u8 c) (dst_reg insn) (src_reg insn) (off insn) (imm insn).

(** An operation with an immediate. *)
Definition patch_alu (insn : bpf_insn) (rest : list bpf_insn) (res : bpf_core_relo_res) : option (Z * list bpf_insn) :=
  if negb (BPF_SRC (code insn) =? BPF_K) then Some (- EINVAL, insn :: rest) else
  if poison res then bpf_core_poison_insn (insn :: rest) else
  if validate res && negb (u64 (imm insn) =? orig_val res) then Some (- EINVAL, insn :: rest) else
  Some (0, set_imm insn (new_val res) :: rest).

(** A load or store; the size of the access is adjusted after the offset. *)
Definition patch_mem (insn : bpf_insn) (rest : list bpf_insn) (res : bpf_core_relo_res) : option (Z * list bpf_insn) :=
  if poison res then bpf_core_poison_insn (insn :: rest) else
  if validate res && negb (u64 (off insn) =? orig_val res) then Some (- EINVAL, insn :: rest) else
  if SHRT_MAX <? new_val res then Some (- ERANGE, insn :: rest) else
  if fail_memsz_adjust res then bpf_core_poison_insn (insn :: rest) else
  let insn := set_off insn (new_val res) in
  if negb (new_sz res =? orig_sz res) then
    let insn_bytes_sz := insn_bpf_size_to_bytes insn in
    if negb (u32 insn_bytes_sz =? orig_sz res) then Some (- EINVAL, insn :: rest) else
    let insn_bpf_sz := insn_bytes_to_bpf_size (new_sz res) in
    if insn_bpf_sz <? 0 then Some (- EINVAL, insn :: rest) else
    Some (0, set_code insn (Z.lor (Z.lor (BPF_MODE (code insn)) insn_bpf_sz) (BPF_CLASS (code insn))) :: rest)
  else Some (0, insn :: rest).

(** The 64-bit immediate of a pair of instructions. *)
Definition ldimm64 (insn insn1 : bpf_insn) : Z := Z.lor (u32 (imm insn)) (u64 (Z.shiftl (u64 (imm insn1)) 32)).

Definition ldimm64_form (insn insn1 : bpf_insn) : bool :=
  (src_reg insn =? 0) && (off insn =? 0) && (code insn1 =? 0) && (dst_reg insn1 =? 0) && (src_reg insn1 =? 0) && (off insn1 =? 0).

Definition patch_ld (insn : bpf_insn) (rest : list bpf_insn) (res : bpf_core_relo_res) : option (Z * list bpf_insn) :=
  if negb (is_ldimm64_insn insn) then Some (- EINVAL, insn :: rest) else
  match rest with
  | [] => if negb (src_reg insn =? 0) || negb (off insn =? 0) then Some (- EINVAL, [insn]) else None
  | insn1 :: rest =>
      if negb (ldimm64_form insn insn1) then Some (- EINVAL, insn :: insn1 :: rest) else
      if poison res then bpf_core_poison_insn (insn :: insn1 :: rest) else
      if validate res && negb (ldimm64 insn insn1 =? orig_val res) then Some (- EINVAL, insn :: insn1 :: rest) else
      Some (0, set_imm insn (new_val res) :: set_imm insn1 (Z.shiftr (new_val res) 32) :: rest)
  end.

Definition bpf_core_patch_insn (insns : list bpf_insn) (res : bpf_core_relo_res) : option (Z * list bpf_insn) :=
  match insns with
  | [] => None
  | insn :: rest =>
      let class := BPF_CLASS (code insn) in
      if (class =? BPF_ALU) || (class =? BPF_ALU64) then patch_alu insn rest res else
      if (class =? BPF_LDX) || (class =? BPF_ST) || (class =? BPF_STX) then patch_mem insn rest res else
      if class =? BPF_LD then patch_ld insn rest res else
      Some (- EINVAL, insns)
  end.

(** ** What an instruction is patched to *)
Record insn_wf (i : bpf_insn) : Prop := {
  wf_code : 0 <= code i < 256;
  wf_off : -32768 <= off i < 32768;
  wf_imm : -2147483648 <= imm i < 2147483648
}.

Inductive insn_class := Alu | Mem | Ld | Other.
Definition class_of (insn : bpf_insn) : insn_class :=
  let class := BPF_CLASS (code insn) in
  if (class =? BPF_ALU) || (class =? BPF_ALU64) then Alu else
  if (class =? BPF_LDX) || (class =? BPF_ST) || (class =? BPF_STX) then Mem else
  if class =? BPF_LD then Ld else Other.

(** The value in the instruction that relocations are about, if it is of a form that has one. *)
Definition operand (insns : list bpf_insn) : option Z :=
  insn ← head insns;
  match class_of insn with
  | Alu => if BPF_SRC (code insn) =? BPF_K then Some (u64 (imm insn)) else None
  | Mem => Some (u64 (off insn))
  | Ld =>
      match insns with
      | _ :: insn1 :: _ => if is_ldimm64_insn insn && ldimm64_form insn insn1 then Some (ldimm64 insn insn1) else None
      | _ => None
      end
  | Other => None
  end.

(** The instructions without that value and without the size of a memory access. *)
Definition shape (insns : list bpf_insn) : list bpf_insn :=
  match insns with
  | [] => []
  | insn :: rest =>
      match class_of insn with
      | Alu => set_imm insn 0 :: rest
      | Mem => set_code (set_off insn 0) (Z.lor (BPF_MODE (code insn)) (BPF_CLASS (code insn))) :: rest
      | Ld => set_imm insn 0 :: match rest with [] => [] | insn1 :: rest => set_imm insn1 0 :: rest end
      | Other => insns
      end
  end.

(** An immediate of an operation is sign-extended from 32 bits. *)
Definition written (insn : bpf_insn) (v : Z) : Z := match class_of insn with Alu => u64 (s32 v) | _ => v end.

Definition access_size (insns : list bpf_insn) : Z := match insns with insn :: _ => insn_bpf_size_to_bytes insn | [] => 0 end.

Definition resized (res : bpf_core_relo_res) (insns insns' : list bpf_insn) : Prop :=
  if new_sz res =? orig_sz res then access_size insns' = access_size insns
  else access_size insns = orig_sz res /\ access_size insns' = new_sz res.

Inductive patch_result (insn : bpf_insn) (rest : list bpf_insn) (res : bpf_core_relo_res) : Z -> list bpf_insn -> Prop :=
  | patch_poison n :
      is_Some (operand (insn :: rest)) -> n = (if is_ldimm64_insn insn then 2%nat else 1%nat) ->
      poison res = true \/ (class_of insn = Mem /\ fail_memsz_adjust res = true) ->
      patch_result insn rest res 0 (replicate n poisoned ++ drop n (insn :: rest))
  | patch_written v insns' :
      operand (insn :: rest) = Some v -> poison res = false -> (validate res = true -> v = orig_val res) ->
      operand insns' = Some (written insn (new_val res)) -> shape insns' = shape (insn :: rest) ->
      (class_of insn = Mem -> new_val res <= SHRT_MAX /\ fail_memsz_adjust res = false /\ resized res (insn :: rest) insns') ->
      patch_result insn rest res 0 insns'
  | patch_form : operand (insn :: rest) = None -> patch_result insn rest res (- EINVAL) (insn :: rest)
  | patch_unexpected v :
      operand (insn :: rest) = Some v -> poison res = false -> validate res = true -> v <> orig_val res ->
      patch_result insn rest res (- EINVAL) (insn :: rest)
  | patch_range : class_of insn = Mem -> poison res = false -> SHRT_MAX < new_val res -> patch_result insn rest res (- ERANGE) (insn :: rest)
  | patch_size insns' :
      class_of insn = Mem -> poison res = false -> new_sz res <> orig_sz res ->
      access_size (insn :: rest) <> orig_sz res \/ (new_sz res <> 1 /\ new_sz res <> 2 /\ new_sz res <> 4 /\ new_sz res <> 8) ->
      patch_result insn rest res (- EINVAL) insns'.

(** ** Proofs *)

(** The fields of an opcode are independent. *)
Lemma code_fields c sz :
  0 <= c < 256 -> sz = BPF_DW \/ sz = BPF_W \/ sz = BPF_H \/ sz = BPF_B ->
  let c' := Z.lor (Z.lor (BPF_MODE c) sz) (BPF_CLASS c) in
  u8 c' = c' /\ BPF_CLASS c' = BPF_CLASS c /\ BPF_MODE c' = BPF_MODE c /\ BPF_SIZE c' = sz.
Proof.
  intros Hc Hsz c'.
  assert (Hall : forallb (fun c => forallb (fun sz =>
      let c' := Z.lor (Z.lor (BPF_MODE c) sz) (BPF_CLASS c) in
      (u8 c' =? c') && (BPF_CLASS c' =? BPF_CLASS c) && (BPF_MODE c' =? BPF_MODE c) && (BPF_SIZE c' =? sz))
    [BPF_DW; BPF_W; BPF_H; BPF_B]) (seqZ 0 256) = true) by (vm_compute; reflexivity).
  rewrite forallb_forall in Hall. specialize (Hall c ltac:(apply list_elem_of_In, elem_of_seqZ; lia)).
  rewrite forallb_forall in Hall. specialize (Hall sz ltac:(cbn [In]; intuition)).
  rewrite !andb_true_iff, !Z.eqb_eq in Hall. unfold c'. tauto.
Qed.

Lemma size_cases c : 0 <= c < 256 -> BPF_SIZE c = BPF_DW \/ BPF_SIZE c = BPF_W \/ BPF_SIZE c = BPF_H \/ BPF_SIZE c = BPF_B.
Proof.
  intros Hc. assert (Hall : forallb (fun c => (BPF_SIZE c =? BPF_DW) || (BPF_SIZE c =? BPF_W) || (BPF_SIZE c =? BPF_H) || (BPF_SIZE c =? BPF_B)) (seqZ 0 256) = true)
    by (vm_compute; reflexivity).
  rewrite forallb_forall in Hall. specialize (Hall c ltac:(apply list_elem_of_In, elem_of_seqZ; lia)).
  rewrite !orb_true_iff, !Z.eqb_eq in Hall. tauto.
Qed.

(** A 64-bit value in two immediates. *)
Lemma u32_s32 z : u32 (s32 z) = u32 z.
Proof. unfold uwrap, swrap. rewrite Zminus_mod_idemp_l. f_equal. lia. Qed.

Lemma u64_split v : 0 <= v < 2 ^ 64 -> Z.lor (u32 (s32 v)) (u64 (Z.shiftl (u64 (s32 (Z.shiftr v 32))) 32)) = v.
Proof.
  intros Hv. rewrite u32_s32. set (h := Z.shiftr v 32). assert (Hh : 0 <= h < 2 ^ 32) by (unfold h; rewrite Z.shiftr_div_pow2 by lia; lia).
  assert (Hhi : u64 (Z.shiftl (u64 (s32 h)) 32) = h * 2 ^ 32).
  { rewrite Z.shiftl_mul_pow2 by lia. unfold uwrap, swrap. change (2 ^ (32 - 1)) with 2147483648. change (2 ^ 32) with 4294967296 in *.
    change (2 ^ 64) with 18446744073709551616. lia. }
  rewrite Hhi. unfold h, uwrap. rewrite Z.shiftr_div_pow2 by lia. rewrite <- Z.shiftl_mul_pow2 by lia. rewrite Z.lor_comm.
  rewrite lor_shift_add by lia. lia.
Qed.

Section Patch.
Context (insn : bpf_insn) (rest : list bpf_insn) (res : bpf_core_relo_res).
Hypothesis (Hwf : insn_wf insn) (Hnew : 0 <= new_val res < 2 ^ 64) (Hsz : 0 <= orig_sz res < 2 ^ 32).

Lemma poison_spec n :
  n = (if is_ldimm64_insn insn then 2%nat else 1%nat) -> (n <= length (insn :: rest))%nat ->
  bpf_core_poison_insn (insn :: rest) = Some (0, replicate n poisoned ++ drop n (insn :: rest)).
Proof.
  intros -> Hn. unfold bpf_core_poison_insn. cbn [head mbind option_bind]. destruct (is_ldimm64_insn insn); [|done].
  destruct rest as [|insn1 rest']; [cbn in Hn; lia | done].
Qed.

Lemma class_not_ld : class_of insn <> Ld -> is_ldimm64_insn insn = false.
Proof.
  unfold class_of, is_ldimm64_insn. destruct (code insn =? _) eqn:E; [|done]. apply Z.eqb_eq in E. rewrite E. cbn. by intros [].
Qed.

Lemma patch_alu_spec : class_of insn = Alu -> exists r insns', patch_alu insn rest res = Some (r, insns') /\ patch_result insn rest res r insns'.
Proof.
  intros Hc. assert (Hop : operand (insn :: rest) = if BPF_SRC (code insn) =? BPF_K then Some (u64 (imm insn)) else None) by (unfold operand; cbn; by rewrite Hc).
  pose proof (class_not_ld ltac:(by rewrite Hc)) as Hl. unfold patch_alu.
  destruct (BPF_SRC (code insn) =? BPF_K) eqn:Hk; cbn [negb]; [|by eexists _, _; split; [reflexivity | apply patch_form]].
  destruct (poison res) eqn:Hp.
  { rewrite (poison_spec 1) by (rewrite ?Hl; cbn; lia). eexists _, _. split; [reflexivity |]. by apply patch_poison; [rewrite Hop; eexists | rewrite Hl | left]. }
  destruct (validate res && negb (u64 (imm insn) =? orig_val res)) eqn:Hv.
  { apply andb_true_iff in Hv as [Hv Hne]. eexists _, _. split; [reflexivity |]. apply (patch_unexpected _ _ _ (u64 (imm insn))); try done. lia. }
  eexists _, _. split; [reflexivity |]. apply (patch_written _ _ _ (u64 (imm insn))); try done.
  - intros Hval. rewrite Hval in Hv. cbn in Hv. lia.
  - unfold operand. cbn [head mbind option_bind]. change (class_of (set_imm insn (new_val res))) with (class_of insn). rewrite Hc. cbn [code set_imm imm].
    rewrite Hk. unfold written. by rewrite Hc.
  - unfold shape. change (class_of (set_imm insn (new_val res))) with (class_of insn). by rewrite Hc.
  - by rewrite Hc.
Qed.

Lemma patch_ld_spec :
  class_of insn = Ld -> (is_ldimm64_insn insn = true -> rest <> []) ->
  exists r insns', patch_ld insn rest res = Some (r, insns') /\ patch_result insn rest res r insns'.
Proof.
  intros Hc Hne. unfold patch_ld. destruct (is_ldimm64_insn insn) eqn:Hl; cbn [negb].
  2: { eexists _, _. split; [reflexivity |]. apply patch_form. unfold operand. cbn [head mbind option_bind]. rewrite Hc, Hl. by destruct rest. }
  assert (exists insn1 rest', rest = insn1 :: rest') as (insn1 & rest' & ->) by (destruct rest; [by destruct Hne | by eexists _, _]).
  assert (Hop : operand (insn :: insn1 :: rest') = if ldimm64_form insn insn1 then Some (ldimm64 insn insn1) else None)
    by (unfold operand; cbn [head mbind option_bind]; by rewrite Hc, Hl).
  destruct (ldimm64_form insn insn1) eqn:Hf; cbn [negb]; [|by eexists _, _; split; [reflexivity | apply patch_form]].
  destruct (poison res) eqn:Hp.
  { eexists _, (replicate 2 poisoned ++ drop 2 (insn :: insn1 :: rest')). split; [unfold bpf_core_poison_insn; cbn [head mbind option_bind]; by rewrite Hl |].
    apply (patch_poison _ _ _ 2); [rewrite Hop; by eexists | by rewrite Hl | by left]. }
  destruct (validate res && negb (ldimm64 insn insn1 =? orig_val res)) eqn:Hv.
  { apply andb_true_iff in Hv as [Hv Hn]. eexists _, _. split; [reflexivity |]. apply (patch_unexpected _ _ _ (ldimm64 insn insn1)); try done. lia. }
  eexists _, _. split; [reflexivity |]. apply (patch_written _ _ _ (ldimm64 insn insn1)); try done.
  - intros Hval. rewrite Hval in Hv. cbn in Hv. lia.
  - unfold operand. cbn [head mbind option_bind]. change (class_of (set_imm insn (new_val res))) with (class_of insn). rewrite Hc.
    change (is_ldimm64_insn (set_imm insn (new_val res))) with (is_ldimm64_insn insn). rewrite Hl.
    change (ldimm64_form _ _) with (ldimm64_form insn insn1). rewrite Hf. unfold written. rewrite Hc. cbn [andb]. f_equal. by apply u64_split.
  - unfold shape. change (class_of (set_imm insn (new_val res))) with (class_of insn). by rewrite Hc.
  - by rewrite Hc.
Qed.

Lemma mem_written insn' :
  class_of insn = Mem -> BPF_CLASS (code insn') = BPF_CLASS (code insn) -> BPF_MODE (code insn') = BPF_MODE (code insn) ->
  dst_reg insn' = dst_reg insn -> src_reg insn' = src_reg insn -> imm insn' = imm insn -> off insn' = swrap 16 (new_val res) -> new_val res <= SHRT_MAX ->
  operand (insn' :: rest) = Some (written insn (new_val res)) /\ shape (insn' :: rest) = shape (insn :: rest).
Proof.
  intros Hc Hcl Hm Hd Hs Hi Ho Hr. assert (Hc' : class_of insn' = Mem) by (unfold class_of in *; by rewrite Hcl).
  unfold operand, shape, written. cbn [head mbind option_bind]. rewrite Hc, Hc', Ho. unfold SHRT_MAX in Hr.
  rewrite swrap_small, u64_small by (cbn; lia). split; [done |]. unfold set_code, set_off. cbn [code dst_reg src_reg imm off]. by rewrite Hcl, Hm, Hd, Hs, Hi.
Qed.

Lemma bytes_to_size sz :
  if insn_bytes_to_bpf_size sz <? 0 then sz <> 1 /\ sz <> 2 /\ sz <> 4 /\ sz <> 8
  else exists c, insn_bytes_to_bpf_size sz = c /\ (c = BPF_DW \/ c = BPF_W \/ c = BPF_H \/ c = BPF_B) /\
    forall i, BPF_SIZE (code i) = c -> insn_bpf_size_to_bytes i = sz.
Proof.
  unfold insn_bytes_to_bpf_size, insn_bpf_size_to_bytes.
  destruct (sz =? 8) eqn:E8; [cbn; eexists; split_and!; [done | tauto |]; intros i ->; cbn; lia |].
  destruct (sz =? 4) eqn:E4; [cbn; eexists; split_and!; [done | tauto |]; intros i ->; cbn; lia |].
  destruct (sz =? 2) eqn:E2; [cbn; eexists; split_and!; [done | tauto |]; intros i ->; cbn; lia |].
  destruct (sz =? 1) eqn:E1; [cbn; eexists; split_and!; [done | tauto |]; intros i ->; cbn; lia |]. cbn. lia.
Qed.

Lemma access_range : 1 <= insn_bpf_size_to_bytes insn <= 8.
Proof. destruct Hwf as [Hc _ _]. unfold insn_bpf_size_to_bytes. destruct (size_cases _ Hc) as [-> | [-> | [-> | ->]]]; cbn; lia. Qed.

Lemma patch_mem_spec : class_of insn = Mem -> exists r insns', patch_mem insn rest res = Some (r, insns') /\ patch_result insn rest res r insns'.
Proof.
  intros Hc. assert (Hop : operand (insn :: rest) = Some (u64 (off insn))) by (unfold operand; cbn; by rewrite Hc).
  pose proof (class_not_ld ltac:(by rewrite Hc)) as Hl.
  assert (Hpoison : poison res = true \/ (class_of insn = Mem /\ fail_memsz_adjust res = true) ->
    exists r insns', bpf_core_poison_insn (insn :: rest) = Some (r, insns') /\ patch_result insn rest res r insns').
  { intros Hwhy. rewrite (poison_spec 1) by (rewrite ?Hl; cbn; lia). eexists _, _. split; [reflexivity |]. by apply patch_poison; [rewrite Hop; eexists | rewrite Hl |]. }
  unfold patch_mem. destruct (poison res) eqn:Hp; [apply Hpoison; by left |].
  destruct (validate res && negb (u64 (off insn) =? orig_val res)) eqn:Hv.
  { apply andb_true_iff in Hv as [Hv Hne]. eexists _, _. split; [reflexivity |]. apply (patch_unexpected _ _ _ (u64 (off insn))); try done. lia. }
  assert (Hexp : validate res = true -> u64 (off insn) = orig_val res) by (intros Hval; rewrite Hval in Hv; cbn in Hv; lia).
  destruct (SHRT_MAX <? new_val res) eqn:Hr; [eexists _, _; split; [reflexivity | apply patch_range; (done || lia)] |].
  destruct (fail_memsz_adjust res) eqn:Hfail; [apply Hpoison; by right |]. cbn zeta.
  destruct (new_sz res =? orig_sz res) eqn:Hs; cbn [negb].
  { eexists _, _. split; [reflexivity |]. destruct (mem_written (set_off insn (new_val res)) Hc) as [Ho Hsh]; try done; [lia |].
    apply (patch_written _ _ _ (u64 (off insn))); try done. intros _. split; [lia |]. split; [done |]. unfold resized. by rewrite Hs. }
  pose proof access_range as Hacc. change (insn_bpf_size_to_bytes (set_off insn (new_val res))) with (insn_bpf_size_to_bytes insn).
  rewrite (u32_small (insn_bpf_size_to_bytes insn)) by lia.
  destruct (insn_bpf_size_to_bytes insn =? orig_sz res) eqn:Ha; cbn [negb];
    [|eexists _, _; split; [reflexivity | apply patch_size; (done || lia || (left; cbn [access_size]; lia))]].
  pose proof (bytes_to_size (new_sz res)) as Hbs. destruct (insn_bytes_to_bpf_size (new_sz res) <? 0).
  { eexists _, _. split; [reflexivity |]. apply patch_size; (done || lia || by right). }
  destruct Hbs as (c & -> & Hcc & Hsize). destruct Hwf as [Hcode _ _]. destruct (code_fields (code insn) c Hcode Hcc) as (F1 & F2 & F3 & F4).
  eexists _, _. split; [reflexivity |]. change (code (set_off insn (new_val res))) with (code insn).
  destruct (mem_written (set_code (set_off insn (new_val res)) (Z.lor (Z.lor (BPF_MODE (code insn)) c) (BPF_CLASS (code insn)))) Hc) as [Ho Hsh];
    try done; [cbn [code set_code]; by rewrite F1 | cbn [code set_code]; by rewrite F1 | lia |].
  apply (patch_written _ _ _ (u64 (off insn))); try done. intros _. split; [lia |]. split; [done |]. unfold resized. rewrite Hs. cbn [access_size].
  split; [lia |]. apply Hsize. cbn [code set_code]. by rewrite F1.
Qed.
End Patch.

(** C12: [bpf_core_patch_insn] on a program that does not end in half a 64-bit load always
    returns.  On success the instruction has been turned into the poison call, and only
    when the relocation asks for it or a memory access of the wrong size would read it
    wrongly; or its operand, which was the expected one if it is checked, is now the new
    value (sign-extended from 32 bits in an operation), the size of a memory access is
    the new one, and nothing else has changed.  An operand out of range, an unexpected one, an
    unknown form or size is refused. *)
Theorem bpf_core_patch_insn_spec insn rest res :
  insn_wf insn -> 0 <= new_val res < 2 ^ 64 -> 0 <= orig_sz res < 2 ^ 32 -> (is_ldimm64_insn insn = true -> rest <> []) ->
  exists r insns', bpf_core_patch_insn (insn :: rest) res = Some (r, insns') /\ patch_result insn rest res r insns'.
Proof.
  intros Hwf Hnew Hsz Hrest. unfold bpf_core_patch_insn.
  assert (Hcl : class_of insn = class_of insn) by done. unfold class_of in Hcl at 2. cbn zeta.
  destruct ((BPF_CLASS (code insn) =? BPF_ALU) || _); [by apply patch_alu_spec |].
  destruct ((BPF_CLASS (code insn) =? BPF_LDX) || _ || _); [by apply patch_mem_spec |].
  destruct (BPF_CLASS (code insn) =? BPF_LD); [by apply patch_ld_spec |].
  eexists _, _. split; [reflexivity |]. apply patch_form. unfold operand. cbn [head mbind option_bind]. by rewrite Hcl.
Qed.

Lemma bpf_core_patch_insn_spec_witness :
  exists insns', bpf_core_patch_insn [BpfInsn 97 1 2 8 0] (ReloRes 8 16 false true false 4 1 8 2) = Some (0, insns') /\
    operand insns' = Some 16 /\ access_size insns' = 8 /\ shape insns' = shape [BpfInsn 97 1 2 8 0].
Proof.
  destruct (bpf_core_patch_insn_spec (BpfInsn 97 1 2 8 0) [] (ReloRes 8 16 false true false 4 1 8 2)) as (r & insns' & Heq & Hres).
  - split; cbn; lia.
  - split; [by apply Z.leb_le | by apply Z.ltb_lt].
  - split; [by apply Z.leb_le | by apply Z.ltb_lt].
  - discriminate.
  - assert (Hr : Some (r, insns') = Some (0, [BpfInsn 121 1 2 16 0])) by (rewrite <- Heq; vm_compute; reflexivity). injection Hr as -> ->.
    eexists. split; [exact Heq |]. inversion Hres as [n Hop Hn Hwhy E1 | v insns' Hop Hp Hv Ho Hsh Hm E1 | | | |]; [destruct Hwhy as [Hp | [_ Hf]]; discriminate |].
    destruct (Hm eq_refl) as (_ & _ & Hrs). destruct Hrs as [_ Hrs]. split; [exact Ho |]. split; [exact Hrs | exact Hsh].
Defined.
