(* ===== verification/CoreCands.v ===== *)
(** * CoreCands: candidates of CO-RE relocations

    From [src/src/libbpf.c]: [bpf_core_add_cands], [bpf_core_find_cands] and
    [bpf_core_resolve_relo] with its cache of candidate lists, and from
    [src/src/relo_core.c]: [bpf_core_calc_relo_insn].

    A candidate is a type of a target BTF object.  The list of candidates of a local type is
    found once, kept in a hash table under the id of the type, and pruned by every
    relocation to the candidates that match it; the table holds pointers to the lists, so a
    [cand_cache] is the table with the lists. *)
From S2P Require Import Prelude Hashmap Mem Strset BtfTypes Btf BtfFind BtfParse BtfWrite CoreTypes CoreDemo CoreCompat CoreMatch CoreSpec CoreField CoreMember CoreCalc CorePatch.
Open Scope Z_scope.

Record bpf_core_cand := Cand { cand_btf : btf; cand_id : Z }.

(** ** Finding the candidates *)
Fixpoint add_cands_loop (n : nat) (i : Z) (local_t : btf_type) (local_name : list Z) (local_essent_len : Z) (targ_btf : btf)
    (cands : list bpf_core_cand) (o : oracle) : option (Z * list bpf_core_cand * oracle) :=
  match n with
  | O => Some (0, cands, o)
  | S n =>
      let continue := add_cands_loop n (i + 1) local_t local_name local_essent_len targ_btf in
      t ← btf__type_by_id targ_btf i;
      if negb (btf_kind_core_compat t local_t) then continue cands o else
      targ_name ← name_str targ_btf (name_off t);
      if str_is_empty targ_name then continue cands o else
      targ_name ← targ_name;
      if negb (bpf_core_essential_name_len targ_name =? local_essent_len) then continue cands o else
      if negb (strncmp (Z.to_nat local_essent_len) local_name targ_name =? 0) then continue cands o else
      let '(ok, o) := alloc_array (zlen cands + 1) 16 o in
      if negb ok then Some (- ENOMEM, cands, o) else continue (cands ++ [Cand targ_btf i]) o
  end.

Definition bpf_core_add_cands (local_cand : bpf_core_cand) (local_essent_len : Z) (targ_btf : btf) (targ_start_id : Z)
    (cands : list bpf_core_cand) (o : oracle) : option (Z * list bpf_core_cand * oracle) :=
  local_t ← btf__type_by_id (cand_btf local_cand) (cand_id local_cand);
  local_name ← name_str (cand_btf local_cand) (name_off local_t);
  local_name ← local_name;
  add_cands_loop (Z.to_nat (btf__type_cnt targ_btf - targ_start_id)) targ_start_id local_t local_name local_essent_len targ_btf cands o.

(** The BTF objects of [struct bpf_object] that hold target types; [btf_modules] is what
    [load_module_btfs], which asks the kernel on its first call, gives; an error there ends the
    relocation of the object, so that its later calls, which give what was loaded before the
    error, do not happen. *)
Record core_object := CoreObject {
  btf_vmlinux : btf;
  btf_vmlinux_override : option btf;
  btf_modules : result (list btf)
}.

Fixpoint module_cands_loop (local_cand : bpf_core_cand) (local_essent_len start : Z) (mods : list btf) (cands : list bpf_core_cand) (o : oracle) :
    option (Z * list bpf_core_cand * oracle) :=
  match mods with
  | [] => Some (0, cands, o)
  | m :: mods =>
      '(err, cands, o) ← bpf_core_add_cands local_cand local_essent_len m start cands o;
      if negb (err =? 0) then Some (err, cands, o) else module_cands_loop local_cand local_essent_len start mods cands o
  end.

Definition bpf_core_find_cands (obj : core_object) (local_btf : btf) (local_type_id : Z) (o : oracle) :
    option (result (list bpf_core_cand) * oracle) :=
  match btf__type_by_id local_btf local_type_id with
  | None => Some (Err EINVAL, o)
  | Some local_t =>
      local_name ← name_str local_btf (name_off local_t);
      if str_is_empty local_name then Some (Err EINVAL, o) else
      local_name ← local_name;
      let local_essent_len := bpf_core_essential_name_len local_name in
      let local_cand := Cand local_btf local_type_id in
      let '(ok, o) := alloc o in
      if negb ok then Some (Err ENOMEM, o) else
      let main_btf := default (btf_vmlinux obj) (btf_vmlinux_override obj) in
      '(err, cands, o) ← bpf_core_add_cands local_cand local_essent_len main_btf 1 [] o;
      if negb (err =? 0) then Some (Err (- err), o) else
      if negb (zlen cands =? 0) then Some (Ok cands, o) else
      if bool_decide (is_Some (btf_vmlinux_override obj)) then Some (Ok cands, o) else
      match btf_modules obj with
      | Err e => Some (Err e, o)
      | Ok mods =>
          '(err, cands, o) ← module_cands_loop local_cand local_essent_len (btf__type_cnt (btf_vmlinux obj)) mods cands o;
          if negb (err =? 0) then Some (Err (- err), o) else Some (Ok cands, o)
      end
  end.

(** ** Choosing among the candidates *)

(** The loop over the candidates: the error, the candidates kept, and the result and spec of
    the first that matched. *)
Fixpoint cands_loop (lb : btf) (kind : bpf_core_relo_kind) (local_spec : bpf_core_spec) (todo kept : list bpf_core_cand)
    (best : option (bpf_core_relo_res * bpf_core_spec)) : option (Z * list bpf_core_cand * option (bpf_core_relo_res * bpf_core_spec)) :=
  match todo with
  | [] => Some (0, kept, best)
  | cand :: todo =>
      '(err, cand_spec) ← bpf_core_spec_match lb (cand_btf cand) local_spec (cand_id cand);
      if err <? 0 then Some (err, kept, best) else
      if err =? 0 then cands_loop lb kind local_spec todo kept best else
      '(err, cand_res) ← bpf_core_calc_relo lb (cand_btf cand) kind local_spec (Some cand_spec);
      if negb (err =? 0) then Some (err, kept, best) else
      match best with
      | None => cands_loop lb kind local_spec todo (kept ++ [cand]) (Some (cand_res, cand_spec))
      | Some (targ_res, targ_spec) =>
          if negb (spec_bit_offset cand_spec =? spec_bit_offset targ_spec) then Some (- EINVAL, kept, best) else
          if negb (eqb (poison cand_res) (poison targ_res)) || negb (new_val cand_res =? new_val targ_res) then Some (- EINVAL, kept, best)
          else cands_loop lb kind local_spec todo (kept ++ [cand]) best
      end
  end.

(** The error, the result, and the list of candidates, which is overwritten in place. *)
Definition bpf_core_calc_relo_insn (local_btf : btf) (relo : bpf_core_relo) (cands : list bpf_core_cand) :
    option (Z * option bpf_core_relo_res * list bpf_core_cand) :=
  local_type ← btf_type_by_id local_btf (relo_type_id relo);
  local_name ← name_str local_btf (name_off local_type);
  match local_name with
  | None => Some (- EINVAL, None, cands)
  | Some name =>
      spec ← bpf_core_parse_spec local_btf relo;
      match spec with
      | Err _ => Some (- EINVAL, None, cands)
      | Ok local_spec =>
          if bool_decide (relo_kind relo = BPF_CORE_TYPE_ID_LOCAL) then
            let id := spec_root_type_id local_spec in
            Some (0, Some (ReloRes id id false false false 0 0 0 0), cands)
          else if str_is_empty local_name then Some (- EOPNOTSUPP, None, cands)
          else
            '(err, kept, best) ← cands_loop local_btf (relo_kind relo) local_spec cands [] None;
            if negb (err =? 0) then Some (err, fst <$> best, kept ++ drop (length kept) cands) else
            match best with
            | Some (targ_res, _) => Some (0, Some targ_res, kept)
            | None =>
                '(err, targ_res) ← bpf_core_calc_relo local_btf local_btf (relo_kind relo) local_spec None;
                Some (err, Some targ_res, cands)
            end
      end
  end.

(** ** The cache *)
Definition bpf_core_hash_fn (k : Z) : Z := u64 k.
Definition bpf_core_equal_fn (k1 k2 : Z) : bool := k1 =? k2.
#[export] Instance core_hash_ctx : hash_ctx := { hash_fn := bpf_core_hash_fn; equal_fn := bpf_core_equal_fn }.

(** The table maps the id of a local type to the position of its list. *)
Record cand_cache := CandCache { cache_map : hashmap; cache_lists : list (list bpf_core_cand) }.

Definition bpf_core_resolve_relo (obj : core_object) (local_btf : btf) (relo : bpf_core_relo) (cache : cand_cache) (o : oracle) :
    option (Z * option bpf_core_relo_res * cand_cache * oracle) :=
  match btf__type_by_id local_btf (relo_type_id relo) with
  | None => Some (- EINVAL, None, cache, o)
  | Some local_type =>
      local_name ← name_str local_btf (name_off local_type);
      match local_name with
      | None => Some (- EINVAL, None, cache, o)
      | Some _ =>
          if bool_decide (relo_kind relo = BPF_CORE_TYPE_ID_LOCAL) then
            '(err, res, _) ← bpf_core_calc_relo_insn local_btf relo [];
            Some (err, res, cache, o)
          else
            let calc cache p o :=
              cands ← znth (cache_lists cache) p;
              '(err, res, cands) ← bpf_core_calc_relo_insn local_btf relo cands;
              Some (err, res, CandCache (cache_map cache) (zupd (cache_lists cache) p cands), o) in
            match hashmap_find (cache_map cache) (relo_type_id relo) with
            | Some p => calc cache p o
            | None =>
                '(found, o) ← bpf_core_find_cands obj local_btf (relo_type_id relo) o;
                match found with
                | Err e => Some (- e, None, cache, o)
                | Ok cands =>
                    let p := zlen (cache_lists cache) in
                    let r := hashmap_insert (cache_map cache) (relo_type_id relo) p HASHMAP_SET o in
                    let cache := CandCache (ins_map r) (cache_lists cache ++ [cands]) in
                    if negb (ins_ret r =? 0) then Some (ins_ret r, None, cache, ins_oracle r)
                    else calc cache p (ins_oracle r)
                end
            end
      end
  end.

(** ** The candidates of a type *)

(** A type of the same kind, or an enum for an enum, with a name that is the local one
    without flavors. *)
Definition is_cand (local_t : btf_type) (local_name : list Z) (tb : btf) (i : Z) : bool :=
  match btf__type_by_id tb i with
  | Some t =>
      match name_str tb (name_off t) with
      | Some (Some nm) => btf_kind_core_compat t local_t && negb (bool_decide (nm = [])) && bool_decide (essential nm = essential local_name)
      | _ => false
      end
  | None => false
  end.

Definition cands_of (local_t : btf_type) (local_name : list Z) (tb : btf) (start : Z) : list bpf_core_cand :=
  map (Cand tb) (filter (fun i => is_cand local_t local_name tb i = true) (seqZ start (btf__type_cnt tb - start))).

Definition out_of_memory (o : oracle) (n : Z) : Prop := false ∈ o \/ SIZE_MAX < n * 16.

Lemma alloc_step n o ok o' : alloc_array n 16 o = (ok, o') -> (ok = false -> out_of_memory o n) /\ (forall n', out_of_memory o' n' -> out_of_memory o n').
Proof.
  unfold alloc_array, out_of_memory. destruct (_ <? _) eqn:E; [intros [= <- <-]; split; [right; lia | done] |].
  destruct o as [|x o]; cbn; intros [= <- <-]; [done |]. split; [intros ->; left; constructor |]. intros n' [Hin | Hn]; [left; by constructor | by right].
Qed.

Section Find.
Context (local_t : btf_type) (local_name : list Z) (tb : btf) `{CoreBtf tb}.
Hypothesis (Hpos : pos_str local_name).

Lemma name_test nm :
  pos_str nm ->
  negb (bpf_core_essential_name_len nm =? bpf_core_essential_name_len local_name) ||
  negb (strncmp (Z.to_nat (bpf_core_essential_name_len local_name)) local_name nm =? 0) = negb (bool_decide (essential nm = essential local_name)).
Proof.
  intros Hp. pose proof (essential_equal_iff local_name nm Hpos Hp) as He. unfold essential_equal in He.
  rewrite <- negb_andb. f_equal. apply eq_true_iff_eq. rewrite bool_decide_eq_true, (Z.eqb_sym (bpf_core_essential_name_len nm)).
  rewrite He. split; congruence.
Qed.

Lemma add_cands_loop_spec n i cands o :
  0 <= i -> i + Z.of_nat n <= btf__type_cnt tb ->
  exists err cands' o',
    add_cands_loop n i local_t local_name (bpf_core_essential_name_len local_name) tb cands o = Some (err, cands', o') /\
    (forall n', out_of_memory o' n' -> out_of_memory o n') /\
    ((err = 0 /\ cands' = cands ++ map (Cand tb) (filter (fun i => is_cand local_t local_name tb i = true) (seqZ i (Z.of_nat n)))) \/
     (err = - ENOMEM /\ exists k, 0 < k <= zlen cands + Z.of_nat n /\ out_of_memory o k)).
Proof.
  revert i cands o. induction n as [|n IH]; intros i cands o Hi Hn; cbn [add_cands_loop].
  { eexists _, _, _. split; [reflexivity |]. split; [done |]. left. split; [done |]. by rewrite app_nil_r. }
  destruct (core_total (b := tb) i ltac:(lia)) as [t Ht]. destruct (core_name tb i t Ht) as (nm & Hnm & Hp). rewrite Ht. cbn [mbind option_bind]. rewrite Hnm. cbn [mbind option_bind].
  assert (Hseq : seqZ i (Z.of_nat (S n)) = i :: seqZ (i + 1) (Z.of_nat n)).
  { rewrite seqZ_cons by lia. f_equal. f_equal; lia. }
  rewrite Hseq. clear Hseq.
  assert (Hskip : is_cand local_t local_name tb i = false -> exists err cands' o',
    add_cands_loop n (i + 1) local_t local_name (bpf_core_essential_name_len local_name) tb cands o = Some (err, cands', o') /\
    (forall n', out_of_memory o' n' -> out_of_memory o n') /\
    ((err = 0 /\ cands' = cands ++ map (Cand tb) (filter (fun i => is_cand local_t local_name tb i = true) (i :: seqZ (i + 1) (Z.of_nat n)))) \/
     (err = - ENOMEM /\ exists k, 0 < k <= zlen cands + Z.of_nat (S n) /\ out_of_memory o k))).
  { intros Hno. destruct (IH (i + 1) cands o ltac:(lia) ltac:(lia)) as (err & cands' & o' & Hl & Hmono & Hcase). exists err, cands', o'.
    split; [done |]. split; [done |]. rewrite filter_cons_False by (by rewrite Hno).
    destruct Hcase as [Hok | [-> (k & Hk & Hout)]]; [by left | right; split; [done | exists k; split; [lia | done]]]. }
  unfold is_cand in Hskip at 1. rewrite Ht, Hnm in Hskip.
  destruct (btf_kind_core_compat t local_t) eqn:Hcc; cbn [negb andb] in *; [|by apply Hskip].
  destruct nm as [|c nm]; cbn [str_is_empty]; [by apply Hskip |]. rewrite bool_decide_eq_false_2 in Hskip by done. cbn [negb andb] in Hskip.
  pose proof (name_test (c :: nm) Hp) as Htest. destruct (bpf_core_essential_name_len (c :: nm) =? _); cbn [negb orb] in *.
  2: { apply Hskip. symmetry in Htest. by apply negb_true_iff in Htest. }
  destruct (strncmp _ _ _ =? 0); cbn [negb] in *; [|apply Hskip; symmetry in Htest; by apply negb_true_iff in Htest].
  symmetry in Htest. apply negb_false_iff in Htest. destruct (alloc_array (zlen cands + 1) 16 o) as [ok o1] eqn:Hal.
  destruct (alloc_step _ _ _ _ Hal) as [Hfail Hmono1]. destruct ok; cbn [negb].
  2: { eexists _, _, _. split; [reflexivity |]. split; [done |]. right. split; [done |]. exists (zlen cands + 1).
       pose proof (zlen_nonneg cands). split; [lia | by apply Hfail]. }
  destruct (IH (i + 1) (cands ++ [Cand tb i]) o1 ltac:(lia) ltac:(lia)) as (err & cands' & o' & Hl & Hmono & Hcase). exists err, cands', o'.
  split; [done |]. split; [eauto |]. rewrite zlen_snoc in Hcase.
  destruct Hcase as [[-> ->] | [-> (k & Hk & Hout)]]; [left | right; split; [done | exists k; split; [lia | auto]]]. split; [done |].
  rewrite filter_cons_True; [by rewrite <- app_assoc |]. unfold is_cand. rewrite Ht, Hnm, Hcc, Htest. by rewrite bool_decide_eq_false_2.
Qed.
End Find.

(** The local type with its name. *)
Definition local_named (lb : btf) (id : Z) (local_t : btf_type) (local_name : list Z) : Prop :=
  btf__type_by_id lb id = Some local_t /\ name_str lb (name_off local_t) = Some (Some local_name) /\ pos_str local_name.

Lemma add_cands_spec lb id lt name tb `{CoreBtf tb} start cands o :
  local_named lb id lt name -> 0 <= start ->
  exists err cands' o',
    bpf_core_add_cands (Cand lb id) (bpf_core_essential_name_len name) tb start cands o = Some (err, cands', o') /\
    (forall n', out_of_memory o' n' -> out_of_memory o n') /\
    ((err = 0 /\ cands' = cands ++ cands_of lt name tb start) \/
     (err = - ENOMEM /\ exists k, 0 < k <= zlen cands + Z.max 0 (btf__type_cnt tb - start) /\ out_of_memory o k)).
Proof.
  intros (Ht & Hn & Hp) Hs. unfold bpf_core_add_cands, cands_of. cbn [cand_btf cand_id]. rewrite Ht. cbn [mbind option_bind]. rewrite Hn. cbn [mbind option_bind].
  destruct (decide (start <= btf__type_cnt tb)).
  - destruct (add_cands_loop_spec lt name tb Hp (Z.to_nat (btf__type_cnt tb - start)) start cands o Hs ltac:(lia)) as (err & cands' & o' & Hl & Hm & Hc).
    exists err, cands', o'. split; [done |]. split; [done |]. rewrite Z2Nat.id in Hc by lia. rewrite Z.max_r by lia. exact Hc.
  - replace (Z.to_nat (btf__type_cnt tb - start)) with O by lia. eexists _, _, _. split; [reflexivity |]. split; [done |]. left. split; [done |].
    unfold seqZ. replace (Z.to_nat (btf__type_cnt tb - start)) with O by lia. by rewrite app_nil_r.
Qed.

Definition types_in (mods : list btf) : Z := fold_right (fun m n => Z.max 0 (btf__type_cnt m) + n) 0 mods.

Lemma types_in_nonneg mods : 0 <= types_in mods.
Proof. induction mods as [|m mods IH]; [done |]. unfold types_in in *. cbn [fold_right]. lia. Qed.

Lemma cands_of_length lt name tb start : 0 <= start -> zlen (cands_of lt name tb start) <= Z.max 0 (btf__type_cnt tb).
Proof.
  intros Hs. unfold cands_of, zlen. rewrite length_map.
  pose proof (length_filter (fun i => is_cand lt name tb i = true) (seqZ start (btf__type_cnt tb - start))) as Hl. rewrite length_seqZ in Hl. lia.
Qed.

Lemma module_cands_spec lb id lt name start mods :
  local_named lb id lt name -> 0 <= start -> Forall CoreBtf mods -> forall cands o,
  exists err cands' o',
    module_cands_loop (Cand lb id) (bpf_core_essential_name_len name) start mods cands o = Some (err, cands', o') /\
    ((err = 0 /\ cands' = cands ++ concat (map (fun m => cands_of lt name m start) mods)) \/
     (err = - ENOMEM /\ exists k, 0 < k <= zlen cands + types_in mods /\ out_of_memory o k)).
Proof.
  intros Hl Hs Hmods. induction Hmods as [|m mods Hm Hmods IH]; intros cands o; cbn [module_cands_loop].
  { eexists _, _, _. split; [reflexivity |]. left. by rewrite app_nil_r. }
  destruct (add_cands_spec lb id lt name m start cands o Hl Hs) as (err & cands1 & o1 & -> & Hmono & Hc). cbn [mbind option_bind].
  pose proof (types_in_nonneg mods). cbn [types_in fold_right]. fold (types_in mods).
  destruct Hc as [[-> ->] | [-> (k & Hk & Hout)]]; cbn [Z.eqb negb].
  - destruct (IH (cands ++ cands_of lt name m start) o1) as (err & cands2 & o2 & Hloop & Hc). exists err, cands2, o2. split; [exact Hloop |].
    pose proof (cands_of_length lt name m start Hs). rewrite zlen_app in Hc.
    destruct Hc as [[-> ->] | [-> (k & Hk & Hout)]]; [left; split; [done |]; cbn; by rewrite <- app_assoc | right]. split; [done |]. exists k. split; [lia | auto].
  - eexists _, _, _. split; [reflexivity |]. right. split; [done |]. exists k. split; [lia | done].
Qed.

(** Those of the kernel or of the BTF given instead of it; the modules only if there is none. *)
Definition candidates (obj : core_object) (local_t : btf_type) (local_name : list Z) : result (list bpf_core_cand) :=
  let cands := cands_of local_t local_name (default (btf_vmlinux obj) (btf_vmlinux_override obj)) 1 in
  if bool_decide (cands = []) && negb (bool_decide (is_Some (btf_vmlinux_override obj))) then
    match btf_modules obj with
    | Err e => Err e
    | Ok mods => Ok (concat (map (fun m => cands_of local_t local_name m (btf__type_cnt (btf_vmlinux obj))) mods))
    end
  else Ok cands.

Record object_ok (obj : core_object) : Prop := {
  obj_vmlinux : CoreBtf (btf_vmlinux obj);
  obj_override b : btf_vmlinux_override obj = Some b -> CoreBtf b;
  obj_modules mods : btf_modules obj = Ok mods -> Forall CoreBtf mods;
  obj_cnt : 0 <= btf__type_cnt (btf_vmlinux obj)
}.

(** All the types there are. *)
Definition object_types (obj : core_object) : Z :=
  Z.max 0 (btf__type_cnt (default (btf_vmlinux obj) (btf_vmlinux_override obj))) +
  match btf_modules obj with Ok mods => types_in mods | Err _ => 0 end.

Lemma find_cands_ok obj lb id lt name o :
  object_ok obj -> local_named lb id lt name -> name <> [] ->
  exists r o', bpf_core_find_cands obj lb id o = Some (r, o') /\
    (r = candidates obj lt name \/ (r = Err ENOMEM /\ exists k, k <= object_types obj /\ out_of_memory o k)).
Proof.
  intros Hobj Hl Hne. destruct (Hl) as (Ht & Hn & Hp). unfold bpf_core_find_cands. rewrite Ht, Hn. cbn [mbind option_bind].
  destruct name as [|c name]; [done |]. cbn [str_is_empty]. set (nm := c :: name) in *.
  assert (Htot : 0 <= object_types obj) by (unfold object_types; destruct (btf_modules obj) as [mods|]; [pose proof (types_in_nonneg mods) |]; lia).
  destruct (alloc_cases o) as (o1 & Ho1 & [Ha | [Ha Hin]]); rewrite Ha; cbn [negb].
  2: { eexists _, _. split; [reflexivity |]. right. split; [done |]. exists 0. split; [done | by left]. }
  assert (Hmono1 : forall n', out_of_memory o1 n' -> out_of_memory o n').
  { intros n' [?|?]; [left; auto | by right]. }
  assert (Hmain : CoreBtf (default (btf_vmlinux obj) (btf_vmlinux_override obj))).
  { destruct (btf_vmlinux_override obj) as [b|] eqn:E; [by apply (obj_override obj Hobj) | apply (obj_vmlinux obj Hobj)]. }
  destruct (add_cands_spec lb id lt nm (default (btf_vmlinux obj) (btf_vmlinux_override obj)) 1 [] o1 Hl ltac:(lia)) as (err & cands & o2 & Hadd & Hmono & Hc).
  rewrite Hadd. cbn [mbind option_bind]. unfold candidates, object_types. set (main := default _ _) in *. clear Hadd.
  assert (Hmods : 0 <= match btf_modules obj with Ok mods => types_in mods | Err _ => 0 end) by (destruct (btf_modules obj) as [mods|]; [apply types_in_nonneg | done]).
  destruct Hc as [[-> ->] | [-> (k & Hk & Hout)]]; cbn [Z.eqb negb app].
  2: { eexists _, _. split; [reflexivity |]. right. split; [done |]. exists k. change (zlen (@nil bpf_core_cand)) with 0 in Hk. split; [lia | auto]. }
  destruct (decide (cands_of lt nm main 1 = [])) as [E|E].
  2: { replace (zlen (cands_of lt nm main 1) =? 0) with false by (destruct (cands_of lt nm main 1); [done | rewrite zlen_cons; pose proof (zlen_nonneg l); lia]).
       eexists _, _. split; [reflexivity |]. left. by rewrite bool_decide_eq_false_2. }
  rewrite E. cbn [negb zlen length Z.of_nat Z.eqb]. rewrite (bool_decide_eq_true_2 ([] = [])) by done. cbn [andb].
  destruct (bool_decide (is_Some (btf_vmlinux_override obj))); cbn [negb]; [by eexists _, _; split; [reflexivity | left] |].
  destruct (btf_modules obj) as [mods|e] eqn:Em; [|by eexists _, _; split; [reflexivity | left]].
  destruct (module_cands_spec lb id lt nm (btf__type_cnt (btf_vmlinux obj)) mods Hl (obj_cnt obj Hobj) (obj_modules obj Hobj mods Em) [] o2) as (err & cands & o3 & Hloop & Hc).
  rewrite Hloop. cbn [mbind option_bind]. destruct Hc as [[-> ->] | [-> (k & Hk & Hout)]]; cbn [Z.eqb negb app].
  - eexists _, _. split; [reflexivity | by left].
  - eexists _, _. split; [reflexivity |]. right. split; [done |]. exists k. change (zlen (@nil bpf_core_cand)) with 0 in Hk. split; [lia | auto].
Qed.

(** C32: [bpf_core_find_cands] finds exactly the candidates of a named local type, in the
    order of their ids: the types of a compatible kind with a name that is equal without
    flavors, of the kernel's BTF or the one given in its place, and only when the kernel has
    none of the modules'.  It always returns, and gives anything else only when it runs out
    of memory. *)
Theorem bpf_core_find_cands_spec obj lb id lt name o :
  object_ok obj -> local_named lb id lt name -> name <> [] ->
  exists r o', bpf_core_find_cands obj lb id o = Some (r, o') /\
    (r = candidates obj lt name \/ (r = Err ENOMEM /\ exists k, k <= object_types obj /\ out_of_memory o k)).
Proof. apply find_cands_ok. Qed.

(** The kernel of the example, without modules. *)
Definition demo_object : core_object := CoreObject demo_targ None (Ok []).

Lemma demo_object_ok : object_ok demo_object.
Proof. split; cbn; [apply demo_targ_core | done | intros mods [= <-]; constructor | by apply Z.leb_le]. Qed.

Lemma demo_struct_t :
  local_named demo_local 8 (BtfType 25 67108866 24 [31; 5; 0; 5; 2; 128; 35; 2214592513; 8; 38; 1; 50331685]) [116; 95; 95; 95; 108].
Proof. split_and!; [vm_compute; reflexivity | vm_compute; reflexivity |]. repeat constructor. Qed.

Lemma bpf_core_find_cands_spec_witness :
  exists o', bpf_core_find_cands demo_object demo_local 8 [] = Some (Ok [Cand demo_targ 8], o').
Proof.
  destruct (bpf_core_find_cands_spec demo_object demo_local 8 _ _ [] demo_object_ok demo_struct_t ltac:(discriminate)) as (r & o' & Heq & Hr).
  exists o'. rewrite Heq. destruct Hr as [-> | [_ (k & Hk & [Hin | Hbig])]].
  - vm_compute. reflexivity.
  - by apply elem_of_nil in Hin.
  - assert (Hobj : object_types demo_object = 10) by (vm_compute; reflexivity). unfold SIZE_MAX in Hbig. lia.
Defined.

(** ** What a candidate says *)

(** An error, no match, or the result and the spec of a match. *)
Definition cand_outcome (lb : btf) (kind : bpf_core_relo_kind) (ls : bpf_core_spec) (c : bpf_core_cand) :
    option (result (option (bpf_core_relo_res * bpf_core_spec))) :=
  '(err, s) ← bpf_core_spec_match lb (cand_btf c) ls (cand_id c);
  if err <? 0 then Some (Err (- err)) else
  if err =? 0 then Some (Ok None) else
  '(err, res) ← bpf_core_calc_relo lb (cand_btf c) kind ls (Some s);
  if negb (err =? 0) then Some (Err (- err)) else Some (Ok (Some (res, s))).

Definition matches (lb : btf) (kind : bpf_core_relo_kind) (ls : bpf_core_spec) (c : bpf_core_cand) : bool :=
  match cand_outcome lb kind ls c with Some (Ok (Some _)) => true | _ => false end.

(** Two matches for the same field, decision and value. *)
Definition same_result (x y : bpf_core_relo_res * bpf_core_spec) : Prop :=
  spec_bit_offset (snd x) = spec_bit_offset (snd y) /\ poison (fst x) = poison (fst y) /\ new_val (fst x) = new_val (fst y).

Section Choose.
Context (lb : btf) (kind : bpf_core_relo_kind) (ls : bpf_core_spec).

(** All candidates answer, and those that match say what the first says. *)
Definition unanimous (cands : list bpf_core_cand) (first : option (bpf_core_relo_res * bpf_core_spec)) : Prop :=
  forall c, c ∈ cands -> exists x, cand_outcome lb kind ls c = Some (Ok x) /\
    forall y, x = Some y -> exists y0, first = Some y0 /\ same_result y y0.

(** Why a relocation fails: an error of a candidate, or two that disagree. *)
Definition dispute (cands : list bpf_core_cand) (first : option (bpf_core_relo_res * bpf_core_spec)) (err : Z) : Prop :=
  exists c, c ∈ cands /\
    ((exists e, cand_outcome lb kind ls c = Some (Err e) /\ err = - e) \/
     (err = - EINVAL /\ exists x y, cand_outcome lb kind ls c = Some (Ok (Some x)) /\ ~ same_result x y /\
        (first = Some y \/ exists c', c' ∈ cands /\ cand_outcome lb kind ls c' = Some (Ok (Some y))))).

Definition first_match (cands : list bpf_core_cand) : option (bpf_core_relo_res * bpf_core_spec) :=
  c ← head (filter (fun c => matches lb kind ls c = true) cands);
  match cand_outcome lb kind ls c with Some (Ok x) => x | _ => None end.

(** One round of the loop. *)
Lemma cands_loop_step c todo kept best :
  cands_loop lb kind ls (c :: todo) kept best =
  (x ← cand_outcome lb kind ls c;
   match x with
   | Err e => Some (- e, kept, best)
   | Ok None => cands_loop lb kind ls todo kept best
   | Ok (Some (res, s)) =>
       match best with
       | None => cands_loop lb kind ls todo (kept ++ [c]) (Some (res, s))
       | Some (res0, s0) =>
           if negb (spec_bit_offset s =? spec_bit_offset s0) then Some (- EINVAL, kept, best) else
           if negb (eqb (poison res) (poison res0)) || negb (new_val res =? new_val res0) then Some (- EINVAL, kept, best)
           else cands_loop lb kind ls todo (kept ++ [c]) best
       end
   end).
Proof.
  cbn [cands_loop]. unfold cand_outcome. destruct (bpf_core_spec_match lb (cand_btf c) ls (cand_id c)) as [[err s]|]; [|done]. cbn [mbind option_bind].
  destruct (err <? 0); [cbn; by rewrite Z.opp_involutive |]. destruct (err =? 0); [done |].
  destruct (bpf_core_calc_relo lb (cand_btf c) kind ls (Some s)) as [[err2 res]|]; [|done]. cbn [mbind option_bind].
  destruct (negb (err2 =? 0)); [cbn; by rewrite Z.opp_involutive | done].
Qed.

Lemma same_result_test res s res0 s0 :
  negb (spec_bit_offset s =? spec_bit_offset s0) || (negb (eqb (poison res) (poison res0)) || negb (new_val res =? new_val res0)) = false <->
  same_result (res, s) (res0, s0).
Proof.
  unfold same_result. cbn [fst snd]. rewrite !orb_false_iff, !negb_false_iff, !Z.eqb_eq, eqb_true_iff. tauto.
Qed.

Lemma outcome_error c e : cand_outcome lb kind ls c = Some (Err e) -> e <> 0.
Proof.
  unfold cand_outcome. destruct (bpf_core_spec_match lb (cand_btf c) ls (cand_id c)) as [[err s]|]; [|done]. cbn [mbind option_bind].
  destruct (err <? 0) eqn:E1; [intros [= <-]; lia |]. destruct (err =? 0); [done |].
  destruct (bpf_core_calc_relo lb (cand_btf c) kind ls (Some s)) as [[err2 res]|]; [|done]. cbn [mbind option_bind].
  destruct (err2 =? 0) eqn:E2; cbn [negb]; [done | intros [= <-]; lia].
Qed.

Lemma dispute_cons c todo best err : dispute todo best err -> dispute (c :: todo) best err.
Proof.
  intros (c0 & Hin & Hc). exists c0. split; [by constructor |]. destruct Hc as [He | (He & x & y & Hx & Hne & Hy)]; [by left | right].
  split; [done |]. exists x, y. split; [done |]. split; [done |]. destruct Hy as [Hy | (c' & Hin' & Hy)]; [by left | right]. exists c'. split; [by constructor | done].
Qed.

(** A dispute with the first match is one with the candidate that gave it. *)
Lemma dispute_first c todo x err :
  cand_outcome lb kind ls c = Some (Ok (Some x)) -> dispute todo (Some x) err -> dispute (c :: todo) None err.
Proof.
  intros Hc (c0 & Hin & Hd). exists c0. split; [by constructor |]. destruct Hd as [He | (He & x0 & y & Hx & Hne & Hy)]; [by left | right].
  split; [done |]. exists x0, y. split; [done |]. split; [done |]. right. destruct Hy as [[= <-] | (c' & Hin' & Hy)]; [exists c | exists c']; (split; [by constructor | done]).
Qed.

Definition loop_result (todo kept : list bpf_core_cand) (best : option (bpf_core_relo_res * bpf_core_spec))
    (r : Z * list bpf_core_cand * option (bpf_core_relo_res * bpf_core_spec)) : Prop :=
  let '(err, kept', best') := r in
  (forall c, c ∈ kept' -> c ∈ kept \/ c ∈ todo) /\ (err <> 0 -> dispute todo best err) /\
  (err = 0 -> best' = (match best with Some x => Some x | None => first_match todo end) /\ unanimous todo best' /\
     kept' = kept ++ filter (fun c => matches lb kind ls c = true) todo).

Lemma loop_no_match c todo kept best r :
  cand_outcome lb kind ls c = Some (Ok None) -> loop_result todo kept best r -> loop_result (c :: todo) kept best r.
Proof.
  intros Hc. destruct r as [[err kept'] best']. intros (Hk & Hd & Hok). split_and!.
  - intros c0 Hin. destruct (Hk c0 Hin); [by left | right; by constructor].
  - intros He. by apply dispute_cons, Hd.
  - intros He. destruct (Hok He) as (Hb & Hu & Hf). assert (Hm : matches lb kind ls c <> true) by (unfold matches; by rewrite Hc).
    unfold first_match. rewrite filter_cons_False by done. split_and!; [exact Hb | | exact Hf].
    intros c0 [-> | Hin]%elem_of_cons; [by exists None | by apply Hu].
Qed.

Lemma loop_match c x todo kept best r :
  cand_outcome lb kind ls c = Some (Ok (Some x)) -> (forall y, best = Some y -> same_result x y) ->
  loop_result todo (kept ++ [c]) (Some (default x best)) r -> loop_result (c :: todo) kept best r.
Proof.
  intros Hc Hsame. destruct r as [[err kept'] best']. intros (Hk & Hd & Hok). split_and!.
  - intros c0 Hin. destruct (Hk c0 Hin) as [[Hin' | ->%list_elem_of_singleton]%elem_of_app | Hin']; [by left | right; constructor | right; by constructor].
  - intros He. destruct best as [y|]; [by apply dispute_cons, Hd | by apply (dispute_first c todo x), Hd].
  - intros He. destruct (Hok He) as (Hb & Hu & Hf). assert (Hm : matches lb kind ls c = true) by (unfold matches; by rewrite Hc).
    unfold first_match. rewrite filter_cons_True by done. split_and!.
    + cbn [head mbind option_bind]. rewrite Hc. by destruct best.
    + intros c0 [-> | Hin]%elem_of_cons; [|by apply Hu]. exists (Some x). split; [done |]. intros y [= <-]. exists (default x best). split; [done |].
      destruct best as [y|]; [by apply Hsame | done].
    + rewrite Hf. by rewrite <- app_assoc.
Qed.

Lemma cands_loop_spec todo :
  (forall c, c ∈ todo -> is_Some (cand_outcome lb kind ls c)) -> forall kept best,
  exists r, cands_loop lb kind ls todo kept best = Some r /\ loop_result todo kept best r.
Proof.
  induction todo as [|c todo IH]; intros Htot kept best.
  { eexists. split; [reflexivity |]. split_and!; [by left | done |]. intros _. rewrite app_nil_r. split_and!; [by destruct best | | done].
    intros c Hc. by apply elem_of_nil in Hc. }
  specialize (IH (fun c0 Hin => Htot c0 ltac:(by constructor))). rewrite cands_loop_step. destruct (Htot c ltac:(constructor)) as [x Hx]. rewrite Hx. cbn [mbind option_bind].
  assert (Herr : forall err, err <> 0 -> dispute (c :: todo) best err -> exists r, Some (err, kept, best) = Some r /\ loop_result (c :: todo) kept best r).
  { intros err Hne Hd. eexists. split; [reflexivity |]. split_and!; [by left | done | done]. }
  destruct x as [[[res s]|]|e].
  - destruct best as [[res0 s0]|].
    + pose proof (same_result_test res s res0 s0) as Ht. destruct (_ || _) eqn:E in Ht.
      * assert (Hd : dispute (c :: todo) (Some (res0, s0)) (- EINVAL)).
        { exists c. split; [constructor |]. right. split; [done |]. exists (res, s), (res0, s0). split; [done |]. split; [|by left]. intros Hs. by apply Ht in Hs. }
        destruct (negb (spec_bit_offset s =? spec_bit_offset s0)); [by apply Herr |]. cbn [orb] in E. rewrite E. by apply Herr.
      * apply orb_false_iff in E as [-> ->]. destruct (IH (kept ++ [c]) (Some (res0, s0))) as (r & -> & Hr). exists r. split; [done |].
        apply (loop_match c (res, s)); [done | intros y [= <-]; by apply Ht | exact Hr].
    + destruct (IH (kept ++ [c]) (Some (res, s))) as (r & -> & Hr). exists r. split; [done |]. by apply (loop_match c (res, s)).
  - destruct (IH kept best) as (r & -> & Hr). exists r. split; [done |]. by apply loop_no_match.
  - apply Herr; [apply outcome_error in Hx; lia |]. exists c. split; [constructor |]. left. by exists e.
Qed.
End Choose.

Lemma cands_loop_sub lb kind ls todo kept best err kept' best' :
  cands_loop lb kind ls todo kept best = Some (err, kept', best') -> forall c, c ∈ kept' -> c ∈ kept \/ c ∈ todo.
Proof.
  revert kept best. induction todo as [|c0 todo IH]; intros kept best; [intros [= <- <- <-]; by left |]. rewrite cands_loop_step.
  assert (Hrec : forall kept0 best0, (forall c, c ∈ kept0 -> c ∈ kept \/ c = c0) -> cands_loop lb kind ls todo kept0 best0 = Some (err, kept', best') ->
    forall c, c ∈ kept' -> c ∈ kept \/ c ∈ c0 :: todo).
  { intros kept0 best0 Hk Hl c Hc. destruct (IH _ _ Hl c Hc) as [Hin | Hin]; [|right; by constructor].
    destruct (Hk c Hin) as [? | ->]; [by left | right; constructor]. }
  assert (Hsnoc : forall c, c ∈ kept ++ [c0] -> c ∈ kept \/ c = c0) by (intros c [? | ->%list_elem_of_singleton]%elem_of_app; auto).
  destruct (cand_outcome lb kind ls c0) as [[[[res s]|]|e]|]; cbn [mbind option_bind]; [| | intros [= <- <- <-]; by left | done].
  - destruct best as [[res0 s0]|]; [|by apply Hrec]. destruct (negb (_ =? _)); [intros [= <- <- <-]; by left |].
    destruct (_ || _); [intros [= <- <- <-]; by left | by apply Hrec].
  - apply Hrec. by left.
Qed.

Lemma calc_relo_insn_sub lb relo cands err res cands' :
  bpf_core_calc_relo_insn lb relo cands = Some (err, res, cands') -> forall c, c ∈ cands' -> c ∈ cands.
Proof.
  unfold bpf_core_calc_relo_insn. destruct (btf_type_by_id _ _) as [t|]; [|done]. cbn [mbind option_bind].
  destruct (name_str _ _) as [[name|]|]; [|intros [= <- <- <-]; done | done]. cbn [mbind option_bind].
  destruct (bpf_core_parse_spec lb relo) as [[ls|e]|]; [|intros [= <- <- <-]; done | done]. cbn [mbind option_bind].
  destruct (bool_decide _); [intros [= <- <- <-]; done |]. destruct (str_is_empty _); [intros [= <- <- <-]; done |].
  destruct (cands_loop lb (relo_kind relo) ls cands [] None) as [[[err1 kept] best]|] eqn:Hl; [|done]. cbn [mbind option_bind].
  assert (Hsub : forall c, c ∈ kept -> c ∈ cands).
  { intros c Hc. destruct (cands_loop_sub _ _ _ _ _ _ _ _ _ Hl c Hc) as [Hn | Hin]; [by apply elem_of_nil in Hn | done]. }
  destruct (negb (err1 =? 0)).
  - intros [= <- <- <-] c [Hc | Hc]%elem_of_app; [by apply Hsub |]. rewrite <- (take_drop (length kept) cands). apply elem_of_app. by right.
  - destruct best as [[res1 s1]|]; [intros [= <- <- <-]; done |].
    destruct (bpf_core_calc_relo _ _ _ _ _) as [[err2 res2]|]; [|done]. intros [= <- <- <-]. done.
Qed.

(** C10: [bpf_core_calc_relo_insn] never picks among candidates that disagree.  It returns
    whenever matching and calculating do.  It succeeds only if no candidate is in error and
    all the candidates that match give the same bit offset, the same decision to poison and the
    same new value; the result is the one of the first match, and the list is pruned to the
    matches.  Without a match the list stays as it is and the result is the one for a
    missing target.  It fails only for an error of a candidate or of the missing target,
    or for two matches that disagree. *)
Theorem bpf_core_calc_relo_insn_spec lb relo cands lt name ls :
  local_named lb (relo_type_id relo) lt name -> name <> [] -> bpf_core_parse_spec lb relo = Some (Ok ls) ->
  relo_kind relo <> BPF_CORE_TYPE_ID_LOCAL ->
  (forall c, c ∈ cands -> is_Some (cand_outcome lb (relo_kind relo) ls c)) ->
  is_Some (bpf_core_calc_relo lb lb (relo_kind relo) ls None) ->
  exists err res cands', bpf_core_calc_relo_insn lb relo cands = Some (err, res, cands') /\
    (err = 0 -> unanimous lb (relo_kind relo) ls cands (first_match lb (relo_kind relo) ls cands) /\
       match first_match lb (relo_kind relo) ls cands with
       | Some (res0, _) => res = Some res0 /\ cands' = filter (fun c => matches lb (relo_kind relo) ls c = true) cands
       | None => cands' = cands /\ exists res0, bpf_core_calc_relo lb lb (relo_kind relo) ls None = Some (0, res0) /\ res = Some res0
       end) /\
    (err <> 0 -> dispute lb (relo_kind relo) ls cands None err \/
       (first_match lb (relo_kind relo) ls cands = None /\ exists res0, bpf_core_calc_relo lb lb (relo_kind relo) ls None = Some (err, res0))).
Proof.
  intros (Ht & Hn & _) Hne Hparse Hk Htot [[err0 res0] Hnone]. unfold bpf_core_calc_relo_insn. rewrite (type_by_id_checked _ _ _ Ht). cbn [mbind option_bind].
  rewrite Hn. cbn [mbind option_bind]. rewrite Hparse. cbn [mbind option_bind]. rewrite bool_decide_eq_false_2 by done.
  destruct name as [|c name]; [done |]. cbn [str_is_empty].
  destruct (cands_loop_spec lb (relo_kind relo) ls cands Htot [] None) as ([[err kept] best] & -> & Hsub & Hd & Hok). cbn [mbind option_bind].
  destruct (err =? 0) eqn:E; cbn [negb]; [apply Z.eqb_eq in E as -> | apply Z.eqb_neq in E].
  - destruct (Hok eq_refl) as (-> & Hu & Hf). destruct (first_match lb (relo_kind relo) ls cands) as [[res s]|].
    + eexists _, _, _. split; [reflexivity |]. by split.
    + rewrite Hnone. cbn [mbind option_bind]. eexists _, _, _. split; [reflexivity |]. split.
      * intros ->. split; [done |]. split; [done |]. by exists res0.
      * intros _. right. split; [done |]. by exists res0.
  - eexists _, _, _. split; [reflexivity |]. split; [done |]. intros _. left. by apply Hd.
Qed.

Lemma bpf_core_calc_relo_insn_spec_witness :
  exists res, bpf_core_calc_relo_insn demo_local (CoreRelo 0 8 48 BPF_CORE_FIELD_BYTE_OFFSET) [Cand demo_targ 3; Cand demo_targ 8] =
      Some (0, Some res, [Cand demo_targ 8]) /\ new_val res = 8.
Proof.
  assert (Hls : exists ls, bpf_core_parse_spec demo_local (CoreRelo 0 8 48 BPF_CORE_FIELD_BYTE_OFFSET) = Some (Ok ls) /\
    (exists x, cand_outcome demo_local BPF_CORE_FIELD_BYTE_OFFSET ls (Cand demo_targ 3) = Some (Ok None) /\
       cand_outcome demo_local BPF_CORE_FIELD_BYTE_OFFSET ls (Cand demo_targ 8) = Some (Ok (Some x)) /\ new_val (fst x) = 8) /\
    is_Some (bpf_core_calc_relo demo_local demo_local BPF_CORE_FIELD_BYTE_OFFSET ls None)).
  { eexists. split; [vm_compute; reflexivity |]. split; [eexists; split_and!; vm_compute; reflexivity | by eexists; vm_compute; reflexivity]. }
  destruct Hls as (ls & Hparse & (x & H3 & H8 & Hv) & Hnone).
  destruct (bpf_core_calc_relo_insn_spec demo_local (CoreRelo 0 8 48 BPF_CORE_FIELD_BYTE_OFFSET) [Cand demo_targ 3; Cand demo_targ 8]
    _ _ ls demo_struct_t) as (err & res & cands' & Heq & Hok & Hbad); try done.
  - intros c Hc. apply elem_of_cons in Hc as [-> | ->%list_elem_of_singleton]; by eexists.
  - assert (Hr0 : exists res1, Some (err, res, cands') = Some (0, res1, [Cand demo_targ 8])) by (rewrite <- Heq; eexists; vm_compute; reflexivity).
    destruct Hr0 as (res' & [= -> -> ->]). destruct (Hok eq_refl) as [_ Hm]. unfold first_match in Hm. cbn [relo_kind] in Hm.
    rewrite filter_cons_False in Hm by (unfold matches; by rewrite H3). rewrite filter_cons_True in Hm by (unfold matches; by rewrite H8).
    cbn [head mbind option_bind] in Hm. rewrite H8 in Hm. destruct x as [res0 s0]. destruct Hm as [-> _]. exists res0. split; [exact Heq | exact Hv].
Defined.

(** ** The cache of candidates *)
Lemma znth_snoc_old {A} (l : list A) x i y : znth l i = Some y -> znth (l ++ [x]) i = Some y.
Proof.
  intros Hi. pose proof (znth_Some _ _ _ Hi). unfold znth, zlen in *. destruct (i <? 0) eqn:E; [lia |]. rewrite lookup_app_l; [done | lia].
Qed.

Lemma znth_snoc_new {A} (l : list A) x : znth (l ++ [x]) (zlen l) = Some x.
Proof.
  unfold znth, zlen. destruct (_ <? 0) eqn:E; [lia |]. by rewrite Nat2Z.id, lookup_app_r, Nat.sub_diag by lia.
Qed.

#[export] Instance core_hash_laws : HashLaws core_hash_ctx (fun _ => True).
Proof.
  split; cbn; unfold bpf_core_equal_fn; intros; try lia. by replace k1 with k2 by lia.
Qed.

(** Every list in the cache holds candidates of the type it is kept for, and no two types
    share one. *)
Definition cache_ok (obj : core_object) (lb : btf) (cache : cand_cache) : Prop :=
  exists a, hashmap_repr (valid := fun _ => True) (cache_map cache) a /\
    (forall id e, a id = Some e -> exists lt name full cands, local_named lb id lt name /\ candidates obj lt name = Ok full /\
       znth (cache_lists cache) (value e) = Some cands /\ forall c, c ∈ cands -> c ∈ full) /\
    (forall id1 id2 e1 e2, a id1 = Some e1 -> a id2 = Some e2 -> value e1 = value e2 -> id1 = id2).

Definition empty_cache : cand_cache := CandCache hashmap__init [].

(** The caches that resolving relocations leads to, each of them successful or not. *)
Inductive reachable (obj : core_object) (lb : btf) : cand_cache -> Prop :=
  | reach_init : reachable obj lb empty_cache
  | reach_step cache relo o err res cache' o' :
      reachable obj lb cache -> bpf_core_resolve_relo obj lb relo cache o = Some (err, res, cache', o') -> reachable obj lb cache'.

Lemma cache_absent cache a id : hashmap_repr (valid := fun _ => True) (cache_map cache) a -> hashmap_find (cache_map cache) id = None -> a id = None.
Proof. intros Hr Hf. rewrite (repr_find _ _ _ Hr I) in Hf. by destruct (a id). Qed.

Lemma cache_present cache a id p :
  hashmap_repr (valid := fun _ => True) (cache_map cache) a -> hashmap_find (cache_map cache) id = Some p -> exists e, a id = Some e /\ value e = p.
Proof. intros Hr Hf. rewrite (repr_find _ _ _ Hr I) in Hf. destruct (a id) as [e|]; [|done]. injection Hf as <-. by exists e. Qed.

(** A list is replaced by a part of it. *)
Lemma cache_prune obj lb m lists p cands cands' :
  cache_ok obj lb (CandCache m lists) -> znth lists p = Some cands -> (forall c, c ∈ cands' -> c ∈ cands) ->
  cache_ok obj lb (CandCache m (zupd lists p cands')).
Proof.
  intros (a & Hr & Hl & Hd) Hp Hsub. exists a. cbn [cache_map cache_lists] in *. split; [done |]. split; [|done].
  intros id e He. destruct (Hl id e He) as (lt & name & full & cs & Hn & Hf & Hz & Hin). exists lt, name, full. destruct (decide (value e = p)) as [E|E].
  - rewrite E in *. exists cands'. rewrite Hp in Hz. injection Hz as <-. rewrite znth_zupd_eq by (by apply znth_Some in Hp). split_and!; auto.
  - exists cs. rewrite znth_zupd_ne by done. split_and!; auto.
Qed.

(** A new list is kept. *)
Lemma cache_add obj lb cache id lt name full o :
  cache_ok obj lb cache -> hashmap_find (cache_map cache) id = None -> local_named lb id lt name -> candidates obj lt name = Ok full ->
  let r := hashmap_insert (cache_map cache) id (zlen (cache_lists cache)) HASHMAP_SET o in
  cache_ok obj lb (CandCache (ins_map r) (cache_lists cache ++ [full])).
Proof.
  intros (a & Hr & Hl & Hd) Hf Hn Hc. pose proof (cache_absent _ _ _ Hr Hf) as Ha. destruct (Hr) as (_ & _ & Hlook).
  set (p := zlen (cache_lists cache)).
  assert (Hins : hashmap_insert (cache_map cache) id p HASHMAP_SET o = hashmap_insert_new (cache_map cache) id p 0 0 o).
  { unfold hashmap_insert. cbn [is_append]. by rewrite find_entry_None by (by rewrite Hlook). }
  cbn zeta. fold p. rewrite Hins. destruct (insert_new_refines (cache_map cache) a id p o Hr I Ha) as (_ & _ & Hcase).
  assert (Hold : forall id0 e, a id0 = Some e -> value e < p /\ exists lt name full0 cands, local_named lb id0 lt name /\ candidates obj lt name = Ok full0 /\
    znth (cache_lists cache ++ [full]) (value e) = Some cands /\ forall c, c ∈ cands -> c ∈ full0).
  { intros id0 e He. destruct (Hl id0 e He) as (lt0 & name0 & full0 & cs & H1 & H2 & H3 & H4). apply znth_Some in H3 as Hz. split; [unfold p; lia |].
    exists lt0, name0, full0, cs. split_and!; try done. by apply znth_snoc_old. }
  destruct Hcase as [(_ & Hr' & _) | (_ & _ & Hr' & _)].
  - exists (amap_set a id (Some (Entry id p))). cbn [cache_map cache_lists]. split; [exact Hr' |]. unfold amap_set. cbn [equal_fn core_hash_ctx]. unfold bpf_core_equal_fn. split.
    + intros id0 e. destruct (id =? id0) eqn:E; [|intros He; by apply Hold]. apply Z.eqb_eq in E as <-. intros [= <-]. exists lt, name, full, full. split_and!; try done.
      apply znth_snoc_new.
    + intros id1 id2 e1 e2. destruct (id =? id1) eqn:E1, (id =? id2) eqn:E2; intros He1 He2 Hv.
      * lia.
      * injection He1 as <-. destruct (Hold _ _ He2). cbn [value] in Hv. lia.
      * injection He2 as <-. destruct (Hold _ _ He1). cbn [value] in Hv. lia.
      * by apply (Hd id1 id2 e1 e2).
  - exists a. cbn [cache_map cache_lists]. split; [exact Hr' |]. split; [intros id0 e He; by apply Hold | exact Hd].
Qed.

(** The relocation was decided among candidates of its type. *)
Definition decided (obj : core_object) (lb : btf) (relo : bpf_core_relo) (res : bpf_core_relo_res) : Prop :=
  exists lt name full cands cands', local_named lb (relo_type_id relo) lt name /\ candidates obj lt name = Ok full /\
    (forall c, c ∈ cands -> c ∈ full) /\ bpf_core_calc_relo_insn lb relo cands = Some (0, Some res, cands').

Section Resolve.
Context (obj : core_object) (lb : btf) `{CoreBtf lb} (relo : bpf_core_relo).
Hypothesis (Hobj : object_ok obj).

(** The relocation with the list at [p]. *)
Lemma resolve_at cache p (o : oracle) lt name full cands err res cache' o' :
  cache_ok obj lb cache -> local_named lb (relo_type_id relo) lt name -> candidates obj lt name = Ok full ->
  znth (cache_lists cache) p = Some cands -> (forall c, c ∈ cands -> c ∈ full) ->
  (cands ← znth (cache_lists cache) p;
   '(err, res, cands) ← bpf_core_calc_relo_insn lb relo cands;
   Some (err, res, CandCache (cache_map cache) (zupd (cache_lists cache) p cands), o)) = Some (err, res, cache', o') ->
  cache_ok obj lb cache' /\ (err = 0 -> forall r, res = Some r -> decided obj lb relo r).
Proof.
  intros Hok Hn Hf Hp Hsub. rewrite Hp. cbn [mbind option_bind].
  destruct (bpf_core_calc_relo_insn lb relo cands) as [[[err1 res1] cands1]|] eqn:Hc; [|done]. intros [= <- <- <- <-].
  split; [|intros -> r ->; by exists lt, name, full, cands, cands1]. destruct cache as [m lists]. apply (cache_prune obj lb m lists p cands); try done.
  apply (calc_relo_insn_sub _ _ _ _ _ _ Hc).
Qed.

Lemma resolve_step cache o err res cache' o' :
  cache_ok obj lb cache -> bpf_core_resolve_relo obj lb relo cache o = Some (err, res, cache', o') ->
  cache_ok obj lb cache' /\
  (err = 0 -> relo_kind relo <> BPF_CORE_TYPE_ID_LOCAL -> forall r, res = Some r -> decided obj lb relo r).
Proof.
  intros Hok. unfold bpf_core_resolve_relo.
  destruct (btf__type_by_id lb (relo_type_id relo)) as [lt|] eqn:Ht; [|intros [= <- <- <- <-]; by split].
  destruct (core_name lb _ lt Ht) as (name & Hname & Hpos). rewrite Hname. cbn [mbind option_bind].
  assert (Hn : local_named lb (relo_type_id relo) lt name) by done.
  destruct (bool_decide (relo_kind relo = BPF_CORE_TYPE_ID_LOCAL)) eqn:Hk.
  { apply bool_decide_eq_true_1 in Hk. destruct (bpf_core_calc_relo_insn lb relo []) as [[[err1 res1] c1]|]; [|done]. intros [= <- <- <- <-]. by split. }
  cbn zeta. destruct (hashmap_find (cache_map cache) (relo_type_id relo)) as [p|] eqn:Hf.
  - intros Hc. pose proof Hok as (a & Hr & Hl & _). destruct (cache_present _ _ _ _ Hr Hf) as (e & He & <-).
    destruct (Hl _ _ He) as (lt' & name' & full & cands & Hn' & Hfull & Hz & Hsub).
    destruct (resolve_at cache (value e) o lt' name' full cands err res cache' o' Hok Hn' Hfull Hz Hsub Hc) as [H1 H2]. split; [done | auto].
  - destruct (bpf_core_find_cands obj lb (relo_type_id relo) o) as [[found o1]|] eqn:Hfc; [|done]. cbn [mbind option_bind].
    destruct found as [full|e]; [|intros [= <- <- <- <-]; by split].
    assert (Hfull : candidates obj lt name = Ok full).
    { destruct (decide (name = [])) as [->|Hne].
      - unfold bpf_core_find_cands in Hfc. rewrite Ht, Hname in Hfc. done.
      - destruct (find_cands_ok obj lb (relo_type_id relo) lt name o Hobj Hn Hne) as (r & o2 & Hfc' & Hr).
        rewrite Hfc in Hfc'. injection Hfc' as <- <-. destruct Hr as [<- | [? _]]; done. }
    set (r := hashmap_insert _ _ _ _ _). pose proof (cache_add obj lb cache (relo_type_id relo) lt name full o1 Hok Hf Hn Hfull) as Hok2. cbn zeta in Hok2. fold r in Hok2.
    destruct (negb (ins_ret r =? 0)); [intros [= <- <- <- <-]; by split |]. intros Hc.
    destruct (resolve_at _ _ _ lt name full full err res cache' o' Hok2 Hn Hfull (znth_snoc_new _ _) ltac:(done) Hc) as [H1 H2]. split; [done | auto].
Qed.
End Resolve.

Lemma empty_cache_ok obj lb : cache_ok obj lb empty_cache.
Proof.
  exists (fun _ => None). split; [|done]. split_and!.
  - apply hashmap_init_wf.
  - intros k _. cbn. lia.
  - intros k _. done.
Qed.

(** C13: in every cache that a sequence of relocations leads to, whatever they are and
    whether they succeed or fail, each list holds only candidates of the local type it is
    kept for and no two types share a list, so that pruning the candidates of one does not
    touch those of another; and a relocation that is resolved with such a cache is decided
    by candidates of its own type. *)
Theorem bpf_core_cand_cache_invariant obj lb `{CoreBtf lb} cache :
  object_ok obj -> reachable obj lb cache ->
  cache_ok obj lb cache /\
  forall relo o res cache' o', bpf_core_resolve_relo obj lb relo cache o = Some (0, Some res, cache', o') ->
    relo_kind relo <> BPF_CORE_TYPE_ID_LOCAL -> decided obj lb relo res.
Proof.
  intros Hobj Hreach. assert (Hok : cache_ok obj lb cache).
  { induction Hreach as [|cache relo o err res cache' o' Hreach IH Hstep]; [apply empty_cache_ok |]. by apply (resolve_step obj lb relo Hobj cache o err res cache' o'). }
  split; [done |]. intros relo o res cache' o' Hstep Hk.
  destruct (resolve_step obj lb relo Hobj cache o 0 (Some res) cache' o' Hok Hstep) as [_ Hd]. by apply Hd.
Qed.

Lemma bpf_core_cand_cache_invariant_witness :
  exists cache res cache' o', reachable demo_object demo_local cache /\ cache_map cache <> hashmap__init /\
    bpf_core_resolve_relo demo_object demo_local (CoreRelo 0 8 48 BPF_CORE_FIELD_BYTE_OFFSET) cache [] = Some (0, Some res, cache', o') /\
    decided demo_object demo_local (CoreRelo 0 8 48 BPF_CORE_FIELD_BYTE_OFFSET) res /\ cache_ok demo_object demo_local cache.
Proof.
  assert (Hstep : exists cache res o, bpf_core_resolve_relo demo_object demo_local (CoreRelo 0 8 48 BPF_CORE_FIELD_BYTE_OFFSET) empty_cache [] = Some (0, res, cache, o) /\
    cache_map cache <> hashmap__init /\ exists res' cache' o', bpf_core_resolve_relo demo_object demo_local (CoreRelo 0 8 48 BPF_CORE_FIELD_BYTE_OFFSET) cache [] = Some (0, Some res', cache', o')).
  { eexists _, _, _. split; [vm_compute; reflexivity |]. split; [discriminate |]. eexists _, _, _. vm_compute. reflexivity. }
  destruct Hstep as (cache & res & o & Hs1 & Hne & res' & cache' & o' & Hs2).
  assert (Hreach : reachable demo_object demo_local cache) by (eapply reach_step; [apply reach_init | exact Hs1]).
  destruct (bpf_core_cand_cache_invariant demo_object demo_local cache demo_object_ok Hreach) as [Hok Hdec].
  exists cache, res', cache', o'. split; [exact Hreach |]. split; [exact Hne |]. split; [exact Hs2 |]. split; [|exact Hok].
  apply (Hdec _ _ _ _ _ Hs2). discriminate.
Defined.
