(* ===== verification/DedupTypes.v ===== *)
(** * DedupTypes: signatures and comparisons of types for deduplication

    The hash and equality functions of the deduplication of [src/src/btf.c]
    ([btf_hash_*], [btf_equal_*], [btf_shallow_equal_struct], [btf_compat_*]).

    [None] is a read past the words of the type section.  The theorems: on types that
    lie in their section no function reads past it; the exact comparisons decide
    whether the two types consist of the same words, the shallow ones whether they
    consist of the same words but for the type identifiers; and types that compare
    equal have the same hash, so that an equal type is always found among the
    candidates of its hash. *)
From S2P Require Import Prelude Hashmap Mem Strset BtfTypes Btf BtfFind BtfParse.
Open Scope Z_scope.

(** ** Hashes *)

(** The result is stored in a [long]. *)
Definition hash_combine (h value : Z) : Z := s64 (u64 h * 31 + value).

(** [h = hash_combine(h, v)] for the values of elements [i], [i + 1], ... *)
Fixpoint hash_elems (n : nat) (i : Z) (values : Z -> option (list Z)) (h : Z) : option Z :=
  match n with
  | O => Some h
  | S n => vs ← values i; hash_elems n (i + 1) values (fold_left hash_combine vs h)
  end.

Definition btf_hash_typedef (t : btf_type) : Z :=
  let h := hash_combine 0 (name_off t) in
  hash_combine h (info t).

Definition btf_hash_common (t : btf_type) : Z :=
  let h := hash_combine 0 (name_off t) in
  let h := hash_combine h (info t) in
  hash_combine h (t_size t).

Definition btf_hash_int_decl_tag (t : btf_type) : option Z :=
  info ← znth (extra t) 0;
  let h := btf_hash_common t in
  Some (hash_combine h info).

Definition btf_hash_enum (t : btf_type) : Z := hash_combine 0 (name_off t).

(** The flags of a location parameter, and its values. *)
Definition loc_param_flags (t : btf_type) : option Z := znth (extra t) 0.
Definition loc_param_value (t : btf_type) (i : Z) : option Z := znth (extra t) (1 + i).

Definition btf_hash_loc_param (t : btf_type) : option Z :=
  let h := btf_hash_common t in
  flags ← loc_param_flags t;
  let h := hash_combine h flags in
  hash_elems (Z.to_nat (btf_vlen t)) 0 (fun i => v ← loc_param_value t i; Some [v]) h.

Definition btf_hash_loc_proto (t : btf_type) : option Z :=
  hash_elems (Z.to_nat (btf_vlen t)) 0 (fun i => p ← btf_loc_proto_param t i; Some [p])
    (btf_hash_common t).

Definition btf_hash_struct (t : btf_type) : option Z :=
  hash_elems (Z.to_nat (btf_vlen t)) 0
    (fun i => m ← btf_member t i; Some [member_name_off m; member_offset m]) (btf_hash_common t).

Definition btf_hash_array (t : btf_type) : option Z :=
  info ← btf_array t;
  let h := btf_hash_common t in
  let h := hash_combine h (array_type info) in
  let h := hash_combine h (array_index_type info) in
  Some (hash_combine h (array_nelems info)).

Definition btf_hash_fnproto (t : btf_type) : option Z :=
  hash_elems (Z.to_nat (btf_vlen t)) 0
    (fun i => p ← btf_param t i; Some [param_name_off p; param_type p]) (btf_hash_common t).

Definition btf_hash_by_kind (t : btf_type) (kind : btf_kind_t) : option Z :=
  match kind with BTF_KIND_TYPEDEF => Some (btf_hash_typedef t) | _ => btf_hash_struct t end.

(** ** Comparisons *)

(** [same i] for [i], [i + 1], ... until one fails. *)
Fixpoint same_elems (n : nat) (i : Z) (same : Z -> option bool) : option bool :=
  match n with
  | O => Some true
  | S n => ok ← same i; if negb ok then Some false else same_elems n (i + 1) same
  end.

Definition btf_equal_common (t1 t2 : btf_type) : bool :=
  (name_off t1 =? name_off t2) && (info t1 =? info t2) && (t_size t1 =? t_size t2).

Definition btf_equal_typedef (t1 t2 : btf_type) : bool :=
  (name_off t1 =? name_off t2) && (info t1 =? info t2).

Definition btf_equal_int_tag (t1 t2 : btf_type) : option bool :=
  if negb (btf_equal_common t1 t2) then Some false else
  info1 ← znth (extra t1) 0;
  info2 ← znth (extra t2) 0;
  Some (info1 =? info2).

Definition btf_equal_enum_members (t1 t2 : btf_type) : option bool :=
  same_elems (Z.to_nat (btf_vlen t1)) 0 (fun i =>
    m1 ← btf_enum t1 i; m2 ← btf_enum t2 i;
    Some ((enum_name_off m1 =? enum_name_off m2) && (enum_val m1 =? enum_val m2))).

Definition btf_equal_enum64_members (t1 t2 : btf_type) : option bool :=
  same_elems (Z.to_nat (btf_vlen t1)) 0 (fun i =>
    m1 ← btf_enum64 t1 i; m2 ← btf_enum64 t2 i;
    Some ((enum64_name_off m1 =? enum64_name_off m2) && (enum64_val_lo32 m1 =? enum64_val_lo32 m2) &&
          (enum64_val_hi32 m1 =? enum64_val_hi32 m2))).

Definition btf_equal_enum (t1 t2 : btf_type) : option bool :=
  if negb (btf_equal_common t1 t2) then Some false else
  if bool_decide (btf_kind t1 = BTF_KIND_ENUM) then btf_equal_enum_members t1 t2
  else btf_equal_enum64_members t1 t2.

Definition btf_is_enum_fwd (t : btf_type) : bool := btf_is_any_enum t && (btf_vlen t =? 0).

Definition btf_compat_enum (t1 t2 : btf_type) : option bool :=
  if negb (btf_is_enum_fwd t1) && negb (btf_is_enum_fwd t2) then btf_equal_enum t1 t2
  else Some ((name_off t1 =? name_off t2) && btf_is_any_enum t1 && btf_is_any_enum t2).

Definition btf_equal_loc_param (t1 t2 : btf_type) : option bool :=
  if negb (btf_equal_common t1 t2) then Some false else
  flags1 ← loc_param_flags t1;
  flags2 ← loc_param_flags t2;
  if negb (flags1 =? flags2) then Some false else
  same_elems (Z.to_nat (btf_vlen t1)) 0 (fun i =>
    v1 ← loc_param_value t1 i; v2 ← loc_param_value t2 i; Some (v1 =? v2)).

Definition btf_shallow_equal_struct (t1 t2 : btf_type) : option bool :=
  if negb (btf_equal_common t1 t2) then Some false else
  same_elems (Z.to_nat (btf_vlen t1)) 0 (fun i =>
    m1 ← btf_member t1 i; m2 ← btf_member t2 i;
    Some ((member_name_off m1 =? member_name_off m2) && (member_offset m1 =? member_offset m2))).

Definition btf_equal_array (t1 t2 : btf_type) : option bool :=
  if negb (btf_equal_common t1 t2) then Some false else
  info1 ← btf_array t1;
  info2 ← btf_array t2;
  Some ((array_type info1 =? array_type info2) && (array_index_type info1 =? array_index_type info2) &&
        (array_nelems info1 =? array_nelems info2)).

Definition btf_compat_array (t1 t2 : btf_type) : option bool :=
  if negb (btf_equal_common t1 t2) then Some false else
  info1 ← btf_array t1;
  info2 ← btf_array t2;
  Some (array_nelems info1 =? array_nelems info2).

Definition btf_equal_fnproto (t1 t2 : btf_type) : option bool :=
  if negb (btf_equal_common t1 t2) then Some false else
  same_elems (Z.to_nat (btf_vlen t1)) 0 (fun i =>
    m1 ← btf_param t1 i; m2 ← btf_param t2 i;
    Some ((param_name_off m1 =? param_name_off m2) && (param_type m1 =? param_type m2))).

Definition btf_compat_fnproto (t1 t2 : btf_type) : option bool :=
  if negb (name_off t1 =? name_off t2) || negb (info t1 =? info t2) then Some false else
  same_elems (Z.to_nat (btf_vlen t1)) 0 (fun i =>
    m1 ← btf_param t1 i; m2 ← btf_param t2 i;
    Some (param_name_off m1 =? param_name_off m2)).

(** The comparison of [BTF_KIND_LOC_PROTO] in [btf_dedup_ref_type], with its [memcmp]
    of the parameters. *)
Definition equal_loc_proto (t1 t2 : btf_type) : option bool :=
  if negb (btf_equal_common t1 t2) then Some false else
  same_elems (Z.to_nat (btf_vlen t2)) 0 (fun i =>
    p1 ← btf_loc_proto_param t1 i; p2 ← btf_loc_proto_param t2 i; Some (p1 =? p2)).

Definition btf_equal_by_kind (t1 t2 : btf_type) (kind : btf_kind_t) : option bool :=
  match kind with
  | BTF_KIND_TYPEDEF => Some (btf_equal_typedef t1 t2)
  | _ => btf_shallow_equal_struct t1 t2
  end.

Definition btf_fwd_kind (t : btf_type) : btf_kind_t :=
  if btf_kflag t then BTF_KIND_UNION else BTF_KIND_STRUCT.

(** ** By kind

    The hash that [btf_dedup_prep] and the passes use for a type of each kind, and the
    comparison with which the passes over primitive and reference types look for its
    duplicates.  [Err] is the kind none of them knows. *)
Definition hash_of_kind (t : btf_type) : option (result Z) :=
  match btf_kind t with
  | BTF_KIND_CONST | BTF_KIND_VOLATILE | BTF_KIND_RESTRICT | BTF_KIND_PTR | BTF_KIND_FWD
  | BTF_KIND_FUNC | BTF_KIND_FLOAT | BTF_KIND_TYPE_TAG => Some (Ok (btf_hash_common t))
  | BTF_KIND_TYPEDEF => Some (Ok (btf_hash_typedef t))
  | BTF_KIND_INT | BTF_KIND_DECL_TAG => Ok <$> btf_hash_int_decl_tag t
  | BTF_KIND_ENUM | BTF_KIND_ENUM64 => Some (Ok (btf_hash_enum t))
  | BTF_KIND_STRUCT | BTF_KIND_UNION => Ok <$> btf_hash_struct t
  | BTF_KIND_ARRAY => Ok <$> btf_hash_array t
  | BTF_KIND_FUNC_PROTO => Ok <$> btf_hash_fnproto t
  | BTF_KIND_LOC_PARAM => Ok <$> btf_hash_loc_param t
  | BTF_KIND_LOC_PROTO => Ok <$> btf_hash_loc_proto t
  | _ => Some (Err EINVAL)
  end.

Definition equal_of_kind (t1 t2 : btf_type) : option bool :=
  match btf_kind t1 with
  | BTF_KIND_INT | BTF_KIND_DECL_TAG => btf_equal_int_tag t1 t2
  | BTF_KIND_ENUM | BTF_KIND_ENUM64 => btf_equal_enum t1 t2
  | BTF_KIND_LOC_PARAM => btf_equal_loc_param t1 t2
  | BTF_KIND_ARRAY => btf_equal_array t1 t2
  | BTF_KIND_FUNC_PROTO => btf_equal_fnproto t1 t2
  | BTF_KIND_LOC_PROTO => equal_loc_proto t1 t2
  | _ => Some (btf_equal_common t1 t2)
  end.

(** The comparison without identifiers, as in [btf_dedup_is_equiv] and
    [btf_dedup_identical_types]. *)
Definition shallow_of_kind (t1 t2 : btf_type) : option bool :=
  match btf_kind t1 with
  | BTF_KIND_STRUCT | BTF_KIND_UNION => btf_shallow_equal_struct t1 t2
  | BTF_KIND_ARRAY => btf_compat_array t1 t2
  | BTF_KIND_FUNC_PROTO => btf_compat_fnproto t1 t2
  | _ => Some (btf_equal_typedef t1 t2)
  end.

(** ** The words of a type *)

(** How many words follow [struct btf_type], and all words of the type. *)
Definition words_cnt (t : btf_type) : Z := extra_words (btf_kind t) (btf_vlen t).

Definition own_words (t : btf_type) : list Z :=
  name_off t :: info t :: size_or_type t :: ztake (words_cnt t) (extra t).

(** The same words at all places but those of the type identifiers. *)
Definition same_shape (t1 t2 : btf_type) : Prop :=
  info t1 = info t2 /\
  forall off, 0 <= off < 12 + 4 * words_cnt t1 -> off mod 4 = 0 ->
    off ∉ id_fields (btf_kind t1) (btf_vlen t1) -> type_word t1 off = type_word t2 off.

(** A computation that gives the truth of a proposition. *)
Definition decides (m : option bool) (P : Prop) : Prop := exists b, m = Some b /\ (b = true <-> P).

Lemma decides_ret (b : bool) P : (b = true <-> P) -> decides (Some b) P.
Proof. intros H. by exists b. Qed.

Lemma decides_iff m P Q : (P <-> Q) -> decides m P -> decides m Q.
Proof. intros H (b & -> & Hb). exists b. split; [done |]. by rewrite Hb. Qed.

(** A guard, and the rest. *)
Lemma decides_guard (c : bool) m P Q :
  (Q -> c = true) -> (c = true -> decides m P) -> (c = true -> P <-> Q) ->
  decides (if negb c then Some false else m) Q.
Proof.
  intros Hc Hm Hi. destruct c; cbn [negb]; [by eapply decides_iff; [apply Hi | apply Hm] |].
  exists false. split; [done |]. split; [done |]. intros HQ. by specialize (Hc HQ).
Qed.

Lemma same_elems_spec n i same (P : Z -> Prop) :
  (forall j, i <= j < i + Z.of_nat n -> decides (same j) (P j)) ->
  decides (same_elems n i same) (forall j, i <= j < i + Z.of_nat n -> P j).
Proof.
  revert i. induction n as [|n IH]; intros i Hs; cbn [same_elems].
  - exists true. split; [done |]. split; [intros _ j Hj; lia | done].
  - destruct (Hs i ltac:(lia)) as (b & -> & Hb). cbn [mbind option_bind]. apply (decides_guard b _
      (forall j, i + 1 <= j < i + 1 + Z.of_nat n -> P j)).
    + intros HP. apply Hb, HP. lia.
    + intros _. apply IH. intros j Hj. apply Hs. lia.
    + intros Hbt. split; [|intros H j Hj; apply H; lia]. intros H j Hj.
      destruct (decide (j = i)) as [->|]; [by apply Hb | apply H; lia].
Qed.

Lemma znth_ztake {A} (l : list A) n i : i < n -> znth (ztake n l) i = znth l i.
Proof. intros H. unfold znth, ztake. case_if; [done |]. apply lookup_take_lt. lia. Qed.

Lemma znth_zdrop {A} (l : list A) n i : 0 <= n -> 0 <= i -> znth (zdrop n l) i = znth l (n + i).
Proof.
  intros Hn Hi. unfold znth, zdrop. replace (i <? 0) with false by lia. replace (n + i <? 0) with false by lia.
  rewrite lookup_drop. f_equal. lia.
Qed.

Lemma znth_ext {A} (l1 l2 : list A) :
  zlen l1 = zlen l2 -> (forall i, 0 <= i < zlen l1 -> znth l1 i = znth l2 i) -> l1 = l2.
Proof.
  intros Hl H. apply list_eq_same_length with (n := length l1); [unfold zlen in Hl; lia | done |].
  intros i x y Hi Hx Hy. specialize (H (Z.of_nat i)). unfold znth in H. rewrite Nat2Z.id in H.
  replace (_ <? 0) with false in H by lia. rewrite Hx, Hy in H. unfold zlen in H.
  specialize (H ltac:(lia)). congruence.
Qed.

(** Two arrays of [n] elements of [sz] words are the same when their elements are. *)
Lemma ztake_elems (e1 e2 : list Z) sz n :
  0 < sz -> 0 <= n -> sz * n <= zlen e1 -> sz * n <= zlen e2 ->
  (forall j, 0 <= j < n -> forall r, 0 <= r < sz -> znth e1 (sz * j + r) = znth e2 (sz * j + r)) <->
  ztake (sz * n) e1 = ztake (sz * n) e2.
Proof.
  intros Hsz Hn H1 H2. split.
  - intros H. apply znth_ext; rewrite !zlen_ztake by nia; [done |]. intros i Hi.
    rewrite !znth_ztake by lia. rewrite (Z.div_mod i sz) by lia.
    apply H; [|apply Z.mod_pos_bound; lia]. split; [apply Z.div_pos; lia |].
    apply Z.div_lt_upper_bound; lia.
  - intros H j Hj r Hr. assert (sz * j + r < sz * n) by nia.
    rewrite <- (znth_ztake e1 (sz * n)), <- (znth_ztake e2 (sz * n)) by done. by rewrite H.
Qed.

(** A loop over elements that compares all their words. *)
Lemma same_elems_words (e1 e2 : list Z) sz n same :
  0 < sz -> 0 <= n -> sz * n <= zlen e1 -> sz * n <= zlen e2 ->
  (forall j, 0 <= j < n ->
     decides (same j) (forall r, 0 <= r < sz -> znth e1 (sz * j + r) = znth e2 (sz * j + r))) ->
  decides (same_elems (Z.to_nat n) 0 same) (ztake (sz * n) e1 = ztake (sz * n) e2).
Proof.
  intros Hsz Hn H1 H2 Hs. eapply decides_iff; [by apply ztake_elems |].
  eapply decides_iff; [|apply (same_elems_spec _ _ _ (fun j => forall r, 0 <= r < sz ->
    znth e1 (sz * j + r) = znth e2 (sz * j + r))); intros j Hj; apply Hs; lia].
  cbn beta. split; intros H j Hj; apply H; lia.
Qed.

(** ** Exact comparisons *)

(** A type whose words lie in the section and are 32-bit. *)
Record type_words_ok (t : btf_type) : Prop := {
  words_fit : type_fits t;
  words_u32 : Forall is_u32 (extra t)
}.

Lemma words_room t : type_words_ok t -> known_kind (btf_kind t) -> words_cnt t <= zlen (extra t).
Proof. intros [Hf _] Hk. by apply Hf. Qed.

Lemma info_words_cnt t1 t2 : info t1 = info t2 ->
  words_cnt t1 = words_cnt t2 /\ btf_kind t1 = btf_kind t2 /\ btf_vlen t1 = btf_vlen t2.
Proof. unfold words_cnt, btf_kind, btf_vlen. by intros ->. Qed.

(** Three words in common, and then the others. *)
Lemma exact_frame t1 t2 m :
  (info t1 = info t2 -> decides m (ztake (words_cnt t1) (extra t1) = ztake (words_cnt t1) (extra t2))) ->
  decides (if negb (btf_equal_common t1 t2) then Some false else m) (own_words t1 = own_words t2).
Proof.
  intros Hm. unfold btf_equal_common.
  eapply (decides_guard _ _ (ztake (words_cnt t1) (extra t1) = ztake (words_cnt t1) (extra t2))).
  - unfold own_words. intros [= -> -> -> _]. by rewrite !Z.eqb_refl.
  - intros Hc. apply Hm. bools. lia.
  - intros Hc. bools. destruct (info_words_cnt t1 t2) as (Hw & _ & _); [lia |].
    unfold own_words. rewrite Hw. replace (name_off t2) with (name_off t1) by lia.
    replace (info t2) with (info t1) by lia. replace (t_size t2) with (t_size t1) by lia.
    split; [by intros -> | congruence].
Qed.

Lemma words_1 (e1 e2 : list Z) k :
  0 <= k -> k + 1 <= zlen e1 -> k + 1 <= zlen e2 ->
  exists a1 a2, znth e1 k = Some a1 /\ znth e2 k = Some a2 /\
    ((forall r, 0 <= r < 1 -> znth e1 (k + r) = znth e2 (k + r)) <-> a1 = a2).
Proof.
  intros Hk H1 H2. destruct (znth_is_Some e1 k) as [a1 Ha]; [lia |].
  destruct (znth_is_Some e2 k) as [a2 Hb]; [lia |]. exists a1, a2. split_and!; [done.. |].
  split; [intros H; specialize (H 0 ltac:(lia)); rewrite Z.add_0_r in H; congruence |].
  intros <- r Hr. replace r with 0 by lia. rewrite Z.add_0_r. congruence.
Qed.

Lemma words_2 (e1 e2 : list Z) k :
  0 <= k -> k + 2 <= zlen e1 -> k + 2 <= zlen e2 ->
  exists a1 b1 a2 b2, znth e1 k = Some a1 /\ znth e1 (k + 1) = Some b1 /\
    znth e2 k = Some a2 /\ znth e2 (k + 1) = Some b2 /\
    ((forall r, 0 <= r < 2 -> znth e1 (k + r) = znth e2 (k + r)) <-> a1 = a2 /\ b1 = b2).
Proof.
  intros Hk H1 H2. destruct (words_1 e1 e2 k) as (a1 & a2 & Ha1 & Ha2 & Ha); [lia.. |].
  destruct (words_1 e1 e2 (k + 1)) as (b1 & b2 & Hb1 & Hb2 & Hb); [lia.. |].
  exists a1, b1, a2, b2. split_and!; [done.. |]. rewrite <- Ha, <- Hb. split.
  - intros H. split; intros r Hr; [apply H; lia |]. rewrite <- Z.add_assoc. apply H. lia.
  - intros [HA HB] r Hr. destruct (decide (r = 0)) as [->|]; [apply HA; lia |].
    specialize (HB (r - 1) ltac:(lia)). by replace (k + 1 + (r - 1)) with (k + r) in HB by lia.
Qed.

Lemma words_3 (e1 e2 : list Z) k :
  0 <= k -> k + 3 <= zlen e1 -> k + 3 <= zlen e2 ->
  exists a1 b1 c1 a2 b2 c2, znth e1 k = Some a1 /\ znth e1 (k + 1) = Some b1 /\ znth e1 (k + 2) = Some c1 /\
    znth e2 k = Some a2 /\ znth e2 (k + 1) = Some b2 /\ znth e2 (k + 2) = Some c2 /\
    ((forall r, 0 <= r < 3 -> znth e1 (k + r) = znth e2 (k + r)) <-> a1 = a2 /\ b1 = b2 /\ c1 = c2).
Proof.
  intros Hk H1 H2. destruct (words_1 e1 e2 k) as (a1 & a2 & Ha1 & Ha2 & Ha); [lia.. |].
  destruct (words_2 e1 e2 (k + 1)) as (b1 & c1 & b2 & c2 & Hb1 & Hc1 & Hb2 & Hc2 & Hb); [lia.. |].
  rewrite <- Z.add_assoc in Hc1, Hc2. exists a1, b1, c1, a2, b2, c2. split_and!; [done.. |].
  rewrite <- Ha, <- Hb. split.
  - intros H. split; intros r Hr; [apply H; lia |]. rewrite <- Z.add_assoc. apply H. lia.
  - intros [HA HB] r Hr. destruct (decide (r = 0)) as [->|]; [apply HA; lia |].
    specialize (HB (r - 1) ltac:(lia)). by replace (k + 1 + (r - 1)) with (k + r) in HB by lia.
Qed.

Lemma s32_inj a b : is_u32 a -> is_u32 b -> s32 a = s32 b -> a = b.
Proof.
  unfold is_u32, swrap. change (2 ^ 32) with 4294967296. change (2 ^ (32 - 1)) with 2147483648. lia.
Qed.

Lemma znth_Forall {A} (P : A -> Prop) l i x : Forall P l -> znth l i = Some x -> P x.
Proof. intros H. unfold znth. case_if; [done |]. by apply Forall_lookup_1. Qed.

(** The kinds that have an exact comparison: those of the passes over primitive and
    reference types. *)
Definition exact_kind (k : btf_kind_t) : Prop :=
  match k with
  | BTF_KIND_INT | BTF_KIND_FLOAT | BTF_KIND_ENUM | BTF_KIND_ENUM64 | BTF_KIND_FWD
  | BTF_KIND_LOC_PARAM | BTF_KIND_CONST | BTF_KIND_VOLATILE | BTF_KIND_RESTRICT | BTF_KIND_PTR
  | BTF_KIND_FUNC | BTF_KIND_TYPE_TAG | BTF_KIND_DECL_TAG | BTF_KIND_ARRAY | BTF_KIND_FUNC_PROTO
  | BTF_KIND_LOC_PROTO => True
  | _ => False
  end.

#[export] Instance exact_kind_dec k : Decision (exact_kind k).
Proof. destruct k; apply _. Defined.

Section Exact.
Context (t1 t2 : btf_type) (Ht1 : type_words_ok t1) (Ht2 : type_words_ok t2).

(** Room for the words of [t1] in both types once they have the same kind and length. *)
Lemma both_room n :
  info t1 = info t2 -> known_kind (btf_kind t1) -> words_cnt t1 = n ->
  n <= zlen (extra t1) /\ n <= zlen (extra t2).
Proof.
  intros Hi Hk <-. destruct (info_words_cnt t1 t2 Hi) as (Hw & Hk2 & _). split; [by apply words_room |].
  rewrite Hw. apply words_room; [done |]. by rewrite <- Hk2.
Qed.

Lemma equal_int_tag_spec :
  btf_kind t1 = BTF_KIND_INT \/ btf_kind t1 = BTF_KIND_DECL_TAG ->
  decides (btf_equal_int_tag t1 t2) (own_words t1 = own_words t2).
Proof.
  intros Hk. apply exact_frame. intros Hi.
  assert (Hw : words_cnt t1 = 1) by (unfold words_cnt; by destruct Hk as [-> | ->]).
  destruct (both_room 1 Hi) as [H1 H2]; [by destruct Hk as [-> | ->] | done |]. rewrite Hw.
  destruct (words_1 (extra t1) (extra t2) 0) as (a & b & Ha & Hb & Hab); [lia.. |]. rewrite Ha, Hb. cbn.
  apply decides_ret. rewrite Z.eqb_eq, <- Hab. rewrite <- (ztake_elems _ _ 1 1) by lia. cbn.
  split; [|intros H; by apply (H 0)]. intros H j Hj. by replace j with 0 by lia.
Qed.

Lemma equal_enum_spec :
  btf_kind t1 = BTF_KIND_ENUM \/ btf_kind t1 = BTF_KIND_ENUM64 ->
  decides (btf_equal_enum t1 t2) (own_words t1 = own_words t2).
Proof.
  intros Hk. apply exact_frame. intros Hi. pose proof (vlen_range t1) as Hv.
  destruct (both_room _ Hi ltac:(by destruct Hk as [-> | ->]) eq_refl) as [H1 H2].
  unfold words_cnt in *. destruct Hk as [Hk|Hk]; rewrite Hk in *; cbn [extra_words] in *.
  - rewrite bool_decide_true by done. apply same_elems_words; [lia.. |]. intros j Hj.
    destruct (words_2 (extra t1) (extra t2) (2 * j)) as (a1 & b1 & a2 & b2 & E1 & E2 & E3 & E4 & Hw); [lia.. |].
    unfold btf_enum. rewrite E1, E2, E3, E4. cbn [mbind option_bind enum_name_off enum_val].
    apply decides_ret. rewrite Hw, andb_true_iff, !Z.eqb_eq.
    split; [|by intros [-> ->]]. intros [-> Hs]. split; [done |].
    apply s32_inj; [by eapply znth_Forall, E2; apply words_u32 | by eapply znth_Forall, E4; apply words_u32 | done].
  - rewrite bool_decide_false by done. apply same_elems_words; [lia.. |]. intros j Hj.
    destruct (words_3 (extra t1) (extra t2) (3 * j)) as (a1 & b1 & c1 & a2 & b2 & c2 & E1 & E2 & E3 & E4 & E5 & E6 & Hw);
      [lia.. |].
    unfold btf_enum64. rewrite E1, E2, E3, E4, E5, E6. cbn [mbind option_bind enum64_name_off enum64_val_lo32 enum64_val_hi32].
    apply decides_ret. rewrite Hw, !andb_true_iff, !Z.eqb_eq. tauto.
Qed.

Lemma equal_array_spec :
  btf_kind t1 = BTF_KIND_ARRAY -> decides (btf_equal_array t1 t2) (own_words t1 = own_words t2).
Proof.
  intros Hk. apply exact_frame. intros Hi. destruct (both_room 3 Hi) as [H1 H2]; [by rewrite Hk | unfold words_cnt; by rewrite Hk |].
  replace (words_cnt t1) with (3 * 1) by (unfold words_cnt; by rewrite Hk).
  destruct (words_3 (extra t1) (extra t2) 0) as (a1 & b1 & c1 & a2 & b2 & c2 & E1 & E2 & E3 & E4 & E5 & E6 & Hw); [lia.. |].
  unfold btf_array. change (0 + 1) with 1 in *. change (0 + 2) with 2 in *. rewrite E1, E2, E3, E4, E5, E6.
  cbn [mbind option_bind array_type array_index_type array_nelems]. apply decides_ret.
  rewrite <- ztake_elems, !andb_true_iff, !Z.eqb_eq by lia.
  rewrite <- (and_assoc (a1 = a2)), <- Hw. split; [|intros H; by apply (H 0)].
  intros H j Hj. by replace j with 0 by lia.
Qed.

Lemma equal_fnproto_spec :
  btf_kind t1 = BTF_KIND_FUNC_PROTO -> decides (btf_equal_fnproto t1 t2) (own_words t1 = own_words t2).
Proof.
  intros Hk. apply exact_frame. intros Hi. pose proof (vlen_range t1) as Hv.
  destruct (both_room _ Hi ltac:(by rewrite Hk) eq_refl) as [H1 H2]. unfold words_cnt in *. rewrite Hk in *.
  cbn [extra_words] in *. apply same_elems_words; [lia.. |]. intros j Hj.
  destruct (words_2 (extra t1) (extra t2) (2 * j)) as (a1 & b1 & a2 & b2 & E1 & E2 & E3 & E4 & Hw); [lia.. |].
  unfold btf_param. rewrite E1, E2, E3, E4. cbn [mbind option_bind param_name_off param_type].
  apply decides_ret. by rewrite Hw, andb_true_iff, !Z.eqb_eq.
Qed.

Lemma equal_loc_proto_spec :
  btf_kind t1 = BTF_KIND_LOC_PROTO -> decides (equal_loc_proto t1 t2) (own_words t1 = own_words t2).
Proof.
  intros Hk. apply exact_frame. intros Hi. pose proof (vlen_range t1) as Hv.
  destruct (both_room _ Hi ltac:(by rewrite Hk) eq_refl) as [H1 H2]. unfold words_cnt in *. rewrite Hk in *.
  cbn [extra_words] in *. destruct (info_words_cnt t1 t2 Hi) as (_ & _ & <-).
  rewrite <- (Z.mul_1_l (btf_vlen t1)) at 2 3. apply same_elems_words; [lia.. |]. intros j Hj.
  destruct (words_1 (extra t1) (extra t2) (1 * j)) as (a & b & E1 & E2 & Hw); [lia.. |].
  unfold btf_loc_proto_param. rewrite Z.mul_1_l in *. rewrite E1, E2. cbn [mbind option_bind].
  apply decides_ret. by rewrite Hw, Z.eqb_eq.
Qed.

Lemma equal_loc_param_spec :
  btf_kind t1 = BTF_KIND_LOC_PARAM -> decides (btf_equal_loc_param t1 t2) (own_words t1 = own_words t2).
Proof.
  intros Hk. apply exact_frame. intros Hi. pose proof (vlen_range t1) as Hv.
  destruct (both_room _ Hi ltac:(by rewrite Hk) eq_refl) as [H1 H2]. unfold words_cnt in *. rewrite Hk in *.
  cbn [extra_words] in *. unfold loc_param_flags.
  destruct (extra t1) as [|f1 e1] eqn:X1; [change (zlen []) with 0 in H1; lia |].
  destruct (extra t2) as [|f2 e2] eqn:X2; [change (zlen []) with 0 in H2; lia |].
  rewrite zlen_cons in H1, H2. cbn [znth Z.to_nat lookup list_lookup Z.ltb Z.compare mbind option_bind].
  assert (Htake : forall (f : Z) e, ztake (1 + btf_vlen t1) (f :: e) = f :: ztake (btf_vlen t1) e).
  { intros f e. unfold ztake. by replace (Z.to_nat (1 + btf_vlen t1)) with (S (Z.to_nat (btf_vlen t1))) by lia. }
  rewrite !Htake. apply (decides_guard _ _ (ztake (btf_vlen t1) e1 = ztake (btf_vlen t1) e2)); [intros [= -> _]; lia | | intros Hf; replace f2 with f1 by lia;
    split; [by intros -> | intros H; by injection H]]. intros _.
  rewrite <- (Z.mul_1_l (btf_vlen t1)) at 2 3. apply same_elems_words; [lia.. |]. intros j Hj.
  destruct (words_1 e1 e2 (1 * j)) as (a & b & E1 & E2 & Hw); [lia.. |]. rewrite Z.mul_1_l in *.
  unfold loc_param_value. rewrite X1, X2.
  assert (Hc : forall (f : Z) e, znth (f :: e) (1 + j) = znth e j).
  { intros f e. unfold znth. replace (1 + j <? 0) with false by lia. replace (j <? 0) with false by lia.
    by replace (Z.to_nat (1 + j)) with (S (Z.to_nat j)) by lia. }
  rewrite !Hc, E1, E2. cbn [mbind option_bind]. apply decides_ret. by rewrite Hw, Z.eqb_eq.
Qed.

(** The exact comparison of the kind of [t1] compares all words. *)
Lemma equal_of_kind_spec :
  exact_kind (btf_kind t1) -> decides (equal_of_kind t1 t2) (own_words t1 = own_words t2).
Proof.
  assert (Hc : words_cnt t1 = 0 -> decides (Some (btf_equal_common t1 t2)) (own_words t1 = own_words t2)).
  { intros Hw. destruct (exact_frame t1 t2 (Some true)) as (b & Hb & Hi).
    - intros _. rewrite Hw. by exists true.
    - exists b. split; [|done]. rewrite <- Hb. by destruct (btf_equal_common t1 t2). }
  intros Hk. unfold equal_of_kind. unfold words_cnt in Hc.
  destruct (btf_kind t1) eqn:Hk1; try done; try (by apply Hc).
  - apply equal_int_tag_spec. by left.
  - by apply equal_array_spec.
  - apply equal_enum_spec. by left.
  - by apply equal_fnproto_spec.
  - apply equal_int_tag_spec. by right.
  - apply equal_enum_spec. by right.
  - by apply equal_loc_param_spec.
  - by apply equal_loc_proto_spec.
Qed.
End Exact.

(** ** Shallow comparisons *)
Lemma type_word_own t off :
  0 <= off < 12 + 4 * words_cnt t -> off mod 4 = 0 -> type_word t off = znth (own_words t) (off / 4).
Proof.
  intros Ho Hm. unfold type_word, own_words. case_if; [by replace off with 0 by lia |].
  case_if; [by replace off with 4 by lia |]. case_if; [by replace off with 8 by lia |].
  rewrite <- (znth_ztake _ (words_cnt t)) by lia. unfold znth.
  replace (_ <? 0) with false by lia. replace (off / 4 <? 0) with false by lia.
  by replace (Z.to_nat (off / 4)) with (S (S (S (Z.to_nat (off / 4 - 3))))) by lia.
Qed.

Lemma same_words_shape t1 t2 : own_words t1 = own_words t2 -> same_shape t1 t2.
Proof.
  intros H. assert (Hi : info t1 = info t2) by (unfold own_words in H; congruence).
  split; [done |]. intros off Ho Hm _. destruct (info_words_cnt t1 t2 Hi) as (Hw & _ & _).
  rewrite !type_word_own by (rewrite <- ?Hw; done). by rewrite H.
Qed.

Lemma elem_of_in_elems_2 n base sz offs i o :
  0 <= i < n -> o ∈ offs -> base + i * sz + o ∈ in_elems n base sz offs.
Proof.
  intros Hi Ho. unfold in_elems. apply list_elem_of_join.
  exists ((fun o => base + Z.of_nat (Z.to_nat i) * sz + o) <$> offs). split.
  - apply list_elem_of_fmap. exists o. split; [by rewrite Z2Nat.id by lia | done].
  - apply (list_elem_of_fmap_2 (fun i => (fun o => base + Z.of_nat i * sz + o) <$> offs)).
    apply elem_of_seq. lia.
Qed.

Lemma elem_index_unique sz i j o r : 0 <= o < sz -> 0 <= r < sz -> sz * i + o = sz * j + r -> i = j /\ o = r.
Proof.
  intros Ho Hr H. assert (i = j) as ->; [|lia].
  destruct (Z.lt_trichotomy i j) as [Hl|[Hl|Hl]]; [|done|]; exfalso.
  - pose proof (Z.mul_le_mono_nonneg_l (i + 1) j sz ltac:(lia) ltac:(lia)). lia.
  - pose proof (Z.mul_le_mono_nonneg_l (j + 1) i sz ltac:(lia) ltac:(lia)). lia.
Qed.

Lemma type_word_at t k : 0 <= k -> type_word t (12 + 4 * k) = znth (extra t) k.
Proof.
  intros Hk. unfold type_word. replace (_ =? 0) with false by lia. replace (_ =? 4) with false by lia.
  replace (_ =? 8) with false by lia. f_equal. lia.
Qed.

(** A type with elements of [sz] words, whose identifiers are at [offs] of each element
    and perhaps in the third word of the type. *)
Lemma same_shape_elems t1 t2 sz (head offs : list Z) :
  info t1 = info t2 -> 0 < sz -> words_cnt t1 = sz * btf_vlen t1 ->
  id_fields (btf_kind t1) (btf_vlen t1) = head ++ in_elems (btf_vlen t1) 12 (4 * sz) offs ->
  head = [] \/ head = [8] -> Forall (fun o => 0 <= o < 4 * sz /\ o mod 4 = 0) offs ->
  same_shape t1 t2 <->
  name_off t1 = name_off t2 /\ (head = [] -> t_size t1 = t_size t2) /\
  (forall j, 0 <= j < btf_vlen t1 -> forall r, 0 <= r < sz -> 4 * r ∉ offs ->
     znth (extra t1) (sz * j + r) = znth (extra t2) (sz * j + r)).
Proof.
  intros Hi Hsz Hw Hids Hh Hoffs. rewrite Forall_forall in Hoffs. pose proof (vlen_range t1) as Hv.
  assert (Hin : forall off, off ∈ in_elems (btf_vlen t1) 12 (4 * sz) offs -> 12 <= off).
  { intros off (i & o & Hi' & Ho & ->)%elem_of_in_elems. apply Hoffs in Ho. nia. }
  assert (Hge : forall off, 0 <= off -> off < 12 -> off ∉ head -> off ∉ id_fields (btf_kind t1) (btf_vlen t1)).
  { intros off H0 H1 H2. rewrite Hids, elem_of_app. intros [H|H%Hin]; [done | lia]. }
  assert (Hh0 : forall off, off <> 8 -> off ∉ head).
  { intros off H8 Hx. destruct Hh as [-> | ->]; [by apply not_elem_of_nil in Hx | by apply list_elem_of_singleton in Hx]. }
  unfold same_shape. split.
  - intros [_ H]. split; [apply (f_equal (default 0) (H 0 ltac:(nia) ltac:(done) (Hge 0 ltac:(lia) ltac:(lia) (Hh0 0 ltac:(lia))))) |].
    split.
    + intros ->. apply (f_equal (default 0) (H 8 ltac:(nia) ltac:(done) (Hge 8 ltac:(lia) ltac:(lia) (not_elem_of_nil 8)))).
    + intros j Hj r Hr Ho. rewrite <- !type_word_at by nia. apply H; [nia | lia |].
      rewrite Hids, elem_of_app. intros [Hx|(i & o & Hi' & Ho' & He)%elem_of_in_elems].
      { destruct Hh as [-> | ->]; [by apply not_elem_of_nil in Hx | apply list_elem_of_singleton in Hx; nia]. }
      pose proof (Hoffs o Ho') as Hr'. destruct (elem_index_unique (4 * sz) i j o (4 * r)); [lia..|].
      by subst o.
  - intros (Hn & Hs & He). split; [done |]. intros off Ho Hm Hnot.
    unfold type_word. case_if; [congruence |]. case_if; [congruence |]. case_if.
    { destruct Hh as [-> | ->]; [f_equal; auto |]. exfalso. apply Hnot. rewrite Hids.
      replace off with 8 by lia. apply elem_of_app. left. by apply list_elem_of_singleton. }
    set (k := off / 4 - 3) in *. assert (Hk : 0 <= k < sz * btf_vlen t1) by lia.
    assert (Hoff : off = 12 + 4 * k) by lia. rewrite (Z.div_mod k sz) by lia.
    assert (Hj : 0 <= k / sz < btf_vlen t1) by (split; [apply Z.div_pos; lia | apply Z.div_lt_upper_bound; lia]).
    apply He; [done | apply Z.mod_pos_bound; lia |]. intros Hr. apply Hnot. rewrite Hids, elem_of_app. right.
    replace off with (12 + k / sz * (4 * sz) + 4 * (k mod sz)); [by apply elem_of_in_elems_2 |].
    rewrite Hoff. pose proof (Z.div_mod k sz). lia.
Qed.

(** The kinds that have a shallow comparison: those that refer to other types and can
    be part of the graph of a structure. *)
Definition shallow_kind (k : btf_kind_t) : Prop :=
  match k with
  | BTF_KIND_STRUCT | BTF_KIND_UNION | BTF_KIND_ARRAY | BTF_KIND_FUNC_PROTO | BTF_KIND_CONST
  | BTF_KIND_VOLATILE | BTF_KIND_RESTRICT | BTF_KIND_PTR | BTF_KIND_TYPEDEF | BTF_KIND_FUNC
  | BTF_KIND_TYPE_TAG => True
  | _ => False
  end.

Lemma same_shape_info t1 t2 : same_shape t1 t2 -> info t1 = info t2.
Proof. by intros []. Qed.

Section Shallow.
Context (t1 t2 : btf_type) (Ht1 : type_words_ok t1) (Ht2 : type_words_ok t2).

Lemma shape_name : known_kind (btf_kind t1) -> same_shape t1 t2 -> name_off t1 = name_off t2.
Proof.
  intros Hk [_ H]. pose proof (vlen_range t1). pose proof (extra_words_nonneg (btf_kind t1) (btf_vlen t1)).
  apply (f_equal (default 0) (H 0 ltac:(unfold words_cnt; lia) eq_refl ltac:(
    intros Hx; destruct (btf_kind t1); cbn in Hx; try done;
    repeat (apply elem_of_cons in Hx as [Hx|Hx]); try done; try (by apply not_elem_of_nil in Hx);
    apply elem_of_in_elems in Hx as (i & o & Hi & Ho & He);
    repeat (apply elem_of_cons in Ho as [Ho|Ho]; [lia |]); by apply not_elem_of_nil in Ho))).
Qed.

Lemma shallow_struct_spec :
  btf_kind t1 = BTF_KIND_STRUCT \/ btf_kind t1 = BTF_KIND_UNION ->
  decides (btf_shallow_equal_struct t1 t2) (same_shape t1 t2).
Proof.
  intros Hk. pose proof (vlen_range t1) as Hv. unfold btf_shallow_equal_struct, btf_equal_common.
  assert (Hshape : info t1 = info t2 -> same_shape t1 t2 <->
    name_off t1 = name_off t2 /\ (@nil Z = [] -> t_size t1 = t_size t2) /\
    (forall j, 0 <= j < btf_vlen t1 -> forall r, 0 <= r < 3 -> 4 * r ∉ [4] ->
       znth (extra t1) (3 * j + r) = znth (extra t2) (3 * j + r))).
  { intros Hi. apply same_shape_elems; [done | lia | | | by left | repeat constructor; lia];
      unfold words_cnt; by destruct Hk as [-> | ->]. }
  eapply (decides_guard _ _ (forall j, 0 <= j < 0 + Z.of_nat (Z.to_nat (btf_vlen t1)) ->
    forall r, 0 <= r < 3 -> 4 * r ∉ [4] -> znth (extra t1) (3 * j + r) = znth (extra t2) (3 * j + r))).
  - intros Hs. pose proof (same_shape_info _ _ Hs) as Hi. apply (Hshape Hi) in Hs as (Hn & Hz & _).
    rewrite Hn, Hi, (Hz eq_refl). by rewrite !Z.eqb_refl.
  - intros Hc. bools. apply same_elems_spec. intros j Hj.
    destruct (both_room t1 t2 Ht1 Ht2 (3 * btf_vlen t1)) as [R1 R2];
      [lia | by destruct Hk as [-> | ->] | unfold words_cnt; by destruct Hk as [-> | ->] |].
    destruct (words_3 (extra t1) (extra t2) (3 * j)) as (a1 & b1 & c1 & a2 & b2 & c2 & E1 & E2 & E3 & E4 & E5 & E6 & _);
      [lia.. |].
    unfold btf_member. rewrite E1, E2, E3, E4, E5, E6. cbn [mbind option_bind member_name_off member_offset].
    apply decides_ret. rewrite andb_true_iff, !Z.eqb_eq. split.
    + intros [-> ->] r Hr Ho. destruct (decide (r = 0)) as [->|]; [by rewrite Z.add_0_r, E1, E4 |].
      destruct (decide (r = 1)) as [->|]; [by destruct Ho; apply list_elem_of_singleton |].
      replace r with 2 by lia. by rewrite E3, E6.
    + intros Hr. pose proof (Hr 0 ltac:(lia) ltac:(by intros ?%list_elem_of_singleton)) as R0.
      pose proof (Hr 2 ltac:(lia) ltac:(by intros ?%list_elem_of_singleton)) as R3.
      rewrite Z.add_0_r, E1, E4 in R0. rewrite E3, E6 in R3. by simplify_eq.
  - intros Hc. bools. rewrite Hshape by lia. rewrite Z2Nat.id by lia. split; [|tauto].
    intros He. split_and!; [lia | lia | done].
Qed.

Lemma compat_array_spec :
  btf_kind t1 = BTF_KIND_ARRAY -> decides (btf_compat_array t1 t2) (same_shape t1 t2).
Proof.
  intros Hk. unfold btf_compat_array, btf_equal_common.
  eapply (decides_guard _ _ (type_word t1 20 = type_word t2 20)).
  - intros Hs. pose proof (shape_name ltac:(by rewrite Hk) Hs) as Hn. destruct Hs as [Hi Hs].
    specialize (Hs 8). unfold words_cnt in Hs. rewrite Hk in Hs. cbn [extra_words id_fields] in Hs.
    apply (f_equal (default 0)) in Hs; [|lia | done | by intros [?|?%list_elem_of_singleton]%elem_of_cons].
    cbn in Hs. rewrite Hn, Hi, Hs. by rewrite !Z.eqb_refl.
  - intros Hc. bools. destruct (both_room t1 t2 Ht1 Ht2 3) as [R1 R2];
      [lia | by rewrite Hk | unfold words_cnt; by rewrite Hk |].
    destruct (words_3 (extra t1) (extra t2) 0) as (a1 & b1 & c1 & a2 & b2 & c2 & E1 & E2 & E3 & E4 & E5 & E6 & _); [lia.. |].
    change (0 + 1) with 1 in *. change (0 + 2) with 2 in *. change 20 with (12 + 4 * 2).
    rewrite !type_word_at by lia. unfold btf_array. rewrite E1, E2, E3, E4, E5, E6.
    cbn [mbind option_bind array_nelems]. apply decides_ret. rewrite Z.eqb_eq. split; congruence.
  - intros Hc. bools. split.
    + intros He. split; [lia |]. intros off Ho Hm Hnot. unfold words_cnt in Ho. rewrite Hk in Ho, Hnot.
      cbn [extra_words id_fields] in Ho, Hnot. rewrite !elem_of_cons in Hnot.
      assert (Hcases : off = 0 \/ off = 4 \/ off = 8 \/ off = 20) by (destruct (decide (off = 12)), (decide (off = 16)); tauto || lia).
      destruct Hcases as [->|[->|[->| ->]]]; [cbn; f_equal; lia.. | done].
    + intros [_ Hs]. apply Hs; [unfold words_cnt; rewrite Hk; cbn [extra_words]; lia | done |].
      rewrite Hk. cbn [id_fields]. by intros [?|?%list_elem_of_singleton]%elem_of_cons.
Qed.

Lemma compat_fnproto_spec :
  btf_kind t1 = BTF_KIND_FUNC_PROTO -> decides (btf_compat_fnproto t1 t2) (same_shape t1 t2).
Proof.
  intros Hk. pose proof (vlen_range t1) as Hv. unfold btf_compat_fnproto. rewrite <- negb_andb.
  assert (Hshape : info t1 = info t2 -> same_shape t1 t2 <->
    name_off t1 = name_off t2 /\ ([8] = [] -> t_size t1 = t_size t2) /\
    (forall j, 0 <= j < btf_vlen t1 -> forall r, 0 <= r < 2 -> 4 * r ∉ [4] ->
       znth (extra t1) (2 * j + r) = znth (extra t2) (2 * j + r))).
  { intros Hi. apply same_shape_elems; [done | lia | | | by right | repeat constructor; lia];
      unfold words_cnt; by rewrite Hk. }
  eapply (decides_guard _ _ (forall j, 0 <= j < 0 + Z.of_nat (Z.to_nat (btf_vlen t1)) ->
    znth (extra t1) (2 * j) = znth (extra t2) (2 * j))).
  - intros Hs. pose proof (same_shape_info _ _ Hs) as Hi. apply (Hshape Hi) in Hs as (Hn & _).
    rewrite Hn, Hi. by rewrite !Z.eqb_refl.
  - intros Hc. bools. apply same_elems_spec. intros j Hj.
    destruct (both_room t1 t2 Ht1 Ht2 (2 * btf_vlen t1)) as [R1 R2]; [lia | by rewrite Hk | unfold words_cnt; by rewrite Hk |].
    destruct (words_2 (extra t1) (extra t2) (2 * j)) as (a1 & b1 & a2 & b2 & E1 & E2 & E3 & E4 & _); [lia.. |].
    unfold btf_param. rewrite E1, E2, E3, E4. cbn [mbind option_bind param_name_off].
    apply decides_ret. rewrite Z.eqb_eq. split; congruence.
  - intros Hc. bools. rewrite Hshape by lia. rewrite Z2Nat.id by lia. split.
    + intros He. split_and!; [lia | done |]. intros j Hj r Hr Ho. destruct (decide (r = 1)) as [->|].
      { destruct Ho. by apply list_elem_of_singleton. }
      replace r with 0 by lia. rewrite Z.add_0_r. by apply He.
    + intros (_ & _ & He) j Hj. specialize (He j ltac:(lia) 0 ltac:(lia)). rewrite Z.add_0_r in He.
      apply He. by intros ?%list_elem_of_singleton.
Qed.

(** The shallow comparison of the kind of [t1] compares all words but identifiers. *)
Lemma shallow_of_kind_spec :
  shallow_kind (btf_kind t1) -> decides (shallow_of_kind t1 t2) (same_shape t1 t2).
Proof.
  assert (Href : words_cnt t1 = 0 -> id_fields (btf_kind t1) (btf_vlen t1) = [8] ->
    decides (Some (btf_equal_typedef t1 t2)) (same_shape t1 t2)).
  { intros Hw Hids. apply decides_ret. unfold btf_equal_typedef, same_shape.
    rewrite Hw, Hids, andb_true_iff, !Z.eqb_eq. split.
    - intros [Hn Hi]. split; [done |]. intros off Ho Hm H8. rewrite list_elem_of_singleton in H8.
      assert (off = 0 \/ off = 4) as [-> | ->] by lia; cbn; congruence.
    - intros [Hi Hs]. split; [|done]. specialize (Hs 0 ltac:(lia) eq_refl). cbn in Hs.
      rewrite list_elem_of_singleton in Hs. by injection (Hs ltac:(done)). }
  intros Hk. unfold shallow_of_kind. destruct (btf_kind t1) eqn:Hk1; try done;
    try (apply Href; [unfold words_cnt; by rewrite Hk1 | done]).
  - by apply compat_array_spec.
  - apply shallow_struct_spec. by left.
  - apply shallow_struct_spec. by right.
  - by apply compat_fnproto_spec.
Qed.
End Shallow.

(** ** Hashes of equal types *)
Lemma hash_elems_ext n i f g h :
  (forall j, i <= j < i + Z.of_nat n -> f j = g j) -> hash_elems n i f h = hash_elems n i g h.
Proof.
  revert i h. induction n as [|n IH]; intros i h Hf; [done |]. cbn [hash_elems]. rewrite <- (Hf i) by lia.
  destruct (f i) as [vs|]; [|done]. cbn. apply IH. intros j Hj. apply Hf. lia.
Qed.

Lemma hash_elems_total n i f h :
  (forall j, i <= j < i + Z.of_nat n -> is_Some (f j)) -> is_Some (hash_elems n i f h).
Proof.
  revert i h. induction n as [|n IH]; intros i h Hf; cbn [hash_elems]; [by eexists |].
  destruct (Hf i ltac:(lia)) as [vs ->]. cbn. apply IH. intros j Hj. apply Hf. lia.
Qed.

Lemma same_words_znth t1 t2 k :
  own_words t1 = own_words t2 -> k < words_cnt t1 -> znth (extra t1) k = znth (extra t2) k.
Proof.
  intros H Hk. assert (Hi : info t1 = info t2) by (unfold own_words in H; congruence).
  destruct (info_words_cnt t1 t2 Hi) as (Hw & _ & _). unfold own_words in H. rewrite <- Hw in H.
  injection H as _ _ _ He. rewrite <- (znth_ztake _ (words_cnt t1)), <- (znth_ztake (extra t2) (words_cnt t1)) by done.
  by rewrite He.
Qed.

(** Types of the same words have the same hash, whatever follows them. *)
Lemma hash_same_words t1 t2 :
  own_words t1 = own_words t2 -> known_kind (btf_kind t1) -> hash_of_kind t1 = hash_of_kind t2.
Proof.
  intros H Hk. pose proof (same_words_znth t1 t2) as Hz.
  assert (Hw : name_off t1 = name_off t2 /\ info t1 = info t2 /\ t_size t1 = t_size t2)
    by (unfold own_words in H; split_and!; congruence). destruct Hw as (Hn & Hi & Hs).
  destruct (info_words_cnt t1 t2 Hi) as (_ & Hkk & Hv). pose proof (vlen_range t1) as Hr.
  assert (Hc : btf_hash_common t1 = btf_hash_common t2) by (unfold btf_hash_common; congruence).
  assert (He : btf_hash_enum t1 = btf_hash_enum t2) by (unfold btf_hash_enum; congruence).
  assert (Ht : btf_hash_typedef t1 = btf_hash_typedef t2) by (unfold btf_hash_typedef; congruence).
  unfold hash_of_kind. rewrite <- Hkk. unfold words_cnt in Hz.
  destruct (btf_kind t1); try done; cbn [extra_words] in Hz; try congruence; f_equal;
    unfold btf_hash_int_decl_tag, btf_hash_struct, btf_hash_array, btf_hash_fnproto, btf_hash_loc_param,
      btf_hash_loc_proto, loc_param_flags, btf_array; rewrite <- ?Hv, <- ?Hc, <- ?Hz by (done || lia); try done.
  all: try destruct (znth (extra t1) 0); try done; cbn [mbind option_bind].
  all: apply hash_elems_ext; intros j Hj; unfold btf_member, btf_param, btf_loc_proto_param, loc_param_value;
    by rewrite <- !Hz by (done || lia).
Qed.

(** The hash of a type that lies in its section is defined. *)
Lemma hash_of_kind_total t :
  type_words_ok t -> known_kind (btf_kind t) ->
  exists r, hash_of_kind t = Some r /\ (exact_kind (btf_kind t) \/ shallow_kind (btf_kind t) -> exists h, r = Ok h).
Proof.
  intros Ht Hk. pose proof (words_room t Ht Hk) as Hl. pose proof (vlen_range t) as Hv.
  assert (Hz : forall k, 0 <= k < words_cnt t -> is_Some (znth (extra t) k)) by (intros k Hk'; apply znth_is_Some; lia).
  assert (Hopt : forall m : option Z, is_Some m -> exists r, (Ok <$> m) = Some r /\
    (exact_kind (btf_kind t) \/ shallow_kind (btf_kind t) -> exists h, r = Ok h)).
  { intros m [h ->]. eexists. split; [done |]. by eexists. }
  unfold hash_of_kind. unfold words_cnt in *.
  destruct (btf_kind t) eqn:Hk1; try done; cbn [extra_words] in *;
    try (eexists; split; [done |]; by eexists); try (eexists; split; [done |]; intros [[]|[]]); apply Hopt;
    unfold btf_hash_int_decl_tag, btf_hash_struct, btf_hash_array, btf_hash_fnproto, btf_hash_loc_param,
      btf_hash_loc_proto, loc_param_flags, btf_array.
  all: try (destruct (Hz 0) as [x0 ->]; [lia |]); cbn [mbind option_bind].
  all: try (destruct (Hz 1) as [x1 ->]; [lia |]; destruct (Hz 2) as [x2 ->]; [lia |]); cbn [mbind option_bind].
  all: try (by eexists).
  all: apply hash_elems_total; intros j Hj; unfold btf_member, btf_param, btf_loc_proto_param, loc_param_value.
  all: repeat match goal with
       | |- context [znth _ ?k] => destruct (Hz k) as [? ->]; [lia |]; cbn [mbind option_bind]
       end; by eexists.
Qed.

(** The kinds deduplicated by their graphs. *)
Definition graph_kind (k : btf_kind_t) : Prop :=
  match k with BTF_KIND_STRUCT | BTF_KIND_UNION | BTF_KIND_TYPEDEF => True | _ => False end.

#[export] Instance graph_kind_dec k : Decision (graph_kind k).
Proof. destruct k; apply _. Defined.

Lemma graph_known k : graph_kind k -> known_kind k.
Proof. by destruct k. Qed.

Lemma exact_known k : exact_kind k -> known_kind k.
Proof. by destruct k. Qed.

Lemma shallow_known k : shallow_kind k -> known_kind k.
Proof. by destruct k. Qed.

Lemma equal_by_kind_spec t1 t2 :
  type_words_ok t1 -> type_words_ok t2 -> graph_kind (btf_kind t1) ->
  decides (btf_equal_by_kind t1 t2 (btf_kind t1)) (same_shape t1 t2).
Proof.
  intros H1 H2 Hk. pose proof (shallow_of_kind_spec t1 t2 H1 H2) as Hs. unfold shallow_of_kind in Hs.
  unfold btf_equal_by_kind. destruct (btf_kind t1); try done; by apply Hs.
Qed.

(** The hash that [btf_dedup_prep] gives to a base type is the one by which
    [btf_dedup_struct_type] looks for it. *)
Lemma hash_by_kind_eq t : graph_kind (btf_kind t) -> hash_of_kind t = Ok <$> btf_hash_by_kind t (btf_kind t).
Proof. unfold hash_of_kind, btf_hash_by_kind. by destruct (btf_kind t). Qed.

(** Types of the same shape have the same hash. *)
Lemma hash_same_shape t1 t2 :
  type_words_ok t1 -> type_words_ok t2 -> same_shape t1 t2 -> graph_kind (btf_kind t1) ->
  hash_of_kind t1 = hash_of_kind t2.
Proof.
  intros H1 H2 Hs Hk. pose proof (same_shape_info _ _ Hs) as Hi. destruct (info_words_cnt t1 t2 Hi) as (_ & Hkk & Hv).
  pose proof (shape_name t1 t2 ltac:(by apply graph_known) Hs) as Hn. unfold hash_of_kind. rewrite <- Hkk.
  assert (Hc : btf_hash_typedef t1 = btf_hash_typedef t2) by (unfold btf_hash_typedef; congruence).
  destruct (decide (btf_kind t1 = BTF_KIND_TYPEDEF)) as [Ht|Ht]; [rewrite Ht; by rewrite Hc |].
  assert (Hst : btf_kind t1 = BTF_KIND_STRUCT \/ btf_kind t1 = BTF_KIND_UNION) by (destruct (btf_kind t1); (tauto || by destruct Hk)).
  assert (Hw : words_cnt t1 = 3 * btf_vlen t1) by (unfold words_cnt; by destruct Hst as [-> | ->]).
  destruct (both_room t1 t2 H1 H2 _ Hi ltac:(by apply graph_known) Hw) as [R1 R2].
  assert (btf_hash_struct t1 = btf_hash_struct t2) as He; [|by destruct Hst as [-> | ->]; rewrite He].
  apply (same_shape_elems t1 t2 3 [] [4]) in Hs as (_ & Hsz & Hm);
    [|done | lia | done | by destruct Hst as [-> | ->] | by left | repeat constructor; lia].
  unfold btf_hash_struct, btf_hash_common. rewrite Hn, Hi, (Hsz eq_refl), <- Hv. pose proof (vlen_range t1).
  apply hash_elems_ext. intros j Hj.
  destruct (words_3 (extra t1) (extra t2) (3 * j)) as (a1 & b1 & c1 & a2 & b2 & c2 & E1 & E2 & E3 & E4 & E5 & E6 & _); [lia.. |].
  pose proof (Hm j ltac:(lia) 0 ltac:(lia) ltac:(intros Hx%list_elem_of_singleton; lia)) as M0.
  pose proof (Hm j ltac:(lia) 2 ltac:(lia) ltac:(intros Hx%list_elem_of_singleton; lia)) as M2.
  rewrite Z.add_0_r, E1, E4 in M0. rewrite E3, E6 in M2.
  injection M0 as ->. injection M2 as ->. unfold btf_member. by rewrite E1, E2, E3, E4, E5, E6.
Qed.

(** C26: no comparison or hash of the deduplication reads past types that lie in their
    section.  The exact comparison of a primitive or reference kind says whether the
    types consist of the same words, and the shallow comparison of the kinds that make up
    type graphs whether they do so up to type identifiers; in both cases types that
    compare equal have the same hash, so that a duplicate is among the candidates of its
    hash. *)
Theorem btf_dedup_compare_spec t1 t2 :
  type_words_ok t1 -> type_words_ok t2 ->
  (exact_kind (btf_kind t1) ->
     decides (equal_of_kind t1 t2) (own_words t1 = own_words t2) /\
     exists h, hash_of_kind t1 = Some (Ok h) /\
       (own_words t1 = own_words t2 -> hash_of_kind t2 = Some (Ok h))) /\
  (shallow_kind (btf_kind t1) -> decides (shallow_of_kind t1 t2) (same_shape t1 t2)) /\
  (graph_kind (btf_kind t1) ->
     decides (btf_equal_by_kind t1 t2 (btf_kind t1)) (same_shape t1 t2) /\
     exists h, hash_of_kind t1 = Some (Ok h) /\ (same_shape t1 t2 -> hash_of_kind t2 = Some (Ok h))).
Proof.
  intros H1 H2. split_and!.
  - intros Hk. split; [by apply equal_of_kind_spec |].
    destruct (hash_of_kind_total t1 H1 ltac:(by apply exact_known)) as (r & Hr & Hh).
    destruct Hh as [h ->]; [by left |]. exists h. split; [done |]. intros He. rewrite <- Hr. symmetry.
    apply hash_same_words; [done | by apply exact_known].
  - intros Hk. by apply shallow_of_kind_spec.
  - intros Hk. split; [by apply equal_by_kind_spec |].
    destruct (hash_of_kind_total t1 H1 ltac:(by apply graph_known)) as (r & Hr & Hh).
    destruct Hh as [h ->]; [right; by destruct (btf_kind t1) |]. exists h. split; [done |]. intros He.
    rewrite <- Hr. symmetry. by apply hash_same_shape.
Qed.

(** [struct { int a; }] twice, with different identifiers for [int]. *)
Lemma btf_dedup_compare_spec_witness :
  decides (btf_equal_by_kind (BtfType 5 67108865 4 [7; 1; 0]) (BtfType 5 67108865 4 [7; 2; 0]) BTF_KIND_STRUCT)
    (same_shape (BtfType 5 67108865 4 [7; 1; 0]) (BtfType 5 67108865 4 [7; 2; 0])) /\
  btf_equal_by_kind (BtfType 5 67108865 4 [7; 1; 0]) (BtfType 5 67108865 4 [7; 2; 0]) BTF_KIND_STRUCT = Some true.
Proof.
  split; [|reflexivity].
  apply (btf_dedup_compare_spec (BtfType 5 67108865 4 [7; 1; 0]) (BtfType 5 67108865 4 [7; 2; 0]));
    [split; [by intros _; vm_compute | by repeat constructor].. | exact I].
Defined.
