(* ===== verification/Dedup.v ===== *)
(** * Dedup: deduplication of BTF ([btf__dedup] of [src/src/btf.c])

    [struct btf_dedup] and the passes of [btf__dedup] over it: strings, primitive types,
    structures and typedefs compared by their type graphs, forward declarations,
    reference types, compaction and the final renumbering.  There is no [.BTF.ext]
    section ([opts->btf_ext] is the null pointer).

    An operation is a function of the state that gives its result and the state
    afterwards, in a monad; [None] is a read or write outside an object, or a loop or
    recursion that does not end within its fuel.  The candidates of a hash are those of
    the hash table of [Hashmap], whose hash function is the context ([force_collisions]
    selects one that is constant).  Types are rewritten in the type section itself. *)
From S2P Require Import Prelude Hashmap Mem Strset BtfTypes Btf BtfFind BtfParse BtfRaw BtfWrite DedupTypes.
Open Scope Z_scope.

Definition BTF_UNPROCESSED_ID : Z := 4294967295.
Definition BTF_IN_PROGRESS_ID : Z := 4294967294.

(** [hypot_cnt] is the length of [hypot_list]. *)
Record btf_dedup := BtfDedup {
  d_btf : btf;
  dedup_table : hashmap;
  d_map : list Z;
  hypot_map : list Z;
  hypot_list : list Z;
  hypot_cap : Z;
  hypot_adjust_canon : bool;
  d_strs_set : option strset;
  d_oracle : oracle
}.

(** ** The monad *)
Definition dedup_m (A : Type) : Type := btf_dedup -> option (A * btf_dedup).

Definition ret {A} (a : A) : dedup_m A := fun d => Some (a, d).

Definition bind {A B} (m : dedup_m A) (k : A -> dedup_m B) : dedup_m B :=
  fun d => match m d with Some (a, d) => k a d | None => None end.

Declare Scope dedup_scope.
Delimit Scope dedup_scope with dedup.
Notation "'let*' x ':=' m 'in' k" := (bind m (fun x => k))
  (at level 10, x name, k at level 200) : dedup_scope.
Notation "'do*' m 'in' k" := (bind m (fun _ => k))
  (at level 10, k at level 200) : dedup_scope.
Open Scope dedup_scope.

(** A value read from the state, and a change of the state. *)
Definition read {A} (f : btf_dedup -> option A) : dedup_m A :=
  fun d => match f d with Some a => Some (a, d) | None => None end.

Definition lift {A} (m : option A) : dedup_m A := read (fun _ => m).

Definition modify (f : btf_dedup -> option btf_dedup) : dedup_m unit :=
  fun d => match f d with Some d => Some (tt, d) | None => None end.

(** Not returning. *)
Definition diverge {A} : dedup_m A := fun _ => None.

(** ** The fields *)
Definition set_d_btf (d : btf_dedup) (b : btf) : btf_dedup :=
  BtfDedup b (dedup_table d) (d_map d) (hypot_map d) (hypot_list d) (hypot_cap d)
    (hypot_adjust_canon d) (d_strs_set d) (d_oracle d).

Definition set_d_map (d : btf_dedup) (m : list Z) : btf_dedup :=
  BtfDedup (d_btf d) (dedup_table d) m (hypot_map d) (hypot_list d) (hypot_cap d)
    (hypot_adjust_canon d) (d_strs_set d) (d_oracle d).

Definition set_table (d : btf_dedup) (h : hashmap) (o : oracle) : btf_dedup :=
  BtfDedup (d_btf d) h (d_map d) (hypot_map d) (hypot_list d) (hypot_cap d)
    (hypot_adjust_canon d) (d_strs_set d) o.

Definition set_hypot (d : btf_dedup) (m l : list Z) (adjust : bool) : btf_dedup :=
  BtfDedup (d_btf d) (dedup_table d) (d_map d) m l (hypot_cap d) adjust (d_strs_set d) (d_oracle d).

Definition set_hypot_cap (d : btf_dedup) (cap : Z) (o : oracle) : btf_dedup :=
  BtfDedup (d_btf d) (dedup_table d) (d_map d) (hypot_map d) (hypot_list d) cap
    (hypot_adjust_canon d) (d_strs_set d) o.

Definition set_strs_state (d : btf_dedup) (b : btf) (set : option strset) (o : oracle) : btf_dedup :=
  BtfDedup b (dedup_table d) (d_map d) (hypot_map d) (hypot_list d) (hypot_cap d)
    (hypot_adjust_canon d) set o.

(** An element of an array that exists is assigned. *)
Definition array_set (l : list Z) (i v : Z) : option (list Z) :=
  if (0 <=? i) && (i <? zlen l) then Some (zupd l i v) else None.

(** [d->map[id]], [d->map[id] = v], [d->hypot_map[id]] *)
Definition map_at (id : Z) : dedup_m Z := read (fun d => znth (d_map d) id).

Definition map_set (id v : Z) : dedup_m unit :=
  modify (fun d => m ← array_set (d_map d) id v; Some (set_d_map d m)).

Definition hypot_at (id : Z) : dedup_m Z := read (fun d => znth (hypot_map d) id).

Definition type_of (id : Z) : dedup_m btf_type := read (fun d => btf_type_by_id (d_btf d) id).

(** A word of a type is written in place.  The type 0 is a constant. *)
Fixpoint btf_set_word (b : btf) (type_id off v : Z) : option btf :=
  if type_id =? 0 then None else
  if type_id <? start_id b then
    match base_btf b with
    | None => None
    | Some base => base' ← btf_set_word base type_id off v; Some (set_base b (Some base'))
    end
  else
    o ← znth (type_offs b) (type_id - start_id b);
    ws ← array_set (types_data b) ((o + off) / 4) v;
    Some (set_types b ws (types_data_cap b) (type_offs b) (type_offs_cap b) (nr_types b)).

Definition word_set (id off v : Z) : dedup_m unit :=
  modify (fun d => b ← btf_set_word (d_btf d) id off v; Some (set_d_btf d b)).

(** [f id], [f (id + 1)], ... while the results do not [stop] the loop. *)
Fixpoint for_ids (n : nat) (id : Z) (stop : Z -> bool) (f : Z -> dedup_m Z) : dedup_m Z :=
  match n with
  | O => ret 0
  | S n => let* r := f id in if stop r then ret r else for_ids n (id + 1) stop f
  end.

(** [for (i = 0; i < d->btf->nr_types; i++) f(d->btf->start_id + i)] *)
Definition for_types (stop : Z -> bool) (f : Z -> dedup_m Z) : dedup_m Z :=
  fun d => for_ids (Z.to_nat (nr_types (d_btf d))) (start_id (d_btf d)) stop f d.

Definition nonzero (r : Z) : bool := negb (r =? 0).
Definition negative (r : Z) : bool := r <? 0.

(** ** The candidates and the hypothetical map *)

(** The hash function with [force_collisions]. *)
Definition btf_dedup_collision_hash_fn (k : Z) : Z := 0.

Definition collision_ctx : hash_ctx :=
  {| hash_fn := btf_dedup_collision_hash_fn; equal_fn := btf_dedup_equal_fn |}.

Definition dedup_ctx (force_collisions : bool) : hash_ctx :=
  if force_collisions then collision_ctx else int_ctx.

Section Dedup.
Context {C : hash_ctx}.

(** The identifiers [for_each_dedup_cand] goes through.  The table does not change while
    they are looked at. *)
Definition dedup_cands (h : Z) : dedup_m (list Z) :=
  read (fun d => Some (value <$> hashmap__for_each_key_entry (dedup_table d) h)).

Definition btf_dedup_table_add (hash type_id : Z) : dedup_m Z :=
  fun d => let r := hashmap_insert (dedup_table d) hash type_id HASHMAP_APPEND (d_oracle d) in
           Some (ins_ret r, set_table d (ins_map r) (ins_oracle r)).

Definition btf_dedup_hypot_map_add (from_id to_id : Z) : dedup_m Z :=
  fun d =>
    let '(ok, d) :=
      if zlen (hypot_list d) =? hypot_cap d then
        let cap := hypot_cap d + Z.max 16 (hypot_cap d / 2) in
        let '(ok, o) := alloc_array cap 4 (d_oracle d) in
        (ok, set_hypot_cap d cap o)
      else (true, d) in
    if negb ok then Some (- ENOMEM, d) else
    m ← array_set (hypot_map d) from_id to_id;
    Some (0, set_hypot d m (hypot_list d ++ [from_id]) (hypot_adjust_canon d)).

Fixpoint clear_hypot (m l : list Z) : option (list Z) :=
  match l with
  | [] => Some m
  | id :: l => m ← array_set m id BTF_UNPROCESSED_ID; clear_hypot m l
  end.

Definition btf_dedup_clear_hypot_map : dedup_m unit :=
  modify (fun d => m ← clear_hypot (hypot_map d) (hypot_list d); Some (set_hypot d m [] false)).

(** ** Beginning *)

(** Types that are never deduplicated. *)
Definition self_canonical (t : btf_type) : bool :=
  match btf_kind t with BTF_KIND_VAR | BTF_KIND_DATASEC | BTF_KIND_LOCSEC => true | _ => false end.

(** The canonical map for [n] types from [i] on. *)
Fixpoint init_map (n : nat) (i : Z) (b : btf) : option (list Z) :=
  match n with
  | O => Some []
  | S n =>
      t ← btf_type_by_id b i;
      m ← init_map n (i + 1) b;
      Some ((if self_canonical t then i else BTF_UNPROCESSED_ID) :: m)
  end.

Definition btf_dedup_new (b : btf) (o : oracle) : option (result btf_dedup * oracle) :=
  let '(ok, o) := alloc o in
  if negb ok then Some (Err ENOMEM, o) else
  let '(r, o) := hashmap__new o in
  match r with
  | Err e => Some (Err e, o)
  | Ok table =>
      let type_cnt := s32 (btf__type_cnt b) in
      let '(ok, o) := alloc o in
      if negb ok then Some (Err ENOMEM, o) else
      m ← init_map (Z.to_nat (type_cnt - 1)) 1 b;
      let '(ok, o) := alloc o in
      if negb ok then Some (Err ENOMEM, o) else
      Some (Ok (BtfDedup b table (0 :: m) (replicate (Z.to_nat type_cnt) BTF_UNPROCESSED_ID) [] 0
                  false None o), o)
  end.

(** A type of the base is its own representative and a candidate. *)
Definition prep_type (type_id : Z) : dedup_m Z :=
  let* t := type_of type_id in
  do* map_set type_id type_id in
  if self_canonical t then ret 0 else
  let* r := lift (hash_of_kind t) in
  match r with
  | Err e => ret (- e)
  | Ok h => let* err := btf_dedup_table_add h type_id in ret (if nonzero err then - ENOMEM else 0)
  end.

Definition btf_dedup_prep : dedup_m Z :=
  fun d =>
    match base_btf (d_btf d) with
    | None => ret 0 d
    | Some _ => for_ids (Z.to_nat (start_id (d_btf d) - 1)) 1 nonzero prep_type d
    end.

(** ** Primitive types *)

(** The first candidate of the same words. *)
Fixpoint find_equal (t : btf_type) (cands : list Z) (new_id : Z) : dedup_m Z :=
  match cands with
  | [] => ret new_id
  | cand_id :: cands =>
      let* cand := type_of cand_id in
      let* eq := lift (equal_of_kind t cand) in
      if (eq : bool) then ret cand_id else find_equal t cands new_id
  end.

(** The candidates of an enumeration: forward declarations are resolved both ways. *)
Fixpoint find_enum (type_id : Z) (t : btf_type) (cands : list Z) (new_id : Z) : dedup_m Z :=
  match cands with
  | [] => ret new_id
  | cand_id :: cands =>
      let* cand := type_of cand_id in
      let* eq := lift (btf_equal_enum t cand) in
      if (eq : bool) then ret cand_id else
      let* compat := lift (btf_compat_enum t cand) in
      if (compat : bool) then
        if btf_is_enum_fwd t then ret cand_id
        else do* map_set cand_id type_id in find_enum type_id t cands new_id
      else find_enum type_id t cands new_id
  end.

(** [d->map[type_id] = new_id], and a type that is its own representative becomes a
    candidate. *)
Definition set_canon (h type_id new_id : Z) : dedup_m Z :=
  do* map_set type_id new_id in
  if type_id =? new_id then
    let* err := btf_dedup_table_add h type_id in ret (if nonzero err then - ENOMEM else 0)
  else ret 0.

Definition btf_dedup_prim_type (type_id : Z) : dedup_m Z :=
  let* t := type_of type_id in
  match btf_kind t with
  | BTF_KIND_CONST | BTF_KIND_VOLATILE | BTF_KIND_RESTRICT | BTF_KIND_PTR | BTF_KIND_TYPEDEF
  | BTF_KIND_ARRAY | BTF_KIND_STRUCT | BTF_KIND_UNION | BTF_KIND_FUNC | BTF_KIND_FUNC_PROTO
  | BTF_KIND_VAR | BTF_KIND_DATASEC | BTF_KIND_DECL_TAG | BTF_KIND_TYPE_TAG | BTF_KIND_LOC_PROTO
  | BTF_KIND_LOCSEC => ret 0
  | BTF_KIND_INT =>
      let* h := lift (btf_hash_int_decl_tag t) in
      let* cands := dedup_cands h in
      let* new_id := find_equal t cands type_id in
      set_canon h type_id new_id
  | BTF_KIND_ENUM | BTF_KIND_ENUM64 =>
      let h := btf_hash_enum t in
      let* cands := dedup_cands h in
      let* new_id := find_enum type_id t cands type_id in
      set_canon h type_id new_id
  | BTF_KIND_FWD | BTF_KIND_FLOAT =>
      let h := btf_hash_common t in
      let* cands := dedup_cands h in
      let* new_id := find_equal t cands type_id in
      set_canon h type_id new_id
  | BTF_KIND_LOC_PARAM =>
      let* h := lift (btf_hash_loc_param t) in
      let* cands := dedup_cands h in
      let* new_id := find_equal t cands type_id in
      set_canon h type_id new_id
  | BTF_KIND_UNKN | BTF_KIND_OTHER _ => ret (- EINVAL)
  end.

Definition btf_dedup_prim_types : dedup_m Z := for_types nonzero btf_dedup_prim_type.

(** ** The canonical map *)
Definition is_type_mapped (type_id : Z) : dedup_m bool :=
  let* m := map_at type_id in ret (m <=? BTF_MAX_NR_TYPES).

(** Following the map from a type to its representative. *)
Fixpoint resolve_loop (fuel : nat) (m : list Z) (type_id : Z) : option Z :=
  match fuel with
  | O => None
  | S fuel =>
      x ← znth m type_id;
      if (x <=? BTF_MAX_NR_TYPES) && negb (x =? type_id) then resolve_loop fuel m x else Some type_id
  end.

Definition resolve_type_id (type_id : Z) : dedup_m Z :=
  read (fun d => resolve_loop (S (length (d_map d))) (d_map d) type_id).

Definition is_fwd_at (type_id : Z) : dedup_m bool :=
  read (fun d => t ← btf__type_by_id (d_btf d) type_id; Some (btf_is_fwd t)).

Definition resolve_fwd_id (type_id : Z) : dedup_m Z :=
  let* fwd := is_fwd_at type_id in
  if negb fwd then ret type_id else
  let* id := resolve_type_id type_id in
  let* fwd := is_fwd_at id in
  if negb fwd then ret id else ret type_id.

(** ** Comparing type graphs *)

(** The elements of two types in turn: [rec] on their identifiers unless these are the
    same. *)
Fixpoint identical_elems (n : nat) (i : Z) (ids : Z -> option (Z * Z)) (rec : Z -> Z -> option bool) :
  option bool :=
  match n with
  | O => Some true
  | S n =>
      '(x, y) ← ids i;
      ok ← (if x =? y then Some true else rec x y);
      if negb ok then Some false else identical_elems n (i + 1) ids rec
  end.

(** The fuel counts the comparisons along one path, those of [goto recur] included. *)
Fixpoint btf_dedup_identical_types (fuel : nat) (b : btf) (id1 id2 depth : Z) : option bool :=
  match fuel with
  | O => None
  | S fuel =>
      t1 ← btf_type_by_id b id1;
      t2 ← btf_type_by_id b id2;
      if depth <=? 0 then Some false else
      let rec x y := btf_dedup_identical_types fuel b x y (depth - 1) in
      if negb (bool_decide (btf_kind t1 = btf_kind t2)) then Some false else
      match btf_kind t1 with
      | BTF_KIND_UNKN => Some true
      | BTF_KIND_INT => btf_equal_int_tag t1 t2
      | BTF_KIND_ENUM | BTF_KIND_ENUM64 => btf_compat_enum t1 t2
      | BTF_KIND_FWD | BTF_KIND_FLOAT => Some (btf_equal_common t1 t2)
      | BTF_KIND_CONST | BTF_KIND_VOLATILE | BTF_KIND_RESTRICT | BTF_KIND_PTR | BTF_KIND_TYPEDEF
      | BTF_KIND_FUNC | BTF_KIND_TYPE_TAG =>
          if negb (info t1 =? info t2) || negb (name_off t1 =? name_off t2) then Some false
          else btf_dedup_identical_types fuel b (t_type t1) (t_type t2) depth
      | BTF_KIND_ARRAY =>
          ok ← btf_compat_array t1 t2;
          if negb ok then Some false else
          a1 ← btf_array t1;
          a2 ← btf_array t2;
          ok ← (if array_index_type a1 =? array_index_type a2 then Some true
                else rec (array_index_type a1) (array_index_type a2));
          if negb ok then Some false else
          if array_type a1 =? array_type a2 then Some true else rec (array_type a1) (array_type a2)
      | BTF_KIND_STRUCT | BTF_KIND_UNION =>
          ok ← btf_shallow_equal_struct t1 t2;
          if negb ok then Some false else
          identical_elems (Z.to_nat (btf_vlen t1)) 0
            (fun i => m1 ← btf_member t1 i; m2 ← btf_member t2 i; Some (member_type m1, member_type m2)) rec
      | BTF_KIND_FUNC_PROTO =>
          ok ← btf_compat_fnproto t1 t2;
          if negb ok then Some false else
          ok ← (if t_type t1 =? t_type t2 then Some true else rec (t_type t1) (t_type t2));
          if negb ok then Some false else
          identical_elems (Z.to_nat (btf_vlen t1)) 0
            (fun i => p1 ← btf_param t1 i; p2 ← btf_param t2 i; Some (param_type p1, param_type p2)) rec
      | _ => Some false
      end
  end.

(** Room for 16 chains of reference types, each through every pair of types once. *)
Definition identical_fuel (b : btf) : nat :=
  Z.to_nat (17 * (btf__type_cnt b * btf__type_cnt b + 1)).

Definition identical_types (id1 id2 depth : Z) : dedup_m bool :=
  read (fun d => btf_dedup_identical_types (identical_fuel (d_btf d)) (d_btf d) id1 id2 depth).

(** [rec] on the identifiers of the elements in turn, while it gives a positive number. *)
Fixpoint equiv_elems (n : nat) (i : Z) (ids : Z -> option (Z * Z)) (rec : Z -> Z -> dedup_m Z) : dedup_m Z :=
  match n with
  | O => ret 1
  | S n =>
      let* xy := lift (ids i) in
      let* eq := rec xy.1 xy.2 in
      if eq <=? 0 then ret eq else equiv_elems n (i + 1) ids rec
  end.

Definition set_adjust_canon : dedup_m unit :=
  modify (fun d => Some (set_hypot d (hypot_map d) (hypot_list d) true)).

(** A forward declaration and a structure or union. *)
Definition equiv_fwd (cand_type canon_type : btf_type) (canon_id : Z) : dedup_m Z :=
  if btf_is_fwd cand_type then
    ret (Z.b2z (bool_decide (btf_fwd_kind cand_type = btf_kind canon_type)))
  else
    let same := bool_decide (btf_fwd_kind canon_type = btf_kind cand_type) in
    let* start := read (fun d => Some (start_id (d_btf d))) in
    if same && (canon_id <? start) then do* set_adjust_canon in ret (Z.b2z same)
    else ret (Z.b2z same).

(** The part of [btf_dedup_is_equiv] after the pair has been entered: the two types are
    compared, [rec] being the comparison of the types they refer to. *)
Definition equiv_types (rec : Z -> Z -> dedup_m Z) (cand_type canon_type : btf_type) (canon_id : Z) : dedup_m Z :=
  let cand_kind := btf_kind cand_type in
  let canon_kind := btf_kind canon_type in
  if negb (name_off cand_type =? name_off canon_type) then ret 0 else
  if (btf_is_fwd cand_type || btf_is_fwd canon_type) && negb (bool_decide (cand_kind = canon_kind))
  then equiv_fwd cand_type canon_type canon_id else
  if negb (bool_decide (cand_kind = canon_kind)) then ret 0 else
  match cand_kind with
  | BTF_KIND_INT => let* eq := lift (btf_equal_int_tag cand_type canon_type) in ret (Z.b2z eq)
  | BTF_KIND_ENUM | BTF_KIND_ENUM64 =>
      let* eq := lift (btf_compat_enum cand_type canon_type) in ret (Z.b2z eq)
  | BTF_KIND_FWD | BTF_KIND_FLOAT => ret (Z.b2z (btf_equal_common cand_type canon_type))
  | BTF_KIND_CONST | BTF_KIND_VOLATILE | BTF_KIND_RESTRICT | BTF_KIND_PTR | BTF_KIND_TYPEDEF
  | BTF_KIND_FUNC | BTF_KIND_TYPE_TAG =>
      if negb (info cand_type =? info canon_type) then ret 0
      else rec (t_type cand_type) (t_type canon_type)
  | BTF_KIND_ARRAY =>
      let* ok := lift (btf_compat_array cand_type canon_type) in
      if negb ok then ret 0 else
      let* cand_arr := lift (btf_array cand_type) in
      let* canon_arr := lift (btf_array canon_type) in
      let* eq := rec (array_index_type cand_arr) (array_index_type canon_arr) in
      if eq <=? 0 then ret eq else rec (array_type cand_arr) (array_type canon_arr)
  | BTF_KIND_STRUCT | BTF_KIND_UNION =>
      let* ok := lift (btf_shallow_equal_struct cand_type canon_type) in
      if negb ok then ret 0 else
      equiv_elems (Z.to_nat (btf_vlen cand_type)) 0
        (fun i => m1 ← btf_member cand_type i; m2 ← btf_member canon_type i;
                  Some (member_type m1, member_type m2)) rec
  | BTF_KIND_FUNC_PROTO =>
      let* ok := lift (btf_compat_fnproto cand_type canon_type) in
      if negb ok then ret 0 else
      let* eq := rec (t_type cand_type) (t_type canon_type) in
      if eq <=? 0 then ret eq else
      equiv_elems (Z.to_nat (btf_vlen cand_type)) 0
        (fun i => p1 ← btf_param cand_type i; p2 ← btf_param canon_type i;
                  Some (param_type p1, param_type p2)) rec
  | BTF_KIND_LOC_PARAM => let* eq := lift (btf_equal_loc_param cand_type canon_type) in ret (Z.b2z eq)
  | BTF_KIND_LOC_PROTO | BTF_KIND_LOCSEC => ret 0
  | _ => ret (- EINVAL)
  end.

Fixpoint btf_dedup_is_equiv (fuel : nat) (cand_id canon_id : Z) : dedup_m Z :=
  match fuel with
  | O => diverge
  | S fuel =>
      let* cand_root := resolve_type_id cand_id in
      let* canon_root := resolve_type_id canon_id in
      if cand_root =? canon_root then ret 1 else
      let* canon_id := resolve_fwd_id canon_id in
      let* hypot_type_id := hypot_at canon_id in
      if hypot_type_id <=? BTF_MAX_NR_TYPES then
        if hypot_type_id =? cand_id then ret 1 else
        let* same := identical_types hypot_type_id cand_id 16 in
        if (same : bool) then ret 1 else ret 0
      else
      let* err := btf_dedup_hypot_map_add canon_id cand_id in
      if nonzero err then ret (- ENOMEM) else
      let* cand_type := type_of cand_id in
      let* canon_type := type_of canon_id in
      equiv_types (btf_dedup_is_equiv fuel) cand_type canon_type canon_id
  end.

(** Each call that goes on to further calls enters a type into the hypothetical map. *)
Definition is_equiv (cand_id canon_id : Z) : dedup_m Z :=
  fun d => btf_dedup_is_equiv (S (length (hypot_map d))) cand_id canon_id d.

(** ** Structures, unions and typedefs *)
Definition kind_at (type_id : Z) : dedup_m btf_kind_t :=
  read (fun d => t ← btf__type_by_id (d_btf d) type_id; Some (btf_kind t)).

Definition is_fwd_kind (k : btf_kind_t) : bool := bool_decide (k = BTF_KIND_FWD).
Definition is_composite_kind (k : btf_kind_t) : bool :=
  match k with BTF_KIND_STRUCT | BTF_KIND_UNION => true | _ => false end.

(** The representatives of the two types of an entry, with their kinds. *)
Definition merge_roots (t_id c_id : Z) (t_kind c_kind : btf_kind_t) : dedup_m unit :=
  do* (if negb (is_fwd_kind t_kind) && is_fwd_kind c_kind then map_set c_id t_id else ret tt) in
  let* adjust := read (fun d => Some (hypot_adjust_canon d)) in
  if (adjust : bool) then ret tt else
  do* (if is_fwd_kind t_kind && negb (is_fwd_kind c_kind) then map_set t_id c_id else ret tt) in
  if is_composite_kind t_kind && negb (is_fwd_kind c_kind) then
    let* c_mapped := is_type_mapped c_id in
    if negb c_mapped then ret tt else
    let* t_mapped := is_type_mapped t_id in
    if (t_mapped : bool) then ret tt else map_set t_id c_id
  else ret tt.

(** One entry of the hypothetical map. *)
Definition merge_entry (canon_type_id : Z) : dedup_m unit :=
  let* targ_type_id := hypot_at canon_type_id in
  let* t_id := resolve_type_id targ_type_id in
  let* c_id := resolve_type_id canon_type_id in
  let* t_kind := kind_at t_id in
  let* c_kind := kind_at c_id in
  merge_roots t_id c_id t_kind c_kind.

Fixpoint merge_entries (l : list Z) : dedup_m unit :=
  match l with
  | [] => ret tt
  | canon_type_id :: l => do* merge_entry canon_type_id in merge_entries l
  end.

Definition btf_dedup_merge_hypot_map : dedup_m unit := fun d => merge_entries (hypot_list d) d.

(** The candidates of a structure: an error, or the representative. *)
Fixpoint struct_cands (type_id : Z) (t : btf_type) (kind : btf_kind_t) (cands : list Z) (new_id : Z) :
  dedup_m (result Z) :=
  match cands with
  | [] => ret (Ok new_id)
  | cand_id :: cands =>
      let* cand_type := type_of cand_id in
      let* same := lift (btf_equal_by_kind t cand_type kind) in
      if negb same then struct_cands type_id t kind cands new_id else
      do* btf_dedup_clear_hypot_map in
      let* eq := is_equiv type_id cand_id in
      if eq <? 0 then ret (Err (- eq)) else
      if eq =? 0 then struct_cands type_id t kind cands new_id else
      do* btf_dedup_merge_hypot_map in
      let* adjust := read (fun d => Some (hypot_adjust_canon d)) in
      if (adjust : bool) then struct_cands type_id t kind cands new_id else ret (Ok cand_id)
  end.

Definition btf_dedup_struct_type (type_id : Z) : dedup_m Z :=
  let* m := map_at type_id in
  if m <=? BTF_MAX_NR_TYPES then ret 0 else
  let* t := type_of type_id in
  let kind := btf_kind t in
  match kind with
  | BTF_KIND_STRUCT | BTF_KIND_UNION | BTF_KIND_TYPEDEF =>
      let* h := lift (btf_hash_by_kind t kind) in
      let* cands := dedup_cands h in
      let* r := struct_cands type_id t kind cands type_id in
      match r with
      | Err e => ret (- e)
      | Ok new_id => set_canon h type_id new_id
      end
  | _ => ret 0
  end.

Definition btf_dedup_struct_types : dedup_m Z := for_types nonzero btf_dedup_struct_type.

(** ** Forward declarations *)

(** An insertion into the table of names, whose hash function is the identity. *)
Definition names_insert (names : hashmap) (name_off v : Z) (strategy : hashmap_insert_strategy) :
  dedup_m (Z * hashmap) :=
  fun d => let r := hashmap_insert (C := int_ctx) names name_off v strategy (d_oracle d) in
           Some ((ins_ret r, ins_map r), set_table d (dedup_table d) (ins_oracle r)).

Fixpoint btf_dedup_fill_unique_names_map (n : nat) (type_id : Z) (names : hashmap) : dedup_m (Z * hashmap) :=
  match n with
  | O => ret (0, names)
  | S n =>
      let* t := type_of type_id in
      if negb (btf_is_composite t) then btf_dedup_fill_unique_names_map n (type_id + 1) names else
      let* m := map_at type_id in
      if negb (type_id =? m) then btf_dedup_fill_unique_names_map n (type_id + 1) names else
      let* r := names_insert names (name_off t) type_id HASHMAP_ADD in
      let* r := (if r.1 =? - EEXIST then names_insert r.2 (name_off t) 0 HASHMAP_SET else ret r) in
      if nonzero r.1 then ret r else btf_dedup_fill_unique_names_map n (type_id + 1) r.2
  end.

Definition btf_dedup_resolve_fwd (names : hashmap) (type_id : Z) : dedup_m Z :=
  let* t := type_of type_id in
  if negb (btf_is_fwd t) then ret 0 else
  let* m := map_at type_id in
  if negb (type_id =? m) then ret 0 else
  match hashmap_find (C := int_ctx) names (name_off t) with
  | None => ret 0
  | Some cand_id =>
      if cand_id =? 0 then ret 0 else
      let* cand_t := type_of cand_id in
      if (btf_is_struct cand_t && btf_kflag t) || (btf_is_union cand_t && negb (btf_kflag t))
      then ret 0
      else do* map_set type_id cand_id in ret 0
  end.

Definition btf_dedup_resolve_fwds : dedup_m Z :=
  fun d =>
    let '(r, o) := hashmap__new (d_oracle d) in
    let d := set_table d (dedup_table d) o in
    match r with
    | Err e => ret (- e) d
    | Ok names =>
        (let* r := btf_dedup_fill_unique_names_map (Z.to_nat (btf__type_cnt (d_btf d) - 1)) 1 names in
         if r.1 <? 0 then ret r.1 else for_types negative (btf_dedup_resolve_fwd r.2)) d
    end.

(** ** Reference types *)
Definition field_at (type_id off : Z) : dedup_m Z :=
  read (fun d => t ← btf_type_by_id (d_btf d) type_id; type_word t off).

(** The identifiers at the given places of a type are deduplicated and replaced; the
    result is 0 or an error. *)
Fixpoint ref_fields (rec : Z -> dedup_m Z) (type_id : Z) (offs : list Z) : dedup_m Z :=
  match offs with
  | [] => ret 0
  | off :: offs =>
      let* id := field_at type_id off in
      let* ref_type_id := rec id in
      if ref_type_id <? 0 then ret ref_type_id else
      do* word_set type_id off ref_type_id in ref_fields rec type_id offs
  end.

(** The identifiers of a reference type, in the order in which they are deduplicated. *)
Definition ref_offs (t : btf_type) : option (list Z) :=
  match btf_kind t with
  | BTF_KIND_CONST | BTF_KIND_VOLATILE | BTF_KIND_RESTRICT | BTF_KIND_PTR | BTF_KIND_FUNC
  | BTF_KIND_TYPE_TAG | BTF_KIND_DECL_TAG => Some [8]
  | BTF_KIND_ARRAY => Some [12; 16]
  | BTF_KIND_FUNC_PROTO => Some (8 :: in_elems (btf_vlen t) 12 8 [4])
  | BTF_KIND_LOC_PROTO => Some (in_elems (btf_vlen t) 12 4 [0])
  | _ => None
  end.

Fixpoint btf_dedup_ref_type (fuel : nat) (type_id : Z) : dedup_m Z :=
  match fuel with
  | O => diverge
  | S fuel =>
      let* m := map_at type_id in
      if m =? BTF_IN_PROGRESS_ID then ret (- ELOOP) else
      if m <=? BTF_MAX_NR_TYPES then let* id := resolve_type_id type_id in ret (s32 id) else
      let* t := type_of type_id in
      do* map_set type_id BTF_IN_PROGRESS_ID in
      match ref_offs t with
      | None => ret (- EINVAL)
      | Some offs =>
          let* err := ref_fields (btf_dedup_ref_type fuel) type_id offs in
          if err <? 0 then ret err else
          let* t := type_of type_id in
          let* h := lift (hash_of_kind t) in
          match h with
          | Err e => ret (- e)
          | Ok h =>
              let* cands := dedup_cands h in
              let* new_id := find_equal t cands type_id in
              let* err := set_canon h type_id new_id in
              if nonzero err then ret err else ret (s32 new_id)
          end
      end
  end.

Definition ref_type (type_id : Z) : dedup_m Z :=
  fun d => btf_dedup_ref_type (S (length (d_map d))) type_id d.

Definition btf_dedup_ref_types : dedup_m Z :=
  let* r := for_types negative ref_type in
  if r <? 0 then ret r else
  do* modify (fun d => Some (set_table d hashmap__init (d_oracle d))) in ret 0.
End Dedup.

(** ** Strings *)

(** One string offset: a string of the base keeps its offset there, another one gets its
    offset in the new set. *)
Definition strs_dedup_remap_str_off (type_id off : Z) : dedup_m Z :=
  let* str_off := field_at type_id off in
  let* start := read (fun d => Some (start_str_off (d_btf d))) in
  if (str_off =? 0) || (str_off <? start) then ret 0 else
  let* p := read (fun d => btf__str_by_offset (d_btf d) str_off) in
  let* s := lift (cstr p) in
  let* err := (fun d =>
    match base_btf (d_btf d) with
    | None => Some (- ENOENT, d)
    | Some base =>
        '(err, base, o) ← btf__find_str base s (d_oracle d);
        Some (err, set_strs_state d (set_base (d_btf d) (Some base)) (d_strs_set d) o)
    end) in
  if 0 <=? err then do* word_set type_id off err in ret 0 else
  if negb (err =? - ENOENT) then ret err else
  let* r := (fun d =>
    set ← d_strs_set d;
    '(r, set, o) ← strset__add_str set (PtrExt s) true (d_oracle d);
    Some (r, set_strs_state d (d_btf d) (Some set) o)) in
  if r <? 0 then ret r else do* word_set type_id off (u32 (start + r)) in ret 0.

(** The fields an iterator gives, until it ends. *)
Fixpoint for_fields (fuel : nat) (it : btf_field_iter) (f : Z -> dedup_m Z) : dedup_m Z :=
  match fuel with
  | O => diverge
  | S fuel =>
      match btf_field_iter_next it with
      | (None, _) => ret 0
      | (Some off, it) => let* r := f off in if nonzero r then ret r else for_fields fuel it f
      end
  end.

(** All fields of one sort of a type; the fuel is enough for any type. *)
Definition for_type_fields (iter_kind : btf_field_iter_kind) (f : Z -> Z -> dedup_m Z) (type_id : Z) :
  dedup_m Z :=
  let* t := type_of type_id in
  match btf_field_iter_init t iter_kind with
  | None => ret (- EINVAL)
  | Some it => for_fields (S (length (kind_fields iter_kind (btf_kind t) (btf_vlen t)))) it (f type_id)
  end.

Definition btf_for_each_str_off (f : Z -> Z -> dedup_m Z) : dedup_m Z :=
  for_types nonzero (for_type_fields BTF_FIELD_ITER_STRS f).

(** The new set takes the place of the strings. *)
Definition install_strs (d : btf_dedup) : option btf_dedup :=
  set ← d_strs_set d;
  let b := set_strs (d_btf d) set (u32 (strset__data_size set)) in
  Some (set_strs_state d
    (Btf (hdr b) (raw_data b) (raw_data_swapped b) (raw_size b) (swapped_endian b) (types_data b)
       (types_data_cap b) (type_offs b) (type_offs_cap b) (nr_types b) (named_start_id b) (base_btf b)
       (start_id b) (start_str_off b) (strs_data b) (strs_set b) true (modifiable b)
       (has_hdr_extra b) (layout b) (ptr_sz b)) None (d_oracle d)).

Definition drop_strs (d : btf_dedup) : option btf_dedup :=
  Some (set_strs_state d (d_btf d) None (d_oracle d)).

Definition btf_dedup_strings : dedup_m Z :=
  fun d =>
    if strs_deduped (d_btf d) then ret 0 d else
    '(r, o) ← strset__new BTF_MAX_STR_OFFSET None (d_oracle d);
    let d := set_strs_state d (d_btf d) (match r with Ok set => Some set | Err _ => None end) o in
    match r with
    | Err e => ret (- e) d
    | Ok set =>
        (let* err := (fun d =>
           match base_btf (d_btf d) with
           | Some _ => Some (0, d)
           | None =>
               set ← d_strs_set d;
               '(r, set, o) ← strset__add_str set (PtrExt []) true (d_oracle d);
               Some (r, set_strs_state d (d_btf d) (Some set) o)
           end) in
         if err <? 0 then do* modify drop_strs in ret err else
         let* err := btf_for_each_str_off strs_dedup_remap_str_off in
         if nonzero err then do* modify drop_strs in ret err else
         do* modify install_strs in ret 0) d
    end.

(** ** Compaction *)

(** [hypot_map[i] = f i] for [i], [i + 1], ... *)
Fixpoint fill_hypot (n : nat) (i : Z) (f : Z -> Z) (m : list Z) : option (list Z) :=
  match n with
  | O => Some m
  | S n => m ← array_set m i (f i); fill_hypot n (i + 1) f m
  end.

Definition init_remap (b : btf) (m : list Z) : option (list Z) :=
  m ← array_set m 0 0;
  m ← fill_hypot (Z.to_nat (start_id b - 1)) 1 (fun id => id) m;
  fill_hypot (Z.to_nat (nr_types b)) (start_id b) (fun _ => BTF_UNPROCESSED_ID) m.

(** The words of type [id] are moved to the byte offset [p], and the index of type
    [next_type_id] points there. *)
Definition move_type (id next_type_id p len : Z) (d : btf_dedup) : option btf_dedup :=
  let b := d_btf d in
  off ← znth (type_offs b) (id - start_id b);
  ws ← slice (types_data b) (off / 4) (len / 4);
  m ← array_set (hypot_map d) id next_type_id;
  offs ← array_set (type_offs b) (next_type_id - start_id b) p;
  let b := set_types b (memcpy (types_data b) (p / 4) ws) (types_data_cap b) offs (type_offs_cap b) (nr_types b) in
  Some (set_hypot (set_d_btf d b) m (hypot_list d) (hypot_adjust_canon d)).

(** An error or 0, with [p] and [next_type_id]. *)
Fixpoint compact_loop (n : nat) (id p next_type_id : Z) : dedup_m (Z * Z * Z) :=
  match n with
  | O => ret (0, p, next_type_id)
  | S n =>
      let* m := map_at id in
      if negb (m =? id) then compact_loop n (id + 1) p next_type_id else
      let* t := read (fun d => btf__type_by_id (d_btf d) id) in
      let* layout := read (fun d => Some (btf_layout_of (d_btf d))) in
      let len := btf_type_size layout t in
      if len <? 0 then ret (len, p, next_type_id) else
      do* modify (move_type id next_type_id p len) in
      compact_loop n (id + 1) (p + len) (next_type_id + 1)
  end.

(** The index and the type section are cut to what is left, and the header is updated. *)
Definition shrink_types (p next_type_id : Z) (b : btf) : btf :=
  let nr := next_type_id - start_id b in
  let b := set_types b (ztake (p / 4) (types_data b)) (types_data_cap b) (ztake nr (type_offs b)) nr nr in
  let h := hdr b in
  set_hdr b (BtfHeader (hdr_magic h) (hdr_version h) (hdr_flags h) (hdr_len h) (type_off h) p
               (str_off h) (str_len h) (layout_off h) (layout_len h)).

Definition update_sections (b : btf) : btf :=
  let h := hdr b in
  let layout_off' := match layout b with Some _ => u32 (type_off h + type_len h) | None => layout_off h end in
  let h' := BtfHeader (hdr_magic h) (hdr_version h) (hdr_flags h) (hdr_len h) (type_off h) (type_len h)
              (u32 (type_off h + type_len h + layout_len h)) (str_len h) layout_off' (layout_len h) in
  let b := set_hdr b h' in
  set_cache b (raw_data b) (raw_data_swapped b)
    (u32 (hdr_len h + type_off h + type_len h + layout_len h + str_len h)) (swapped_endian b).

Definition btf_dedup_compact_types : dedup_m Z :=
  fun d =>
    m ← init_remap (d_btf d) (hypot_map d);
    let d := set_hypot d m (hypot_list d) (hypot_adjust_canon d) in
    (let* r := compact_loop (Z.to_nat (nr_types (d_btf d))) (start_id (d_btf d)) 0 (start_id (d_btf d)) in
     let '(err, p, next_type_id) := r in
     if err <? 0 then ret err else
     do* modify (fun d => Some (set_d_btf d (shrink_types p next_type_id (d_btf d)))) in
     fun d =>
       let cap := type_offs_cap (d_btf d) in
       let '(ok, o) := alloc_array cap 4 (d_oracle d) in
       let d := set_table d (dedup_table d) o in
       if negb (cap =? 0) && negb ok then ret (- ENOMEM) d
       else ret 0 (set_d_btf d (update_sections (d_btf d)))) d.

(** ** Renumbering *)
Definition remap_field (type_id off : Z) : dedup_m Z :=
  let* id := field_at type_id off in
  let* resolved_id := resolve_type_id id in
  let* new_id := hypot_at resolved_id in
  if BTF_MAX_NR_TYPES <? new_id then ret (- EINVAL) else
  do* word_set type_id off new_id in ret 0.

Definition btf_dedup_remap_types : dedup_m Z :=
  for_types nonzero (for_type_fields BTF_FIELD_ITER_IDS remap_field).

(** ** The whole *)

(** The passes one after the other, while they succeed. *)
Fixpoint run_passes (stop : Z -> bool) (passes : list (dedup_m Z)) : dedup_m Z :=
  match passes with
  | [] => ret 0
  | pass :: passes => let* err := pass in if stop err then ret err else run_passes stop passes
  end.

Definition dedup_passes `{C : hash_ctx} : dedup_m Z :=
  run_passes negative [btf_dedup_strings; btf_dedup_prim_types; btf_dedup_struct_types; btf_dedup_resolve_fwds;
                       btf_dedup_ref_types; btf_dedup_compact_types; btf_dedup_remap_types].

(** The [opts] are valid; [btf_dedup_new] only reads the object, before it is made
    modifiable. *)
Definition btf__dedup (force_collisions : bool) (b : btf) (o : oracle) : btf_res :=
  '(r, o) ← btf_dedup_new b o;
  match r with
  | Err _ => Some (- EINVAL, b, o)
  | Ok d =>
      '(err, b, o) ← btf_ensure_modifiable b o;
      if nonzero err then Some (err, b, o) else
      let d := set_strs_state d b None o in
      '(err, d) ← btf_dedup_prep (C := dedup_ctx force_collisions) d;
      if nonzero err then Some (err, d_btf d, d_oracle d) else
      '(err, d) ← dedup_passes (C := dedup_ctx force_collisions) d;
      Some (err, d_btf d, d_oracle d)
  end.
