(* ===== verification/DedupState.v ===== *)
(** * DedupState: the canonical map, the candidates and the state of [btf_dedup]

    What the proofs about the passes of [Dedup] share.  A total correctness statement
    about an operation is [wp]: it returns, with a result and a state for which the
    postcondition holds.  The canonical map is a forest: [resolve_type_id] follows it to a
    root, and every assignment of the passes links a type to a root.  The state is well
    formed ([state_ok]) when the map and the hypothetical map are defined for all types,
    the map is such a forest, every type is represented by one that may stand for it
    ([rep_ok]), and the candidates of the table are types. *)
From S2P Require Import Prelude Hashmap Mem Strset BtfTypes Btf BtfFind BtfParse BtfRaw BtfWrite DedupTypes Dedup.
Open Scope Z_scope.
Open Scope dedup_scope.

(** ** Total correctness *)
Definition wp {A} (m : dedup_m A) (Q : A -> btf_dedup -> Prop) (d : btf_dedup) : Prop :=
  exists a d', m d = Some (a, d') /\ Q a d'.

Lemma wp_ret {A} (a : A) Q d : Q a d -> wp (ret a) Q d.
Proof. intros H. by exists a, d. Qed.

Lemma wp_bind {A B} (m : dedup_m A) (k : A -> dedup_m B) Q d :
  wp m (fun a d => wp (k a) Q d) d -> wp (bind m k) Q d.
Proof. intros (a & d1 & H1 & b & d2 & H2 & HQ). exists b, d2. split; [|done]. unfold bind. by rewrite H1. Qed.

Lemma wp_mono {A} (m : dedup_m A) (Q Q' : A -> btf_dedup -> Prop) d :
  wp m Q d -> (forall a d', Q a d' -> Q' a d') -> wp m Q' d.
Proof. intros (a & d' & H & HQ) HQQ. exists a, d'. auto. Qed.

Lemma wp_read {A} (f : btf_dedup -> option A) a Q d : f d = Some a -> Q a d -> wp (read f) Q d.
Proof. intros H HQ. exists a, d. split; [|done]. unfold read. by rewrite H. Qed.

Lemma wp_lift {A} (m : option A) a Q d : m = Some a -> Q a d -> wp (lift m) Q d.
Proof. intros H HQ. by apply (wp_read _ a). Qed.

Lemma wp_modify f d' Q d : f d = Some d' -> Q tt d' -> wp (modify f) Q d.
Proof. intros H HQ. exists tt, d'. split; [|done]. unfold modify. by rewrite H. Qed.

(** ** The canonical map as a forest *)

(** Following [m] from [x] ends in [r]. *)
Definition resolves (m : list Z) (x r : Z) : Prop := exists fuel, resolve_loop fuel m x = Some r.

Definition acyclic (m : list Z) : Prop := forall x, 0 <= x < zlen m -> exists r, resolves m x r.

Definition is_root (m : list Z) (x : Z) : Prop :=
  exists v, znth m x = Some v /\ (BTF_MAX_NR_TYPES < v \/ v = x).

(** The types a map can hold: all of them are its indices. *)
Definition map_range (m : list Z) : Prop :=
  forall x v, znth m x = Some v -> 0 <= v < zlen m \/ BTF_MAX_NR_TYPES < v.

Lemma resolve_loop_mono fuel fuel' m x r :
  (fuel <= fuel')%nat -> resolve_loop fuel m x = Some r -> resolve_loop fuel' m x = Some r.
Proof.
  revert fuel' x. induction fuel as [|fuel IH]; intros fuel' x Hle; [done |].
  destruct fuel' as [|fuel']; [lia |]. cbn [resolve_loop]. destruct (znth m x) as [v|]; [|done].
  cbn [mbind option_bind]. case_if; [|done]. apply IH. lia.
Qed.

Lemma resolves_det m x r r' : resolves m x r -> resolves m x r' -> r = r'.
Proof.
  intros [k Hk] [k' Hk']. apply (resolve_loop_mono _ (max k k')) in Hk; [|lia].
  apply (resolve_loop_mono _ (max k k')) in Hk'; [|lia]. congruence.
Qed.

(** One step of the loop. *)
Lemma resolves_root m x : is_root m x -> resolves m x x.
Proof.
  intros (v & Hv & Hr). exists 1%nat. cbn [resolve_loop]. rewrite Hv. cbn [mbind option_bind].
  case_if; [|done]. bools. lia.
Qed.

Lemma resolves_step m x y r :
  znth m x = Some y -> y <= BTF_MAX_NR_TYPES -> y <> x -> resolves m x r <-> resolves m y r.
Proof.
  intros Hx Hy Hne. split; intros [k Hk].
  - destruct k as [|k]; [done |]. cbn [resolve_loop] in Hk. rewrite Hx in Hk. cbn [mbind option_bind] in Hk.
    replace (_ && _) with true in Hk by lia. by exists k.
  - exists (S k). cbn [resolve_loop]. rewrite Hx. cbn [mbind option_bind]. by replace (_ && _) with true by lia.
Qed.

Lemma root_or_step m x :
  0 <= x < zlen m -> is_root m x \/ exists y, znth m x = Some y /\ y <= BTF_MAX_NR_TYPES /\ y <> x.
Proof.
  intros Hx. destruct (znth_is_Some m x Hx) as [v Hv].
  destruct (decide (BTF_MAX_NR_TYPES < v)); [left; exists v; auto |].
  destruct (decide (v = x)) as [->|]; [left; exists x; auto |]. right. exists v. split_and!; [done | lia | done].
Qed.

Lemma resolves_is_root m x r : resolves m x r -> is_root m r.
Proof.
  intros [k Hk]. revert x Hk. induction k as [|k IH]; intros x Hk; [done |]. cbn [resolve_loop] in Hk.
  destruct (znth m x) as [v|] eqn:Hv; [|done]. cbn [mbind option_bind] in Hk.
  destruct (_ && _) eqn:Hc; [by apply (IH v) |]. simplify_eq. exists v. split; [done |].
  apply andb_false_iff in Hc. lia.
Qed.

Lemma root_range m x : is_root m x -> 0 <= x < zlen m.
Proof. intros (v & Hv & _). by apply znth_Some in Hv. Qed.

Lemma resolves_range m x r : resolves m x r -> 0 <= x < zlen m.
Proof.
  intros [[|k] Hk]; [done |]. cbn [resolve_loop] in Hk. destruct (znth m x) as [v|] eqn:Hv; [|done].
  by apply znth_Some in Hv.
Qed.

(** Induction along the way to the root. *)
Lemma resolves_ind m (P : Z -> Z -> Prop) :
  (forall x, is_root m x -> P x x) ->
  (forall x y r, znth m x = Some y -> y <= BTF_MAX_NR_TYPES -> y <> x -> resolves m y r -> P y r -> P x r) ->
  forall x r, resolves m x r -> P x r.
Proof.
  intros H0 H1 x r [k Hk]. revert x Hk. induction k as [|k IH]; intros x Hk; [done |].
  destruct (root_or_step m x) as [Hr|(y & Hy & Hle & Hne)]; [by apply (resolves_range m x r); exists (S k) | |].
  - rewrite (resolves_det m x r x); [by apply H0 | by exists (S k) | by apply resolves_root].
  - cbn [resolve_loop] in Hk. rewrite Hy in Hk. cbn [mbind option_bind] in Hk.
    replace (_ && _) with true in Hk by lia. apply (H1 x y r); [done..| by exists k | by apply IH].
Qed.

(** Distinct indices of an array are not more than its elements. *)
Lemma indices_length (l : list Z) (n : nat) :
  NoDup l -> Forall (fun z => 0 <= z < Z.of_nat n) l -> (length l <= n)%nat.
Proof.
  intros Hl Hr. replace n with (length (seqZ 0 (Z.of_nat n))) by (rewrite length_seqZ; lia).
  apply submseteq_length, NoDup_submseteq; [done |]. intros z Hz. rewrite Forall_forall in Hr.
  apply elem_of_seqZ. specialize (Hr z Hz). lia.
Qed.

(** A way to the root visits no type twice, so the fuel of [resolve_type_id] is enough. *)
Lemma resolve_enough m x r : resolves m x r -> resolve_loop (S (length m)) m x = Some r.
Proof.
  intros Hres. assert (Hl : exists l, NoDup l /\ Forall (fun z => 0 <= z < zlen m) l /\
    resolve_loop (length l) m x = Some r /\ Forall (fun z => resolve_loop (length l) m z = Some r) l).
  { revert x r Hres. apply resolves_ind.
    - intros x Hx. pose proof (root_range m x Hx) as Hr. destruct Hx as (v & Hv & Hx).
      assert (H1 : resolve_loop 1 m x = Some x).
      { cbn. rewrite Hv. cbn. case_if; [|done]. bools. lia. }
      exists [x]. split_and!; [apply NoDup_singleton | by constructor | done | by constructor].
    - intros x y r Hx Hle Hne _ (l & Hnd & Hall & Hy & Hz). destruct (decide (x ∈ l)) as [Hin|Hin].
      { exists l. split_and!; [done.. | |done]. rewrite Forall_forall in Hz. by apply Hz. }
      assert (HS : resolve_loop (S (length l)) m x = Some r).
      { cbn [resolve_loop]. rewrite Hx. cbn [mbind option_bind]. by replace (_ && _) with true by lia. }
      exists (x :: l). split_and!; [by apply NoDup_cons | | done |].
      + constructor; [by apply znth_Some in Hx | done].
      + constructor; [done |]. eapply Forall_impl; [exact Hz |]. intros z. apply resolve_loop_mono. cbn. lia. }
  destruct Hl as (l & Hnd & Hall & Hx & _). eapply resolve_loop_mono; [|exact Hx].
  pose proof (indices_length l (length m) Hnd Hall). lia.
Qed.

Lemma wp_resolve x r Q d :
  resolves (d_map d) x r -> Q r d -> wp (resolve_type_id x) Q d.
Proof. intros H HQ. apply (wp_read _ r); [by apply resolve_enough | done]. Qed.

(** *** Assignments *)
Lemma array_set_spec (l : list Z) i v : 0 <= i < zlen l -> array_set l i v = Some (zupd l i v).
Proof. intros H. unfold array_set. by replace (_ && _) with true by lia. Qed.

Lemma wp_map_at x v Q d : znth (d_map d) x = Some v -> Q v d -> wp (map_at x) Q d.
Proof. intros H HQ. by apply (wp_read _ v). Qed.

Lemma wp_map_set x v Q d :
  0 <= x < zlen (d_map d) -> Q tt (set_d_map d (zupd (d_map d) x v)) -> wp (map_set x v) Q d.
Proof.
  intros Hx HQ. apply (wp_modify _ (set_d_map d (zupd (d_map d) x v))); [|done].
  by rewrite array_set_spec by done.
Qed.

Lemma root_upd_ne m x v y : x <> y -> is_root m y -> is_root (zupd m x v) y.
Proof. intros Hne (w & Hw & Hr). exists w. by rewrite znth_zupd_ne by done. Qed.

(** After an assignment to [x], a type has the root it had, or that of [x]. *)
Lemma resolves_upd m x v rx :
  resolves (zupd m x v) x rx ->
  forall z r, resolves m z r -> exists r', resolves (zupd m x v) z r' /\ (r' = r \/ r' = rx).
Proof.
  intros Hrx. apply resolves_ind.
  - intros z Hz. destruct (decide (x = z)) as [<-|Hne]; [by exists rx; auto |].
    exists z. split; [by apply resolves_root, root_upd_ne | by left].
  - intros z y r Hz Hle Hne _ (r' & Hr' & Hor). destruct (decide (x = z)) as [<-|Hxz]; [by exists rx; auto |].
    exists r'. split; [|done]. apply (resolves_step _ z y); [by rewrite znth_zupd_ne | done..].
Qed.

(** Linking a root changes the roots of exactly the types it was the root of. *)
Lemma resolves_link m x v rx :
  is_root m x -> resolves (zupd m x v) x rx ->
  forall z r, resolves m z r -> resolves (zupd m x v) z (if r =? x then rx else r).
Proof.
  intros Hroot Hrx. apply resolves_ind.
  - intros z Hz. destruct (decide (x = z)) as [<-|Hne]; [by rewrite Z.eqb_refl |].
    replace (z =? x) with false by lia. by apply resolves_root, root_upd_ne.
  - intros z y r Hz Hle Hne Hyr IH. destruct (decide (x = z)) as [<-|Hxz].
    + destruct Hroot as (w & Hw & [?| ->]); rewrite Hz in Hw; simplify_eq; lia.
    + apply (resolves_step _ z y); [by rewrite znth_zupd_ne | done..].
Qed.

Lemma resolves_upd_self m x v :
  0 <= x < zlen m -> BTF_MAX_NR_TYPES < v \/ v = x -> resolves (zupd m x v) x x.
Proof. intros Hx Hv. apply resolves_root. exists v. by rewrite znth_zupd_eq. Qed.

(** The target of an assignment is a root. *)
Lemma resolves_upd_root m x y :
  0 <= x < zlen m -> is_root m y -> y <> x -> y <= BTF_MAX_NR_TYPES -> resolves (zupd m x y) x y.
Proof.
  intros Hx Hy Hne Hle. apply (resolves_step _ x y); [by rewrite znth_zupd_eq | done.. |].
  apply resolves_root. by apply root_upd_ne.
Qed.

(** A root is linked to a type of another tree. *)
Lemma resolves_avoid m x v z r : is_root m x -> resolves m z r -> r <> x -> resolves (zupd m x v) z r.
Proof.
  intros Hx Hr. pattern z, r. revert z r Hr. apply resolves_ind.
  - intros z Hz Hne. by apply resolves_root, root_upd_ne.
  - intros z y r Hz Hle Hne _ IH Hrx. destruct (decide (x = z)) as [<-|Hxz].
    + destruct Hx as (w & Hw & [?| ->]); rewrite Hz in Hw; simplify_eq; lia.
    + apply (resolves_step _ z y); [by rewrite znth_zupd_ne | done.. |]. by apply IH.
Qed.

Lemma resolves_upd_tree m x y r :
  is_root m x -> resolves m y r -> r <> x -> y <= BTF_MAX_NR_TYPES -> resolves (zupd m x y) x r.
Proof.
  intros Hx Hy Hr Hle. destruct (decide (y = x)) as [->|Hne].
  { destruct Hr. eapply resolves_det; [exact Hy | by apply resolves_root]. }
  apply (resolves_step _ x y); [rewrite znth_zupd_eq; [done | by apply root_range] | done.. |].
  by apply resolves_avoid.
Qed.

Lemma acyclic_upd m x v rx : acyclic m -> resolves (zupd m x v) x rx -> acyclic (zupd m x v).
Proof.
  intros Ha Hx z Hz. rewrite zlen_zupd in Hz. destruct (Ha z Hz) as [r Hr].
  destruct (resolves_upd m x v rx Hx z r Hr) as (r' & Hr' & _). by exists r'.
Qed.

Lemma map_range_upd m x v :
  map_range m -> 0 <= v < zlen m \/ BTF_MAX_NR_TYPES < v -> map_range (zupd m x v).
Proof.
  intros Hm Hv z w. rewrite zlen_zupd. destruct (decide (0 <= z < zlen m)) as [Hz|Hz].
  - destruct (decide (x = z)) as [->|Hne]; [rewrite znth_zupd_eq by done; by intros [= <-] |].
    rewrite znth_zupd_ne by done. apply Hm.
  - rewrite znth_None by (by rewrite zlen_zupd). done.
Qed.

(** ** The object *)
Definition type_cnt (b : btf) : Z := start_id b + nr_types b.

(** What the deduplication needs of an object: it is well formed, identifiers fit [int],
    and every identifier a type holds is that of a type. *)
Record dedup_btf (b : btf) : Prop := {
  db_ok : btf_ok b;
  db_cnt : type_cnt b <= BTF_MAX_NR_TYPES;
  db_ids : forall id t off w, btf_type_by_id b id = Some t ->
    off ∈ id_fields (btf_kind t) (btf_vlen t) -> type_word t off = Some w -> 0 <= w < type_cnt b
}.

Lemma zdrop_Forall {A} (P : A -> Prop) n l : Forall P l -> Forall P (zdrop n l).
Proof. apply Forall_drop. Qed.

Lemma type_at_u32 ws t :
  Forall is_u32 ws -> type_at ws = Some t ->
  is_u32 (name_off t) /\ is_u32 (info t) /\ is_u32 (size_or_type t) /\ Forall is_u32 (extra t).
Proof.
  destruct ws as [|n [|i [|s e]]]; cbn [type_at]; try done. rewrite !Forall_cons. intros (? & ? & ? & ?) [= <-].
  done.
Qed.

Lemma type_by_id_u32 b id t :
  btf_ok b -> btf_type_by_id b id = Some t ->
  is_u32 (name_off t) /\ is_u32 (info t) /\ is_u32 (size_or_type t) /\ Forall is_u32 (extra t).
Proof.
  revert id. induction b as [b IH] using btf_chain_ind. intros id Hok. rewrite btf_type_by_id_eq.
  apply btf_ok_unfold in Hok as ([cs Hcs] & _ & H1 & _ & Hb).
  case_if; [by intros [= <-] |]. case_if.
  - destruct (base_btf b) as [base|] eqn:Hbase; [|done]. apply (IH base eq_refl id), Hb.
  - destruct (znth (type_offs b) _); [|done]. cbn [mbind option_bind]. apply type_at_u32, zdrop_Forall, Hcs.
Qed.

Lemma btf_type_by_id_range b id t : btf_ok b -> btf_type_by_id b id = Some t -> 0 <= id < type_cnt b.
Proof.
  revert id. induction b as [b IH] using btf_chain_ind. intros id Hok. rewrite btf_type_by_id_eq.
  apply btf_ok_unfold in Hok as ([cs Hcs] & _ & H1 & _ & Hb). unfold type_cnt.
  pose proof (types_count _ _ Hcs). pose proof (zlen_nonneg cs). case_if; [lia |]. case_if.
  - destruct (base_btf b) as [base|] eqn:Hbase; [|done]. destruct Hb as (Hb & Hs & _).
    intros Ht. apply (IH base eq_refl id Hb) in Ht. unfold type_cnt in Ht. lia.
  - destruct (znth (type_offs b) _) as [o|] eqn:Ho; [|done]. intros _. apply znth_Some in Ho.
    rewrite (types_index _ _ Hcs), zlen_offsets in Ho. lia.
Qed.

Lemma btf_ok_start b : btf_ok b -> 1 <= start_id b /\ 0 <= nr_types b.
Proof.
  intros Hok. destruct (btf_ok_unfold b Hok) as ([cs Hcs] & _ & H1 & _).
  pose proof (types_count _ _ Hcs). pose proof (zlen_nonneg cs). lia.
Qed.

Section Object.
Context {b : btf} (Hb : dedup_btf b).

Lemma db_start : 1 <= start_id b /\ 0 <= nr_types b.
Proof. apply btf_ok_start, Hb. Qed.

Lemma db_type_cnt : btf__type_cnt b = type_cnt b.
Proof.
  unfold btf__type_cnt. pose proof db_start. pose proof (db_cnt b Hb). unfold type_cnt, BTF_MAX_NR_TYPES in *.
  by apply u32_small; lia.
Qed.

Lemma db_type id :
  0 <= id < type_cnt b -> exists t, btf_type_by_id b id = Some t /\ type_words_ok t.
Proof.
  intros Hid. destruct (btf_type_by_id_total b id (db_ok b Hb) Hid) as (t & Ht & Hf).
  exists t. split; [done |]. split; [done |]. by apply (type_by_id_u32 b id t (db_ok b Hb)).
Qed.

Lemma db_words id t : btf_type_by_id b id = Some t -> type_words_ok t.
Proof.
  intros Ht. destruct (db_type id) as (t' & Ht' & Hw); [by eapply btf_type_by_id_range; [apply db_ok |] |].
  congruence.
Qed.

Lemma db__type id t : btf_type_by_id b id = Some t -> btf__type_by_id b id = Some t.
Proof.
  intros Ht. pose proof (btf_type_by_id_range b id t (db_ok b Hb) Ht) as Hr. unfold btf__type_by_id.
  fold (btf__type_cnt b). rewrite db_type_cnt. by replace (_ <=? id) with false by lia.
Qed.
End Object.

(** ** Representatives *)

(** [r] may stand for [t]: it consists of the same words, or completes the forward
    declaration [t] of an enumeration, structure or union, or is a typedef, structure or
    union of the same shape.  Structures and unions with a name of which there is a forward
    declaration ([fwd]) may also stand for each other when only their names are the same.
    This says nothing about the types that the identifiers of typedefs, structures and unions
    name: [same_type] of [DedupSame] does. *)
Definition stands_for (fwd : Z -> Prop) (t r : btf_type) : Prop :=
  own_words t = own_words r \/
  match btf_kind t with
  | BTF_KIND_ENUM | BTF_KIND_ENUM64 =>
      btf_is_enum_fwd t = true /\ btf_is_any_enum r = true /\ name_off t = name_off r
  | BTF_KIND_FWD => btf_kind r = btf_fwd_kind t /\ name_off t = name_off r
  | BTF_KIND_STRUCT | BTF_KIND_UNION =>
      btf_kind r = btf_kind t /\ name_off t = name_off r /\ (same_shape t r \/ fwd (name_off t))
  | BTF_KIND_TYPEDEF => same_shape t r
  | _ => False
  end.

Lemma same_shape_refl t : same_shape t t.
Proof. by split. Qed.

Lemma same_shape_trans t1 t2 t3 : same_shape t1 t2 -> same_shape t2 t3 -> same_shape t1 t3.
Proof.
  intros [Hi H] [Hi2 H2]. split; [congruence |]. intros off Ho Hm Hn. rewrite H by done.
  destruct (info_words_cnt t1 t2 Hi) as (Hw & Hk & Hv). apply H2; congruence || (by rewrite <- ?Hw, <- ?Hk, <- ?Hv).
Qed.

Lemma same_words_fields t1 t2 : own_words t1 = own_words t2 ->
  name_off t1 = name_off t2 /\ info t1 = info t2 /\ t_size t1 = t_size t2.
Proof. unfold own_words. intros H. split_and!; congruence. Qed.

Lemma stands_for_refl fwd t : stands_for fwd t t.
Proof. by left. Qed.

Lemma info_derived t1 t2 : info t1 = info t2 ->
  btf_kind t1 = btf_kind t2 /\ btf_vlen t1 = btf_vlen t2 /\ btf_fwd_kind t1 = btf_fwd_kind t2 /\
  btf_is_enum_fwd t1 = btf_is_enum_fwd t2 /\ btf_is_any_enum t1 = btf_is_any_enum t2.
Proof.
  unfold btf_fwd_kind, btf_is_enum_fwd, btf_is_any_enum, btf_kflag, btf_kind, btf_vlen. by intros ->.
Qed.

(** Only the words of the two types matter. *)
Lemma stands_for_words fwd t t' r r' :
  own_words t = own_words t' -> own_words r = own_words r' -> stands_for fwd t r -> stands_for fwd t' r'.
Proof.
  intros Ht Hr [H|H]; [left; congruence |].
  destruct (same_words_fields t t' Ht) as (Hn & Hi & _). destruct (same_words_fields r r' Hr) as (Hn' & Hi' & _).
  destruct (info_derived t t' Hi) as (Hk & _ & Hf & He & _). destruct (info_derived r r' Hi') as (Hk' & _ & _ & _ & Ha).
  assert (Hs : same_shape t r -> same_shape t' r').
  { intros Hs. eapply same_shape_trans; [apply same_words_shape; by symmetry |].
    eapply same_shape_trans; [exact Hs |]. by apply same_words_shape. }
  right. rewrite <- Hk, <- Hn, <- Hn', <- Hk', <- Hf, <- He, <- Ha.
  destruct (btf_kind t); try done; try tauto. all: destruct H as (H1 & H2 & [H3|H3]); auto.
Qed.

Lemma fwd_kind_composite t : btf_fwd_kind t = BTF_KIND_STRUCT \/ btf_fwd_kind t = BTF_KIND_UNION.
Proof. unfold btf_fwd_kind. case_if; auto. Qed.

Lemma enum_fwd_no_words t : btf_is_enum_fwd t = true -> words_cnt t = 0.
Proof.
  unfold btf_is_enum_fwd, btf_is_any_enum, words_cnt. intros H. bools. assert (btf_vlen t = 0) as -> by lia.
  by destruct (btf_kind t).
Qed.

Lemma any_enum_kind t : btf_is_any_enum t = true -> btf_kind t = BTF_KIND_ENUM \/ btf_kind t = BTF_KIND_ENUM64.
Proof. unfold btf_is_any_enum. destruct (btf_kind t); auto; done. Qed.

Lemma stands_for_trans fwd t1 t2 t3 :
  stands_for fwd t1 t2 -> stands_for fwd t2 t3 -> stands_for fwd t1 t3.
Proof.
  intros [H12|H12] H23; [by eapply stands_for_words; [symmetry; exact H12 | reflexivity | exact H23] |].
  destruct H23 as [H23|H23].
  { eapply stands_for_words; [reflexivity | exact H23 |]. by right. }
  right. destruct (btf_kind t1) eqn:H1; try (exfalso; exact H12).
  - destruct H12 as (Hk & Hn & Hs). rewrite Hk in H23. destruct H23 as (Hk' & Hn' & Hs').
    split_and!; [done | congruence |]. rewrite <- Hn in Hs'.
    destruct Hs as [Hs|], Hs' as [Hs'|]; auto. left. by eapply same_shape_trans.
  - destruct H12 as (Hk & Hn & Hs). rewrite Hk in H23. destruct H23 as (Hk' & Hn' & Hs').
    split_and!; [done | congruence |]. rewrite <- Hn in Hs'.
    destruct Hs as [Hs|], Hs' as [Hs'|]; auto. left. by eapply same_shape_trans.
  - destruct H12 as (Hf & Ha & Hn). destruct (any_enum_kind t2 Ha) as [Hk|Hk]; rewrite Hk in H23;
      destruct H23 as (_ & Ha' & Hn'); split_and!; congruence.
  - destruct H12 as (Hk & Hn). destruct (fwd_kind_composite t1) as [Hc|Hc]; rewrite Hc in Hk |- *;
      rewrite Hk in H23; destruct H23 as (Hk' & Hn' & _); split; congruence.
  - destruct (info_words_cnt t1 t2) as (_ & Hk & _); [by apply same_shape_info |].
    rewrite <- Hk, H1 in H23. by eapply same_shape_trans.
  - destruct H12 as (Hf & Ha & Hn). destruct (any_enum_kind t2 Ha) as [Hk|Hk]; rewrite Hk in H23;
      destruct H23 as (_ & Ha' & Hn'); split_and!; congruence.
Qed.

(** What a representative says about the type. *)
Lemma stands_for_fwd fwd t r :
  stands_for fwd t r -> btf_kind r = BTF_KIND_FWD -> btf_kind t = BTF_KIND_FWD /\ own_words t = own_words r.
Proof.
  intros [H|H] Hr.
  - split; [|done]. destruct (same_words_fields t r H) as (_ & Hi & _). destruct (info_derived t r Hi) as (-> & _). done.
  - exfalso. destruct (btf_kind t) eqn:Ht; try exact H.
    + destruct H as (Hk & _). congruence.
    + destruct H as (Hk & _). congruence.
    + destruct H as (_ & [Hk|Hk]%any_enum_kind & _); congruence.
    + destruct H as (Hk & _). destruct (fwd_kind_composite t); congruence.
    + apply same_shape_info in H. destruct (info_words_cnt t r H) as (_ & Hk & _). congruence.
    + destruct H as (_ & [Hk|Hk]%any_enum_kind & _); congruence.
Qed.

Lemma stands_for_composite fwd t r :
  stands_for fwd t r -> btf_is_composite r = true ->
  (btf_kind t = btf_kind r \/ (btf_kind t = BTF_KIND_FWD /\ btf_fwd_kind t = btf_kind r)) /\
  name_off t = name_off r.
Proof.
  intros [H|H] Hr.
  - destruct (same_words_fields t r H) as (Hn & Hi & _). destruct (info_derived t r Hi) as (Hk & _). auto.
  - unfold btf_is_composite in Hr. destruct (btf_kind t) eqn:Ht; try (exfalso; exact H).
    + destruct H as (Hk & Hn & _). auto.
    + destruct H as (Hk & Hn & _). auto.
    + destruct H as (_ & [Hk|Hk]%any_enum_kind & _); rewrite Hk in Hr; discriminate.
    + destruct H as (Hk & Hn). auto.
    + apply same_shape_info in H. destruct (info_words_cnt t r H) as (_ & Hk & _).
      rewrite <- Hk, Ht in Hr. discriminate.
    + destruct H as (_ & [Hk|Hk]%any_enum_kind & _); rewrite Hk in Hr; discriminate.
Qed.

(** The names of which the object has a forward declaration of a structure or union. *)
Definition fwd_name (b : btf) (n : Z) : Prop :=
  exists id t, btf_type_by_id b id = Some t /\ btf_kind t = BTF_KIND_FWD /\ name_off t = n.

(** ** The state *)
Definition mapped (m : list Z) (x : Z) : Prop := exists v, znth m x = Some v /\ v <= BTF_MAX_NR_TYPES.

Lemma mapped_dec m x : {mapped m x} + {~ mapped m x}.
Proof.
  destruct (znth m x) as [v|] eqn:Hv; [destruct (decide (v <= BTF_MAX_NR_TYPES)) as [|Hgt]|].
  - left. by exists v.
  - right. intros (w & Hw & Hle). rewrite Hv in Hw. injection Hw as <-. done.
  - right. intros (w & Hw & _). by rewrite Hv in Hw.
Qed.

(** A type is linked to one that may stand for it.  That one is mapped itself, except for
    structures and unions ([open] is one more exception, within an operation). *)
Record link_ok (b : btf) (m : list Z) (open x v : Z) (tx tv : btf_type) : Prop := {
  link_from : btf_type_by_id b x = Some tx;
  link_to : btf_type_by_id b v = Some tv;
  link_stands : stands_for (fwd_name b) tx tv;
  link_closed : mapped m v \/ v = open \/ btf_is_composite tv = true
}.

Section State.
Context {C : hash_ctx}.

Definition cands_of (d : btf_dedup) (h : Z) : list Z :=
  value <$> hashmap__for_each_key_entry (dedup_table d) h.

(** A candidate is its own representative, unless it is a forward declaration. *)
Definition cand_ok (b : btf) (m : list Z) (id : Z) : Prop :=
  exists t v, btf_type_by_id b id = Some t /\ 0 < id /\ znth m id = Some v /\ v <= BTF_MAX_NR_TYPES /\
    (v = id \/ btf_is_enum_fwd t = true \/ btf_is_fwd t = true).

(** The hypothetical map holds what the list says. *)
Record hypot_ok (b : btf) (m l : list Z) : Prop := {
  hypot_len : zlen m = type_cnt b;
  hypot_ids : Forall (fun id => 0 <= id < type_cnt b) l;
  hypot_vals : forall id v, znth m id = Some v ->
    (v = BTF_UNPROCESSED_ID /\ id ∉ l) \/ (id ∈ l /\ 0 <= v < type_cnt b)
}.

(** The words of two types that are their own representatives differ, when the kind has an
    exact comparison and one of the types is not part of the base; and such types are
    candidates. *)
Definition self_mapped (d : btf_dedup) (x : Z) (t : btf_type) : Prop :=
  znth (d_map d) x = Some x /\ btf_type_by_id (d_btf d) x = Some t /\ exact_kind (btf_kind t) /\ 0 < x.

Record exact_ok (d : btf_dedup) : Prop := {
  ex_complete : forall x t h, self_mapped d x t -> hash_of_kind t = Some (Ok h) -> x ∈ cands_of d h;
  ex_unique : forall x t y u, self_mapped d x t -> self_mapped d y u -> start_id (d_btf d) <= x ->
    own_words t = own_words u -> x = y
}.

Record state_ok (open : Z) (d : btf_dedup) : Prop := {
  st_btf : dedup_btf (d_btf d);
  st_len : zlen (d_map d) = type_cnt (d_btf d);
  st_zero : znth (d_map d) 0 = Some 0;
  st_links : forall x v, znth (d_map d) x = Some v -> v <= BTF_MAX_NR_TYPES ->
    exists tx tv, link_ok (d_btf d) (d_map d) open x v tx tv;
  st_vals : forall x v, znth (d_map d) x = Some v ->
    v <= BTF_MAX_NR_TYPES \/ v = BTF_UNPROCESSED_ID \/ v = BTF_IN_PROGRESS_ID;
  st_acyclic : acyclic (d_map d);
  st_table : hashmap_wf (fun _ => True) (dedup_table d);
  st_cands : forall h id, id ∈ cands_of d h -> cand_ok (d_btf d) (d_map d) id;
  st_hypot : hypot_ok (d_btf d) (hypot_map d) (hypot_list d);
  st_exact : exact_ok d
}.

Section Facts.
Context {open : Z} {d : btf_dedup} (Hst : state_ok open d).

Lemma st_resolves x : 0 <= x < type_cnt (d_btf d) -> exists r, resolves (d_map d) x r.
Proof. intros Hx. apply (st_acyclic _ _ Hst). by rewrite (st_len _ _ Hst). Qed.

Lemma st_resolves_range x r : resolves (d_map d) x r -> 0 <= r < type_cnt (d_btf d).
Proof. intros Hr. rewrite <- (st_len _ _ Hst). apply root_range. by apply resolves_is_root in Hr. Qed.

Lemma st_type x : 0 <= x < type_cnt (d_btf d) ->
  exists t, btf_type_by_id (d_btf d) x = Some t /\ type_words_ok t.
Proof. apply db_type, Hst. Qed.

(** Along the way to the root, each type may stand for the one before. *)
Lemma st_stands x r tx tr :
  resolves (d_map d) x r -> btf_type_by_id (d_btf d) x = Some tx -> btf_type_by_id (d_btf d) r = Some tr ->
  stands_for (fwd_name (d_btf d)) tx tr.
Proof.
  intros Hr. revert tx tr. pattern x, r. revert x r Hr. apply resolves_ind.
  - intros x _ tx tr H1 H2. rewrite H1 in H2. injection H2 as ->. apply stands_for_refl.
  - intros x y r Hx Hle Hne _ IH tx tr H1 H2. destruct (st_links _ _ Hst x y Hx Hle) as (tx' & ty & [L1 L2 L3 _]).
    rewrite H1 in L1. injection L1 as <-. eapply stands_for_trans; [exact L3 |]. by apply IH.
Qed.

(** The root of a mapped type. *)
Lemma st_root_mapped x r tr :
  resolves (d_map d) x r -> mapped (d_map d) x -> btf_type_by_id (d_btf d) r = Some tr ->
  znth (d_map d) r = Some r \/ r = open \/ btf_is_composite tr = true.
Proof.
  intros Hr. revert tr. pattern x, r. revert x r Hr. apply resolves_ind.
  - intros x (v & Hv & [Hgt| ->]) tr (w & Hw & Hle) Ht; [|auto]. rewrite Hv in Hw. injection Hw as ->. lia.
  - intros x y r Hx Hle Hne Hres IH tr _ Ht. destruct (st_links _ _ Hst x y Hx Hle) as (tx' & ty & [_ L2 _ Hcl]).
    destruct (decide (y = r)) as [->|Hyr].
    { rewrite Ht in L2. injection L2 as <-. destruct Hcl as [Hm|Hcl]; [by apply (IH tr) | auto]. }
    apply IH; [|done]. destruct Hcl as [Hm|Hcl]; [done |].
    assert (Hy : 0 <= y < zlen (d_map d)) by (by eapply resolves_range).
    destruct (root_or_step (d_map d) y Hy) as [Hroot|(z & Hz & Hzle & _)]; [|by exists z].
    destruct Hyr. by apply (resolves_det (d_map d) y); [apply resolves_root |].
Qed.

(** A candidate. *)
Lemma st_cand h id : id ∈ cands_of d h ->
  exists t, btf_type_by_id (d_btf d) id = Some t /\ type_words_ok t /\ 0 < id < type_cnt (d_btf d) /\
    mapped (d_map d) id /\
    (znth (d_map d) id = Some id \/ btf_is_enum_fwd t = true \/ btf_is_fwd t = true).
Proof.
  intros Hin. destruct (st_cands _ _ Hst h id Hin) as (t & v & Ht & H0 & Hv & Hle & Hor). exists t.
  pose proof (btf_type_by_id_range _ _ _ (db_ok _ (st_btf _ _ Hst)) Ht).
  split_and!; [done | by eapply db_words; [apply Hst |] | done | lia | by exists v |].
  destruct Hor as [->|Hor]; auto.
Qed.
End Facts.

(** *** Assignments to the map *)
Lemma mapped_upd m x v y : v <= BTF_MAX_NR_TYPES -> mapped m y -> mapped (zupd m x v) y.
Proof.
  intros Hv (w & Hw & Hle). destruct (decide (x = y)) as [->|Hne].
  - exists v. split; [|done]. apply znth_zupd_eq. by apply znth_Some in Hw.
  - exists w. by rewrite znth_zupd_ne.
Qed.

Lemma mapped_upd_iff m x v y :
  0 <= x < zlen m -> v <= BTF_MAX_NR_TYPES -> mapped (zupd m x v) y <-> mapped m y \/ y = x.
Proof.
  intros Hx Hv. split; [|intros [H| ->]; [by apply mapped_upd | exists v; by rewrite znth_zupd_eq]].
  intros (w & Hw & Hle). destruct (decide (x = y)) as [<-|Hne]; [by right |].
  rewrite znth_zupd_ne in Hw by done. left. by exists w.
Qed.

Lemma unmapped_root m x : 0 <= x < zlen m -> ~ mapped m x -> is_root m x.
Proof.
  intros Hx Hn. destruct (znth_is_Some m x Hx) as [v Hv]. exists v. split; [done |]. left.
  destruct (decide (v <= BTF_MAX_NR_TYPES)); [|lia]. destruct Hn. by exists v.
Qed.

(** A type that is not mapped is no candidate. *)
Lemma unmapped_no_cand open d x : state_ok open d -> ~ mapped (d_map d) x -> forall h, x ∉ cands_of d h.
Proof. intros Hst Hm h Hin. destruct (st_cands _ _ Hst h x Hin) as (t & v & _ & _ & Hv & Hle & _). destruct Hm. by exists v. Qed.

Lemma state_ok_open e d : state_ok 0 d -> state_ok e d.
Proof.
  intros [Hb Hlen Hz Hl Hvals Ha Ht Hc Hh Hex]. split; try assumption. intros x v Hx Hv.
  destruct (Hl x v Hx Hv) as (tx & tv & [L1 L2 L3 L4]). exists tx, tv. split; [assumption..|].
  destruct L4 as [L4|[->|L4]]; [auto | left; by exists 0 | auto].
Qed.

(** A type is linked to another one. *)
Lemma state_ok_link open open' d x v tx tv rx :
  state_ok open d -> 0 < x -> v <> x -> v <= BTF_MAX_NR_TYPES ->
  btf_type_by_id (d_btf d) x = Some tx -> btf_type_by_id (d_btf d) v = Some tv ->
  stands_for (fwd_name (d_btf d)) tx tv -> resolves (zupd (d_map d) x v) x rx ->
  mapped (d_map d) v \/ v = open' \/ btf_is_composite tv = true ->
  open = open' \/ open = x ->
  (forall h, x ∉ cands_of d h) \/ btf_is_enum_fwd tx = true \/ btf_is_fwd tx = true ->
  state_ok open' (set_d_map d (zupd (d_map d) x v)).
Proof.
  intros [Hb Hlen Hz Hl Hvals Ha Ht Hc Hh Hex] Hx Hne Hv Htx Htv Hs Hr Hcl Hop Hca.
  assert (Hrx : 0 <= x < zlen (d_map d)) by (rewrite Hlen; by eapply btf_type_by_id_range; [apply Hb |]).
  assert (Hnew : forall y w, znth (zupd (d_map d) x v) y = Some w ->
    (y = x /\ w = v) \/ (y <> x /\ znth (d_map d) y = Some w)).
  { intros y w Hy. destruct (decide (x = y)) as [<-|Hxy]; [left|right; by rewrite znth_zupd_ne in Hy].
    rewrite znth_zupd_eq in Hy by done. by injection Hy as <-. }
  split; cbn [d_btf d_map dedup_table hypot_map hypot_list set_d_map]; [done | by rewrite zlen_zupd | | | | | done | | done |].
  - rewrite znth_zupd_ne by lia. done.
  - intros y w Hy Hw. destruct (Hnew y w Hy) as [[-> ->]|[Hyx Hy']].
    + exists tx, tv. split; [done..|]. destruct Hcl as [Hm|Hcl]; [left; by apply mapped_upd | auto].
    + destruct (Hl y w Hy' Hw) as (ty & tw & [L1 L2 L3 L4]). exists ty, tw. split; [done..|].
      destruct L4 as [Hm|[->|Hk]]; [left; by apply mapped_upd | | auto].
      destruct Hop as [<-| ->]; [auto |]. left. exists v. by rewrite znth_zupd_eq.
  - intros y w Hy. destruct (Hnew y w Hy) as [[-> ->]|[_ Hy']]; [by left | by apply (Hvals y)].
  - by eapply acyclic_upd.
  - intros h id Hin. destruct (Hc h id Hin) as (t & w & Ht1 & H0 & Hw & Hle & Hor). exists t.
    destruct (decide (x = id)) as [<-|Hxi]; [|exists w; by rewrite znth_zupd_ne]. exists v.
    rewrite znth_zupd_eq by done. rewrite Htx in Ht1. injection Ht1 as <-. split_and!; [done..|].
    destruct Hca as [Hca|Hca]; [|auto]. by destruct (Hca h).
  - assert (Hold : forall y t, self_mapped (set_d_map d (zupd (d_map d) x v)) y t -> self_mapped d y t).
    { intros y t (Hy & Hrest). destruct (Hnew y y Hy) as [[-> ->]|[_ Hy']]; [done |]. by split. }
    destruct Hex as [Hco Hun]. split; [intros; by apply (Hco x0 t h); [apply Hold |] |].
    intros y t z u Hy Hz'. apply (Hun y t z u); by apply Hold.
Qed.
End State.

(** ** The table of candidates *)

(** What the passes need of the two hash functions: keys are compared exactly. *)
Class DedupCtx (C : hash_ctx) := {
  dc_laws :: HashLaws C (fun _ => True);
  dc_equal : forall k1 k2, equal_fn k1 k2 = (k1 =? k2)
}.

#[export] Instance int_dedup : DedupCtx int_ctx.
Proof. split; [apply int_laws | done]. Qed.

#[export] Instance collision_dedup : DedupCtx collision_ctx.
Proof. split; [|done]. split; cbn; unfold btf_dedup_equal_fn; intros; (lia || done). Qed.

#[export] Instance dedup_ctx_dedup force_collisions : DedupCtx (dedup_ctx force_collisions).
Proof. destruct force_collisions; apply _. Qed.

Section Table.
Context {C : hash_ctx} {DC : DedupCtx C}.

Lemma elem_of_maybe_reverse rv e (es : list hashmap_entry) : e ∈ maybe_reverse rv es <-> e ∈ es.
Proof. destruct rv; cbn; [|done]. by rewrite elem_of_reverse. Qed.

(** The candidates after an addition, which fails when there is no memory. *)
Lemma table_add_cands d h id :
  hashmap_wf (fun _ => True) (dedup_table d) ->
  exists r tbl o, btf_dedup_table_add h id d = Some (r, set_table d tbl o) /\
    hashmap_wf (fun _ => True) tbl /\
    ((r = 0 /\ forall h' x, x ∈ cands_of (set_table d tbl o) h' <-> (h' = h /\ x = id) \/ x ∈ cands_of d h') \/
     (r = - ENOMEM /\ forall h' x, x ∈ cands_of (set_table d tbl o) h' <-> x ∈ cands_of d h')).
Proof.
  intros Hwf. unfold btf_dedup_table_add. do 3 eexists. split; [reflexivity |].
  cbn [hashmap_insert is_append]. destruct (insert_new_spec (dedup_table d) h id 0 0 (d_oracle d) Hwf I) as (_ & _ & Hw & Hcase).
  split; [exact Hw |]. destruct Hcase as [(Hr & _ & _ & rv & Hs)|(Hr & _ & Hs)].
  - right. split; [done |]. intros h' x. unfold cands_of. cbn [dedup_table set_table]. rewrite (Hs h' I).
    rewrite !list_elem_of_fmap. setoid_rewrite elem_of_maybe_reverse. done.
  - left. split; [done |]. intros h' x. unfold cands_of. cbn [dedup_table set_table]. rewrite (Hs h' I).
    rewrite fmap_app, elem_of_app, !list_elem_of_fmap. setoid_rewrite elem_of_maybe_reverse.
    rewrite dc_equal. f_equiv. destruct (h =? h') eqn:He.
    + split; [intros (e & -> & ->%list_elem_of_singleton); cbn; lia |]. intros [-> ->].
      exists (Entry h id). split; [done |]. by apply list_elem_of_singleton.
    + split; [by intros (e & _ & ?%not_elem_of_nil) | lia].
Qed.

Lemma wp_cands h Q d : Q (cands_of d h) d -> wp (dedup_cands h) Q d.
Proof. intros H. by apply (wp_read _ (cands_of d h)). Qed.

Lemma wp_type_of id t Q d : btf_type_by_id (d_btf d) id = Some t -> Q t d -> wp (type_of id) Q d.
Proof. intros H HQ. by apply (wp_read _ t). Qed.

(** A type becomes its own representative and a candidate. *)
Section Canon.
Context (open : Z) (d : btf_dedup) (x : Z) (tx : btf_type) (h : Z) (tbl : hashmap) (o : oracle).
Context (Hst : state_ok open d) (Hx : 0 < x) (Htx : btf_type_by_id (d_btf d) x = Some tx) (Hop : open = 0 \/ open = x)
  (Hun : ~ mapped (d_map d) x) (Hwf : hashmap_wf (fun _ => True) tbl).

Let d' := set_table (set_d_map d (zupd (d_map d) x x)) tbl o.

Context (Hcs : forall h' y, y ∈ cands_of d' h' <-> (h' = h /\ y = x) \/ y ∈ cands_of d h').

Lemma canon_range : 0 <= x < zlen (d_map d) /\ x <= BTF_MAX_NR_TYPES.
Proof.
  pose proof (btf_type_by_id_range _ _ _ (db_ok _ (st_btf _ _ Hst)) Htx). rewrite (st_len _ _ Hst).
  pose proof (db_cnt _ (st_btf _ _ Hst)). lia.
Qed.

Lemma canon_entry y w : znth (d_map d') y = Some w -> (y = x /\ w = x) \/ (y <> x /\ znth (d_map d) y = Some w).
Proof.
  intros Hy. change (d_map d') with (zupd (d_map d) x x) in Hy.
  destruct (decide (x = y)) as [<-|Hxy]; [left|right; by rewrite znth_zupd_ne in Hy].
  rewrite znth_zupd_eq in Hy by apply canon_range. by injection Hy as <-.
Qed.

Lemma canon_self_mapped y t : self_mapped d' y t -> (y = x /\ t = tx) \/ (y <> x /\ self_mapped d y t).
Proof.
  intros (Hy & Hty & Hrest). destruct (canon_entry y y Hy) as [[-> _]|[Hne Hy']]; [|right; by split; [|split]].
  left. cbn [d_btf d' set_table set_d_map] in Hty. split; [done | congruence].
Qed.

Lemma state_ok_self : exact_ok d' -> state_ok 0 d'.
Proof.
  intros Hex'. pose proof canon_range as [Hrx Hx']. pose proof canon_entry as Hnew.
  destruct Hst as [Hb Hlen Hz Hl Hvals Ha Ht Hc Hh Hex].
  assert (Hm : mapped (zupd (d_map d) x x) x) by (exists x; by rewrite znth_zupd_eq).
  split; cbn [d_btf d_map dedup_table hypot_map hypot_list set_d_map set_table d'];
    [done | by rewrite zlen_zupd | | | | | done | | done | done].
  - rewrite znth_zupd_ne by lia. done.
  - intros y w Hy Hw. destruct (Hnew y w Hy) as [[-> ->]|[Hyx Hy']].
    + exists tx, tx. split; [done..| |by left]. apply stands_for_refl.
    + destruct (Hl y w Hy' Hw) as (ty & tw & [L1 L2 L3 L4]). exists ty, tw. split; [done..|].
      destruct L4 as [Hmw|[->|Hk]]; [left; by apply mapped_upd | | auto]. destruct Hop as [->| ->]; auto.
  - intros y w Hy. destruct (Hnew y w Hy) as [[-> ->]|[_ Hy']]; [by left | by apply (Hvals y)].
  - eapply acyclic_upd; [done |]. apply resolves_upd_self; [done | by right].
  - intros h' id Hin. apply Hcs in Hin as [[-> ->]|Hin].
    + exists tx, x. rewrite znth_zupd_eq by done. split_and!; [done.. | by left].
    + destruct (Hc h' id Hin) as (t & w & Ht1 & H0 & Hw & Hle & Hor). exists t, w.
      rewrite znth_zupd_ne; [done |]. intros ->. destruct Hun. by exists w.
Qed.

Lemma canon_exact :
  hash_of_kind tx = Some (Ok h) ->
  (exact_kind (btf_kind tx) -> forall y u, y ∈ cands_of d h -> btf_type_by_id (d_btf d) y = Some u ->
     own_words tx <> own_words u) ->
  exact_ok d'.
Proof.
  intros Hhash Hno. pose proof canon_self_mapped as Hold. destruct (st_exact _ _ Hst) as [Hco Hunq].
  assert (Hsep : forall y t, self_mapped d y t -> exact_kind (btf_kind tx) -> own_words tx = own_words t -> False).
  { intros y t Hy Hk He. pose proof Hy as (_ & Hty & _ & _). apply (Hno Hk y t); [|exact Hty | exact He].
    apply (Hco y t h Hy). rewrite <- (hash_same_words tx t He); [exact Hhash | apply exact_known, Hk]. }
  split.
  - intros y t h' Hy Hh'. apply Hcs. destruct (Hold y t Hy) as [[-> ->]|[_ Hy']].
    + left. split; [congruence | done].
    + right. by apply (Hco y t h').
  - intros y t z u Hy Hz' Hs He. destruct (Hold y t Hy) as [[-> ->]|[Hyx Hy']], (Hold z u Hz') as [[-> ->]|[Hzx Hz'']].
    + reflexivity.
    + destruct Hy as (_ & _ & Hk & _). destruct (Hsep z u Hz'' Hk He).
    + destruct Hz' as (_ & _ & Hk & _). destruct (Hsep y t Hy' Hk (eq_sym He)).
    + by apply (Hunq y t z u).
Qed.
End Canon.

Lemma state_ok_canon open d x tx h tbl o :
  state_ok open d -> 0 < x -> btf_type_by_id (d_btf d) x = Some tx -> open = 0 \/ open = x ->
  ~ mapped (d_map d) x ->
  hash_of_kind tx = Some (Ok h) -> start_id (d_btf d) <= x ->
  (exact_kind (btf_kind tx) -> forall y u, y ∈ cands_of d h -> btf_type_by_id (d_btf d) y = Some u ->
     own_words tx <> own_words u) ->
  let d' := set_table (set_d_map d (zupd (d_map d) x x)) tbl o in
  hashmap_wf (fun _ => True) tbl ->
  (forall h' y, y ∈ cands_of d' h' <-> (h' = h /\ y = x) \/ y ∈ cands_of d h') ->
  state_ok 0 d'.
Proof.
  intros Hst Hx Htx Hop Hun Hhash _ Hno d' Hwf Hcs. eapply state_ok_self; [done.. |]. by eapply canon_exact.
Qed.
End Table.

(** ** Loops over types *)

(** An invariant [I] of the identifiers done, and what holds when the loop is left
    early. *)
Lemma wp_for_ids n id (stop : Z -> bool) (f : Z -> dedup_m Z) (I : Z -> btf_dedup -> Prop) (E : Z -> btf_dedup -> Prop) d :
  I id d ->
  (forall k d, id <= k < id + Z.of_nat n -> I k d ->
     wp (f k) (fun r d' => if stop r then E r d' else I (k + 1) d') d) ->
  wp (for_ids n id stop f)
    (fun r d' => (r = 0 /\ I (id + Z.of_nat n) d') \/ (stop r = true /\ E r d')) d.
Proof.
  revert id d. induction n as [|n IH]; intros id d HI Hstep; cbn [for_ids].
  - apply wp_ret. left. split; [done |]. by replace (id + Z.of_nat 0) with id by lia.
  - apply wp_bind. eapply wp_mono; [apply Hstep; [lia | done] |]. cbn beta. intros r d' Hr.
    destruct (stop r) eqn:Hs; [apply wp_ret; by right |]. replace (id + Z.of_nat (S n)) with (id + 1 + Z.of_nat n) by lia.
    apply IH; [done |]. intros k d2 Hk. apply Hstep. lia.
Qed.

Lemma wp_for_own_types (stop : Z -> bool) (f : Z -> dedup_m Z) (I : Z -> btf_dedup -> Prop) (E : Z -> btf_dedup -> Prop) d :
  btf_ok (d_btf d) -> I (start_id (d_btf d)) d ->
  (forall k d', start_id (d_btf d) <= k < type_cnt (d_btf d) -> I k d' ->
     wp (f k) (fun r d'' => if stop r then E r d'' else I (k + 1) d'') d') ->
  wp (for_types stop f) (fun r d' => (r = 0 /\ I (type_cnt (d_btf d)) d') \/ (stop r = true /\ E r d')) d.
Proof.
  intros Hb HI Hstep. pose proof (btf_ok_start _ Hb). unfold for_types, type_cnt in *.
  replace (start_id (d_btf d) + nr_types (d_btf d)) with
    (start_id (d_btf d) + Z.of_nat (Z.to_nat (nr_types (d_btf d)))) by lia.
  apply wp_for_ids; [done |]. intros k d' Hk. apply Hstep. lia.
Qed.

Lemma wp_for_types (stop : Z -> bool) (f : Z -> dedup_m Z) (I : Z -> btf_dedup -> Prop) (E : Z -> btf_dedup -> Prop) d :
  dedup_btf (d_btf d) -> I (start_id (d_btf d)) d ->
  (forall k d', start_id (d_btf d) <= k < type_cnt (d_btf d) -> I k d' ->
     wp (f k) (fun r d'' => if stop r then E r d'' else I (k + 1) d'') d') ->
  wp (for_types stop f) (fun r d' => (r = 0 /\ I (type_cnt (d_btf d)) d') \/ (stop r = true /\ E r d')) d.
Proof. intros Hb. apply wp_for_own_types. apply Hb. Qed.
