(* ===== verification/DedupWrite.v ===== *)
(** * DedupWrite: writing words of types in place

    [btf_set_word] of [Dedup], which models the assignments of the deduplication to fields
    of a type: the object stays well formed, exactly one word of one type changes. *)
From S2P Require Import Prelude Hashmap Mem Strset BtfTypes Btf BtfFind BtfParse BtfRaw BtfWrite DedupTypes Dedup DedupState.
Open Scope Z_scope.

#[local] Opaque kind_of_Z.

(** ** Chunks *)
Lemma length_mjoin_insert (cs : list (list Z)) i c c' :
  cs !! i = Some c -> length c' = length c ->
  forall n, length (mjoin (take n (<[i := c']> cs))) = length (mjoin (take n cs)).
Proof.
  revert i. induction cs as [|x cs IH]; intros [|i]; try done; intros Hi Hl n; destruct n as [|n]; try done.
  - cbn in Hi. injection Hi as ->. cbn [insert list_insert take]. rewrite !mjoin_cons, !length_app. lia.
  - cbn [insert list_insert take]. rewrite !mjoin_cons, !length_app. f_equal. by apply IH.
Qed.

Lemma mjoin_insert (cs : list (list Z)) i c j v :
  cs !! i = Some c -> (j < length c)%nat ->
  mjoin (<[i := <[j := v]> c]> cs) = <[(length (mjoin (take i cs)) + j)%nat := v]> (mjoin cs).
Proof.
  revert i. induction cs as [|x cs IH]; intros [|i]; try done; intros Hi Hj.
  - cbn in Hi. injection Hi as ->. cbn [insert list_insert take]. rewrite !mjoin_cons. cbn. by rewrite insert_app_l.
  - change (<[S i := <[j := v]> c]> (x :: cs)) with (x :: <[i := <[j := v]> c]> cs). cbn [take].
    rewrite !mjoin_cons, length_app, <- Nat.add_assoc, (IH i Hi Hj). by rewrite insert_app_r.
Qed.

Lemma offsets_insert (cs : list (list Z)) i c c' off :
  cs !! i = Some c -> length c' = length c -> offsets off (<[i := c']> cs) = offsets off cs.
Proof.
  revert i off. induction cs as [|x cs IH]; intros [|i] off; try done; intros Hi Hl; cbn [insert list_insert offsets].
  - cbn in Hi. injection Hi as ->. unfold zlen. by rewrite Hl.
  - f_equal. by apply IH.
Qed.

(** The words of a type are those of its chunk, whatever follows. *)
Lemma words_cnt_chunk lay t c :
  type_at c = Some t -> btf_type_size lay t = 4 * zlen c -> words_cnt t <= zlen (extra t).
Proof.
  intros Ht Hs. apply type_at_zlen in Ht. unfold words_cnt. pose proof (zlen_nonneg (extra t)).
  destruct (decide (known_kind (btf_kind t))) as [Hk|Hk].
  - rewrite btf_type_size_known in Hs by done. lia.
  - assert (extra_words (btf_kind t) (btf_vlen t) = 0) as ->; [|done]. destruct (btf_kind t); (done || by destruct Hk).
Qed.

Lemma own_words_chunk lay t c rest :
  type_at c = Some t -> btf_type_size lay t = 4 * zlen c ->
  own_words (BtfType (name_off t) (info t) (size_or_type t) (extra t ++ rest)) = own_words t /\
  own_words t = ztake (3 + words_cnt t) c.
Proof.
  intros Ht Hs. pose proof (words_cnt_chunk lay t c Ht Hs) as Hw. split.
  - unfold own_words. cbn [name_off info size_or_type extra].
    assert (words_cnt (BtfType (name_off t) (info t) (size_or_type t) (extra t ++ rest)) = words_cnt t) as -> by done.
    by rewrite ztake_app_le by done.
  - assert (0 <= words_cnt t) by (apply extra_words_nonneg; pose proof (vlen_range t); lia).
    destruct c as [|n [|i [|s e]]]; cbn [type_at] in Ht; try discriminate. injection Ht as <-.
    unfold own_words. cbn [name_off info size_or_type extra]. unfold ztake.
    replace (Z.to_nat (3 + words_cnt (BtfType n i s e))) with (S (S (S (Z.to_nat (words_cnt (BtfType n i s e)))))) by lia.
    done.
Qed.

(** A chunk with one word replaced is that of a type of the same size. *)
Lemma type_at_insert lay c t j v :
  type_at c = Some t -> btf_type_size lay t = 4 * zlen c -> (j < length c)%nat -> j <> 1%nat ->
  exists t', type_at (<[j := v]> c) = Some t' /\ btf_type_size lay t' = 4 * zlen (<[j := v]> c) /\
    info t' = info t.
Proof.
  intros Ht Hs Hj Hne. destruct c as [|n [|i [|s e]]]; cbn [type_at] in Ht; try discriminate. injection Ht as <-.
  assert (Hl : zlen (<[j := v]> (n :: i :: s :: e)) = zlen (n :: i :: s :: e)) by (unfold zlen; by rewrite length_insert).
  destruct j as [|[|[|j]]]; [| done | |]; cbn [insert list_insert] in *; (eexists; split; [done |]; split; [|done]);
    rewrite Hl, <- Hs; by apply btf_type_size_info.
Qed.

Lemma insert_ztake {A} (l : list A) j n x : (j < Z.to_nat n)%nat -> ztake n (<[j := x]> l) = <[j := x]> (ztake n l).
Proof. intros H. unfold ztake. by rewrite take_insert_lt by done. Qed.

Lemma length_own_words t c lay :
  type_at c = Some t -> btf_type_size lay t = 4 * zlen c -> zlen (own_words t) = 3 + words_cnt t.
Proof.
  intros Ht Hs. pose proof (words_cnt_chunk lay t c Ht Hs). unfold own_words. rewrite !zlen_cons, zlen_ztake; [lia |].
  split; [|done]. apply extra_words_nonneg. pose proof (vlen_range t). lia.
Qed.

(** ** Writing a word *)

(** The words of one type change. *)
Definition words_set (b b' : btf) (id j v : Z) : Prop :=
  (exists ws, b' = set_types b ws (types_data_cap b) (type_offs b) (type_offs_cap b) (nr_types b)) /\
  forall id' t, btf_type_by_id b id' = Some t -> exists t', btf_type_by_id b' id' = Some t' /\
    own_words t' = if id' =? id then zupd (own_words t) j v else own_words t.

Lemma write_in lay c t j :
  type_at c = Some t -> btf_type_size lay t = 4 * zlen c -> Z.of_nat j < 3 + words_cnt t -> (j < length c)%nat.
Proof.
  intros Ht Hs Hj. pose proof (words_cnt_chunk lay t c Ht Hs). apply type_at_zlen in Ht as Hz. unfold zlen in *. lia.
Qed.

Lemma own_words_insert lay c t j v :
  type_at c = Some t -> btf_type_size lay t = 4 * zlen c -> Z.of_nat j < 3 + words_cnt t -> j <> 1%nat ->
  exists t', type_at (<[j := v]> c) = Some t' /\ btf_type_size lay t' = 4 * zlen (<[j := v]> c) /\
    own_words t' = zupd (own_words t) (Z.of_nat j) v.
Proof.
  intros Ht Hs Hj Hj1. pose proof (write_in lay c t j Ht Hs Hj) as Hin.
  destruct (type_at_insert lay c t j v Ht Hs Hin Hj1) as (t' & Ht' & Hs' & Hi). exists t'. split_and!; [done.. |].
  destruct (info_words_cnt t' t Hi) as (Hw & _ & _).
  destruct (own_words_chunk lay t c [] Ht Hs) as [_ ->]. destruct (own_words_chunk lay t' _ [] Ht' Hs') as [_ ->].
  rewrite Hw. unfold zupd. replace (Z.of_nat j <? 0) with false by lia. rewrite Nat2Z.id. apply insert_ztake. lia.
Qed.

Lemma btf_set_word_eq b type_id off v :
  btf_set_word b type_id off v =
  if type_id =? 0 then None else
  if type_id <? start_id b then
    match base_btf b with
    | None => None
    | Some base => base' ← btf_set_word base type_id off v; Some (set_base b (Some base'))
    end
  else
    o ← znth (type_offs b) (type_id - start_id b);
    ws ← array_set (types_data b) ((o + off) / 4) v;
    Some (set_types b ws (types_data_cap b) (type_offs b) (type_offs_cap b) (nr_types b)).
Proof. by destruct b. Qed.

Section Write.
Context (b : btf) (cs : list (list Z)) (Hcs : types_ok b cs).
Context (i : nat) (c : list Z) (t : btf_type) (j : nat) (v : Z).
Context (Hc : cs !! i = Some c) (Ht : type_at c = Some t) (Hs : btf_type_size (btf_layout_of b) t = 4 * zlen c).
Context (Hj : Z.of_nat j < 3 + words_cnt t) (Hj1 : j <> 1%nat) (Hv : is_u32 v).

Let c' := <[j := v]> c.
Let cs' := <[i := c']> cs.
Let b' := set_types b (mjoin cs') (types_data_cap b) (type_offs b) (type_offs_cap b) (nr_types b).

Lemma write_length : length c' = length c.
Proof. apply length_insert. Qed.

Lemma word_types_ok : types_ok b' cs'.
Proof.
  pose proof (write_in _ c t j Ht Hs Hj) as Hin. pose proof write_length as Hlen. destruct Hcs as [Hw Hi Hn Hall Hl Hlay Hu].
  assert (Hz : zlen (mjoin cs') = zlen (mjoin cs)).
  { unfold cs', c', zlen. by rewrite (mjoin_insert cs i c j v Hc Hin), length_insert. }
  split; cbn [types_data type_offs nr_types hdr b' set_types].
  - done.
  - rewrite Hi. symmetry. by apply (offsets_insert cs i c).
  - rewrite Hn. unfold cs', zlen. by rewrite length_insert.
  - apply Forall_insert; [exact Hall |].
    destruct (type_at_insert (btf_layout_of b) c t j v Ht Hs Hin Hj1) as (t' & Ht' & Hs' & _). by exists t'.
  - by rewrite Hl, Hw, Hz.
  - exact Hlay.
  - unfold cs', c'. rewrite (mjoin_insert cs i c j v Hc Hin), <- Hw. by apply Forall_insert.
Qed.

Lemma write_lookup id x y :
  cs !! id = Some x -> cs' !! id = Some y -> (id <> i /\ y = x) \/ (id = i /\ x = c /\ y = c').
Proof.
  intros Hx Hy. destruct (decide (id = i)) as [->|Hne].
  - unfold cs' in Hy. rewrite list_lookup_insert_eq in Hy by (by apply lookup_lt_Some in Hc). right. split_and!; congruence.
  - unfold cs' in Hy. rewrite list_lookup_insert_ne in Hy by done. left. split; congruence.
Qed.
Lemma write_run id off :
  i = Z.to_nat (id - start_id b) -> 0 < start_id b <= id -> off = 4 * Z.of_nat j ->
  btf_set_word b id off v = Some b'.
Proof.
  intros Hi Hid ->. pose proof (write_in _ c t j Ht Hs Hj) as Hin. destruct Hcs as [Hw Hoffs _ _ _ _ _].
  unfold b', cs', c'. rewrite (mjoin_insert cs i c j v Hc Hin), btf_set_word_eq.
  replace (id =? 0) with false by lia. replace (id <? _) with false by lia.
  unfold znth. replace (id - _ <? 0) with false by lia. rewrite <- Hi, Hoffs, (offsets_lookup _ _ _ _ Hc).
  cbn [mbind option_bind]. replace (_ / 4) with (Z.of_nat (length (mjoin (take i cs)) + j)).
  2:{ replace (_ + _ + _) with ((zlen (mjoin (take i cs)) + Z.of_nat j) * 4) by lia. rewrite Z.div_mul by lia. unfold zlen. lia. }
  rewrite array_set_spec.
  - cbn [mbind option_bind]. unfold zupd. replace (_ <? 0) with false by lia. by rewrite Nat2Z.id, Hw.
  - rewrite Hw. split; [lia |]. unfold zlen. apply Nat2Z.inj_lt. pose proof (drop_chunks cs i c Hc) as Hd.
    apply (f_equal length) in Hd. rewrite length_drop, length_app in Hd. lia.
Qed.

Lemma write_words id id' u :
  btf_ok b -> i = Z.to_nat (id - start_id b) -> 0 < start_id b <= id -> btf_type_by_id b id' = Some u ->
  exists u', btf_type_by_id b' id' = Some u' /\
    own_words u' = if id' =? id then zupd (own_words u) (Z.of_nat j) v else own_words u.
Proof.
  intros Hok Hi Hid Hu. pose proof (btf_type_by_id_range b id' u Hok Hu) as Hr. unfold type_cnt in Hr.
  destruct (decide (id' = 0 \/ id' < start_id b)) as [Hlow|Hhigh].
  { exists u. replace (id' =? id) with false by lia. split; [|done].
    rewrite btf_type_by_id_eq in Hu |- *. cbn [b' start_id base_btf set_types].
    destruct (id' =? 0); [done |]. by replace (id' <? start_id b) with true in * by lia. }
  destruct (types_ok_lookup b cs id' Hcs) as (c1 & u1 & rest1 & Hc1 & Hu1 & Hs1 & Hby1); [lia.. |].
  destruct (types_ok_lookup b' cs' id' word_types_ok) as (c2 & u2 & rest2 & Hc2 & Hu2 & Hs2 & Hby2);
    [cbn [b' start_id nr_types set_types]; lia.. |].
  cbn [b' start_id set_types] in Hc2. eexists. split; [exact Hby2 |].
  destruct (own_words_chunk _ u2 c2 rest2 Hu2 Hs2) as [-> _].
  rewrite Hby1 in Hu. injection Hu as <-. destruct (own_words_chunk _ u1 c1 rest1 Hu1 Hs1) as [-> _].
  destruct (write_lookup _ c1 c2 Hc1 Hc2) as [[Hni ->]|(Hi' & -> & ->)].
  - replace (id' =? id) with false by lia. congruence.
  - replace (id' =? id) with true by lia.
    destruct (own_words_insert (btf_layout_of b) c t j v Ht Hs Hj Hj1) as (t' & Ht' & _ & Hw').
    unfold c' in Hu2. congruence.
Qed.
End Write.

(** An assignment to a field of a type that is not of the base. *)
Lemma set_word_spec b id off v t :
  btf_ok b -> start_id b <= id -> btf_type_by_id b id = Some t ->
  0 <= off < 12 + 4 * words_cnt t -> off mod 4 = 0 -> off <> 4 -> is_u32 v ->
  exists b', btf_set_word b id off v = Some b' /\ btf_ok b' /\ words_set b b' id (off / 4) v.
Proof.
  intros Hok Hid Hby Hoff Hmod Hne Hv.
  pose proof (btf_type_by_id_range b id t Hok Hby) as Hr. unfold type_cnt in Hr.
  destruct (btf_ok_unfold b Hok) as ([cs Hcs] & Hstr & H1 & H2 & Hbase).
  destruct (types_ok_lookup b cs id Hcs) as (c & t0 & rest & Hc & Ht0 & Hs0 & Hby0); [lia.. |].
  assert (Hw : words_cnt t = words_cnt t0) by (rewrite Hby in Hby0; by injection Hby0 as ->).
  assert (Hoff4 : off = 4 * (off / 4)) by (apply Z.div_exact in Hmod; lia).
  set (j := Z.to_nat (off / 4)). assert (Hj : Z.of_nat j < 3 + words_cnt t0) by (unfold j; lia).
  assert (Hj1 : j <> 1%nat) by (unfold j; lia).
  eexists. split; [eapply (write_run b cs Hcs _ c t0 j v Hc Ht0 Hs0 Hj); (done || (unfold j; lia)) |].
  pose proof (word_types_ok b cs Hcs _ c t0 j v Hc Ht0 Hs0 Hj Hj1 Hv) as Hcs'. split; [|split].
  - eapply btf_ok_intro; [exact Hcs' | exact Hstr | exact H1 | exact H2 | exact Hbase].
  - by eexists.
  - intros id' u Hu. replace (off / 4) with (Z.of_nat j) by (unfold j; lia).
    eapply (write_words b cs Hcs _ c t0 j v Hc Ht0 Hs0 Hj Hj1 Hv id); (done || lia).
Qed.

(** ** The fields of a type *)
Lemma fields_in_elems n sz offs off :
  off ∈ in_elems n 12 sz offs -> exists i o, 0 <= i < n /\ o ∈ offs /\ off = 12 + i * sz + o.
Proof. apply elem_of_in_elems. Qed.

Ltac in_fields H :=
  lazymatch type of H with
  | _ ∈ [] => by apply not_elem_of_nil in H
  | _ ∈ _ :: _ => apply elem_of_cons in H as [H|H]; [|in_fields H]
  | _ ∈ in_elems _ _ _ _ =>
      let i := fresh "i" in let o := fresh "o" in let Hi := fresh "Hi" in let Ho := fresh "Ho" in
      apply fields_in_elems in H as (i & o & Hi & Ho & H); in_fields Ho
  | _ => idtac
  end.

Lemma fields_room ik k vlen off :
  0 <= vlen -> off ∈ kind_fields ik k vlen ->
  0 <= off < 12 + 4 * extra_words k vlen /\ off mod 4 = 0 /\ off <> 4.
Proof.
  intros Hv H. destruct ik, k; cbn [kind_fields id_fields str_fields extra_words] in *; in_fields H; subst;
    (split_and!; [lia | lia | first [done | lia] | lia]).
Qed.

Lemma fields_disjoint k vlen off : off ∈ id_fields k vlen -> off ∈ str_fields k vlen -> False.
Proof.
  destruct k; cbn [id_fields str_fields]; intros H H'; in_fields H; in_fields H'; lia.
Qed.

(** The words of an existing type. *)
Lemma own_words_ok b id t :
  btf_ok b -> btf_type_by_id b id = Some t -> zlen (own_words t) = 3 + words_cnt t /\ Forall is_u32 (own_words t).
Proof.
  intros Hb Ht. destruct (type_by_id_u32 b id t Hb Ht) as (Hn & Hi & Hs & He). pose proof (vlen_range t) as Hv.
  assert (Hf : type_fits t).
  { destruct (btf_type_by_id_total b id Hb) as (t' & Ht' & Hf); [by apply (btf_type_by_id_range b id t) |].
    rewrite Ht in Ht'. by injection Ht' as <-. }
  assert (Hk : known_kind (btf_kind t) \/ words_cnt t = 0).
  { unfold words_cnt. destruct (btf_kind t); (by left) || (by right). }
  unfold own_words. split; [|rewrite !Forall_cons; split_and!; [done.. |]; by apply Forall_take].
  rewrite !zlen_cons, zlen_ztake; [lia |]. split; [apply extra_words_nonneg; lia |].
  destruct Hk as [Hk| ->]; [by apply Hf | apply zlen_nonneg].
Qed.

(** A field of an existing type. *)
Lemma field_word b id t ik off :
  btf_ok b -> btf_type_by_id b id = Some t -> off ∈ kind_fields ik (btf_kind t) (btf_vlen t) ->
  0 <= off < 12 + 4 * words_cnt t /\ off mod 4 = 0 /\ off <> 4 /\
  exists w, type_word t off = Some w /\ is_u32 w /\ znth (own_words t) (off / 4) = Some w.
Proof.
  intros Hb Ht Hoff. pose proof (vlen_range t) as Hv. destruct (own_words_ok b id t Hb Ht) as [Hlen Hall].
  destruct (fields_room ik _ _ off (proj1 Hv) Hoff) as (Hr & Hm & Hne). split_and!; [apply Hr.. | done | done |].
  rewrite type_word_own by (unfold words_cnt; done).
  destruct (znth_is_Some (own_words t) (off / 4)) as [w Hw]; [unfold words_cnt in *; lia |].
  exists w. split_and!; [done | | done].
  unfold znth in Hw. destruct (off / 4 <? 0); [done |]. by eapply Forall_lookup_1.
Qed.

(** Identifiers in types that consist of the same words. *)
Lemma id_field_word t t' off :
  own_words t = own_words t' -> off ∈ id_fields (btf_kind t) (btf_vlen t) -> type_word t off = type_word t' off.
Proof.
  intros Hw Hoff. destruct (fields_room BTF_FIELD_ITER_IDS _ _ off (proj1 (vlen_range t)) Hoff) as (Hr & Hm & _).
  assert (Hi : info t = info t') by (by apply same_words_fields in Hw as (_ & ? & _)).
  destruct (info_words_cnt t t' Hi) as (Hc & _ & _).
  rewrite !type_word_own by (rewrite <- ?Hc; unfold words_cnt; done). by rewrite Hw.
Qed.

(** What is left of an object after an assignment to a field. *)
Section Fields.
Context {b b' : btf} {id j v : Z} (Hw : words_set b b' id j v).

Lemma words_set_frame :
  start_id b' = start_id b /\ nr_types b' = nr_types b /\ type_cnt b' = type_cnt b /\ base_btf b' = base_btf b /\
  hdr b' = hdr b /\ btf_strs_data b' = btf_strs_data b /\ start_str_off b' = start_str_off b /\
  btf_layout_of b' = btf_layout_of b /\ type_offs b' = type_offs b /\ strs_deduped b' = strs_deduped b /\
  modifiable b' = modifiable b.
Proof. destruct Hw as [[ws ->] _]. split_and!; done. Qed.

Lemma words_set_type id' t :
  btf_type_by_id b id' = Some t -> exists t', btf_type_by_id b' id' = Some t' /\
    own_words t' = if id' =? id then zupd (own_words t) j v else own_words t.
Proof. apply Hw. Qed.

Lemma words_set_back id' t' :
  btf_ok b -> btf_ok b' -> btf_type_by_id b' id' = Some t' -> exists t, btf_type_by_id b id' = Some t /\
    own_words t' = if id' =? id then zupd (own_words t) j v else own_words t.
Proof.
  intros Hb Hb' Ht'. pose proof (btf_type_by_id_range b' id' t' Hb' Ht') as Hr.
  destruct words_set_frame as (_ & _ & Hc & _). rewrite Hc in Hr.
  destruct (btf_type_by_id_total b id' Hb Hr) as (t & Ht & _). exists t. split; [done |].
  destruct (words_set_type id' t Ht) as (t2 & Ht2 & Hw2). congruence.
Qed.
End Fields.

Lemma zupd_words_info t t' j v : own_words t' = zupd (own_words t) j v -> j <> 1 -> info t' = info t.
Proof.
  intros H Hj. apply (f_equal (fun l => znth l 1)) in H. rewrite znth_zupd_ne in H by done.
  unfold own_words in H. injection H as H. exact H.
Qed.

Lemma words_set_info b b' id j v id' t t' :
  words_set b b' id j v -> j <> 1 -> btf_type_by_id b id' = Some t -> btf_type_by_id b' id' = Some t' ->
  info t' = info t.
Proof.
  intros [_ Hw] Hj Ht Ht'. destruct (Hw id' t Ht) as (t2 & Ht2 & Hw2). rewrite Ht' in Ht2. injection Ht2 as <-.
  destruct (id' =? id); [by eapply zupd_words_info |]. by apply same_words_fields in Hw2 as (_ & -> & _).
Qed.

(** The identifiers stay those of types. *)
Lemma words_set_dedup b b' id off v :
  dedup_btf b -> btf_ok b' -> words_set b b' id (off / 4) v -> 0 <= off -> off mod 4 = 0 -> off <> 4 ->
  (forall t, btf_type_by_id b id = Some t -> off ∈ id_fields (btf_kind t) (btf_vlen t) -> 0 <= v < type_cnt b) ->
  dedup_btf b'.
Proof.
  intros Hb Hb' Hw H0 Hm Hne Hv. destruct (words_set_frame Hw) as (_ & _ & Hc & _). split; [done | rewrite Hc; apply Hb |].
  intros id' t' off' w Ht' Hoff' Hww. rewrite Hc.
  destruct (words_set_back Hw id' t' (db_ok _ Hb) Hb' Ht') as (t & Ht & How).
  pose proof (words_set_info _ _ _ _ _ id' t t' Hw ltac:(lia) Ht Ht') as Hi.
  destruct (info_words_cnt t' t Hi) as (_ & Hk & Hvl). pose proof Hoff' as Hoff2. rewrite Hk, Hvl in Hoff2.
  destruct (field_word b' id' t' BTF_FIELD_ITER_IDS off' Hb' Ht' Hoff') as (_ & Hm' & _ & w' & Hw' & _ & Hz).
  rewrite Hww in Hw'. injection Hw' as <-.
  destruct (field_word b id' t BTF_FIELD_ITER_IDS off' (db_ok _ Hb) Ht Hoff2) as (Hr2 & _ & _ & w2 & Hw2 & _ & Hz2).
  pose proof (db_ids _ Hb id' t off' w2 Ht Hoff2 Hw2) as Hold. rewrite How in Hz. destruct (id' =? id) eqn:Heq; [|congruence].
  assert (id' = id) as -> by lia. destruct (decide (off' = off)) as [->|Hno].
  - rewrite znth_zupd_eq in Hz by (by apply znth_Some in Hz2). injection Hz as <-. by apply (Hv t).
  - rewrite znth_zupd_ne in Hz by lia. congruence.
Qed.

(** The words of [t'] are those of [t], except that the fields at [offs] are replaced
    according to [R]. *)
Definition fields_rel (R : Z -> Z -> Prop) (offs : list Z) (t t' : btf_type) : Prop :=
  info t' = info t /\
  forall off, 0 <= off < 12 + 4 * words_cnt t -> off mod 4 = 0 ->
    if decide (off ∈ offs) then exists w w', type_word t off = Some w /\ type_word t' off = Some w' /\ R w w'
    else type_word t' off = type_word t off.

Lemma fields_rel_nil R t : fields_rel R [] t t.
Proof. split; [done |]. intros off _ _. by rewrite decide_False by (apply not_elem_of_nil). Qed.

Lemma zupd_type_word t t' off v off' :
  info t' = info t -> own_words t' = zupd (own_words t) (off / 4) v -> off mod 4 = 0 ->
  0 <= off' < 12 + 4 * words_cnt t -> off' mod 4 = 0 -> off' <> off -> type_word t' off' = type_word t off'.
Proof.
  intros Hi Hw Hm Ho' Hm' Hne. destruct (info_words_cnt t' t Hi) as (Hc & _ & _).
  rewrite !type_word_own by (rewrite ?Hc; done). rewrite Hw. apply znth_zupd_ne. lia.
Qed.

Lemma fields_rel_cons (R : Z -> Z -> Prop) off offs t t1 t2 w w' :
  off ∉ offs -> off mod 4 = 0 -> type_word t off = Some w -> R w w' ->
  info t1 = info t -> own_words t1 = zupd (own_words t) (off / 4) w' -> 0 <= off < 12 + 4 * words_cnt t ->
  zlen (own_words t) = 3 + words_cnt t ->
  fields_rel R offs t1 t2 -> fields_rel R (off :: offs) t t2.
Proof.
  intros Hni Hm Hw Hc Hi Hww Hr Hlen [Hi2 Hf]. split; [congruence |]. destruct (info_words_cnt t1 t Hi) as (Hcnt & _ & _).
  rewrite Hcnt in Hf. intros off' Ho' Hm'. specialize (Hf off' Ho' Hm'). destruct (decide (off' = off)) as [->|Hne].
  - rewrite decide_True by constructor. rewrite decide_False in Hf by done. exists w, w'. split_and!; [done | | done].
    rewrite Hf, type_word_own, Hww by (rewrite ?Hcnt; done). apply znth_zupd_eq. lia.
  - pose proof (zupd_type_word t t1 off w' off' Hi Hww Hm Ho' Hm' Hne) as Heq. rewrite Heq in Hf.
    destruct (decide (off' ∈ offs)); [rewrite decide_True by (by constructor) | rewrite decide_False by (rewrite elem_of_cons; tauto)]; done.
Qed.

Lemma fields_rel_mono (R R' : Z -> Z -> Prop) offs t t' :
  (forall w w', R w w' -> R' w w') -> fields_rel R offs t t' -> fields_rel R' offs t t'.
Proof.
  intros HR [Hi Hf]. split; [done |]. intros off Ho Hm. specialize (Hf off Ho Hm).
  destruct (decide (off ∈ offs)); [|done]. destruct Hf as (w & w' & H1 & H2 & H3). exists w, w'. auto.
Qed.

(** Only the words of the two types matter. *)
Lemma fields_rel_words R offs t t' u u' :
  own_words t = own_words u -> own_words t' = own_words u' -> fields_rel R offs t t' -> fields_rel R offs u u'.
Proof.
  intros Hw Hw' [Hi Hf]. destruct (same_words_fields t u Hw) as (_ & Hiu & _). destruct (same_words_fields t' u' Hw') as (_ & Hiu' & _).
  destruct (info_words_cnt t u Hiu) as (Hc & _ & _). destruct (info_words_cnt t' t Hi) as (Hc' & _ & _).
  destruct (info_words_cnt t' u' Hiu') as (Hc2 & _ & _). split; [congruence |]. intros off Ho Hm. rewrite <- Hc in Ho. specialize (Hf off Ho Hm).
  rewrite !type_word_own in Hf |- * by (rewrite ?Hc', <- ?Hc2, <- ?Hc, ?Hc'; done). by rewrite <- Hw, <- Hw'.
Qed.
