(* ===== verification/DedupPrim.v ===== *)
(** * DedupPrim: deduplication of primitive types

    [btf_dedup_prim_types] of [Dedup]: integers, floating-point types, enumerations,
    forward declarations and location parameters.  The pass ends, keeps the state well
    formed and maps each such type; a type that becomes its own representative has words
    that no other representative has, and every other one is linked to a type that may
    stand for it: one of the same words, or the full enumeration of a forward
    declaration. *)
From S2P Require Import Prelude Hashmap Mem Strset BtfTypes Btf BtfFind BtfParse BtfRaw BtfWrite DedupTypes Dedup DedupState.
Open Scope Z_scope.
Open Scope dedup_scope.

#[local] Opaque kind_of_Z.

Section Prim.
Context {C : hash_ctx} {DC : DedupCtx C}.

(** ** Looking for the same words *)

(** Candidates that are types. *)
Definition cands_typed (b : btf) (cands : list Z) : Prop :=
  forall c, c ∈ cands -> exists u, btf_type_by_id b c = Some u /\ type_words_ok u.

(** No candidate has the words of [t]. *)
Definition no_dup (b : btf) (t : btf_type) (cands : list Z) : Prop :=
  forall c u, c ∈ cands -> btf_type_by_id b c = Some u -> own_words t <> own_words u.

Lemma wp_find_equal t cands x (Q : Z -> btf_dedup -> Prop) d :
  type_words_ok t -> exact_kind (btf_kind t) -> cands_typed (d_btf d) cands ->
  (no_dup (d_btf d) t cands -> Q x d) ->
  (forall c u, c ∈ cands -> btf_type_by_id (d_btf d) c = Some u -> own_words t = own_words u -> Q c d) ->
  wp (find_equal t cands x) Q d.
Proof.
  intros Ht Hk. induction cands as [|c cands IH]; intros Hcs Hno Hyes; cbn [find_equal].
  - apply wp_ret, Hno. by intros c u ?%not_elem_of_nil.
  - destruct (Hcs c ltac:(constructor)) as (u & Hu & Huw). apply wp_bind, (wp_type_of c u); [done |].
    destruct (equal_of_kind_spec t u Ht Huw Hk) as (eq & Heq & Hiff). apply wp_bind, (wp_lift _ eq); [done |].
    destruct eq; [apply wp_ret, (Hyes c u); [by constructor | done | by apply Hiff] |].
    assert (Hne : own_words t <> own_words u) by (intros He; by apply Hiff in He).
    apply IH; [intros c' Hc'; apply Hcs; by constructor | | intros c' u' Hc'; apply Hyes; by constructor].
    intros Hn. apply Hno. intros c' u' [->|Hc']%elem_of_cons Hu'; [congruence |]. by apply (Hn c' u').
Qed.

(** ** Making a type canonical *)

(** The kinds of this pass. *)
Definition prim_kind (k : btf_kind_t) : Prop :=
  match k with
  | BTF_KIND_INT | BTF_KIND_ENUM | BTF_KIND_ENUM64 | BTF_KIND_FWD | BTF_KIND_FLOAT | BTF_KIND_LOC_PARAM => True
  | _ => False
  end.

(** What stays the same: all but the map, the table and the memory. *)
Record same_frame (d d' : btf_dedup) : Prop := {
  fr_btf : d_btf d' = d_btf d;
  fr_hypot : hypot_map d' = hypot_map d;
  fr_list : hypot_list d' = hypot_list d;
  fr_strs : d_strs_set d' = d_strs_set d
}.

Lemma same_frame_refl d : same_frame d d.
Proof. by split. Qed.

Lemma same_frame_trans d1 d2 d3 : same_frame d1 d2 -> same_frame d2 d3 -> same_frame d1 d3.
Proof. intros [] []. split; congruence. Qed.

(** The entries of structures, unions and typedefs but [x] stay. *)
Definition graph_kept (b : btf) (x : Z) (m m' : list Z) : Prop :=
  forall y u, btf_type_by_id b y = Some u -> graph_kind (btf_kind u) -> y <> x -> znth m' y = znth m y.

Lemma graph_kept_upd b x m v : graph_kept b x m (zupd m x v).
Proof. intros y u _ _ Hne. apply znth_zupd_ne. congruence. Qed.

(** The result of assigning a representative to [x]. *)
Definition canon_post (d : btf_dedup) (x : Z) (r : Z) (d' : btf_dedup) : Prop :=
  same_frame d d' /\
  ((r = 0 /\ state_ok 0 d' /\ (forall y, mapped (d_map d') y <-> mapped (d_map d) y \/ y = x) /\
    graph_kept (d_btf d) x (d_map d) (d_map d')) \/ r = - ENOMEM).

Lemma wp_set_canon_self open d x tx h :
  state_ok open d -> open = 0 \/ open = x -> 0 < x -> start_id (d_btf d) <= x ->
  btf_type_by_id (d_btf d) x = Some tx -> ~ mapped (d_map d) x -> hash_of_kind tx = Some (Ok h) ->
  (exact_kind (btf_kind tx) -> no_dup (d_btf d) tx (cands_of d h)) ->
  wp (set_canon h x x) (canon_post d x) d.
Proof.
  intros Hst Hop Hx Hs Htx Hm Hh Hno. unfold set_canon.
  assert (Hrx : 0 <= x < zlen (d_map d)).
  { rewrite (st_len _ _ Hst). by eapply btf_type_by_id_range; [apply Hst |]. }
  assert (Hle : x <= BTF_MAX_NR_TYPES).
  { pose proof (db_cnt _ (st_btf _ _ Hst)). rewrite (st_len _ _ Hst) in Hrx. lia. }
  apply wp_bind, wp_map_set; [done |]. rewrite Z.eqb_refl. apply wp_bind.
  destruct (table_add_cands (set_d_map d (zupd (d_map d) x x)) h x (st_table _ _ Hst))
    as (r & tbl & o & Hadd & Hwf & Hcase). exists r, (set_table (set_d_map d (zupd (d_map d) x x)) tbl o).
  split; [done |]. apply wp_ret. split; [by split |].
  destruct Hcase as [[-> Hcs]|[-> _]]; [left|by right]. split; [done |]. split; [|split].
  - by apply (state_ok_canon open d x tx h tbl o).
  - intros y. cbn [d_map set_table set_d_map]. by apply mapped_upd_iff.
  - apply graph_kept_upd.
Qed.

Lemma wp_set_canon_link open d x c tx tc rx h :
  state_ok open d -> open = 0 \/ open = x -> 0 < x -> c <> x ->
  btf_type_by_id (d_btf d) x = Some tx -> btf_type_by_id (d_btf d) c = Some tc ->
  stands_for (fwd_name (d_btf d)) tx tc -> ~ mapped (d_map d) x -> mapped (d_map d) c ->
  resolves (d_map d) c rx -> rx <> x ->
  wp (set_canon h x c) (canon_post d x) d.
Proof.
  intros Hst Hop Hx Hne Htx Htc Hs Hm Hmc Hr Hrx. unfold set_canon.
  assert (Hx' : 0 <= x < zlen (d_map d)).
  { rewrite (st_len _ _ Hst). by eapply btf_type_by_id_range; [apply Hst |]. }
  assert (Hc : c <= BTF_MAX_NR_TYPES).
  { pose proof (db_cnt _ (st_btf _ _ Hst)). pose proof (btf_type_by_id_range _ _ _ (db_ok _ (st_btf _ _ Hst)) Htc). lia. }
  apply wp_bind, wp_map_set; [done |]. replace (x =? c) with false by lia. apply wp_ret. split; [by split |]. left.
  split; [done |]. split; [|split; [intros y; by apply mapped_upd_iff | apply graph_kept_upd]].
  assert (Hst' : state_ok x d) by (destruct Hop as [->| ->]; [by apply state_ok_open | done]).
  apply (state_ok_link x 0 d x c tx tc rx); auto; [|left; by apply (unmapped_no_cand x)].
  apply resolves_upd_tree; [by apply unmapped_root | done..].
Qed.

(** ** Enumerations *)
Lemma compat_enum_spec t u :
  type_words_ok t -> type_words_ok u -> btf_is_any_enum t = true ->
  exists b, btf_compat_enum t u = Some b /\
    (b = true <-> own_words t = own_words u \/
       ((btf_is_enum_fwd t = true \/ btf_is_enum_fwd u = true) /\ btf_is_any_enum u = true /\ name_off t = name_off u)).
Proof.
  intros Ht Hu Ha. unfold btf_compat_enum.
  assert (Hw : own_words t = own_words u -> name_off t = name_off u /\ btf_is_any_enum u = true).
  { intros He. destruct (same_words_fields t u He) as (Hn & Hi & _). destruct (info_derived t u Hi) as (_ & _ & _ & _ & <-). done. }
  destruct (btf_is_enum_fwd t) eqn:Hft; cbn [negb andb].
  { eexists. split; [done |]. rewrite Ha, andb_true_r, andb_true_iff, Z.eqb_eq. split; [tauto |].
    intros [He|(_ & H1 & H2)]; [by apply Hw in He|done]. }
  destruct (btf_is_enum_fwd u) eqn:Hfu; cbn [negb].
  { eexists. split; [done |]. rewrite Ha, andb_true_r, andb_true_iff, Z.eqb_eq. split; [tauto |].
    intros [He|(_ & H1 & H2)]; [by apply Hw in He|done]. }
  destruct (equal_enum_spec t u Ht Hu (any_enum_kind t Ha)) as (b & Hb & Hiff). exists b. split; [done |].
  rewrite Hiff. split; [tauto |]. intros [He|([?|?] & _)]; [done | discriminate..].
Qed.

Lemma enum_equal_spec t u :
  type_words_ok t -> type_words_ok u -> btf_is_any_enum t = true ->
  decides (btf_equal_enum t u) (own_words t = own_words u).
Proof. intros Ht Hu Ha. apply equal_enum_spec; [done.. |]. by apply any_enum_kind. Qed.

Lemma set_d_map_id d : set_d_map d (d_map d) = d.
Proof. by destruct d. Qed.

(** A full enumeration: candidates that are forward declarations are linked to it. *)
Lemma wp_find_enum_full x t cands (Q : Z -> btf_dedup -> Prop) d :
  state_ok x d -> 0 < x -> btf_type_by_id (d_btf d) x = Some t -> ~ mapped (d_map d) x ->
  btf_is_any_enum t = true -> btf_is_enum_fwd t = false ->
  (forall c, c ∈ cands -> exists h, c ∈ cands_of d h) ->
  (forall c m, let d' := set_d_map d m in
     state_ok x d' -> (forall y, mapped m y <-> mapped (d_map d) y) -> graph_kept (d_btf d) x (d_map d) m ->
     (c = x /\ no_dup (d_btf d) t cands) \/
     (c ∈ cands /\ exists u, btf_type_by_id (d_btf d) c = Some u /\ own_words t = own_words u) -> Q c d') ->
  wp (find_enum x t cands x) Q d.
Proof.
  intros Hst Hx Ht Hm Ha Hf. revert d Hst Ht Hm. induction cands as [|c cands IH]; intros d Hst Ht Hm Hcs HQ; cbn [find_enum].
  { apply wp_ret. rewrite <- (set_d_map_id d). apply HQ; [by rewrite set_d_map_id | done | done |]. left. split; [done |]. by intros c u ?%not_elem_of_nil. }
  destruct (Hcs c ltac:(constructor)) as [h Hc]. destruct (st_cand Hst h c Hc) as (u & Hu & Huw & Hr & Hmc & Hself).
  assert (Htw : type_words_ok t) by (by eapply db_words; [apply Hst |]).
  apply wp_bind, (wp_type_of c u); [done |]. destruct (enum_equal_spec t u Htw Huw Ha) as (eq & Heq & Hiff).
  apply wp_bind, (wp_lift _ eq); [done |]. destruct eq.
  { apply wp_ret. rewrite <- (set_d_map_id d). apply HQ; [by rewrite set_d_map_id | done | done |]. right. split; [by constructor |]. exists u. split; [done |]. by apply Hiff. }
  assert (Hne : own_words t <> own_words u) by (intros He; by apply Hiff in He).
  destruct (compat_enum_spec t u Htw Huw Ha) as (co & Hco & Hci). apply wp_bind, (wp_lift _ co); [done |].
  assert (Hgo : forall m, let d' := set_d_map d m in state_ok x d' -> (forall y, mapped m y <-> mapped (d_map d) y) ->
    graph_kept (d_btf d) x (d_map d) m -> wp (find_enum x t cands x) Q d').
  { intros m d' Hst' Hmm Hgk. apply IH; [done | done | change (~ mapped m x); by rewrite Hmm | |].
    - intros c' Hc'. destruct (Hcs c' ltac:(by constructor)) as [h' Hh']. by exists h'.
    - intros c' m' d'' Hst'' Hmm' Hgk' Hor. apply (HQ c' m'); [done | intros y; rewrite Hmm'; apply Hmm | |].
      { intros y v Hv Hg Hyx. rewrite (Hgk' y v Hv Hg Hyx). by apply (Hgk y v). }
      destruct Hor as [[-> Hnd]|[Hc' Hu']]; [left|right; split; [by constructor | done]]. split; [done |].
      intros c2 u2 [->|Hc2]%elem_of_cons Hu2; [congruence | by apply (Hnd c2 u2)]. }
  destruct co; [|rewrite <- (set_d_map_id d); apply Hgo; [by rewrite set_d_map_id | done | done]].
  rewrite Hf. destruct (proj1 Hci eq_refl) as [He|([?|Hfu] & Hau & Hn)]; [by destruct Hne | congruence |].
  assert (Hcx : x <> c) by (intros ->; done).
  assert (Hrc : 0 <= c < zlen (d_map d)) by (rewrite (st_len _ _ Hst); lia).
  assert (Hxm : 0 <= x < zlen (d_map d)) by (rewrite (st_len _ _ Hst); by eapply btf_type_by_id_range; [apply Hst |]).
  assert (Hxle : x <= BTF_MAX_NR_TYPES) by (pose proof (db_cnt _ (st_btf _ _ Hst)); rewrite (st_len _ _ Hst) in Hxm; lia).
  apply wp_bind, wp_map_set; [done |]. apply Hgo.
  - apply (state_ok_link x x d c x u t x); auto; [lia | | ].
    + right. destruct (any_enum_kind u Hau) as [-> | ->]; auto.
    + apply resolves_upd_root; [done | by apply unmapped_root | done..].
  - intros y. rewrite mapped_upd_iff by done. split; [intros [?| ->]; done | auto].
  - intros y v Hv Hg _. apply znth_zupd_ne. intros <-. rewrite Hu in Hv. injection Hv as <-.
    destruct (any_enum_kind u Hau) as [Hk|Hk]; rewrite Hk in Hg; exact Hg.
Qed.

(** A forward declaration is linked to any candidate of its name. *)
Lemma wp_find_enum_fwd x t cands (Q : Z -> btf_dedup -> Prop) d :
  type_words_ok t -> btf_is_enum_fwd t = true -> cands_typed (d_btf d) cands ->
  (no_dup (d_btf d) t cands -> Q x d) ->
  (forall c u, c ∈ cands -> btf_type_by_id (d_btf d) c = Some u -> btf_is_any_enum u = true ->
     name_off t = name_off u -> Q c d) ->
  wp (find_enum x t cands x) Q d.
Proof.
  intros Ht Hf. assert (Ha : btf_is_any_enum t = true) by (unfold btf_is_enum_fwd in Hf; by bools).
  induction cands as [|c cands IH]; intros Hcs Hno Hyes; cbn [find_enum].
  { apply wp_ret, Hno. by intros c u ?%not_elem_of_nil. }
  destruct (Hcs c ltac:(constructor)) as (u & Hu & Huw). apply wp_bind, (wp_type_of c u); [done |].
  destruct (enum_equal_spec t u Ht Huw Ha) as (eq & Heq & Hiff). apply wp_bind, (wp_lift _ eq); [done |].
  destruct eq.
  { apply wp_ret. pose proof (proj1 Hiff eq_refl) as Hw. destruct (same_words_fields t u Hw) as (Hn & Hi & _).
    destruct (info_derived t u Hi) as (_ & _ & _ & _ & Hau). apply (Hyes c u); [by constructor | done | congruence | done]. }
  destruct (compat_enum_spec t u Ht Huw Ha) as (co & Hco & Hci). apply wp_bind, (wp_lift _ co); [done |].
  destruct co; [rewrite Hf; apply wp_ret | apply IH].
  - destruct (proj1 Hci eq_refl) as [Hw|(_ & Hau & Hn)]; [by apply Hiff in Hw |]. by apply (Hyes c u); [constructor | ..].
  - intros c' Hc'. apply Hcs. by constructor.
  - intros Hn. apply Hno. intros c' u' [->|Hc']%elem_of_cons Hu'; [|by apply (Hn c' u')].
    rewrite Hu in Hu'. injection Hu' as <-. intros Hw. by apply Hiff in Hw.
  - intros c' u' Hc'. apply Hyes. by constructor.
Qed.

(** ** One type *)
Section OneType.
Context (d : btf_dedup) (x : Z) (t : btf_type) (Hst : state_ok 0 d) (Hx : 0 < x) (Hown : start_id (d_btf d) <= x)
  (Ht : btf_type_by_id (d_btf d) x = Some t) (Hm : ~ mapped (d_map d) x).

Lemma one_words : type_words_ok t.
Proof. eapply db_words; [apply Hst | exact Ht]. Qed.

Lemma cands_of_typed h : cands_typed (d_btf d) (cands_of d h).
Proof. intros c Hc. destruct (st_cand Hst h c Hc) as (u & Hu & Huw & _). by exists u. Qed.

(** The candidates of the same words, for the kinds that are compared exactly: the pass
    over reference types looks for duplicates in the same way. *)
Lemma wp_exact_canon h :
  exact_kind (btf_kind t) -> btf_is_any_enum t = false -> hash_of_kind t = Some (Ok h) ->
  wp (let* cands := dedup_cands h in let* new_id := find_equal t cands x in set_canon h x new_id)
    (canon_post d x) d.
Proof.
  intros Hk Ha Hh. apply wp_bind, wp_cands, wp_bind, wp_find_equal; [apply one_words | done | apply cands_of_typed | |].
  - intros Hno. by apply (wp_set_canon_self 0 d x t h); auto.
  - intros c u Hc Hu Hw. destruct (st_cand Hst h c Hc) as (u' & Hu' & _ & Hr & Hmc & Hself).
    rewrite Hu in Hu'. injection Hu' as <-. assert (Hcx : c <> x) by (intros ->; done).
    destruct (st_resolves Hst c) as [r Hres]; [lia |].
    apply (wp_set_canon_link 0 d x c t u r h); auto; [by left |]. intros ->.
    destruct (st_type Hst x) as (t' & Ht' & _); [by eapply st_resolves_range |].
    destruct (st_root_mapped Hst c x t' Hres Hmc Ht') as [Hs|[Hz|Hcomp]]; [| lia |].
    + apply Hm. exists x. split; [done |]. pose proof (db_cnt _ (st_btf _ _ Hst)).
      pose proof (st_resolves_range Hst _ _ Hres). lia.
    + rewrite Ht in Ht'. injection Ht' as <-. unfold btf_is_composite in Hcomp. by destruct (btf_kind t).
Qed.

Lemma wp_enum_canon :
  btf_is_any_enum t = true ->
  wp (let* cands := dedup_cands (btf_hash_enum t) in let* new_id := find_enum x t cands x in
      set_canon (btf_hash_enum t) x new_id) (canon_post d x) d.
Proof.
  intros Ha. assert (Hh : hash_of_kind t = Some (Ok (btf_hash_enum t))).
  { unfold hash_of_kind. by destruct (any_enum_kind t Ha) as [-> | ->]. }
  apply wp_bind, wp_cands, wp_bind. destruct (btf_is_enum_fwd t) eqn:Hf.
  - apply wp_find_enum_fwd; [apply one_words | done | apply cands_of_typed | |].
    { intros Hno. by apply (wp_set_canon_self 0 d x t _); auto. }
    intros c u Hc Hu Hau Hn. destruct (st_cand Hst _ c Hc) as (u' & Hu' & _ & Hr & Hmc & Hself).
    assert (Hcx : c <> x) by (intros ->; done). destruct (st_resolves Hst c) as [r Hres]; [lia |].
    apply (wp_set_canon_link 0 d x c t u r _); auto.
    { right. destruct (any_enum_kind t Ha) as [-> | ->]; auto. }
    intros ->. destruct (st_root_mapped Hst c x t Hres Hmc Ht) as [Hs|[Hz|Hcomp]]; [| lia |].
    + apply Hm. exists x. split; [done |]. pose proof (db_cnt _ (st_btf _ _ Hst)).
      pose proof (st_resolves_range Hst _ _ Hres). lia.
    + unfold btf_is_composite in Hcomp. by destruct (any_enum_kind t Ha) as [Hk|Hk]; rewrite Hk in Hcomp.
  - apply wp_find_enum_full; [by apply state_ok_open | done.. | by eauto |].
    intros c m d' Hst' Hmm Hgk Hor. assert (Hm' : ~ mapped m x) by (by rewrite Hmm).
    apply (wp_mono _ (canon_post d' x)).
    + destruct Hor as [[-> Hno]|(Hc & u & Hu & Hw)]; [by apply (wp_set_canon_self x d' x t _); auto |].
      destruct (st_cand Hst' (btf_hash_enum t) c Hc) as (u' & Hu' & _ & Hr & Hmc & Hself).
      assert (Hcx : c <> x) by (intros ->; done). apply (wp_set_canon_link x d' x c t u c _); auto; [by left |].
      apply resolves_root. change (d_btf d') with (d_btf d) in Hu'. rewrite Hu in Hu'. injection Hu' as <-.
      destruct (same_words_fields t u Hw) as (_ & Hi & _). destruct (info_derived t u Hi) as (Hk & _ & _ & Hef & _).
      destruct Hself as [Hs|[Hs|Hs]]; [exists c; auto | congruence |].
      unfold btf_is_fwd in Hs. rewrite <- Hk in Hs. destruct (any_enum_kind t Ha) as [Hk'|Hk']; rewrite Hk' in Hs; discriminate.
    + intros r d2 [Hfr Hcase]. split; [destruct Hfr; split; done |].
      destruct Hcase as [(-> & Hst2 & Hmap & Hg2)| ->]; [left|by right]. split; [done |]. split; [done |]. split.
      * intros y. rewrite Hmap. change (d_map d') with m. by rewrite Hmm.
      * intros y v Hv Hg Hyx. rewrite (Hg2 y v Hv Hg Hyx). by apply (Hgk y v).
Qed.
End OneType.

Lemma btf_dedup_prim_type_ok d x t :
  state_ok 0 d -> start_id (d_btf d) <= x -> btf_type_by_id (d_btf d) x = Some t ->
  (prim_kind (btf_kind t) -> ~ mapped (d_map d) x) ->
  wp (btf_dedup_prim_type x) (fun r d' => same_frame d d' /\
    ((r = 0 /\ state_ok 0 d' /\ known_kind (btf_kind t) /\
      (forall y, mapped (d_map d') y <-> mapped (d_map d) y \/ (y = x /\ prim_kind (btf_kind t))) /\
      forall y u, btf_type_by_id (d_btf d) y = Some u -> graph_kind (btf_kind u) -> znth (d_map d') y = znth (d_map d) y) \/
     r = - ENOMEM \/ (r = - EINVAL /\ ~ known_kind (btf_kind t)))) d.
Proof.
  intros Hst Hown Ht Hm. pose proof (db_start (st_btf _ _ Hst)) as Hs. unfold btf_dedup_prim_type.
  apply wp_bind, (wp_type_of x t); [done |].
  assert (Hpost : forall m, known_kind (btf_kind t) -> prim_kind (btf_kind t) -> wp m (canon_post d x) d ->
    wp m (fun r d' => same_frame d d' /\
    ((r = 0 /\ state_ok 0 d' /\ known_kind (btf_kind t) /\
      (forall y, mapped (d_map d') y <-> mapped (d_map d) y \/ (y = x /\ prim_kind (btf_kind t))) /\
      forall y u, btf_type_by_id (d_btf d) y = Some u -> graph_kind (btf_kind u) -> znth (d_map d') y = znth (d_map d) y) \/
     r = - ENOMEM \/ (r = - EINVAL /\ ~ known_kind (btf_kind t)))) d).
  { intros m Hk Hp Hwp. eapply wp_mono; [exact Hwp |]. intros r d' [Hf Hc]. split; [done |].
    destruct Hc as [(-> & Hst' & Hmap & Hgk)| ->]; [left | auto]. split_and!; [done..| intros y; rewrite Hmap; tauto |].
    intros y u Hu Hg. apply (Hgk y u Hu Hg). intros ->. rewrite Ht in Hu. injection Hu as <-. revert Hp Hg. by destruct (btf_kind t). }
  pose proof (one_words d x t Hst Ht) as Htw. pose proof (hash_of_kind_total t Htw) as Hhash.
  pose proof (wp_exact_canon d x t Hst ltac:(lia) Hown Ht) as Hexact.
  pose proof (wp_enum_canon d x t Hst ltac:(lia) Hown Ht) as Henum.
  unfold hash_of_kind, btf_is_any_enum in *.
  destruct (btf_kind t) eqn:Hk; cbn [known_kind exact_kind shallow_kind prim_kind] in *;
    try (apply wp_ret; split; [apply same_frame_refl |]; first [right; right; by split; [| intros []]
      | left; split_and!; [done.. | intros y; tauto | done]]).
  all: try (by apply Hpost, Henum; auto).
  all: try (by apply Hpost, Hexact; auto).
  all: destruct (Hhash I) as (r & Hr & Hh); destruct (Hh (or_introl I)) as [h ->].
  all: match goal with |- wp (let* h := lift ?m in _) _ _ => destruct m as [h'|] eqn:Hhk; cbn in Hr; [|discriminate] end.
  all: injection Hr as ->; apply wp_bind, (wp_lift _ h); [done |]; by apply Hpost, Hexact; auto.
Qed.

(** The own types of the kinds of this pass have not been mapped. *)
Definition prim_unmapped (d : btf_dedup) : Prop :=
  forall y u, btf_type_by_id (d_btf d) y = Some u -> start_id (d_btf d) <= y -> prim_kind (btf_kind u) ->
    ~ mapped (d_map d) y.

(** The types that the pass has mapped so far. *)
Record prim_done (d0 : btf_dedup) (k : Z) (d : btf_dedup) : Prop := {
  pd_frame : same_frame d0 d;
  pd_state : state_ok 0 d;
  pd_known : forall y u, btf_type_by_id (d_btf d0) y = Some u -> start_id (d_btf d0) <= y < k -> known_kind (btf_kind u);
  pd_mapped : forall y u, btf_type_by_id (d_btf d0) y = Some u ->
    mapped (d_map d) y <-> mapped (d_map d0) y \/ (start_id (d_btf d0) <= y < k /\ prim_kind (btf_kind u));
  pd_graph : forall y u, btf_type_by_id (d_btf d0) y = Some u -> graph_kind (btf_kind u) -> znth (d_map d) y = znth (d_map d0) y
}.

Lemma btf_dedup_prim_types_ok d :
  state_ok 0 d -> prim_unmapped d ->
  wp btf_dedup_prim_types (fun r d' =>
    (r = 0 /\ prim_done d (type_cnt (d_btf d)) d') \/ ((r = - ENOMEM \/ r = - EINVAL) /\ same_frame d d')) d.
Proof.
  intros Hst Hun. unfold btf_dedup_prim_types.
  eapply wp_mono; [apply (wp_for_types _ _ (prim_done d)
    (fun r d' => (r = - ENOMEM \/ r = - EINVAL) /\ same_frame d d')) |].
  - apply Hst.
  - split; [apply same_frame_refl | done | intros; lia | | done]. intros y u Hu. split; [auto |]. intros [?|[? _]]; [done | lia].
  - intros k d1 Hk [Hf Hs Hkn Hmap Hgr]. pose proof (db_start (st_btf _ _ Hst)) as Hstart.
    destruct (st_type Hst k) as (t & Ht & _); [unfold type_cnt in *; lia |].
    eapply wp_mono; [apply (btf_dedup_prim_type_ok d1 k t) |].
    + done.
    + rewrite (fr_btf _ _ Hf). lia.
    + by rewrite (fr_btf _ _ Hf).
    + intros Hp. rewrite (Hmap k t Ht). intros [Hm|[? _]]; [|lia]. apply (Hun k t Ht); [lia | exact Hp | exact Hm].
    + cbn beta. intros r d2 [Hf2 Hcase]. pose proof (same_frame_trans _ _ _ Hf Hf2) as Hf'.
      destruct Hcase as [(-> & Hs2 & Hk2 & Hm2 & Hg2)|[->|[-> _]]]; [| by split; [auto |].. ].
      split; [done..| | |].
      * intros y u Hu Hy. destruct (decide (y = k)) as [->|]; [congruence |]. apply (Hkn y u); [done | lia].
      * intros y u Hu. rewrite Hm2, (Hmap y u Hu). destruct (decide (y = k)) as [->|Hne].
        { rewrite Ht in Hu. injection Hu as <-. split; [intros [[?|[? ?]]|[_ ?]] | intros [?|[? ?]]]; auto; right; split; auto; lia. }
        split; [intros [[?|[? ?]]|[? ?]] | intros [?|[? ?]]]; auto; [right; split; [lia | done] | done |].
        left. right. split; [lia | done].
      * intros y u Hu Hg. rewrite (Hg2 y u); [by apply (Hgr y u) | by rewrite (fr_btf _ _ Hf) | done].
  - cbn beta. intros r d' [[-> Hd]|[_ Hd]]; auto.
Qed.
End Prim.
