(* ===== verification/DedupEquiv.v ===== *)
(** * DedupEquiv: equivalence of type graphs

    [btf_dedup_identical_types] and [btf_dedup_is_equiv] of [Dedup].  The second one
    returns because each call that goes on to further calls enters a type into the
    hypothetical map; the first one does when no chain of reference types leads back into
    itself ([chains_end]).  When the graphs are found equivalent, the hypothetical map is a
    bisimulation up to the canonical map: the two types of every entry agree in all but
    identifiers, and identifiers at the same places lead to types with the same
    representative, to another entry, or to types that were compared directly. *)
From S2P Require Import Prelude Hashmap Mem Strset BtfTypes Btf BtfFind BtfParse BtfRaw BtfWrite DedupTypes Dedup DedupState.
Open Scope Z_scope.
Open Scope dedup_scope.

#[local] Opaque kind_of_Z.

(** ** Chains of reference types *)
Definition chain_kind (k : btf_kind_t) : Prop :=
  match k with
  | BTF_KIND_CONST | BTF_KIND_VOLATILE | BTF_KIND_RESTRICT | BTF_KIND_PTR | BTF_KIND_TYPEDEF
  | BTF_KIND_FUNC | BTF_KIND_TYPE_TAG => True
  | _ => False
  end.

#[export] Instance chain_kind_dec k : Decision (chain_kind k).
Proof. destruct k; apply _. Defined.

(** [rank] says how far each type is from the end of its chain. *)
Definition chains_end (b : btf) (rank : Z -> Z) : Prop :=
  forall id t, btf_type_by_id b id = Some t ->
    0 <= rank id <= type_cnt b /\ (chain_kind (btf_kind t) -> rank (t_type t) < rank id).

(** ** Identifiers in types *)
Section Fields.
Context {b : btf} (Hb : dedup_btf b).

Lemma child_valid id t off w :
  btf_type_by_id b id = Some t -> off ∈ id_fields (btf_kind t) (btf_vlen t) -> type_word t off = Some w ->
  0 <= w < type_cnt b.
Proof. apply (db_ids b Hb). Qed.

Lemma chain_field t : chain_kind (btf_kind t) -> id_fields (btf_kind t) (btf_vlen t) = [8].
Proof. by destruct (btf_kind t). Qed.

Lemma chain_child id t : btf_type_by_id b id = Some t -> chain_kind (btf_kind t) -> 0 <= t_type t < type_cnt b.
Proof.
  intros Ht Hk. apply (child_valid id t 8); [done | | done]. rewrite chain_field by done. by apply list_elem_of_singleton.
Qed.

Lemma array_child id t :
  btf_type_by_id b id = Some t -> btf_kind t = BTF_KIND_ARRAY ->
  exists a, btf_array t = Some a /\ 0 <= array_type a < type_cnt b /\ 0 <= array_index_type a < type_cnt b /\
    type_word t 12 = Some (array_type a) /\ type_word t 16 = Some (array_index_type a).
Proof.
  intros Ht Hk. pose proof (words_room t (db_words Hb id t Ht)) as Hr. unfold words_cnt in Hr. rewrite Hk in Hr.
  specialize (Hr I). cbn [extra_words] in Hr. destruct (znth_is_Some (extra t) 0) as [x Hx]; [lia |].
  destruct (znth_is_Some (extra t) 1) as [y Hy]; [lia |]. destruct (znth_is_Some (extra t) 2) as [z Hz]; [lia |].
  unfold btf_array. rewrite Hx, Hy, Hz. exists (BtfArray x y z). cbn [array_type array_index_type].
  assert (H12 : type_word t 12 = Some x) by done. assert (H16 : type_word t 16 = Some y) by done.
  split_and!; try done; eapply (child_valid id t); try done; rewrite Hk; cbn [id_fields]; by repeat constructor.
Qed.

Lemma member_child id t i :
  btf_type_by_id b id = Some t -> btf_kind t = BTF_KIND_STRUCT \/ btf_kind t = BTF_KIND_UNION ->
  0 <= i < btf_vlen t ->
  exists m, btf_member t i = Some m /\ 0 <= member_type m < type_cnt b /\
    type_word t (12 + i * 12 + 4) = Some (member_type m).
Proof.
  intros Ht Hk Hi. pose proof (words_room t (db_words Hb id t Ht)) as Hr. unfold words_cnt in Hr.
  assert (Hl : 3 * btf_vlen t <= zlen (extra t)) by (destruct Hk as [Hk|Hk]; rewrite Hk in Hr; by apply Hr).
  destruct (words3 t i) as (x & y & z & Hx & Hy & Hz & _ & Hw); [lia.. |]. unfold btf_member. rewrite Hx, Hy, Hz.
  exists (BtfMember x y z). cbn [member_type]. split_and!; try done; eapply (child_valid id t); try done;
    (destruct Hk as [-> | ->]; cbn [id_fields]; by apply elem_of_in_elems_2; [|constructor]).
Qed.

Lemma param_child id t i :
  btf_type_by_id b id = Some t -> btf_kind t = BTF_KIND_FUNC_PROTO -> 0 <= i < btf_vlen t ->
  exists p, btf_param t i = Some p /\ 0 <= param_type p < type_cnt b /\
    type_word t (12 + i * 8 + 4) = Some (param_type p).
Proof.
  intros Ht Hk Hi. pose proof (words_room t (db_words Hb id t Ht)) as Hr. unfold words_cnt in Hr. rewrite Hk in Hr.
  specialize (Hr I). cbn [extra_words] in Hr.
  destruct (words2 t i) as (x & y & Hx & Hy & _ & Hw); [lia.. |]. unfold btf_param. rewrite Hx, Hy.
  exists (BtfParam x y). cbn [param_type]. split_and!; try done; eapply (child_valid id t); try done;
    (rewrite Hk; cbn [id_fields]; constructor; by apply elem_of_in_elems_2; [|constructor]).
Qed.

Lemma proto_child id t :
  btf_type_by_id b id = Some t -> btf_kind t = BTF_KIND_FUNC_PROTO -> 0 <= t_type t < type_cnt b.
Proof. intros Ht Hk. apply (child_valid id t 8); [done | | done]. rewrite Hk. cbn [id_fields]. constructor. Qed.
End Fields.

(** ** Direct comparison *)
Lemma identical_elems_total n i ids rec :
  (forall j, i <= j < i + Z.of_nat n -> exists x y, ids j = Some (x, y) /\ is_Some (rec x y)) ->
  is_Some (identical_elems n i ids rec).
Proof.
  revert i. induction n as [|n IH]; intros i Hids; cbn [identical_elems]; [by eexists |].
  destruct (Hids i ltac:(lia)) as (x & y & -> & [ok Hok]). cbn [mbind option_bind].
  assert (He : exists ok', (if x =? y then Some true else rec x y) = Some ok') by (case_if; eauto).
  destruct He as [ok' ->]. cbn [mbind option_bind]. case_if; [by eexists |]. apply IH. intros j Hj. apply Hids. lia.
Qed.

Section Identical.
Context {b : btf} (Hb : dedup_btf b) {rank : Z -> Z} (Hrank : chains_end b rank).

(** The comparisons of two types are defined, and shallow ones succeed only on types with
    as many elements. *)
Lemma compare_total t1 t2 :
  type_words_ok t1 -> type_words_ok t2 ->
  (exact_kind (btf_kind t1) -> is_Some (equal_of_kind t1 t2)) /\
  (btf_is_any_enum t1 = true -> is_Some (btf_compat_enum t1 t2)) /\
  (shallow_kind (btf_kind t1) -> exists ok, shallow_of_kind t1 t2 = Some ok /\ (ok = true -> same_shape t1 t2)).
Proof.
  intros H1 H2. split_and!.
  - intros Hk. destruct (equal_of_kind_spec t1 t2 H1 H2 Hk) as (ok & -> & _). by eexists.
  - intros Ha. unfold btf_compat_enum. case_if; [|by eexists].
    destruct (equal_enum_spec t1 t2 H1 H2 (any_enum_kind t1 Ha)) as (eq & -> & _). by eexists.
  - intros Hk. destruct (shallow_of_kind_spec t1 t2 H1 H2 Hk) as (ok & -> & Hiff). exists ok. split; [done |]. by apply Hiff.
Qed.

(** The identifiers of the elements of two types of the same shape. *)
Lemma member_ids id1 id2 t1 t2 :
  btf_type_by_id b id1 = Some t1 -> btf_type_by_id b id2 = Some t2 -> same_shape t1 t2 ->
  btf_kind t1 = BTF_KIND_STRUCT \/ btf_kind t1 = BTF_KIND_UNION ->
  forall j, 0 <= j < 0 + Z.of_nat (Z.to_nat (btf_vlen t1)) ->
  exists x y, (m1 ← btf_member t1 j; m2 ← btf_member t2 j; Some (member_type m1, member_type m2)) = Some (x, y) /\
    0 <= x < type_cnt b /\ 0 <= y < type_cnt b /\
    type_word t1 (12 + j * 12 + 4) = Some x /\ type_word t2 (12 + j * 12 + 4) = Some y.
Proof.
  intros Ht1 Ht2 Hs Hk j Hj. destruct (info_words_cnt t1 t2 (same_shape_info _ _ Hs)) as (_ & Hk2 & Hv2).
  pose proof (vlen_range t1). destruct (member_child Hb id1 t1 j Ht1 Hk) as (m1 & -> & ? & ?); [lia |].
  rewrite Hk2 in Hk. destruct (member_child Hb id2 t2 j Ht2 Hk) as (m2 & -> & ? & ?); [lia |]. by do 2 eexists.
Qed.

Lemma param_ids id1 id2 t1 t2 :
  btf_type_by_id b id1 = Some t1 -> btf_type_by_id b id2 = Some t2 -> same_shape t1 t2 ->
  btf_kind t1 = BTF_KIND_FUNC_PROTO ->
  forall j, 0 <= j < 0 + Z.of_nat (Z.to_nat (btf_vlen t1)) ->
  exists x y, (p1 ← btf_param t1 j; p2 ← btf_param t2 j; Some (param_type p1, param_type p2)) = Some (x, y) /\
    0 <= x < type_cnt b /\ 0 <= y < type_cnt b /\
    type_word t1 (12 + j * 8 + 4) = Some x /\ type_word t2 (12 + j * 8 + 4) = Some y.
Proof.
  intros Ht1 Ht2 Hs Hk j Hj. destruct (info_words_cnt t1 t2 (same_shape_info _ _ Hs)) as (_ & Hk2 & Hv2).
  pose proof (vlen_range t1). destruct (param_child Hb id1 t1 j Ht1 Hk) as (m1 & -> & ? & ?); [lia |].
  rewrite Hk2 in Hk. destruct (param_child Hb id2 t2 j Ht2 Hk) as (m2 & -> & ? & ?); [lia |]. by do 2 eexists.
Qed.

(** Every call that does not return at once is closer to the depth limit, or to the end of
    a chain. *)
Lemma identical_types_total fuel id1 id2 depth :
  0 <= id1 < type_cnt b -> 0 <= id2 < type_cnt b ->
  Z.max 0 depth * (type_cnt b + 1) + rank id1 < Z.of_nat fuel ->
  is_Some (btf_dedup_identical_types fuel b id1 id2 depth).
Proof.
  revert id1 id2 depth. induction fuel as [|fuel IH]; intros id1 id2 depth H1 H2 Hf.
  { destruct (db_type Hb id1 H1) as (t & Ht & _). destruct (Hrank id1 t Ht). nia. }
  cbn [btf_dedup_identical_types].
  destruct (db_type Hb id1 H1) as (t1 & Ht1 & Hw1). destruct (db_type Hb id2 H2) as (t2 & Ht2 & Hw2).
  rewrite Ht1, Ht2. cbn [mbind option_bind]. destruct (depth <=? 0) eqn:Hd; [by eexists |].
  destruct (Hrank id1 t1 Ht1) as [Hr1 Hch].
  assert (Hrec : forall x y, 0 <= x < type_cnt b -> 0 <= y < type_cnt b ->
    is_Some (btf_dedup_identical_types fuel b x y (depth - 1))).
  { intros x y Hx Hy. apply IH; [done.. |]. destruct (db_type Hb x Hx) as (tx & Htx & _).
    destruct (Hrank x tx Htx) as [Hrx _]. rewrite Z.max_r in Hf |- * by lia. nia. }
  assert (Hif : forall x y, 0 <= x < type_cnt b -> 0 <= y < type_cnt b ->
    exists ok, (if x =? y then Some true else btf_dedup_identical_types fuel b x y (depth - 1)) = Some ok).
  { intros x y Hx Hy. case_if; [by eexists |]. by apply Hrec. }
  destruct (compare_total t1 t2 Hw1 Hw2) as (Hex & Henum & Hsh).
  destruct (bool_decide (btf_kind t1 = btf_kind t2)) eqn:Hkk; cbn [negb]; [|by eexists].
  apply bool_decide_eq_true in Hkk. pose proof (chain_child Hb id1 t1 Ht1) as Hc1.
  pose proof (chain_child Hb id2 t2 Ht2) as Hc2. rewrite <- Hkk in Hc2.
  assert (Hchain : chain_kind (btf_kind t1) -> is_Some (if negb (info t1 =? info t2) || negb (name_off t1 =? name_off t2)
    then Some false else btf_dedup_identical_types fuel b (t_type t1) (t_type t2) depth)).
  { intros Hk. case_if; [by eexists |]. apply IH; [by apply Hc1 | by apply Hc2 |]. specialize (Hch Hk). lia. }
  pose proof (member_ids id1 id2 t1 t2 Ht1 Ht2) as Hmem. pose proof (param_ids id1 id2 t1 t2 Ht1 Ht2) as Hpar.
  assert (Helems : forall n ids, (forall j, 0 <= j < 0 + Z.of_nat n -> exists x y, ids j = Some (x, y) /\
      0 <= x < type_cnt b /\ 0 <= y < type_cnt b /\ True) ->
    is_Some (identical_elems n 0 ids (fun x y => btf_dedup_identical_types fuel b x y (depth - 1)))).
  { intros n ids Hids. apply identical_elems_total. intros j Hj. destruct (Hids j Hj) as (x & y & -> & ? & ? & _). eauto. }
  unfold shallow_of_kind, equal_of_kind, btf_is_any_enum in *.
  destruct (btf_kind t1) eqn:Hk; cbn [chain_kind shallow_kind exact_kind] in *; try (by eexists); try (by apply Hchain);
    try (by apply Henum); try (by apply Hex); destruct (Hsh I) as (ok & -> & Hok); cbn [mbind option_bind];
    (destruct ok; cbn [negb]; [|by eexists]).
  - destruct (array_child Hb id1 t1 Ht1 Hk) as (a1 & -> & ? & ? & _).
    destruct (array_child Hb id2 t2 Ht2 (eq_sym Hkk)) as (a2 & -> & ? & ? & _). cbn [mbind option_bind].
    destruct (Hif (array_index_type a1) (array_index_type a2)) as [ok ->]; [done.. |]. cbn [mbind option_bind].
    destruct ok; cbn [negb]; [|by eexists]. by apply Hif.
  - apply Helems. intros j Hj. destruct (Hmem (Hok eq_refl) (or_introl eq_refl) j Hj) as (x & y & ? & ? & ? & _). eauto 10.
  - apply Helems. intros j Hj. destruct (Hmem (Hok eq_refl) (or_intror eq_refl) j Hj) as (x & y & ? & ? & ? & _). eauto 10.
  - pose proof (proto_child Hb id1 t1 Ht1 Hk). pose proof (proto_child Hb id2 t2 Ht2 (eq_sym Hkk)).
    destruct (Hif (t_type t1) (t_type t2)) as [ok ->]; [done.. |]. cbn [mbind option_bind].
    destruct ok; cbn [negb]; [|by eexists]. apply Helems. intros j Hj.
    destruct (Hpar (Hok eq_refl) eq_refl j Hj) as (x & y & ? & ? & ? & _). eauto 10.
Qed.

Lemma identical_total id1 id2 :
  0 <= id1 < type_cnt b -> 0 <= id2 < type_cnt b ->
  is_Some (btf_dedup_identical_types (identical_fuel b) b id1 id2 16).
Proof.
  intros H1 H2. apply identical_types_total; [done.. |]. unfold identical_fuel. rewrite (db_type_cnt Hb).
  destruct (db_type Hb id1 H1) as (t & Ht & _). destruct (Hrank id1 t Ht) as [Hr _]. pose proof (db_start Hb).
  unfold type_cnt in *. set (n := start_id b + nr_types b) in *. assert (1 <= n) by lia. nia.
Qed.
End Identical.

(** ** The hypothetical map *)
Section Equiv.
Context {C : hash_ctx} {DC : DedupCtx C}.

(** An entry of the hypothetical map. *)
Definition entry (d : btf_dedup) (canon cand : Z) : Prop :=
  znth (hypot_map d) canon = Some cand /\ cand <= BTF_MAX_NR_TYPES.

(** Only the hypothetical map (and the memory) has changed. *)
Record hypot_frame (d d' : btf_dedup) : Prop := {
  hf_btf : d_btf d' = d_btf d;
  hf_table : dedup_table d' = dedup_table d;
  hf_map : d_map d' = d_map d;
  hf_strs : d_strs_set d' = d_strs_set d
}.

Lemma hypot_frame_refl d : hypot_frame d d.
Proof. by split. Qed.

Lemma hypot_frame_trans d1 d2 d3 : hypot_frame d1 d2 -> hypot_frame d2 d3 -> hypot_frame d1 d3.
Proof. intros [] []. split; congruence. Qed.

Lemma state_ok_hypot open d d' :
  state_ok open d -> hypot_frame d d' -> hypot_ok (d_btf d') (hypot_map d') (hypot_list d') -> state_ok open d'.
Proof.
  intros [Hb Hlen Hz Hl Hvals Ha Ht Hc Hh [Hco Hun]] [H1 H2 H3 H4] Hh'. destruct d, d'. cbn in *. subst.
  split; try assumption. split; assumption.
Qed.

(** Types that have not been entered yet. *)
Definition unentered (m : list Z) : nat := length (filter (fun v => BTF_MAX_NR_TYPES < v) m).

Lemma unentered_upd m x v w :
  znth m x = Some v -> BTF_MAX_NR_TYPES < v -> w <= BTF_MAX_NR_TYPES ->
  unentered m = S (unentered (zupd m x w)).
Proof.
  unfold znth, zupd, unentered. case_if; [done |]. intros Hx Hv Hw. generalize dependent (Z.to_nat x). clear x Heqb.
  induction m as [|y m IH]; intros [|n] Hn; try done.
  - injection Hn as ->. cbn [insert list_insert]. rewrite filter_cons_True by done. by rewrite filter_cons_False by lia.
  - cbn in Hn. cbn [insert list_insert]. specialize (IH n Hn). destruct (decide (BTF_MAX_NR_TYPES < y)).
    + rewrite !filter_cons_True by done. cbn. by rewrite IH.
    + rewrite !filter_cons_False by done. done.
Qed.

Lemma unentered_length m : (unentered m <= length m)%nat.
Proof. apply length_filter. Qed.

(** Entries are only added. *)
Record hypot_ext (d d' : btf_dedup) : Prop := {
  he_frame : hypot_frame d d';
  he_state : state_ok 0 d';
  he_kept : forall c t, entry d c t -> entry d' c t;
  he_count : (unentered (hypot_map d') <= unentered (hypot_map d))%nat
}.

Lemma hypot_ext_refl d : state_ok 0 d -> hypot_ext d d.
Proof. intros H. split; [apply hypot_frame_refl | done | done | done]. Qed.

Lemma hypot_ext_trans d1 d2 d3 : hypot_ext d1 d2 -> hypot_ext d2 d3 -> hypot_ext d1 d3.
Proof. intros [F1 S1 K1 C1] [F2 S2 K2 C2]. split; [by eapply hypot_frame_trans | done | auto | lia]. Qed.

Lemma wp_hypot_add d canon cand v :
  state_ok 0 d -> znth (hypot_map d) canon = Some v -> BTF_MAX_NR_TYPES < v -> 0 <= cand < type_cnt (d_btf d) ->
  wp (btf_dedup_hypot_map_add canon cand) (fun r d' =>
    r = - ENOMEM /\ hypot_ext d d' \/
    r = 0 /\ hypot_ext d d' /\ entry d' canon cand /\
    (unentered (hypot_map d') < unentered (hypot_map d))%nat /\
    hypot_list d' = hypot_list d ++ [canon] /\
    (forall c t, entry d' c t -> entry d c t \/ (c = canon /\ t = cand))) d.
Proof.
  intros Hst Hv Hgt Hcand. pose proof (st_hypot _ _ Hst) as [Hl Hids Hvals].
  assert (Hc : 0 <= canon < zlen (hypot_map d)) by (by apply znth_Some in Hv).
  assert (Hle : cand <= BTF_MAX_NR_TYPES) by (pose proof (db_cnt _ (st_btf _ _ Hst)); lia).
  unfold wp, btf_dedup_hypot_map_add.
  set (p := if zlen (hypot_list d) =? hypot_cap d then _ else _).
  assert (Hp : exists ok cap o, p = (ok, set_hypot_cap d cap o)).
  { unfold p. case_if; [|exists true, (hypot_cap d), (d_oracle d); by destruct d].
    destruct (alloc_array _ _ _) as [ok o]. by exists ok, (hypot_cap d + Z.max 16 (hypot_cap d `div` 2)), o. }
  destruct Hp as (ok & cap & o & ->).
  assert (Hst' : state_ok 0 (set_hypot_cap d cap o)) by (by eapply state_ok_hypot; [exact Hst | split |]).
  destruct ok; cbn [negb].
  2: { do 2 eexists. split; [done |]. left. split; [done |]. by split; [split | | |]. }
  cbn [hypot_map hypot_list set_hypot_cap]. rewrite array_set_spec by done. cbn [mbind option_bind].
  do 2 eexists. split; [done |]. right. split; [done |].
  pose proof (unentered_upd _ _ _ cand Hv Hgt Hle) as Hcnt. split_and!; [split | | | |].
  - by split.
  - eapply state_ok_hypot; [exact Hst | by split |]. cbn [hypot_map hypot_list set_hypot d_btf set_hypot_cap].
    split; [by rewrite zlen_zupd | |].
    + apply Forall_app. split; [done |]. constructor; [lia | constructor].
    + intros id w Hw. destruct (decide (canon = id)) as [<-|Hne].
      * rewrite znth_zupd_eq in Hw by done. injection Hw as <-. right. split; [|lia]. apply elem_of_app. right. constructor.
      * rewrite znth_zupd_ne in Hw by done. rewrite elem_of_app, list_elem_of_singleton.
        destruct (Hvals id w Hw) as [[-> Hni]|[Hin Hr]]; [left; split; [done | by intros [?| ->]] | right; tauto].
  - intros c t [Ht Htle]. split; [|done]. cbn [hypot_map set_hypot]. rewrite znth_zupd_ne; [done |].
    intros <-. rewrite Hv in Ht. injection Ht as <-. lia.
  - cbn [hypot_map set_hypot]. lia.
  - split; [|done]. cbn [hypot_map set_hypot]. by rewrite znth_zupd_eq.
  - cbn [hypot_map set_hypot]. lia.
  - done.
  - intros c t [Ht Htle]. cbn [hypot_map set_hypot] in Ht. destruct (decide (canon = c)) as [<-|Hne].
    + rewrite znth_zupd_eq in Ht by done. injection Ht as <-. auto.
    + rewrite znth_zupd_ne in Ht by done. left. by split.
Qed.

(** ** What an equivalence establishes *)

(** The type whose entry is looked up for [y]: what a resolved forward declaration
    stands for. *)
Definition fwd_target (d : btf_dedup) (y c : Z) : Prop :=
  exists t r u, btf_type_by_id (d_btf d) y = Some t /\ resolves (d_map d) y r /\
    btf_type_by_id (d_btf d) r = Some u /\ c = if btf_is_fwd t && negb (btf_is_fwd u) then r else y.

(** [x] of the candidate graph corresponds to [y] of the canonical one. *)
Inductive related (d : btf_dedup) (x y : Z) : Prop :=
| related_root r : resolves (d_map d) x r -> resolves (d_map d) y r -> related d x y
| related_entry c : fwd_target d y c -> entry d c x -> related d x y
| related_identical c h : fwd_target d y c -> entry d c h ->
    btf_dedup_identical_types (identical_fuel (d_btf d)) (d_btf d) h x 16 = Some true -> related d x y.

(** Two types agree but for what they refer to: [t] of the candidate graph, [u] of the
    canonical one. *)
Definition local_ok (t u : btf_type) : Prop :=
  name_off t = name_off u /\
  ((btf_kind t = BTF_KIND_FWD /\ btf_kind u = btf_fwd_kind t) \/
   (btf_kind u = BTF_KIND_FWD /\ btf_kind t = btf_fwd_kind u) \/
   (exact_kind (btf_kind t) /\ own_words t = own_words u) \/
   (btf_is_any_enum t = true /\ btf_is_any_enum u = true /\
    (btf_is_enum_fwd t = true \/ btf_is_enum_fwd u = true)) \/
   (shallow_kind (btf_kind t) /\ same_shape t u)).

(** Identifiers at the same places correspond. *)
Definition children_related (d : btf_dedup) (t u : btf_type) : Prop :=
  shallow_kind (btf_kind t) -> same_shape t u ->
  forall off, off ∈ id_fields (btf_kind t) (btf_vlen t) ->
    exists x y, type_word t off = Some x /\ type_word u off = Some y /\ related d x y.

Definition entry_ok (d : btf_dedup) (c x : Z) : Prop :=
  exists t u, btf_type_by_id (d_btf d) x = Some t /\ btf_type_by_id (d_btf d) c = Some u /\
    local_ok t u /\ children_related d t u.

Definition new_ok (d d' : btf_dedup) : Prop := forall c x, entry d' c x -> entry d c x \/ entry_ok d' c x.

Definition equiv_code (r : Z) : Prop := r = 1 \/ r = 0 \/ r = - ENOMEM \/ r = - EINVAL.

Definition equiv_post (d : btf_dedup) (P : btf_dedup -> Prop) (r : Z) (d' : btf_dedup) : Prop :=
  hypot_ext d d' /\ equiv_code r /\ (r = 1 -> P d' /\ new_ok d d').

Lemma fwd_target_frame d d' y c : hypot_frame d d' -> fwd_target d y c -> fwd_target d' y c.
Proof. intros [H1 _ H3 _]. unfold fwd_target. by rewrite H1, H3. Qed.

Lemma related_ext d d' x y : hypot_ext d d' -> related d x y -> related d' x y.
Proof.
  intros [F _ K _] [r H1 H2|c H1 H2|c h H1 H2 H3].
  - apply (related_root _ _ _ r); by rewrite (hf_map _ _ F).
  - apply (related_entry _ _ _ c); [by eapply fwd_target_frame | auto].
  - apply (related_identical _ _ _ c h); [by eapply fwd_target_frame | auto | by rewrite (hf_btf _ _ F)].
Qed.

Lemma children_ext d d' t u : hypot_ext d d' -> children_related d t u -> children_related d' t u.
Proof.
  intros He Hc Hk Hs off Hoff. destruct (Hc Hk Hs off Hoff) as (x & y & Hx & Hy & Hr). exists x, y.
  split_and!; [done.. |]. by eapply related_ext.
Qed.

Lemma entry_ok_ext d d' c x : hypot_ext d d' -> entry_ok d c x -> entry_ok d' c x.
Proof.
  intros He (t & u & Ht & Hu & Hl & Hc). exists t, u. rewrite (hf_btf _ _ (he_frame _ _ He)).
  split_and!; [done.. |]. by eapply children_ext.
Qed.

Lemma new_ok_trans d1 d2 d3 : hypot_ext d2 d3 -> new_ok d1 d2 -> new_ok d2 d3 -> new_ok d1 d3.
Proof.
  intros He H1 H2 c x Hx. destruct (H2 c x Hx) as [H|H]; [|auto]. destruct (H1 c x H) as [H'|H']; [auto |].
  right. by eapply entry_ok_ext.
Qed.

Lemma new_ok_refl d : new_ok d d.
Proof. intros c x. auto. Qed.

(** Two steps of a comparison, the second one only when the first one succeeded. *)
Lemma wp_equiv_then (m : dedup_m Z) (k : dedup_m Z) d (P P' : btf_dedup -> Prop) :
  wp m (equiv_post d P) d ->
  (forall d1, hypot_ext d d1 -> P d1 -> wp k (equiv_post d1 P') d1) ->
  (forall d1 d2, hypot_ext d1 d2 -> P d1 -> P d2) ->
  wp (let* eq := m in if eq <=? 0 then ret eq else k) (equiv_post d (fun d' => P d' /\ P' d')) d.
Proof.
  intros Hm Hk Hmono. apply wp_bind. eapply wp_mono; [exact Hm |]. intros r d1 (He & Hc & HP).
  destruct (r <=? 0) eqn:Hr.
  - apply wp_ret. split_and!; [done.. |]. lia.
  - assert (r = 1) as -> by (destruct Hc as [?|[?|[?|?]]]; [done | lia | unfold ENOMEM in *; lia | unfold EINVAL in *; lia]).
    destruct (HP eq_refl) as [HP1 Hn1]. eapply wp_mono; [by apply Hk |]. intros r2 d2 (He2 & Hc2 & HP2).
    split_and!; [by eapply hypot_ext_trans | done |]. intros ->. destruct (HP2 eq_refl) as [HP' Hn2].
    split_and!; [by eapply Hmono | done | by eapply new_ok_trans].
Qed.

(** The elements of two types in turn. *)
Lemma wp_equiv_elems n i ids rec d N rank :
  state_ok 0 d -> chains_end (d_btf d) rank -> (unentered (hypot_map d) < N)%nat ->
  (forall d x y, state_ok 0 d -> chains_end (d_btf d) rank -> (unentered (hypot_map d) < N)%nat -> 0 <= x < type_cnt (d_btf d) ->
     0 <= y < type_cnt (d_btf d) -> wp (rec x y) (equiv_post d (fun d' => related d' x y)) d) ->
  (forall j, i <= j < i + Z.of_nat n -> exists x y, ids j = Some (x, y) /\
     0 <= x < type_cnt (d_btf d) /\ 0 <= y < type_cnt (d_btf d)) ->
  wp (equiv_elems n i ids rec)
    (equiv_post d (fun d' => forall j x y, i <= j < i + Z.of_nat n -> ids j = Some (x, y) -> related d' x y)) d.
Proof.
  intros Hst Hch HN Hrec. revert i d Hst Hch HN. induction n as [|n IH]; intros i d Hst Hch HN Hids; cbn [equiv_elems].
  - apply wp_ret. split_and!; [by apply hypot_ext_refl | by left |]. intros _. split; [intros j x y Hj; lia | apply new_ok_refl].
  - destruct (Hids i ltac:(lia)) as (x & y & Hxy & Hx & Hy). apply wp_bind, (wp_lift _ (x, y)); [done |]. cbn [fst snd].
    eapply wp_mono; [apply (wp_equiv_then _ _ d (fun d' => related d' x y)
      (fun d' => forall j x y, i + 1 <= j < i + 1 + Z.of_nat n -> ids j = Some (x, y) -> related d' x y)) |].
    + by apply Hrec.
    + intros d1 He _. apply IH; [apply He | by rewrite (hf_btf _ _ (he_frame _ _ He)) | pose proof (he_count _ _ He); lia |].
      intros j Hj. rewrite (hf_btf _ _ (he_frame _ _ He)). apply Hids. lia.
    + intros d1 d2 He. by apply related_ext.
    + intros r d' (He & Hc & HP). split_and!; [done.. |]. intros Hr. destruct (HP Hr) as [[H1 H2] Hn]. split; [|done].
      intros j x' y' Hj Hj'. destruct (decide (j = i)) as [->|]; [congruence |]. apply (H2 j); [lia | done].
Qed.

Lemma wp_is_fwd_at d x t (Q : bool -> btf_dedup -> Prop) :
  dedup_btf (d_btf d) -> btf_type_by_id (d_btf d) x = Some t -> Q (btf_is_fwd t) d -> wp (is_fwd_at x) Q d.
Proof. intros Hb Ht HQ. apply (wp_read _ (btf_is_fwd t)); [|done]. by rewrite (db__type Hb x t Ht). Qed.

Lemma wp_resolve_fwd d y (Q : Z -> btf_dedup -> Prop) :
  state_ok 0 d -> 0 <= y < type_cnt (d_btf d) ->
  (forall c, fwd_target d y c -> 0 <= c < type_cnt (d_btf d) -> Q c d) -> wp (resolve_fwd_id y) Q d.
Proof.
  intros Hst Hy HQ. destruct (st_type Hst y Hy) as (t & Ht & _). destruct (st_resolves Hst y Hy) as [r Hr].
  pose proof (st_resolves_range Hst y r Hr) as Hrr. destruct (st_type Hst r Hrr) as (u & Hu & _).
  assert (Hft : fwd_target d y (if btf_is_fwd t && negb (btf_is_fwd u) then r else y)) by (by exists t, r, u).
  unfold resolve_fwd_id. apply wp_bind, (wp_is_fwd_at d y t); [apply Hst | done |].
  destruct (btf_is_fwd t) eqn:Hf; cbn [negb andb] in *; [|apply wp_ret; by apply HQ].
  apply wp_bind, (wp_resolve y r); [done |]. apply wp_bind, (wp_is_fwd_at d r u); [apply Hst | done |].
  destruct (btf_is_fwd u); cbn [negb] in *; apply wp_ret; by apply HQ.
Qed.

(** The result of comparing the two types of an entry. *)
Definition body_post (d : btf_dedup) (t u : btf_type) : Z -> btf_dedup -> Prop :=
  equiv_post d (fun d' => local_ok t u /\ children_related d' t u).

Lemma body_ret d t u (eq : bool) :
  state_ok 0 d -> (eq = true -> local_ok t u /\ children_related d t u) -> wp (ret (Z.b2z eq)) (body_post d t u) d.
Proof.
  intros Hst H. apply wp_ret. split_and!; [by apply hypot_ext_refl | destruct eq; [by left | by right; left] |].
  intros He. destruct eq; [|done]. split; [auto | apply new_ok_refl].
Qed.

Lemma body_code d t u r : state_ok 0 d -> equiv_code r -> r <> 1 -> wp (ret r) (body_post d t u) d.
Proof. intros Hst Hc Hr. apply wp_ret. by split_and!; [apply hypot_ext_refl | |]. Qed.

(** The kinds that refer to no type. *)
Lemma children_none d t u : ~ shallow_kind (btf_kind t) \/ btf_kind t <> btf_kind u -> children_related d t u.
Proof.
  intros Hn Hk Hs. destruct Hn as [Hn|Hn]; [done |]. destruct Hn.
  by destruct (info_words_cnt t u (same_shape_info _ _ Hs)) as (_ & Hk2 & _).
Qed.

Lemma body_exact d t u m :
  state_ok 0 d -> type_words_ok t -> type_words_ok u -> name_off t = name_off u -> exact_kind (btf_kind t) ->
  ~ shallow_kind (btf_kind t) -> m = equal_of_kind t u ->
  wp (let* eq := lift m in ret (Z.b2z eq)) (body_post d t u) d.
Proof.
  intros Hst Ht Hu Hn Hk Hs ->. destruct (equal_of_kind_spec t u Ht Hu Hk) as (eq & Heq & Hiff).
  apply wp_bind, (wp_lift _ eq); [done |]. apply body_ret; [done |]. intros He. split; [|apply children_none; auto].
  split; [done |]. right. right. left. split; [done |]. by apply Hiff.
Qed.

Lemma body_enum d t u :
  state_ok 0 d -> type_words_ok t -> type_words_ok u -> name_off t = name_off u -> btf_is_any_enum t = true ->
  btf_is_any_enum u = true ->
  wp (let* eq := lift (btf_compat_enum t u) in ret (Z.b2z eq)) (body_post d t u) d.
Proof.
  intros Hst Ht Hu Hn Hat Hau. destruct (compare_total t u Ht Hu) as (_ & Hc & _). destruct (Hc Hat) as [eq Heq].
  apply wp_bind, (wp_lift _ eq); [done |]. apply body_ret; [done |]. intros He.
  split; [split; [done |]|apply children_none; left; intros Hs; destruct (any_enum_kind t Hat) as [Hk|Hk]; rewrite Hk in Hs; exact Hs]. subst eq.
  unfold btf_compat_enum in Heq. destruct (btf_is_enum_fwd t) eqn:Hft; [auto 10 |].
  destruct (btf_is_enum_fwd u) eqn:Hfu; [auto 10 |]. cbn [negb andb] in Heq.
  destruct (equal_enum_spec t u Ht Hu (any_enum_kind t Hat)) as (b & Hb & Hiff). rewrite Hb in Heq. injection Heq as ->.
  right. right. left. split; [by destruct (any_enum_kind t Hat) as [-> | ->] | by apply Hiff].
Qed.

Lemma body_fwd d t u c :
  state_ok 0 d -> name_off t = name_off u -> btf_is_fwd t || btf_is_fwd u = true -> btf_kind t <> btf_kind u ->
  wp (equiv_fwd t u c) (body_post d t u) d.
Proof.
  intros Hst Hn Hf Hk. assert (Hcn : forall d', children_related d' t u) by (intros; apply children_none; auto).
  unfold equiv_fwd. destruct (btf_is_fwd t) eqn:Hft.
  - apply body_ret; [done |]. intros He. split; [|done]. split; [done |]. left. split.
    + unfold btf_is_fwd in Hft. by apply bool_decide_eq_true in Hft.
    + symmetry. by apply bool_decide_eq_true in He.
  - cbn [orb] in Hf. unfold btf_is_fwd in Hf. apply bool_decide_eq_true in Hf.
    assert (Hl : bool_decide (btf_fwd_kind u = btf_kind t) = true -> local_ok t u).
    { intros He. split; [done |]. right. left. split; [done |]. symmetry. by apply bool_decide_eq_true in He. }
    apply wp_bind, (wp_read _ (start_id (d_btf d))); [done |]. case_if; [|by apply body_ret; [|auto]].
    bools. apply wp_bind. eapply wp_modify; [done |]. apply wp_ret. rewrite H.
    assert (Hst' : state_ok 0 (set_hypot d (hypot_map d) (hypot_list d) true)).
    { eapply state_ok_hypot; [exact Hst | by split |]. apply Hst. }
    split_and!; [by split; [split | | |] | by left |]. intros _. split; [auto |]. intros c' x Hx. by left.
Qed.

(** *** Types that refer to others *)
Section Shallow.
Context (rec : Z -> Z -> dedup_m Z) (N : nat) (rank : Z -> Z)
  (Hrec : forall d x y, state_ok 0 d -> chains_end (d_btf d) rank -> (unentered (hypot_map d) < N)%nat -> 0 <= x < type_cnt (d_btf d) ->
     0 <= y < type_cnt (d_btf d) -> wp (rec x y) (equiv_post d (fun d' => related d' x y)) d)
  (d : btf_dedup) (idt idu : Z) (t u : btf_type)
  (Hst : state_ok 0 d) (Hch : chains_end (d_btf d) rank) (HN : (unentered (hypot_map d) < N)%nat)
  (Ht : btf_type_by_id (d_btf d) idt = Some t) (Hu : btf_type_by_id (d_btf d) idu = Some u)
  (Hn : name_off t = name_off u) (Hk : btf_kind t = btf_kind u).

Let Hb := st_btf _ _ Hst.
Let Hwt := db_words Hb idt t Ht.
Let Hwu := db_words Hb idu u Hu.

Lemma body_shape P :
  (forall d', P d' -> same_shape t u -> children_related d' t u) -> shallow_kind (btf_kind t) -> same_shape t u ->
  forall m, wp m (equiv_post d P) d -> wp m (body_post d t u) d.
Proof.
  intros HP Hsk Hs m Hm. eapply wp_mono; [exact Hm |]. intros r d' (He & Hc & H). split_and!; [done.. |].
  intros Hr. destruct (H Hr) as [H1 H2]. split_and!; [|by apply HP|done]. split; [done |]. auto 10.
Qed.

Lemma body_chain :
  chain_kind (btf_kind t) ->
  wp (if negb (info t =? info u) then ret 0 else rec (t_type t) (t_type u)) (body_post d t u) d.
Proof.
  intros Hc. assert (Hsk : shallow_kind (btf_kind t)) by (by destruct (btf_kind t)).
  destruct (info t =? info u) eqn:Hi; cbn [negb]; [|apply body_code; [done | by right; left | done]].
  assert (Hs : same_shape t u).
  { destruct (shallow_of_kind_spec t u Hwt Hwu Hsk) as (b & Hs & Hiff). apply Hiff. unfold shallow_of_kind in Hs.
    assert (Some (btf_equal_typedef t u) = Some b) as [= <-] by (by destruct (btf_kind t)).
    unfold btf_equal_typedef. rewrite Hn, Z.eqb_refl. done. }
  eapply (body_shape (fun d' => related d' (t_type t) (t_type u))); [|done..|].
  - intros d' Hr _ _ _ off Hoff. rewrite chain_field in Hoff by done. apply list_elem_of_singleton in Hoff as ->.
    by exists (t_type t), (t_type u).
  - apply Hrec; [done.. | |]; [by eapply chain_child | eapply chain_child; [done.. |]; by rewrite <- Hk].
Qed.

Lemma body_array :
  btf_kind t = BTF_KIND_ARRAY ->
  wp (let* ok := lift (btf_compat_array t u) in
      if negb ok then ret 0 else
      let* a1 := lift (btf_array t) in let* a2 := lift (btf_array u) in
      let* eq := rec (array_index_type a1) (array_index_type a2) in
      if eq <=? 0 then ret eq else rec (array_type a1) (array_type a2)) (body_post d t u) d.
Proof.
  intros Ha. destruct (compat_array_spec t u Hwt Hwu Ha) as (ok & Hok & Hiff).
  apply wp_bind, (wp_lift _ ok); [done |]. destruct ok; cbn [negb]; [|apply body_code; [done | by right; left | done]].
  destruct (array_child Hb idt t Ht Ha) as (a1 & H1 & ? & ? & W12 & W16).
  destruct (array_child Hb idu u Hu ltac:(congruence)) as (a2 & H2 & ? & ? & V12 & V16).
  apply wp_bind, (wp_lift _ a1); [done |]. apply wp_bind, (wp_lift _ a2); [done |].
  eapply (body_shape (fun d' => related d' (array_index_type a1) (array_index_type a2) /\
    related d' (array_type a1) (array_type a2))); [|by rewrite Ha | by apply Hiff|].
  - intros d' [R1 R2] _ _ _ off Hoff. rewrite Ha in Hoff. cbn [id_fields] in Hoff.
    apply elem_of_cons in Hoff as [->| ->%list_elem_of_singleton]; by do 2 eexists.
  - apply wp_equiv_then; [by apply Hrec | | intros d1 d2 He; by apply related_ext].
    intros d1 He _. rewrite <- (hf_btf _ _ (he_frame _ _ He)) in *.
    apply Hrec; [apply He | done | pose proof (he_count _ _ He); lia | done..].
Qed.

(** Elements whose identifiers are at [12 + sz * j + 4]. *)
Lemma wp_elems_fields sz ids d1 :
  hypot_ext d d1 ->
  (forall j, 0 <= j < 0 + Z.of_nat (Z.to_nat (btf_vlen t)) -> exists x y, ids j = Some (x, y) /\
     0 <= x < type_cnt (d_btf d) /\ 0 <= y < type_cnt (d_btf d) /\
     type_word t (12 + j * sz + 4) = Some x /\ type_word u (12 + j * sz + 4) = Some y) ->
  wp (equiv_elems (Z.to_nat (btf_vlen t)) 0 ids rec)
    (equiv_post d1 (fun d' => forall off, off ∈ in_elems (btf_vlen t) 12 sz [4] ->
       exists x y, type_word t off = Some x /\ type_word u off = Some y /\ related d' x y)) d1.
Proof.
  intros He Hids. eapply wp_mono; [apply (wp_equiv_elems _ _ _ _ _ N rank) |].
  - apply He.
  - by rewrite (hf_btf _ _ (he_frame _ _ He)).
  - pose proof (he_count _ _ He). lia.
  - exact Hrec.
  - intros j Hj. rewrite (hf_btf _ _ (he_frame _ _ He)). destruct (Hids j Hj) as (x & y & ? & ? & ? & _). by exists x, y.
  - intros r d' (He' & Hc & HP). split_and!; [done.. |]. intros Hr. destruct (HP Hr) as [H1 H2]. split; [|done].
    intros off (j & o & Hj & ->%list_elem_of_singleton & ->)%elem_of_in_elems.
    destruct (Hids j ltac:(lia)) as (x & y & Hxy & _ & _ & Hx & Hy). exists x, y. split_and!; [done..|].
    apply (H1 j); [lia | done].
Qed.

Lemma body_struct :
  btf_kind t = BTF_KIND_STRUCT \/ btf_kind t = BTF_KIND_UNION ->
  wp (let* ok := lift (btf_shallow_equal_struct t u) in
      if negb ok then ret 0 else
      equiv_elems (Z.to_nat (btf_vlen t)) 0
        (fun i => m1 ← btf_member t i; m2 ← btf_member u i; Some (member_type m1, member_type m2)) rec)
    (body_post d t u) d.
Proof.
  intros Ha. destruct (shallow_struct_spec t u Hwt Hwu Ha) as (ok & Hok & Hiff).
  apply wp_bind, (wp_lift _ ok); [done |]. destruct ok; cbn [negb]; [|apply body_code; [done | by right; left | done]].
  pose proof (proj1 Hiff eq_refl) as Hs.
  eapply body_shape; [| by destruct Ha as [-> | ->] | done |].
  2: { apply (wp_elems_fields 12); [by apply hypot_ext_refl |]. by apply (member_ids Hb idt idu). }
  cbn beta. intros d' HP _ _ _ off Hoff. apply HP. destruct Ha as [Ha|Ha]; by rewrite Ha in Hoff.
Qed.

Lemma body_proto :
  btf_kind t = BTF_KIND_FUNC_PROTO ->
  wp (let* ok := lift (btf_compat_fnproto t u) in
      if negb ok then ret 0 else
      let* eq := rec (t_type t) (t_type u) in
      if eq <=? 0 then ret eq else
      equiv_elems (Z.to_nat (btf_vlen t)) 0
        (fun i => p1 ← btf_param t i; p2 ← btf_param u i; Some (param_type p1, param_type p2)) rec)
    (body_post d t u) d.
Proof.
  intros Ha. destruct (compat_fnproto_spec t u Hwt Hwu Ha) as (ok & Hok & Hiff).
  apply wp_bind, (wp_lift _ ok); [done |]. destruct ok; cbn [negb]; [|apply body_code; [done | by right; left | done]].
  pose proof (proj1 Hiff eq_refl) as Hs.
  eapply body_shape; [| by rewrite Ha | done |].
  2: { apply (wp_equiv_then _ _ _ (fun d' => related d' (t_type t) (t_type u))).
       - apply Hrec; [done.. | |]; eapply proto_child; by (done || congruence).
       - intros d1 He _. apply (wp_elems_fields 8); [done |]. by apply (param_ids Hb idt idu).
       - intros d1 d2 He. by apply related_ext. }
  cbn beta. intros d' [R HP] _ _ _ off Hoff. rewrite Ha in Hoff. cbn [id_fields] in Hoff.
  apply elem_of_cons in Hoff as [->|Hoff]; [by exists (t_type t), (t_type u) | by apply HP].
Qed.
End Shallow.

(** ** The comparison *)
Lemma is_fwd_kind_eq t : btf_is_fwd t = true <-> btf_kind t = BTF_KIND_FWD.
Proof. unfold btf_is_fwd. apply bool_decide_eq_true. Qed.

Lemma wp_hypot_at d c v (Q : Z -> btf_dedup -> Prop) : znth (hypot_map d) c = Some v -> Q v d -> wp (hypot_at c) Q d.
Proof. intros H HQ. by apply (wp_read _ v). Qed.

(** Entering a pair, and then its comparison. *)
Lemma equiv_entered d x y c t u d1 m :
  fwd_target d y c -> hypot_ext d d1 -> entry d1 c x ->
  (forall c' t', entry d1 c' t' -> entry d c' t' \/ (c' = c /\ t' = x)) ->
  btf_type_by_id (d_btf d) x = Some t -> btf_type_by_id (d_btf d) c = Some u ->
  wp m (body_post d1 t u) d1 -> wp m (equiv_post d (fun d' => related d' x y)) d1.
Proof.
  intros Hft He Hent Hold Ht Hu Hm. eapply wp_mono; [exact Hm |]. intros r d2 (He2 & Hc & HP).
  pose proof (hypot_ext_trans _ _ _ He He2) as He'. split_and!; [done.. |]. intros Hr.
  destruct (HP Hr) as [[Hl Hch] Hnew]. split.
  - apply (related_entry _ _ _ c); [eapply fwd_target_frame; [apply He' | done] | by apply He2].
  - intros c' t' Hct. destruct (Hnew c' t' Hct) as [H|H]; [|auto]. destruct (Hold c' t' H) as [H'|[-> ->]]; [auto |].
    right. exists t, u. rewrite (hf_btf _ _ (he_frame _ _ He')). done.
Qed.

Lemma equiv_now d (P : btf_dedup -> Prop) : state_ok 0 d -> P d -> wp (ret 1) (equiv_post d P) d.
Proof.
  intros Hst HP. apply wp_ret. split_and!; [by apply hypot_ext_refl | by left |]. intros _. split; [done | apply new_ok_refl].
Qed.

(** The comparison of the two types of an entry, by kind. *)
Lemma equiv_switch fuel rank d idt idu t u :
  (forall d x y, state_ok 0 d -> chains_end (d_btf d) rank -> (unentered (hypot_map d) < fuel)%nat ->
     0 <= x < type_cnt (d_btf d) -> 0 <= y < type_cnt (d_btf d) ->
     wp (btf_dedup_is_equiv fuel x y) (equiv_post d (fun d' => related d' x y)) d) ->
  state_ok 0 d -> chains_end (d_btf d) rank -> (unentered (hypot_map d) < fuel)%nat ->
  btf_type_by_id (d_btf d) idt = Some t -> btf_type_by_id (d_btf d) idu = Some u ->
  type_words_ok t -> type_words_ok u ->
  wp (equiv_types (btf_dedup_is_equiv fuel) t u idu) (body_post d t u) d.
Proof.
  intros IH Hst Hch Hf Ht Hu Hwt Hwu. unfold equiv_types.
  destruct (name_off t =? name_off u) eqn:Hn; cbn [negb]; [|apply body_code; [done | by right; left | done]].
  destruct (bool_decide (btf_kind t = btf_kind u)) eqn:Hkk; cbn [negb].
  2: { apply bool_decide_eq_false in Hkk. rewrite andb_true_r. case_if; [apply body_fwd; [done | lia | done..] |].
       apply body_code; [done | by right; left | done]. }
  rewrite andb_false_r. apply bool_decide_eq_true in Hkk. assert (Hn' : name_off t = name_off u) by lia.
  pose proof (body_chain _ fuel rank IH d idt idu t u Hst Hch Hf Ht Hu Hn' Hkk) as Hchain.
  pose proof (body_array _ fuel rank IH d idt idu t u Hst Hch Hf Ht Hu Hn' Hkk) as Harr.
  pose proof (body_struct _ fuel rank IH d idt idu t u Hst Hch Hf Ht Hu Hn') as Hstr.
  pose proof (body_proto _ fuel rank IH d idt idu t u Hst Hch Hf Ht Hu Hn' Hkk) as Hpro.
  pose proof (body_exact d t u) as Hex. pose proof (body_enum d t u Hst Hwt Hwu Hn') as Hen.
  assert (Hau : btf_is_any_enum u = btf_is_any_enum t) by (unfold btf_is_any_enum; by rewrite Hkk).
  rewrite Hau in Hen. unfold btf_is_any_enum, equal_of_kind in *. destruct (btf_kind t) eqn:Hk;
    cbn [chain_kind shallow_kind exact_kind] in *; try (by apply Hchain); try (by apply Harr); try (by apply Hpro);
    try (by apply Hstr; auto); try (by apply Hen); try (by apply Hex; auto);
    try (apply body_code; [done | unfold equiv_code; auto | done]).
  - apply (Hex (Some (btf_equal_common t u))); auto.
  - apply (Hex (Some (btf_equal_common t u))); auto.
Qed.

Lemma is_equiv_ok fuel rank d x y :
  state_ok 0 d -> chains_end (d_btf d) rank -> (unentered (hypot_map d) < fuel)%nat ->
  0 <= x < type_cnt (d_btf d) -> 0 <= y < type_cnt (d_btf d) ->
  wp (btf_dedup_is_equiv fuel x y) (equiv_post d (fun d' => related d' x y)) d.
Proof.
  revert d x y. induction fuel as [|fuel IH]; intros d x y Hst Hch Hf Hx Hy; [lia |]. cbn [btf_dedup_is_equiv].
  destruct (st_resolves Hst x Hx) as [rx Hrx]. destruct (st_resolves Hst y Hy) as [ry Hry].
  apply wp_bind, (wp_resolve x rx); [done |]. apply wp_bind, (wp_resolve y ry); [done |].
  destruct (rx =? ry) eqn:Hr.
  { apply equiv_now; [done |]. apply (related_root _ _ _ rx); [done |]. by replace rx with ry by lia. }
  apply wp_bind, wp_resolve_fwd; [done..|]. intros c Hft Hc. pose proof (st_hypot _ _ Hst) as [Hlen _ Hvals].
  destruct (znth_is_Some (hypot_map d) c) as [v Hv]; [lia |]. apply wp_bind, (wp_hypot_at d c v); [done |].
  destruct (v <=? BTF_MAX_NR_TYPES) eqn:Hvm.
  { assert (Hent : entry d c v) by (split; [done | lia]). destruct (v =? x) eqn:Hvx.
    - apply equiv_now; [done |]. apply (related_entry _ _ _ c); [done |]. by replace x with v by lia.
    - destruct (Hvals c v Hv) as [[-> _]|[_ Hvr]]; [unfold BTF_UNPROCESSED_ID, BTF_MAX_NR_TYPES in Hvm; lia |].
      destruct (identical_total (st_btf _ _ Hst) Hch v x Hvr Hx) as [same Hsame].
      apply wp_bind, (wp_read _ same); [done |]. destruct same; [apply equiv_now; [done |] |].
      + by apply (related_identical _ _ _ c v).
      + apply wp_ret. split_and!; [by apply hypot_ext_refl | unfold equiv_code; auto | done]. }
  apply wp_bind. eapply wp_mono; [apply (wp_hypot_add d c x v); [done.. | lia | done] |].
  intros r d1 [[-> He]|(-> & He & Hent & Hcnt & _ & Hold)]; cbn [nonzero Z.eqb negb].
  { apply wp_ret. split_and!; [done | unfold equiv_code; auto | done]. }
  destruct (st_type Hst x Hx) as (t & Ht & Hwt). destruct (st_type Hst c Hc) as (u & Hu & Hwu).
  pose proof (hf_btf _ _ (he_frame _ _ He)) as Hfb.
  apply wp_bind, (wp_type_of x t); [by rewrite Hfb |]. apply wp_bind, (wp_type_of c u); [by rewrite Hfb |].
  apply (equiv_entered d x y c t u d1); [done.. |].
  apply (equiv_switch fuel rank d1 x c t u); [apply IH | apply He | by rewrite Hfb | lia | by rewrite Hfb.. | done | done].
Qed.
End Equiv.
