(* ===== verification/DedupSame.v ===== *)
(** * DedupSame: types that say the same

    When two types of an object may be taken for each other, no matter what the passes of
    [Dedup] do: a relation between types is a bisimulation when the types it relates agree
    in all words but identifiers and relates the types that these identifiers name, with the
    exceptions the deduplication makes for forward declarations; two types are the same when
    some bisimulation relates them.  What [btf_dedup_identical_types] and
    [btf_dedup_is_equiv] find equal is the same in this sense. *)
From stdpp Require Import relations.
From S2P Require Import Prelude Hashmap Mem Strset BtfTypes Btf BtfFind BtfParse BtfRaw BtfWrite DedupTypes Dedup DedupState DedupWrite DedupPrim DedupEquiv.
Open Scope Z_scope.
Open Scope dedup_scope.

#[local] Opaque kind_of_Z.

(** ** Agreement of two types *)

(** The object has a forward declaration of the structure or union (of kind [k]) or of the
    enumeration of name [n]. *)
Definition forward (b : btf) (k : btf_kind_t) (n : Z) : Prop :=
  exists id t, btf_type_by_id b id = Some t /\ btf_kind t = BTF_KIND_FWD /\ btf_fwd_kind t = k /\ name_off t = n.

Definition enum_forward (b : btf) (n : Z) : Prop :=
  exists id t, btf_type_by_id b id = Some t /\ btf_is_enum_fwd t = true /\ name_off t = n.

(** [t] is a structure or union of kind [k], or a forward declaration of one. *)
Definition declares (t : btf_type) (k : btf_kind_t) : Prop :=
  (k = BTF_KIND_STRUCT \/ k = BTF_KIND_UNION) /\
  (btf_kind t = k \/ (btf_kind t = BTF_KIND_FWD /\ btf_fwd_kind t = k)).

(** The words but identifiers are the same, and identifiers at the same places are related. *)
Definition same_fields (R : Z -> Z -> Prop) (t u : btf_type) : Prop :=
  same_shape t u /\
  forall off, off ∈ id_fields (btf_kind t) (btf_vlen t) ->
    exists x y, type_word t off = Some x /\ type_word u off = Some y /\ R x y.

(** Two types agree when their fields do.  The exceptions are void, enumerations of a name
    that has a forward declaration, and structures or unions of a kind and name that has
    one. *)
Inductive agree (b : btf) (R : Z -> Z -> Prop) (t u : btf_type) : Prop :=
| agree_fields : same_fields R t u -> agree b R t u
| agree_void : btf_kind t = BTF_KIND_UNKN -> btf_kind u = BTF_KIND_UNKN -> agree b R t u
| agree_enum : btf_is_any_enum t = true -> btf_is_any_enum u = true -> name_off t = name_off u ->
    enum_forward b (name_off t) -> agree b R t u
| agree_forward k : declares t k -> declares u k -> name_off t = name_off u -> forward b k (name_off t) ->
    agree b R t u.

Definition bisimulation (b : btf) (R : Z -> Z -> Prop) : Prop :=
  forall x y, R x y -> exists t u, btf_type_by_id b x = Some t /\ btf_type_by_id b y = Some u /\ agree b R t u.

Definition same_type (b : btf) (x y : Z) : Prop := exists R, bisimulation b R /\ R x y.

Lemma same_fields_mono (R R' : Z -> Z -> Prop) t u :
  (forall x y, R x y -> R' x y) -> same_fields R t u -> same_fields R' t u.
Proof. intros HR [Hs Hf]. split; [done |]. intros off Ho. destruct (Hf off Ho) as (x & y & ? & ? & ?). exists x, y. auto. Qed.

Lemma agree_mono b (R R' : Z -> Z -> Prop) t u : (forall x y, R x y -> R' x y) -> agree b R t u -> agree b R' t u.
Proof.
  intros HR [H|H1 H2|H1 H2 H3 H4|k H1 H2 H3 H4].
  - apply agree_fields. by eapply same_fields_mono.
  - by apply agree_void.
  - by apply agree_enum.
  - by apply (agree_forward b R' t u k).
Qed.

Lemma same_shape_sym t u : same_shape t u -> same_shape u t.
Proof.
  intros [Hi H]. destruct (info_words_cnt t u Hi) as (Hw & Hk & Hv). split; [done |]. intros off Ho Hm Hn.
  symmetry. apply H; [by rewrite Hw | done | by rewrite Hk, Hv].
Qed.

Lemma agree_sym b (R : Z -> Z -> Prop) t u : agree b R t u -> agree b (fun x y => R y x) u t.
Proof.
  intros [[Hs Hf]|H1 H2|H1 H2 H3 H4|k H1 H2 H3 H4].
  - apply agree_fields. split; [by apply same_shape_sym |].
    destruct (info_words_cnt t u (same_shape_info _ _ Hs)) as (_ & Hk & Hv). rewrite <- Hk, <- Hv.
    intros off Ho. destruct (Hf off Ho) as (x & y & ? & ? & ?). by exists y, x.
  - by apply agree_void.
  - apply agree_enum; congruence.
  - apply (agree_forward _ _ _ _ k); congruence.
Qed.

(** *** Composition *)
Definition names_one (t : btf_type) : Prop := btf_is_any_enum t = true \/ exists k, declares t k.

Lemma shape_class t u : same_shape t u ->
  (btf_kind t = BTF_KIND_UNKN <-> btf_kind u = BTF_KIND_UNKN) /\ btf_is_any_enum t = btf_is_any_enum u /\
  (forall k, declares t k <-> declares u k) /\ (names_one t -> name_off t = name_off u).
Proof.
  intros Hs. destruct (info_derived t u (same_shape_info _ _ Hs)) as (Hk & _ & Hf & _ & Ha).
  split; [by rewrite Hk |]. split; [done |]. split; [intros k; unfold declares; by rewrite Hk, Hf |].
  intros Hn. apply shape_name; [|done]. destruct Hn as [[-> | ->]%any_enum_kind|(k & [Hkk Hd])]; [done.. |].
  destruct Hd as [->|[-> _]]; [by destruct Hkk as [-> | ->] | done].
Qed.

Lemma declares_fun t k k' : declares t k -> declares t k' -> k = k'.
Proof.
  intros [Hk [H1|[H1 H2]]] [Hk' [H1'|[H1' H2']]]; [congruence | | | congruence].
  - destruct Hk; congruence.
  - destruct Hk'; congruence.
Qed.

(** The exceptions concern different kinds. *)
Lemma declares_class t k : declares t k -> btf_kind t <> BTF_KIND_UNKN /\ btf_is_any_enum t = false.
Proof.
  unfold btf_is_any_enum. intros [[-> | ->] [->|[-> _]]]; done.
Qed.

Lemma enum_class t : btf_is_any_enum t = true -> btf_kind t <> BTF_KIND_UNKN.
Proof. by intros [-> | ->]%any_enum_kind. Qed.

Lemma same_fields_trans (R : Z -> Z -> Prop) t u v :
  (forall x y z, R x y -> R y z -> R x z) -> same_fields R t u -> same_fields R u v -> same_fields R t v.
Proof.
  intros HR [Hs Hf] [Hs' Hf']. destruct (info_words_cnt t u (same_shape_info _ _ Hs)) as (_ & Hk & Hv).
  split; [by eapply same_shape_trans |]. intros off Ho. destruct (Hf off Ho) as (x & y & Hx & Hy & Hxy).
  rewrite Hk, Hv in Ho. destruct (Hf' off Ho) as (y' & z & Hy' & Hz & Hyz). rewrite Hy in Hy'. injection Hy' as <-. exists x, z. eauto.
Qed.

Lemma agree_trans b (R : Z -> Z -> Prop) t u v :
  (forall x y z, R x y -> R y z -> R x z) -> agree b R t u -> agree b R u v -> agree b R t v.
Proof.
  intros HR [H|H1 H2|H1 H2 H3 H4|k H1 H2 H3 H4] [H'|H1' H2'|H1' H2' H3' H4'|k' H1' H2' H3' H4'].
  - apply agree_fields. by eapply same_fields_trans.
  - apply agree_void; [|done]. by apply (shape_class t u (proj1 H)).
  - destruct (shape_class t u (proj1 H)) as (_ & Ha & _ & Hn). rewrite <- Ha in H1'.
    rewrite <- Hn in * by (by left). by apply agree_enum.
  - destruct (shape_class t u (proj1 H)) as (_ & _ & Hd & Hn). apply Hd in H1'.
    rewrite <- Hn in * by (right; eauto). by apply (agree_forward _ _ _ _ k').
  - apply agree_void; [done |]. by apply (shape_class u v (proj1 H')).
  - by apply agree_void.
  - by apply enum_class in H1'.
  - by apply declares_class in H1' as [? _].
  - destruct (shape_class u v (proj1 H')) as (_ & Ha & _ & Hn). apply agree_enum; [done | congruence | | done].
    rewrite H3. apply Hn. by left.
  - by apply enum_class in H2.
  - apply agree_enum; congruence.
  - apply declares_class in H1' as [_ ?]. congruence.
  - destruct (shape_class u v (proj1 H')) as (_ & _ & Hd & Hn). apply (agree_forward _ _ _ _ k); [done | by apply Hd | | done].
    rewrite H3. apply Hn. right. eauto.
  - by apply declares_class in H2 as [? _].
  - apply declares_class in H2 as [_ ?]. congruence.
  - pose proof (declares_fun u k k' H2 H1') as <-. apply (agree_forward _ _ _ _ k); congruence.
Qed.

(** ** Types that are the same *)
Lemma same_type_step b : bisimulation b (same_type b).
Proof.
  intros x y (R & HR & Hxy). destruct (HR x y Hxy) as (t & u & Ht & Hu & Ha). exists t, u. split_and!; [done.. |].
  eapply agree_mono; [|exact Ha]. intros x' y' H. by exists R.
Qed.

(** Where no forward declaration is involved, the fields of same types agree. *)
Lemma same_type_fields b x y t u :
  same_type b x y -> btf_type_by_id b x = Some t -> btf_type_by_id b y = Some u -> btf_kind t <> BTF_KIND_UNKN ->
  (btf_is_any_enum t = true -> ~ enum_forward b (name_off t)) -> (forall k, declares t k -> ~ forward b k (name_off t)) ->
  same_fields (same_type b) t u.
Proof.
  intros Hs Ht Hu Hk He Hf. destruct (same_type_step b x y Hs) as (t' & u' & Ht' & Hu' & Ha). rewrite Ht in Ht'. injection Ht' as <-.
  rewrite Hu in Hu'. injection Hu' as <-. destruct Ha as [Ha|Ha _|Ha _ _ Hn|k Ha _ _ Hn]; [done | done | |].
  - by destruct (He Ha).
  - by destruct (Hf k Ha).
Qed.

Lemma same_type_sym b x y : same_type b x y -> same_type b y x.
Proof.
  intros (R & HR & Hxy). exists (fun x y => R y x). split; [|done]. intros x' y' H.
  destruct (HR y' x' H) as (t & u & Ht & Hu & Ha). exists u, t. split_and!; [done.. |]. by apply agree_sym.
Qed.

(** A relation need only be a bisimulation up to chains of related and of same types. *)
Lemma same_type_upto b (T : Z -> Z -> Prop) :
  (forall x y, T x y -> exists t u, btf_type_by_id b x = Some t /\ btf_type_by_id b y = Some u /\
     agree b (tc (fun x y => same_type b x y \/ T x y)) t u) ->
  forall x y, T x y -> same_type b x y.
Proof.
  intros HT x y Hxy. exists (tc (fun x y => same_type b x y \/ T x y)). split; [|apply tc_once; by right].
  assert (Hstep : forall x y, same_type b x y \/ T x y -> exists t u, btf_type_by_id b x = Some t /\
    btf_type_by_id b y = Some u /\ agree b (tc (fun x y => same_type b x y \/ T x y)) t u).
  { intros x' y' [H|H]; [|by apply HT]. destruct (same_type_step b x' y' H) as (t & u & Ht & Hu & Ha).
    exists t, u. split_and!; [done.. |]. eapply agree_mono; [|exact Ha]. intros; apply tc_once; by left. }
  intros x' y'. induction 1 as [x' y' H|x' y' z' H _ IH]; [by apply Hstep |].
  destruct (Hstep x' y' H) as (t & u & Ht & Hu & Ha). destruct IH as (u' & v & Hu' & Hv & Ha').
  rewrite Hu in Hu'. injection Hu' as <-. exists t, v. split_and!; [done.. |].
  eapply agree_trans; [|exact Ha | exact Ha']. intros ? ? ?. apply tc_transitive.
Qed.

Lemma same_type_trans b x y z : same_type b x y -> same_type b y z -> same_type b x z.
Proof.
  intros H1 H2. apply (same_type_upto b (fun x z => exists y, same_type b x y /\ same_type b y z)); [|eauto].
  clear. intros x z (y & H1 & H2). destruct (same_type_step b x y H1) as (t & u & Ht & Hu & Ha).
  destruct (same_type_step b y z H2) as (u' & v & Hu' & Hv & Ha'). rewrite Hu in Hu'. injection Hu' as <-.
  exists t, v. split_and!; [done.. |]. eapply agree_trans; [intros ? ? ?; apply tc_transitive | |].
  - eapply agree_mono; [|exact Ha]. intros; apply tc_once; by left.
  - eapply agree_mono; [|exact Ha']. intros; apply tc_once; by left.
Qed.

Section Object.
Context {b : btf} (Hb : dedup_btf b).

(** Types with the same words. *)
Lemma words_same_fields (R : Z -> Z -> Prop) x t u :
  btf_type_by_id b x = Some t -> own_words t = own_words u -> (forall w, 0 <= w < type_cnt b -> R w w) -> same_fields R t u.
Proof.
  intros Ht Hw HR. split; [by apply same_words_shape |]. intros off Ho.
  destruct (field_word b x t BTF_FIELD_ITER_IDS off (db_ok _ Hb) Ht Ho) as (_ & _ & _ & w & Hww & _).
  exists w, w. split_and!; [done | by rewrite <- (id_field_word t u off Hw Ho) |]. apply HR. by apply (db_ids _ Hb x t off).
Qed.

Lemma same_type_refl x : 0 <= x < type_cnt b -> same_type b x x.
Proof.
  intros Hx. exists (fun x y => x = y /\ 0 <= x < type_cnt b). split; [|done]. clear x Hx. intros x y [<- Hx].
  destruct (db_type Hb x Hx) as (t & Ht & _). exists t, t. split_and!; [done.. |]. apply agree_fields.
  by eapply words_same_fields.
Qed.

Lemma same_type_words x y t u :
  btf_type_by_id b x = Some t -> btf_type_by_id b y = Some u -> own_words t = own_words u -> same_type b x y.
Proof.
  intros Ht Hu Hw. apply (same_type_upto b (fun x' y' => x' = x /\ y' = y)); [|done]. intros ? ? [-> ->]. exists t, u.
  split_and!; [done.. |]. apply agree_fields. eapply words_same_fields; [done.. |]. intros w Hr.
  apply tc_once. left. by apply same_type_refl.
Qed.

(** A representative that may stand for a type is the same, unless there is more to compare. *)
Lemma stands_same x y t u :
  btf_type_by_id b x = Some t -> btf_type_by_id b y = Some u -> stands_for (fwd_name b) t u -> ~ graph_kind (btf_kind t) ->
  same_type b x y.
Proof.
  intros Ht Hu [Hw|Hs] Hk; [by eapply same_type_words |].
  apply (same_type_upto b (fun x' y' => x' = x /\ y' = y)); [|done]. intros ? ? [-> ->]. exists t, u. split_and!; [done.. |].
  assert (He : btf_is_enum_fwd t = true -> btf_is_any_enum t = true) by (unfold btf_is_enum_fwd; intros; by bools).
  destruct (btf_kind t) eqn:Hkt; try (by destruct Hk); try (exfalso; exact Hs).
  - destruct Hs as (H1 & H2 & H3). apply agree_enum; [auto | done | done | by exists x, t].
  - destruct Hs as (H1 & H2). apply (agree_forward _ _ _ _ (btf_fwd_kind t)); [| |done|by exists x, t].
    + split; [apply fwd_kind_composite | auto].
    + split; [apply fwd_kind_composite | auto].
  - destruct Hs as (H1 & H2 & H3). apply agree_enum; [auto | done | done | by exists x, t].
Qed.
End Object.

(** ** Direct comparison *)
Lemma identical_elems_true n i ids rec :
  identical_elems n i ids rec = Some true ->
  forall j x y, i <= j < i + Z.of_nat n -> ids j = Some (x, y) -> x = y \/ rec x y = Some true.
Proof.
  revert i. induction n as [|n IH]; intros i Hi j x y Hj Hids; [lia |]. cbn [identical_elems] in Hi.
  destruct (ids i) as [[x' y']|] eqn:Hxy; [|done]. cbn [mbind option_bind] in Hi.
  destruct (if x' =? y' then Some true else rec x' y') as [[]|] eqn:Hok; cbn [mbind option_bind negb] in Hi; try done.
  destruct (decide (j = i)) as [->|Hne]; [|apply (IH (i + 1) Hi j); [lia | done]].
  rewrite Hids in Hxy. injection Hxy as <- <-. destruct (x =? y) eqn:He; [left; lia | by right].
Qed.

Section Identical.
Context {b : btf} (Hb : dedup_btf b).

Definition identical (x y : Z) : Prop :=
  exists fuel depth, btf_dedup_identical_types fuel b x y depth = Some true.

(** Identifiers are related when they are the same or have been compared. *)
Let same_or_identical (x y : Z) : Prop := tc (fun x y => same_type b x y \/ identical x y) x y.

Lemma compared x y :
  0 <= x < type_cnt b -> x = y \/ identical x y -> same_or_identical x y.
Proof. intros Hx [<-|H]; apply tc_once; [left; by apply same_type_refl | by right]. Qed.

Lemma if_compared fuel x y depth :
  (if x =? y then Some true else btf_dedup_identical_types fuel b x y depth) = Some true -> x = y \/ identical x y.
Proof. destruct (x =? y) eqn:He; [left; lia | right; by exists fuel, depth]. Qed.

Section Elems.
Context (fuel : nat) (depth x y : Z) (t u : btf_type)
  (Ht : btf_type_by_id b x = Some t) (Hu : btf_type_by_id b y = Some u) (Hs : same_shape t u).

Let rec x y := btf_dedup_identical_types fuel b x y depth.

(** The elements of two types of the same shape, whose identifiers are at [12 + sz * j + 4]. *)
Lemma elems_compared sz ids :
  (forall j, 0 <= j < 0 + Z.of_nat (Z.to_nat (btf_vlen t)) -> exists x y, ids j = Some (x, y) /\
     0 <= x < type_cnt b /\ 0 <= y < type_cnt b /\
     type_word t (12 + j * sz + 4) = Some x /\ type_word u (12 + j * sz + 4) = Some y) ->
  identical_elems (Z.to_nat (btf_vlen t)) 0 ids rec = Some true ->
  forall off, off ∈ in_elems (btf_vlen t) 12 sz [4] ->
    exists x y, type_word t off = Some x /\ type_word u off = Some y /\ same_or_identical x y.
Proof.
  intros Hids He off (j & o & Hj & ->%list_elem_of_singleton & ->)%elem_of_in_elems.
  destruct (Hids j ltac:(lia)) as (x' & y' & Hxy & Hx & _ & Hw & Hw'). exists x', y'. split_and!; [done.. |].
  apply compared; [done |]. destruct (identical_elems_true _ _ _ _ He j x' y' ltac:(lia) Hxy) as [|H]; [by left |].
  right. by exists fuel, depth.
Qed.
Lemma chain_compared : chain_kind (btf_kind t) -> rec (t_type t) (t_type u) = Some true -> same_fields same_or_identical t u.
Proof.
  intros Hk Hr. split; [done |]. rewrite chain_field by done. intros off ->%list_elem_of_singleton.
  exists (t_type t), (t_type u). split_and!; [done.. |]. apply compared; [by eapply chain_child |]. right. by exists fuel, depth.
Qed.

Lemma array_compared a1 a2 :
  btf_kind t = BTF_KIND_ARRAY -> btf_array t = Some a1 -> btf_array u = Some a2 ->
  array_index_type a1 = array_index_type a2 \/ identical (array_index_type a1) (array_index_type a2) ->
  array_type a1 = array_type a2 \/ identical (array_type a1) (array_type a2) -> same_fields same_or_identical t u.
Proof.
  intros Hk H1 H2 Hi Ha. destruct (info_words_cnt t u (same_shape_info _ _ Hs)) as (_ & Hku & _).
  destruct (array_child Hb x t Ht Hk) as (a & Ha1 & R1 & R2 & W12 & W16).
  destruct (array_child Hb y u Hu ltac:(congruence)) as (a' & Ha2 & _ & _ & V12 & V16).
  rewrite H1 in Ha1. rewrite H2 in Ha2. injection Ha1 as <-. injection Ha2 as <-. split; [done |]. rewrite Hk. cbn [id_fields].
  intros off [->| ->%list_elem_of_singleton]%elem_of_cons.
  - exists (array_type a1), (array_type a2). split_and!; [done.. |]. by apply compared.
  - exists (array_index_type a1), (array_index_type a2). split_and!; [done.. |]. by apply compared.
Qed.

Lemma struct_compared :
  btf_kind t = BTF_KIND_STRUCT \/ btf_kind t = BTF_KIND_UNION ->
  identical_elems (Z.to_nat (btf_vlen t)) 0
    (fun i => m1 ← btf_member t i; m2 ← btf_member u i; Some (member_type m1, member_type m2)) rec = Some true ->
  same_fields same_or_identical t u.
Proof.
  intros Hk He. split; [done |]. intros off Ho. apply (elems_compared 12 _ (member_ids Hb x y t u Ht Hu Hs Hk) He).
  destruct Hk as [Hk|Hk]; by rewrite Hk in Ho.
Qed.

Lemma proto_compared :
  btf_kind t = BTF_KIND_FUNC_PROTO -> t_type t = t_type u \/ identical (t_type t) (t_type u) ->
  identical_elems (Z.to_nat (btf_vlen t)) 0
    (fun i => p1 ← btf_param t i; p2 ← btf_param u i; Some (param_type p1, param_type p2)) rec = Some true ->
  same_fields same_or_identical t u.
Proof.
  intros Hk Hr He. split; [done |]. intros off Ho. rewrite Hk in Ho. cbn [id_fields] in Ho.
  apply elem_of_cons in Ho as [->|Ho]; [|by apply (elems_compared 8 _ (param_ids Hb x y t u Ht Hu Hs Hk) He)].
  exists (t_type t), (t_type u). split_and!; [done.. |]. apply compared; [by eapply proto_child | done].
Qed.
End Elems.

Lemma identical_agree x y :
  identical x y ->
  exists t u, btf_type_by_id b x = Some t /\ btf_type_by_id b y = Some u /\ agree b same_or_identical t u.
Proof.
  intros (fuel & depth & Hid). destruct fuel as [|fuel]; [done |]. cbn [btf_dedup_identical_types] in Hid.
  destruct (btf_type_by_id b x) as [t|] eqn:Ht; [|done]. destruct (btf_type_by_id b y) as [u|] eqn:Hu; [|done].
  pose proof (db_words Hb x t Ht) as Hwt. pose proof (db_words Hb y u Hu) as Hwu. cbn [mbind option_bind] in Hid. destruct (depth <=? 0); [done |].
  destruct (bool_decide (btf_kind t = btf_kind u)) eqn:Hkk; cbn [negb] in Hid; [|done].
  apply bool_decide_eq_true in Hkk. exists t, u. split_and!; [done.. |].
  assert (Hwords : own_words t = own_words u -> agree b same_or_identical t u).
  { intros Hw. apply agree_fields. eapply words_same_fields; [done.. |]. intros w Hr. apply compared; auto. }
  assert (Hexact : exact_kind (btf_kind t) -> equal_of_kind t u = Some true -> agree b same_or_identical t u).
  { intros Hk He. destruct (equal_of_kind_spec t u Hwt Hwu Hk) as (ok & Hok & Hiff). apply Hwords, Hiff. congruence. }
  assert (Henum : btf_is_any_enum t = true -> btf_compat_enum t u = Some true -> agree b same_or_identical t u).
  { intros Ha He. destruct (compat_enum_spec t u Hwt Hwu Ha) as (ok & Hok & Hiff). rewrite He in Hok. injection Hok as <-.
    destruct (proj1 Hiff eq_refl) as [Hw|(Hf & Hau & Hn)]; [by apply Hwords |]. apply agree_enum; [done.. |].
    destruct Hf as [Hf|Hf]; [by exists x, t | rewrite Hn; by exists y, u]. }
  assert (Hshape : shallow_kind (btf_kind t) -> shallow_of_kind t u = Some true -> same_shape t u).
  { intros Hk Hm. destruct (shallow_of_kind_spec t u Hwt Hwu Hk) as (ok & Hok & Hiff). apply Hiff. congruence. }
  assert (Hchain : chain_kind (btf_kind t) -> (if negb (info t =? info u) || negb (name_off t =? name_off u) then Some false
    else btf_dedup_identical_types fuel b (t_type t) (t_type u) depth) = Some true -> agree b same_or_identical t u).
  { intros Hk. case_if; [done |]. intros Hr. apply agree_fields. eapply chain_compared; [exact Ht | | exact Hk | exact Hr].
    assert (Hsk : shallow_kind (btf_kind t)) by (by destruct (btf_kind t)).
    apply (Hshape Hsk). unfold shallow_of_kind, btf_equal_typedef. destruct (btf_kind t); try done; f_equal; bools; lia. }
  pose proof (struct_compared fuel (depth - 1) x y t u Ht Hu) as Hstr. pose proof (proto_compared fuel (depth - 1) x y t u Ht Hu) as Hpro.
  unfold equal_of_kind, shallow_of_kind, btf_is_any_enum in Hexact, Henum, Hshape.
  destruct (btf_kind t) eqn:Hk; cbn [exact_kind shallow_kind chain_kind] in *; try done; try (by apply Hexact);
    try (by apply Henum); try (by apply Hchain).
  - by apply agree_void.
  - destruct (btf_compat_array t u) as [[]|] eqn:Hc; cbn [mbind option_bind negb] in Hid; try done.
    destruct (btf_array t) as [a1|] eqn:H1; [|done]. destruct (btf_array u) as [a2|] eqn:H2; [|done]. cbn [mbind option_bind] in Hid.
    destruct (if array_index_type a1 =? _ then _ else _) as [[]|] eqn:Hi; cbn [mbind option_bind negb] in Hid; try done.
    apply agree_fields. eapply array_compared; [exact Ht | exact Hu | by apply Hshape | done.. | |]; by eapply if_compared.
  - destruct (btf_shallow_equal_struct t u) as [[]|] eqn:Hc; cbn [mbind option_bind negb] in Hid; try done.
    apply agree_fields, Hstr; [by apply Hshape | auto | done].
  - destruct (btf_shallow_equal_struct t u) as [[]|] eqn:Hc; cbn [mbind option_bind negb] in Hid; try done.
    apply agree_fields, Hstr; [by apply Hshape | auto | done].
  - destruct (btf_compat_fnproto t u) as [[]|] eqn:Hc; cbn [mbind option_bind negb] in Hid; try done.
    destruct (if t_type t =? _ then _ else _) as [[]|] eqn:Hi; cbn [mbind option_bind negb] in Hid; try done.
    apply agree_fields, Hpro; [by apply Hshape | done | by eapply if_compared | done].
Qed.

(** Types that have been compared directly are the same. *)
Lemma identical_same x y : identical x y -> same_type b x y.
Proof. apply same_type_upto. exact identical_agree. Qed.
End Identical.

(** ** The maps *)

(** Types are linked to the same types. *)
Definition links_same (b : btf) (m : list Z) : Prop :=
  forall x v, znth m x = Some v -> v <= BTF_MAX_NR_TYPES -> same_type b x v.

Lemma resolves_same b m x r :
  dedup_btf b -> zlen m = type_cnt b -> links_same b m -> resolves m x r -> same_type b x r.
Proof.
  intros Hb Hlen Hl Hr. pattern x, r. revert x r Hr. apply resolves_ind.
  - intros x Hx. apply same_type_refl; [done |]. rewrite <- Hlen. by apply root_range.
  - intros x y r Hx Hle _ _ IH. eapply same_type_trans; [by apply Hl | exact IH].
Qed.

(** An assignment to the map. *)
Lemma links_same_upd b m x v : links_same b m -> same_type b x v -> links_same b (zupd m x v).
Proof.
  intros Hl Hs y w Hy Hw. destruct (decide (x = y)) as [<-|Hne]; [|rewrite znth_zupd_ne in Hy by done; by apply Hl].
  rewrite znth_zupd_eq in Hy; [by injection Hy as <- |]. apply znth_Some in Hy. by rewrite zlen_zupd in Hy.
Qed.

(** The types of the hypothetical map correspond to the same types. *)
Definition entries_same (d : btf_dedup) : Prop := forall c x, entry d c x -> same_type (d_btf d) x c.

Section Entries.
Context {C : hash_ctx} {d : btf_dedup} (Hst : state_ok 0 d) (Hl : links_same (d_btf d) (d_map d)).

Let Hb := st_btf _ _ Hst.

Lemma st_same x r : resolves (d_map d) x r -> same_type (d_btf d) x r.
Proof. by apply resolves_same; [| apply (st_len _ _ Hst) |]. Qed.

Lemma fwd_target_same y c : fwd_target d y c -> same_type (d_btf d) y c.
Proof.
  intros (t & r & u & Ht & Hr & Hu & ->). case_if; [by apply st_same |]. apply same_type_refl; [done |].
  by eapply btf_type_by_id_range; [apply Hb |].
Qed.

(** Up to chains of same types and entries, related types are. *)
Let chain := tc (fun x y => same_type (d_btf d) x y \/ entry d y x).

Lemma same_chain x y : same_type (d_btf d) x y -> chain x y.
Proof. intros H. apply tc_once. by left. Qed.

Lemma entry_chain c x : entry d c x -> chain x c.
Proof. intros H. apply tc_once. by right. Qed.

Lemma related_chain x y : related d x y -> chain x y.
Proof.
  intros [r Hx Hy|c Hy He|c h Hy He Hi].
  - apply same_chain. eapply same_type_trans; [by apply st_same | by apply same_type_sym, st_same].
  - eapply tc_transitive; [by apply entry_chain | by apply same_chain, same_type_sym, fwd_target_same].
  - eapply tc_transitive; [apply same_chain, same_type_sym, (identical_same Hb); by eexists _, _ |].
    eapply tc_transitive; [by apply entry_chain | by apply same_chain, same_type_sym, fwd_target_same].
Qed.

Lemma local_agree x c t u :
  btf_type_by_id (d_btf d) x = Some t -> btf_type_by_id (d_btf d) c = Some u -> local_ok t u -> children_related d t u ->
  agree (d_btf d) chain t u.
Proof.
  intros Ht Hu [Hn Hcase] Hch. destruct Hcase as [[Hf Hk]|[[Hf Hk]|[[_ Hw]|[(Ha & Hau & Hf)|[Hk Hs]]]]].
  - apply (agree_forward _ _ _ _ (btf_fwd_kind t)); [| |done|by exists x, t]; (split; [apply fwd_kind_composite | auto]).
  - apply (agree_forward _ _ _ _ (btf_fwd_kind u)); [| |done|rewrite Hn; by exists c, u]; (split; [apply fwd_kind_composite | auto]).
  - apply agree_fields. eapply words_same_fields; [done.. |]. intros w Hw'. by apply same_chain, same_type_refl.
  - apply agree_enum; [done.. |]. destruct Hf as [Hf|Hf]; [by exists x, t | rewrite Hn; by exists c, u].
  - apply agree_fields. split; [done |]. intros off Ho. destruct (Hch Hk Hs off Ho) as (x' & y' & Hx & Hy & Hr).
    exists x', y'. split_and!; [done.. |]. by apply related_chain.
Qed.

(** A comparison that succeeded has found the same types. *)
Lemma entries_ok_same : (forall c x, entry d c x -> entry_ok d c x) -> entries_same d.
Proof.
  intros He c x Hcx. apply (same_type_upto (d_btf d) (fun x c => entry d c x)); [|done]. clear x c Hcx. intros x c Hcx.
  destruct (He c x Hcx) as (t & u & Ht & Hu & Hloc & Hch). exists t, u. split_and!; [done.. |]. by apply (local_agree x c).
Qed.

Lemma related_same x y : entries_same d -> related d x y -> same_type (d_btf d) x y.
Proof.
  intros He Hr%related_chain. induction Hr as [x y [H|H]|x y z [H|H] _ IH]; [done | by apply He | |].
  - by eapply same_type_trans.
  - eapply same_type_trans; [by apply He | done].
Qed.
End Entries.

(** Only the maps matter. *)
Lemma entries_same_frame d d' : d_btf d' = d_btf d -> hypot_map d' = hypot_map d -> entries_same d -> entries_same d'.
Proof. intros H1 H2. unfold entries_same, entry. by rewrite H1, H2. Qed.
