(* ===== verification/DedupStruct.v ===== *)
(** * DedupStruct: deduplication of structures, unions and typedefs

    [btf_dedup_struct_types] of [Dedup], with the merging of the hypothetical map into the
    canonical one.  The pass ends and keeps the state well formed: every structure, union
    and typedef is mapped, to a type of the same shape or, for structures and unions with a
    name of which there is a forward declaration, at least to one of the same kind and
    name.  Links lead only to types that are the same in the sense of [DedupSame], and no two
    representatives that the pass has made have the same words. *)
From S2P Require Import Prelude Hashmap Mem Strset BtfTypes Btf BtfFind BtfParse BtfRaw BtfWrite DedupTypes Dedup DedupState DedupWrite DedupPrim DedupEquiv DedupSame.
Open Scope Z_scope.
Open Scope dedup_scope.

#[local] Opaque kind_of_Z.

Section Struct.
Context {C : hash_ctx} {DC : DedupCtx C}.

(** ** Clearing the hypothetical map *)
Lemma clear_hypot_spec m l :
  Forall (fun id => 0 <= id < zlen m) l ->
  exists m', clear_hypot m l = Some m' /\ zlen m' = zlen m /\
    (forall id v, znth m' id = Some v -> (id ∈ l /\ v = BTF_UNPROCESSED_ID) \/ ((id ∉ l) /\ znth m id = Some v)).
Proof.
  revert m. induction l as [|x l IH]; intros m Hl; cbn [clear_hypot].
  - exists m. split_and!; [done..|]. intros id v Hv. right. split; [apply not_elem_of_nil | done].
  - apply Forall_cons in Hl as [Hx Hl]. rewrite array_set_spec by done. cbn [mbind option_bind].
    destruct (IH (zupd m x BTF_UNPROCESSED_ID)) as (m' & Hm' & Hlen & Hv).
    { eapply Forall_impl; [exact Hl |]. cbn. intros id. by rewrite zlen_zupd. }
    exists m'. split; [done |]. split; [by rewrite Hlen, zlen_zupd |]. intros id v Hid.
    rewrite elem_of_cons. destruct (Hv id v Hid) as [[Hin ->]|[Hni Hz]]; [auto |].
    destruct (decide (id = x)) as [->|Hne].
    + rewrite znth_zupd_eq in Hz by done. left. split; [auto | congruence].
    + rewrite znth_zupd_ne in Hz by done. right. split; [by intros [?|?] | done].
Qed.

Lemma wp_clear d :
  state_ok 0 d ->
  wp btf_dedup_clear_hypot_map (fun _ d' => hypot_frame d d' /\ state_ok 0 d' /\ (forall c t, ~ entry d' c t) /\
    hypot_list d' = [] /\ hypot_adjust_canon d' = false) d.
Proof.
  intros Hst. pose proof (st_hypot _ _ Hst) as [Hl Hids Hvals].
  destruct (clear_hypot_spec (hypot_map d) (hypot_list d)) as (m' & Hm & Hlen & Hv); [by rewrite Hl |].
  eapply wp_modify; [by rewrite Hm |].
  assert (Hall : forall id v, znth m' id = Some v -> v = BTF_UNPROCESSED_ID).
  { intros id v Hid. destruct (Hv id v Hid) as [[_ ->]|[Hni Hz]]; [done |].
    by destruct (Hvals id v Hz) as [[-> _]|[Hin _]]. }
  assert (Hf : hypot_frame d (set_hypot d m' [] false)) by (by split).
  split_and!; [done | | | done | done].
  - eapply state_ok_hypot; [done.. |]. cbn [d_btf hypot_map hypot_list set_hypot]. split; [congruence | done |].
    intros id v Hid. left. split; [by eapply Hall | apply not_elem_of_nil].
  - intros c t [Ht Hle]. apply Hall in Ht. subst t. unfold BTF_UNPROCESSED_ID, BTF_MAX_NR_TYPES in Hle. lia.
Qed.

(** ** Merging *)

(** What stays the same when the map changes. *)
Record map_frame (d d' : btf_dedup) : Prop := {
  mf_btf : d_btf d' = d_btf d;
  mf_table : dedup_table d' = dedup_table d;
  mf_hypot : hypot_map d' = hypot_map d;
  mf_list : hypot_list d' = hypot_list d;
  mf_adjust : hypot_adjust_canon d' = hypot_adjust_canon d;
  mf_strs : d_strs_set d' = d_strs_set d
}.

Lemma map_frame_refl d : map_frame d d.
Proof. by split. Qed.

Lemma map_frame_trans d1 d2 d3 : map_frame d1 d2 -> map_frame d2 d3 -> map_frame d1 d3.
Proof. intros [] []. split; congruence. Qed.

(** No other types than structures, unions, typedefs and forward declarations are mapped. *)
Definition others_mapped (d d' : btf_dedup) : Prop :=
  forall y t, btf_type_by_id (d_btf d) y = Some t -> btf_kind t <> BTF_KIND_FWD -> ~ graph_kind (btf_kind t) ->
    mapped (d_map d') y -> mapped (d_map d) y.

Lemma others_mapped_trans d1 d2 d3 :
  d_btf d2 = d_btf d1 -> others_mapped d1 d2 -> others_mapped d2 d3 -> others_mapped d1 d3.
Proof. intros Hb H1 H2 y t Hy Hf Hg Hm. apply (H1 y t Hy Hf Hg), (H2 y t); [by rewrite Hb | done..]. Qed.

(** Other types than forward declarations stay mapped as they are, and none becomes its own
    representative. *)
Definition mapped_kept (d d' : btf_dedup) : Prop :=
  (forall y t, btf_type_by_id (d_btf d) y = Some t -> btf_kind t <> BTF_KIND_FWD -> mapped (d_map d) y ->
     znth (d_map d') y = znth (d_map d) y) /\
  (forall y, znth (d_map d') y = Some y -> znth (d_map d) y = Some y).

Lemma mapped_kept_refl d d' : d_map d' = d_map d -> mapped_kept d d'.
Proof. intros H. split; intros *; by rewrite H. Qed.

Lemma mapped_kept_trans d1 d2 d3 : d_btf d2 = d_btf d1 -> mapped_kept d1 d2 -> mapped_kept d2 d3 -> mapped_kept d1 d3.
Proof.
  intros Hb [K1 S1] [K2 S2]. split; [|auto]. intros y t Ht Hk Hm. pose proof (K1 y t Ht Hk Hm) as He.
  rewrite <- He. apply (K2 y t); [by rewrite Hb | done |]. destruct Hm as (v & Hv & Hle). exists v. by rewrite He.
Qed.

(** The map grows; when types of the base had to be adjusted, only forward declarations
    are linked. *)
Record merge_post (d d' : btf_dedup) : Prop := {
  mp_frame : map_frame d d';
  mp_state : state_ok 0 d';
  mp_mono : forall y, mapped (d_map d) y -> mapped (d_map d') y;
  mp_kept : mapped_kept d d';
  mp_same : entries_same d -> links_same (d_btf d) (d_map d) -> links_same (d_btf d) (d_map d');
  mp_adjust : hypot_adjust_canon d = true -> forall y t, btf_type_by_id (d_btf d) y = Some t ->
    btf_kind t <> BTF_KIND_FWD -> znth (d_map d') y = znth (d_map d) y;
  mp_other : others_mapped d d'
}.

Lemma merge_post_refl d : state_ok 0 d -> merge_post d d.
Proof.
  intros H. split; [apply map_frame_refl | done | done | by apply mapped_kept_refl | done | done | by intros y t].
Qed.

Lemma merge_post_trans d1 d2 d3 : merge_post d1 d2 -> merge_post d2 d3 -> merge_post d1 d3.
Proof.
  intros [F1 S1 M1 K1 L1 A1 O1] [F2 S2 M2 K2 L2 A2 O2]. pose proof (mf_btf _ _ F1) as Hb.
  split; [by eapply map_frame_trans | done | auto | by eapply mapped_kept_trans | | | by eapply others_mapped_trans].
  { intros He Hl. rewrite Hb in L2. apply L2; [|auto]. by eapply entries_same_frame; [| apply F1 |]. }
  intros Ha y t Hy Hk. rewrite (A2 ltac:(by rewrite (mf_adjust _ _ F1)) y t); [by apply (A1 Ha y t) | | done].
  by rewrite (mf_btf _ _ F1).
Qed.

(** One root is linked to another. *)
Lemma wp_link d x v tx tv :
  state_ok 0 d -> is_root (d_map d) x -> is_root (d_map d) v -> v <> x -> 0 < x ->
  btf_type_by_id (d_btf d) x = Some tx -> btf_type_by_id (d_btf d) v = Some tv ->
  stands_for (fwd_name (d_btf d)) tx tv -> mapped (d_map d) v \/ btf_is_composite tv = true ->
  (entries_same d -> links_same (d_btf d) (d_map d) -> same_type (d_btf d) x v) ->
  ~ mapped (d_map d) x \/ btf_kind tx = BTF_KIND_FWD ->
  (hypot_adjust_canon d = true -> btf_kind tx = BTF_KIND_FWD) ->
  btf_kind tx = BTF_KIND_FWD \/ graph_kind (btf_kind tx) ->
  wp (map_set x v) (fun _ d' => merge_post d d') d.
Proof.
  intros Hst Hrx Hrv Hne Hx Htx Htv Hs Hcl Hsame Hca Hadj Hkx. pose proof (root_range _ _ Hrx) as Hxr.
  assert (Hle : v <= BTF_MAX_NR_TYPES).
  { pose proof (db_cnt _ (st_btf _ _ Hst)). pose proof (btf_type_by_id_range _ _ _ (db_ok _ (st_btf _ _ Hst)) Htv). lia. }
  apply wp_map_set; [done |]. split.
  - by split.
  - apply (state_ok_link 0 0 d x v tx tv v); auto.
    + by apply resolves_upd_root.
    + destruct Hcl; auto.
    + destruct Hca as [?|Hk]; [left; by apply (unmapped_no_cand 0) |]. right. right. by apply is_fwd_kind_eq.
  - intros y Hy. by apply mapped_upd.
  - split; cbn [d_map set_d_map].
    + intros y t Ht Hk Hm. apply znth_zupd_ne. intros <-. rewrite Htx in Ht. injection Ht as <-. by destruct Hca.
    + intros y Hy. destruct (decide (x = y)) as [<-|Hxy]; [|by rewrite znth_zupd_ne in Hy].
      rewrite znth_zupd_eq in Hy by done. by injection Hy as ->.
  - intros He Hl. cbn [d_map set_d_map]. apply links_same_upd; auto.
  - intros Ha y t Hy Hk. cbn [d_map set_d_map]. apply znth_zupd_ne. intros <-.
    rewrite Htx in Hy. injection Hy as <-. by apply Hk, Hadj.
  - intros y t Hy Hf Hg Hm. apply mapped_upd_iff in Hm as [Hm| ->]; [done | | done | done].
    rewrite Htx in Hy. injection Hy as <-. by destruct Hkx.
Qed.

(** The representatives of two types that agree locally. *)
Definition composite_kind (k : btf_kind_t) : Prop := k = BTF_KIND_STRUCT \/ k = BTF_KIND_UNION.

Lemma composite_kind_eq t : btf_is_composite t = true <-> composite_kind (btf_kind t).
Proof. unfold btf_is_composite, composite_kind. destruct (btf_kind t); split; intros H; auto; (discriminate || by destruct H). Qed.

Lemma composite_graph k : composite_kind k -> graph_kind k.
Proof. by intros [-> | ->]. Qed.

Lemma composite_not_fwd t : composite_kind (btf_kind t) -> btf_kind t <> BTF_KIND_FWD.
Proof. intros [-> | ->]; discriminate. Qed.

Lemma stands_composite fw t r :
  stands_for fw t r -> composite_kind (btf_kind t) ->
  btf_kind r = btf_kind t /\ name_off r = name_off t /\ (same_shape t r \/ fw (name_off t)).
Proof.
  intros [Hw|H] Hk.
  - destruct (same_words_fields t r Hw) as (Hn & Hi & _). destruct (info_derived t r Hi) as (Hk' & _).
    split_and!; [done.. |]. left. by apply same_words_shape.
  - destruct Hk as [Hk|Hk]; rewrite Hk in H; destruct H as (H1 & H2 & H3); rewrite Hk; auto.
Qed.

Lemma stands_from_fwd fw t r :
  stands_for fw t r -> btf_kind t = BTF_KIND_FWD -> btf_kind r <> BTF_KIND_FWD ->
  btf_kind r = btf_fwd_kind t /\ name_off r = name_off t /\ composite_kind (btf_kind r).
Proof.
  intros [Hw|H] Hk Hr.
  - destruct (same_words_fields t r Hw) as (_ & Hi & _). destruct (info_derived t r Hi) as (Hk' & _). congruence.
  - rewrite Hk in H. destruct H as [H1 H2]. split_and!; [done.. |]. unfold composite_kind. rewrite H1. apply fwd_kind_composite.
Qed.

Lemma fwd_stands fw t r :
  btf_kind t = BTF_KIND_FWD -> btf_kind r = btf_fwd_kind t -> name_off r = name_off t -> stands_for fw t r.
Proof. intros Hk H1 H2. right. rewrite Hk. auto. Qed.

(** What local agreement says when one of the types is a forward declaration, a structure
    or a union. *)
Lemma local_fwd_r t u :
  local_ok t u -> btf_kind u = BTF_KIND_FWD ->
  (btf_kind t = BTF_KIND_FWD /\ own_words t = own_words u) \/ btf_kind t = btf_fwd_kind u.
Proof.
  intros [_ [[_ H]|[[_ H]|[[_ H]|[(_ & H & _)|[H1 H2]]]]]] Hu; [|auto| |exfalso|exfalso].
  - destruct (fwd_kind_composite t); congruence.
  - left. split; [|done]. destruct (same_words_fields t u H) as (_ & Hi & _). destruct (info_derived t u Hi) as (-> & _). done.
  - destruct (any_enum_kind u H); congruence.
  - destruct (info_words_cnt t u (same_shape_info _ _ H2)) as (_ & Hk & _). rewrite Hk, Hu in H1. exact H1.
Qed.

Lemma local_fwd_l t u :
  local_ok t u -> btf_kind t = BTF_KIND_FWD ->
  (btf_kind u = BTF_KIND_FWD /\ own_words t = own_words u) \/ btf_kind u = btf_fwd_kind t.
Proof.
  intros [_ [[_ H]|[[_ H]|[[_ H]|[(H & _ & _)|[H1 H2]]]]]] Ht; [auto | | |exfalso|exfalso].
  - destruct (fwd_kind_composite u); congruence.
  - left. split; [|done]. destruct (same_words_fields t u H) as (_ & Hi & _). destruct (info_derived t u Hi) as (<- & _). done.
  - destruct (any_enum_kind t H); congruence.
  - rewrite Ht in H1. exact H1.
Qed.

Lemma local_composite t u :
  local_ok t u -> composite_kind (btf_kind t) ->
  (btf_kind u = BTF_KIND_FWD /\ btf_kind t = btf_fwd_kind u) \/ same_shape t u.
Proof.
  intros [_ [[H _]|[[H H']|[[H _]|[(H & _ & _)|[_ H2]]]]]] Ht; [exfalso | auto | exfalso | exfalso | auto].
  - destruct Ht; congruence.
  - destruct Ht as [Hk|Hk]; rewrite Hk in H; exact H.
  - destruct (any_enum_kind t H), Ht; congruence.
Qed.

Lemma local_name t u : local_ok t u -> name_off t = name_off u.
Proof. by intros []. Qed.

Section Roots.
Context (fw : Z -> Prop) (t u rt ru : btf_type) (Hl : local_ok t u)
  (Ht : stands_for fw t rt) (Hu : stands_for fw u ru)
  (Hft : btf_kind t = BTF_KIND_FWD -> fw (name_off t)) (Hfu : btf_kind u = BTF_KIND_FWD -> fw (name_off u)).

(** A forward declaration of the canonical graph is resolved. *)
Lemma roots_resolve_canon :
  btf_kind rt <> BTF_KIND_FWD -> btf_kind ru = BTF_KIND_FWD -> stands_for fw ru rt /\ composite_kind (btf_kind rt).
Proof.
  intros Hrt Hru. destruct (stands_for_fwd fw u ru Hu Hru) as [Hku Hwu].
  destruct (same_words_fields u ru Hwu) as (Hn & Hi & _). destruct (info_derived u ru Hi) as (_ & _ & Hfk & _).
  pose proof (local_name t u Hl) as Hnm. destruct (local_fwd_r t u Hl Hku) as [[Hkt Hwt]|Hkt].
  - destruct (stands_from_fwd fw t rt Ht Hkt Hrt) as (H1 & H2 & H3). split; [|done].
    destruct (same_words_fields t u Hwt) as (_ & Hit & _). destruct (info_derived t u Hit) as (_ & _ & Hft' & _).
    apply fwd_stands; congruence.
  - assert (Hc : composite_kind (btf_kind t)) by (unfold composite_kind; rewrite Hkt; apply fwd_kind_composite).
    destruct (stands_composite fw t rt Ht Hc) as (H1 & H2 & _). split; [apply fwd_stands; congruence |]. by rewrite H1.
Qed.

(** A forward declaration of the candidate graph is resolved. *)
Lemma roots_resolve_cand :
  btf_kind rt = BTF_KIND_FWD -> btf_kind ru <> BTF_KIND_FWD -> stands_for fw rt ru /\ composite_kind (btf_kind ru).
Proof.
  intros Hrt Hru. destruct (stands_for_fwd fw t rt Ht Hrt) as [Hkt Hwt].
  destruct (same_words_fields t rt Hwt) as (Hn & Hi & _). destruct (info_derived t rt Hi) as (_ & _ & Hfk & _).
  pose proof (local_name t u Hl) as Hnm. destruct (local_fwd_l t u Hl Hkt) as [[Hku Hwu]|Hku].
  - destruct (stands_from_fwd fw u ru Hu Hku Hru) as (H1 & H2 & H3). split; [|done].
    destruct (same_words_fields t u Hwu) as (_ & Hit & _). destruct (info_derived t u Hit) as (_ & _ & Hft' & _).
    apply fwd_stands; congruence.
  - assert (Hc : composite_kind (btf_kind u)) by (unfold composite_kind; rewrite Hku; apply fwd_kind_composite).
    destruct (stands_composite fw u ru Hu Hc) as (H1 & H2 & _). split; [apply fwd_stands; congruence |]. by rewrite H1.
Qed.

(** A structure or union gets a representative. *)
Lemma roots_composite :
  composite_kind (btf_kind rt) -> btf_kind ru <> BTF_KIND_FWD -> stands_for fw rt ru.
Proof.
  intros Hc Hru. pose proof (local_name t u Hl) as Hnm.
  assert (Hgoal : btf_kind ru = btf_kind rt -> name_off ru = name_off rt ->
    same_shape rt ru \/ fw (name_off rt) -> stands_for fw rt ru).
  { intros H1 H2 H3. right. destruct Hc as [Hk|Hk]; rewrite Hk in *; auto. }
  destruct (decide (btf_kind t = BTF_KIND_FWD)) as [Hkt|Hkt].
  - destruct (stands_from_fwd fw t rt Ht Hkt ltac:(by apply composite_not_fwd)) as (H1 & H2 & _).
    specialize (Hft Hkt). destruct (local_fwd_l t u Hl Hkt) as [[Hku Hwu]|Hku].
    + destruct (stands_from_fwd fw u ru Hu Hku Hru) as (H3 & H4 & _).
      destruct (same_words_fields t u Hwu) as (_ & Hit & _). destruct (info_derived t u Hit) as (_ & _ & Hft' & _).
      apply Hgoal; [congruence.. |]. right. congruence.
    + assert (Hcu : composite_kind (btf_kind u)) by (unfold composite_kind; rewrite Hku; apply fwd_kind_composite).
      destruct (stands_composite fw u ru Hu Hcu) as (H3 & H4 & _). apply Hgoal; [congruence.. |]. right. congruence.
  - assert (Hct : composite_kind (btf_kind t)).
    { destruct (stands_for_composite fw t rt Ht ltac:(by apply composite_kind_eq)) as [[H|[H _]] _]; [by rewrite H | done]. }
    destruct (stands_composite fw t rt Ht Hct) as (H1 & H2 & H3).
    destruct (local_composite t u Hl Hct) as [[Hku Hk]|Hs].
    + destruct (stands_from_fwd fw u ru Hu Hku Hru) as (H4 & H5 & _). apply Hgoal; [congruence.. |]. right.
      specialize (Hfu Hku). congruence.
    + destruct (info_words_cnt t u (same_shape_info _ _ Hs)) as (_ & Hk & _).
      destruct (stands_composite fw u ru Hu ltac:(by rewrite <- Hk)) as (H4 & H5 & H6). apply Hgoal; [congruence.. |].
      destruct H3 as [H3|H3]; [|right; congruence]. destruct H6 as [H6|H6]; [|right; congruence]. left.
      eapply same_shape_trans; [apply same_shape_sym, H3 |]. by eapply same_shape_trans.
Qed.
End Roots.

(** *** The entries in turn *)
Definition entries_local (d : btf_dedup) : Prop :=
  forall c x, entry d c x -> exists t u, btf_type_by_id (d_btf d) x = Some t /\
    btf_type_by_id (d_btf d) c = Some u /\ local_ok t u.

Lemma entries_local_frame d d' : map_frame d d' -> entries_local d -> entries_local d'.
Proof. intros [H1 _ H3 _ _ _]. unfold entries_local, entry. by rewrite H1, H3. Qed.

Lemma wp_kind_at d x t (Q : btf_kind_t -> btf_dedup -> Prop) :
  dedup_btf (d_btf d) -> btf_type_by_id (d_btf d) x = Some t -> Q (btf_kind t) d -> wp (kind_at x) Q d.
Proof. intros Hb Ht HQ. apply (wp_read _ (btf_kind t)); [|done]. by rewrite (db__type Hb x t Ht). Qed.

Lemma wp_is_type_mapped d x v (Q : bool -> btf_dedup -> Prop) :
  znth (d_map d) x = Some v -> Q (v <=? BTF_MAX_NR_TYPES) d -> wp (is_type_mapped x) Q d.
Proof. intros Hv HQ. unfold is_type_mapped. apply wp_bind, (wp_map_at x v); [done |]. by apply wp_ret. Qed.

Lemma is_fwd_kind_spec k : is_fwd_kind k = true <-> k = BTF_KIND_FWD.
Proof. unfold is_fwd_kind. apply bool_decide_eq_true. Qed.

Lemma nonzero_type d x t : btf_type_by_id (d_btf d) x = Some t -> btf_kind t = BTF_KIND_FWD \/ composite_kind (btf_kind t) ->
  0 <= x -> 0 < x.
Proof.
  intros Ht Hk Hx. destruct (decide (x = 0)) as [->|]; [|lia]. exfalso. rewrite btf_type_by_id_eq in Ht.
  injection Ht as <-. assert (btf_kind btf_void = BTF_KIND_UNKN) as Hv by reflexivity. rewrite Hv in Hk.
  destruct Hk as [?|[?|?]]; discriminate.
Qed.

Section MergeRoots.
Context (d : btf_dedup) (x c : Z) (t u : btf_type) (Hst : state_ok 0 d)
  (Rx : is_root (d_map d) x) (Rc : is_root (d_map d) c)
  (Ht : btf_type_by_id (d_btf d) x = Some t) (Hu : btf_type_by_id (d_btf d) c = Some u)
  (Hcanon : btf_kind t <> BTF_KIND_FWD -> btf_kind u = BTF_KIND_FWD ->
     stands_for (fwd_name (d_btf d)) u t /\ composite_kind (btf_kind t))
  (Hcand : btf_kind t = BTF_KIND_FWD -> btf_kind u <> BTF_KIND_FWD ->
     stands_for (fwd_name (d_btf d)) t u /\ composite_kind (btf_kind u))
  (Hcomp : composite_kind (btf_kind t) -> btf_kind u <> BTF_KIND_FWD -> stands_for (fwd_name (d_btf d)) t u)
  (Hsame : entries_same d -> links_same (d_btf d) (d_map d) -> same_type (d_btf d) x c).

Lemma roots_ne : btf_kind t <> btf_kind u -> x <> c.
Proof. intros Hk ->. rewrite Ht in Hu. injection Hu as ->. by destruct Hk. Qed.

Lemma merge_link_canon :
  btf_kind t <> BTF_KIND_FWD -> btf_kind u = BTF_KIND_FWD -> wp (map_set c x) (fun _ d' => merge_post d d') d.
Proof.
  intros Hkt Hku. destruct (Hcanon Hkt Hku) as [Hs Hc]. pose proof (root_range _ _ Rc).
  apply (wp_link d c x u t); auto; [apply roots_ne; congruence | | right; by apply composite_kind_eq | by intros; apply same_type_sym; auto].
  apply (nonzero_type d c u Hu); [auto | lia].
Qed.

Lemma merge_link_cand :
  hypot_adjust_canon d = false ->
  btf_kind t = BTF_KIND_FWD -> btf_kind u <> BTF_KIND_FWD -> wp (map_set x c) (fun _ d' => merge_post d d') d.
Proof.
  intros Ha Hkt Hku. destruct (Hcand Hkt Hku) as [Hs Hc]. pose proof (root_range _ _ Rx).
  apply (wp_link d x c t u); auto; [apply not_eq_sym, roots_ne; congruence | | right; by apply composite_kind_eq].
  apply (nonzero_type d x t Ht); [auto | lia].
Qed.

Lemma merge_link_composite :
  hypot_adjust_canon d = false -> composite_kind (btf_kind t) -> btf_kind u <> BTF_KIND_FWD ->
  mapped (d_map d) c -> ~ mapped (d_map d) x -> wp (map_set x c) (fun _ d' => merge_post d d') d.
Proof.
  intros Ha Hkt Hku Hmc Hmx. pose proof (root_range _ _ Rx).
  apply (wp_link d x c t u); auto; [by intros -> | | congruence | right; by apply composite_graph].
  apply (nonzero_type d x t Ht); [auto | lia].
Qed.

Lemma merge_roots_ok : wp (merge_roots x c (btf_kind t) (btf_kind u)) (fun _ d' => merge_post d d') d.
Proof.
  pose proof (merge_post_refl d Hst) as Hno. unfold merge_roots.
  destruct (is_fwd_kind (btf_kind u)) eqn:Fu; [apply is_fwd_kind_spec in Fu|]; rewrite ?andb_true_r, ?andb_false_r; cbn [negb].
  - destruct (is_fwd_kind (btf_kind t)) eqn:Ft; cbn [negb].
    + apply wp_bind, wp_ret, wp_bind, (wp_read _ (hypot_adjust_canon d)); [done |].
      case_if; [by apply wp_ret |]. by apply wp_bind, wp_ret, wp_ret.
    + apply wp_bind. eapply wp_mono; [apply merge_link_canon; [|done] |].
      { intros Hk. apply is_fwd_kind_spec in Hk. congruence. }
      intros ? d' Hm. apply wp_bind, (wp_read _ (hypot_adjust_canon d')); [done |].
      case_if; [by apply wp_ret |]. by apply wp_bind, wp_ret, wp_ret.
  - assert (Hku : btf_kind u <> BTF_KIND_FWD) by (intros Hk; apply is_fwd_kind_spec in Hk; congruence).
    apply wp_bind, wp_ret, wp_bind, (wp_read _ (hypot_adjust_canon d)); [done |]. case_if; [by apply wp_ret |].
    destruct (is_fwd_kind (btf_kind t)) eqn:Ft.
    + apply is_fwd_kind_spec in Ft. apply wp_bind. eapply wp_mono; [by apply merge_link_cand |].
      intros ? d' Hm. rewrite Ft. by apply wp_ret.
    + apply wp_bind, wp_ret. destruct (is_composite_kind (btf_kind t)) eqn:Fc; [|by apply wp_ret].
      assert (Hk : composite_kind (btf_kind t)) by (unfold is_composite_kind, composite_kind in *; destruct (btf_kind t); auto; discriminate).
      destruct Rc as (vc & Hvc & Hvc'). destruct Rx as (vx & Hvx & Hvx').
      apply wp_bind, (wp_is_type_mapped d c vc); [done |]. destruct (vc <=? _) eqn:Lc; cbn [negb]; [|by apply wp_ret].
      apply wp_bind, (wp_is_type_mapped d x vx); [done |]. destruct (vx <=? _) eqn:Lx; [by apply wp_ret |].
      apply merge_link_composite; [done.. | exists vc; split; [done | lia] |].
      intros (v & Hv & Hle). rewrite Hvx in Hv. injection Hv as <-. lia.
Qed.
End MergeRoots.

Lemma merge_entry_ok d c :
  state_ok 0 d -> entries_local d -> c ∈ hypot_list d -> wp (merge_entry c) (fun _ d' => merge_post d d') d.
Proof.
  intros Hst Hel Hc. pose proof (st_btf _ _ Hst) as Hb. pose proof (st_hypot _ _ Hst) as [Hl Hids Hvals].
  rewrite Forall_forall in Hids. specialize (Hids c Hc). destruct (znth_is_Some (hypot_map d) c) as [x Hx]; [lia |].
  destruct (Hvals c x Hx) as [[_ Hni]|[_ Hxr]]; [done |].
  assert (Hxle : x <= BTF_MAX_NR_TYPES) by (pose proof (db_cnt _ Hb); lia).
  destruct (Hel c x ltac:(by split)) as (t & u & Ht & Hu & Hloc). unfold merge_entry.
  apply wp_bind, (wp_hypot_at d c x); [done |].
  destruct (st_resolves Hst x Hxr) as [rx Hrx]. destruct (st_resolves Hst c Hids) as [rc Hrc].
  apply wp_bind, (wp_resolve x rx); [done |]. apply wp_bind, (wp_resolve c rc); [done |].
  destruct (st_type Hst rx) as (rt & Hrt & _); [by eapply st_resolves_range |].
  destruct (st_type Hst rc) as (ru & Hru & _); [by eapply st_resolves_range |].
  apply wp_bind, (wp_kind_at d rx rt); [done..|]. apply wp_bind, (wp_kind_at d rc ru); [done..|].
  pose proof (st_stands Hst x rx t rt Hrx Ht Hrt) as Hst1. pose proof (st_stands Hst c rc u ru Hrc Hu Hru) as Hst2.
  assert (Hfn : forall id v, btf_type_by_id (d_btf d) id = Some v -> btf_kind v = BTF_KIND_FWD ->
    fwd_name (d_btf d) (name_off v)) by (intros id v Hv Hk; by exists id, v).
  apply merge_roots_ok; [done | by eapply resolves_is_root | by eapply resolves_is_root | done | done | | | |].
  - by apply (roots_resolve_canon _ t u).
  - by apply (roots_resolve_cand _ t u).
  - apply (roots_composite _ t u); [done.. | by apply (Hfn x) | by apply (Hfn c)].
  - intros He Hl'. eapply same_type_trans; [by apply same_type_sym, (st_same Hst Hl') |].
    eapply same_type_trans; [by apply He | by apply (st_same Hst Hl')].
Qed.

Lemma merge_entries_ok l d :
  state_ok 0 d -> entries_local d -> (forall c, c ∈ l -> c ∈ hypot_list d) ->
  wp (merge_entries l) (fun _ d' => merge_post d d') d.
Proof.
  revert d. induction l as [|c l IH]; intros d Hst Hel Hl; cbn [merge_entries].
  - apply wp_ret. by apply merge_post_refl.
  - apply wp_bind. eapply wp_mono; [apply merge_entry_ok; [done.. | apply Hl; constructor] |]. intros ? d1 Hm.
    eapply wp_mono; [apply IH |].
    + apply Hm.
    + by eapply entries_local_frame; [apply Hm |].
    + intros c' Hc'. rewrite (mf_list _ _ (mp_frame _ _ Hm)). apply Hl. by constructor.
    + intros ? d2 Hm2. eapply merge_post_trans; [exact Hm | exact Hm2].
Qed.

Lemma entries_list d c x : state_ok 0 d -> entry d c x -> c ∈ hypot_list d.
Proof.
  intros Hst [Hx Hle]. destruct (hypot_vals _ _ _ (st_hypot _ _ Hst) c x Hx) as [[-> _]|[Hin _]]; [|done].
  unfold BTF_UNPROCESSED_ID, BTF_MAX_NR_TYPES in Hle. lia.
Qed.

(** ** One structure *)

(** While the candidates of a structure are tried, its own place in the map stays as it
    was. *)
Record trying (d : btf_dedup) (x : Z) (d' : btf_dedup) : Prop := {
  tr_btf : d_btf d' = d_btf d;
  tr_table : dedup_table d' = dedup_table d;
  tr_strs : d_strs_set d' = d_strs_set d;
  tr_state : state_ok 0 d';
  tr_mono : forall y, mapped (d_map d) y -> mapped (d_map d') y;
  tr_kept : mapped_kept d d';
  tr_same : links_same (d_btf d) (d_map d) -> links_same (d_btf d) (d_map d');
  tr_other : others_mapped d d'
}.

Lemma trying_refl d x : state_ok 0 d -> trying d x d.
Proof. intros H. split; [done.. | by apply mapped_kept_refl | done | by intros y u]. Qed.

Lemma trying_trans d1 x d2 d3 : trying d1 x d2 -> trying d2 x d3 -> trying d1 x d3.
Proof.
  intros [B1 ? ? ? ? K1 L1 O1] [B2 ? ? ? ? K2 L2 O2]. rewrite B1 in L2.
  split; [congruence.. | done | auto | by eapply mapped_kept_trans | auto | by eapply others_mapped_trans].
Qed.

Lemma trying_hypot d x d' : state_ok 0 d' -> hypot_frame d d' -> trying d x d'.
Proof.
  intros Hst [H1 H2 H3 H4]. split; [done.. | by rewrite H3 | by apply mapped_kept_refl | by rewrite H3 |].
  intros y t _ _ _. by rewrite H3.
Qed.

Lemma trying_merge d x d' : (links_same (d_btf d) (d_map d) -> entries_same d) -> merge_post d d' -> trying d x d'.
Proof. intros He [[] Hs Hm Hk Hl _ Ho]. split; try done. auto. Qed.

(** *** A candidate with the same words *)
Lemma equiv_refl fuel d w (Q : Z -> btf_dedup -> Prop) :
  state_ok 0 d -> 0 <= w < type_cnt (d_btf d) -> Q 1 d -> wp (btf_dedup_is_equiv (S fuel) w w) Q d.
Proof.
  intros Hst Hw HQ. cbn [btf_dedup_is_equiv]. destruct (st_resolves Hst w Hw) as [r Hr].
  apply wp_bind, (wp_resolve w r); [done |]. apply wp_bind, (wp_resolve w r); [done |]. rewrite Z.eqb_refl. by apply wp_ret.
Qed.

Lemma equiv_elems_refl fuel n i ids d (Q : Z -> btf_dedup -> Prop) :
  state_ok 0 d ->
  (forall j, i <= j < i + Z.of_nat n -> exists w, ids j = Some (w, w) /\ 0 <= w < type_cnt (d_btf d)) ->
  Q 1 d -> wp (equiv_elems n i ids (btf_dedup_is_equiv (S fuel))) Q d.
Proof.
  intros Hst Hids HQ. revert i Hids. induction n as [|n IH]; intros i Hids; cbn [equiv_elems]; [by apply wp_ret |].
  destruct (Hids i ltac:(lia)) as (w & Hw & Hr). apply wp_bind, (wp_lift _ (w, w)); [done |]. cbn [fst snd].
  apply wp_bind, equiv_refl; [done.. |]. apply IH. intros j Hj. apply Hids. lia.
Qed.

(** Comparing types with the same words succeeds without looking further. *)
Lemma equiv_types_words fuel d x c t u :
  state_ok 0 d -> btf_type_by_id (d_btf d) x = Some t -> btf_type_by_id (d_btf d) c = Some u -> own_words t = own_words u ->
  graph_kind (btf_kind t) -> wp (equiv_types (btf_dedup_is_equiv (S fuel)) t u c) (fun r d' => r = 1 /\ d' = d) d.
Proof.
  intros Hst Ht Hu Hw Hg. destruct (same_words_fields t u Hw) as (Hn & Hi & Hty). destruct (info_derived t u Hi) as (Hk & _).
  pose proof (st_btf _ _ Hst) as Hb. pose proof (db_words Hb x t Ht) as Hwt. pose proof (db_words Hb c u Hu) as Hwu.
  pose proof (same_words_shape t u Hw) as Hs. unfold equiv_types. rewrite Hn, Z.eqb_refl. cbn [negb].
  rewrite (bool_decide_eq_true_2 _ Hk), andb_false_r. cbn [negb].
  assert (Hstr : btf_kind t = BTF_KIND_STRUCT \/ btf_kind t = BTF_KIND_UNION ->
    wp (let* ok := lift (btf_shallow_equal_struct t u) in
        if negb ok then ret 0 else
        equiv_elems (Z.to_nat (btf_vlen t)) 0
          (fun i => m1 ← btf_member t i; m2 ← btf_member u i; Some (member_type m1, member_type m2)) (btf_dedup_is_equiv (S fuel)))
      (fun r d' => r = 1 /\ d' = d) d).
  { intros Hsk. destruct (shallow_struct_spec t u Hwt Hwu Hsk) as (ok & Hok & Hiff). apply wp_bind, (wp_lift _ ok); [done |].
    rewrite (proj2 Hiff Hs). cbn [negb]. apply equiv_elems_refl; [done | | done]. intros j Hj.
    destruct (member_ids Hb x c t u Ht Hu Hs Hsk j Hj) as (w & w' & Hww & Hr & _ & H1 & H2). exists w. split; [|done].
    rewrite Hww. do 2 f_equal. rewrite (id_field_word t u _ Hw) in H1; [congruence |].
    destruct Hsk as [-> | ->]; cbn [id_fields]; by apply elem_of_in_elems_2; [lia | constructor]. }
  destruct (btf_kind t) eqn:Hkt; try (exfalso; exact Hg); [by apply Hstr; auto.. |].
  rewrite Hi, Z.eqb_refl. cbn [negb]. change (t_size t = t_size u) with (t_type t = t_type u) in Hty. rewrite <- Hty.
  apply equiv_refl; [done | | done]. eapply chain_child; [done.. |]. by rewrite Hkt.
Qed.

Lemma hypot_add_adjust canon cand d r d' :
  btf_dedup_hypot_map_add canon cand d = Some (r, d') -> hypot_adjust_canon d' = hypot_adjust_canon d.
Proof.
  unfold btf_dedup_hypot_map_add. set (p := if zlen (hypot_list d) =? hypot_cap d then _ else _).
  assert (Hp : hypot_adjust_canon p.2 = hypot_adjust_canon d).
  { unfold p. case_if; [|done]. by destruct (alloc_array _ _ _) as [ok o]. }
  destruct p as [ok d1]. cbn [snd] in Hp. destruct ok; cbn [negb]; [|by intros [= _ <-]].
  destruct (array_set _ _ _) as [m|]; [|done]. by intros [= _ <-].
Qed.

(** [c] is its own representative and has the words of [x]. *)
Lemma is_equiv_words d x c t u :
  state_ok 0 d -> btf_type_by_id (d_btf d) x = Some t -> btf_type_by_id (d_btf d) c = Some u -> own_words t = own_words u ->
  graph_kind (btf_kind t) -> ~ mapped (d_map d) x -> znth (d_map d) c = Some c -> (forall c t, ~ entry d c t) ->
  wp (is_equiv x c) (fun r d' => (r = 1 \/ r = - ENOMEM) /\ hypot_adjust_canon d' = hypot_adjust_canon d) d.
Proof.
  intros Hst Ht Hu Hw Hg Hm Hself Hno. pose proof (st_btf _ _ Hst) as Hb. pose proof (db_cnt _ Hb) as Hcnt.
  pose proof (btf_type_by_id_range _ _ _ (db_ok _ Hb) Ht) as Hx. pose proof (btf_type_by_id_range _ _ _ (db_ok _ Hb) Hu) as Hc.
  pose proof (hypot_len _ _ _ (st_hypot _ _ Hst)) as Hlen. unfold is_equiv, wp.
  assert (Hn : exists n, length (hypot_map d) = S n) by (exists (Nat.pred (length (hypot_map d))); unfold zlen in Hlen; lia).
  destruct Hn as [n ->]. change (wp (btf_dedup_is_equiv (S (S n)) x c)
    (fun r d' => (r = 1 \/ r = - ENOMEM) /\ hypot_adjust_canon d' = hypot_adjust_canon d) d). remember (S n) as fuel eqn:Hfuel. cbn [btf_dedup_is_equiv].
  apply wp_bind, (wp_resolve x x); [apply resolves_root, unmapped_root; [by rewrite (st_len _ _ Hst) | done] |].
  apply wp_bind, (wp_resolve c c); [apply resolves_root; exists c; auto |].
  assert (Hne : x <> c) by (intros ->; apply Hm; exists c; split; [done | lia]). replace (x =? c) with false by lia.
  destruct (same_words_fields t u Hw) as (_ & Hi & _). destruct (info_derived t u Hi) as (Hk & _).
  unfold resolve_fwd_id. apply wp_bind, wp_bind, (wp_is_fwd_at d c u); [done | done |].
  assert (Hf : btf_is_fwd u = false) by (unfold btf_is_fwd; rewrite <- Hk; by destruct (btf_kind t)). rewrite Hf. cbn [negb]. apply wp_ret.
  destruct (znth_is_Some (hypot_map d) c) as [v Hv]; [lia |]. apply wp_bind, (wp_hypot_at d c v); [done |].
  assert (Hgt : BTF_MAX_NR_TYPES < v) by (destruct (decide (v <= BTF_MAX_NR_TYPES)); [by destruct (Hno c v) | lia]).
  replace (v <=? _) with false by lia. apply wp_bind.
  destruct (wp_hypot_add d c x v Hst Hv Hgt Hx) as (r & d1 & Hrun & Hcase). pose proof (hypot_add_adjust _ _ _ _ _ Hrun) as Ha.
  exists r, d1. split; [done |]. destruct Hcase as [[-> He]|(-> & He & _)]; cbn [nonzero Z.eqb negb]; [apply wp_ret; auto |].
  pose proof (hf_btf _ _ (he_frame _ _ He)) as Hb1. rewrite <- Hb1 in Ht, Hu.
  apply wp_bind, (wp_type_of x t); [done |]. apply wp_bind, (wp_type_of c u); [done |]. subst fuel.
  eapply wp_mono; [by apply (equiv_types_words n d1 x c t u); [apply He | ..] |]. cbn beta. intros r d2 [-> ->]. auto.
Qed.

(** One candidate: an error, no equivalence, or an equivalence that has been merged. *)
Lemma try_cand d x c t u rank :
  state_ok 0 d -> chains_end (d_btf d) rank -> btf_type_by_id (d_btf d) x = Some t -> graph_kind (btf_kind t) ->
  ~ mapped (d_map d) x -> btf_type_by_id (d_btf d) c = Some u ->
  forall (k : dedup_m (result Z)) (Q : result Z -> btf_dedup -> Prop),
  (forall e d', trying d x d' -> e = ENOMEM \/ e = EINVAL -> Q (Err e) d') ->
  (forall d', trying d x d' -> ~ mapped (d_map d') x -> (znth (d_map d) c = Some c -> own_words t <> own_words u) -> wp k Q d') ->
  (forall d', trying d x d' -> (links_same (d_btf d) (d_map d) -> same_type (d_btf d) x c) -> Q (Ok c) d') ->
  wp (do* btf_dedup_clear_hypot_map in
      let* eq := is_equiv x c in
      if eq <? 0 then ret (Err (- eq)) else
      if eq =? 0 then k else
      do* btf_dedup_merge_hypot_map in
      let* adjust := read (fun d => Some (hypot_adjust_canon d)) in
      if (adjust : bool) then k else ret (Ok c)) Q d.
Proof.
  intros Hst Hch Ht Hk Hm Hu k Q HErr Hk' HOk. pose proof (btf_type_by_id_range _ _ _ (db_ok _ (st_btf _ _ Hst)) Ht) as Hx.
  pose proof (btf_type_by_id_range _ _ _ (db_ok _ (st_btf _ _ Hst)) Hu) as Hc.
  apply wp_bind. eapply wp_mono; [by apply wp_clear |]. intros ? d1 (Hf1 & Hst1 & Hno & _ & Ha1).
  pose proof (hf_btf _ _ Hf1) as Hb1. pose proof (hf_map _ _ Hf1) as Hm1. apply wp_bind.
  assert (Heq : wp (is_equiv x c) (equiv_post d1 (fun d' => related d' x c)) d1).
  { apply (is_equiv_ok _ rank); rewrite ?Hb1; try done. pose proof (unentered_length (hypot_map d1)). lia. }
  destruct Heq as (r & d2 & Hrun & He & Hcode & Hrel). exists r, d2. split; [done |].
  assert (Hwords : znth (d_map d) c = Some c -> own_words t = own_words u -> (r = 1 \/ r = - ENOMEM) /\ hypot_adjust_canon d2 = false).
  { intros Hself Hw. destruct (is_equiv_words d1 x c t u) as (r' & d' & Hrun' & Hr'); rewrite ?Hb1, ?Hm1; [done.. |].
    rewrite Hrun in Hrun'. injection Hrun' as <- <-. by rewrite Ha1 in Hr'. }
  pose proof (hypot_frame_trans _ _ _ Hf1 (he_frame _ _ He)) as Hf2. pose proof (hf_btf _ _ Hf2) as Hb2.
  pose proof (he_state _ _ He) as Hst2. pose proof (trying_hypot d x d2 Hst2 Hf2) as Htr2.
  assert (Hm2 : ~ mapped (d_map d2) x) by (by rewrite (hf_map _ _ Hf2)).
  unfold equiv_code, ENOMEM, EINVAL in *. destruct (r <? 0) eqn:Hr0.
  { apply wp_ret, HErr; [done |]. destruct Hcode as [?|[?|[?|?]]]; lia. }
  destruct (r =? 0) eqn:Hr1; [apply Hk'; [done.. |]; intros Hself Hw; destruct (Hwords Hself Hw) as [[?|?] _]; lia |].
  assert (r = 1) as -> by (destruct Hcode as [?|[?|[?|?]]]; lia).
  destruct (Hrel eq_refl) as [Hxc Hnew]. apply wp_bind. unfold btf_dedup_merge_hypot_map.
  assert (Hent : forall c' x', entry d2 c' x' -> entry_ok d2 c' x').
  { intros c' x' H. destruct (Hnew c' x' H) as [H1|H1]; [by destruct (Hno c' x') | done]. }
  assert (Hes : links_same (d_btf d2) (d_map d2) -> entries_same d2) by (intros Hl; by apply (entries_ok_same Hst2 Hl)).
  eapply wp_mono; [apply (merge_entries_ok (hypot_list d2) d2); [done | | done] |].
  { intros c' x' H. destruct (Hent c' x' H) as (t' & u' & H1 & H2 & H3 & _). eauto. }
  intros ? d3 Hmp. apply wp_bind, (wp_read _ (hypot_adjust_canon d3)); [done |]. pose proof (mf_adjust _ _ (mp_frame _ _ Hmp)) as Ha3.
  assert (Htr3 : trying d x d3) by (eapply trying_trans; [exact Htr2 | by apply trying_merge]).
  destruct (hypot_adjust_canon d3) eqn:Ha.
  - apply Hk'; [done | |intros Hself Hw; destruct (Hwords Hself Hw) as [_ ?]; congruence].
    intros (v & Hv & Hle). apply Hm2. exists v. split; [|done].
    rewrite <- (mp_adjust _ _ Hmp) with (t := t); [done | done | by rewrite Hb2 |]. intros Hkf. rewrite Hkf in Hk. exact Hk.
  - apply wp_ret, HOk; [done |]. rewrite <- Hb2, <- (hf_map _ _ Hf2). intros Hl. by apply (related_same Hst2 Hl); [apply Hes |].
Qed.

(** What trying the candidates gives. *)
Definition cands_post (d : btf_dedup) (x : Z) (t : btf_type) (cands : list Z) (r : result Z) (d' : btf_dedup) : Prop :=
  trying d x d' /\
  match r with
  | Err e => e = ENOMEM \/ e = EINVAL
  | Ok c =>
      (c = x /\ ~ mapped (d_map d') x /\
       forall c' u, c' ∈ cands -> btf_type_by_id (d_btf d) c' = Some u -> znth (d_map d) c' = Some c' -> own_words t <> own_words u) \/
      (c ∈ cands /\ (links_same (d_btf d) (d_map d) -> same_type (d_btf d) x c) /\
       exists u, btf_type_by_id (d_btf d) c = Some u /\ same_shape t u)
  end.

(** Going on after a candidate. *)
Lemma cands_post_cons d x t c u cands d1 r d' :
  graph_kind (btf_kind t) -> trying d x d1 -> mapped (d_map d) c -> btf_type_by_id (d_btf d) c = Some u ->
  (znth (d_map d) c = Some c -> own_words t <> own_words u) ->
  (forall c', c' ∈ cands -> mapped (d_map d) c') ->
  cands_post d1 x t cands r d' -> cands_post d x t (c :: cands) r d'.
Proof.
  intros Hg Htr Hmc Hu Hw Hms [Htr' Hr]. pose proof (tr_btf _ _ _ Htr) as Hb. split; [by eapply trying_trans |].
  destruct r as [c'|e]; [|done]. destruct Hr as [(-> & Hm & Hno)|(Hin & Hs & Hu')]; [left | right].
  - split_and!; [done.. |]. intros c2 u2 [->|Hc2]%elem_of_cons Hu2 Hs2 Hw2; [rewrite Hu in Hu2; injection Hu2 as <-; by apply Hw |].
    apply (Hno c2 u2 Hc2); [by rewrite Hb | | done]. rewrite (proj1 (tr_kept _ _ _ Htr) c2 u2 Hu2); [done | | by apply Hms].
    destruct (same_words_fields t u2 Hw2) as (_ & Hi & _). destruct (info_derived t u2 Hi) as (Hk & _). rewrite <- Hk.
    intros Hf. rewrite Hf in Hg. exact Hg.
  - rewrite Hb in *. split_and!; [by constructor | | done]. intros Hl. apply Hs. by apply (tr_same _ _ _ Htr).
Qed.

Lemma struct_cands_ok x t rank cands d :
  state_ok 0 d -> chains_end (d_btf d) rank -> btf_type_by_id (d_btf d) x = Some t -> graph_kind (btf_kind t) ->
  ~ mapped (d_map d) x -> (forall c, c ∈ cands -> exists h, c ∈ cands_of d h) ->
  wp (struct_cands x t (btf_kind t) cands x) (cands_post d x t cands) d.
Proof.
  revert d. induction cands as [|c cands IH]; intros d Hst Hch Ht Hk Hm Hcs; cbn [struct_cands].
  { apply wp_ret. split; [by apply trying_refl |]. left. split_and!; [done.. |]. by intros c u ?%not_elem_of_nil. }
  destruct (Hcs c ltac:(constructor)) as [h Hc]. destruct (st_cand Hst h c Hc) as (u & Hu & Hwu & Hr & Hmc & _).
  apply wp_bind, (wp_type_of c u); [done |].
  destruct (equal_by_kind_spec t u ltac:(by eapply db_words; [apply Hst |]) Hwu Hk) as (same & Hsame & Hiff).
  apply wp_bind, (wp_lift _ same); [done |].
  assert (Hgo : forall d', trying d x d' -> ~ mapped (d_map d') x -> (znth (d_map d) c = Some c -> own_words t <> own_words u) ->
    wp (struct_cands x t (btf_kind t) cands x) (cands_post d x t (c :: cands)) d').
  { intros d' Htr Hm' Hw. pose proof (tr_btf _ _ _ Htr) as Hb'. eapply wp_mono; [apply IH; try done |].
    - apply Htr.
    - by rewrite Hb'.
    - by rewrite Hb'.
    - intros c' Hc'. destruct (Hcs c' ltac:(by constructor)) as [h' Hh']. exists h'. unfold cands_of.
      by rewrite (tr_table _ _ _ Htr).
    - intros r d''. eapply cands_post_cons; [done.. |]. intros c' Hc'. destruct (Hcs c' ltac:(by constructor)) as [h' Hh'].
      by destruct (st_cand Hst h' c' Hh') as (_ & _ & _ & _ & ? & _). }
  destruct same; cbn [negb].
  2:{ apply Hgo; [by apply trying_refl | done |]. intros _ Hw. by apply same_words_shape, Hiff in Hw. }
  apply (try_cand d x c t u rank); [done.. | | exact Hgo |].
  - intros e d' Htr He. by split.
  - intros d' Htr Hsm. split; [done |]. right. split_and!; [constructor | done |]. exists u. split; [done | by apply Hiff].
Qed.

(** The type becomes a duplicate of a candidate. *)
Lemma wp_set_canon_root d x c tx tc h :
  state_ok 0 d -> 0 < x -> c <> x -> znth (d_map d) c = Some c ->
  btf_type_by_id (d_btf d) x = Some tx -> btf_type_by_id (d_btf d) c = Some tc ->
  stands_for (fwd_name (d_btf d)) tx tc -> (forall h, x ∉ cands_of d h) ->
  wp (set_canon h x c) (canon_post d x) d.
Proof.
  intros Hst Hx Hne Hself Htx Htc Hs Hnc. unfold set_canon.
  assert (Hx' : 0 <= x < zlen (d_map d)).
  { rewrite (st_len _ _ Hst). by eapply btf_type_by_id_range; [apply Hst |]. }
  assert (Hc : c <= BTF_MAX_NR_TYPES).
  { pose proof (db_cnt _ (st_btf _ _ Hst)). pose proof (btf_type_by_id_range _ _ _ (db_ok _ (st_btf _ _ Hst)) Htc). lia. }
  apply wp_bind, wp_map_set; [done |]. replace (x =? c) with false by lia. apply wp_ret. split; [by split |]. left.
  split; [done |]. split; [|split; [intros y; by apply mapped_upd_iff | apply graph_kept_upd]].
  apply (state_ok_link 0 0 d x c tx tc c); auto; [|left; by exists c]. apply resolves_upd_root; [done | by exists c; auto | done..].
Qed.

Lemma shape_stands fw t u : graph_kind (btf_kind t) -> same_shape t u -> stands_for fw t u.
Proof.
  intros Hk Hs. destruct (info_words_cnt t u (same_shape_info _ _ Hs)) as (_ & Hku & _).
  pose proof (shape_name t u ltac:(by apply graph_known) Hs) as Hn. right. destruct (btf_kind t); try done; auto.
Qed.

(** What an assignment does to the map and the table. *)
Lemma set_canon_run h x c d r d' :
  hashmap_wf (fun _ => True) (dedup_table d) -> set_canon h x c d = Some (r, d') ->
  d_map d' = zupd (d_map d) x c /\
  (r = 0 -> (forall h' y, y ∈ cands_of d h' -> y ∈ cands_of d' h') /\ (x = c -> x ∈ cands_of d' h)).
Proof.
  intros Hwf. unfold set_canon, bind, map_set, modify. unfold array_set. case_if; [|done]. cbn [mbind option_bind].
  set (d1 := set_d_map d (zupd (d_map d) x c)). destruct (x =? c) eqn:Hxc; [|intros [= <- <-]; split; [done |]; intros _; split; [done | lia]].
  destruct (table_add_cands d1 h x Hwf) as (r1 & tbl & o & Hadd & _ & Hcase). rewrite Hadd. intros [= <- <-]. split; [done |].
  destruct Hcase as [[-> Hcs]|[-> _]]; [|done]. intros _. split; [|intros _; apply Hcs; auto]. intros h' y Hy. apply Hcs. by right.
Qed.

(** What a step of the pass leaves. *)
Record struct_step (d d' : btf_dedup) : Prop := {
  ss_btf : d_btf d' = d_btf d;
  ss_strs : d_strs_set d' = d_strs_set d;
  ss_state : state_ok 0 d';
  ss_mono : forall y, mapped (d_map d) y -> mapped (d_map d') y;
  ss_kept : forall y t, btf_type_by_id (d_btf d) y = Some t -> btf_kind t <> BTF_KIND_FWD -> mapped (d_map d) y ->
    znth (d_map d') y = znth (d_map d) y;
  ss_same : links_same (d_btf d) (d_map d) -> links_same (d_btf d) (d_map d');
  ss_cands : forall h y, y ∈ cands_of d h -> y ∈ cands_of d' h;
  ss_other : others_mapped d d'
}.

Lemma struct_step_refl d : state_ok 0 d -> struct_step d d.
Proof. intros H. split; [done.. | by intros y u]. Qed.

Lemma struct_step_trans d1 d2 d3 : struct_step d1 d2 -> struct_step d2 d3 -> struct_step d1 d3.
Proof.
  intros [B1 ? ? M1 K1 L1 C1 O1] [B2 ? ? M2 K2 L2 C2 O2].
  split; [congruence.. | done | auto | | rewrite B1 in L2; auto | auto | by eapply others_mapped_trans].
  intros y t Ht Hk Hm. rewrite (K2 y t); [by apply (K1 y t) | by rewrite B1 | done | auto].
Qed.

(** The only type that may become its own representative is [x], when no candidate that is
    one has its words. *)
Definition new_self (d : btf_dedup) (x : Z) (t : btf_type) (d' : btf_dedup) : Prop :=
  forall y, znth (d_map d') y = Some y -> znth (d_map d) y = Some y \/
    (y = x /\ exists h, hash_of_kind t = Some (Ok h) /\ x ∈ cands_of d' h /\
     forall c u, c ∈ cands_of d h -> btf_type_by_id (d_btf d) c = Some u -> znth (d_map d) c = Some c -> own_words t <> own_words u).

(** The result of a step for [x]. *)
Definition struct_type_post (d : btf_dedup) (x : Z) (t : btf_type) (r : Z) (d' : btf_dedup) : Prop :=
  (r = 0 /\ struct_step d d' /\ (graph_kind (btf_kind t) -> mapped (d_map d') x) /\ new_self d x t d') \/
  ((r = - ENOMEM \/ r = - EINVAL) /\ d_btf d' = d_btf d).

Lemma canon_step d x d1 c h r d' t :
  btf_type_by_id (d_btf d) x = Some t -> graph_kind (btf_kind t) -> ~ mapped (d_map d) x -> hash_of_kind t = Some (Ok h) ->
  trying d x d1 -> set_canon h x c d1 = Some (r, d') -> canon_post d1 x r d' ->
  (links_same (d_btf d) (d_map d) -> same_type (d_btf d) x c) ->
  (x = c -> forall c' u, c' ∈ cands_of d h -> btf_type_by_id (d_btf d) c' = Some u -> znth (d_map d) c' = Some c' -> own_words t <> own_words u) ->
  struct_type_post d x t r d'.
Proof.
  intros Ht Hg Hmx Hh [T1 T2 T3 T4 T5 [T6 T6'] T7 T8] Hrun [[F1 F2 F3 F4] Hcase] Hsm Hno.
  destruct (set_canon_run h x c d1 r d' (st_table _ _ T4) Hrun) as [Hmap Hcs].
  destruct Hcase as [(-> & Hst & Hm & _)| ->]; [left|right; split; [auto | congruence]]. destruct (Hcs eq_refl) as [Hc1 Hc2].
  split_and!; [done | split; [congruence.. | done | | | | |] | intros _; apply Hm; auto |].
  - intros y Hy. apply Hm. auto.
  - intros y u Hu Hk Hy. rewrite Hmap, znth_zupd_ne by (intros <-; done). by apply (T6 y u).
  - intros Hl. rewrite Hmap. apply links_same_upd; auto.
  - intros h' y Hy. apply Hc1. unfold cands_of in *. by rewrite T2.
  - intros y u Hu Hf Hng Hy. apply Hm in Hy as [Hy| ->]; [by apply (T8 y u) |]. rewrite Ht in Hu. by injection Hu as <-.
  - intros y Hy. rewrite Hmap in Hy. destruct (decide (x = y)) as [<-|Hne]; [right | left; apply T6'; by rewrite znth_zupd_ne in Hy].
    rewrite znth_zupd_eq in Hy; [|apply znth_Some in Hy; by rewrite zlen_zupd in Hy]. injection Hy as ->. split; [done |].
    exists h. split_and!; [done | by apply Hc2 |]. by apply Hno.
Qed.

(** A candidate of the same shape becomes the representative. *)
Lemma struct_dup_canon d x t c u d1 h :
  state_ok 0 d -> 0 < x -> btf_type_by_id (d_btf d) x = Some t -> graph_kind (btf_kind t) -> ~ mapped (d_map d) x ->
  trying d x d1 -> c ∈ cands_of d h -> btf_type_by_id (d_btf d) c = Some u -> same_shape t u ->
  wp (set_canon h x c) (canon_post d1 x) d1.
Proof.
  intros Hst Hx Ht Hk Hm Htr Hc Hu Hs. pose proof (tr_btf _ _ _ Htr) as Hb1. pose proof (tr_state _ _ _ Htr) as Hst1.
  destruct (st_cand Hst h c Hc) as (u' & Hu' & _ & Hcr & Hmc & _). assert (Hcx : c <> x) by (by intros ->).
  assert (Hc1 : c ∈ cands_of d1 h) by (unfold cands_of; by rewrite (tr_table _ _ _ Htr)).
  destruct (st_cand Hst1 h c Hc1) as (u1 & Hu1 & _ & _ & _ & Hself). rewrite Hb1, Hu in Hu1. injection Hu1 as <-.
  destruct (info_words_cnt t u (same_shape_info _ _ Hs)) as (_ & Hku & _).
  apply (wp_set_canon_root d1 x c t u h); [done | done | done | | by rewrite Hb1 | by rewrite Hb1 | by apply shape_stands |].
  - destruct Hself as [?|[Hs'|Hs']]; [done | exfalso..]; [unfold btf_is_enum_fwd, btf_is_any_enum in Hs' | unfold btf_is_fwd in Hs'];
      rewrite <- Hku in Hs'; destruct (btf_kind t); done.
  - intros h'. unfold cands_of. rewrite (tr_table _ _ _ Htr). by apply (unmapped_no_cand 0).
Qed.

Lemma btf_dedup_struct_type_ok d x t rank :
  state_ok 0 d -> chains_end (d_btf d) rank -> start_id (d_btf d) <= x -> btf_type_by_id (d_btf d) x = Some t ->
  wp (btf_dedup_struct_type x) (struct_type_post d x t) d.
Proof.
  intros Hst Hch Hown Ht. pose proof (db_start (st_btf _ _ Hst)) as Hstart. unfold btf_dedup_struct_type.
  pose proof (btf_type_by_id_range _ _ _ (db_ok _ (st_btf _ _ Hst)) Ht) as Hx.
  destruct (znth_is_Some (d_map d) x) as [v Hv]; [by rewrite (st_len _ _ Hst) |].
  apply wp_bind, (wp_map_at x v); [done |]. destruct (v <=? BTF_MAX_NR_TYPES) eqn:Hle.
  { apply wp_ret. left. split_and!; [done | by apply struct_step_refl | | by left]. intros _. exists v. split; [done | lia]. }
  assert (Hm : ~ mapped (d_map d) x).
  { intros (w & Hw & Hwl). rewrite Hv in Hw. injection Hw as <-. lia. }
  apply wp_bind, (wp_type_of x t); [done |]. destruct (decide (graph_kind (btf_kind t))) as [Hk|Hk].
  2: { assert (Hret : wp (ret 0) (struct_type_post d x t) d).
       { apply wp_ret. left. split_and!; [done | by apply struct_step_refl | done | by left]. }
       destruct (btf_kind t); try done; by destruct Hk. }
  pose proof (db_words (st_btf _ _ Hst) x t Ht) as Hw.
  destruct (hash_of_kind_total t Hw ltac:(by apply graph_known)) as (r & Hr & Hok).
  destruct Hok as [h ->]; [right; by destruct (btf_kind t) |].
  pose proof (hash_by_kind_eq t Hk) as Hhk. rewrite Hr in Hhk.
  destruct (btf_hash_by_kind t (btf_kind t)) as [h'|] eqn:Hh'; [|discriminate]. injection Hhk as <-.
  assert (Hbody : wp (let* h := lift (Some h) in let* cands := dedup_cands h in
      let* r := struct_cands x t (btf_kind t) cands x in
      match r with Err e => ret (- e) | Ok new_id => set_canon h x new_id end) (struct_type_post d x t) d);
    [|revert Hk Hbody; clear; destruct (btf_kind t); intros Hk Hbody; (exact Hbody || by destruct Hk)].
  apply wp_bind, (wp_lift _ h); [done |]. apply wp_bind, wp_cands, wp_bind.
  eapply wp_mono; [apply (struct_cands_ok x t rank); [done.. | by eauto] |]. intros res d1 [Htr Hres].
  pose proof (tr_btf _ _ _ Htr) as Hb1. pose proof (tr_state _ _ _ Htr) as Hst1.
  destruct res as [c|e]; [|apply wp_ret; right; split; [destruct Hres as [-> | ->]; auto | done]].
  assert (Hpost : wp (set_canon h x c) (canon_post d1 x) d1).
  { destruct Hres as [(-> & Hm1 & _)|(Hc & _ & u & Hu & Hs)].
    - apply (wp_set_canon_self 0 d1 x t h); [done | auto | lia | by rewrite Hb1 | by rewrite Hb1 | done | done |].
      intros He. by destruct (btf_kind t).
    - apply (struct_dup_canon d x t c u); try done. lia. }
  destruct Hpost as (r & d' & Hrun & Hpost). exists r, d'. split; [done |]. eapply canon_step; try done.
  - intros Hl. destruct Hres as [(-> & _)|(_ & Hs & _)]; [|auto]. by apply same_type_refl; [apply Hst |].
  - intros <-. destruct Hres as [(_ & _ & Hno)|(Hc & _)]; [done |]. exfalso.
    by apply (unmapped_no_cand 0 d x Hst Hm h).
Qed.

(** ** The pass *)

(** An own structure, union or typedef that the pass has made its own representative. *)
Record struct_rep (d0 d : btf_dedup) (x : Z) (t : btf_type) : Prop := {
  sr_type : btf_type_by_id (d_btf d0) x = Some t;
  sr_own : start_id (d_btf d0) <= x;
  sr_kind : graph_kind (btf_kind t);
  sr_new : ~ mapped (d_map d0) x;
  sr_self : znth (d_map d) x = Some x
}.

Record struct_done (d0 : btf_dedup) (k : Z) (d : btf_dedup) : Prop := {
  sd_step : struct_step d0 d;
  sd_mapped : forall y u, btf_type_by_id (d_btf d0) y = Some u -> start_id (d_btf d0) <= y < k ->
    graph_kind (btf_kind u) -> mapped (d_map d) y;
  sd_cands : forall y u h, struct_rep d0 d y u -> hash_of_kind u = Some (Ok h) -> y < k /\ y ∈ cands_of d h;
  sd_unique : forall x t y u, struct_rep d0 d x t -> struct_rep d0 d y u -> own_words t = own_words u -> x = y
}.

Lemma struct_done_start d : state_ok 0 d -> struct_done d (start_id (d_btf d)) d.
Proof.
  intros Hst. assert (Hno : forall y u, ~ struct_rep d d y u).
  { intros y u [Ht _ _ Hn Hs]. apply Hn. exists y. split; [done |]. pose proof (db_cnt _ (st_btf _ _ Hst)).
    pose proof (btf_type_by_id_range _ _ _ (db_ok _ (st_btf _ _ Hst)) Ht). lia. }
  split; [by apply struct_step_refl | intros; lia | intros y u h Hr; by destruct (Hno y u) |].
  intros x t y u Hr. by destruct (Hno x t).
Qed.

(** Representatives after a step were so before, or are the type of the step. *)
Lemma struct_rep_back d0 k d t d' y u :
  d_btf d = d_btf d0 -> btf_type_by_id (d_btf d0) k = Some t -> new_self d k t d' -> struct_rep d0 d' y u ->
  struct_rep d0 d y u \/
  (y = k /\ u = t /\ exists h, hash_of_kind t = Some (Ok h) /\ k ∈ cands_of d' h /\
   forall c v, c ∈ cands_of d h -> btf_type_by_id (d_btf d0) c = Some v -> znth (d_map d) c = Some c -> own_words t <> own_words v).
Proof.
  intros Hb Hk Hns [H1 H2 H3 H4 H5]. destruct (Hns y H5) as [Hs|(-> & h & Hh)]; [left; by split |]. right.
  rewrite Hb in Hh. rewrite Hk in H1. injection H1 as <-. eauto.
Qed.

Lemma struct_done_step d0 k d t d' :
  struct_done d0 k d -> btf_type_by_id (d_btf d0) k = Some t -> struct_step d d' ->
  (graph_kind (btf_kind t) -> mapped (d_map d') k) -> new_self d k t d' -> struct_done d0 (k + 1) d'.
Proof.
  intros [S1 M1 C1 U1] Ht S2 Hm Hns. pose proof (ss_btf _ _ S1) as Hb.
  pose proof (fun y u => struct_rep_back d0 k d t d' y u Hb Ht Hns) as Hback.
  assert (Hsep : forall y u h, struct_rep d0 d y u -> hash_of_kind t = Some (Ok h) -> own_words u = own_words t -> y ∈ cands_of d h).
  { intros y u h Hr Hh Hw. apply (C1 y u h Hr). rewrite (hash_same_words u t Hw); [done |]. apply graph_known, Hr. }
  split; [by eapply struct_step_trans | | |].
  - intros y u Hu Hy Hg. destruct (decide (y = k)) as [->|Hne]; [rewrite Ht in Hu; injection Hu as <-; by apply Hm |].
    apply (ss_mono _ _ S2), (M1 y u Hu); [lia | done].
  - intros y u h Hr Hh. destruct (Hback y u Hr) as [Hr'|(-> & -> & h' & Hh' & Hin & _)].
    + destruct (C1 y u h Hr' Hh) as [H1 H2]. split; [lia | by apply (ss_cands _ _ S2)].
    + rewrite Hh in Hh'. injection Hh' as <-. split; [lia | done].
  - intros x u y v Hx Hy Hw. destruct (Hback x u Hx) as [Hx'|(-> & -> & h & Hh & _ & Hno)], (Hback y v Hy) as [Hy'|(-> & -> & h' & Hh' & _ & Hno')].
    + by apply (U1 x u y v).
    + exfalso. apply (Hno' x u); [by apply (Hsep x u) | apply Hx | apply Hx' | done].
    + exfalso. apply (Hno y v); [by apply (Hsep y v) | apply Hy | apply Hy' | done].
    + done.
Qed.

Lemma btf_dedup_struct_types_ok d rank :
  state_ok 0 d -> chains_end (d_btf d) rank ->
  wp btf_dedup_struct_types (fun r d' =>
    (r = 0 /\ struct_done d (type_cnt (d_btf d)) d') \/
    ((r = - ENOMEM \/ r = - EINVAL) /\ d_btf d' = d_btf d)) d.
Proof.
  intros Hst Hch. unfold btf_dedup_struct_types.
  eapply wp_mono; [apply (wp_for_types _ _ (struct_done d)
    (fun r d' => (r = - ENOMEM \/ r = - EINVAL) /\ d_btf d' = d_btf d)) |].
  - apply Hst.
  - by apply struct_done_start.
  - intros k d1 Hk Hd. pose proof (ss_btf _ _ (sd_step _ _ _ Hd)) as Hb1. pose proof (db_start (st_btf _ _ Hst)) as Hstart.
    destruct (st_type Hst k) as (t & Ht & _); [unfold type_cnt in *; lia |].
    eapply wp_mono; [apply (btf_dedup_struct_type_ok d1 k t rank) |].
    + apply Hd.
    + by rewrite Hb1.
    + rewrite Hb1. lia.
    + by rewrite Hb1.
    + cbn beta. intros r d2 [(-> & Hs2 & Hm2 & Hn2)|[[-> | ->] Hb2]]; [|by split; [auto | congruence]..].
      by eapply struct_done_step.
  - cbn beta. intros r d' [[-> Hd]|[_ Hd]]; auto.
Qed.
End Struct.
