(* ===== verification/DedupFwd.v ===== *)
(** * DedupFwd: forward declarations resolved by their names

    [btf_dedup_resolve_fwds] of [Dedup]: a forward declaration that is still its own
    representative is linked to the structure or union of its name, when there is just one
    with that name among the representatives and it is of the declared kind. *)
From S2P Require Import Prelude Hashmap Mem Strset BtfTypes Btf BtfFind BtfParse BtfRaw BtfWrite DedupTypes Dedup DedupState DedupPrim DedupEquiv DedupStruct.
Open Scope Z_scope.
Open Scope dedup_scope.

#[local] Opaque kind_of_Z.

(** ** Names *)

(** [x] is a structure or union of name [n] and its own representative. *)
Definition named (b : btf) (m : list Z) (n x : Z) : Prop :=
  0 < x /\ znth m x = Some x /\
  exists t, btf_type_by_id b x = Some t /\ btf_is_composite t = true /\ name_off t = n.

(** There is no other one of that name. *)
Definition sole_named (b : btf) (m : list Z) (n c : Z) : Prop :=
  named b m n c /\ forall x, named b m n x -> x = c.

(** What the table holds of a name when the types below [k] have been seen. *)
Definition name_spec (b : btf) (m : list Z) (k n : Z) (o : option Z) : Prop :=
  match o with
  | None => forall x, x < k -> ~ named b m n x
  | Some v =>
      (v = 0 /\ exists x y, x <> y /\ x < k /\ y < k /\ named b m n x /\ named b m n y) \/
      (v <> 0 /\ v < k /\ named b m n v /\ forall x, x < k -> named b m n x -> x = v)
  end.

Definition names_ok (b : btf) (m : list Z) (k : Z) (names : hashmap) : Prop :=
  exists a : amap, hashmap_repr (C := int_ctx) (valid := fun _ => True) names a /\
    forall n, name_spec b m k n (value <$> a n).

Lemma name_spec_skip b m k n o : ~ named b m n k -> name_spec b m k n o -> name_spec b m (k + 1) n o.
Proof.
  intros Hk. destruct o as [v|]; cbn [name_spec].
  - intros [(-> & x & y & Hne & Hx & Hy & Hnx & Hny)|(Hv & Hvk & Hnv & Hu)]; [left | right].
    + split; [done |]. exists x, y. split_and!; (done || lia).
    + split_and!; [done | lia | done |]. intros x Hx Hnx. destruct (decide (x = k)) as [->|]; [done |]. apply Hu; [lia | done].
  - intros H x Hx Hnx. destruct (decide (x = k)) as [->|]; [done |]. apply (H x); [lia | done].
Qed.

Lemma names_skip b m k names :
  (forall n, ~ named b m n k) -> names_ok b m k names -> names_ok b m (k + 1) names.
Proof. intros Hk (a & Hr & Ha). exists a. split; [done |]. intros n. by apply name_spec_skip. Qed.

(** One more structure or union: its name is new, or no longer that of just one. *)
Lemma name_spec_new b m k n : named b m n k -> name_spec b m k n None -> name_spec b m (k + 1) n (Some k).
Proof.
  intros Hk H. right. pose proof (proj1 Hk). split_and!; [lia | lia | done |]. intros x Hx Hnx.
  destruct (decide (x = k)) as [->|]; [done |]. destruct (H x); [lia | done].
Qed.

Lemma name_spec_again b m k n v : named b m n k -> name_spec b m k n (Some v) -> name_spec b m (k + 1) n (Some 0).
Proof.
  intros Hk [(-> & x & y & Hne & Hx & Hy & Hnx & Hny)|(Hv & Hvk & Hnv & Hu)]; left; (split; [done |]).
  - exists x, y. split_and!; (done || lia).
  - exists v, k. split_and!; (done || lia).
Qed.

Lemma amap_set_int a k oe k' : amap_set (C := int_ctx) a k oe k' = if k =? k' then oe else a k'.
Proof. unfold amap_set. by rewrite dc_equal. Qed.

Lemma names_update b m k n (a : amap) e names :
  named b m n k -> (forall n, name_spec b m k n (value <$> a n)) ->
  hashmap_repr (C := int_ctx) (valid := fun _ => True) names (amap_set (C := int_ctx) a n (Some e)) ->
  name_spec b m (k + 1) n (Some (value e)) -> names_ok b m (k + 1) names.
Proof.
  intros Hk Ha Hr He. eexists. split; [exact Hr |]. intros n'. rewrite amap_set_int. case_if; [by replace n' with n by lia |].
  apply name_spec_skip; [|done]. intros (_ & _ & t' & Ht' & _ & <-). destruct Hk as (_ & _ & t & Ht & _ & Hn).
  rewrite Ht in Ht'. injection Ht' as <-. lia.
Qed.

Section Fwd.
Context {C : hash_ctx} {DC : DedupCtx C}.

(** Only memory is used. *)
Definition only_oracle (d d' : btf_dedup) : Prop := exists o, d' = set_table d (dedup_table d) o.

Lemma only_oracle_refl d : only_oracle d d.
Proof. exists (d_oracle d). by destruct d. Qed.

Lemma only_oracle_trans d1 d2 d3 : only_oracle d1 d2 -> only_oracle d2 d3 -> only_oracle d1 d3.
Proof. intros [o ->] [o' ->]. by exists o'. Qed.

Lemma state_ok_oracle open d d' : only_oracle d d' -> state_ok open d -> state_ok open d'.
Proof. intros [o ->] [Hb Hlen Hz Hl Hvals Ha Ht Hc Hh [Hco Hun]]. split; try assumption. split; [exact Hco | exact Hun]. Qed.

(** The representative [k] is entered under its name. *)
Lemma wp_enter_name d k t names :
  named (d_btf d) (d_map d) (name_off t) k -> names_ok (d_btf d) (d_map d) k names ->
  wp (let* r := names_insert names (name_off t) k HASHMAP_ADD in
      if r.1 =? - EEXIST then names_insert r.2 (name_off t) 0 HASHMAP_SET else ret r)
    (fun r d' => only_oracle d d' /\
      ((r.1 = 0 /\ names_ok (d_btf d) (d_map d) (k + 1) r.2) \/ r.1 = - ENOMEM)) d.
Proof.
  intros Hk (a & Hr & Ha). pose proof (Ha (name_off t)) as Hn. apply wp_bind.
  pose proof (repr_add (C := int_ctx) names a (name_off t) k (d_oracle d) Hr I) as Hadd.
  eexists _, _. split; [reflexivity |]. rewrite Hadd. cbn [fst snd]. destruct (a (name_off t)) as [e|] eqn:He.
  - cbn [ins_ret ins_map ins_oracle]. rewrite Z.eqb_refl.
    destruct (repr_replace (C := int_ctx) names a (name_off t) 0 (d_oracle d) e Hr I He) as (m' & Hset & Hr').
    eexists _, _. split; [reflexivity |]. cbn [d_oracle set_table]. rewrite Hset. split; [by eexists |]. left.
    split; [done |]. eapply names_update; [done.. | by eapply name_spec_again].
  - destruct (insert_new_refines (C := int_ctx) names a (name_off t) k (d_oracle d) Hr I He) as (_ & _ & Hc).
    assert (Hne : (ins_ret (hashmap_insert_new (C := int_ctx) names (name_off t) k 0 0 (d_oracle d)) =? - EEXIST) = false).
    { destruct Hc as [(-> & _)|(-> & _)]; done. }
    rewrite Hne. apply wp_ret. split; [by eexists |]. cbn [fst snd].
    destruct Hc as [(-> & Hr' & _)|(-> & _)]; [left|by right]. split; [done |].
    eapply names_update; [done.. | by apply name_spec_new].
Qed.

Lemma fill_names_ok n k names d :
  state_ok 0 d -> 1 <= k -> k + Z.of_nat n <= type_cnt (d_btf d) -> names_ok (d_btf d) (d_map d) k names ->
  wp (btf_dedup_fill_unique_names_map n k names) (fun r d' => only_oracle d d' /\
    ((r.1 = 0 /\ names_ok (d_btf d) (d_map d) (k + Z.of_nat n) r.2) \/ r.1 = - ENOMEM)) d.
Proof.
  revert k names d. induction n as [|n IH]; intros k names d Hst Hk Hn Hok; cbn [btf_dedup_fill_unique_names_map].
  { apply wp_ret. split; [apply only_oracle_refl |]. left. by rewrite Z.add_0_r. }
  replace (k + Z.of_nat (S n)) with (k + 1 + Z.of_nat n) in * by lia.
  destruct (st_type Hst k) as (t & Ht & _); [lia |]. apply wp_bind, (wp_type_of k t); [done |].
  destruct (btf_is_composite t) eqn:Hc; cbn [negb].
  2:{ apply IH; [done | lia | lia |]. apply names_skip; [|done]. intros n' (_ & _ & t' & Ht' & Hc' & _). congruence. }
  destruct (znth_is_Some (d_map d) k) as [v Hv]; [rewrite (st_len _ _ Hst); lia |].
  apply wp_bind, (wp_map_at k v); [done |]. destruct (k =? v) eqn:Hkv; cbn [negb].
  2:{ apply IH; [done | lia | lia |]. apply names_skip; [|done]. intros n' (_ & Hv' & _). rewrite Hv in Hv'. injection Hv' as ->. lia. }
  assert (v = k) as -> by lia. assert (Hnm : named (d_btf d) (d_map d) (name_off t) k) by (split_and!; [lia | done | by exists t]).
  pose proof (wp_enter_name d k t names Hnm Hok) as Hent. unfold wp, bind in Hent |- *.
  destruct (names_insert names (name_off t) k HASHMAP_ADD d) as [[r1 d1]|]; [|by destruct Hent as (? & ? & ? & _)].
  destruct Hent as (r2 & d2 & Hrun & Hor & Hcase). rewrite Hrun. destruct Hcase as [(Hr & Hok2)|Hr]; rewrite Hr.
  - cbn [nonzero negb Z.eqb]. destruct Hor as [o ->].
    destruct (IH (k + 1) r2.2 (set_table d (dedup_table d) o)) as (r3 & d3 & Hrun3 & Hor3 & Hcase3);
      [by eapply state_ok_oracle; [by eexists |] | lia | done | done |].
    exists r3, d3. split; [exact Hrun3 |]. split; [|exact Hcase3]. eapply only_oracle_trans; [by eexists | exact Hor3].
  - exists r2, d2. split; [done |]. split; [done | by right].
Qed.

(** ** Resolving *)
Lemma fwd_kind_check t u :
  btf_is_composite u = true ->
  (btf_is_struct u && btf_kflag t) || (btf_is_union u && negb (btf_kflag t)) = false <-> btf_kind u = btf_fwd_kind t.
Proof.
  unfold btf_is_composite, btf_is_struct, btf_is_union, btf_fwd_kind. intros Hc.
  destruct (btf_kind u); try discriminate; destruct (btf_kflag t); cbn; split; (done || discriminate).
Qed.

(** Linking a type that is no structure or union does not change the names. *)
Lemma named_upd b m x v t n y :
  btf_type_by_id b x = Some t -> btf_is_composite t = false -> named b (zupd m x v) n y <-> named b m n y.
Proof.
  intros Ht Hc. unfold named. destruct (decide (x = y)) as [<-|Hne]; [|by rewrite znth_zupd_ne].
  split; intros (_ & _ & t' & Ht' & Hc' & _); congruence.
Qed.

Lemma names_ok_upd b m m' k names :
  (forall n y, named b m' n y <-> named b m n y) -> names_ok b m k names -> names_ok b m' k names.
Proof.
  intros Hiff (a & Hr & Ha). exists a. split; [done |]. intros n. specialize (Ha n).
  destruct (value <$> a n) as [v|]; cbn [name_spec] in *; [|intros x Hx; rewrite Hiff; by apply Ha].
  destruct Ha as [(-> & x & y & Hne & Hx & Hy & Hnx & Hny)|(Hv & Hvk & Hnv & Hu)]; [left | right].
  - split; [done |]. exists x, y. rewrite !Hiff. done.
  - rewrite Hiff. split_and!; [done.. |]. intros x Hx. rewrite Hiff. by apply Hu.
Qed.

(** The forward declaration [x] has been dealt with. *)
Definition fwd_resolved (b : btf) (m : list Z) (x : Z) : Prop :=
  forall t, btf_type_by_id b x = Some t -> btf_kind t = BTF_KIND_FWD -> znth m x = Some x ->
    forall c u, sole_named b m (name_off t) c -> btf_type_by_id b c = Some u -> btf_kind u <> btf_fwd_kind t.

(** What the pass leaves. *)
Record fwd_step (d d' : btf_dedup) : Prop := {
  fs_btf : d_btf d' = d_btf d;
  fs_table : dedup_table d' = dedup_table d;
  fs_hypot : hypot_map d' = hypot_map d;
  fs_list : hypot_list d' = hypot_list d;
  fs_strs : d_strs_set d' = d_strs_set d;
  fs_state : state_ok 0 d';
  fs_mapped : forall y, mapped (d_map d') y <-> mapped (d_map d) y;
  fs_other : forall y t, btf_type_by_id (d_btf d) y = Some t -> btf_kind t <> BTF_KIND_FWD ->
    znth (d_map d') y = znth (d_map d) y
}.

Lemma fwd_step_refl d d' : state_ok 0 d -> only_oracle d d' -> fwd_step d d'.
Proof. intros Hst Hor. pose proof (state_ok_oracle _ _ _ Hor Hst). destruct Hor as [o ->]. by split. Qed.

Lemma fwd_step_trans d1 d2 d3 : fwd_step d1 d2 -> fwd_step d2 d3 -> fwd_step d1 d3.
Proof.
  intros [B1 T1 H1 L1 S1 O1 M1 X1] [B2 T2 H2 L2 S2 O2 M2 X2]. split; [congruence.. | done | |].
  - intros y. by rewrite M2, M1.
  - intros y t Hy Hk. rewrite (X2 y t); [by apply (X1 y t) | congruence | done].
Qed.

Lemma fwd_link d x c t u :
  state_ok 0 d -> 0 < x -> btf_type_by_id (d_btf d) x = Some t -> btf_kind t = BTF_KIND_FWD -> znth (d_map d) x = Some x ->
  named (d_btf d) (d_map d) (name_off t) c -> btf_type_by_id (d_btf d) c = Some u -> btf_kind u = btf_fwd_kind t ->
  fwd_step d (set_d_map d (zupd (d_map d) x c)).
Proof.
  intros Hst Hx Ht Hk Hmx (Hc0 & Hmc & u' & Hu' & Hcomp & Hn) Hu Hku. rewrite Hu in Hu'. injection Hu' as <-.
  assert (Hcx : c <> x). { intros ->. unfold btf_is_composite in Hcomp. by rewrite Ht in Hu; injection Hu as ->; rewrite Hk in Hcomp. }
  pose proof (btf_type_by_id_range _ _ _ (db_ok _ (st_btf _ _ Hst)) Hu) as Hcr.
  pose proof (db_cnt _ (st_btf _ _ Hst)) as Hcnt. apply znth_Some in Hmx as Hxr.
  assert (Hmapx : mapped (d_map d) x).
  { exists x. split; [done |]. pose proof (btf_type_by_id_range _ _ _ (db_ok _ (st_btf _ _ Hst)) Ht). lia. }
  split; cbn [d_btf dedup_table hypot_map hypot_list d_strs_set set_d_map d_map]; try reflexivity.
  - apply (state_ok_link 0 0 d x c t u c); auto; [lia | right; rewrite Hk; by rewrite Hku | |right; right; by apply is_fwd_kind_eq].
    apply resolves_upd_root; [done | exists c; auto | done | lia].
  - intros y. rewrite mapped_upd_iff by (done || lia). split; [|auto]. by intros [?| ->].
  - intros y t' Ht' Hk'. apply znth_zupd_ne. intros <-. congruence.
Qed.

Lemma find_name b m k names n :
  names_ok b m k names -> (forall x, named b m n x -> x < k) ->
  match hashmap_find (C := int_ctx) names n with
  | None => forall x, ~ named b m n x
  | Some v => (v = 0 /\ forall c, ~ sole_named b m n c) \/ (v <> 0 /\ sole_named b m n v)
  end.
Proof.
  intros (a & Hr & Ha) Hk. rewrite (repr_find (C := int_ctx) names a n Hr I). specialize (Ha n).
  destruct (value <$> a n) as [v|]; cbn [name_spec] in Ha.
  - destruct Ha as [(-> & x & y & Hne & _ & _ & Hnx & Hny)|(Hv & _ & Hnv & Hu)]; [left | right].
    + split; [done |]. intros c [_ Hc]. apply Hne. by rewrite (Hc x), (Hc y).
    + split; [done |]. split; [done |]. intros x Hx. apply Hu; [by apply Hk | done].
  - intros x Hx. apply (Ha x); [by apply Hk | done].
Qed.

Lemma named_range d n x : state_ok 0 d -> named (d_btf d) (d_map d) n x -> x < type_cnt (d_btf d).
Proof. intros Hst (_ & Hm & _). apply znth_Some in Hm. rewrite <- (st_len _ _ Hst). lia. Qed.

Lemma btf_dedup_resolve_fwd_ok names d x :
  state_ok 0 d -> start_id (d_btf d) <= x < type_cnt (d_btf d) ->
  names_ok (d_btf d) (d_map d) (type_cnt (d_btf d)) names ->
  wp (btf_dedup_resolve_fwd names x) (fun r d' => r = 0 /\ fwd_step d d' /\
    names_ok (d_btf d) (d_map d') (type_cnt (d_btf d)) names /\ fwd_resolved (d_btf d) (d_map d') x /\
    (forall y n, named (d_btf d) (d_map d') n y <-> named (d_btf d) (d_map d) n y) /\
    forall y, y <> x -> znth (d_map d') y = znth (d_map d) y) d.
Proof.
  intros Hst Hx Hnames. unfold btf_dedup_resolve_fwd. pose proof (db_start (st_btf _ _ Hst)) as Hs.
  destruct (st_type Hst x) as (t & Ht & _); [lia |]. apply wp_bind, (wp_type_of x t); [done |].
  assert (Hsame : fwd_resolved (d_btf d) (d_map d) x -> wp (ret 0) (fun r d' => r = 0 /\ fwd_step d d' /\
    names_ok (d_btf d) (d_map d') (type_cnt (d_btf d)) names /\ fwd_resolved (d_btf d) (d_map d') x /\
    (forall y n, named (d_btf d) (d_map d') n y <-> named (d_btf d) (d_map d) n y) /\
    forall y, y <> x -> znth (d_map d') y = znth (d_map d) y) d).
  { intros Hres. apply wp_ret. split_and!; [done | by apply fwd_step_refl, only_oracle_refl | done..]. }
  destruct (btf_is_fwd t) eqn:Hf; cbn [negb].
  2:{ apply Hsame. intros t' Ht' Hk. rewrite Ht in Ht'. injection Ht' as <-. apply is_fwd_kind_eq in Hk. congruence. }
  apply is_fwd_kind_eq in Hf. destruct (znth_is_Some (d_map d) x) as [v Hv]; [rewrite (st_len _ _ Hst); lia |].
  apply wp_bind, (wp_map_at x v); [done |]. destruct (x =? v) eqn:Hxv; cbn [negb].
  2:{ apply Hsame. intros t' _ _ Hv'. rewrite Hv in Hv'. injection Hv' as ->. lia. }
  assert (v = x) as -> by lia. pose proof (find_name _ _ _ names (name_off t) Hnames (fun y => named_range d _ y Hst)) as Hfind.
  destruct (hashmap_find names (name_off t)) as [c|].
  2:{ apply Hsame. intros t' Ht' _ _ c u [Hc _]. rewrite Ht in Ht'. injection Ht' as <-. destruct (Hfind c Hc). }
  destruct Hfind as [[-> Hno]|[Hc0 Hsole]]; cbn [Z.eqb].
  { apply Hsame. intros t' Ht' _ _ c u Hc. rewrite Ht in Ht'. injection Ht' as <-. destruct (Hno c Hc). }
  replace (c =? 0) with false by lia. destruct (Hsole) as [Hnc _]. pose proof Hnc as (_ & _ & u & Hu & Hcomp & _).
  apply wp_bind, (wp_type_of c u); [done |]. pose proof (fwd_kind_check t u Hcomp) as Hchk.
  destruct (_ || _); [apply Hsame | apply wp_bind, wp_map_set; [rewrite (st_len _ _ Hst); lia |]; apply wp_ret].
  - intros t' Ht' _ _ c' u' Hc' Hu'. rewrite Ht in Ht'. injection Ht' as <-.
    assert (c' = c) as -> by (by apply Hsole, Hc'). rewrite Hu in Hu'. injection Hu' as <-. intros Hk. by apply Hchk in Hk.
  - assert (Hnf : btf_is_composite t = false) by (unfold btf_is_composite; by rewrite Hf).
    assert (Hnm : forall y n, named (d_btf d) (zupd (d_map d) x c) n y <-> named (d_btf d) (d_map d) n y)
      by (intros; by eapply named_upd).
    split_and!; [done | eapply fwd_link; (done || (try lia)); by apply Hchk | | | exact Hnm | intros y Hy; by apply znth_zupd_ne].
    + eapply names_ok_upd; [|done]. intros n y. apply Hnm.
    + intros t' _ _ Hself. cbn [d_map set_d_map] in Hself. rewrite znth_zupd_eq in Hself by (rewrite (st_len _ _ Hst); lia).
      injection Hself as ->. rewrite Ht in Hu. injection Hu as <-. congruence.
Qed.

Record fwds_done (d0 : btf_dedup) (names : hashmap) (k : Z) (d : btf_dedup) : Prop := {
  fd_step : fwd_step d0 d;
  fd_names : names_ok (d_btf d0) (d_map d) (type_cnt (d_btf d0)) names;
  fd_resolved : forall y, start_id (d_btf d0) <= y < k -> fwd_resolved (d_btf d0) (d_map d) y
}.

Lemma fwd_resolved_upd b m m' y :
  (forall z n, named b m' n z <-> named b m n z) ->
  (forall t, btf_type_by_id b y = Some t -> btf_kind t = BTF_KIND_FWD -> znth m' y = Some y -> znth m y = Some y) ->
  fwd_resolved b m y -> fwd_resolved b m' y.
Proof.
  intros Hiff Hy Hr t Ht Hk Hs c u [Hc Hu]. apply (Hr t Ht Hk (Hy t Ht Hk Hs) c u). split; [by apply Hiff |].
  intros x Hx. by apply Hu, Hiff.
Qed.

Lemma fwds_done_step d0 names k d d' :
  state_ok 0 d0 -> fwds_done d0 names k d -> fwd_step d d' ->
  names_ok (d_btf d) (d_map d') (type_cnt (d_btf d)) names -> fwd_resolved (d_btf d) (d_map d') k ->
  (forall y n, named (d_btf d) (d_map d') n y <-> named (d_btf d) (d_map d) n y) ->
  (forall y, y <> k -> znth (d_map d') y = znth (d_map d) y) ->
  fwds_done d0 names (k + 1) d'.
Proof.
  intros Hst [Hs Hn Hr] Hs' Hn' Hr' Hnm Hy. rewrite (fs_btf _ _ Hs) in *. split; [by eapply fwd_step_trans | done |].
  intros y Hrange. destruct (decide (y = k)) as [->|Hne]; [done |].
  eapply fwd_resolved_upd; [exact Hnm | | apply Hr; lia]. intros t _ _. by rewrite Hy.
Qed.

Lemma btf_dedup_resolve_fwds_ok d :
  state_ok 0 d ->
  wp btf_dedup_resolve_fwds (fun r d' => fwd_step d d' /\
    ((r = 0 /\ forall y, start_id (d_btf d) <= y < type_cnt (d_btf d) -> fwd_resolved (d_btf d) (d_map d') y) \/
     r = - ENOMEM)) d.
Proof.
  intros Hst. unfold wp, btf_dedup_resolve_fwds, hashmap__new. destruct (alloc (d_oracle d)) as [ok o] eqn:Hal.
  assert (Hor : only_oracle d (set_table d (dedup_table d) o)) by (by eexists).
  destruct ok; cbn [negb]; [|eexists _, _; split; [reflexivity |]; split; [by apply fwd_step_refl | by right]].
  pose proof (state_ok_oracle _ _ _ Hor Hst) as Hst1. set (d1 := set_table d (dedup_table d) o) in *.
  change (d_btf d1) with (d_btf d). pose proof (db_start (st_btf _ _ Hst)) as Hs.
  rewrite (db_type_cnt (st_btf _ _ Hst)). pose proof (fwd_step_refl d d1 Hst Hor) as Hstep1.
  match goal with |- exists a d', ?f d1 = Some (a, d') /\ ?Q => change (wp f (fun a d' => fwd_step d d' /\
    ((a = 0 /\ forall y, start_id (d_btf d) <= y < type_cnt (d_btf d) -> fwd_resolved (d_btf d) (d_map d') y) \/
     a = - ENOMEM)) d1) end.
  apply wp_bind. eapply wp_mono; [apply fill_names_ok; [done | lia | change (d_btf d1) with (d_btf d); unfold type_cnt in *; lia |] |].
  { exists (fun _ => None). split; [apply hashmap_init_repr |]. intros n x Hx (H0 & _). lia. }
  intros r d2 [Hor2 Hcase]. pose proof (fwd_step_trans _ _ _ Hstep1 (fwd_step_refl d1 d2 Hst1 Hor2)) as Hstep2.
  destruct Hcase as [(Hr & Hn)|Hr]; rewrite Hr; cbn [Z.ltb Z.compare].
  2:{ apply wp_ret. split; [done | by right]. }
  eapply wp_mono; [apply (wp_for_types _ _ (fwds_done d r.2) (fun _ _ => False)) |].
  - apply Hstep2.
  - rewrite (fs_btf _ _ Hstep2). split; [done | | intros; lia]. destruct Hor2 as [o2 ->].
    replace (type_cnt (d_btf d)) with (1 + Z.of_nat (Z.to_nat (type_cnt (d_btf d) - 1))); [done |]. unfold type_cnt in *. lia.
  - rewrite (fs_btf _ _ Hstep2). intros k d3 Hk Hd. pose proof (fd_step _ _ _ _ Hd) as Hstep3.
    eapply wp_mono; [apply (btf_dedup_resolve_fwd_ok r.2 d3 k) |].
    + apply Hstep3.
    + by rewrite (fs_btf _ _ Hstep3).
    + rewrite (fs_btf _ _ Hstep3). apply Hd.
    + cbn beta. intros q d4 (-> & H1 & H2 & H3 & H4 & H5). cbn [negative Z.ltb Z.compare].
      by apply (fwds_done_step d r.2 k d3 d4).
  - cbn beta. rewrite (fs_btf _ _ Hstep2). intros q d3 [[-> Hd]|[_ []]]. split; [apply Hd |]. left. split; [done |]. apply Hd.
Qed.
End Fwd.
