(* ===== verification/DedupRef.v ===== *)
(** * DedupRef: deduplication of reference types

    [btf_dedup_ref_types] of [Dedup]: pointers, modifiers, arrays, functions and their
    prototypes, tags and location prototypes.  The identifiers a type holds are replaced by
    those of the representatives, the types they refer to first; then the type is compared
    with the candidates.  The recursion ends: it marks the types it is at, and fails on one
    that is marked. *)
From S2P Require Import Prelude Hashmap Mem Strset BtfTypes Btf BtfFind BtfParse BtfRaw BtfWrite DedupTypes Dedup DedupState DedupPrim DedupEquiv DedupStruct DedupWrite.
Open Scope Z_scope.
Open Scope dedup_scope.

#[local] Opaque kind_of_Z.

(** The kinds of this pass. *)
Definition ref_kind (k : btf_kind_t) : Prop :=
  match k with
  | BTF_KIND_CONST | BTF_KIND_VOLATILE | BTF_KIND_RESTRICT | BTF_KIND_PTR | BTF_KIND_FUNC
  | BTF_KIND_TYPE_TAG | BTF_KIND_DECL_TAG | BTF_KIND_ARRAY | BTF_KIND_FUNC_PROTO | BTF_KIND_LOC_PROTO => True
  | _ => False
  end.

Lemma ref_offs_eq t : ref_kind (btf_kind t) -> ref_offs t = Some (id_fields (btf_kind t) (btf_vlen t)).
Proof. unfold ref_offs. by destruct (btf_kind t). Qed.

Lemma ref_exact k : ref_kind k -> exact_kind k.
Proof. by destruct k. Qed.

Lemma wp_and {A} (m : dedup_m A) (P Q : A -> btf_dedup -> Prop) d :
  wp m P d -> (forall a d', m d = Some (a, d') -> Q a d') -> wp m (fun a d' => P a d' /\ Q a d') d.
Proof. intros (a & d' & Hm & HP) HQ. exists a, d'. auto. Qed.

Lemma stands_for_mono (fwd fwd' : Z -> Prop) t r :
  (forall n, fwd n -> fwd' n) -> stands_for fwd t r -> stands_for fwd' t r.
Proof.
  intros Hf [H|H]; [by left | right]. destruct (btf_kind t); try exact H.
  - destruct H as (H1 & H2 & [H3|H3]); auto.
  - destruct H as (H1 & H2 & [H3|H3]); auto.
Qed.

Section Ref.
Context {C : hash_ctx} {DC : DedupCtx C}.

(** ** Writing the words of a type that is not mapped *)

(** [b'] has the types of [b], with other words only at [x]. *)
Record same_but (b b' : btf) (x : Z) : Prop := {
  sb_start : start_id b' = start_id b;
  sb_cnt : type_cnt b' = type_cnt b;
  sb_dedup : dedup_btf b';
  sb_info : forall y t t', btf_type_by_id b y = Some t -> btf_type_by_id b' y = Some t' -> info t' = info t;
  sb_words : forall y t t', y <> x -> btf_type_by_id b y = Some t -> btf_type_by_id b' y = Some t' ->
    own_words t' = own_words t
}.

Section Same.
Context {b b' : btf} {x : Z} (Hb : dedup_btf b) (Hs : same_but b b' x).

Lemma sb_type y t : btf_type_by_id b y = Some t -> exists t', btf_type_by_id b' y = Some t'.
Proof.
  intros Ht. pose proof (btf_type_by_id_range b y t (db_ok _ Hb) Ht) as Hr. rewrite <- (sb_cnt _ _ _ Hs) in Hr.
  destruct (db_type (sb_dedup _ _ _ Hs) y Hr) as (t' & Ht' & _). by exists t'.
Qed.

Lemma sb_type_back y t' : btf_type_by_id b' y = Some t' -> exists t, btf_type_by_id b y = Some t.
Proof.
  intros Ht'. pose proof (btf_type_by_id_range b' y t' (db_ok _ (sb_dedup _ _ _ Hs)) Ht') as Hr.
  rewrite (sb_cnt _ _ _ Hs) in Hr. destruct (db_type Hb y Hr) as (t & Ht & _). by exists t.
Qed.

Lemma sb_fwd_name n :
  (forall t, btf_type_by_id b x = Some t -> btf_kind t <> BTF_KIND_FWD) -> fwd_name b n -> fwd_name b' n.
Proof.
  intros Hx (y & t & Ht & Hk & Hn). destruct (sb_type y t Ht) as [t' Ht']. exists y, t'.
  destruct (decide (y = x)) as [->|Hne]; [by destruct (Hx t) |].
  destruct (same_words_fields t' t) as (Hn' & Hi' & _); [by apply (sb_words _ _ _ Hs y) |].
  destruct (info_derived t' t Hi') as (Hk' & _). split_and!; congruence.
Qed.
End Same.

Lemma state_ok_words d x t b' :
  state_ok 0 d -> 0 < x -> btf_type_by_id (d_btf d) x = Some t -> ref_kind (btf_kind t) -> ~ mapped (d_map d) x ->
  same_but (d_btf d) b' x -> state_ok 0 (set_d_btf d b').
Proof.
  intros Hst Hx Ht Hk Hm Hs. destruct (Hst) as [Hb Hlen Hz Hl Hvals Ha Htab Hc Hh [Hco Hun]].
  assert (Hmx : forall v, znth (d_map d) x = Some v -> ~ v <= BTF_MAX_NR_TYPES) by (intros v Hv Hle; apply Hm; by exists v).
  assert (Hself : forall y u', self_mapped (set_d_btf d b') y u' -> exists u, self_mapped d y u /\ own_words u' = own_words u).
  { intros y u' (Hy & Hu' & He & H0). destruct (sb_type_back Hb Hs y u' Hu') as [u Hu]. exists u.
    assert (Hne : y <> x).
    { intros ->. destruct (Hmx x Hy). pose proof (db_cnt _ Hb). pose proof (btf_type_by_id_range _ _ _ (db_ok _ Hb) Ht). lia. }
    pose proof (sb_words _ _ _ Hs y u u' Hne Hu Hu') as Hw. split; [|done]. split_and!; [exact Hy | exact Hu | | exact H0].
    destruct (same_words_fields u' u Hw) as (_ & Hi & _). destruct (info_derived u' u Hi) as (<- & _). exact He. }
  split; cbn [d_btf d_map dedup_table hypot_map hypot_list set_d_btf].
  - apply Hs.
  - by rewrite (sb_cnt _ _ _ Hs).
  - done.
  - intros y v Hy Hv. destruct (Hl y v Hy Hv) as (ty & tv & [L1 L2 L3 L4]).
    destruct (sb_type Hb Hs y ty L1) as [ty' Hty']. destruct (sb_type Hb Hs v tv L2) as [tv' Htv'].
    assert (Hyx : y <> x) by (intros ->; by apply (Hmx v)).
    pose proof (sb_info _ _ _ Hs v tv tv' L2 Htv') as Hiv.
    assert (Hcomp : btf_is_composite tv' = btf_is_composite tv).
    { unfold btf_is_composite. destruct (info_derived tv' tv Hiv) as (-> & _). done. }
    assert (Hvx : v <> x).
    { intros ->. rewrite Ht in L2. injection L2 as <-. destruct L4 as [L4|[L4|L4]]; [done | lia |].
      unfold btf_is_composite in L4. by destruct (btf_kind t). }
    exists ty', tv'. split; [done.. | | by rewrite Hcomp].
    eapply stands_for_mono; [|eapply stands_for_words; [symmetry; by apply (sb_words _ _ _ Hs y ty ty') |
      symmetry; by apply (sb_words _ _ _ Hs v tv tv') | exact L3]].
    intros n. apply (sb_fwd_name Hb Hs). intros t2 Ht2. rewrite Ht in Ht2. injection Ht2 as <-. by destruct (btf_kind t).
  - done.
  - done.
  - done.
  - intros h id Hin. destruct (Hc h id Hin) as (u & v & Hu & H0 & Hv & Hle & Hor). destruct (sb_type Hb Hs id u Hu) as [u' Hu'].
    exists u', v. split_and!; [done.. |]. pose proof (sb_info _ _ _ Hs id u u' Hu Hu') as Hi.
    destruct (info_derived u' u Hi) as (Hku & _ & _ & He & _). unfold btf_is_fwd in *. by rewrite He, Hku.
  - destruct Hh as [H1 H2 H3]. split; rewrite (sb_cnt _ _ _ Hs); done.
  - split; cbn [d_btf d_map set_d_btf].
    + intros y u' h Hy Hhash. destruct (Hself y u' Hy) as (u & Hu & Hw). apply (Hco y u h Hu).
      rewrite <- (hash_same_words u' u Hw); [exact Hhash |]. destruct Hy as (_ & _ & He & _). by apply exact_known.
    + intros y u' z w' Hy Hz' Hst' Hw. destruct (Hself y u' Hy) as (u & Hu & Hwu). destruct (Hself z w' Hz') as (w & Hww & Hwz).
      apply (Hun y u z w Hu Hww); [by rewrite <- (sb_start _ _ _ Hs) | congruence].
Qed.

(** A type that is not mapped is marked. *)
Lemma state_ok_mark d x :
  state_ok 0 d -> 0 < x < type_cnt (d_btf d) -> ~ mapped (d_map d) x ->
  state_ok 0 (set_d_map d (zupd (d_map d) x BTF_IN_PROGRESS_ID)).
Proof.
  intros [Hb Hlen Hz Hl Hvals Ha Ht Hc Hh [Hco Hun]] Hx Hm. set (v := BTF_IN_PROGRESS_ID).
  assert (Hv : BTF_MAX_NR_TYPES < v) by done. pose proof (db_cnt _ Hb) as Hcnt.
  assert (Hnew : forall y w, znth (zupd (d_map d) x v) y = Some w -> w <= BTF_MAX_NR_TYPES -> y <> x /\ znth (d_map d) y = Some w).
  { intros y w Hy Hw. destruct (decide (x = y)) as [<-|Hne]; [|by rewrite znth_zupd_ne in Hy].
    rewrite znth_zupd_eq in Hy by lia. injection Hy as <-. lia. }
  assert (Hmap : forall y, mapped (d_map d) y -> mapped (zupd (d_map d) x v) y).
  { intros y (w & Hw & Hle). exists w. rewrite znth_zupd_ne; [done |]. intros ->. apply Hm. by exists w. }
  split; cbn [d_btf d_map dedup_table hypot_map hypot_list set_d_map]; [done | by rewrite zlen_zupd | | | | | done | | done |].
  - by rewrite znth_zupd_ne by lia.
  - intros y w Hy Hw. destruct (Hnew y w Hy Hw) as [_ Hy']. destruct (Hl y w Hy' Hw) as (ty & tw & [L1 L2 L3 L4]).
    exists ty, tw. split; [done..|]. destruct L4 as [?|?]; auto.
  - intros y w Hy. destruct (decide (x = y)) as [<-|Hne]; [|rewrite znth_zupd_ne in Hy by done; by apply (Hvals y)].
    rewrite znth_zupd_eq in Hy by lia. injection Hy as <-. auto.
  - eapply acyclic_upd; [done |]. apply resolves_upd_self; [lia | by left].
  - intros h id Hin. destruct (Hc h id Hin) as (t & w & Ht1 & H0 & Hw & Hle & Hor). exists t, w.
    rewrite znth_zupd_ne; [done |]. intros ->. apply Hm. by exists w.
  - assert (Hold : forall y t, self_mapped (set_d_map d (zupd (d_map d) x v)) y t -> self_mapped d y t).
    { intros y t (Hy & Hty & Hrest). destruct (Hnew y y Hy) as [_ Hy']; [|by split].
      pose proof (btf_type_by_id_range _ _ _ (db_ok _ Hb) Hty). cbn [d_btf set_d_map] in *. lia. }
    split; [intros y t h Hy; apply (Hco y t h); by apply Hold |].
    intros y t z u Hy Hz'. apply (Hun y t z u); by apply Hold.
Qed.

(** ** Representatives *)

(** [r] is the representative of [x]. *)
Definition canon (m : list Z) (x r : Z) : Prop := resolves m x r /\ znth m r = Some r.

(** Entries that have been processed stay. *)
Definition kept (m m' : list Z) : Prop :=
  forall y v, znth m y = Some v -> v <> BTF_UNPROCESSED_ID -> znth m' y = Some v.

Lemma kept_refl m : kept m m.
Proof. by intros y v. Qed.

Lemma kept_trans m1 m2 m3 : kept m1 m2 -> kept m2 m3 -> kept m1 m3.
Proof. intros H1 H2 y v Hy Hv. by apply H2; [apply H1 |]. Qed.

Lemma canon_kept m m' x r : kept m m' -> r <= BTF_MAX_NR_TYPES -> canon m x r -> canon m' x r.
Proof.
  intros Hk Hle [Hr Hs]. assert (Hne : forall v, v <= BTF_MAX_NR_TYPES -> v <> BTF_UNPROCESSED_ID).
  { unfold BTF_MAX_NR_TYPES, BTF_UNPROCESSED_ID. lia. }
  split; [|apply Hk; [done | by apply Hne]]. revert Hs Hle. pattern x, r. revert x r Hr. apply resolves_ind.
  - intros x _ Hs Hle. apply resolves_root. exists x. split; [|by right]. apply Hk; [done | by apply Hne].
  - intros x y r Hx Hy Hxy _ IH Hs Hle. apply (resolves_step _ x y); [apply Hk; [done | by apply Hne] | done.. | by apply IH].
Qed.

Lemma canon_avoid m x v y r : is_root m x -> r <> x -> canon m y r -> canon (zupd m x v) y r.
Proof. intros Hx Hr [H1 H2]. split; [by apply resolves_avoid | by rewrite znth_zupd_ne]. Qed.

(** All types of the base and all types but those of this pass have been mapped. *)
Record settled (d : btf_dedup) : Prop := {
  se_kind : forall y u, btf_type_by_id (d_btf d) y = Some u -> ~ mapped (d_map d) y -> ref_kind (btf_kind u);
  se_own : forall y, 0 <= y < type_cnt (d_btf d) -> ~ mapped (d_map d) y -> start_id (d_btf d) <= y
}.

Lemma canon_mapped d y :
  state_ok 0 d -> settled d -> mapped (d_map d) y -> exists r, canon (d_map d) y r /\ 0 <= r < type_cnt (d_btf d).
Proof.
  intros Hst Hset Hm. assert (Hy : 0 <= y < type_cnt (d_btf d)).
  { rewrite <- (st_len _ _ Hst). destruct Hm as (v & Hv & _). by apply znth_Some in Hv. }
  destruct (st_resolves Hst y Hy) as [r Hr]. pose proof (st_resolves_range Hst y r Hr) as Hrr. exists r. split; [|done].
  split; [done |]. destruct (st_type Hst r Hrr) as (tr & Htr & _).
  destruct (st_root_mapped Hst y r tr Hr Hm Htr) as [?|[-> |Hc]]; [done | apply Hst |].
  destruct (resolves_is_root _ _ _ Hr) as (v & Hv & [Hgt| ->]); [|done].
  assert (Hk : ref_kind (btf_kind tr)).
  { apply (se_kind _ Hset r tr Htr). intros (w & Hw & Hle). rewrite Hv in Hw. injection Hw as <-. lia. }
  unfold btf_is_composite in Hc. by destruct (btf_kind tr).
Qed.

(** ** What a call leaves *)

(** Only words of types differ. *)
Definition types_only (b b' : btf) : Prop :=
  exists ws, b' = set_types b ws (types_data_cap b) (type_offs b) (type_offs_cap b) (nr_types b).

Lemma types_only_refl b : types_only b b.
Proof. exists (types_data b). by destruct b. Qed.

Lemma types_only_trans b1 b2 b3 : types_only b1 b2 -> types_only b2 b3 -> types_only b1 b3.
Proof. intros [w1 ->] [w2 ->]. by exists w2. Qed.

(** [t'] is [t] with its identifiers replaced by those of the representatives. *)
Definition replaced (m : list Z) (t t' : btf_type) : Prop :=
  same_shape t t' /\
  forall off w, off ∈ id_fields (btf_kind t) (btf_vlen t) -> type_word t off = Some w ->
    exists w', type_word t' off = Some w' /\ canon m w w'.

Lemma replaced_words m t t' u u' :
  own_words t = own_words u -> own_words t' = own_words u' -> replaced m t t' -> replaced m u u'.
Proof.
  intros Hw Hw' [Hs Hf]. assert (Hi : info t = info u) by (by apply same_words_fields in Hw as (_ & ? & _)).
  destruct (info_words_cnt t u Hi) as (_ & Hk & Hv). split.
  - eapply same_shape_trans; [apply same_words_shape; by symmetry |]. eapply same_shape_trans; [exact Hs |]. by apply same_words_shape.
  - intros off w Hoff Hww. rewrite <- Hk, <- Hv in Hoff. rewrite <- (id_field_word t u off Hw Hoff) in Hww.
    destruct (Hf off w Hoff Hww) as (w' & Hw2 & Hc). exists w'. split; [|done].
    rewrite <- Hw2. symmetry. apply id_field_word; [done |].
    destruct (info_words_cnt t t' (same_shape_info _ _ Hs)) as (_ & <- & <-). done.
Qed.

Lemma replaced_canon m m' t t' :
  (forall w w', canon m w w' -> canon m' w w') -> replaced m t t' -> replaced m' t t'.
Proof. intros Hc [Hs Hf]. split; [done |]. intros off w Ho Hw. destruct (Hf off w Ho Hw) as (w' & ? & ?). eauto. Qed.

(** A call replaces identifiers in types that had not been processed; those are mapped
    afterwards, all others stay.  Within a call for a type, [e], its words are excepted. *)
Record ref_step (e : Z) (d d' : btf_dedup) : Prop := {
  rs_types : types_only (d_btf d) (d_btf d');
  rs_hypot : hypot_map d' = hypot_map d;
  rs_strs : d_strs_set d' = d_strs_set d;
  rs_state : state_ok 0 d';
  rs_kept : kept (d_map d) (d_map d');
  rs_info : forall y t t', btf_type_by_id (d_btf d) y = Some t -> btf_type_by_id (d_btf d') y = Some t' -> info t' = info t;
  rs_words : forall y t t' v, btf_type_by_id (d_btf d) y = Some t -> btf_type_by_id (d_btf d') y = Some t' ->
    znth (d_map d) y = Some v -> v <> BTF_UNPROCESSED_ID -> y <> e -> own_words t' = own_words t;
  rs_new : forall y t t', btf_type_by_id (d_btf d) y = Some t -> btf_type_by_id (d_btf d') y = Some t' ->
    znth (d_map d) y = Some BTF_UNPROCESSED_ID ->
    (znth (d_map d') y = Some BTF_UNPROCESSED_ID /\ own_words t' = own_words t) \/
    (mapped (d_map d') y /\ replaced (d_map d') t t')
}.

Lemma ref_step_refl e d : state_ok 0 d -> ref_step e d d.
Proof.
  intros Hst. split; [apply types_only_refl | reflexivity | reflexivity | exact Hst | apply kept_refl | | |].
  - intros y t t' H1 H2. rewrite H1 in H2. by injection H2 as <-.
  - intros y t t' v H1 H2. rewrite H1 in H2. by injection H2 as <-.
  - intros y t t' H1 H2 Hy. rewrite H1 in H2. injection H2 as <-. by left.
Qed.

Lemma ref_step_weaken e d d' : ref_step (-1) d d' -> ref_step e d d'.
Proof.
  intros [H1 H2 H3 H4 H5 H6 H7 H8]. split; try assumption. intros y t t' v Ht Ht' Hy Hv _. apply (H7 y t t' v); try assumption.
  apply znth_Some in Hy. lia.
Qed.

Lemma canon_step_kept d d' w w' : state_ok 0 d -> kept (d_map d) (d_map d') -> canon (d_map d) w w' -> canon (d_map d') w w'.
Proof.
  intros Hst Hk Hc. apply (canon_kept (d_map d)); [done | | done]. pose proof (db_cnt _ (st_btf _ _ Hst)).
  pose proof (st_resolves_range Hst w w' (proj1 Hc)). lia.
Qed.

Lemma types_only_cnt b b' : types_only b b' -> start_id b' = start_id b /\ type_cnt b' = type_cnt b.
Proof. by intros [ws ->]. Qed.

Lemma ref_step_type e d d' y t :
  state_ok 0 d -> ref_step e d d' -> btf_type_by_id (d_btf d) y = Some t -> exists t', btf_type_by_id (d_btf d') y = Some t'.
Proof.
  intros Hst Hs Ht. pose proof (btf_type_by_id_range _ _ _ (db_ok _ (st_btf _ _ Hst)) Ht) as Hr.
  destruct (types_only_cnt _ _ (rs_types _ _ _ Hs)) as [_ <-] in Hr.
  destruct (st_type (rs_state _ _ _ Hs) y Hr) as (t' & Ht' & _). by exists t'.
Qed.

Lemma ref_step_trans e d1 d2 d3 :
  state_ok 0 d1 -> e < 0 \/ (exists v, znth (d_map d1) e = Some v /\ v <> BTF_UNPROCESSED_ID) ->
  ref_step e d1 d2 -> ref_step e d2 d3 -> ref_step e d1 d3.
Proof.
  intros Hst He S1 S2. assert (Hmid : forall y t, btf_type_by_id (d_btf d1) y = Some t -> exists t', btf_type_by_id (d_btf d2) y = Some t')
    by (intros; by eapply ref_step_type).
  destruct S1 as [T1 Y1 Z1 St1 K1 I1 W1 N1], S2 as [T2 Y2 Z2 St2 K2 I2 W2 N2]. split; [by eapply types_only_trans | congruence.. | done | by eapply kept_trans | | |].
  - intros y t t3 Ht Ht3. destruct (Hmid y t Ht) as [t2 Ht2]. rewrite (I2 y t2 t3) by done. by apply (I1 y).
  - intros y t t3 v Ht Ht3 Hy Hv Hne. destruct (Hmid y t Ht) as [t2 Ht2].
    rewrite (W2 y t2 t3 v) by (done || by apply K1). by apply (W1 y t t2 v).
  - intros y t t3 Ht Ht3 Hy. destruct (Hmid y t Ht) as [t2 Ht2].
    assert (Hne : y <> e).
    { intros ->. destruct He as [He|(v & Hv & Hn)]; [apply znth_Some in Hy; lia | congruence]. }
    destruct (N1 y t t2 Ht Ht2 Hy) as [[Hy2 Hw2]|[(v & Hv & Hle) Hr2]].
    + destruct (N2 y t2 t3 Ht2 Ht3 Hy2) as [[Hy3 Hw3]|[Hm3 Hr3]]; [left; split; [done | congruence] | right; split; [done |]].
      by eapply replaced_words; [exact Hw2 | reflexivity |].
    + right. assert (Hvu : v <> BTF_UNPROCESSED_ID) by (unfold BTF_MAX_NR_TYPES, BTF_UNPROCESSED_ID in *; lia).
      split; [exists v; split; [by apply K2 | done] |].
      eapply replaced_words; [reflexivity | symmetry; by apply (W2 y t2 t3 v) |].
      eapply replaced_canon; [|exact Hr2]. intros w w'. by apply canon_step_kept.
Qed.

(** ** Counting *)

(** Types that have not been processed: the recursion is no deeper than their number. *)
Definition unproc (m : list Z) : nat := length (filter (fun v => v = BTF_UNPROCESSED_ID) m).

Lemma unproc_cons v m : unproc (v :: m) = ((if decide (v = BTF_UNPROCESSED_ID) then 1 else 0) + unproc m)%nat.
Proof. unfold unproc. destruct (decide (v = BTF_UNPROCESSED_ID)); [by rewrite filter_cons_True | by rewrite filter_cons_False]. Qed.

Lemma unproc_le m m' :
  length m' = length m -> (forall (i : nat) v, m !! i = Some v -> v <> BTF_UNPROCESSED_ID -> m' !! i = Some v) ->
  (unproc m' <= unproc m)%nat.
Proof.
  revert m'. induction m as [|v m IH]; intros [|v' m'] Hl Hk; try done. rewrite !unproc_cons.
  assert (unproc m' <= unproc m)%nat by (apply IH; [by injection Hl | intros i; apply (Hk (S i))]).
  destruct (decide (v = BTF_UNPROCESSED_ID)) as [_|Hne].
  - destruct (decide (v' = BTF_UNPROCESSED_ID)); lia.
  - assert (v' = v) as -> by (specialize (Hk 0%nat v eq_refl Hne); cbn in Hk; congruence). by rewrite decide_False.
Qed.

Lemma unproc_kept m m' : zlen m' = zlen m -> kept m m' -> (unproc m' <= unproc m)%nat.
Proof.
  intros Hl Hk. apply unproc_le; [unfold zlen in Hl; lia |]. intros i v Hi Hv.
  specialize (Hk (Z.of_nat i) v). unfold znth in Hk. replace (Z.of_nat i <? 0) with false in Hk by lia.
  rewrite Nat2Z.id in Hk. by apply Hk.
Qed.

Lemma unproc_mark m x v :
  znth m x = Some BTF_UNPROCESSED_ID -> v <> BTF_UNPROCESSED_ID -> unproc m = S (unproc (zupd m x v)).
Proof.
  unfold znth, zupd. destruct (x <? 0); [done |]. intros Hx Hv. generalize dependent (Z.to_nat x). clear x.
  induction m as [|y m IH]; intros [|n] Hn; try done.
  - injection Hn as ->. cbn [insert list_insert]. rewrite !unproc_cons, decide_True, decide_False by done. lia.
  - cbn in Hn. change (<[S n := v]> (y :: m)) with (y :: <[n := v]> m). rewrite !unproc_cons, (IH n Hn). lia.
Qed.

Lemma unproc_length m : (unproc m <= length m)%nat.
Proof. apply length_filter. Qed.

Lemma ref_step_count e d d' : state_ok 0 d -> ref_step e d d' -> (unproc (d_map d') <= unproc (d_map d))%nat.
Proof.
  intros Hst Hs. apply unproc_kept; [|apply Hs]. rewrite (st_len _ _ Hst), (st_len _ _ (rs_state _ _ _ Hs)).
  by destruct (types_only_cnt _ _ (rs_types _ _ _ Hs)).
Qed.

Lemma kept_mapped m m' y : kept m m' -> mapped m y -> mapped m' y.
Proof.
  intros Hk (v & Hv & Hle). exists v. split; [|done]. apply Hk; [done |]. unfold BTF_MAX_NR_TYPES, BTF_UNPROCESSED_ID in *. lia.
Qed.

Lemma ref_step_settled e d d' : state_ok 0 d -> settled d -> ref_step e d d' -> settled d'.
Proof.
  intros Hst [Hsk Hso] Hs. destruct (types_only_cnt _ _ (rs_types _ _ _ Hs)) as [Hstart Hcnt].
  assert (Hunm : forall y, ~ mapped (d_map d') y -> ~ mapped (d_map d) y).
  { intros y Hm Hm'. apply Hm. by eapply kept_mapped; [apply Hs |]. }
  split.
  - intros y u' Hu' Hm. pose proof (btf_type_by_id_range _ _ _ (db_ok _ (st_btf _ _ (rs_state _ _ _ Hs))) Hu') as Hr.
    rewrite Hcnt in Hr. destruct (st_type Hst y Hr) as (u & Hu & _).
    destruct (info_derived u' u) as (-> & _); [by apply (rs_info _ _ _ Hs y) | by apply (Hsk y u Hu), Hunm].
  - intros y Hy Hm. rewrite Hstart, Hcnt in *. by apply Hso, Hunm.
Qed.

(** ** The identifiers of a type *)
Definition ref_error (r : Z) : Prop := r = - ENOMEM \/ r = - ELOOP.

(** What is left when the call fails. *)
Record ref_fail (d d' : btf_dedup) : Prop := {
  rf_types : types_only (d_btf d) (d_btf d');
  rf_dedup : dedup_btf (d_btf d')
}.

Definition ref_post (d : btf_dedup) (id r : Z) (d' : btf_dedup) : Prop :=
  (ref_step (-1) d d' /\ canon (d_map d') id r) \/ (ref_error r /\ ref_fail d d').

(** What the recursive calls need. *)
Record ref_pre (n : nat) (d : btf_dedup) : Prop := {
  rp_state : state_ok 0 d;
  rp_settled : settled d;
  rp_count : (unproc (d_map d) < n)%nat
}.

Lemma ref_pre_step n e d d' : ref_pre n d -> ref_step e d d' -> ref_pre n d'.
Proof.
  intros [Hst Hset Hc] Hs. split; [apply Hs | by eapply ref_step_settled |].
  pose proof (ref_step_count e d d' Hst Hs). lia.
Qed.

Lemma ref_fail_step e d d1 d2 : ref_step e d d1 -> ref_fail d1 d2 -> ref_fail d d2.
Proof. intros Hs [H1 H2]. split; [|done]. eapply types_only_trans; [apply Hs | done]. Qed.

Lemma ref_step_fail e d d' : ref_step e d d' -> ref_fail d d'.
Proof. intros Hs. split; [apply Hs | apply Hs]. Qed.

Lemma words_set_same b b' x off v t :
  dedup_btf b -> btf_ok b' -> words_set b b' x (off / 4) v -> btf_type_by_id b x = Some t ->
  off ∈ id_fields (btf_kind t) (btf_vlen t) -> 0 <= v < type_cnt b -> same_but b b' x.
Proof.
  intros Hb Hb' Hw Ht Hoff Hv. destruct (words_set_frame Hw) as (H1 & _ & H3 & _).
  destruct (fields_room BTF_FIELD_ITER_IDS _ _ off (proj1 (vlen_range t)) Hoff) as (Hr & Hm & Hne).
  assert (Hj : off / 4 <> 1) by lia. split; [done | done | | |].
  - eapply words_set_dedup; [exact Hb | exact Hb' | exact Hw | lia | done | done |]. by intros t' _ _.
  - intros y u u' Hu Hu'. by apply (words_set_info _ _ _ _ _ y u u' Hw Hj).
  - intros y u u' Hy Hu Hu'. destruct (words_set_type Hw y u Hu) as (u2 & Hu2 & How). rewrite Hu' in Hu2. injection Hu2 as <-.
    by replace (y =? x) with false in How by lia.
Qed.

(** An identifier of the type that is marked is replaced. *)
Lemma ref_write d x t off v :
  state_ok 0 d -> 0 < x -> start_id (d_btf d) <= x -> btf_type_by_id (d_btf d) x = Some t -> ref_kind (btf_kind t) ->
  znth (d_map d) x = Some BTF_IN_PROGRESS_ID -> off ∈ id_fields (btf_kind t) (btf_vlen t) -> 0 <= v < type_cnt (d_btf d) ->
  exists b' t', btf_set_word (d_btf d) x off v = Some b' /\ ref_step x d (set_d_btf d b') /\
    btf_type_by_id b' x = Some t' /\ info t' = info t /\ own_words t' = zupd (own_words t) (off / 4) v.
Proof.
  intros Hst Hx Hown Ht Hk Hmx Hoff Hv. pose proof (st_btf _ _ Hst) as Hb. pose proof (db_ok _ Hb) as Hok.
  destruct (field_word _ x t BTF_FIELD_ITER_IDS off Hok Ht Hoff) as (Hr & Hm & Hne & _).
  pose proof (db_cnt _ Hb) as Hcnt. destruct (set_word_spec (d_btf d) x off v t Hok Hown Ht Hr Hm Hne) as (b' & Hset & Hb' & Hw).
  { unfold is_u32, BTF_MAX_NR_TYPES in *. lia. }
  pose proof (words_set_same _ _ x off v t Hb Hb' Hw Ht Hoff Hv) as Hsame.
  assert (Hnm : ~ mapped (d_map d) x) by (intros (w & Hw' & Hle); rewrite Hmx in Hw'; injection Hw' as <-; by cbv in Hle).
  destruct (words_set_type Hw x t Ht) as (t' & Ht' & How). rewrite Z.eqb_refl in How.
  exists b', t'. split_and!; [done | | done | by apply (sb_info _ _ _ Hsame x) | done].
  split; cbn [d_btf hypot_map hypot_list d_strs_set d_map set_d_btf].
  - apply Hw.
  - done.
  - done.
  - by apply (state_ok_words d x t b').
  - apply kept_refl.
  - apply Hsame.
  - intros y u u' w Hu Hu' _ _ Hy. by apply (sb_words _ _ _ Hsame y).
  - intros y u u' Hu Hu' Hy. left. split; [done |]. apply (sb_words _ _ _ Hsame y); [|done..]. intros ->. rewrite Hmx in Hy; discriminate.
Qed.

Lemma fields_rel_replaced m t t' :
  fields_rel (canon m) (id_fields (btf_kind t) (btf_vlen t)) t t' -> replaced m t t'.
Proof.
  intros [Hi Hf]. split; [split; [done |] |].
  - intros off Ho Hm Hn. specialize (Hf off Ho Hm). by rewrite decide_False in Hf by done.
  - intros off w Hoff Hw. destruct (fields_room BTF_FIELD_ITER_IDS _ _ off (proj1 (vlen_range t)) Hoff) as (Hr & Hm & _).
    specialize (Hf off Hr Hm). rewrite decide_True in Hf by done. destruct Hf as (w0 & w' & H1 & H2 & H3).
    exists w'. split; [done |]. congruence.
Qed.

Lemma wp_field_at d x t off w (Q : Z -> btf_dedup -> Prop) :
  btf_type_by_id (d_btf d) x = Some t -> type_word t off = Some w -> Q w d -> wp (field_at x off) Q d.
Proof. intros Ht Hw HQ. apply (wp_read _ w); [|done]. by rewrite Ht. Qed.

Lemma wp_word_set d x off v b' (Q : unit -> btf_dedup -> Prop) :
  btf_set_word (d_btf d) x off v = Some b' -> Q tt (set_d_btf d b') -> wp (word_set x off v) Q d.
Proof. intros H HQ. eapply wp_modify; [by rewrite H | done]. Qed.

Lemma ref_error_neg r : ref_error r -> r < 0.
Proof. by intros [-> | ->]. Qed.

Lemma ref_fields_ok n rec x offs d t :
  (forall id d, ref_pre n d -> 0 <= id < type_cnt (d_btf d) -> wp (rec id) (ref_post d id) d) ->
  ref_pre n d -> 0 < x -> start_id (d_btf d) <= x -> btf_type_by_id (d_btf d) x = Some t -> ref_kind (btf_kind t) ->
  znth (d_map d) x = Some BTF_IN_PROGRESS_ID -> NoDup offs ->
  (forall off, off ∈ offs -> off ∈ id_fields (btf_kind t) (btf_vlen t)) ->
  wp (ref_fields rec x offs) (fun r d' =>
    (r = 0 /\ ref_step x d d' /\ exists t', btf_type_by_id (d_btf d') x = Some t' /\ fields_rel (canon (d_map d')) offs t t') \/
    (ref_error r /\ ref_fail d d')) d.
Proof.
  intros Hrec. revert d t. induction offs as [|off offs IH]; intros d t Hpre Hx Hown Ht Hk Hmx Hnd Hin; cbn [ref_fields].
  { apply wp_ret. left. split; [done |]. split; [apply ref_step_refl, Hpre |]. exists t. split; [done |]. split; [done |].
    intros off _ _. by rewrite decide_False by (apply not_elem_of_nil). }
  apply NoDup_cons in Hnd as [Hni Hnd]. pose proof (Hin off ltac:(constructor)) as Hoff.
  pose proof (rp_state _ _ Hpre) as Hst. pose proof (st_btf _ _ Hst) as Hb.
  destruct (field_word _ x t BTF_FIELD_ITER_IDS off (db_ok _ Hb) Ht Hoff) as (Hr & Hm & _ & w & Hw & _ & Hzw).
  apply wp_bind, (wp_field_at d x t off w); [done..|].
  apply wp_bind. eapply wp_mono; [apply Hrec; [done | by apply (db_ids _ Hb x t off)] |].
  intros r d1 [[Hs1 Hc1]|[He Hf1]].
  2:{ pose proof (ref_error_neg r He). replace (r <? 0) with true by lia. apply wp_ret. by right. }
  pose proof (rs_state _ _ _ Hs1) as Hst1. destruct (types_only_cnt _ _ (rs_types _ _ _ Hs1)) as [Hst_eq Hcnt_eq].
  pose proof (st_resolves_range Hst1 w r (proj1 Hc1)) as Hrr. replace (r <? 0) with false by lia.
  destruct (ref_step_type _ _ _ x t Hst Hs1 Ht) as [t1 Ht1].
  assert (Hw1 : own_words t1 = own_words t). { apply (rs_words _ _ _ Hs1 x t t1 _ Ht Ht1 Hmx); [done | lia]. }
  pose proof (rs_info _ _ _ Hs1 x t t1 Ht Ht1) as Hi1. destruct (info_words_cnt t1 t Hi1) as (Hcnt1 & Hk1 & Hv1).
  assert (Hmx1 : znth (d_map d1) x = Some BTF_IN_PROGRESS_ID) by (by apply (rs_kept _ _ _ Hs1)).
  destruct (ref_write d1 x t1 off r) as (b2 & t2 & Hset & Hs2 & Ht2 & Hi2 & Hw2);
    [done | done | lia | done | by rewrite Hk1 | done | by rewrite Hk1, Hv1 | done |].
  apply wp_bind. eapply wp_word_set; [exact Hset |]. rewrite Hw1 in Hw2. rewrite Hi1 in Hi2.
  destruct (info_words_cnt t2 t Hi2) as (_ & Hk2 & Hv2). pose proof (ref_step_weaken x _ _ Hs1) as Hs1x.
  assert (Hs12 : ref_step x d (set_d_btf d1 b2)) by (eapply ref_step_trans; [done | by right; eexists | done..]).
  destruct (types_only_cnt _ _ (rs_types _ _ _ Hs12)) as [Hst2_eq _].
  eapply wp_mono; [apply (IH (set_d_btf d1 b2) t2) |].
  - by eapply ref_pre_step.
  - done.
  - lia.
  - done.
  - by rewrite Hk2.
  - done.
  - done.
  - intros o Ho. rewrite Hk2, Hv2. apply Hin. by constructor.
  - cbn beta. intros r' d3 [(-> & Hs3 & t3 & Ht3 & Hf3)|[He Hf3]]; [left | right; split; [done | by eapply ref_fail_step]].
    split; [done |]. split; [eapply ref_step_trans; [done | by right; eexists | done..] |]. exists t3. split; [done |].
    assert (Hlen : zlen (own_words t) = 3 + words_cnt t). { by apply (own_words_ok (d_btf d) x t (db_ok _ Hb)). }
    apply (fields_rel_cons _ off offs t t2 t3 w r); try done.
    apply (canon_step_kept d1); [done | apply (rs_kept _ _ _ Hs3) | done].
Qed.

(** ** One type *)

(** The type gets its representative. *)
Lemma ref_finish d x t t2 d2 d3 c :
  state_ok 0 d -> znth (d_map d) x = Some BTF_UNPROCESSED_ID -> btf_type_by_id (d_btf d) x = Some t ->
  ref_step x (set_d_map d (zupd (d_map d) x BTF_IN_PROGRESS_ID)) d2 ->
  btf_type_by_id (d_btf d2) x = Some t2 -> replaced (d_map d2) t t2 ->
  same_frame d2 d3 -> state_ok 0 d3 -> d_map d3 = zupd (d_map d2) x c -> znth (d_map d3) c = Some c ->
  0 <= c < type_cnt (d_btf d2) ->
  ref_step (-1) d d3 /\ canon (d_map d3) x c.
Proof.
  intros Hst Hx Ht Hs Ht2 Hrep Hfr Hst3 Hm3 Hc Hcr. pose proof (rs_state _ _ _ Hs) as Hst2. destruct Hs as [T1 Y1 Z1 St1 K1 I1 W1 N1].
  cbn [d_btf d_map hypot_map d_strs_set set_d_map] in *. destruct Hfr as [F1 F2 F3 F4].
  assert (Hxr : 0 <= x < zlen (d_map d)) by (by apply znth_Some in Hx).
  assert (Hm2x : znth (d_map d2) x = Some BTF_IN_PROGRESS_ID) by (apply K1; [by apply znth_zupd_eq | done]).
  assert (Hroot : is_root (d_map d2) x) by (exists BTF_IN_PROGRESS_ID; split; [done | by left]).
  assert (Hxr2 : 0 <= x < zlen (d_map d2)) by (by apply znth_Some in Hm2x).
  pose proof (db_cnt _ (st_btf _ _ Hst2)) as Hcnt.
  assert (Hcan : forall w w', canon (d_map d2) w w' -> canon (d_map d3) w w').
  { intros w w' Hw. rewrite Hm3. apply canon_avoid; [done | | done]. intros ->. destruct Hw as [_ Hw]. rewrite Hm2x in Hw.
    injection Hw as Hw. pose proof (st_len _ _ Hst2). unfold BTF_MAX_NR_TYPES in *. rewrite <- Hw in Hxr2. unfold BTF_IN_PROGRESS_ID in *. lia. }
  assert (Hoth : forall y, y <> x -> znth (d_map d3) y = znth (d_map d2) y) by (intros y Hy; rewrite Hm3; by apply znth_zupd_ne).
  assert (Hm3x : znth (d_map d3) x = Some c) by (rewrite Hm3; by apply znth_zupd_eq).
  split; [split|].
  - by rewrite F1.
  - congruence.
  - congruence.
  - done.
  - intros y v Hy Hv. assert (Hne : y <> x) by (intros ->; congruence). rewrite Hoth by done.
    apply K1; [by rewrite znth_zupd_ne | done].
  - rewrite F1. exact I1.
  - rewrite F1. intros y u u' v Hu Hu' Hy Hv _. assert (Hne : y <> x) by (intros ->; congruence).
    apply (W1 y u u' v); [done.. | by rewrite znth_zupd_ne | done | done].
  - rewrite F1. intros y u u' Hu Hu' Hy. destruct (decide (y = x)) as [->|Hne].
    + right. split; [exists c; split; [done | lia] |]. rewrite Ht in Hu. injection Hu as <-. rewrite Ht2 in Hu'. injection Hu' as <-.
      by eapply replaced_canon.
    + destruct (N1 y u u' Hu Hu') as [[H1 H2]|[(v & Hv & Hle) H2]]; [by rewrite znth_zupd_ne | |].
      * left. by rewrite Hoth.
      * right. split; [exists v; by rewrite Hoth | by eapply replaced_canon].
  - split; [|done]. destruct (decide (c = x)) as [->|Hne]; [apply resolves_root; exists x; auto |].
    apply (resolves_step _ x c); [done | lia | done |]. apply resolves_root. exists c. auto.
Qed.

Lemma set_canon_map h x c d r d' : 0 <= x < zlen (d_map d) -> set_canon h x c d = Some (r, d') -> d_map d' = zupd (d_map d) x c.
Proof.
  intros Hx. unfold set_canon, bind, map_set, modify. rewrite array_set_spec by done. cbn [mbind option_bind].
  case_if; [|by intros [= <- <-]]. unfold btf_dedup_table_add. by intros [= <- <-].
Qed.

Definition ref_canon_post (d : btf_dedup) (x r : Z) (d' : btf_dedup) : Prop :=
  same_frame d d' /\
  ((0 <= r < type_cnt (d_btf d) /\ state_ok 0 d' /\ d_map d' = zupd (d_map d) x r /\ znth (d_map d') r = Some r) \/
   r = - ENOMEM).

Lemma ref_canon_set d x c h :
  0 <= x < zlen (d_map d) -> 0 <= c < type_cnt (d_btf d) -> type_cnt (d_btf d) <= BTF_MAX_NR_TYPES ->
  c = x \/ znth (d_map d) c = Some c ->
  wp (set_canon h x c) (canon_post d x) d ->
  wp (let* err := set_canon h x c in if nonzero err then ret err else ret (s32 c)) (ref_canon_post d x) d.
Proof.
  intros Hx Hc Hcnt Hself Hwp. apply wp_bind.
  eapply wp_mono; [apply (wp_and _ _ (fun _ d' => d_map d' = zupd (d_map d) x c) d Hwp); intros r d' Hrun; by eapply set_canon_map |].
  cbn beta. intros r d' [[Hf Hcase] Hmap]. unfold nonzero. destruct Hcase as [(-> & Hst' & _)| ->]; cbn [Z.eqb negb].
  - rewrite s32_small by (unfold BTF_MAX_NR_TYPES in *; lia). apply wp_ret. split; [done |]. left. split_and!; [lia.. | done | done |].
    rewrite Hmap. destruct (decide (c = x)) as [->|Hne]; [by apply znth_zupd_eq |]. rewrite znth_zupd_ne by done. by destruct Hself.
  - apply wp_ret. split; [done | by right].
Qed.

Lemma wp_ref_canon d x t h :
  state_ok 0 d -> 0 < x -> start_id (d_btf d) <= x -> btf_type_by_id (d_btf d) x = Some t -> ~ mapped (d_map d) x ->
  ref_kind (btf_kind t) -> hash_of_kind t = Some (Ok h) ->
  wp (let* cands := dedup_cands h in let* new_id := find_equal t cands x in
      let* err := set_canon h x new_id in if nonzero err then ret err else ret (s32 new_id)) (ref_canon_post d x) d.
Proof.
  intros Hst Hx Hown Ht Hm Hk Hh. pose proof (st_btf _ _ Hst) as Hb. pose proof (db_cnt _ Hb) as Hcnt.
  pose proof (btf_type_by_id_range _ _ _ (db_ok _ Hb) Ht) as Hr.
  assert (Hxr : 0 <= x < zlen (d_map d)) by (by rewrite (st_len _ _ Hst)).
  apply wp_bind, wp_cands, wp_bind, wp_find_equal; [by eapply db_words | by apply ref_exact | by apply cands_of_typed | |].
  - intros Hno. apply ref_canon_set; [done.. | by left |]. by apply (wp_set_canon_self 0 d x t h); auto.
  - intros c u Hc Hu Hw. destruct (st_cand Hst h c Hc) as (u' & Hu' & _ & Hcr & Hmc & Hself). rewrite Hu in Hu'. injection Hu' as <-.
    assert (Hcx : c <> x) by (intros ->; done). destruct (same_words_fields t u Hw) as (_ & Hi & _).
    destruct (info_derived t u Hi) as (Hku & _).
    assert (Hcs : znth (d_map d) c = Some c).
    { destruct Hself as [?|[Hs|Hs]]; [done | exfalso..]; [unfold btf_is_enum_fwd, btf_is_any_enum in Hs | unfold btf_is_fwd in Hs];
        rewrite <- Hku in Hs; destruct (btf_kind t); done. }
    apply ref_canon_set; [done | lia | done | by right |].
    apply (wp_set_canon_link 0 d x c t u c h); auto; [by left | apply resolves_root; exists c; auto].
Qed.

Lemma ref_pre_mark fuel d x :
  ref_pre (S fuel) d -> 0 < x < type_cnt (d_btf d) -> znth (d_map d) x = Some BTF_UNPROCESSED_ID ->
  ref_pre fuel (set_d_map d (zupd (d_map d) x BTF_IN_PROGRESS_ID)).
Proof.
  intros [Hst [Hsk Hso] Hcount] Hx Hmx. assert (Hm : ~ mapped (d_map d) x).
  { intros (v & Hv & Hle). rewrite Hmx in Hv. injection Hv as <-. by cbv in Hle. }
  assert (Hun : forall y, ~ mapped (zupd (d_map d) x BTF_IN_PROGRESS_ID) y -> ~ mapped (d_map d) y).
  { intros y Hy (v & Hv & Hle). apply Hy. exists v. rewrite znth_zupd_ne; [done |]. intros ->. apply Hm. by exists v. }
  split; [by apply state_ok_mark | split |].
  - intros y u Hu Hy. by apply (Hsk y u Hu), Hun.
  - intros y Hy Hmy. by apply Hso, Hun.
  - cbn [d_map set_d_map]. pose proof (unproc_mark (d_map d) x BTF_IN_PROGRESS_ID Hmx ltac:(done)). lia.
Qed.

Lemma ref_fail_refl d : state_ok 0 d -> ref_fail d d.
Proof. intros Hst. split; [apply types_only_refl | apply Hst]. Qed.

Lemma id_fields_nodup k vlen : NoDup (id_fields k vlen).
Proof.
  pose proof (kind_fields_sorted BTF_FIELD_ITER_IDS k vlen) as Hs. cbn [kind_fields] in Hs.
  induction Hs as [|x l Hs IH Hall]; constructor; [|done]. intros Hin. rewrite Forall_forall in Hall. specialize (Hall x Hin). lia.
Qed.

(** The part of the call after the type has been marked. *)
Lemma ref_marked_ok fuel d x t :
  (forall id d, ref_pre fuel d -> 0 <= id < type_cnt (d_btf d) -> wp (btf_dedup_ref_type fuel id) (ref_post d id) d) ->
  ref_pre (S fuel) d -> 0 < x < type_cnt (d_btf d) -> start_id (d_btf d) <= x -> btf_type_by_id (d_btf d) x = Some t ->
  ref_kind (btf_kind t) -> znth (d_map d) x = Some BTF_UNPROCESSED_ID ->
  wp (let* err := ref_fields (btf_dedup_ref_type fuel) x (id_fields (btf_kind t) (btf_vlen t)) in
      if err <? 0 then ret err else
      let* t := type_of x in
      let* h := lift (hash_of_kind t) in
      match h with
      | Err e => ret (- e)
      | Ok h =>
          let* cands := dedup_cands h in
          let* new_id := find_equal t cands x in
          let* err := set_canon h x new_id in
          if nonzero err then ret err else ret (s32 new_id)
      end) (ref_post d x) (set_d_map d (zupd (d_map d) x BTF_IN_PROGRESS_ID)).
Proof.
  intros Hrec Hpre Hx Hown Ht Hk Hmx. pose proof (rp_state _ _ Hpre) as Hst.
  pose proof (ref_pre_mark fuel d x Hpre Hx Hmx) as Hpre1. set (d1 := set_d_map d (zupd (d_map d) x BTF_IN_PROGRESS_ID)) in *.
  assert (Hmx1 : znth (d_map d1) x = Some BTF_IN_PROGRESS_ID) by (apply znth_zupd_eq; rewrite (st_len _ _ Hst); lia).
  apply wp_bind. eapply wp_mono; [apply (ref_fields_ok fuel _ x _ d1 t Hrec Hpre1); try done; [lia | apply id_fields_nodup] |].
  cbn beta. intros r d2 [(-> & Hs & t2 & Ht2 & Hf)|[He Hf]].
  2:{ pose proof (ref_error_neg r He). replace (r <? 0) with true by lia. apply wp_ret. right. split; [done |]. by destruct Hf. }
  cbn [Z.ltb Z.compare]. apply wp_bind, (wp_type_of x t2); [done |]. pose proof (rs_state _ _ _ Hs) as Hst2.
  assert (Hi2 : info t2 = info t) by apply Hf. destruct (info_words_cnt t2 t Hi2) as (_ & Hk2 & _).
  assert (Hk2' : ref_kind (btf_kind t2)) by (by rewrite Hk2).
  destruct (hash_of_kind_total t2) as (hr & Hhr & Hok); [eapply db_words; [apply Hst2 | done] | by apply exact_known, ref_exact |].
  destruct Hok as [h ->]; [left; by apply ref_exact |]. apply wp_bind, (wp_lift _ (Ok h)); [done |].
  assert (Hm2x : znth (d_map d2) x = Some BTF_IN_PROGRESS_ID) by (by apply (rs_kept _ _ _ Hs)).
  destruct (types_only_cnt _ _ (rs_types _ _ _ Hs)) as [Hs_eq Hc_eq]. change (d_btf d1) with (d_btf d) in *.
  eapply wp_mono; [apply (wp_ref_canon d2 x t2 h) |]; try done; [lia | by rewrite Hs_eq | |].
  { intros (v & Hv & Hle). rewrite Hm2x in Hv. injection Hv as <-. by cbv in Hle. }
  intros r d3 [Hfr [(Hr & Hst3 & Hmap & Hself)| ->]].
  - left. apply (ref_finish d x t t2 d2 d3 r); try done. by apply fields_rel_replaced.
  - right. split; [by left |]. destruct Hfr as [F1 _ _ _]. split; rewrite F1; [apply Hs | apply Hst2].
Qed.

Lemma btf_dedup_ref_type_ok fuel id d :
  ref_pre fuel d -> 0 <= id < type_cnt (d_btf d) -> wp (btf_dedup_ref_type fuel id) (ref_post d id) d.
Proof.
  revert id d. induction fuel as [|fuel IH]; intros id d Hpre Hid; [destruct Hpre as [_ _ Hc]; lia |].
  cbn [btf_dedup_ref_type]. destruct (Hpre) as [Hst Hset Hcount]. pose proof (st_btf _ _ Hst) as Hb. pose proof (db_cnt _ Hb) as Hcnt.
  destruct (znth_is_Some (d_map d) id) as [v Hv]; [by rewrite (st_len _ _ Hst) |]. apply wp_bind, (wp_map_at id v); [done |].
  destruct (v =? BTF_IN_PROGRESS_ID) eqn:Hip.
  { apply wp_ret. right. split; [by right | by apply ref_fail_refl]. }
  destruct (v <=? BTF_MAX_NR_TYPES) eqn:Hle.
  { destruct (canon_mapped d id Hst Hset) as (r & Hr & Hrr); [exists v; split; [done | lia] |].
    apply wp_bind, (wp_resolve id r); [apply Hr |]. rewrite s32_small by (unfold BTF_MAX_NR_TYPES in *; lia).
    apply wp_ret. left. split; [by apply ref_step_refl | done]. }
  assert (Hmx : znth (d_map d) id = Some BTF_UNPROCESSED_ID).
  { destruct (st_vals _ _ Hst id v Hv) as [?|[->| ->]]; [lia | done | done]. }
  assert (Hnm : ~ mapped (d_map d) id) by (intros (w & Hw & Hwl); rewrite Hv in Hw; injection Hw as <-; lia).
  assert (H0 : id <> 0).
  { intros ->. rewrite (st_zero _ _ Hst) in Hv. injection Hv as <-. by cbv in Hle. }
  destruct (st_type Hst id Hid) as (t & Ht & _). pose proof (se_kind _ Hset id t Ht Hnm) as Hk.
  apply wp_bind, (wp_type_of id t); [done |]. apply wp_bind, wp_map_set; [by rewrite (st_len _ _ Hst) |].
  rewrite ref_offs_eq by done. apply (ref_marked_ok fuel d id t); try done; [lia | by apply Hset].
Qed.

(** ** The pass *)
Lemma canon_is_mapped d x r : state_ok 0 d -> canon (d_map d) x r -> mapped (d_map d) x.
Proof.
  intros Hst [Hr Hs]. pose proof (db_cnt _ (st_btf _ _ Hst)) as Hcnt. pose proof (st_resolves_range Hst x r Hr) as Hrr.
  destruct (root_or_step (d_map d) x) as [Hroot|(y & Hy & Hle & _)]; [by eapply resolves_range | | by exists y].
  assert (r = x) as -> by (by eapply resolves_det; [exact Hr | apply resolves_root]). exists x. split; [done | lia].
Qed.

Record refs_done (d0 : btf_dedup) (k : Z) (d : btf_dedup) : Prop := {
  rd_step : ref_step (-1) d0 d;
  rd_mapped : forall y, start_id (d_btf d0) <= y < k -> mapped (d_map d) y
}.

Lemma ref_type_ok d id :
  state_ok 0 d -> settled d -> 0 <= id < type_cnt (d_btf d) -> wp (ref_type id) (ref_post d id) d.
Proof.
  intros Hst Hset Hid. apply btf_dedup_ref_type_ok; [|done]. split; [done..|].
  pose proof (unproc_length (d_map d)). lia.
Qed.

Lemma btf_dedup_ref_types_ok d :
  state_ok 0 d -> settled d ->
  wp btf_dedup_ref_types (fun r d' =>
    (r = 0 /\ exists d1, refs_done d (type_cnt (d_btf d)) d1 /\ d' = set_table d1 hashmap__init (d_oracle d1)) \/
    (ref_error r /\ ref_fail d d')) d.
Proof.
  intros Hst Hset. unfold btf_dedup_ref_types. apply wp_bind. pose proof (db_start (st_btf _ _ Hst)) as Hstart.
  eapply wp_mono; [apply (wp_for_types _ _ (refs_done d) (fun r d' => ref_error r /\ ref_fail d d')) |].
  - apply Hst.
  - split; [by apply ref_step_refl | intros; lia].
  - intros k d1 Hk [Hs Hm]. pose proof (rs_state _ _ _ Hs) as Hst1.
    destruct (types_only_cnt _ _ (rs_types _ _ _ Hs)) as [Hs_eq Hc_eq].
    eapply wp_mono; [apply (ref_type_ok d1 k); [done | by apply (ref_step_settled (-1) d) | lia] |]. cbn beta.
    intros r d2 [[Hs2 Hc]|[He Hf]].
    + pose proof (rs_state _ _ _ Hs2) as Hst2. pose proof (st_resolves_range Hst2 k r (proj1 Hc)) as Hrr.
      unfold negative. replace (r <? 0) with false by lia. split; [eapply ref_step_trans; [done | by left | done..] |].
      intros y Hy. destruct (decide (y = k)) as [->|Hne]; [by eapply canon_is_mapped |].
      eapply kept_mapped; [apply (rs_kept _ _ _ Hs2) | apply Hm; lia].
    + pose proof (ref_error_neg r He). unfold negative. replace (r <? 0) with true by lia. split; [done |]. by eapply ref_fail_step.
  - cbn beta. intros r d' [[-> Hd]|[Hr [He Hf]]].
    + cbn [Z.ltb Z.compare]. apply wp_bind. eapply wp_modify; [reflexivity |]. apply wp_ret. left. split; [done |]. by exists d'.
    + unfold negative in Hr. rewrite Hr. apply wp_ret. by right.
Qed.
End Ref.
