(* ===== verification/DedupFields.v ===== *)
(** * DedupFields: passes over the fields of all types

    [for_type_fields] of [Dedup] in a loop over all types, as the deduplication of strings
    and the final renumbering use it.  What is done to one field is a parameter: it
    replaces the value of the field.  Then the pass replaces the values of all fields of
    that sort and changes nothing else. *)
From S2P Require Import Prelude Hashmap Mem Strset BtfTypes Btf BtfFind BtfParse BtfRaw BtfWrite DedupTypes Dedup DedupState DedupWrite.
Open Scope Z_scope.
Open Scope dedup_scope.

#[local] Opaque kind_of_Z.

(** The fields one after the other. *)
Fixpoint each_field (offs : list Z) (f : Z -> dedup_m Z) : dedup_m Z :=
  match offs with
  | [] => ret 0
  | off :: offs => let* r := f off in if nonzero r then ret r else each_field offs f
  end.

Lemma for_fields_each fuel it f l d :
  btf_field_iter_all fuel it = Some l -> for_fields fuel it f d = each_field l f d.
Proof.
  revert it l d. induction fuel as [|fuel IH]; intros it l d; cbn [btf_field_iter_all for_fields]; [done |].
  destruct (btf_field_iter_next it) as [[off|] it']; [|by intros [= <-]].
  destruct (btf_field_iter_all fuel it') as [l'|] eqn:Hl; [|done]. intros [= <-]. cbn [each_field].
  unfold bind. destruct (f off d) as [[r d']|]; [|done]. destruct (nonzero r); [done |]. by apply IH.
Qed.

Lemma iter_fields t ik :
  match btf_field_iter_init t ik with
  | None => exists k, btf_kind t = BTF_KIND_OTHER k
  | Some it =>
      let fields := kind_fields ik (btf_kind t) (btf_vlen t) in
      btf_field_iter_all (S (length fields)) it = Some fields
  end.
Proof.
  unfold btf_field_iter_init. destruct (iter_desc ik (btf_kind t)) as [desc|] eqn:Hd.
  - destruct (iter_desc_spec ik (btf_kind t) (btf_vlen t) desc Hd) as [Hm Hf]. cbn zeta. rewrite <- Hf.
    apply (iter_all_spec _ desc 0); [done | pose proof (zlen_nonneg (t_offs desc)); lia |].
    change (zdrop 0 (t_offs desc)) with (t_offs desc). apply Nat.lt_succ_diag_r.
  - destruct ik, (btf_kind t) as [| | | | | | | | | | | | | | | | | | | | | | |k]; try done; by exists k.
Qed.

Lemma kind_fields_nodup ik k vlen : NoDup (kind_fields ik k vlen).
Proof.
  pose proof (kind_fields_sorted ik k vlen) as Hs. induction Hs as [|x l Hs IH Hall]; constructor; [|done].
  intros Hin. rewrite Forall_forall in Hall. specialize (Hall x Hin). lia.
Qed.

(** The words of the types, one of which has a word replaced. *)
Record words_at (b b' : btf) (x j v : Z) : Prop := {
  wa_start : start_id b' = start_id b;
  wa_cnt : type_cnt b' = type_cnt b;
  wa_words : forall y t, btf_type_by_id b y = Some t -> exists t', btf_type_by_id b' y = Some t' /\
    own_words t' = if y =? x then zupd (own_words t) j v else own_words t
}.

Lemma words_set_at b b' x j v : words_set b b' x j v -> words_at b b' x j v.
Proof. intros Hw. destruct (words_set_frame Hw) as (H1 & _ & H3 & _). split; [done | done | apply Hw]. Qed.

Lemma zupd_same {A} (l : list A) i x : znth l i = Some x -> zupd l i x = l.
Proof.
  unfold znth, zupd. case_if; [done |]. apply list_insert_id.
Qed.

Lemma words_at_same b x t j v :
  btf_type_by_id b x = Some t -> znth (own_words t) j = Some v -> words_at b b x j v.
Proof.
  intros Ht Hv. split; [done.. |]. intros y u Hu. exists u. split; [done |]. case_if; [|done].
  assert (y = x) as -> by lia. rewrite Ht in Hu. injection Hu as <-. by rewrite zupd_same.
Qed.

Section Pass.
Context (ik : btf_field_iter_kind) (f : Z -> Z -> dedup_m Z).
(** What changes, apart from words: [step]; what the pass keeps: [inv]; the values of the
    fields before: [valid]; the new value of a field: [rel]; errors: [err]. *)
Context (step : btf_dedup -> btf_dedup -> Prop) (inv : btf_dedup -> Prop) (valid : Z -> Prop)
  (rel : btf_dedup -> Z -> Z -> Prop) (err : Z -> Prop).
Context (step_refl : forall d, step d d) (step_trans : forall d1 d2 d3, step d1 d2 -> step d2 d3 -> step d1 d3).
Context (inv_ok : forall d, inv d -> btf_ok (d_btf d)) (err_nonzero : forall r, err r -> nonzero r = true).
Context (rel_step : forall d d' w w', inv d -> step d d' -> rel d w w' -> rel d' w w').

Definition field_post (d : btf_dedup) (x off w : Z) (r : Z) (d' : btf_dedup) : Prop :=
  step d d' /\ inv d' /\
  ((r = 0 /\ exists w', rel d' w w' /\ words_at (d_btf d) (d_btf d') x (off / 4) w') \/ err r).

Context (field_ok : forall d x t off w, inv d -> start_id (d_btf d) <= x -> btf_type_by_id (d_btf d) x = Some t ->
  off ∈ kind_fields ik (btf_kind t) (btf_vlen t) -> type_word t off = Some w -> valid w ->
  wp (f x off) (field_post d x off w) d).

(** The words of the types other than [x] are the same. *)
Definition others_same (b b' : btf) (x : Z) : Prop :=
  start_id b' = start_id b /\ type_cnt b' = type_cnt b /\
  forall y t, y <> x -> btf_type_by_id b y = Some t -> exists t', btf_type_by_id b' y = Some t' /\ own_words t' = own_words t.

Lemma others_same_refl b x : others_same b b x.
Proof. split_and!; [done.. |]. intros y t _ Ht. by exists t. Qed.

Lemma others_same_trans b1 b2 b3 x : others_same b1 b2 x -> others_same b2 b3 x -> others_same b1 b3 x.
Proof.
  intros (S1 & C1 & W1) (S2 & C2 & W2). split_and!; [congruence.. |]. intros y t Hy Ht.
  destruct (W1 y t Hy Ht) as (t1 & Ht1 & H1). destruct (W2 y t1 Hy Ht1) as (t2 & Ht2 & H2). exists t2. split; congruence.
Qed.

Lemma words_at_others b b' x j v : words_at b b' x j v -> others_same b b' x.
Proof.
  intros [H1 H2 H3]. split_and!; [done.. |]. intros y t Hy Ht. destruct (H3 y t Ht) as (t' & Ht' & Hw). exists t'.
  by replace (y =? x) with false in Hw by lia.
Qed.

Lemma each_field_ok offs d x t :
  inv d -> start_id (d_btf d) <= x -> btf_type_by_id (d_btf d) x = Some t -> NoDup offs ->
  (forall off, off ∈ offs -> off ∈ kind_fields ik (btf_kind t) (btf_vlen t)) ->
  (forall off w, off ∈ offs -> type_word t off = Some w -> valid w) ->
  wp (each_field offs (f x)) (fun r d' => step d d' /\ inv d' /\
    ((r = 0 /\ others_same (d_btf d) (d_btf d') x /\
      exists t', btf_type_by_id (d_btf d') x = Some t' /\ fields_rel (rel d') offs t t') \/ err r)) d.
Proof.
  revert d t. induction offs as [|off offs IH]; intros d t Hinv Hown Ht Hnd Hin Hval; cbn [each_field].
  { apply wp_ret. split_and!; [done.. |]. left. split_and!; [done | apply others_same_refl |]. exists t. split; [done | apply fields_rel_nil]. }
  apply NoDup_cons in Hnd as [Hni Hnd]. pose proof (Hin off ltac:(constructor)) as Hoff.
  destruct (field_word _ x t ik off (inv_ok _ Hinv) Ht Hoff) as (Hr & Hm & Hne & w & Hw & _ & Hzw).
  apply wp_bind. eapply wp_mono; [apply (field_ok d x t off w); try done; by apply (Hval off); [constructor |] |].
  intros r d1 (Hs1 & Hi1 & [(-> & w' & Hrel & Hwa)|He]).
  2:{ rewrite (err_nonzero r He). apply wp_ret. split_and!; [done.. | by right]. }
  cbn [nonzero Z.eqb negb]. destruct (wa_words _ _ _ _ _ Hwa x t Ht) as (t1 & Ht1 & Hw1). rewrite Z.eqb_refl in Hw1.
  assert (Hinf : info t1 = info t) by (apply (zupd_words_info t t1 (off / 4) w' Hw1); lia).
  destruct (info_words_cnt t1 t Hinf) as (Hc1 & Hk1 & Hv1).
  eapply wp_mono; [apply (IH d1 t1) |].
  - done.
  - by rewrite (wa_start _ _ _ _ _ Hwa).
  - done.
  - done.
  - intros o Ho. rewrite Hk1, Hv1. apply Hin. by constructor.
  - intros o v Ho Hv. apply (Hval o); [by constructor |].
    destruct (fields_room ik _ _ o (proj1 (vlen_range t)) (Hin o ltac:(by constructor))) as (Hor & Hom & _).
    rewrite <- (zupd_type_word t t1 off w' o Hinf Hw1 Hm); try done. intros ->. done.
  - cbn beta. intros r d2 (Hs2 & Hi2 & Hcase). split; [by eapply step_trans |]. split; [done |].
    destruct Hcase as [(-> & Hoth & t2 & Ht2 & Hf)|He]; [left | by right]. split; [done |].
    split; [eapply others_same_trans; [by eapply words_at_others | done] |]. exists t2. split; [done |].
    apply (fields_rel_cons _ off offs t t1 t2 w w'); try done; [by apply (rel_step d1 d2) |].
    by apply (own_words_ok (d_btf d) x t (inv_ok _ Hinv)).
Qed.

(** All fields of one type. *)
Lemma for_type_fields_ok d x t :
  inv d -> start_id (d_btf d) <= x -> btf_type_by_id (d_btf d) x = Some t ->
  (forall off w, off ∈ kind_fields ik (btf_kind t) (btf_vlen t) -> type_word t off = Some w -> valid w) ->
  wp (for_type_fields ik f x) (fun r d' => step d d' /\ inv d' /\
    ((r = 0 /\ others_same (d_btf d) (d_btf d') x /\ (forall k, btf_kind t <> BTF_KIND_OTHER k) /\
      exists t', btf_type_by_id (d_btf d') x = Some t' /\
        fields_rel (rel d') (kind_fields ik (btf_kind t) (btf_vlen t)) t t') \/
     err r \/ (r = - EINVAL /\ exists k, btf_kind t = BTF_KIND_OTHER k))) d.
Proof.
  intros Hinv Hown Ht Hval. unfold for_type_fields. apply wp_bind, (wp_type_of x t); [done |].
  pose proof (iter_fields t ik) as Hit. destruct (btf_field_iter_init t ik) as [it|] eqn:Hini.
  - cbn zeta in Hit. destruct (each_field_ok (kind_fields ik (btf_kind t) (btf_vlen t)) d x t Hinv Hown Ht) as (r & d' & Hrun & Hs & Hi & Hcase);
      [apply kind_fields_nodup | done | done |].
    exists r, d'. split; [by rewrite (for_fields_each _ _ _ _ d Hit) |]. split_and!; [done.. |].
    destruct Hcase as [(-> & Ho & t' & Ht' & Hf)|He]; [left | auto]. split_and!; [done.. | | by exists t'].
    intros k Hk. unfold btf_field_iter_init in Hini. rewrite Hk in Hini. by destruct ik.
  - apply wp_ret. split_and!; [done.. |]. auto.
Qed.

(** What the pass has done to the types below [k]. *)
Definition fields_done (d : btf_dedup) (k : Z) (d' : btf_dedup) : Prop :=
  start_id (d_btf d') = start_id (d_btf d) /\ type_cnt (d_btf d') = type_cnt (d_btf d) /\
  forall y t, btf_type_by_id (d_btf d) y = Some t -> exists t', btf_type_by_id (d_btf d') y = Some t' /\
    if decide (start_id (d_btf d) <= y < k)
    then fields_rel (rel d') (kind_fields ik (btf_kind t) (btf_vlen t)) t t' /\ forall k, btf_kind t <> BTF_KIND_OTHER k
    else own_words t' = own_words t.

Record pass_done (d : btf_dedup) (k : Z) (d' : btf_dedup) : Prop := {
  pa_step : step d d';
  pa_inv : inv d';
  pa_fields : fields_done d k d'
}.

Lemma pass_done_next d k d1 d2 t :
  pass_done d k d1 -> start_id (d_btf d) <= k -> btf_type_by_id (d_btf d) k = Some t -> step d1 d2 -> inv d2 ->
  others_same (d_btf d1) (d_btf d2) k -> (forall k, btf_kind t <> BTF_KIND_OTHER k) ->
  (exists t2, btf_type_by_id (d_btf d2) k = Some t2 /\ fields_rel (rel d2) (kind_fields ik (btf_kind t) (btf_vlen t)) t t2) ->
  pass_done d (k + 1) d2.
Proof.
  intros [Hs Hi (F1 & F2 & F3)] Hk Ht Hs2 Hi2 (O1 & O2 & O3) Hkn (t2 & Ht2 & Hf2). split; [by eapply step_trans | done |].
  split_and!; [congruence.. |]. intros y u Hu. destruct (decide (y = k)) as [->|Hne].
  - exists t2. split; [done |]. rewrite decide_True by lia. rewrite Ht in Hu. by injection Hu as <-.
  - destruct (F3 y u Hu) as (u1 & Hu1 & Hrel). destruct (O3 y u1 Hne Hu1) as (u2 & Hu2 & Hw2). exists u2. split; [done |].
    destruct (decide (start_id (d_btf d) <= y < k)) as [Hr|Hr].
    + rewrite decide_True by lia. destruct Hrel as [Hf Hkn']. split; [|done].
      eapply fields_rel_words; [reflexivity | symmetry; exact Hw2 |]. eapply fields_rel_mono; [|exact Hf].
      intros w w'. by apply (rel_step d1 d2).
    + rewrite decide_False by lia. congruence.
Qed.

Lemma fields_pass_ok d :
  inv d ->
  (forall x t off w, start_id (d_btf d) <= x -> btf_type_by_id (d_btf d) x = Some t ->
     off ∈ kind_fields ik (btf_kind t) (btf_vlen t) -> type_word t off = Some w -> valid w) ->
  wp (for_types nonzero (for_type_fields ik f)) (fun r d' =>
    (r = 0 /\ pass_done d (type_cnt (d_btf d)) d') \/
    ((err r \/ r = - EINVAL) /\ step d d' /\ inv d')) d.
Proof.
  intros Hinv Hval. pose proof (inv_ok _ Hinv) as Hok. pose proof (btf_ok_start _ Hok) as Hst.
  eapply wp_mono; [apply (wp_for_own_types _ _ (pass_done d) (fun r d' => (err r \/ r = - EINVAL) /\ step d d' /\ inv d')) |].
  - done.
  - split; [done.. |]. split_and!; [done.. |]. intros y t Ht. exists t. split; [done |]. by rewrite decide_False by lia.
  - intros k d1 Hk Hd. pose proof Hd as [Hs Hi (F1 & F2 & F3)].
    destruct (btf_type_by_id_total (d_btf d) k Hok) as (t & Ht & _); [unfold type_cnt in *; lia |].
    destruct (F3 k t Ht) as (t1 & Ht1 & Hw1). rewrite decide_False in Hw1 by lia.
    destruct (same_words_fields t1 t Hw1) as (_ & Hi1 & _). destruct (info_derived t1 t Hi1) as (Hk1 & Hv1 & _).
    eapply wp_mono; [apply (for_type_fields_ok d1 k t1 Hi) |]; [lia | done | |].
    + intros off w Hoff Hw. apply (Hval k t off w); [lia | done | by rewrite <- Hk1, <- Hv1 |].
      destruct (fields_room ik _ _ off (proj1 (vlen_range t1)) Hoff) as (Hr & Hm & _).
      destruct (info_words_cnt t1 t Hi1) as (Hc & _ & _). rewrite type_word_own in Hw by (unfold words_cnt; done).
      rewrite type_word_own by (rewrite <- ?Hc; unfold words_cnt; done). by rewrite <- Hw1.
    + cbn beta. intros r d2 (Hs2 & Hi2 & [(-> & Ho & Hkn & t2 & Ht2 & Hf)|Hc]).
      * cbn [nonzero Z.eqb negb]. eapply pass_done_next; [done | lia | done | done | done | done | by rewrite <- Hk1 |].
        exists t2. split; [done |]. rewrite <- Hk1, <- Hv1. by eapply fields_rel_words.
      * assert (Hn : nonzero r = true) by (destruct Hc as [He|[-> _]]; [by apply err_nonzero | done]). rewrite Hn.
        split; [destruct Hc as [?|[? _]]; auto |]. split; [by eapply step_trans | done].
  - cbn beta. intros r d' [[-> Hd]|[_ Hd]]; auto.
Qed.
End Pass.
