(* ===== verification/DedupCompact.v ===== *)
(** * DedupCompact: compaction and renumbering

    [btf_dedup_compact_types] and [btf_dedup_remap_types] of [Dedup].  The types that are
    their own representatives are moved to the beginning of the type section, in their
    order, and get consecutive identifiers; then every identifier in a type is replaced by
    the new one of the representative. *)
From S2P Require Import Prelude Hashmap Mem Strset BtfTypes Btf BtfFind BtfParse BtfRaw BtfWrite BtfBuild BtfAppend DedupTypes Dedup DedupState DedupPrim DedupEquiv DedupStruct DedupWrite DedupRef DedupFields.
Open Scope Z_scope.
Open Scope dedup_scope.

#[local] Opaque kind_of_Z.

(** ** New identifiers *)
Definition self (m : list Z) (id : Z) : Prop := znth m id = Some id.

#[local] Instance self_dec m id : Decision (self m id).
Proof. unfold self. apply _. Defined.

(** The types from [id] on that are kept. *)
Fixpoint kept_from {A} (m : list Z) (id : Z) (l : list A) : list A :=
  match l with
  | [] => []
  | x :: l => if decide (self m id) then x :: kept_from m (id + 1) l else kept_from m (id + 1) l
  end.

(** How many of the [n] types from [id] on are kept. *)
Fixpoint kept_cnt (m : list Z) (id : Z) (n : nat) : Z :=
  match n with
  | O => 0
  | S n => (if decide (self m id) then 1 else 0) + kept_cnt m (id + 1) n
  end.

(** The new identifier of a type that is its own representative. *)
Definition new_id (m : list Z) (start id : Z) : Z :=
  if id <? start then id else start + kept_cnt m start (Z.to_nat (id - start)).

Lemma kept_cnt_range m id n : 0 <= kept_cnt m id n <= Z.of_nat n.
Proof. revert id. induction n as [|n IH]; intros id; cbn [kept_cnt]; [lia |]. specialize (IH (id + 1)). case_decide; lia. Qed.

Lemma kept_from_len {A} m id (l : list A) : zlen (kept_from m id l) = kept_cnt m id (length l).
Proof.
  revert id. induction l as [|x l IH]; intros id; [done |]. cbn [kept_from length kept_cnt]. specialize (IH (id + 1)).
  case_decide; rewrite ?zlen_cons; lia.
Qed.

Lemma kept_cnt_split m id n k : kept_cnt m id (n + k) = kept_cnt m id n + kept_cnt m (id + Z.of_nat n) k.
Proof.
  revert id. induction n as [|n IH]; intros id; cbn [Nat.add kept_cnt]; [by rewrite Z.add_0_r |].
  rewrite IH. replace (id + Z.of_nat (S n)) with (id + 1 + Z.of_nat n) by lia. lia.
Qed.

(** An element that is kept, at its new place. *)
Lemma kept_from_lookup {A} m id (l : list A) (i : nat) x :
  l !! i = Some x -> self m (id + Z.of_nat i) -> kept_from m id l !! Z.to_nat (kept_cnt m id i) = Some x.
Proof.
  revert id i. induction l as [|y l IH]; intros id [|i] Hi Hs; try done; cbn [kept_from kept_cnt].
  - rewrite Z.add_0_r in Hs. by rewrite decide_True by done.
  - replace (id + Z.of_nat (S i)) with (id + 1 + Z.of_nat i) in Hs by lia. specialize (IH (id + 1) i Hi Hs).
    pose proof (kept_cnt_range m (id + 1) i). case_decide; [|by rewrite Z.add_0_l].
    by replace (Z.to_nat (1 + kept_cnt m (id + 1) i)) with (S (Z.to_nat (kept_cnt m (id + 1) i))) by lia.
Qed.

(** Each element of the result was kept. *)
Lemma kept_from_inv {A} m id (l : list A) (k : nat) x :
  kept_from m id l !! k = Some x ->
  exists i : nat, l !! i = Some x /\ self m (id + Z.of_nat i) /\ kept_cnt m id i = Z.of_nat k.
Proof.
  revert id k. induction l as [|y l IH]; intros id k; cbn [kept_from]; [done |]. case_decide as Hs.
  - destruct k as [|k].
    + intros [= ->]. exists 0%nat. by rewrite Z.add_0_r.
    + intros Hk. destruct (IH (id + 1) k Hk) as (i & Hi & Hsi & Hc). exists (S i). split_and!; [done | |].
      * by replace (id + Z.of_nat (S i)) with (id + 1 + Z.of_nat i) by lia.
      * cbn [kept_cnt]. rewrite decide_True by done. lia.
  - intros Hk. destruct (IH (id + 1) k Hk) as (i & Hi & Hsi & Hc). exists (S i). split_and!; [done | |].
    + by replace (id + Z.of_nat (S i)) with (id + 1 + Z.of_nat i) by lia.
    + cbn [kept_cnt]. rewrite decide_False by done. lia.
Qed.

Lemma kept_cnt_lt m id (i j : nat) : self m (id + Z.of_nat i) -> (i < j)%nat -> kept_cnt m id i < kept_cnt m id j.
Proof.
  intros Hs Hij. replace j with (i + S (j - S i))%nat by lia. rewrite kept_cnt_split. cbn [kept_cnt].
  rewrite decide_True by done. pose proof (kept_cnt_range m (id + Z.of_nat i + 1) (j - S i)). lia.
Qed.

(** Different types get different identifiers. *)
Lemma new_id_inj m start x y :
  0 < start -> self m x -> self m y -> new_id m start x = new_id m start y -> x = y.
Proof.
  intros H0 Hx Hy. unfold new_id. pose proof (kept_cnt_range m start (Z.to_nat (x - start))).
  pose proof (kept_cnt_range m start (Z.to_nat (y - start))). repeat case_if; try lia. intros He.
  destruct (Z.lt_trichotomy x y) as [Hlt|[Heq|Hlt]]; [|done|].
  - pose proof (kept_cnt_lt m start (Z.to_nat (x - start)) (Z.to_nat (y - start))) as Hc.
    replace (start + Z.of_nat (Z.to_nat (x - start))) with x in Hc by lia. specialize (Hc Hx ltac:(lia)). lia.
  - pose proof (kept_cnt_lt m start (Z.to_nat (y - start)) (Z.to_nat (x - start))) as Hc.
    replace (start + Z.of_nat (Z.to_nat (y - start))) with y in Hc by lia. specialize (Hc Hy ltac:(lia)). lia.
Qed.

(** ** Moving *)

(** The place at the end of [K] is overwritten, and [c] is behind it. *)
Lemma overwrite {A} (K J c w R : list A) :
  length w = length c ->
  exists J', length J' = length J /\
    ztake (zlen K) (K ++ J ++ c ++ R) ++ w ++ zdrop (zlen K + zlen w) (K ++ J ++ c ++ R) = K ++ w ++ J' ++ R.
Proof.
  intros Hl. exists (drop (length w) (J ++ c)). split; [rewrite length_drop, length_app; lia |].
  unfold ztake, zdrop, zlen. rewrite Nat2Z.id, take_app_length. do 2 f_equal.
  replace (Z.to_nat _) with (length K + length w)%nat by lia.
  rewrite drop_app_add', (app_assoc J), drop_app_le; [done | rewrite length_app; lia | done].
Qed.

(** The types of [K] are in place; those of [cs] from type [id] on have not been moved. *)
Definition moving (b : btf) (K cs : list (list Z)) (id : Z) : Prop :=
  exists J JO, types_data b = mjoin K ++ J ++ mjoin cs /\
    type_offs b = offsets 0 K ++ JO ++ offsets (4 * zlen (mjoin K ++ J)) cs /\
    start_id b + zlen K + zlen JO = id.

Lemma moving_start b cs : types_ok b cs -> moving b [] cs (start_id b).
Proof.
  intros [Hw Hi _ _ _ _ _]. exists [], []. split_and!; [done | done |]. change (zlen (@nil (list Z))) with 0.
  change (zlen (@nil Z)) with 0. lia.
Qed.

Lemma moving_skip b K c cs id : moving b K (c :: cs) id -> moving b K cs (id + 1).
Proof.
  intros (J & JO & Hd & Ho & Hid). exists (J ++ c), (JO ++ [4 * zlen (mjoin K ++ J)]). split_and!.
  - rewrite Hd, mjoin_cons. by rewrite <- !app_assoc.
  - rewrite Ho. cbn [offsets]. rewrite <- app_assoc. cbn [app]. do 4 f_equal. rewrite !zlen_app. lia.
  - rewrite zlen_app, zlen_cons. change (zlen (@nil Z)) with 0. lia.
Qed.

Lemma offsets_app off l k : offsets off (l ++ k) = offsets off l ++ offsets (off + 4 * zlen (mjoin l)) k.
Proof.
  revert off. induction l as [|c l IH]; intros off; cbn [app offsets].
  - change (zlen (mjoin (@nil (list Z)))) with 0. by rewrite Z.add_0_r.
  - rewrite IH, mjoin_cons, zlen_app. do 3 f_equal. lia.
Qed.

Lemma zupd_take_drop {A} (l : list A) i x :
  0 <= i < zlen l -> zupd l i x = ztake i l ++ [x] ++ zdrop (i + 1) l.
Proof.
  intros Hi. unfold zupd, ztake, zdrop, zlen in *. replace (i <? 0) with false by lia.
  rewrite insert_take_drop by lia. by replace (Z.to_nat (i + 1)) with (S (Z.to_nat i)) by lia.
Qed.

Lemma znth_app_mid {A} (K J : list A) x R : znth (K ++ J ++ x :: R) (zlen K + zlen J) = Some x.
Proof.
  pose proof (zlen_nonneg K). pose proof (zlen_nonneg J). unfold znth. replace (_ <? 0) with false by lia.
  rewrite app_assoc. replace (Z.to_nat _) with (length (K ++ J)) by (rewrite length_app; unfold zlen; lia).
  by rewrite list_lookup_middle.
Qed.

(** The next type, as the loop finds it. *)
Lemma moving_off b K c cs id :
  moving b K (c :: cs) id -> exists J, types_data b = mjoin K ++ J ++ c ++ mjoin cs /\
    znth (type_offs b) (id - start_id b) = Some (4 * zlen (mjoin K ++ J)).
Proof.
  intros (J & JO & Hd & Ho & Hid). exists J. split; [by rewrite Hd, mjoin_cons |]. rewrite Ho. cbn [offsets].
  replace (id - start_id b) with (zlen (offsets 0 K) + zlen JO) by (rewrite zlen_offsets; lia). apply znth_app_mid.
Qed.

Lemma moving_type b K c cs id t :
  moving b K (c :: cs) id -> 0 < start_id b <= id -> type_at c = Some t ->
  exists t', btf_type_by_id b id = Some t' /\ info t' = info t.
Proof.
  intros Hm Hs Ht. destruct (moving_off _ _ _ _ _ Hm) as (J & Hd & Ho). rewrite btf_type_by_id_eq.
  replace (id =? 0) with false by lia. replace (id <? start_id b) with false by lia. rewrite Ho. cbn [mbind option_bind].
  rewrite Z.mul_comm, Z.div_mul by lia. unfold zdrop, zlen. rewrite Nat2Z.id, Hd, app_assoc, drop_app_length.
  rewrite (type_at_app c _ t Ht). by eexists.
Qed.

Definition set_moved (d : btf_dedup) (data offs hyp : list Z) : btf_dedup :=
  let b := d_btf d in
  set_hypot (set_d_btf d (set_types b data (types_data_cap b) offs (type_offs_cap b) (nr_types b)))
    hyp (hypot_list d) (hypot_adjust_canon d).

Lemma set_moved_twice d data offs hyp data' offs' hyp' :
  set_moved (set_moved d data offs hyp) data' offs' hyp' = set_moved d data' offs' hyp'.
Proof. done. Qed.

Lemma set_moved_id d : set_moved d (types_data (d_btf d)) (type_offs (d_btf d)) (hypot_map d) = d.
Proof. destruct d as [b ? ? ? ? ? ? ? ?]. by destruct b. Qed.

Lemma moving_move d K c cs id :
  let b := d_btf d in
  moving b K (c :: cs) id -> 0 <= id < zlen (hypot_map d) ->
  exists data offs, move_type id (start_id b + zlen K) (4 * zlen (mjoin K)) (4 * zlen c) d =
      Some (set_moved d data offs (zupd (hypot_map d) id (start_id b + zlen K))) /\
    moving (d_btf (set_moved d data offs (zupd (hypot_map d) id (start_id b + zlen K)))) (K ++ [c]) cs (id + 1).
Proof.
  intros b Hm Hid. destruct (moving_off _ _ _ _ _ Hm) as (J0 & Hd0 & Ho0). destruct Hm as (J & JO & Hd & Ho & Hsum).
  assert (J0 = J) as ->. { rewrite Hd, mjoin_cons in Hd0. apply app_inv_head in Hd0. by apply app_inv_tail in Hd0. }
  cbn [offsets] in Ho. set (o := 4 * zlen (mjoin K ++ J)) in *. pose proof (zlen_nonneg (mjoin K)). pose proof (zlen_nonneg c).
  destruct (overwrite (mjoin K) J c c (mjoin cs) eq_refl) as (J' & HJ' & Hdata).
  set (p := zlen (mjoin K : list Z) * 4).
  destruct (overwrite (offsets 0 K) JO [o] [p] (offsets (o + 4 * zlen c) cs) eq_refl) as (JO' & HJO' & Hoffs).
  eexists _, _. split.
  - unfold move_type. fold b. rewrite Ho0. cbn [mbind option_bind]. unfold o. rewrite !(Z.mul_comm 4), !Z.div_mul by lia.
    rewrite Hd0. unfold slice. rewrite !zlen_app.
    pose proof (zlen_nonneg J). pose proof (zlen_nonneg (mjoin cs)). replace (_ && _ && _) with true by lia. cbn [mbind option_bind].
    rewrite (array_set_spec (hypot_map d) id) by exact Hid. cbn [mbind option_bind].
    rewrite (array_set_spec (type_offs b)); [cbn [mbind option_bind]; reflexivity |].
    rewrite Ho, !zlen_app, zlen_cons, !zlen_offsets. pose proof (zlen_nonneg K). pose proof (zlen_nonneg JO). pose proof (zlen_nonneg cs). lia.
  - cbn [d_btf set_moved set_hypot set_d_btf]. exists J', JO'. cbn [types_data type_offs start_id set_types].
    split_and!.
    + rewrite mjoin_snoc, <- !app_assoc, <- Hdata. unfold memcpy.
      replace (ztake (zlen c) _) with c; [done |]. unfold ztake, zdrop, zlen.
      rewrite <- Nat2Z.inj_add, !Nat2Z.id, <- length_app, (app_assoc (mjoin K)), drop_app_length, take_app_length. done.
    + rewrite offsets_app. cbn [offsets]. rewrite <- !app_assoc. cbn [app].
      assert (Hz : zlen J' = zlen J) by (unfold zlen; lia).
      replace (4 * zlen (mjoin (K ++ [c]) ++ J')) with (o + 4 * zlen c) by (unfold o; rewrite mjoin_snoc, !zlen_app; lia).
      rewrite Z.add_0_l, (Z.mul_comm 4 (zlen (mjoin K))). fold p. cbn [app] in Hoffs. rewrite <- Hoffs, Ho.
      replace (start_id b + zlen K - start_id b) with (zlen (offsets 0 K)) by (rewrite zlen_offsets; lia).
      apply zupd_take_drop. rewrite !zlen_app, zlen_cons. pose proof (zlen_nonneg JO). pose proof (zlen_nonneg (offsets 0 K)).
      pose proof (zlen_nonneg (offsets (o + 4 * zlen c) cs)). lia.
    + assert (zlen JO' = zlen JO) by (unfold zlen; lia). rewrite zlen_app, zlen_cons. change (zlen (@nil (list Z))) with 0. fold b. lia.
Qed.

(** The new identifiers of the types from [id] on, the first of which is [next]. *)
Definition renumbered (m h h' : list Z) (id next : Z) (n : nat) : Prop :=
  zlen h' = zlen h /\
  forall y, znth h' y =
    if decide (id <= y < id + Z.of_nat n /\ self m y) then Some (next + kept_cnt m id (Z.to_nat (y - id))) else znth h y.

Lemma renumbered_skip m h h' id next n :
  ~ self m id -> renumbered m h h' (id + 1) next n -> renumbered m h h' id next (S n).
Proof.
  intros Hs [Hl Hv]. split; [done |]. intros y. rewrite Hv. destruct (decide (y = id)) as [->|Hne].
  - rewrite !decide_False; [done | tauto | lia].
  - destruct (decide (id + 1 <= y < id + 1 + Z.of_nat n /\ self m y)) as [[H1 H2]|Hn].
    + rewrite decide_True by (split; [lia | done]). replace (Z.to_nat (y - id)) with (S (Z.to_nat (y - (id + 1)))) by lia.
      cbn [kept_cnt]. by rewrite decide_False by done.
    + rewrite decide_False; [done |]. intros [H1 H2]. apply Hn. split; [lia | done].
Qed.

Lemma renumbered_move m h h' id next n :
  0 <= id < zlen h -> self m id -> renumbered m (zupd h id next) h' (id + 1) (next + 1) n -> renumbered m h h' id next (S n).
Proof.
  intros Hid Hs [Hl Hv]. rewrite zlen_zupd in Hl. split; [done |]. intros y. rewrite Hv. destruct (decide (y = id)) as [->|Hne].
  - rewrite decide_False by lia. rewrite decide_True by (split; [lia | done]). rewrite znth_zupd_eq by done.
    rewrite Z.sub_diag. change (Z.to_nat 0) with O. cbn [kept_cnt]. by rewrite Z.add_0_r.
  - destruct (decide (id + 1 <= y < id + 1 + Z.of_nat n /\ self m y)) as [[H1 H2]|Hn].
    + rewrite decide_True by (split; [lia | done]). replace (Z.to_nat (y - id)) with (S (Z.to_nat (y - (id + 1)))) by lia.
      cbn [kept_cnt]. rewrite decide_True by done. f_equal. lia.
    + rewrite znth_zupd_ne by done. rewrite decide_False; [done |]. intros [H1 H2]. apply Hn. split; [lia | done].
Qed.

Section Compact.
Context (cnt : Z) (Hcnt : cnt <= BTF_MAX_NR_TYPES).

(** What the loop needs of the state, apart from the types. *)
Record loop_ok (d : btf_dedup) : Prop := {
  lo_start : 0 < start_id (d_btf d);
  lo_cnt : type_cnt (d_btf d) = cnt;
  lo_map : zlen (d_map d) = cnt;
  lo_hypot : zlen (hypot_map d) = cnt
}.

Lemma btf__type_by_id_low b id : type_cnt b = cnt -> 0 <= id < cnt -> btf__type_by_id b id = btf_type_by_id b id.
Proof.
  intros Hc Hid. unfold btf__type_by_id, btf__type_cnt, type_cnt in *. rewrite u32_small by (unfold BTF_MAX_NR_TYPES in *; lia).
  by replace (_ <=? id) with false by lia.
Qed.

Lemma compact_loop_ok cs d id K :
  loop_ok d -> moving (d_btf d) K cs id -> Forall (type_ok (btf_layout_of (d_btf d))) cs ->
  start_id (d_btf d) <= id -> id + zlen cs = cnt ->
  let K' := K ++ kept_from (d_map d) id cs in
  wp (compact_loop (length cs) id (4 * zlen (mjoin K)) (start_id (d_btf d) + zlen K)) (fun r d' =>
    exists data offs hyp, d' = set_moved d data offs hyp /\
      r = (0, 4 * zlen (mjoin K'), start_id (d_btf d) + zlen K') /\
      moving (d_btf d') K' [] cnt /\
      renumbered (d_map d) (hypot_map d) hyp id (start_id (d_btf d) + zlen K) (length cs)) d.
Proof.
  revert d id K. induction cs as [|c cs IH]; intros d id K Hlo Hm Hall Hid Hend K'.
  { cbn [length compact_loop]. apply wp_ret. exists (types_data (d_btf d)), (type_offs (d_btf d)), (hypot_map d).
    rewrite set_moved_id. unfold K'. cbn [kept_from]. rewrite app_nil_r. rewrite <- Hend. change (zlen (@nil (list Z))) with 0.
    rewrite Z.add_0_r. split_and!; [done | done | exact Hm |]. split; [done |]. intros y. by rewrite decide_False by (cbn; lia). }
  rewrite zlen_cons in Hend. pose proof (zlen_nonneg cs). pose proof (lo_start _ Hlo) as Hs0. apply Forall_cons in Hall as [(t & Ht & Hsz) Hall].
  cbn [length compact_loop]. destruct (znth_is_Some (d_map d) id) as [v Hv]; [rewrite (lo_map _ Hlo); lia |].
  apply wp_bind, (wp_map_at id v); [done |]. unfold K'. cbn [kept_from]. destruct (decide (self (d_map d) id)) as [Hs|Hs].
  - unfold self in Hs. rewrite Hv in Hs. injection Hs as ->. rewrite Z.eqb_refl. cbn [negb].
    destruct (moving_type _ _ _ _ _ t Hm ltac:(lia) Ht) as (t' & Ht' & Hi).
    apply wp_bind, (wp_read _ t'); [rewrite btf__type_by_id_low; [done | apply Hlo | lia] |].
    apply wp_bind, (wp_read _ (btf_layout_of (d_btf d))); [done |]. rewrite (btf_type_size_info _ _ _ Hi), Hsz.
    pose proof (zlen_nonneg c). replace (_ <? 0) with false by lia. apply wp_bind.
    destruct (moving_move d K c cs id Hm) as (data & offs & Hmv & Hm'); [rewrite (lo_hypot _ Hlo); lia |].
    eapply wp_modify; [exact Hmv |]. set (d1 := set_moved d data offs _) in *.
    replace (4 * zlen (mjoin K) + 4 * zlen c) with (4 * zlen (mjoin (K ++ [c]))) by (rewrite mjoin_snoc, zlen_app; lia).
    replace (start_id (d_btf d) + zlen K + 1) with (start_id (d_btf d1) + zlen (K ++ [c])).
    2:{ rewrite zlen_app, zlen_cons. change (zlen (@nil (list Z))) with 0. change (start_id (d_btf d1)) with (start_id (d_btf d)). lia. }
    eapply wp_mono; [apply (IH d1 (id + 1) (K ++ [c])) |].
    + destruct Hlo as [L1 L2 L3 L4]. split; try assumption. cbn [hypot_map d1 set_moved set_hypot]. by rewrite zlen_zupd.
    + exact Hm'.
    + exact Hall.
    + change (start_id (d_btf d1)) with (start_id (d_btf d)). lia.
    + lia.
    + cbn beta. intros r d' (data' & offs' & hyp & -> & -> & Hmv' & Hr). exists data', offs', hyp.
      rewrite <- app_assoc in *. change (d_map d1) with (d_map d) in *. change (start_id (d_btf d1)) with (start_id (d_btf d)) in *.
      split_and!; [apply set_moved_twice | done | done |]. apply renumbered_move; [rewrite (lo_hypot _ Hlo); lia | done |].
      replace (start_id (d_btf d) + zlen K + 1) with (start_id (d_btf d) + zlen (K ++ [c])); [exact Hr |].
      rewrite zlen_app, zlen_cons. change (zlen (@nil (list Z))) with 0. lia.
  - replace (v =? id) with false by (unfold self in Hs; rewrite Hv in Hs; symmetry; apply Z.eqb_neq; congruence). cbn [negb].
    eapply wp_mono; [apply (IH d (id + 1) K); [done | by eapply moving_skip | done | lia | lia] |].
    cbn beta. intros r d' (data' & offs' & hyp & -> & -> & Hmv' & Hr). exists data', offs', hyp.
    split_and!; [done.. |]. by apply renumbered_skip.
Qed.
End Compact.

(** ** The initial renumbering *)
Lemma fill_hypot_ok n i f m :
  0 <= i -> i + Z.of_nat n <= zlen m ->
  exists m', fill_hypot n i f m = Some m' /\ zlen m' = zlen m /\
    forall y, znth m' y = if decide (i <= y < i + Z.of_nat n) then Some (f y) else znth m y.
Proof.
  revert i m. induction n as [|n IH]; intros i m Hi Hn; cbn [fill_hypot].
  - exists m. split_and!; [done..|]. intros y. by rewrite decide_False by lia.
  - rewrite array_set_spec by lia. cbn [mbind option_bind].
    destruct (IH (i + 1) (zupd m i (f i))) as (m' & Hm' & Hl & Hv); [lia | rewrite zlen_zupd; lia |].
    exists m'. split_and!; [done | by rewrite Hl, zlen_zupd |]. intros y. rewrite Hv. destruct (decide (y = i)) as [->|Hne].
    + rewrite decide_False by lia. rewrite decide_True by lia. apply znth_zupd_eq. lia.
    + rewrite znth_zupd_ne by done. destruct (decide (i + 1 <= y < i + 1 + Z.of_nat n)); [rewrite decide_True by lia | rewrite decide_False by lia]; done.
Qed.

Lemma init_remap_ok b m :
  dedup_btf b -> zlen m = type_cnt b ->
  exists m', init_remap b m = Some m' /\ zlen m' = zlen m /\
    forall y, 0 <= y < start_id b -> znth m' y = Some y.
Proof.
  intros Hb Hl. pose proof (db_start Hb) as [Hs Hn]. unfold init_remap, type_cnt in *. rewrite array_set_spec by lia. cbn [mbind option_bind].
  destruct (fill_hypot_ok (Z.to_nat (start_id b - 1)) 1 (fun id => id) (zupd m 0 0)) as (m1 & H1 & L1 & V1); [lia | rewrite zlen_zupd; lia |].
  rewrite H1. cbn [mbind option_bind]. rewrite zlen_zupd in L1.
  destruct (fill_hypot_ok (Z.to_nat (nr_types b)) (start_id b) (fun _ => BTF_UNPROCESSED_ID) m1) as (m2 & H2 & L2 & V2); [lia | lia |].
  exists m2. split_and!; [done | lia |]. intros y Hy. rewrite V2, decide_False by lia. rewrite V1.
  destruct (decide (1 <= y < 1 + Z.of_nat (Z.to_nat (start_id b - 1)))); [done |]. assert (y = 0) as -> by lia.
  apply znth_zupd_eq. lia.
Qed.

(** ** The pass *)
Record compacted (d : btf_dedup) (cs : list (list Z)) (d' : btf_dedup) : Prop := {
  cp_types : types_ok (d_btf d') (kept_from (d_map d) (start_id (d_btf d)) cs);
  cp_ok : btf_ok (d_btf d');
  cp_start : start_id (d_btf d') = start_id (d_btf d);
  cp_base : base_btf (d_btf d') = base_btf (d_btf d);
  cp_strs : btf_strs_data (d_btf d') = btf_strs_data (d_btf d) /\ str_len (hdr (d_btf d')) = str_len (hdr (d_btf d)) /\
    start_str_off (d_btf d') = start_str_off (d_btf d);
  cp_rep : rep_ok (d_btf d) -> modifiable (d_btf d) = true -> rep_ok (d_btf d');
  cp_map : d_map d' = d_map d;
  cp_ids : zlen (hypot_map d') = type_cnt (d_btf d) /\
    forall x, self (d_map d) x -> znth (hypot_map d') x = Some (new_id (d_map d) (start_id (d_btf d)) x)
}.

Lemma kept_from_Forall {A} (P : A -> Prop) m id l : Forall P l -> Forall P (kept_from m id l).
Proof. intros H. revert id. induction H as [|x l Hx _ IH]; intros id; cbn [kept_from]; [constructor |]. case_decide; [by constructor | done]. Qed.

Lemma Forall_chunks (P : Z -> Prop) (cs : list (list Z)) : Forall P (mjoin cs) <-> Forall (Forall P) cs.
Proof.
  induction cs as [|c cs IH]; [done |]. rewrite mjoin_cons, Forall_app, Forall_cons. by rewrite IH.
Qed.

Lemma kept_from_words m id (cs : list (list Z)) : zlen (mjoin (kept_from m id cs)) <= zlen (mjoin cs).
Proof.
  revert id. induction cs as [|c cs IH]; intros id; cbn [kept_from]; [done |]. specialize (IH (id + 1)).
  pose proof (zlen_nonneg c). case_decide; rewrite !mjoin_cons, !zlen_app; lia.
Qed.

Lemma shrink_rep b b1 p next :
  rep_ok b -> p <= type_len (hdr b) ->
  (exists data offs, b1 = set_types b data (types_data_cap b) offs (type_offs_cap b) (nr_types b)) ->
  modifiable b = true -> rep_ok (shrink_types p next b1) /\ rep_ok (update_sections (shrink_types p next b1)).
Proof.
  intros [[Hl Hown] Hb]%rep_ok_unfold Hp (data & offs & ->) Hm. rewrite Hm in Hown.
  split; apply rep_ok_unfold; (split; [|exact Hb]); (split; [cbn; lia |]); cbn; rewrite Hm; exact Hown.
Qed.

(** The object once the section and the index have been cut. *)
Lemma shrink_ok b cs K b1 :
  btf_ok b -> types_ok b cs -> Forall (type_ok (btf_layout_of b)) K -> Forall is_u32 (mjoin K) -> zlen K <= nr_types b ->
  moving b1 K [] (type_cnt b) ->
  (exists data offs, b1 = set_types b data (types_data_cap b) offs (type_offs_cap b) (nr_types b)) ->
  let b2 := shrink_types (4 * zlen (mjoin K)) (start_id b + zlen K) b1 in
  (types_ok b2 K /\ btf_ok b2) /\ (types_ok (update_sections b2) K /\ btf_ok (update_sections b2)).
Proof.
  intros Hok Hcs Hall Hu Hle (J & JO & Hd & Ho & _) (data & offs & ->) b2.
  cbn [types_data type_offs set_types] in Hd, Ho.
  destruct (btf_ok_unfold b Hok) as (_ & Hstr & H1 & H2 & Hbase). pose proof (zlen_nonneg K) as HK0.
  assert (Ht2 : types_ok b2 K).
  { split; cbn [b2 shrink_types types_data type_offs nr_types hdr set_types set_hdr start_id type_len].
    - rewrite Z.mul_comm, Z.div_mul by lia. rewrite Hd. unfold ztake, zlen. by rewrite Nat2Z.id, take_app_length.
    - replace (start_id b + zlen K - start_id b) with (zlen (offsets 0 K)) by (rewrite zlen_offsets; lia).
      rewrite Ho. unfold ztake, zlen. by rewrite Nat2Z.id, take_app_length.
    - lia.
    - exact Hall.
    - rewrite Z.mul_comm, Z.div_mul by lia. rewrite Hd. unfold ztake, zlen. rewrite Nat2Z.id, take_app_length. lia.
    - apply Hcs.
    - rewrite Z.mul_comm, Z.div_mul by lia. rewrite Hd. unfold ztake, zlen. by rewrite Nat2Z.id, take_app_length. }
  assert (Ht3 : types_ok (update_sections b2) K) by (destruct Ht2; split; assumption).
  pose proof (types_count _ _ Ht2) as Hnr.
  assert (Hlt : start_id b2 + nr_types b2 < 2 ^ 32) by (rewrite Hnr; change (start_id b2) with (start_id b); lia).
  split; (split; [assumption |]); eapply btf_ok_intro; (eassumption || idtac).
Qed.

(** The identifiers after the loop. *)
Lemma renumbered_ids m h h' start cnt :
  0 < start -> zlen m = cnt -> (forall y, 0 <= y < start -> znth h y = Some y) ->
  renumbered m h h' start start (Z.to_nat (cnt - start)) ->
  forall x, self m x -> znth h' x = Some (new_id m start x).
Proof.
  intros H0 Hm Hlow [_ Hr] x Hx. rewrite Hr. unfold new_id.
  assert (Hxr : 0 <= x < cnt) by (unfold self in Hx; apply znth_Some in Hx; lia).
  destruct (decide (start <= x < start + Z.of_nat (Z.to_nat (cnt - start)) /\ self m x)) as [[H1 _]|Hn].
  - by replace (x <? start) with false by lia.
  - destruct (decide (x < start)) as [Hlt|Hge]; [replace (x <? start) with true by lia; apply Hlow; lia |].
    destruct Hn. split; [lia | done].
Qed.

Lemma btf_dedup_compact_types_ok d cs :
  dedup_btf (d_btf d) -> types_ok (d_btf d) cs ->
  zlen (d_map d) = type_cnt (d_btf d) -> zlen (hypot_map d) = type_cnt (d_btf d) ->
  wp btf_dedup_compact_types (fun r d' => compacted d cs d' /\ (r = 0 \/ r = - ENOMEM)) d.
Proof.
  intros Hb Hcs Hlm Hlh. pose proof (db_start Hb) as [Hs Hn]. pose proof (db_cnt _ Hb) as Hcnt. pose proof (types_count _ _ Hcs) as Hnr.
  destruct (init_remap_ok (d_btf d) (hypot_map d) Hb Hlh) as (h & Hh & Hlen & Hlow).
  unfold wp, btf_dedup_compact_types. rewrite Hh. cbn [mbind option_bind].
  set (d1 := set_hypot d h (hypot_list d) (hypot_adjust_canon d)). change (d_btf d1) with (d_btf d).
  set (K := kept_from (d_map d) (start_id (d_btf d)) cs).
  assert (Hlc : length cs = Z.to_nat (nr_types (d_btf d))) by (unfold zlen in Hnr; lia). rewrite <- Hlc.
  destruct (compact_loop_ok (type_cnt (d_btf d)) Hcnt cs d1 (start_id (d_btf d)) []) as (r & d2 & Hrun & data & offs & hyp & -> & -> & Hmv & Hren).
  - split; cbn [d_btf d_map hypot_map d1 set_hypot]; [lia | done | done | congruence].
  - by apply moving_start.
  - apply Hcs.
  - done.
  - unfold type_cnt. lia.
  - change (mjoin [] : list Z) with (@nil Z) in Hrun. change (zlen (@nil Z)) with 0 in Hrun. change (zlen (@nil (list Z))) with 0 in *.
    rewrite Z.mul_0_r in Hrun. change (d_btf d1) with (d_btf d) in *. change (d_map d1) with (d_map d) in *. cbn [app] in *. fold K in Hrun, Hmv.
    rewrite Z.add_0_r in *. unfold bind at 1. rewrite Hrun.
    assert (HKl : zlen K <= nr_types (d_btf d)).
    { unfold K. rewrite kept_from_len. pose proof (kept_cnt_range (d_map d) (start_id (d_btf d)) (length cs)). unfold zlen in Hnr. lia. }
    destruct (shrink_ok (d_btf d) cs K (d_btf (set_moved d1 data offs hyp)) (db_ok _ Hb) Hcs) as [[T2 O2] [T3 O3]].
    { apply kept_from_Forall, Hcs. }
    { apply Forall_chunks, kept_from_Forall, Forall_chunks. rewrite <- (types_words _ _ Hcs). apply Hcs. }
    { done. }
    { done. }
    { by exists data, offs. }
    cbn [Z.ltb Z.compare]. unfold bind at 1, modify at 1. cbn [d_btf set_d_btf].
    destruct (alloc_array _ _ _) as [ok o].
    assert (Hids : forall x, self (d_map d) x -> znth hyp x = Some (new_id (d_map d) (start_id (d_btf d)) x)).
    { intros x Hx. apply (renumbered_ids (d_map d) h hyp (start_id (d_btf d)) (type_cnt (d_btf d))); try done; [lia |].
      replace (Z.to_nat (type_cnt (d_btf d) - start_id (d_btf d))) with (length cs) by (unfold type_cnt; lia). exact Hren. }
    assert (Hhl : zlen hyp = type_cnt (d_btf d)) by (destruct Hren as [-> _]; cbn; congruence).
    assert (Hrep : rep_ok (d_btf d) -> modifiable (d_btf d) = true -> rep_ok (shrink_types (4 * zlen (mjoin K)) (start_id (d_btf d) + zlen K)
      (d_btf (set_moved d1 data offs hyp))) /\ rep_ok (update_sections (shrink_types (4 * zlen (mjoin K)) (start_id (d_btf d) + zlen K)
      (d_btf (set_moved d1 data offs hyp))))).
    { intros Hr Hm. apply (shrink_rep (d_btf d)); [done | | by exists data, offs | done]. rewrite (types_len _ _ Hcs), (types_words _ _ Hcs).
      pose proof (kept_from_words (d_map d) (start_id (d_btf d)) cs). fold K in H. lia. }
    destruct (_ && _); (eexists _, _; split; [reflexivity |]; split; [split |]; try done;
      first [by left | by right | (intros Hr Hm; exact (proj1 (Hrep Hr Hm))) | intros Hr Hm; exact (proj2 (Hrep Hr Hm))]).
Qed.

(** ** The types afterwards *)
Lemma new_id_range m start x : 0 < start -> 0 <= x -> 0 <= new_id m start x <= x.
Proof.
  intros Hs Hx. unfold new_id. case_if; [lia |]. pose proof (kept_cnt_range m start (Z.to_nat (x - start))). lia.
Qed.

Section After.
Context {d d' : btf_dedup} {cs : list (list Z)} (Hb : dedup_btf (d_btf d)) (Hcs : types_ok (d_btf d) cs)
  (Hc : compacted d cs d').

(** A type that was kept has its words under its new identifier. *)
Lemma compacted_type x t :
  self (d_map d) x -> 0 <= x -> btf_type_by_id (d_btf d) x = Some t ->
  exists t', btf_type_by_id (d_btf d') (new_id (d_map d) (start_id (d_btf d)) x) = Some t' /\ own_words t' = own_words t.
Proof.
  intros Hs Hx Ht. pose proof (db_start Hb) as [H1 _]. pose proof (btf_type_by_id_range _ _ _ (db_ok _ Hb) Ht) as Hr. unfold new_id.
  destruct (x <? (start_id (d_btf d))) eqn:Hlt.
  - exists t. split; [|done]. rewrite btf_type_by_id_eq in Ht |- *. rewrite (cp_start _ _ _ Hc), (cp_base _ _ _ Hc).
    destruct (x =? 0); [done |].  by rewrite Hlt in Ht |- *.
  - unfold type_cnt in Hr.
    destruct (types_ok_lookup _ _ x Hcs) as (c & u & rest & Hcx & Hu & Hsz & Hby); [lia.. |].
    pose proof (kept_from_lookup (d_map d) (start_id (d_btf d)) cs (Z.to_nat (x - (start_id (d_btf d)))) c Hcx) as Hk.
    replace ((start_id (d_btf d)) + Z.of_nat (Z.to_nat (x - (start_id (d_btf d))))) with x in Hk by lia. specialize (Hk Hs).
    pose proof (kept_cnt_range (d_map d) (start_id (d_btf d)) (Z.to_nat (x - (start_id (d_btf d))))) as Hkr. set (n := kept_cnt _ _ _) in *.
    pose proof (cp_types _ _ _ Hc) as Hcs'. pose proof (types_count _ _ Hcs') as Hnr. apply lookup_lt_Some in Hk as Hkl.
    destruct (types_ok_lookup _ _ ((start_id (d_btf d)) + n) Hcs') as (c' & u' & rest' & Hcx' & Hu' & Hsz' & Hby');
      [rewrite (cp_start _ _ _ Hc); lia | rewrite (cp_start _ _ _ Hc), Hnr; unfold zlen; lia |].
    rewrite (cp_start _ _ _ Hc) in Hcx'.  replace ((start_id (d_btf d)) + n - (start_id (d_btf d))) with n in Hcx' by lia.
    rewrite Hk in Hcx'. injection Hcx' as <-. rewrite Hu in Hu'. injection Hu' as <-. eexists. split; [exact Hby' |].
    rewrite Hby in Ht. injection Ht as <-.
    destruct (own_words_chunk _ u c rest' Hu Hsz') as [-> _]. by destruct (own_words_chunk _ u c rest Hu Hsz) as [-> _].
Qed.

(** Every type is one that was kept. *)
Lemma compacted_inv y :
  0 <= y < type_cnt (d_btf d') -> y < (start_id (d_btf d)) \/
  exists x, (start_id (d_btf d)) <= x < type_cnt (d_btf d) /\ self (d_map d) x /\ new_id (d_map d) (start_id (d_btf d)) x = y.
Proof.
  intros Hy. destruct (decide (y < (start_id (d_btf d)))) as [|Hge]; [by left | right].
  pose proof (types_count _ _ (cp_types _ _ _ Hc)) as Hnr. pose proof (types_count _ _ Hcs) as Hnr0. unfold type_cnt in *. rewrite (cp_start _ _ _ Hc) in *.
  destruct (lookup_lt_is_Some_2 (kept_from (d_map d) (start_id (d_btf d)) cs) (Z.to_nat (y - (start_id (d_btf d))))) as [c Hlk]; [unfold zlen in Hnr; lia |].
  destruct (kept_from_inv _ _ _ _ _ Hlk) as (i & Hi & Hs & Hk). apply lookup_lt_Some in Hi. exists ((start_id (d_btf d)) + Z.of_nat i).
  split; [unfold zlen in Hnr0; lia |]. split; [done |]. unfold new_id. replace (_ <? (start_id (d_btf d))) with false by lia.
  replace (Z.to_nat ((start_id (d_btf d)) + Z.of_nat i - (start_id (d_btf d)))) with i by lia. lia.
Qed.

Lemma compacted_cnt : type_cnt (d_btf d') <= type_cnt (d_btf d).
Proof.
  pose proof (types_count _ _ (cp_types _ _ _ Hc)) as Hnr. pose proof (types_count _ _ Hcs) as Hnr0. rewrite kept_from_len in Hnr.
  pose proof (kept_cnt_range (d_map d) (start_id (d_btf d)) (length cs)). unfold type_cnt. rewrite (cp_start _ _ _ Hc). unfold zlen in Hnr0. lia.
Qed.

(** The new identifiers are those of the types afterwards. *)
Lemma new_id_cnt x : self (d_map d) x -> 0 <= x < type_cnt (d_btf d) -> 0 <= new_id (d_map d) (start_id (d_btf d)) x < type_cnt (d_btf d').
Proof.
  intros Hs Hx. destruct (db_type Hb x Hx) as (t & Ht & _). destruct (compacted_type x t Hs ltac:(lia) Ht) as (t' & Ht' & _).
  by eapply btf_type_by_id_range; [apply Hc |].
Qed.
End After.

(** ** Renumbering *)
Section Remap.
Context (m h : list Z) (start : Z) (Hstart : 0 < start) (Hm : zlen m <= BTF_MAX_NR_TYPES)
  (Hroot : forall w, 0 <= w < zlen m -> exists r, canon m w r)
  (Hids : forall x, self m x -> znth h x = Some (new_id m start x)).

Definition remap_step (d d' : btf_dedup) : Prop :=
  d_map d' = d_map d /\ hypot_map d' = hypot_map d /\ types_only (d_btf d) (d_btf d').

Record remap_inv (d : btf_dedup) : Prop := {
  ri_ok : btf_ok (d_btf d);
  ri_map : d_map d = m;
  ri_ids : hypot_map d = h
}.

(** The new identifier of the representative. *)
Definition remap_rel (w w' : Z) : Prop := exists r, canon m w r /\ w' = new_id m start r.

Lemma remap_rel_range w w' : remap_rel w w' -> 0 <= w' < zlen m.
Proof.
  intros (r & Hc & ->). destruct Hc as [_ Hs]. apply znth_Some in Hs as Hr.
  pose proof (new_id_range m start r Hstart ltac:(lia)). lia.
Qed.

Lemma remap_field_ok d x t off w :
  remap_inv d -> start_id (d_btf d) <= x -> btf_type_by_id (d_btf d) x = Some t ->
  off ∈ kind_fields BTF_FIELD_ITER_IDS (btf_kind t) (btf_vlen t) -> type_word t off = Some w -> 0 <= w < zlen m ->
  wp (remap_field x off) (field_post remap_step remap_inv (fun _ => remap_rel) (fun _ => False) d x off w) d.
Proof.
  intros [Hok Hmap Hh] Hown Ht Hoff Hw Hwr. unfold remap_field. destruct (Hroot w Hwr) as (r & Hres & Hself).
  apply wp_bind, (wp_field_at d x t off w); [done..|]. apply wp_bind, (wp_resolve w r); [by rewrite Hmap |].
  apply wp_bind, (wp_hypot_at d r (new_id m start r)); [rewrite Hh; by apply Hids |].
  assert (Hrel : remap_rel w (new_id m start r)) by (exists r; split; [by split | done]).
  pose proof (remap_rel_range _ _ Hrel) as Hnr. replace (BTF_MAX_NR_TYPES <? _) with false by lia.
  destruct (field_word _ x t BTF_FIELD_ITER_IDS off Hok Ht Hoff) as (Hr & Hmod & Hne & _).
  destruct (set_word_spec (d_btf d) x off (new_id m start r) t Hok Hown Ht Hr Hmod Hne) as (b' & Hset & Hb' & Hws).
  { unfold is_u32, BTF_MAX_NR_TYPES in *. lia. }
  apply wp_bind. eapply wp_word_set; [exact Hset |]. apply wp_ret. split; [split_and!; [done | done | apply Hws] |].
  split; [by split |]. left. split; [done |]. exists (new_id m start r). split; [done |]. by apply words_set_at.
Qed.

Lemma btf_dedup_remap_types_ok d :
  remap_inv d ->
  (forall x t off w, start_id (d_btf d) <= x -> btf_type_by_id (d_btf d) x = Some t ->
     off ∈ id_fields (btf_kind t) (btf_vlen t) -> type_word t off = Some w -> 0 <= w < zlen m) ->
  wp btf_dedup_remap_types (fun r d' =>
    (r = 0 /\ pass_done BTF_FIELD_ITER_IDS remap_step remap_inv (fun _ => remap_rel) d (type_cnt (d_btf d)) d') \/
    (r = - EINVAL /\ remap_step d d' /\ remap_inv d')) d.
Proof.
  intros Hinv Hval. unfold btf_dedup_remap_types.
  eapply wp_mono; [apply (fields_pass_ok BTF_FIELD_ITER_IDS remap_field remap_step remap_inv (fun w => 0 <= w < zlen m)
    (fun _ => remap_rel) (fun _ => False)) |]; try done.
  - intros d1. split_and!; [done.. | apply types_only_refl].
  - intros d1 d2 d3 (H1 & H2 & H3) (H4 & H5 & H6). split_and!; [congruence.. | by eapply types_only_trans].
  - by intros d1 [].
  - apply remap_field_ok.
  - cbn beta. intros r d' [Hd|[[[]|Hr] [H1 H2]]]; auto.
Qed.
End Remap.
