(* ===== verification/DedupStrings.v ===== *)
(** * DedupStrings: deduplication of strings

    [btf_dedup_strings] of [Dedup]: the strings the types refer to are collected in a new
    set, in which each of them is once, and the offsets in the types are replaced.  Strings
    that the base has are looked up there. *)
From S2P Require Import Prelude Hashmap Mem Strset BtfTypes Btf BtfFind BtfParse BtfRaw BtfWrite BtfBuild DedupTypes Dedup DedupState DedupWrite DedupFields DedupRef.
Open Scope Z_scope.
Open Scope dedup_scope.

#[local] Opaque kind_of_Z.

(** ** Strings of an object *)
Lemma string_bytes b off s :
  btf_ok b -> start_str_off b + str_len (hdr b) <= INT_MAX -> string_at b off s -> str_arg s.
Proof.
  revert off. induction b as [b IH] using btf_chain_ind. intros off Hok Hmax (p & Hp & Hs).
  pose proof (btf_ok_unfold b Hok) as (_ & (Hz & _ & Hby & Hso) & _ & _ & Hb). rewrite btf__str_by_offset_eq in Hp.
  destruct (off <? start_str_off b) eqn:Hlt.
  - destruct (base_btf b) as [base|] eqn:Hbase; [|done]. destruct Hb as (Hbok & _ & Hso').
    apply (IH base eq_refl off Hbok); [|by exists p]. pose proof (zlen_nonneg (btf_strs_data b)). lia.
  - destruct (_ <? str_len (hdr b)); [|done]. injection Hp as <-. split.
    + assert (Hpos : pos_str s) by (eapply cstr_pos; [apply zdrop_Forall; exact Hby | exact Hs]).
      unfold pos_str in Hpos. pose proof Hs as [l' Hl]%cstr_split.
      assert (Hbs : Forall is_byte (s ++ 0 :: l')) by (rewrite <- Hl; by apply zdrop_Forall).
      apply Forall_app in Hbs as [Hbs _]. rewrite Forall_forall in *. intros c Hc.
      specialize (Hpos c Hc). specialize (Hbs c Hc). unfold is_byte in Hbs. lia.
    + apply cstr_length in Hs. unfold zdrop in Hs. rewrite length_drop in Hs. unfold zlen in *. lia.
Qed.

Section Strings.
Context (b0 : btf) (Hdb : dedup_btf b0) (Hrep0 : rep_ok b0) (Hmod : modifiable b0 = true)
  (Hmax : start_str_off b0 + str_len (hdr b0) <= INT_MAX)
  (Hfirst : base_btf b0 = None -> string_at b0 0 []) (Hbase0 : forall base, base_btf b0 = Some base -> 0 < start_str_off b0).

(** The new set holds [s] at [off]. *)
Definition found (d : btf_dedup) (s : list Z) (off : Z) : Prop :=
  exists set f, d_strs_set d = Some set /\ strset_repr set f /\ f s = Some off.

Lemma found_fun d s o1 o2 : found d s o1 -> found d s o2 -> o1 = o2.
Proof.
  intros (set & f & Hs & Hr & Hf) (set' & f' & Hs' & Hr' & Hf'). rewrite Hs in Hs'. injection Hs' as <-.
  destruct (Hr) as (_ & _ & Hc & Hh). destruct (Hr') as (_ & _ & Hc' & Hh').
  assert (Hv : forall o f, strset_repr set f -> f s = Some o -> str_valid (Strset.strs_data set) o /\ cstr_at (Strset.strs_data set) o = Some s).
  { intros o g (Hd & _ & Hg & _) Ho. destruct (strset_data_split set Hd) as [Hsp _].
    assert (He : cstr_at (Strset.strs_data set) o = Some s) by (rewrite Hsp; by apply cstr_at_prefix, Hg).
    split; [by exists s | done]. }
  destruct (Hv o1 f Hr Hf) as [Hv1 Hc1]. destruct Hh as (_ & _ & Ha). destruct Hh' as (_ & _ & Ha').
  pose proof (Ha o1 Hv1) as E1. pose proof (Ha' o1 Hv1) as E2. rewrite E1 in E2. unfold str_amap in E2. rewrite Hc1, Hf, Hf' in E2.
  cbn in E2. congruence.
Qed.

(** The bytes of the new set. *)
Definition set_bytes (set : strset) : Prop :=
  (strset__data set = [] \/ last (strset__data set) = Some 0) /\ Forall is_byte (strset__data set).

Record strs_inv (d : btf_dedup) : Prop := {
  si_dedup : dedup_btf (d_btf d);
  si_rep : rep_ok (d_btf d);
  si_hdr : hdr (d_btf d) = hdr b0;
  si_off : start_str_off (d_btf d) = start_str_off b0;
  si_data : btf_strs_data (d_btf d) = btf_strs_data b0;
  si_base : opt_view (base_btf b0) (base_btf (d_btf d));
  si_mod : modifiable (d_btf d) = true;
  si_set : exists set f, d_strs_set d = Some set /\ strset_repr set f /\ set_bytes set;
  si_empty : base_btf b0 = None -> found d [] 0
}.

Record strs_step (d d' : btf_dedup) : Prop := {
  ts_map : d_map d' = d_map d;
  ts_table : dedup_table d' = dedup_table d;
  ts_hypot : hypot_map d' = hypot_map d;
  ts_list : hypot_list d' = hypot_list d;
  ts_found : forall s off, found d s off -> found d' s off
}.

Lemma strs_step_refl d : strs_step d d.
Proof. by split. Qed.

Lemma strs_step_trans d1 d2 d3 : strs_step d1 d2 -> strs_step d2 d3 -> strs_step d1 d3.
Proof. intros [] []. split; [congruence.. | auto]. Qed.

(** The string a field denotes, before and after. *)
Definition str_rel (d : btf_dedup) (w w' : Z) : Prop :=
  exists s, string_at b0 w s /\
    ((0 <= w' < start_str_off b0 /\ exists base, base_btf b0 = Some base /\ string_at base w' s) \/
     (start_str_off b0 <= w' < 2 ^ 32 /\ found d s (w' - start_str_off b0))).

Lemma str_rel_step d d' w w' : strs_step d d' -> str_rel d w w' -> str_rel d' w w'.
Proof.
  intros Hs (s & Hw & [H|[Hr Hf]]); exists s; (split; [done |]); [by left | right]. split; [done |]. by apply Hs.
Qed.

Lemma inv_string d off s : strs_inv d -> string_at (d_btf d) off s <-> string_at b0 off s.
Proof.
  intros [_ _ Hh Ho Hd Hb _ _ _]. unfold string_at. rewrite !btf__str_by_offset_eq, Hh, Ho, Hd.
  destruct (off <? start_str_off b0); [|done]. unfold opt_view in Hb.
  destruct (base_btf b0) as [base|], (base_btf (d_btf d)) as [base'|]; try done. by rewrite (same_view_str base base' off Hb).
Qed.

(** A value that is kept. *)
Lemma str_kept d w s :
  strs_inv d -> is_u32 w -> string_at b0 w s -> w = 0 \/ w < start_str_off b0 -> str_rel d w w.
Proof.
  intros Hinv Hw Hs Hk. exists s. split; [done |]. pose proof (btf_ok_unfold _ (db_ok _ Hdb)) as (_ & _ & _ & _ & Hb).
  destruct (base_btf b0) as [base|] eqn:Hbase.
  - left. pose proof (Hbase0 base eq_refl). unfold is_u32 in Hw. split; [lia |]. exists base. split; [done |].
    destruct Hs as (p & Hp & Hc). exists p. split; [|done]. rewrite <- Hp. symmetry. apply str_by_offset_base; [done | lia].
  - destruct Hb as [_ Hso]. assert (w = 0) as -> by (unfold is_u32 in Hw; lia). right. rewrite Hso. split; [lia |].
    destruct (Hfirst eq_refl) as (p & Hp & Hc). destruct Hs as (p' & Hp' & Hc'). rewrite Hp in Hp'. injection Hp' as <-.
    rewrite Hc in Hc'. injection Hc' as <-. by apply (si_empty _ Hinv).
Qed.

(** ** What the pass does to the state *)
Lemma dedup_same_view b b' : same_view b b' -> dedup_btf b -> dedup_btf b'.
Proof.
  intros V [Hok Hc Hi]. assert (Hcnt : type_cnt b' = type_cnt b).
  { unfold type_cnt. apply same_view_unfold in V as [[] _]. congruence. }
  split; [by eapply same_view_ok | by rewrite Hcnt |]. intros id t off w Ht. rewrite Hcnt.
  rewrite (same_view_type b b' id V) in Ht. exact (Hi id t off w Ht).
Qed.

Lemma found_other d d' s off : d_strs_set d' = d_strs_set d -> found d s off -> found d' s off.
Proof. intros He (set & f & Hs & Hr). exists set, f. by rewrite He. Qed.

(** A string offset in a type is written. *)
Lemma strs_write d x t off v :
  strs_inv d -> start_id (d_btf d) <= x -> btf_type_by_id (d_btf d) x = Some t ->
  off ∈ str_fields (btf_kind t) (btf_vlen t) -> is_u32 v ->
  exists b', btf_set_word (d_btf d) x off v = Some b' /\ words_set (d_btf d) b' x (off / 4) v /\
    strs_inv (set_d_btf d b') /\ strs_step d (set_d_btf d b').
Proof.
  intros [Hd Hr Hh Ho Hs Hb Hm Hset He] Hown Ht Hoff Hv.
  destruct (field_word _ x t BTF_FIELD_ITER_STRS off (db_ok _ Hd) Ht Hoff) as (Hrg & Hmod4 & Hne & _).
  destruct (set_word_spec (d_btf d) x off v t (db_ok _ Hd) Hown Ht Hrg Hmod4 Hne Hv) as (b' & Hw & Hok' & Hws).
  exists b'. split_and!; [done | done | |].
  - destruct (words_set_frame Hws) as (_ & _ & _ & W4 & W5 & W6 & W7 & _ & _ & _ & W11).
    split; cbn [d_btf d_strs_set set_d_btf]; try congruence; try done.
    + eapply words_set_dedup; [exact Hd | done | exact Hws | lia | done | done |]. intros t' Ht' Hin.
      rewrite Ht in Ht'. injection Ht' as <-. by destruct (fields_disjoint _ _ _ Hin Hoff).
    + destruct Hws as [[ws ->] _]. apply rep_ok_unfold. apply rep_ok_unfold in Hr as [Hown' Hbr]. split; [exact Hown' | exact Hbr].
  - split; cbn [d_map dedup_table hypot_map hypot_list set_d_btf]; try reflexivity. intros s o. by apply found_other.
Qed.

(** The base is searched, which may make it modifiable. *)
Lemma strs_search_base d base base' o :
  strs_inv d -> base_btf (d_btf d) = Some base -> same_view base base' -> rep_ok base' ->
  let d' := set_strs_state d (set_base (d_btf d) (Some base')) (d_strs_set d) o in
  strs_inv d' /\ strs_step d d' /\ same_view (d_btf d) (d_btf d').
Proof.
  intros [Hd Hr Hh Ho Hs Hb Hm Hset He] Hbase V Hrb d'. pose proof (set_base_view (d_btf d) base base' Hbase V) as VV.
  split_and!; [split| |done]; cbn [d_btf d_strs_set d' set_strs_state set_base hdr start_str_off base_btf modifiable]; try done.
  - by eapply dedup_same_view.
  - by apply set_base_rep.
  - rewrite Hbase in Hb. by eapply opt_view_trans.
Qed.

(** The new set grows. *)
Lemma strs_add d s o :
  strs_inv d -> str_arg s ->
  exists set r set' o', d_strs_set d = Some set /\ strset__add_str set (PtrExt s) true o = Some (r, set', o') /\
    let d' := set_strs_state d (d_btf d) (Some set') o' in
    strs_inv d' /\ strs_step d d' /\ ((0 <= r <= INT_MAX /\ found d' s r) \/ r = - ENOMEM).
Proof.
  intros Hinv Hs. destruct (si_set _ Hinv) as (set & f & Hset & Hr & [Hlast Hby]).
  destruct (strset_add_str_ok set f (PtrExt s) s true o Hr (str_arg_denotes set s Hs)) as (r & set' & o' & Hadd & Hcase).
  exists set, r, set', o'. split_and!; [done.. |]. intros d'.
  assert (Hres : exists f', strset_repr set' f' /\ set_bytes set' /\ (forall s' off, f s' = Some off -> f' s' = Some off) /\
    ((0 <= r <= INT_MAX /\ f' s = Some r) \/ r = - ENOMEM)).
  { destruct (f s) as [off|] eqn:Hf.
    - destruct Hcase as (Hr' & Hd' & Hrr). exists f. split_and!; [done | by unfold set_bytes; rewrite Hd' | done |].
      destruct Hrr as [->|[-> _]]; [left | by right]. split; [|done]. pose proof (repr_off_range set f s off Hr Hf).
      pose proof (repr_len_int set f Hr). lia.
    - destruct Hcase as [(-> & Hr' & Hd')|(-> & Hr' & Hd' & _)].
      + exists (str_add f s (strs_data_len set)). split_and!; [done | | |].
        * unfold set_bytes. rewrite Hd'. split; [right; by rewrite app_assoc, last_snoc |]. apply Forall_app. split; [done |]. by apply str_arg_bytes.
        * intros s' off Hs'. unfold str_add. rewrite decide_False; [done |]. intros ->. congruence.
        * left. split; [by apply (repr_len_int set f) |]. unfold str_add. by rewrite decide_True.
      + exists f. split_and!; [done | by unfold set_bytes; rewrite Hd' | done | by right]. }
  destruct Hres as (f' & Hr' & Hb' & Hext & Hout).
  assert (Hfound : forall s' off, found d s' off -> found d' s' off).
  { intros s' off (set2 & f2 & H1 & H2 & H3). exists set', f'. split_and!; [done..|].
    assert (Hf : found d s' off) by (by exists set2, f2). destruct (f s') as [off'|] eqn:Hfs.
    - rewrite (found_fun d s' off off'); [by apply Hext | done | by exists set, f].
    - exfalso. rewrite Hset in H1. injection H1 as <-. destruct H2 as (Hd2 & _ & Hc2 & Hh2). destruct (strset_data_split set Hd2) as [Hsp _].
      assert (Hc : cstr_at (Strset.strs_data set) off = Some s') by (rewrite Hsp; by apply cstr_at_prefix, Hc2).
      assert (Hv : str_valid (Strset.strs_data set) off) by (by exists s'). destruct Hr as (_ & _ & _ & (_ & _ & Ha)). destruct Hh2 as (_ & _ & Ha2).
      pose proof (Ha off Hv) as E1. pose proof (Ha2 off Hv) as E2. rewrite E1 in E2. unfold str_amap in E2. rewrite Hc, Hfs, H3 in E2. done. }
  split_and!; [| |destruct Hout as [[? ?]|?]; [left; split; [done | by exists set', f'] | by right]].
  - destruct Hinv as [Hd1 Hr1 Hh1 Ho1 Hs1 Hb1 Hm1 Hset1 He1]. split; cbn [d_btf set_strs_state d']; try done; [by exists set', f' |].
    intros Hn. by apply Hfound, He1.
  - by split.
Qed.

(** ** One offset *)
Definition strs_err (r : Z) : Prop := r = - ENOMEM \/ r = - EOPNOTSUPP.

(** The value [v] is written, which denotes the string. *)
Lemma strs_write_field d d1 x t off w v :
  strs_inv d1 -> strs_step d d1 -> start_id (d_btf d) <= x -> btf_type_by_id (d_btf d) x = Some t -> same_view (d_btf d) (d_btf d1) ->
  off ∈ str_fields (btf_kind t) (btf_vlen t) -> is_u32 v -> str_rel d1 w v ->
  wp (do* word_set x off v in ret 0) (field_post strs_step strs_inv str_rel strs_err d x off w) d1.
Proof.
  intros Hinv Hst Hown Ht V Hoff Hv Hrel. pose proof (same_view_type _ _ x V) as Ht1. rewrite Ht in Ht1.
  assert (Hs1 : start_id (d_btf d1) = start_id (d_btf d)) by (apply same_view_unfold in V as [[] _]; done).
  destruct (strs_write d1 x t off v Hinv ltac:(lia) Ht1 Hoff Hv) as (b' & Hset & Hws & Hinv' & Hst').
  apply wp_bind. eapply wp_word_set; [exact Hset |]. apply wp_ret. split; [by eapply strs_step_trans |]. split; [done |]. left.
  split; [done |]. exists v. split; [by eapply str_rel_step |]. destruct (words_set_at _ _ _ _ _ Hws) as [A1 A2 A3].
  split; cbn [d_btf set_d_btf]; [congruence | |].
  - rewrite A2. unfold type_cnt. apply same_view_unfold in V as [[] _]. congruence.
  - intros y u Hu. apply A3. by rewrite (same_view_type _ _ y V).
Qed.

(** The search in the base, if there is one. *)
Lemma wp_search_base d s :
  strs_inv d -> str_arg s ->
  wp (fun d : btf_dedup =>
      match base_btf (d_btf d) with
      | None => Some (- ENOENT, d)
      | Some base =>
          '(err, base, o) ← btf__find_str base s (d_oracle d);
          Some (err, set_strs_state d (set_base (d_btf d) (Some base)) (d_strs_set d) o)
      end)
    (fun r d' => strs_inv d' /\ strs_step d d' /\ same_view (d_btf d) (d_btf d') /\
      ((0 <= r < start_str_off b0 /\ exists base, base_btf b0 = Some base /\ string_at base r s) \/ r = - ENOENT \/ strs_err r)) d.
Proof.
  intros Hinv Hs. unfold wp. destruct (base_btf (d_btf d)) as [base'|] eqn:Hb'.
  2:{ eexists _, _. split; [reflexivity |]. split_and!; [done | apply strs_step_refl | apply same_view_refl | by right; left]. }
  pose proof (btf_ok_unfold _ (db_ok _ (si_dedup _ Hinv))) as (_ & (_ & _ & _ & Hso) & _ & _ & Hbase). rewrite Hb' in Hbase.
  destruct Hbase as (Hbok & _ & Hoff). pose proof (si_rep _ Hinv) as [_ Hbrep]%rep_ok_unfold.
  destruct (btf_find_str_ok base' s (d_oracle d) Hbok (Hbrep base' Hb') ltac:(lia) Hs) as (r & base2 & o & Hrun & V & Hrep2 & Hres).
  rewrite Hrun. cbn [mbind option_bind]. eexists _, _. split; [reflexivity |].
  destruct (strs_search_base d base' base2 o Hinv Hb' V Hrep2) as (H1 & H2 & H3). split_and!; [done.. |].
  destruct Hres as [[Hr Hat]|[->|[-> | ->]]]; [left | auto.. | right; right; by left | right; right; by right].
  destruct Hat as (p & Hp & Hc). unfold INT_MAX in *. pose proof (str_by_offset_range base' r p Hbok ltac:(lia) Hp) as Hrange.
  rewrite <- (si_off _ Hinv). split; [lia |]. pose proof (si_base _ Hinv) as Hview. rewrite Hb' in Hview. unfold opt_view in Hview.
  destruct (base_btf b0) as [base|]; [|done]. exists base. split; [done |].
  apply (same_view_string_at base base'); [done |]. by exists p.
Qed.

Lemma wp_add_new d s :
  strs_inv d -> str_arg s ->
  wp (fun d : btf_dedup =>
      set ← d_strs_set d;
      '(r, set, o) ← strset__add_str set (PtrExt s) true (d_oracle d);
      Some (r, set_strs_state d (d_btf d) (Some set) o))
    (fun r d' => strs_inv d' /\ strs_step d d' /\ d_btf d' = d_btf d /\ ((0 <= r <= INT_MAX /\ found d' s r) \/ r = - ENOMEM)) d.
Proof.
  intros Hinv Hs. destruct (strs_add d s (d_oracle d) Hinv Hs) as (set & r & set' & o' & Hset & Hadd & H1 & H2 & H3).
  unfold wp. rewrite Hset. cbn [mbind option_bind]. rewrite Hadd. cbn [mbind option_bind]. eexists _, _. by split.
Qed.

Lemma strs_field_ok d x t off w :
  strs_inv d -> start_id (d_btf d) <= x -> btf_type_by_id (d_btf d) x = Some t ->
  off ∈ kind_fields BTF_FIELD_ITER_STRS (btf_kind t) (btf_vlen t) -> type_word t off = Some w -> (exists s, string_at b0 w s) ->
  wp (strs_dedup_remap_str_off x off) (field_post strs_step strs_inv str_rel strs_err d x off w) d.
Proof.
  intros Hinv Hown Ht Hoff Hw (s & Hs). unfold strs_dedup_remap_str_off.
  pose proof (db_ok _ (si_dedup _ Hinv)) as Hok.
  destruct (field_word _ x t BTF_FIELD_ITER_STRS off Hok Ht Hoff) as (_ & _ & _ & w0 & Hw0 & Hu & Hz). rewrite Hw in Hw0. injection Hw0 as <-.
  apply wp_bind, (wp_field_at d x t off w); [done..|]. apply wp_bind, (wp_read _ (start_str_off b0)); [by rewrite (si_off _ Hinv) |].
  destruct ((w =? 0) || (w <? start_str_off b0)) eqn:Hkeep.
  { apply wp_ret. split; [apply strs_step_refl |]. split; [done |]. left. split; [done |]. exists w. split.
    - apply (str_kept d w s); [done.. | lia].
    - by eapply words_at_same. }
  pose proof (proj2 (inv_string d w s Hinv) Hs) as (p & Hp & Hc). apply wp_bind, (wp_read _ p); [done |]. apply wp_bind, (wp_lift _ s); [done |].
  pose proof (string_bytes b0 w s (db_ok _ Hdb) Hmax Hs) as Harg.
  apply wp_bind. eapply wp_mono; [by apply wp_search_base |]. cbn beta. intros r d1 (Hinv1 & Hst1 & V1 & Hcase).
  assert (Hu32 : forall v, 0 <= v -> v < 2 ^ 32 -> is_u32 v) by (by unfold is_u32).
  pose proof (btf_ok_unfold _ (db_ok _ Hdb)) as (_ & (_ & _ & _ & Hso) & _). unfold INT_MAX in Hso.
  destruct Hcase as [[Hr Hbase]|Hcase].
  { replace (0 <=? r) with true by lia. eapply strs_write_field; try done; [apply Hu32; lia |]. exists s. split; [done | by left]. }
  replace (0 <=? r) with false by (destruct Hcase as [->|[-> | ->]]; done).
  destruct (r =? - ENOENT) eqn:Hne; cbn [negb].
  2:{ apply wp_ret. split; [done |]. split; [done |]. right. destruct Hcase as [->|?]; done. }
  apply wp_bind. eapply wp_mono; [by apply wp_add_new |]. cbn beta. intros r2 d2 (Hinv2 & Hst2 & Hb2 & Hcase2).
  pose proof (strs_step_trans _ _ _ Hst1 Hst2) as Hst12. destruct Hcase2 as [[Hr2 Hf]| ->].
  - replace (r2 <? 0) with false by lia. unfold INT_MAX in Hr2. rewrite u32_small by lia.
    eapply strs_write_field; try done; [by rewrite Hb2 | apply Hu32; lia |]. exists s. split; [done |]. right. split; [lia |].
    by replace (start_str_off b0 + r2 - start_str_off b0) with r2 by lia.
  - cbn. apply wp_ret. split; [done |]. split; [done |]. right. by left.
Qed.

(** ** The new strings *)
Lemma install_ok d :
  strs_inv d ->
  exists d', install_strs d = Some d' /\
    d_map d' = d_map d /\ dedup_table d' = dedup_table d /\ hypot_map d' = hypot_map d /\ hypot_list d' = hypot_list d /\
    dedup_btf (d_btf d') /\ rep_ok (d_btf d') /\ modifiable (d_btf d') = true /\
    start_id (d_btf d') = start_id (d_btf d) /\ type_cnt (d_btf d') = type_cnt (d_btf d) /\
    opt_view (base_btf b0) (base_btf (d_btf d')) /\
    (forall id, btf_type_by_id (d_btf d') id = btf_type_by_id (d_btf d) id) /\
    forall w w', str_rel d w w' -> exists s, string_at b0 w s /\ string_at (d_btf d') w' s.
Proof.
  intros [Hd Hr Hh Ho Hs Hb Hm (set & f & Hset & Hrep & [Hlast Hby]) He]. unfold install_strs. rewrite Hset. cbn [mbind option_bind].
  eexists. split; [reflexivity |]. cbn [d_map dedup_table hypot_map hypot_list d_btf set_strs_state]. do 4 (split; [done |]).
  pose proof Hrep as (Hdims & _ & Hcs & _). destruct (strset_data_split set Hdims) as [_ Hlen]. pose proof (repr_len_int set f Hrep) as Hint.
  set (b := set_strs (d_btf d) set (u32 (strset__data_size set))). set (b' := Btf _ _ _ _ _ _ _ _ _ _ _ _ _ _ _ _ _ _ _ _ _).
  destruct (rep_ok_set _ Hr Hm) as (_ & _ & _ & _ & Hsd & _).
  assert (Hdata : btf_strs_data b' = strset__data set) by (unfold btf_strs_data; cbn; by rewrite Hsd).
  assert (Hsl : str_len (hdr b') = strs_data_len set).
  { cbn. unfold strset__data_size. unfold INT_MAX in Hint. by rewrite u32_small by lia. }
  destruct (btf_ok_unfold _ (db_ok _ Hd)) as ([cs Hcs'] & (_ & _ & _ & Hso) & H1 & H2 & Hbase).
  assert (Hok : btf_ok b').
  { apply (btf_ok_intro b' cs).
    - destruct Hcs' as [T1 T2 T3 T4 T5 T6 T7]. split; assumption.
    - split; [by rewrite Hdata, Hsl |]. rewrite Hdata, Hsl. split; [|split; [done | exact Hso]].
      destruct Hlast as [Hn|Hl]; [left; rewrite <- Hlen, Hn; done | by right].
    - exact H1.
    - exact H2.
    - exact Hbase. }
  assert (Hty : forall id, btf_type_by_id b' id = btf_type_by_id (d_btf d) id).
  { intros id. rewrite (btf_type_by_id_eq b'), (btf_type_by_id_eq (d_btf d)). done. }
  split_and!; try done.
  - split; [done | apply Hd |]. intros id t off w. rewrite Hty. apply Hd.
  - apply rep_ok_unfold. apply rep_ok_unfold in Hr as [[Hl Hown] Hbr]. split; [|exact Hbr]. split; [exact Hl |]. cbn [modifiable b'].
    change (modifiable b) with (modifiable (d_btf d)). rewrite Hm in *. destruct Hown as (Hc & _). split; [exact Hc |]. split; [exact Hsd |]. by exists set, f.
  - intros w w' (s & Hw & Hcase). exists s. split; [done |]. destruct Hcase as [(Hr' & base & Hbb & Hat)|[Hr' Hf]].
    + unfold opt_view in Hb. rewrite Hbb in Hb. destruct (base_btf (d_btf d)) as [base'|] eqn:Hb'; [|done].
      apply (base_string_at b' base'); [done | done | |by apply (same_view_string_at base base')].
      pose proof (btf_ok_unfold _ (db_ok _ Hdb)) as (_ & (_ & _ & _ & Hso0) & _). unfold INT_MAX in *. lia.
    + destruct Hf as (set2 & f2 & Hset2 & Hrep2 & Hf2). rewrite Hset in Hset2. injection Hset2 as <-.
      destruct Hrep2 as (_ & _ & Hc2 & _). specialize (Hc2 s _ Hf2). pose proof (cstr_at_range _ _ _ Hc2) as Hrange. pose proof (zlen_nonneg s).
      assert (Hso' : start_str_off b' = start_str_off b0) by exact Ho.
      exists (zdrop (w' - start_str_off b0) (strset__data set)). split; [|by unfold cstr_at in Hc2; case_if_in Hc2].
      rewrite btf__str_by_offset_eq, Hso', Hdata, Hsl. replace (w' <? _) with false by lia.
      pose proof (btf_ok_unfold _ (db_ok _ Hdb)) as (_ & (_ & _ & _ & Hso0) & _). rewrite u32_small by lia.
      by replace (_ <? strs_data_len set) with true by lia.
Qed.

(** ** The pass *)

(** The offsets [w] before and [w'] after denote the same string. *)
Definition same_string (b b' : btf) (w w' : Z) : Prop := exists s, string_at b w s /\ string_at b' w' s.

Record strs_done (d d' : btf_dedup) : Prop := {
  sn_map : d_map d' = d_map d;
  sn_table : dedup_table d' = dedup_table d;
  sn_hypot : hypot_map d' = hypot_map d;
  sn_list : hypot_list d' = hypot_list d;
  sn_dedup : dedup_btf (d_btf d');
  sn_rep : rep_ok (d_btf d');
  sn_mod : modifiable (d_btf d') = true;
  sn_start : start_id (d_btf d') = start_id (d_btf d);
  sn_cnt : type_cnt (d_btf d') = type_cnt (d_btf d);
  sn_base : opt_view (base_btf (d_btf d)) (base_btf (d_btf d'));
  sn_types : forall y t, btf_type_by_id (d_btf d) y = Some t -> exists t', btf_type_by_id (d_btf d') y = Some t' /\
    if decide (start_id (d_btf d) <= y)
    then fields_rel (same_string (d_btf d) (d_btf d')) (str_fields (btf_kind t) (btf_vlen t)) t t'
    else own_words t' = own_words t
}.

(** Each string has one offset. *)
Definition strs_unique (b : btf) : Prop :=
  forall x1 t1 off1 w1 x2 t2 off2 w2 s,
    start_id b <= x1 -> btf_type_by_id b x1 = Some t1 -> off1 ∈ str_fields (btf_kind t1) (btf_vlen t1) -> type_word t1 off1 = Some w1 ->
    start_id b <= x2 -> btf_type_by_id b x2 = Some t2 -> off2 ∈ str_fields (btf_kind t2) (btf_vlen t2) -> type_word t2 off2 = Some w2 ->
    string_at b w1 s -> string_at b w2 s -> w1 = w2.

Lemma string_at_fun b off s1 s2 : string_at b off s1 -> string_at b off s2 -> s1 = s2.
Proof. intros (p & Hp & H1) (p' & Hp' & H2). congruence. Qed.

Lemma fields_rel_in (R : Z -> Z -> Prop) ik t t' off w' :
  fields_rel R (kind_fields ik (btf_kind t) (btf_vlen t)) t t' -> off ∈ kind_fields ik (btf_kind t') (btf_vlen t') ->
  type_word t' off = Some w' -> exists w, type_word t off = Some w /\ R w w'.
Proof.
  intros [Hi Hf] Hoff Hw. destruct (info_words_cnt t' t Hi) as (_ & Hk & Hv). rewrite Hk, Hv in Hoff.
  destruct (fields_room ik _ _ off (proj1 (vlen_range t)) Hoff) as (Hr & Hm & _). specialize (Hf off Hr Hm).
  rewrite decide_True in Hf by done. destruct Hf as (w & w2 & H1 & H2 & H3). exists w. split; [done | congruence].
Qed.

Lemma strs_finish d d1 :
  d_btf d = b0 -> pass_done BTF_FIELD_ITER_STRS strs_step strs_inv str_rel d (type_cnt (d_btf d)) d1 ->
  wp (do* modify install_strs in ret 0) (fun r d' => r = 0 /\ strs_done d d' /\ (base_btf b0 = None -> strs_unique (d_btf d'))) d1.
Proof.
  intros Hb0 [Hst Hinv (F1 & F2 & F3)].
  destruct (install_ok d1 Hinv) as (d' & Hins & I1 & I2 & I3 & I4 & I5 & I6 & I7 & I8 & I9 & I10 & I11 & I12).
  destruct Hst as [T1 T2 T3 T4 _]. apply wp_bind. eapply wp_modify; [exact Hins |]. apply wp_ret. split_and!; [done | split |]; try congruence; try done.
  - intros y t Ht. destruct (F3 y t Ht) as (t' & Ht' & Hcase). exists t'. split; [by rewrite I11 |].
    pose proof (btf_type_by_id_range (d_btf d) y t ltac:(rewrite Hb0; apply Hdb) Ht) as Hr.
    destruct (decide (start_id (d_btf d) <= y)) as [Ho|Ho].
    + rewrite decide_True in Hcase by lia. destruct Hcase as [Hf _]. eapply fields_rel_mono; [|exact Hf]. rewrite Hb0. apply I12.
    + by rewrite decide_False in Hcase by lia.
  - intros Hnb x1 t1 off1 w1 x2 t2 off2 w2 s Hx1 Ht1 Ho1 Hw1 Hx2 Ht2 Ho2 Hw2 Hs1 Hs2.
    assert (Hfd : forall x t off w, start_id (d_btf d') <= x -> btf_type_by_id (d_btf d') x = Some t -> off ∈ str_fields (btf_kind t) (btf_vlen t) ->
      type_word t off = Some w -> string_at (d_btf d') w s -> found d1 s (w - start_str_off b0)).
    { intros x t off w Hx Ht Ho Hw Hs. pose proof (btf_type_by_id_range _ _ _ (db_ok _ I5) Ht) as Hr. rewrite I9, F2 in Hr. rewrite I8, F1 in Hx.
      destruct (btf_type_by_id_total (d_btf d) x) as (u & Hu & _); [rewrite Hb0; apply Hdb | unfold type_cnt in Hr; lia |].
      destruct (F3 x u Hu) as (t' & Ht' & Hcase). rewrite decide_True in Hcase by lia. rewrite I11, Ht' in Ht. injection Ht as ->.
      destruct (fields_rel_in _ BTF_FIELD_ITER_STRS u t off w (proj1 Hcase) Ho Hw) as (w0 & _ & Hrel). destruct (I12 w0 w Hrel) as (s' & Hs0 & Hs').
      rewrite (string_at_fun _ _ _ _ Hs Hs'). destruct Hrel as (s2' & Hs0' & Hc). rewrite (string_at_fun _ _ _ _ Hs0 Hs0').
      destruct Hc as [(_ & base & Hbb & _)|[_ Hf]]; [congruence | done]. }
    pose proof (found_fun d1 s _ _ (Hfd _ _ _ _ Hx1 Ht1 Ho1 Hw1 Hs1) (Hfd _ _ _ _ Hx2 Ht2 Ho2 Hw2 Hs2)). lia.
Qed.

Lemma empty_set_repr max : max <= INT_MAX -> strset_repr (Strset [] 0 0 max hashmap__init) (fun _ => None).
Proof.
  intros Hm. split; [split_and!; cbn; (done || lia) |]. split; [split; cbn; lia |]. split; [done |]. cbn [Strset.strs_data strs_hash].
  split_and!; [apply hashmap_init_wf | by intros k _; cbn; lia |]. intros k Hk. unfold str_amap. by destruct (cstr_at [] k).
Qed.

(** The state before the types are gone through. *)
Lemma strs_start d o :
  d_btf d = b0 -> forall set f, strset_repr set f -> set_bytes set -> (base_btf b0 = None -> f [] = Some 0) ->
  strs_inv (set_strs_state d (d_btf d) (Some set) o).
Proof.
  intros Hb set f Hr Hby He. rewrite Hb. split; cbn [d_btf set_strs_state d_strs_set]; try done.
  - apply opt_view_refl.
  - by exists set, f.
  - intros Hn. exists set, f. split_and!; [done | done | by apply He].
Qed.

Definition strs_fail (r : Z) : Prop := r = - ENOMEM \/ r = - EOPNOTSUPP \/ r = - EINVAL.

(** The empty string is the first one of a set without a base. *)
Lemma wp_first_string d set o :
  d_btf d = b0 -> set = Strset [] 0 0 BTF_MAX_STR_OFFSET hashmap__init ->
  wp (fun d : btf_dedup =>
        match base_btf (d_btf d) with
        | Some _ => Some (0, d)
        | None =>
            set ← d_strs_set d;
            '(r, set, o) ← strset__add_str set (PtrExt []) true (d_oracle d);
            Some (r, set_strs_state d (d_btf d) (Some set) o)
        end)
    (fun r d' => (exists set o, d' = set_strs_state d (d_btf d) (Some set) o) /\ ((r = 0 /\ strs_inv d') \/ r = - ENOMEM))
    (set_strs_state d (d_btf d) (Some set) o).
Proof.
  intros Hb ->. pose proof (empty_set_repr BTF_MAX_STR_OFFSET ltac:(done)) as Hr. unfold wp. cbn [d_btf set_strs_state d_strs_set d_oracle].
  rewrite Hb. destruct (base_btf b0) as [base|] eqn:Hbase.
  - eexists _, _. split; [reflexivity |]. split; [rewrite <- Hb; by eexists _, _ |]. left. split; [done |].
    rewrite <- Hb. apply (strs_start d o Hb _ (fun _ => None)); [done | by split; [left |] | congruence].
  - cbn [mbind option_bind].
    destruct (strset_add_str_ok _ _ (PtrExt []) [] true o Hr (str_arg_denotes _ [] ltac:(split; [constructor | done])))
      as (r & set' & o' & Hadd & Hcase).
    rewrite Hadd. cbn [mbind option_bind]. eexists _, _. split; [reflexivity |]. split; [rewrite <- Hb; by eexists _, _ |].
    destruct Hcase as [(-> & Hr' & Hd')|(-> & _)]; [left | by right]. split; [done |]. rewrite <- Hb.
    apply (strs_start d o' Hb set' _ Hr'); [|done]. unfold set_bytes. rewrite Hd'. split; [by right |]. by repeat constructor.
Qed.

Lemma btf_dedup_strings_ok d :
  d_btf d = b0 ->
  (forall x t off w, start_id b0 <= x -> btf_type_by_id b0 x = Some t -> off ∈ str_fields (btf_kind t) (btf_vlen t) ->
     type_word t off = Some w -> exists s, string_at b0 w s) ->
  wp btf_dedup_strings (fun r d' =>
    (r = 0 /\ strs_done d d' /\ (strs_deduped b0 = false -> base_btf b0 = None -> strs_unique (d_btf d'))) \/ strs_fail r) d.
Proof.
  intros Hb Hval. unfold wp, btf_dedup_strings. rewrite Hb. destruct (strs_deduped b0) eqn:Hde.
  { eexists _, _. split; [reflexivity |]. left. split_and!; [done | | done]. split; try (by rewrite ?Hb).
    - rewrite Hb. apply opt_view_refl.
    - rewrite Hb. intros y t Ht. exists t. split; [done |]. destruct (decide (start_id b0 <= y)) as [Ho|]; [|done]. split; [done |].
      intros off Hr Hm. destruct (decide _) as [Hin|]; [|done].
      destruct (field_word b0 y t BTF_FIELD_ITER_STRS off (db_ok _ Hdb) Ht Hin) as (_ & _ & _ & w & Hw & _).
      destruct (Hval y t off w Ho Ht Hin Hw) as [s Hs]. exists w, w. split_and!; [done.. | by exists s]. }
  unfold strset__new, hashmap__new. destruct (alloc (d_oracle d)) as [ok1 o1]. destruct ok1; cbn [negb].
  2:{ cbn [mbind option_bind]. eexists _, _. split; [reflexivity |]. right. by left. }
  destruct (alloc o1) as [ok2 o2]. destruct ok2; cbn [negb mbind option_bind].
  2:{ eexists _, _. split; [reflexivity |]. right. by left. }
  destruct (wp_first_string d _ o2 Hb eq_refl) as (r & d2 & Hrun & (set2 & o3 & Hd2) & Hcase). rewrite Hb in Hrun.
  unfold bind at 1. rewrite Hrun. destruct Hcase as [[-> Hinv]| ->]; cbn [Z.ltb Z.compare Z.opp].
  2:{ unfold bind, modify, drop_strs. eexists _, _. split; [reflexivity |]. right. by left. }
  assert (Hb2 : d_btf d2 = b0) by (by rewrite Hd2).
  destruct (fields_pass_ok BTF_FIELD_ITER_STRS strs_dedup_remap_str_off strs_step strs_inv (fun w => exists s, string_at b0 w s)
    str_rel strs_err strs_step_refl strs_step_trans (fun d H => db_ok _ (si_dedup d H)) ltac:(by intros r [-> | ->])
    (fun d d' w w' _ => str_rel_step d d' w w') strs_field_ok d2 Hinv) as (r & d3 & Hrun3 & Hcase); [by rewrite Hb2 |].
  unfold bind at 1, btf_for_each_str_off. rewrite Hrun3. destruct Hcase as [[-> Hp]|[He _]]; cbn [nonzero Z.eqb negb].
  - destruct (strs_finish d2 d3 Hb2 Hp) as (r & d4 & Hrun4 & -> & [S1 S2 S3 S4 S5 S6 S7 S8 S9 S10 S11] & Hun). eexists _, _. split; [exact Hrun4 |].
    left. split_and!; [done | | done]. rewrite Hd2 in S1, S2, S3, S4, S8, S9, S10, S11. split; assumption.
  - assert (Hn : nonzero r = true) by (destruct He as [[-> | ->] | ->]; done). rewrite Hn. unfold bind, modify, drop_strs.
    eexists _, _. split; [reflexivity |]. right. destruct He as [[-> | ->] | ->]; unfold strs_fail; auto.
Qed.
End Strings.
