(* ===== verification/DedupInit.v ===== *)
(** * DedupInit: the state before the passes

    [btf_dedup_new] and [btf_dedup_prep] of [Dedup]: types that are never deduplicated and
    the types of the base are their own representatives, and the latter are candidates. *)
From S2P Require Import Prelude Hashmap Mem Strset BtfTypes Btf BtfFind BtfParse BtfRaw BtfWrite BtfBuild DedupTypes Dedup DedupState DedupPrim DedupEquiv DedupStruct DedupWrite DedupFields DedupRef DedupStrings.
Open Scope Z_scope.
Open Scope dedup_scope.

#[local] Opaque kind_of_Z.

(** ** A new state *)
Record fresh (d : btf_dedup) : Prop := {
  fh_len : zlen (d_map d) = type_cnt (d_btf d);
  fh_zero : znth (d_map d) 0 = Some 0;
  fh_map : forall x t, 0 < x -> btf_type_by_id (d_btf d) x = Some t ->
    znth (d_map d) x = Some (if self_canonical t then x else BTF_UNPROCESSED_ID);
  fh_table : dedup_table d = hashmap__init;
  fh_hypot : hypot_map d = replicate (Z.to_nat (type_cnt (d_btf d))) BTF_UNPROCESSED_ID;
  fh_list : hypot_list d = []
}.

Lemma init_map_ok n i b :
  btf_ok b -> 0 < i -> i + Z.of_nat n <= type_cnt b ->
  exists m, init_map n i b = Some m /\ zlen m = Z.of_nat n /\
    forall x t, i <= x < i + Z.of_nat n -> btf_type_by_id b x = Some t ->
      znth m (x - i) = Some (if self_canonical t then x else BTF_UNPROCESSED_ID).
Proof.
  intros Hb. revert i. induction n as [|n IH]; intros i Hi Hn; cbn [init_map].
  - exists []. split_and!; [done.. |]. intros x t Hx. lia.
  - destruct (btf_type_by_id_total b i Hb) as (t & Ht & _); [unfold type_cnt in Hn; lia |]. rewrite Ht. cbn [mbind option_bind].
    destruct (IH (i + 1)) as (m & -> & Hl & Hm); [lia.. |]. cbn [mbind option_bind]. eexists. split; [reflexivity |].
    split; [rewrite zlen_cons; lia |]. intros x u Hx Hu. destruct (decide (x = i)) as [->|Hne].
    + rewrite Z.sub_diag. cbn. rewrite Ht in Hu. by injection Hu as <-.
    + specialize (Hm x u ltac:(lia) Hu). unfold znth in Hm |- *. replace (x - i <? 0) with false by lia.
      replace (x - (i + 1) <? 0) with false in Hm by lia. by replace (Z.to_nat (x - i)) with (S (Z.to_nat (x - (i + 1)))) by lia.
Qed.

Lemma btf_dedup_new_ok b o :
  dedup_btf b ->
  exists r o', btf_dedup_new b o = Some (r, o') /\
    match r with Err e => e = ENOMEM | Ok d => d_btf d = b /\ fresh d end.
Proof.
  intros Hb. pose proof (db_start Hb) as [H1 H0]. pose proof (db_cnt _ Hb) as Hc. unfold btf_dedup_new, hashmap__new.
  destruct (alloc o) as [[] o1]; cbn [negb]; [|by eexists _, _]. destruct (alloc o1) as [[] o2]; cbn [negb]; [|by eexists _, _].
  destruct (alloc o2) as [[] o3]; cbn [negb]; [|by eexists _, _]. rewrite (db_type_cnt Hb).
  rewrite s32_small by (unfold BTF_MAX_NR_TYPES, type_cnt in *; lia).
  destruct (init_map_ok (Z.to_nat (type_cnt b - 1)) 1 b (db_ok _ Hb)) as (m & Hm & Hl & Hv); [lia | unfold type_cnt in *; lia |].
  rewrite Hm. cbn [mbind option_bind]. destruct (alloc o3) as [[] o4]; cbn [negb]; [|by eexists _, _].
  eexists _, _. split; [reflexivity |]. split; [done |]. split; cbn [d_map d_btf dedup_table hypot_map hypot_list]; try done.
  - rewrite zlen_cons. unfold type_cnt in *. lia.
  - intros x t Hx Ht. pose proof (btf_type_by_id_range b x t (db_ok _ Hb) Ht). specialize (Hv x t ltac:(lia) Ht).
    unfold znth in Hv |- *. replace (x <? 0) with false by lia. replace (x - 1 <? 0) with false in Hv by lia.
    by replace (Z.to_nat x) with (S (Z.to_nat (x - 1))) by lia.
Qed.

Section Init.
Context {C : hash_ctx} {DC : DedupCtx C}.

(** What holds until the types are deduplicated. *)
Record initial (d : btf_dedup) : Prop := {
  in_state : state_ok 0 d;
  in_self : forall x v, znth (d_map d) x = Some v -> v <= BTF_MAX_NR_TYPES -> v = x;
  in_own : forall x t, 0 < x -> btf_type_by_id (d_btf d) x = Some t -> start_id (d_btf d) <= x ->
    mapped (d_map d) x <-> self_canonical t = true
}.

Lemma canonical_not_exact t : self_canonical t = true -> ~ exact_kind (btf_kind t).
Proof. unfold self_canonical. destruct (btf_kind t); cbn; (discriminate || tauto). Qed.

Lemma fresh_mapped d x t :
  fresh d -> 0 < x -> btf_type_by_id (d_btf d) x = Some t -> x <= BTF_MAX_NR_TYPES ->
  mapped (d_map d) x <-> self_canonical t = true.
Proof.
  intros Hf Hx Ht Hle. pose proof (fh_map _ Hf x t Hx Ht) as Hm. split.
  - intros (v & Hv & Hvl). rewrite Hm in Hv. injection Hv as <-. destruct (self_canonical t); [done | by cbv in Hvl].
  - intros Hs. rewrite Hs in Hm. by exists x.
Qed.

Lemma fresh_self d x v :
  dedup_btf (d_btf d) -> fresh d -> znth (d_map d) x = Some v -> v = x \/ v = BTF_UNPROCESSED_ID.
Proof.
  intros Hb Hf Hv. apply znth_Some in Hv as Hr. rewrite (fh_len _ Hf) in Hr. destruct (decide (x = 0)) as [->|Hx].
  - rewrite (fh_zero _ Hf) in Hv. injection Hv as <-. by left.
  - destruct (db_type Hb x Hr) as (t & Ht & _). rewrite (fh_map _ Hf x t) in Hv by (done || lia). injection Hv as <-.
    destruct (self_canonical t); auto.
Qed.

Lemma fresh_initial d : dedup_btf (d_btf d) -> fresh d -> initial d.
Proof.
  intros Hb Hf. pose proof (db_cnt _ Hb) as Hcnt. pose proof (fresh_self d) as Hself.
  assert (Hx0 : forall x v, znth (d_map d) x = Some v -> 0 <= x < type_cnt (d_btf d)).
  { intros x v Hv. apply znth_Some in Hv. by rewrite <- (fh_len _ Hf). }
  assert (Hnc : forall h, cands_of d h = []) by (intros h; unfold cands_of; by rewrite (fh_table _ Hf)).
  assert (Hsm : forall y t, self_mapped d y t -> False).
  { intros y t (Hy & Ht & He & H0). rewrite (fh_map _ Hf y t H0 Ht) in Hy. injection Hy as Hy.
    destruct (self_canonical t) eqn:Hs; [by apply (canonical_not_exact t) |]. specialize (Hx0 y _ (fh_map _ Hf y t H0 Ht)).
    unfold BTF_MAX_NR_TYPES, BTF_UNPROCESSED_ID in *. lia. }
  split; [split|..].
  - done.
  - apply Hf.
  - apply Hf.
  - intros x v Hx Hv. destruct (Hself x v Hb Hf Hx) as [->| ->]; [|by cbv in Hv].
    destruct (db_type Hb x (Hx0 x x Hx)) as (t & Ht & _). exists t, t. split; [done.. | apply stands_for_refl |]. left. by exists x.
  - intros x v Hx. destruct (Hself x v Hb Hf Hx) as [->| ->]; [left | by right; left]. specialize (Hx0 x x Hx). lia.
  - intros x Hx. destruct (znth_is_Some (d_map d) x Hx) as [v Hv]. exists x. apply resolves_root. exists v. split; [done |].
    destruct (Hself x v Hb Hf Hv) as [->| ->]; [by right | by left].
  - rewrite (fh_table _ Hf). apply hashmap_init_wf.
  - intros h id. rewrite Hnc. by intros ?%not_elem_of_nil.
  - pose proof (db_start Hb) as [H1 H0]. rewrite (fh_hypot _ Hf), (fh_list _ Hf). split; [|done |].
    + rewrite zlen_replicate. unfold type_cnt in *. lia.
    + intros id v Hv. left. split; [|apply not_elem_of_nil]. unfold znth in Hv. destruct (id <? 0); [done |].
      by apply lookup_replicate in Hv as [-> _].
  - split; [intros y t h Hy; by destruct (Hsm y t) | intros y t z u Hy; by destruct (Hsm y t)].
  - intros x v Hx Hv. destruct (Hself x v Hb Hf Hx) as [->| ->]; [done | by cbv in Hv].
  - intros x t Hx Ht _. apply (fresh_mapped d x t Hf Hx Ht).
    pose proof (btf_type_by_id_range _ _ _ (db_ok _ Hb) Ht). lia.
Qed.

(** ** Types of the base *)
Lemma canonical_self d x t :
  initial d -> 0 < x -> btf_type_by_id (d_btf d) x = Some t -> mapped (d_map d) x -> znth (d_map d) x = Some x.
Proof. intros Hi Hx Ht (v & Hv & Hle). by rewrite <- (in_self _ Hi x v Hv Hle) at 2. Qed.

(** A type of the base becomes its own representative and a candidate. *)
Lemma initial_add d x t h tbl o :
  initial d -> 0 < x < start_id (d_btf d) -> btf_type_by_id (d_btf d) x = Some t -> ~ mapped (d_map d) x ->
  hash_of_kind t = Some (Ok h) -> hashmap_wf (fun _ => True) tbl ->
  let d' := set_table (set_d_map d (zupd (d_map d) x x)) tbl o in
  (forall h' y, y ∈ cands_of d' h' <-> (h' = h /\ y = x) \/ y ∈ cands_of d h') ->
  initial d'.
Proof.
  intros Hi Hx Ht Hm Hh Hwf d' Hcs. pose proof (in_state _ Hi) as Hst. pose proof Hi as [_ Hself Hown].
  pose proof (canon_range 0 d x t Hst ltac:(lia) Ht) as [Hxr Hxl].
  pose proof (canon_entry 0 d x t tbl o Hst ltac:(lia) Ht) as Hent.
  pose proof (canon_self_mapped 0 d x t tbl o Hst ltac:(lia) Ht) as Hsm. fold d' in Hent, Hsm.
  assert (Hnown : forall y u, self_mapped d y u -> start_id (d_btf d) <= y -> False).
  { intros y u (Hy & Hu & He & H0) Hs. apply (canonical_not_exact u); [|done]. apply (Hown y u H0 Hu Hs). exists y. split; [done |].
    pose proof (db_cnt _ (st_btf _ _ Hst)). pose proof (btf_type_by_id_range _ _ _ (db_ok _ (st_btf _ _ Hst)) Hu). lia. }
  split.
  - apply (state_ok_self 0 d x t h tbl o Hst ltac:(lia) Ht ltac:(by left) Hm Hwf Hcs). split.
    + intros y u h' Hy Hh'. apply Hcs. destruct (Hsm y u Hy) as [[-> ->]|[_ Hy']]; [left; split; [congruence | done] |].
      right. by apply (ex_complete _ (st_exact _ _ Hst) y u h').
    + intros y u z w Hy _ Hs _. destruct (Hsm y u Hy) as [[-> ->]|[_ Hy']]; [exfalso | by destruct (Hnown y u)].
      cbn [d_btf set_table set_d_map] in Hs. lia.
  - intros y v Hy Hv. destruct (Hent y v Hy) as [[-> ->]|[_ Hy']]; [done | by apply Hself].
  - intros y u H0 Hu Hs. change (start_id (d_btf d')) with (start_id (d_btf d)) in Hs. change (d_map d') with (zupd (d_map d) x x).
    rewrite mapped_upd_iff by done. rewrite <- (Hown y u H0 Hu Hs). split; [intros [?| ->]; [done | lia] | auto].
Qed.

Lemma hash_unknown t : ~ known_kind (btf_kind t) -> hash_of_kind t = Some (Err EINVAL).
Proof. unfold hash_of_kind. intros H. destruct (btf_kind t); (done || by destruct H). Qed.

Lemma hash_total t : type_words_ok t -> exists r, hash_of_kind t = Some r /\ (forall e, r = Err e -> e = EINVAL).
Proof.
  intros Hw. destruct (decide (known_kind (btf_kind t))) as [Hk|Hk].
  - destruct (hash_of_kind_total t Hw Hk) as (r & Hr & Hok). exists r. split; [done |]. intros e ->.
    revert Hr Hok. unfold hash_of_kind.
    destruct (btf_kind t); intros Hr Hok; try (by destruct Hok as [h Hh]; [by left | discriminate]);
      try (by destruct Hok as [h Hh]; [by right | discriminate]); congruence.
  - exists (Err EINVAL). split; [by apply hash_unknown |]. by intros e [= <-].
Qed.

(** What the preparation leaves. *)
Record prep_step (d d' : btf_dedup) (x : Z) : Prop := {
  ps_frame : same_frame d d';
  ps_initial : initial d';
  ps_mapped : forall y, mapped (d_map d') y <-> mapped (d_map d) y \/ y = x
}.

Lemma prep_type_ok d x t :
  initial d -> 0 < x < start_id (d_btf d) -> btf_type_by_id (d_btf d) x = Some t ->
  (mapped (d_map d) x <-> self_canonical t = true) ->
  wp (prep_type x) (fun r d' => (r = 0 /\ prep_step d d' x) \/ (r = - ENOMEM \/ r = - EINVAL)) d.
Proof.
  intros Hi Hx Ht Hms. pose proof (in_state _ Hi) as Hst. unfold prep_type. apply wp_bind, (wp_type_of x t); [done |].
  pose proof (canon_range 0 d x t Hst ltac:(lia) Ht) as [Hxr Hxl]. apply wp_bind, wp_map_set; [done |].
  destruct (self_canonical t) eqn:Hs.
  { pose proof (proj2 Hms eq_refl) as Hm. rewrite (zupd_same _ _ _ (canonical_self d x t Hi ltac:(lia) Ht Hm)), set_d_map_id.
    apply wp_ret. left. split; [done |]. split; [apply same_frame_refl | done |]. intros y. split; [auto |]. by intros [?| ->]. }
  assert (Hm : ~ mapped (d_map d) x) by (intros H; by apply Hms in H).
  destruct (hash_total t) as (r & Hr & He); [eapply db_words; [apply Hst | done] |].
  apply wp_bind, (wp_lift _ r); [done |]. destruct r as [h|e]; [|apply wp_ret; right; rewrite (He e eq_refl); by right].
  destruct (table_add_cands (set_d_map d (zupd (d_map d) x x)) h x (st_table _ _ Hst)) as (r & tbl & o & Hadd & Hwf & Hcase).
  apply wp_bind. exists r, (set_table (set_d_map d (zupd (d_map d) x x)) tbl o). split; [done |]. apply wp_ret.
  destruct Hcase as [[-> Hcs]|[-> _]]; [left | by right; left]. split; [done |]. split.
  - by split.
  - by apply (initial_add d x t h tbl o).
  - intros y. cbn [d_map set_table set_d_map]. by apply mapped_upd_iff.
Qed.

(** The types below [k] of the base have been prepared. *)
Record prep_done (d0 : btf_dedup) (k : Z) (d : btf_dedup) : Prop := {
  pr_frame : same_frame d0 d;
  pr_initial : initial d;
  pr_base : forall y, 0 < y < k -> mapped (d_map d) y;
  pr_rest : forall y t, k <= y -> 0 < y -> btf_type_by_id (d_btf d0) y = Some t -> mapped (d_map d) y <-> self_canonical t = true
}.

Lemma btf_dedup_prep_ok d :
  dedup_btf (d_btf d) -> fresh d ->
  wp btf_dedup_prep (fun r d' => (r = 0 /\ prep_done d (start_id (d_btf d)) d') \/ (r = - ENOMEM \/ r = - EINVAL)) d.
Proof.
  intros Hb Hf. pose proof (db_start Hb) as [H1 H0]. pose proof (fresh_initial d Hb Hf) as Hi. pose proof (db_cnt _ Hb) as Hcnt.
  assert (Hrest : forall y t, 0 < y -> btf_type_by_id (d_btf d) y = Some t -> mapped (d_map d) y <-> self_canonical t = true).
  { intros y t Hy Ht. apply (fresh_mapped d y t Hf Hy Ht). pose proof (btf_type_by_id_range _ _ _ (db_ok _ Hb) Ht). lia. }
  unfold wp, btf_dedup_prep. destruct (base_btf (d_btf d)) as [base|] eqn:Hbase.
  2:{ pose proof (btf_ok_unfold _ (db_ok _ Hb)) as (_ & _ & _ & _ & Hs). rewrite Hbase in Hs. destruct Hs as [Hs _].
      eexists _, _. split; [reflexivity |]. left. split; [done |]. split; [apply same_frame_refl | done | lia |]. intros y t _. apply Hrest. }
  destruct (wp_for_ids (Z.to_nat (start_id (d_btf d) - 1)) 1 nonzero prep_type (prep_done d) (fun r _ => r = - ENOMEM \/ r = - EINVAL) d)
    as (r & d' & Hrun & Hcase).
  - split; [apply same_frame_refl | done | lia |]. intros y t _. apply Hrest.
  - intros k d1 Hk [Hfr Hi1 Hb1 Hr1]. destruct (db_type Hb k) as (t & Ht & _); [unfold type_cnt; lia |].
    eapply wp_mono; [apply (prep_type_ok d1 k t); [done | | | by apply Hr1; [| lia |]] |].
    + rewrite (fr_btf _ _ Hfr). lia.
    + by rewrite (fr_btf _ _ Hfr).
    + cbn beta. intros r d2 [(-> & [P1 P2 P3])|He]; [cbn [nonzero Z.eqb negb] | assert (nonzero r = true) as -> by (by destruct He as [-> | ->]); exact He].
      split; [by eapply same_frame_trans | done | |].
      * intros y Hy. apply P3. destruct (decide (y = k)) as [->|]; [by right |]. left. apply Hb1. lia.
      * intros y u Hy Hy0 Hu. rewrite P3, (Hr1 y u) by (done || lia). split; [intros [?| ->]; [done | lia] | auto].
  - exists r, d'. split; [exact Hrun |]. destruct Hcase as [[-> Hd]|[_ He]]; [left; split; [done |] | by right].
    replace (start_id (d_btf d)) with (1 + Z.of_nat (Z.to_nat (start_id (d_btf d) - 1))) by lia. exact Hd.
Qed.
End Init.
