(* ===== verification/DedupWhole.v ===== *)
(** * DedupWhole: the whole deduplication

    [btf__dedup] of [Dedup] from the object given to the result: the passes one after the
    other.  Every type has a type in the result that may stand for it, with the names
    unchanged and the identifiers replaced; and no two types of the result that are
    compared exactly are the same. *)
From stdpp Require Import relations.
From S2P Require Import Prelude Hashmap Mem Strset BtfTypes Btf BtfFind BtfParse BtfRaw BtfWrite BtfBuild DedupTypes Dedup DedupState DedupWrite DedupPrim DedupEquiv DedupSame DedupStruct DedupFwd DedupFields DedupRef DedupStrings DedupCompact DedupInit.
Open Scope Z_scope.
Open Scope dedup_scope.

#[local] Opaque kind_of_Z.

Section Whole.
Context {C : hash_ctx} {DC : DedupCtx C}.

(** ** The strings *)
Section AfterStrings.
Context {d d' : btf_dedup} (Hi : initial d) (Hs : strs_done d d').

Lemma strs_info y t t' : btf_type_by_id (d_btf d) y = Some t -> btf_type_by_id (d_btf d') y = Some t' -> info t' = info t.
Proof.
  intros Ht Ht'. destruct (sn_types _ _ Hs y t Ht) as (t2 & Ht2 & Hc). rewrite Ht' in Ht2. injection Ht2 as <-.
  destruct (decide (start_id (d_btf d) <= y)); [apply Hc | by apply same_words_fields in Hc as (_ & ? & _)].
Qed.

Lemma strs_type y t : btf_type_by_id (d_btf d) y = Some t -> exists t', btf_type_by_id (d_btf d') y = Some t' /\ info t' = info t.
Proof. intros Ht. destruct (sn_types _ _ Hs y t Ht) as (t' & Ht' & _). exists t'. split; [done | by eapply strs_info]. Qed.

Lemma strs_back y t' : btf_type_by_id (d_btf d') y = Some t' -> exists t, btf_type_by_id (d_btf d) y = Some t /\ info t' = info t.
Proof.
  intros Ht'. pose proof (btf_type_by_id_range _ _ _ (db_ok _ (sn_dedup _ _ Hs)) Ht') as Hr. rewrite (sn_cnt _ _ Hs) in Hr.
  destruct (st_type (in_state _ Hi) y Hr) as (t & Ht & _). exists t. split; [done | by eapply strs_info].
Qed.

Lemma initial_strings : initial d'.
Proof.
  pose proof (in_state _ Hi) as [Hb Hlen Hz Hl Hvals Ha Ht Hc Hh [Hco Hun]]. pose proof Hi as [_ Hself Hown].
  pose proof (sn_map _ _ Hs) as Hm. pose proof (sn_cnt _ _ Hs) as Hcnt.
  assert (Hsm : forall y t', self_mapped d' y t' -> exists t, self_mapped d y t /\ own_words t' = own_words t /\ y < start_id (d_btf d)).
  { intros y t' (Hy & Hty & He & H0). rewrite Hm in Hy. destruct (strs_back y t' Hty) as (t & Ht' & Hit).
    destruct (info_derived t' t Hit) as (Hk & _). rewrite Hk in He. exists t.
    assert (Hlt : y < start_id (d_btf d)).
    { destruct (decide (y < start_id (d_btf d))) as [|Hge]; [done |]. exfalso. apply (canonical_not_exact t); [|done].
      apply (Hown y t H0 Ht'); [lia |]. exists y. split; [done |]. pose proof (db_cnt _ Hb).
      pose proof (btf_type_by_id_range _ _ _ (db_ok _ Hb) Ht'). lia. }
    split; [by split |]. split; [|done]. destruct (sn_types _ _ Hs y t Ht') as (t2 & Ht2 & Hcase). rewrite Hty in Ht2. injection Ht2 as <-.
    by rewrite decide_False in Hcase by lia. }
  split; [split|..]; rewrite ?Hm, ?Hcnt, ?(sn_table _ _ Hs); try done.
  - apply Hs.
  - intros x v Hx Hv. assert (v = x) as -> by (by apply Hself). destruct (Hl x x Hx Hv) as (tx & _ & [L1 _ _ _]).
    destruct (strs_type x tx L1) as (tx' & Htx' & _). exists tx', tx'. split; [done.. | apply stands_for_refl |]. left. by exists x.
  - intros h id Hin. assert (Hin' : id ∈ cands_of d h) by (unfold cands_of in *; by rewrite <- (sn_table _ _ Hs)).
    destruct (Hc h id Hin') as (t & v & Ht' & H0 & Hv & Hle & _). destruct (strs_type id t Ht') as (t2 & Ht2 & _).
    exists t2, v. split_and!; [done.. |]. left. by apply Hself.
  - rewrite (sn_hypot _ _ Hs), (sn_list _ _ Hs). destruct Hh as [H1 H2 H3]. by split; rewrite ?Hcnt.
  - split.
    + intros y t' h Hy Hhash. destruct (Hsm y t' Hy) as (t & Hy' & Hw & _). unfold cands_of. rewrite (sn_table _ _ Hs).
      apply (Hco y t h Hy'). rewrite <- (hash_same_words t' t Hw); [done |]. destruct Hy as (_ & _ & He & _). by apply exact_known.
    + intros y t' z u Hy _ Hst _. destruct (Hsm y t' Hy) as (t & _ & _ & Hlt). rewrite (sn_start _ _ Hs) in Hst. lia.
  - intros x t' Hx Ht' Hst. rewrite (sn_start _ _ Hs) in Hst. destruct (strs_back x t' Ht') as (t & Ht2 & Hit).
    destruct (info_derived t' t Hit) as (Hk & _). rewrite (Hown x t Hx Ht2 Hst). unfold self_canonical. by rewrite Hk.
Qed.

(** Identifiers stay. *)
Lemma strs_id y t t' off :
  btf_type_by_id (d_btf d) y = Some t -> btf_type_by_id (d_btf d') y = Some t' ->
  off ∈ id_fields (btf_kind t) (btf_vlen t) -> type_word t' off = type_word t off.
Proof.
  intros Ht Ht' Hoff. destruct (sn_types _ _ Hs y t Ht) as (t2 & Ht2 & Hc). rewrite Ht' in Ht2. injection Ht2 as <-.
  destruct (decide (start_id (d_btf d) <= y)); [|symmetry; by apply id_field_word].
  destruct (fields_room BTF_FIELD_ITER_IDS _ _ off (proj1 (vlen_range t)) Hoff) as (Hr & Hm & _). destruct Hc as [_ Hc].
  specialize (Hc off Hr Hm). rewrite decide_False in Hc; [done |]. intros Hin. by destruct (fields_disjoint _ _ _ Hoff Hin).
Qed.

Lemma chains_strings rank : chains_end (d_btf d) rank -> chains_end (d_btf d') rank.
Proof.
  intros Hch id t' Ht'. destruct (strs_back id t' Ht') as (t & Ht & Hit). destruct (Hch id t Ht) as [Hr Hk].
  destruct (info_derived t' t Hit) as (Hkk & _). rewrite (sn_cnt _ _ Hs), Hkk. split; [done |]. intros Hc.
  assert (Hty : t_type t' = t_type t).
  { pose proof (strs_id id t t' 8 Ht Ht') as Hw. rewrite chain_field in Hw by done. specialize (Hw ltac:(constructor)). by injection Hw. }
  rewrite Hty. by apply Hk.
Qed.
End AfterStrings.

(** ** The types *)

(** Before the pass over reference types: [d] has the object of [d0], the others have been
    mapped. *)
Record before_refs (d0 d : btf_dedup) : Prop := {
  br_btf : d_btf d = d_btf d0;
  br_state : state_ok 0 d;
  br_settled : settled d;
  br_refs : forall y t, btf_type_by_id (d_btf d) y = Some t -> start_id (d_btf d) <= y -> ref_kind (btf_kind t) ->
    ~ mapped (d_map d) y;
  br_known : forall y t, btf_type_by_id (d_btf d) y = Some t -> start_id (d_btf d) <= y -> known_kind (btf_kind t)
}.

Definition base_mapped (d : btf_dedup) : Prop := forall y, 0 < y < start_id (d_btf d) -> mapped (d_map d) y.

Lemma initial_prim d : initial d -> prim_unmapped d.
Proof.
  intros Hi y u Hu Ho Hk Hm. pose proof (db_start (st_btf _ _ (in_state _ Hi))) as [H1 _].
  apply (in_own _ Hi y u) in Hm; [|lia | done..]. revert Hk Hm. unfold self_canonical. by destruct (btf_kind u).
Qed.

(** The kinds of own types that no pass before has mapped. *)
Lemma rest_kind k :
  known_kind k -> ~ prim_kind k -> ~ graph_kind k ->
  (match k with BTF_KIND_VAR | BTF_KIND_DATASEC | BTF_KIND_LOCSEC => true | _ => false end) = false -> ref_kind k.
Proof. destruct k; cbn; tauto || discriminate. Qed.

Lemma ref_kind_only k : ref_kind k ->
  ~ graph_kind k /\ ~ prim_kind k /\ k <> BTF_KIND_FWD /\
  (match k with BTF_KIND_VAR | BTF_KIND_DATASEC | BTF_KIND_LOCSEC => true | _ => false end) = false.
Proof. destruct k; cbn; intros H; try (exfalso; exact H); (split_and!; [tauto | tauto | discriminate | reflexivity]). Qed.

Lemma three_passes_settled d d1 d2 d3 :
  initial d -> base_mapped d -> prim_done d (type_cnt (d_btf d)) d1 -> struct_done d1 (type_cnt (d_btf d1)) d2 -> fwd_step d2 d3 ->
  before_refs d d3.
Proof.
  intros Hi Hbm [P1 P2 P3 P4 _] [[S1 S2 S3 S4 _ _ _ S6] S5 _ _] [F1 F2 F3 F4 F5 F6 F7 F8].
  pose proof (fr_btf _ _ P1) as Hb1. pose proof (st_btf _ _ (in_state _ Hi)) as Hdb. pose proof (db_start Hdb) as [H1 H0].
  assert (Hb : d_btf d3 = d_btf d) by congruence. pose proof (db_cnt _ Hdb) as Hcnt.
  assert (Hmono : forall y, mapped (d_map d1) y -> mapped (d_map d3) y) by (intros y Hy; by apply F7, S4).
  assert (Hmono0 : forall y t, btf_type_by_id (d_btf d) y = Some t -> mapped (d_map d) y -> mapped (d_map d3) y).
  { intros y t Ht Hy. apply Hmono, (P4 y t Ht). by left. }
  assert (Hkn : forall y t, btf_type_by_id (d_btf d3) y = Some t -> start_id (d_btf d3) <= y -> known_kind (btf_kind t)).
  { rewrite Hb. intros y t Ht Ho. apply (P3 y t Ht). pose proof (btf_type_by_id_range _ _ _ (db_ok _ Hdb) Ht). lia. }
  assert (Hown : forall y, 0 <= y < type_cnt (d_btf d) -> ~ mapped (d_map d3) y -> start_id (d_btf d) <= y).
  { intros y Hy Hn. destruct (decide (start_id (d_btf d) <= y)) as [|Hlt]; [done |]. exfalso. apply Hn.
    destruct (db_type Hdb y Hy) as (t & Ht & _). apply (Hmono0 y t Ht). destruct (decide (y = 0)) as [->|]; [|apply Hbm; lia].
    exists 0. split; [apply (in_state _ Hi) | done]. }
  split; [done | done | split | | done].
  - rewrite Hb. intros y u Hu Hn. pose proof (btf_type_by_id_range _ _ _ (db_ok _ Hdb) Hu) as Hr. pose proof (Hown y Hr Hn) as Ho.
    apply rest_kind.
    + apply (Hkn y u); rewrite Hb; done.
    + intros Hp. apply Hn, Hmono, (P4 y u Hu). right. split; [lia | done].
    + intros Hg. apply Hn, F7, (S5 y u); [by rewrite Hb1 | rewrite Hb1; lia | done].
    + destruct (self_canonical u) eqn:Hs; [|done]. exfalso. apply Hn, (Hmono0 y u Hu), (in_own _ Hi y u); [lia | done..].
  - rewrite Hb. exact Hown.
  - rewrite Hb. intros y t Ht Ho Hk Hm. destruct (ref_kind_only _ Hk) as (Hg & Hp & Hf & Hs).
    apply F7 in Hm. apply (S6 y t) in Hm; [|by rewrite Hb1 | done | done].
    apply (P4 y t Ht) in Hm as [Hm|[_ Hp']]; [|done].
    apply (in_own _ Hi y t) in Hm; [|lia | done..]. unfold self_canonical in Hm. congruence.
Qed.

(** The links of types other than structures, unions and typedefs lead to the same types. *)
Lemma state_links_same d :
  state_ok 0 d ->
  (forall x t v, btf_type_by_id (d_btf d) x = Some t -> graph_kind (btf_kind t) -> znth (d_map d) x = Some v ->
     v <= BTF_MAX_NR_TYPES -> same_type (d_btf d) x v) ->
  links_same (d_btf d) (d_map d).
Proof.
  intros Hst Hg x v Hx Hv. destruct (st_links _ _ Hst x v Hx Hv) as (tx & tv & [L1 L2 L3 _]).
  destruct (decide (graph_kind (btf_kind tx))) as [Hk|Hk]; [by apply (Hg x tx) |].
  by eapply stands_same; [apply Hst | ..].
Qed.

(** At the beginning types are linked only to themselves. *)
Lemma initial_links_same d : initial d -> links_same (d_btf d) (d_map d).
Proof.
  intros Hi x v Hx Hv. rewrite (in_self _ Hi x v Hx Hv). apply same_type_refl; [apply (in_state _ Hi) |].
  rewrite <- (st_len _ _ (in_state _ Hi)). exact (znth_Some _ _ _ Hx).
Qed.

(** The passes link types to the same types. *)
Lemma three_passes_same d d1 d2 d3 :
  initial d -> prim_done d (type_cnt (d_btf d)) d1 -> struct_done d1 (type_cnt (d_btf d1)) d2 -> fwd_step d2 d3 ->
  links_same (d_btf d3) (d_map d3).
Proof.
  intros Hi [P1 P2 _ _ P5] [[S1 _ S3 _ _ S5 _ _] _ _ _] [F1 _ _ _ _ F6 _ F8]. pose proof (fr_btf _ _ P1) as Hb1.
  assert (H1 : links_same (d_btf d1) (d_map d1)).
  { apply state_links_same; [done |]. rewrite Hb1. intros x t v Ht Hg Hx Hv. rewrite (P5 x t Ht Hg) in Hx.
    by apply initial_links_same. }
  apply state_links_same; [done |]. rewrite F1, S1. intros x t v Ht Hg Hx Hv. rewrite (F8 x t) in Hx.
  - by apply (S5 H1).
  - by rewrite S1.
  - intros Hk. rewrite Hk in Hg. exact Hg.
Qed.

(** ** After the pass over reference types *)
Definition root (m : list Z) (x : Z) : Z := default 0 (resolve_loop (S (length m)) m x).

Lemma canon_root m x r : canon m x r -> root m x = r.
Proof. intros [Hr _]. unfold root. by rewrite (resolve_enough m x r Hr). Qed.

Lemma canon_fun m x r r' : canon m x r -> canon m x r' -> r = r'.
Proof. intros [H1 _] [H2 _]. by eapply resolves_det. Qed.

Lemma canon_self m x : self m x -> canon m x x.
Proof. intros Hs. split; [|done]. apply resolves_root. exists x. auto. Qed.

(** The identifiers in types of the base are those of the base. *)
Definition base_closed (b : btf) : Prop :=
  forall id t off w, id < start_id b -> btf_type_by_id b id = Some t -> off ∈ id_fields (btf_kind t) (btf_vlen t) ->
    type_word t off = Some w -> w < start_id b.

Section AfterRefs.
Context {d0 d5 d6 : btf_dedup} (Hbr : before_refs d0 d5) (Hrd : refs_done d5 (type_cnt (d_btf d5)) d6).

Lemma ar_state : state_ok 0 d5 /\ state_ok 0 d6.
Proof. split; [apply Hbr | apply Hrd]. Qed.

Lemma ar_cnt : start_id (d_btf d6) = start_id (d_btf d5) /\ type_cnt (d_btf d6) = type_cnt (d_btf d5).
Proof. apply types_only_cnt, (rs_types _ _ _ (rd_step _ _ _ Hrd)). Qed.

Lemma ar_type y t : btf_type_by_id (d_btf d5) y = Some t -> exists t', btf_type_by_id (d_btf d6) y = Some t'.
Proof. eapply ref_step_type; [apply Hbr | apply Hrd]. Qed.

Lemma ar_back y t' : btf_type_by_id (d_btf d6) y = Some t' -> exists t, btf_type_by_id (d_btf d5) y = Some t /\ info t' = info t.
Proof.
  intros Ht'. destruct ar_state as [S5 S6]. pose proof (btf_type_by_id_range _ _ _ (db_ok _ (st_btf _ _ S6)) Ht') as Hr.
  destruct ar_cnt as [_ Hc]. rewrite Hc in Hr. destruct (st_type S5 y Hr) as (t & Ht & _). exists t. split; [done |].
  by apply (rs_info _ _ _ (rd_step _ _ _ Hrd) y).
Qed.

(** Those of the base were mapped from the beginning. *)
Lemma base_is_mapped y : 0 <= y < type_cnt (d_btf d5) -> y < start_id (d_btf d5) -> mapped (d_map d5) y.
Proof.
  intros Hy Hlt. destruct (znth_is_Some (d_map d5) y) as [v Hv]; [by rewrite (st_len _ _ (br_state _ _ Hbr)) |].
  destruct (decide (v <= BTF_MAX_NR_TYPES)) as [Hle|Hgt]; [by exists v |]. exfalso. apply Z.lt_nge in Hlt. apply Hlt.
  apply (se_own _ (br_settled _ _ Hbr)); [done |]. intros (w & Hw & Hwl). rewrite Hv in Hw. injection Hw as <-. done.
Qed.

(** All types are mapped. *)
Lemma ar_mapped y : 0 <= y < type_cnt (d_btf d5) -> mapped (d_map d6) y.
Proof.
  intros Hy. destruct (decide (start_id (d_btf d5) <= y)) as [Ho|Ho]; [apply (rd_mapped _ _ _ Hrd); lia |].
  eapply kept_mapped; [apply (rd_step _ _ _ Hrd) | apply base_is_mapped; lia].
Qed.

Lemma ar_canon y : 0 <= y < type_cnt (d_btf d5) -> exists r, canon (d_map d6) y r /\ 0 <= r < type_cnt (d_btf d5).
Proof.
  intros Hy. destruct ar_cnt as [_ Hc]. rewrite <- Hc. apply canon_mapped; [apply ar_state | | by apply ar_mapped].
  eapply ref_step_settled; [apply Hbr | apply Hbr | apply Hrd].
Qed.

(** A type that was mapped before has its words. *)
Lemma ar_words y t t' :
  btf_type_by_id (d_btf d5) y = Some t -> btf_type_by_id (d_btf d6) y = Some t' -> mapped (d_map d5) y -> own_words t' = own_words t.
Proof.
  intros Ht Ht' (v & Hv & Hle). apply (rs_words _ _ _ (rd_step _ _ _ Hrd) y t t' v Ht Ht' Hv).
  - unfold BTF_MAX_NR_TYPES, BTF_UNPROCESSED_ID in *. lia.
  - apply znth_Some in Hv. lia.
Qed.

(** The others hold the identifiers of the representatives. *)
Lemma ar_replaced y t t' :
  btf_type_by_id (d_btf d5) y = Some t -> btf_type_by_id (d_btf d6) y = Some t' -> ~ mapped (d_map d5) y -> replaced (d_map d6) t t'.
Proof.
  intros Ht Ht' Hn. pose proof (btf_type_by_id_range _ _ _ (db_ok _ (st_btf _ _ (proj1 ar_state))) Ht) as Hr.
  destruct (znth_is_Some (d_map d5) y) as [v Hv]; [by rewrite (st_len _ _ (proj1 ar_state)) |]. pose proof (ar_mapped y Hr) as Hm6.
  destruct (decide (v = BTF_UNPROCESSED_ID)) as [->|Hne].
  - destruct (rs_new _ _ _ (rd_step _ _ _ Hrd) y t t' Ht Ht' Hv) as [[Hu _]|[_ Hrep]]; [|done].
    destruct Hm6 as (w & Hw & Hle). rewrite Hu in Hw. injection Hw as <-. by cbv in Hle.
  - exfalso. apply Hn. destruct Hm6 as (w & Hw & Hle). rewrite (rs_kept _ _ _ (rd_step _ _ _ Hrd) y v Hv Hne) in Hw. injection Hw as <-. by exists v.
Qed.

(** The representative of a type that was mapped before may stand for it. *)
Lemma ar_stands x t :
  btf_type_by_id (d_btf d5) x = Some t -> mapped (d_map d5) x ->
  exists r tr, canon (d_map d6) x r /\ btf_type_by_id (d_btf d5) r = Some tr /\ mapped (d_map d5) r /\
    stands_for (fwd_name (d_btf d5)) t tr.
Proof.
  intros Ht Hm. destruct ar_state as [S5 S6]. destruct (canon_mapped d5 x S5 (br_settled _ _ Hbr) Hm) as (r & Hc & Hr).
  destruct (st_type S5 r Hr) as (tr & Htr & _). exists r, tr. split_and!; [|done| |by eapply st_stands; [|apply Hc | |]].
  - apply (canon_step_kept d5); [done | apply (rs_kept _ _ _ (rd_step _ _ _ Hrd)) | done].
  - exists r. split; [apply Hc |]. pose proof (db_cnt _ (st_btf _ _ S5)). lia.
Qed.

(** The representative of another one consists of the same words. *)
Lemma ar_same x t' r tr' :
  btf_type_by_id (d_btf d6) x = Some t' -> ~ mapped (d_map d5) x -> canon (d_map d6) x r ->
  btf_type_by_id (d_btf d6) r = Some tr' -> own_words t' = own_words tr'.
Proof.
  intros Ht' Hn [Hr _] Htr'. destruct ar_state as [S5 S6]. destruct (ar_back x t' Ht') as (t & Ht & Hi).
  pose proof (se_kind _ (br_settled _ _ Hbr) x t Ht Hn) as Hk. destruct (info_derived t' t Hi) as (Hkk & _).
  destruct (st_stands S6 x r t' tr' Hr Ht' Htr') as [?|Hst]; [done |]. exfalso. rewrite Hkk in Hst. revert Hk Hst. by destruct (btf_kind t).
Qed.

(** Identifiers in own reference types are those of representatives. *)
Lemma ar_fields x t' off w :
  btf_type_by_id (d_btf d6) x = Some t' -> start_id (d_btf d5) <= x -> ref_kind (btf_kind t') ->
  off ∈ id_fields (btf_kind t') (btf_vlen t') -> type_word t' off = Some w -> self (d_map d6) w.
Proof.
  intros Ht' Ho Hk Hoff Hw. destruct (ar_back x t' Ht') as (t & Ht & Hi). destruct (info_derived t' t Hi) as (Hkk & Hvv & _).
  rewrite Hkk in *. rewrite Hvv in *. destruct (ar_replaced x t t' Ht Ht') as [_ Hf]; [by apply (br_refs _ _ Hbr x t) |].
  destruct (field_word _ x t BTF_FIELD_ITER_IDS off (db_ok _ (st_btf _ _ (proj1 ar_state))) Ht Hoff) as (_ & _ & _ & w0 & Hw0 & _).
  destruct (Hf off w0 Hoff Hw0) as (w' & Hw' & [_ Hs]). rewrite Hw in Hw'. by injection Hw' as <-.
Qed.

(** *** Types with the same representative are the same *)
Context (Hl5 : links_same (d_btf d5) (d_map d5)).

Let together (x y : Z) : Prop := exists r, canon (d_map d6) x r /\ canon (d_map d6) y r.
Let linked (x y : Z) : Prop := same_type (d_btf d5) x y \/ together x y.

(** A reference type whose identifiers have been replaced, and its representative. *)
Lemma ar_ref_fields x t r tr :
  btf_type_by_id (d_btf d5) x = Some t -> ~ mapped (d_map d5) x -> canon (d_map d6) x r ->
  btf_type_by_id (d_btf d5) r = Some tr -> same_fields linked t tr.
Proof.
  intros Ht Hn Hc Htr. destruct (ar_type x t Ht) as (t6 & Ht6). destruct (ar_type r tr Htr) as (tr6 & Htr6).
  pose proof (ar_same x t6 r tr6 Ht6 Hn Hc Htr6) as Hw. destruct (ar_replaced x t t6 Ht Ht6 Hn) as [Hs Hf].
  assert (Hr : same_shape tr tr6 /\ forall off w, off ∈ id_fields (btf_kind tr) (btf_vlen tr) -> type_word tr6 off = Some w ->
    self (d_map d6) w -> exists v, type_word tr off = Some v /\ canon (d_map d6) v w).
  { destruct (mapped_dec (d_map d5) r) as [Hm|Hm].
    - pose proof (ar_words r tr tr6 Htr Htr6 Hm) as Hwr. split; [by apply same_words_shape |]. intros off w Ho Hw6 Hself.
      exists w. split; [by rewrite (id_field_word tr tr6 off (eq_sym Hwr) Ho) | by apply canon_self].
    - destruct (ar_replaced r tr tr6 Htr Htr6 Hm) as [Hsr Hfr]. split; [done |]. intros off w Ho Hw6 _.
      destruct (field_word _ r tr BTF_FIELD_ITER_IDS off (db_ok _ (st_btf _ _ (proj1 ar_state))) Htr Ho) as (_ & _ & _ & v & Hv & _).
      destruct (Hfr off v Ho Hv) as (w' & Hw' & Hcv). rewrite Hw6 in Hw'. injection Hw' as <-. by exists v. }
  destruct Hr as [Hsr Hfr]. pose proof (same_words_shape t6 tr6 Hw) as Hsw.
  destruct (info_words_cnt t t6 (same_shape_info _ _ Hs)) as (_ & Hk6 & Hv6).
  destruct (info_words_cnt t6 tr6 (same_shape_info _ _ Hsw)) as (_ & Hkr & Hvr).
  destruct (info_words_cnt tr tr6 (same_shape_info _ _ Hsr)) as (_ & Hkt & Hvt).
  split; [eapply same_shape_trans; [exact Hs |]; eapply same_shape_trans; [exact Hsw | by apply same_shape_sym] |].
  intros off Ho. destruct (field_word _ x t BTF_FIELD_ITER_IDS off (db_ok _ (st_btf _ _ (proj1 ar_state))) Ht Ho) as (_ & _ & _ & w & Hww & _).
  destruct (Hf off w Ho Hww) as (w' & Hw' & Hcw). rewrite Hk6, Hv6 in Ho. rewrite (id_field_word t6 tr6 off Hw Ho) in Hw'.
  rewrite Hkr, Hvr, <- Hkt, <- Hvt in Ho. destruct (Hfr off w' Ho Hw' (proj2 Hcw)) as (v & Hv & Hcv).
  exists w, v. split_and!; [done.. |]. right. by exists w'.
Qed.

Lemma ar_agree x r :
  0 <= x < type_cnt (d_btf d5) -> canon (d_map d6) x r ->
  exists t tr, btf_type_by_id (d_btf d5) x = Some t /\ btf_type_by_id (d_btf d5) r = Some tr /\ agree (d_btf d5) linked t tr.
Proof.
  intros Hx Hc. destruct ar_state as [S5 _]. destruct (ar_canon x Hx) as (r' & Hc' & Hr). rewrite (canon_fun _ _ _ _ Hc' Hc) in Hr.
  destruct (mapped_dec (d_map d5) x) as [Hm|Hm].
  - destruct (canon_mapped d5 x S5 (br_settled _ _ Hbr) Hm) as (r5 & Hc5 & _).
    pose proof (canon_step_kept d5 d6 x r5 S5 (rs_kept _ _ _ (rd_step _ _ _ Hrd)) Hc5) as Hc6. rewrite (canon_fun _ _ _ _ Hc6 Hc) in Hc5.
    pose proof (st_same S5 Hl5 x r (proj1 Hc5)) as Hs. destruct (same_type_step _ _ _ Hs) as (t & tr & Ht & Htr & Ha).
    exists t, tr. split_and!; [done.. |]. eapply agree_mono; [|exact Ha]. by left.
  - destruct (st_type S5 x Hx) as (t & Ht & _). destruct (st_type S5 r Hr) as (tr & Htr & _). exists t, tr.
    split_and!; [done.. |]. apply agree_fields. by apply (ar_ref_fields x t r tr).
Qed.

Lemma ar_same_type x y r :
  0 <= x < type_cnt (d_btf d5) -> 0 <= y < type_cnt (d_btf d5) -> canon (d_map d6) x r -> canon (d_map d6) y r ->
  same_type (d_btf d5) x y.
Proof.
  intros Hx Hy Hcx Hcy. apply (same_type_upto (d_btf d5) together); [|by exists r]. clear x y r Hx Hy Hcx Hcy.
  intros x y (r & Hcx & Hcy).
  assert (Hr : forall z, canon (d_map d6) z r -> 0 <= z < type_cnt (d_btf d5)).
  { intros z [Hz _]. rewrite <- (proj2 ar_cnt), <- (st_len _ _ (proj2 ar_state)). by eapply resolves_range. }
  destruct (ar_agree x r (Hr x Hcx) Hcx) as (t & tr & Ht & Htr & Ha). destruct (ar_agree y r (Hr y Hcy) Hcy) as (u & tr' & Hu & Htr' & Ha').
  rewrite Htr in Htr'. injection Htr' as <-. exists t, u. split_and!; [done.. |].
  eapply (agree_trans _ _ _ tr); [intros ? ? ?; apply tc_transitive | |].
  - eapply agree_mono; [|exact Ha]. intros ? ? H. by apply tc_once.
  - eapply agree_mono; [|by apply agree_sym]. intros a c [H|(s & H1 & H2)]; apply tc_once; [left; by apply same_type_sym |].
    right. by exists s.
Qed.
End AfterRefs.
End Whole.
