(* ===== verification/DedupMerge.v ===== *)
(** * DedupMerge: compaction and renumbering after the passes over types

    The object after [btf_dedup_compact_types] and [btf_dedup_remap_types] of [Dedup], in
    terms of the one before the passes over types: a renaming of identifiers takes every
    type to one that may stand for it, only types that are the same get the same identifier,
    and no two types that are compared exactly are left with the same words. *)
From S2P Require Import Prelude Hashmap Mem Strset BtfTypes Btf BtfFind BtfParse BtfRaw BtfWrite BtfBuild DedupTypes Dedup DedupState DedupWrite DedupSame DedupFields DedupRef DedupCompact DedupWhole.
Open Scope Z_scope.
Open Scope dedup_scope.

#[local] Opaque kind_of_Z.

(** The words of [t'] are those of [t] with the identifiers renamed. *)
Definition renamed (f : Z -> Z) (t t' : btf_type) : Prop :=
  fields_rel (fun w w' => w' = f w) (id_fields (btf_kind t) (btf_vlen t)) t t'.

(** The object [b'] has the types of [b], renamed by [f]. *)
Record merged (b b' : btf) (f : Z -> Z) : Prop := {
  mg_btf : dedup_btf b';
  mg_start : start_id b' = start_id b;
  mg_cnt : type_cnt b' <= type_cnt b;
  mg_base : base_btf b' = base_btf b;
  mg_strs : forall off s, string_at b' off s <-> string_at b off s;
  mg_rep : rep_ok b -> modifiable b = true -> rep_ok b';
  mg_void : f 0 = 0;
  mg_onto : forall y, start_id b' <= y < type_cnt b' -> exists x, start_id b <= x < type_cnt b /\ f x = y;
  (** Every type has a representative [r], whose words are those of the type [f x], with the
      identifiers renamed when it is not a type of the base. *)
  mg_types : forall x t, btf_type_by_id b x = Some t -> exists r tr t',
    btf_type_by_id b r = Some tr /\ f r = f x /\ stands_for (fwd_name b) t tr /\ btf_type_by_id b' (f x) = Some t' /\
    if decide (start_id b <= r) then renamed f tr t' else f r = r /\ own_words t' = own_words tr;
  (** Only types that are the same get the same identifier. *)
  mg_same : forall x y, 0 <= x < type_cnt b -> 0 <= y < type_cnt b -> f x = f y -> same_type b x y;
  (** Types that are compared exactly are there once.  Forward declarations are left out: their
      unused word is renamed like an identifier. *)
  mg_unique : forall y t z u, start_id b' <= y -> btf_type_by_id b' y = Some t -> btf_type_by_id b' z = Some u ->
    start_id b' <= z \/ f z = z -> 0 < z ->
    exact_kind (btf_kind t) -> btf_kind t <> BTF_KIND_FWD -> own_words t = own_words u -> y = z
}.

(** ** Words *)
Lemma own_words_ext b x t b' x' t' :
  btf_ok b -> btf_type_by_id b x = Some t -> btf_ok b' -> btf_type_by_id b' x' = Some t' -> info t = info t' ->
  (forall off, 0 <= off < 12 + 4 * words_cnt t -> off mod 4 = 0 -> type_word t off = type_word t' off) -> own_words t = own_words t'.
Proof.
  intros Hb Ht Hb' Ht' Hi Hw. destruct (own_words_ok b x t Hb Ht) as [Hl _]. destruct (own_words_ok b' x' t' Hb' Ht') as [Hl' _].
  destruct (info_words_cnt t t' Hi) as (Hc & _ & _). apply list_eq. intros i.
  destruct (decide (Z.of_nat i < 3 + words_cnt t)) as [Hlt|Hge].
  2:{ rewrite !lookup_ge_None_2; [done | unfold zlen in *; lia..]. }
  specialize (Hw (4 * Z.of_nat i) ltac:(lia) ltac:(apply Z.mod_divide; [lia | exists (Z.of_nat i); lia])).
  rewrite !type_word_own in Hw by (rewrite <- ?Hc; lia || (apply Z.mod_divide; [lia | exists (Z.of_nat i); lia])).
  rewrite Z.mul_comm, Z.div_mul in Hw by lia. unfold znth in Hw. rewrite Nat2Z.id in Hw. by replace (Z.of_nat i <? 0) with false in Hw by lia.
Qed.

(** Fields replaced by an injection. *)
Lemma fields_rel_inj (R R' : Z -> Z -> Prop) b x t t' c y u u' :
  btf_ok b -> btf_type_by_id b x = Some t -> btf_ok c -> btf_type_by_id c y = Some u ->
  fields_rel R (id_fields (btf_kind t) (btf_vlen t)) t t' -> fields_rel R' (id_fields (btf_kind u) (btf_vlen u)) u u' ->
  own_words t' = own_words u' ->
  (forall off w w' v, off ∈ id_fields (btf_kind t) (btf_vlen t) -> type_word t off = Some w -> type_word u off = Some w' ->
     R w v -> R' w' v -> w = w') ->
  own_words t = own_words u.
Proof.
  intros Hb Ht Hc Hu [Hi Hf] [Hi' Hf'] Hw Hinj. destruct (same_words_fields t' u' Hw) as (_ & Hiu & _).
  assert (Hitu : info t = info u) by congruence. destruct (info_words_cnt t u Hitu) as (Hcn & Hk & Hv).
  destruct (info_words_cnt t' t Hi) as (Hc1 & _ & _). destruct (info_words_cnt u' u Hi') as (Hc2 & _ & _).
  apply (own_words_ext b x t c y u Hb Ht Hc Hu Hitu). intros off Hr Hm. specialize (Hf off Hr Hm).
  rewrite Hcn in Hr. specialize (Hf' off Hr Hm). rewrite <- Hk, <- Hv in Hf'.
  assert (Hsame : type_word t' off = type_word u' off) by (rewrite !type_word_own by (rewrite ?Hc1, ?Hc2, ?Hcn; done); by rewrite Hw).
  destruct (decide (off ∈ id_fields (btf_kind t) (btf_vlen t))) as [Hin|]; [|congruence].
  destruct Hf as (w & v & H1 & H2 & H3). destruct Hf' as (w' & v' & H1' & H2' & H3'). rewrite H1, H1'.
  rewrite Hsame, H2' in H2. injection H2 as <-. by rewrite (Hinj off w w' v' Hin H1 H1' H3 H3').
Qed.

(** Only the strings and the base matter for a string offset. *)
Lemma string_at_same b b' off s :
  base_btf b' = base_btf b -> btf_strs_data b' = btf_strs_data b -> str_len (hdr b') = str_len (hdr b) ->
  start_str_off b' = start_str_off b -> string_at b' off s <-> string_at b off s.
Proof. intros H1 H2 H3 H4. unfold string_at. rewrite (btf__str_by_offset_eq b'), (btf__str_by_offset_eq b). by rewrite H1, H2, H3, H4. Qed.

Lemma new_id_own m start c : start <= c <-> start <= new_id m start c.
Proof.
  unfold new_id. pose proof (kept_cnt_range m start (Z.to_nat (c - start))). destruct (c <? start) eqn:Hc; lia.
Qed.

Lemma new_id_low m start c : c < start -> new_id m start c = c.
Proof. intros Hc. unfold new_id. by replace (c <? start) with true by lia. Qed.

Lemma rep_ok_types b ws c offs oc n : c = types_data_cap b -> rep_ok b -> rep_ok (set_types b ws c offs oc n).
Proof. intros -> [Hown Hb]%rep_ok_unfold. apply rep_ok_unfold. split; [exact Hown | exact Hb]. Qed.

(** ** The result *)
Section Result.
Context {C : hash_ctx} {DC : DedupCtx C} {d0 d5 d6 d7 d8 : btf_dedup} {cs : list (list Z)}.
Context (Hbr : before_refs d0 d5) (Hrd : refs_done d5 (type_cnt (d_btf d5)) d6) (Hclosed : base_closed (d_btf d5))
  (Hl5 : links_same (d_btf d5) (d_map d5)).
Context (Hcs : types_ok (d_btf d6) cs) (Hcp : compacted d6 cs d7).
Context (Hps : pass_done BTF_FIELD_ITER_IDS remap_step (remap_inv (d_map d6) (hypot_map d7))
  (fun _ => remap_rel (d_map d6) (start_id (d_btf d5))) d7 (type_cnt (d_btf d7)) d8).

(** The new identifier of the representative. *)
Definition final_id (m : list Z) (start x : Z) : Z := new_id m start (root m x).

Lemma final_canon m start x r : canon m x r -> final_id m start x = new_id m start r.
Proof. intros Hc. unfold final_id. by rewrite (canon_root m x r Hc). Qed.

Lemma re_starts : start_id (d_btf d6) = start_id (d_btf d5) /\ start_id (d_btf d7) = start_id (d_btf d5) /\
  start_id (d_btf d8) = start_id (d_btf d5) /\ type_cnt (d_btf d6) = type_cnt (d_btf d5) /\ type_cnt (d_btf d8) = type_cnt (d_btf d7).
Proof.
  destruct (ar_cnt Hrd) as [H1 H2]. destruct (pa_fields _ _ _ _ _ _ _ Hps) as (H3 & H4 & _). pose proof (cp_start _ _ _ Hcp).
  split_and!; congruence.
Qed.

(** A type that was kept. *)
Lemma re_kept c t : self (d_map d6) c -> btf_type_by_id (d_btf d6) c = Some t ->
  exists t', btf_type_by_id (d_btf d8) (new_id (d_map d6) (start_id (d_btf d5)) c) = Some t' /\
    if decide (start_id (d_btf d5) <= c)
    then fields_rel (remap_rel (d_map d6) (start_id (d_btf d5))) (id_fields (btf_kind t) (btf_vlen t)) t t'
    else own_words t' = own_words t.
Proof.
  intros Hs Ht. pose proof (st_btf _ _ (proj2 (ar_state Hbr Hrd))) as Hdb. pose proof (btf_type_by_id_range _ _ _ (db_ok _ Hdb) Ht) as Hr.
  destruct re_starts as (E6 & E7 & E8 & _). destruct (compacted_type Hdb Hcs Hcp c t Hs ltac:(lia) Ht) as (t7 & Ht7 & Hw7). rewrite E6 in Ht7.
  pose proof (btf_type_by_id_range _ _ _ (cp_ok _ _ _ Hcp) Ht7) as Hr7. pose proof (new_id_own (d_map d6) (start_id (d_btf d5)) c) as Hno.
  destruct (pa_fields _ _ _ _ _ _ _ Hps) as (_ & _ & Hf). destruct (Hf _ t7 Ht7) as (t8 & Ht8 & Hc). exists t8. split; [done |].
  rewrite E7 in Hc. destruct (same_words_fields t7 t Hw7) as (_ & Hi7 & _). destruct (info_derived t7 t Hi7) as (Hk & Hv & _).
  destruct (decide (start_id (d_btf d5) <= c)) as [Ho|Ho].
  - rewrite decide_True in Hc by (split; [by apply Hno | lia]). destruct Hc as [Hc _]. cbn [kind_fields] in Hc. rewrite Hk, Hv in Hc.
    by eapply fields_rel_words.
  - rewrite decide_False in Hc by (intros [? _]; by apply Ho, Hno). congruence.
Qed.

(** Every own type is one that was kept. *)
Lemma re_inv y : start_id (d_btf d5) <= y < type_cnt (d_btf d8) ->
  exists x, start_id (d_btf d5) <= x < type_cnt (d_btf d5) /\ self (d_map d6) x /\ new_id (d_map d6) (start_id (d_btf d5)) x = y.
Proof.
  intros Hy. destruct re_starts as (E6 & E7 & E8 & C6 & C8). pose proof (db_start (st_btf _ _ (proj1 (ar_state Hbr Hrd)))) as [H1 _].
  destruct (compacted_inv Hcs Hcp y) as [Hlt|(x & Hx & Hs & Hn)]; [lia | lia |]. rewrite E6, C6 in *. by exists x.
Qed.

Lemma re_type y t : btf_type_by_id (d_btf d8) y = Some t -> 0 <= y < type_cnt (d_btf d8).
Proof. apply btf_type_by_id_range, (ri_ok _ _ _ (pa_inv _ _ _ _ _ _ _ Hps)). Qed.

(** Types of the base keep their words. *)
Lemma re_base y t : y < start_id (d_btf d5) -> btf_type_by_id (d_btf d8) y = Some t ->
  exists t5, btf_type_by_id (d_btf d5) y = Some t5 /\ own_words t = own_words t5 /\ mapped (d_map d5) y.
Proof.
  intros Hy Ht. pose proof (re_type y t Ht) as Hr. destruct re_starts as (E6 & E7 & E8 & C6 & C8).
  destruct (ar_state Hbr Hrd) as [S5 S6]. pose proof (compacted_cnt Hcs Hcp) as Hle.
  destruct (st_type S5 y) as (t5 & Ht5 & _); [lia |]. exists t5. split; [done |].
  assert (Hm5 : mapped (d_map d5) y) by (apply (base_is_mapped Hbr); lia). split; [|done].
  destruct (ar_type Hbr Hrd y t5 Ht5) as (t6 & Ht6). pose proof (ar_words Hrd y t5 t6 Ht5 Ht6 Hm5) as Hw6.
  assert (Ht7 : btf_type_by_id (d_btf d7) y = Some t6).
  { rewrite btf_type_by_id_eq in Ht6 |- *. rewrite (cp_start _ _ _ Hcp), (cp_base _ _ _ Hcp), E6 in *. destruct (y =? 0); [done |].
    replace (y <? start_id (d_btf d5)) with true in * by lia. done. }
  destruct (pa_fields _ _ _ _ _ _ _ Hps) as (_ & _ & Hf). destruct (Hf y t6 Ht7) as (t8 & Ht8 & Hc). rewrite decide_False in Hc by lia.
  rewrite Ht in Ht8. injection Ht8 as <-. congruence.
Qed.

(** The new identifier of a word. *)
Lemma re_rel w w' : remap_rel (d_map d6) (start_id (d_btf d5)) w w' -> w' = final_id (d_map d6) (start_id (d_btf d5)) w.
Proof. intros (r & Hc & ->). by rewrite (final_canon _ _ w r Hc). Qed.

(** A type that had been mapped before the pass over reference types. *)
Lemma re_mapped x t : btf_type_by_id (d_btf d5) x = Some t -> mapped (d_map d5) x ->
  let f := final_id (d_map d6) (start_id (d_btf d5)) in
  exists r tr t', btf_type_by_id (d_btf d5) r = Some tr /\ f r = f x /\ stands_for (fwd_name (d_btf d5)) t tr /\
    btf_type_by_id (d_btf d8) (f x) = Some t' /\
    if decide (start_id (d_btf d5) <= r) then renamed f tr t' else f r = r /\ own_words t' = own_words tr.
Proof.
  intros Ht Hm f. destruct (ar_stands Hbr Hrd x t Ht Hm) as (r & tr & Hc & Htr & Hmr & Hst).
  destruct (ar_type Hbr Hrd r tr Htr) as (tr6 & Htr6). pose proof (ar_words Hrd r tr tr6 Htr Htr6 Hmr) as Hw6.
  destruct (re_kept r tr6 (proj2 Hc) Htr6) as (t' & Ht' & Hcase). pose proof (canon_self _ _ (proj2 Hc)) as Hcr.
  pose proof (final_canon _ (start_id (d_btf d5)) x r Hc) as Hfx. pose proof (final_canon _ (start_id (d_btf d5)) r r Hcr) as Hfr.
  exists r, tr, t'. unfold f. rewrite Hfx, Hfr. split_and!; [done.. |].
  destruct (same_words_fields tr6 tr Hw6) as (_ & Hi & _). destruct (info_derived tr6 tr Hi) as (Hk & Hv & _).
  destruct (decide (start_id (d_btf d5) <= r)) as [Ho|Ho]; [|split; [apply new_id_low; lia | congruence]].
  unfold renamed. rewrite <- Hk, <- Hv. eapply fields_rel_words; [exact Hw6 | reflexivity |].
  eapply fields_rel_mono; [|exact Hcase]. apply re_rel.
Qed.

(** Identifiers in the representative of a reference type. *)
Lemma re_ref_field r tr t' off w :
  self (d_map d6) r -> btf_type_by_id (d_btf d6) r = Some tr ->
  btf_type_by_id (d_btf d8) (new_id (d_map d6) (start_id (d_btf d5)) r) = Some t' ->
  off ∈ id_fields (btf_kind tr) (btf_vlen tr) -> type_word tr off = Some w -> self (d_map d6) w ->
  type_word t' off = Some (new_id (d_map d6) (start_id (d_btf d5)) w).
Proof.
  intros Hs Htr Ht' Hoff Hw Hsw. destruct (re_kept r tr Hs Htr) as (u & Hu & Hcase). rewrite Ht' in Hu. injection Hu as <-.
  destruct (decide (start_id (d_btf d5) <= r)) as [Ho|Ho].
  - destruct Hcase as [_ Hf]. destruct (fields_room BTF_FIELD_ITER_IDS _ _ off (proj1 (vlen_range tr)) Hoff) as (Hr & Hm & _).
    specialize (Hf off Hr Hm). rewrite decide_True in Hf by done. destruct Hf as (w1 & w' & H1 & H2 & H3). rewrite Hw in H1. injection H1 as <-.
    rewrite H2, (re_rel _ _ H3). by rewrite (final_canon _ _ w w (canon_self _ _ Hsw)).
  - rewrite <- (id_field_word tr t' off (eq_sym Hcase) Hoff), Hw. f_equal. symmetry. apply new_id_low.
    rewrite (new_id_low _ _ r) in Ht' by lia. destruct (re_base r t' ltac:(lia) Ht') as (t5 & Ht5 & Hw5 & _).
    assert (Hw6 : own_words tr = own_words t5) by congruence. destruct (same_words_fields tr t5 Hw6) as (_ & Hi & _).
    destruct (info_derived tr t5 Hi) as (Hk & Hv & _). apply (Hclosed r t5 off w); [lia | done | by rewrite <- Hk, <- Hv |].
    by rewrite <- (id_field_word tr t5 off Hw6 Hoff).
Qed.

(** The other types: their own words with the identifiers renamed. *)
Lemma re_unmapped x t : btf_type_by_id (d_btf d5) x = Some t -> ~ mapped (d_map d5) x ->
  let f := final_id (d_map d6) (start_id (d_btf d5)) in
  exists t', btf_type_by_id (d_btf d8) (f x) = Some t' /\ renamed f t t'.
Proof.
  intros Ht Hn f. destruct (ar_state Hbr Hrd) as [S5 S6]. pose proof (btf_type_by_id_range _ _ _ (db_ok _ (st_btf _ _ S5)) Ht) as Hr.
  destruct (ar_canon Hbr Hrd x Hr) as (r & Hc & Hrr). destruct (ar_type Hbr Hrd x t Ht) as (t6 & Ht6).
  destruct re_starts as (_ & _ & _ & C6 & _). rewrite <- C6 in Hrr. destruct (st_type S6 r Hrr) as (tr & Htr & _).
  pose proof (ar_same Hbr Hrd x t6 r tr Ht6 Hn Hc Htr) as Hw. destruct (ar_replaced Hbr Hrd x t t6 Ht Ht6 Hn) as [[Hi Hsh] Hrep].
  destruct (re_kept r tr (proj2 Hc) Htr) as (t' & Ht' & Hcase). exists t'. unfold f. rewrite (final_canon _ _ x r Hc). split; [done |].
  assert (Hi' : info t' = info tr) by (destruct (decide _); [apply Hcase | by apply same_words_fields in Hcase as (_ & ? & _)]).
  destruct (same_words_fields t6 tr Hw) as (_ & Hi6 & _). assert (Hit : info tr = info t) by congruence.
  destruct (info_words_cnt tr t Hit) as (Hcn & Hk & Hv). destruct (info_words_cnt t6 tr Hi6) as (Hc6 & Hk6 & Hv6).
  split; [congruence |]. intros off Ho Hm. destruct (decide (off ∈ _)) as [Hin|Hni].
  - destruct (field_word _ x t BTF_FIELD_ITER_IDS off (db_ok _ (st_btf _ _ S5)) Ht Hin) as (_ & _ & _ & w & Hww & _).
    destruct (Hrep off w Hin Hww) as (w' & Hw' & Hcw). exists w, (final_id (d_map d6) (start_id (d_btf d5)) w). split_and!; [done | | done].
    rewrite (final_canon _ _ w w' Hcw). rewrite <- Hk, <- Hv in Hin. apply (re_ref_field r tr t' off w' (proj2 Hc) Htr Ht' Hin); [|apply Hcw].
    rewrite <- Hw'. symmetry. apply id_field_word; [done |]. by rewrite Hk6, Hv6.
  - rewrite (Hsh off Ho Hm Hni). assert (Htw : type_word tr off = type_word t6 off).
    { rewrite !type_word_own by (rewrite ?Hc6, ?Hcn; done). by rewrite Hw. }
    rewrite <- Htw. destruct (decide (start_id (d_btf d5) <= r)).
    + destruct Hcase as [_ Hf]. specialize (Hf off). rewrite Hcn in Hf. specialize (Hf Ho Hm). by rewrite Hk, Hv, decide_False in Hf.
    + destruct (info_words_cnt t' tr Hi') as (Hc' & _ & _). rewrite !type_word_own by (rewrite ?Hc', ?Hcn; done). by rewrite Hcase.
Qed.

(** A type that is compared exactly and has identifiers is a reference type. *)
Lemma exact_ids k vlen off : exact_kind k -> k <> BTF_KIND_FWD -> off ∈ id_fields k vlen -> ref_kind k.
Proof. destruct k; cbn; intros He Hne Hin; first [done | by apply not_elem_of_nil in Hin]. Qed.

(** A type of the result: the words [u] had before, and how the identifiers were replaced.  In
    an exactly compared type this is one-to-one. *)
Record origin (y : Z) (t : btf_type) (x : Z) (u : btf_type) (R : Z -> Z -> Prop) : Prop := {
  og_self : self (d_map d6) x;
  og_type : btf_type_by_id (d_btf d6) x = Some u;
  og_id : y = new_id (d_map d6) (start_id (d_btf d5)) x;
  og_rel : fields_rel R (id_fields (btf_kind u) (btf_vlen u)) u t;
  og_inj : forall off w v, exact_kind (btf_kind u) -> btf_kind u <> BTF_KIND_FWD -> off ∈ id_fields (btf_kind u) (btf_vlen u) ->
    type_word u off = Some w -> R w v ->
    if decide (start_id (d_btf d5) <= x) then self (d_map d6) w /\ v = new_id (d_map d6) (start_id (d_btf d5)) w
    else w < start_id (d_btf d5) /\ v = w
}.

Lemma re_origin_own y t : start_id (d_btf d5) <= y -> btf_type_by_id (d_btf d8) y = Some t ->
  exists x u R, origin y t x u R /\ start_id (d_btf d5) <= x.
Proof.
  intros Hy Ht. destruct (re_inv y) as (x & Hx & Hs & Hn); [pose proof (re_type y t Ht); lia |].
  pose proof (db_start (st_btf _ _ (proj1 (ar_state Hbr Hrd)))) as [H1 _]. destruct re_starts as (_ & _ & _ & C6 & _).
  destruct (st_type (proj2 (ar_state Hbr Hrd)) x) as (u & Hu & _); [lia |].
  destruct (re_kept x u Hs Hu) as (t' & Ht' & Hcase). rewrite Hn, Ht in Ht'. injection Ht' as <-. rewrite decide_True in Hcase by lia.
  exists x, u, (remap_rel (d_map d6) (start_id (d_btf d5))). split; [|lia]. split; [done.. | |].
  - done.
  - intros off w v He Hne Hin Hw Hrel. rewrite decide_True by lia.
    pose proof (ar_fields Hbr Hrd x u off w Hu ltac:(lia) (exact_ids _ _ off He Hne Hin) Hin Hw) as Hsw. split; [done |].
    rewrite (re_rel _ _ Hrel). by rewrite (final_canon _ _ w w (canon_self _ _ Hsw)).
Qed.

Lemma re_origin_base y t : y < start_id (d_btf d5) -> btf_type_by_id (d_btf d8) y = Some t ->
  final_id (d_map d6) (start_id (d_btf d5)) y = y -> exists u R, origin y t y u R.
Proof.
  intros Hy Ht Hf. destruct (re_base y t Hy Ht) as (t5 & Ht5 & Hw5 & Hm5). destruct (ar_type Hbr Hrd y t5 Ht5) as (u & Hu).
  pose proof (ar_words Hrd y t5 u Ht5 Hu Hm5) as Hw6. pose proof (btf_type_by_id_range _ _ _ (db_ok _ (st_btf _ _ (proj1 (ar_state Hbr Hrd)))) Ht5) as Hr.
  destruct (ar_canon Hbr Hrd y Hr) as (r & Hc & _). rewrite (final_canon _ _ y r Hc) in Hf.
  assert (Hry : r = y).
  { destruct (decide (start_id (d_btf d5) <= r)) as [Ho|Ho]; [apply (new_id_own (d_map d6)) in Ho; lia | by rewrite new_id_low in Hf by lia]. }
  exists u, (fun w v => w < start_id (d_btf d5) /\ v = w). split.
  - destruct Hc as [_ Hs]. by rewrite Hry in Hs.
  - done.
  - symmetry. by apply new_id_low.
  - destruct (same_words_fields u t5 Hw6) as (_ & Hi & _). destruct (info_words_cnt u t5 Hi) as (Hcn & Hk & Hv).
    assert (Hwt : own_words t = own_words u) by congruence. destruct (same_words_fields t u Hwt) as (_ & Hit & _).
    destruct (info_words_cnt t u Hit) as (Hct & _ & _). split; [done |]. intros off Ho Hm.
    assert (Hsame : type_word t off = type_word u off) by (rewrite !type_word_own by (rewrite ?Hct; done); by rewrite Hwt).
    destruct (decide (off ∈ _)) as [Hin|]; [|done].
    destruct (field_word _ y u BTF_FIELD_ITER_IDS off (db_ok _ (st_btf _ _ (proj2 (ar_state Hbr Hrd)))) Hu Hin) as (_ & _ & _ & w & Hww & _).
    exists w, w. split_and!; [done | congruence | | done]. apply (Hclosed y t5 off w Hy Ht5); [by rewrite <- Hk, <- Hv |].
    by rewrite <- (id_field_word u t5 off Hw6 Hin).
  - intros off w v _ _ _ _ Hrel. by rewrite decide_False by lia.
Qed.

(** Types that are compared exactly have different words. *)
Lemma re_unique y t x u R z v xz uz R' :
  origin y t x u R -> start_id (d_btf d5) <= x -> origin z v xz uz R' -> 0 < z ->
  exact_kind (btf_kind t) -> btf_kind t <> BTF_KIND_FWD -> own_words t = own_words v -> y = z.
Proof.
  intros O Ho O' Hz He Hne Hw. destruct (ar_state Hbr Hrd) as [S5 S6]. pose proof (db_start (st_btf _ _ S5)) as [H1 _].
  pose proof (db_ok _ (st_btf _ _ S6)) as Hok6. destruct (same_words_fields t v Hw) as (_ & Hitv & _).
  destruct (info_derived t u (proj1 (og_rel _ _ _ _ _ O))) as (Hk & _ & _).
  destruct (info_derived v uz (proj1 (og_rel _ _ _ _ _ O'))) as (Hk' & Hv' & _). destruct (info_derived t v Hitv) as (Hkv & Hvv & _).
  destruct (info_derived t u (proj1 (og_rel _ _ _ _ _ O))) as (_ & Hv & _).
  assert (Hwu : own_words u = own_words uz).
  { eapply (fields_rel_inj R R' (d_btf d6) x u t (d_btf d6) xz uz v); [done | apply O | done | apply O' | apply O | apply O' | done |].
    intros off w w' n Hin Hwo Hwo' HR HR'. pose proof (og_inj _ _ _ _ _ O off w n) as I1. pose proof (og_inj _ _ _ _ _ O' off w' n) as I2.
    rewrite decide_True in I1 by done. rewrite <- Hk in I1. destruct (I1 He Hne) as [Hsw Hn]; [by rewrite Hk | done | done |].
    rewrite <- Hk', <- Hkv in I2. specialize (I2 He Hne). rewrite Hk in I2.
    replace (btf_vlen uz) with (btf_vlen u) in I2 by congruence. specialize (I2 Hin Hwo' HR'). destruct (decide _).
    - destruct I2 as [Hsw' Hn']. apply (new_id_inj (d_map d6) (start_id (d_btf d5))); [lia | done | done | congruence].
    - destruct I2 as [Hlt Hn']. destruct (decide (start_id (d_btf d5) <= w)) as [Hw0|Hw0].
      + apply (new_id_own (d_map d6)) in Hw0. lia.
      + rewrite new_id_low in Hn by lia. congruence. }
  rewrite (og_id _ _ _ _ _ O), (og_id _ _ _ _ _ O'). f_equal. destruct re_starts as (E6 & _).
  assert (Hxz : 0 < xz).
  { pose proof (btf_type_by_id_range _ _ _ Hok6 (og_type _ _ _ _ _ O')) as Hr. destruct (decide (xz = 0)) as [->|]; [|lia].
    pose proof (og_id _ _ _ _ _ O') as Hid. rewrite new_id_low in Hid by lia. lia. }
  apply (ex_unique _ (st_exact _ _ S6) x u xz uz); [split_and!.. | lia | done].
  - apply O.
  - apply O.
  - by rewrite <- Hk.
  - lia.
  - apply O'.
  - apply O'.
  - by rewrite <- Hk', <- Hkv.
  - done.
Qed.

(** The identifiers of the result are those of its types. *)
Lemma re_dedup : dedup_btf (d_btf d8).
Proof.
  destruct (ar_state Hbr Hrd) as [S5 S6]. pose proof (st_btf _ _ S6) as Hdb6. pose proof (db_start (st_btf _ _ S5)) as [H1 H0].
  destruct re_starts as (E6 & E7 & E8 & C6 & C8). pose proof (compacted_cnt Hcs Hcp) as Hle. pose proof (db_cnt _ Hdb6) as Hcnt.
  pose proof (ri_ok _ _ _ (pa_inv _ _ _ _ _ _ _ Hps)) as Hok. split; [done | lia |]. intros id t off w Ht Hoff Hw.
  pose proof (re_type id t Ht) as Hr. destruct (decide (start_id (d_btf d5) <= id)) as [Ho|Ho].
  - destruct (re_inv id) as (x & Hx & Hs & Hn); [lia |]. destruct (st_type S6 x) as (u & Hu & _); [lia |].
    destruct (re_kept x u Hs Hu) as (t' & Ht' & Hcase). rewrite Hn, Ht in Ht'. injection Ht' as <-. rewrite decide_True in Hcase by lia.
    destruct Hcase as [Hi Hf]. destruct (info_words_cnt t u Hi) as (Hcn & Hk & Hv). rewrite Hk, Hv in Hoff.
    destruct (fields_room BTF_FIELD_ITER_IDS _ _ off (proj1 (vlen_range u)) Hoff) as (Hro & Hm & _). specialize (Hf off Hro Hm).
    rewrite decide_True in Hf by done. destruct Hf as (w0 & w' & _ & H2 & (r & Hc & ->)). rewrite Hw in H2. injection H2 as ->.
    destruct Hc as [_ Hself]. pose proof Hself as Hrr%znth_Some. rewrite (st_len _ _ S6) in Hrr. rewrite C8, <- E6.
    by apply (new_id_cnt Hdb6 Hcs Hcp).
  - destruct (re_base id t ltac:(lia) Ht) as (t5 & Ht5 & Hw5 & _). destruct (same_words_fields t t5 Hw5) as (_ & Hi & _).
    destruct (info_derived t t5 Hi) as (Hk & Hv & _). assert (Hw' : type_word t5 off = Some w) by (by rewrite <- (id_field_word t t5 off Hw5 Hoff)).
    rewrite Hk, Hv in Hoff. pose proof (Hclosed id t5 off w ltac:(lia) Ht5 Hoff Hw'). pose proof (db_ids _ (st_btf _ _ S5) id t5 off w Ht5 Hoff Hw').
    pose proof (btf_ok_start _ Hok) as Hst. unfold type_cnt in *. lia.
Qed.

Lemma result_merged : merged (d_btf d5) (d_btf d8) (final_id (d_map d6) (start_id (d_btf d5))).
Proof.
  destruct (ar_state Hbr Hrd) as [S5 S6]. pose proof (db_start (st_btf _ _ S5)) as [H1 H0].
  destruct re_starts as (E6 & E7 & E8 & C6 & C8). pose proof (compacted_cnt Hcs Hcp) as Hle.
  destruct (rs_types _ _ _ (rd_step _ _ _ Hrd)) as [ws6 Hb6]. destruct (pa_step _ _ _ _ _ _ _ Hps) as (_ & _ & [ws8 Hb8]).
  destruct (cp_strs _ _ _ Hcp) as (Hs1 & Hs2 & Hs3). pose proof (cp_base _ _ _ Hcp) as Hbase. split.
  - apply re_dedup.
  - done.
  - lia.
  - rewrite Hb8. cbn [base_btf set_types]. rewrite Hbase, Hb6. done.
  - intros off s. rewrite Hb8. etrans; [apply string_at_same; reflexivity |].
    etrans; [apply (string_at_same (d_btf d6)); done |]. rewrite Hb6. apply string_at_same; reflexivity.
  - intros Hrep Hmod. rewrite Hb8. apply rep_ok_types; [done |]. apply (cp_rep _ _ _ Hcp); rewrite Hb6; [by apply rep_ok_types | done].
  - rewrite (final_canon _ _ 0 0); [apply new_id_low; lia |]. apply canon_self, (st_zero _ _ S6).
  - intros y Hy. rewrite E8 in Hy. destruct (re_inv y Hy) as (x & Hx & Hs & Hn). exists x. split; [done |].
    by rewrite (final_canon _ _ x x (canon_self _ _ Hs)).
  - intros x t Ht. destruct (mapped_dec (d_map d5) x) as [Hm|Hm]; [by apply re_mapped |].
    destruct (re_unmapped x t Ht Hm) as (t' & Ht' & Hren). exists x, t, t'. split_and!; [done | done | apply stands_for_refl | done |].
    rewrite decide_True; [done |]. apply (se_own _ (br_settled _ _ Hbr)); [|done].
    by eapply btf_type_by_id_range; [apply (st_btf _ _ S5) |].
  - intros x y Hx Hy. destruct (ar_canon Hbr Hrd x Hx) as (r & Hcx & _). destruct (ar_canon Hbr Hrd y Hy) as (r' & Hcy & _).
    rewrite (final_canon _ _ x r Hcx), (final_canon _ _ y r' Hcy). intros Hn.
    apply new_id_inj in Hn; [|lia | apply Hcx | apply Hcy]. subst r'. by apply (ar_same_type Hbr Hrd Hl5 x y r).
  - intros y t z u Hy Ht Hu Hz Hz0 He Hne Hw. rewrite E8 in *. destruct (re_origin_own y t Hy Ht) as (x & ux & R & O & Hx).
    assert (exists xz uz R', origin z u xz uz R') as (xz & uz & R' & O').
    { destruct (decide (start_id (d_btf d5) <= z)) as [Hge|Hlt].
      - destruct (re_origin_own z u Hge Hu) as (xz & uz & R' & O' & _). by exists xz, uz, R'.
      - destruct (re_origin_base z u) as (uz & R' & O'); [lia | done | by destruct Hz; [lia |] |]. by exists z, uz, R'. }
    by apply (re_unique y t x ux R z u xz uz R').
Qed.
End Result.
