(* ===== verification/DedupRun.v ===== *)
(** * DedupRun: [btf__dedup] as a whole

    The call returns for every object whose identifiers and string offsets are valid and
    whose chains of modifiers, pointers and the like end.  When it succeeds, the names of
    the types denote the strings they denoted before, a renaming takes every type to one
    that may stand for it and merges only types that are the same, and the types that are
    compared exactly are there once. *)
From S2P Require Import Prelude Hashmap Mem Strset BtfTypes Btf BtfFind BtfParse BtfRaw BtfWrite BtfBuild DedupTypes Dedup DedupState DedupPrim DedupEquiv DedupSame DedupStruct DedupFwd DedupWrite DedupFields DedupRef DedupStrings DedupCompact DedupInit DedupWhole DedupMerge.
Open Scope Z_scope.
Open Scope dedup_scope.

#[local] Opaque kind_of_Z.

(** The errors of the whole. *)
Definition dedup_error (r : Z) : Prop := r = - ENOMEM \/ r = - EINVAL \/ r = - EOPNOTSUPP \/ r = - ELOOP.

Lemma dedup_error_negative r : dedup_error r -> negative r = true.
Proof. intros [->|[->|[->| ->]]]; reflexivity. Qed.

(** What the call relies on. *)
Record dedup_input (b : btf) (rank : Z -> Z) : Prop := {
  di_btf : dedup_btf b;
  di_rep : rep_ok b;
  di_chains : chains_end b rank;
  di_closed : base_closed b;
  di_max : start_str_off b + str_len (hdr b) <= INT_MAX;
  di_first : base_btf b = None -> string_at b 0 [];
  di_base : forall base, base_btf b = Some base -> 0 < start_str_off b;
  di_strs : forall x t off w, start_id b <= x -> btf_type_by_id b x = Some t -> off ∈ str_fields (btf_kind t) (btf_vlen t) ->
    type_word t off = Some w -> exists s, string_at b w s
}.

Lemma dedup_input_view b b' rank : same_view b b' -> rep_ok b' -> dedup_input b rank -> dedup_input b' rank.
Proof.
  intros V Hrep [H1 _ H3 H4 H5 H6 H7 H8]. pose proof V as [O Vb]%same_view_unfold.
  assert (Hs : start_id b' = start_id b) by (destruct O; congruence). assert (Hc : type_cnt b' = type_cnt b) by (unfold type_cnt; destruct O; congruence).
  assert (Ho : start_str_off b' = start_str_off b) by (destruct O; congruence).
  split.
  - by eapply dedup_same_view.
  - done.
  - intros id t. rewrite (same_view_type b b' id V), Hc. apply H3.
  - intros id t off w. rewrite (same_view_type b b' id V), Hs. apply H4.
  - destruct O. congruence.
  - intros Hb'. rewrite (same_view_string_at b b' 0 [] V). apply H6. by destruct (base_btf b), (base_btf b').
  - intros base Hb'. rewrite Ho. destruct (base_btf b) as [base0|] eqn:Hb0; [by apply (H7 base0) |]. by rewrite Hb' in Vb.
  - intros x t off w. rewrite (same_view_type b b' x V), Hs. intros Hx Ht Hoff Hw. destruct (H8 x t off w Hx Ht Hoff Hw) as [s Hss].
    exists s. by apply (same_view_string_at b b' w s V).
Qed.

(** ** The passes *)
Lemma wp_pass pass passes Q d :
  wp pass (fun r d' => (r = 0 /\ wp (run_passes negative passes) Q d') \/ (dedup_error r /\ Q r d')) d ->
  wp (run_passes negative (pass :: passes)) Q d.
Proof.
  intros H. cbn [run_passes]. apply wp_bind. eapply wp_mono; [exact H |]. cbn beta. intros r d' [[-> Hr]|[He HQ]]; [done |].
  rewrite (dedup_error_negative r He). by apply wp_ret.
Qed.

Section Passes.
Context {C : hash_ctx} {DC : DedupCtx C}.

(** Compaction and renumbering. *)
Lemma last_passes_ok d0 d5 d6 :
  before_refs d0 d5 -> refs_done d5 (type_cnt (d_btf d5)) d6 -> base_closed (d_btf d5) ->
  links_same (d_btf d5) (d_map d5) ->
  wp (run_passes negative [btf_dedup_compact_types; btf_dedup_remap_types])
    (fun r d' => (r = 0 /\ exists f, merged (d_btf d5) (d_btf d') f) \/ dedup_error r) (set_table d6 hashmap__init (d_oracle d6)).
Proof.
  intros Hbr Hrd Hcl Hl5. destruct (ar_state Hbr Hrd) as [S5 S6]. pose proof (st_btf _ _ S6) as Hdb6. destruct (ar_cnt Hrd) as [E6 C6].
  destruct (btf_ok_unfold _ (db_ok _ Hdb6)) as ((cs & Hcs) & _). set (d6' := set_table d6 hashmap__init (d_oracle d6)).
  apply wp_pass. eapply wp_mono; [apply (btf_dedup_compact_types_ok d6' cs Hdb6 Hcs (st_len _ _ S6)), (st_hypot _ _ S6) |].
  cbn beta. intros r d7 [Hcp Hr]. assert (Hcp6 : compacted d6 cs d7) by (destruct Hcp; by split).
  destruct Hr as [->| ->]; [left; split; [done |] | right; unfold dedup_error; tauto].
  apply wp_pass. pose proof (db_start (st_btf _ _ S5)) as [H1 _].
  eapply wp_mono; [apply (btf_dedup_remap_types_ok (d_map d6) (hypot_map d7) (start_id (d_btf d5))) |].
  - lia.
  - rewrite (st_len _ _ S6). apply Hdb6.
  - intros w Hw. rewrite (st_len _ _ S6), C6 in Hw. destruct (ar_canon Hbr Hrd w Hw) as (r & Hc & _). by exists r.
  - rewrite <- E6. apply (cp_ids _ _ _ Hcp6).
  - split; [apply Hcp6 | apply Hcp6 | done].
  - intros x t off w Hx Ht Hoff Hw. rewrite (st_len _ _ S6). pose proof (btf_type_by_id_range _ _ _ (cp_ok _ _ _ Hcp6) Ht) as Hr.
    rewrite (cp_start _ _ _ Hcp6) in Hx. destruct (compacted_inv Hcs Hcp6 x Hr) as [|(y & Hy & Hs & Hn)]; [lia |].
    destruct (db_type Hdb6 y) as (u & Hu & _); [lia |]. destruct (compacted_type Hdb6 Hcs Hcp6 y u Hs ltac:(lia) Hu) as (t' & Ht' & Hww).
    rewrite Hn, Ht in Ht'. injection Ht' as <-. destruct (same_words_fields t u Hww) as (_ & Hi & _). destruct (info_derived t u Hi) as (Hk & Hv & _).
    apply (db_ids _ Hdb6 y u off w Hu); [by rewrite <- Hk, <- Hv | by rewrite <- (id_field_word t u off Hww Hoff)].
  - cbn beta. intros r d8 [[-> Hps]|[-> _]]; [left; split; [done |] | right; unfold dedup_error; tauto].
    cbn [run_passes]. apply wp_ret. left. split; [done |]. eexists. by eapply result_merged.
Qed.

(** The passes over types. *)
Lemma type_passes_ok d rank :
  initial d -> base_mapped d -> chains_end (d_btf d) rank -> base_closed (d_btf d) ->
  wp (run_passes negative [btf_dedup_prim_types; btf_dedup_struct_types; btf_dedup_resolve_fwds; btf_dedup_ref_types;
                           btf_dedup_compact_types; btf_dedup_remap_types])
    (fun r d' => (r = 0 /\ exists f, merged (d_btf d) (d_btf d') f) \/ dedup_error r) d.
Proof.
  intros Hi Hbm Hch Hcl.
  apply wp_pass. eapply wp_mono; [apply (btf_dedup_prim_types_ok d (in_state _ Hi) (initial_prim d Hi)) |].
  cbn beta. intros r d1 [[-> P]|[He _]]; [left; split; [done |] | right; unfold dedup_error; tauto].
  pose proof (fr_btf _ _ (pd_frame _ _ _ P)) as Hb1.
  apply wp_pass. eapply wp_mono; [apply (btf_dedup_struct_types_ok d1 rank (pd_state _ _ _ P)); by rewrite Hb1 |].
  cbn beta. intros r d2 [[-> S]|[He _]]; [left; split; [done |] | right; unfold dedup_error; tauto].
  apply wp_pass. eapply wp_mono; [apply (btf_dedup_resolve_fwds_ok d2 (ss_state _ _ (sd_step _ _ _ S))) |].
  cbn beta. intros r d3 [F [[-> _]|He]]; [left; split; [done |] | right; unfold dedup_error; tauto].
  pose proof (three_passes_settled d d1 d2 d3 Hi Hbm P S F) as Hbr.
  apply wp_pass. eapply wp_mono; [apply (btf_dedup_ref_types_ok d3 (br_state _ _ Hbr) (br_settled _ _ Hbr)) |].
  cbn beta. intros r d4 [(-> & d6 & Hrd & ->)|[He _]]; [left; split; [done |] | right; unfold dedup_error, ref_error in *; tauto].
  rewrite <- (br_btf _ _ Hbr). apply (last_passes_ok d d3 d6 Hbr Hrd); [by rewrite (br_btf _ _ Hbr) |].
  exact (three_passes_same d d1 d2 d3 Hi P S F).
Qed.
End Passes.

(** ** The call *)

(** The object [b'] has the types of [b], their names denoting the same strings. *)
Record restrung (b b' : btf) : Prop := {
  rn_btf : dedup_btf b';
  rn_start : start_id b' = start_id b;
  rn_cnt : type_cnt b' = type_cnt b;
  rn_types : forall y t, btf_type_by_id b y = Some t -> exists t', btf_type_by_id b' y = Some t' /\
    if decide (start_id b <= y) then fields_rel (same_string b b') (str_fields (btf_kind t) (btf_vlen t)) t t'
    else own_words t' = own_words t
}.

(** What a call that succeeds has done: the strings, then the types. *)
Definition deduped (b b' : btf) : Prop :=
  rep_ok b' /\ exists bs f, restrung b bs /\ (strs_deduped b = false -> base_btf b = None -> 1 < str_len (hdr b) -> strs_unique bs) /\ merged bs b' f.

Lemma base_closed_strings {C : hash_ctx} {DC : DedupCtx C} d d' : initial d -> strs_done d d' -> base_closed (d_btf d) -> base_closed (d_btf d').
Proof.
  intros Hi Hs Hcl id t' off w Hlt Ht' Hoff Hw. rewrite (sn_start _ _ Hs) in *. destruct (strs_back Hi Hs id t' Ht') as (t & Ht & Hit).
  destruct (info_derived t' t Hit) as (Hk & Hv & _). rewrite Hk, Hv in Hoff. apply (Hcl id t off w Hlt Ht Hoff).
  by rewrite <- (strs_id Hs id t t' off Ht Ht' Hoff).
Qed.

Lemma base_mapped_strings d d' : strs_done d d' -> base_mapped d -> base_mapped d'.
Proof. intros Hs Hb y. rewrite (sn_start _ _ Hs), (sn_map _ _ Hs). apply Hb. Qed.

Lemma dedup_passes_ok {C : hash_ctx} {DC : DedupCtx C} d rank :
  initial d -> base_mapped d -> dedup_input (d_btf d) rank -> modifiable (d_btf d) = true ->
  wp dedup_passes (fun r d' => (r = 0 /\ deduped (d_btf d) (d_btf d')) \/ dedup_error r) d.
Proof.
  intros Hi Hbm [I1 I2 I3 I4 I5 I6 I7 I8] Hm. unfold dedup_passes. apply wp_pass.
  eapply wp_mono; [apply (btf_dedup_strings_ok (d_btf d) I1 I2 Hm I5 I6 I7 d eq_refl I8) |].
  cbn beta. intros r ds [(-> & Hs & Hu)|He]; [left; split; [done |] | right; unfold dedup_error, strs_fail in *; tauto].
  eapply wp_mono; [apply (type_passes_ok ds rank (initial_strings Hi Hs) (base_mapped_strings d ds Hs Hbm)) |].
  - by apply (chains_strings Hi Hs).
  - by apply (base_closed_strings d ds).
  - cbn beta. intros r d' [(-> & f & Hmg)|He]; [left; split; [done |] | by right].
    split; [apply (mg_rep _ _ _ Hmg); apply Hs |]. exists (d_btf ds), f. split_and!; [by split; apply Hs | auto | exact Hmg].
Qed.

Lemma fresh_view d b set o : fresh d -> same_view (d_btf d) b -> fresh (set_strs_state d b set o).
Proof.
  intros [H1 H2 H3 H4 H5 H6] V. pose proof V as [O _]%same_view_unfold. assert (Hc : type_cnt b = type_cnt (d_btf d)) by (unfold type_cnt; destruct O; congruence).
  split; cbn [d_map d_btf dedup_table hypot_map hypot_list set_strs_state]; rewrite ?Hc; try done.
  intros x t. rewrite (same_view_type _ b x V). apply H3.
Qed.

(** The object may first be taken out of its raw form. *)
Lemma ensure_modifiable_deduped b o r b1 o1 :
  btf_ensure_modifiable b o = Some (r, b1, o1) -> 1 < str_len (hdr b) -> strs_deduped b1 = strs_deduped b.
Proof.
  unfold btf_ensure_modifiable. destruct (modifiable b); [by intros [= _ <- _] |]. destruct (has_hdr_extra b); [by intros [= _ <- _] |].
  destruct (alloc o) as [[] o2]; cbn [negb]; [|by intros [= _ <- _]]. destruct (if layout_len (hdr b) =? 0 then _ else _) as [[] o3]; cbn [negb]; [|by intros [= _ <- _]].
  intros (lay & _ & (strs & _ & (strs' & _ & ([res o4] & _ & H)%bind_Some)%bind_Some)%bind_Some)%bind_Some Hlen.
  destruct res as [set|e]; injection H as _ <- _; [|done]. cbn. replace (str_len (hdr b) =? 0) with false by lia.
  replace (str_len (hdr b) =? 1) with false by lia. by rewrite andb_false_r, !orb_false_r.
Qed.

Lemma deduped_view b b1 b' :
  same_view b b1 -> (1 < str_len (hdr b) -> strs_deduped b1 = strs_deduped b) -> deduped b1 b' -> deduped b b'.
Proof.
  intros V Hde (Hrep & bs & f & [R1 R2 R3 R4] & Hu & Hm). pose proof V as [O Vb]%same_view_unfold. split; [done |].
  assert (Hs : start_id b1 = start_id b) by (destruct O; congruence). assert (Hc : type_cnt b1 = type_cnt b) by (unfold type_cnt; destruct O; congruence).
  exists bs, f. split_and!; [split; [done | congruence | congruence |] | | done].
  - intros y t Ht. rewrite <- (same_view_type b b1 y V) in Ht. destruct (R4 y t Ht) as (t' & Ht' & Hcase). exists t'. split; [done |].
    rewrite Hs in Hcase. destruct (decide _); [|done]. eapply fields_rel_mono; [|exact Hcase].
    intros w w' (s & H1 & H2). exists s. split; [|done]. by apply (same_view_string_at b b1 w s V).
  - intros Hd Hb Hl. apply Hu; [by rewrite Hde | by destruct (base_btf b), (base_btf b1) | by destruct O; congruence].
Qed.
