(* ===== verification/DedupDemo.v ===== *)
(** * DedupDemo: objects for the deduplication

    Small objects parsed by [btf_new], and a check that they are what [btf__dedup] relies
    on.  One holds duplicates of every sort, one a structure that its deduplication loses,
    one a chain of modifiers that never ends. *)
From Stdlib Require String.
From stdpp Require Import strings.
From S2P Require Import Prelude Hashmap Mem Strset BtfTypes Btf BtfFind BtfParse BtfRaw BtfWrite BtfBuild CoreTypes CoreDemo DedupTypes Dedup DedupState DedupPrim DedupEquiv DedupStruct DedupFwd DedupWrite DedupFields DedupRef DedupStrings DedupCompact DedupInit DedupWhole DedupMerge DedupRun.
Open Scope Z_scope.
Open Scope dedup_scope.

#[local] Opaque kind_of_Z.

(** ** The check *)
Definition is_u32b (w : Z) : bool := (0 <=? w) && (w <? 2 ^ 32).

(** The sections, for an object without a base and layout that is not modifiable yet. *)
Definition sections_check (b : btf) (cs : list (list Z)) : bool :=
  bool_decide (types_data b = mjoin cs) && bool_decide (type_offs b = offsets 0 cs) && (nr_types b =? zlen cs) &&
  forallb (fun c => match type_at c with Some t => btf_type_size None t =? 4 * zlen c | None => false end) cs &&
  (type_len (hdr b) =? 4 * zlen (types_data b)) && forallb is_u32b (types_data b) &&
  (zlen (btf_strs_data b) =? str_len (hdr b)) && bool_decide (last (btf_strs_data b) = Some 0) &&
  forallb (fun c => (0 <=? c) && (c <? 256)) (btf_strs_data b) && (start_id b =? 1) && (start_str_off b =? 0) &&
  bool_decide (layout b = None) && (type_len (hdr b) <=? UINT32_MAX) && negb (modifiable b) &&
  bool_decide (is_Some (strs_data b)) && (str_len (hdr b) <=? INT_MAX) && (layout_len (hdr b) =? 0) &&
  (type_cnt b <=? BTF_MAX_NR_TYPES).

Definition string_check (b : btf) (w : Z) : option (list Z) := p ← btf__str_by_offset b w; cstr p.

Definition type_check (b : btf) (rank : Z -> Z) (id : Z) : bool :=
  match btf_type_by_id b id with
  | None => false
  | Some t =>
      forallb (fun off => match type_word t off with Some w => (0 <=? w) && (w <? type_cnt b) | None => false end)
        (id_fields (btf_kind t) (btf_vlen t)) &&
      forallb (fun off => match type_word t off with Some w => bool_decide (is_Some (string_check b w)) | None => false end)
        (str_fields (btf_kind t) (btf_vlen t)) &&
      (0 <=? rank id) && (rank id <=? type_cnt b) &&
      (negb (bool_decide (chain_kind (btf_kind t))) || (rank (t_type t) <? rank id))
  end.

Definition dedup_check (b : btf) (cs : list (list Z)) (rank : Z -> Z) : bool :=
  sections_check b cs && bool_decide (string_check b 0 = Some []) && forallb (type_check b rank) (seqZ 0 (type_cnt b)).

Lemma sections_check_sound b cs :
  base_btf b = None -> sections_check b cs = true ->
  btf_ok b /\ rep_ok b /\ type_cnt b <= BTF_MAX_NR_TYPES /\ start_id b = 1 /\ start_str_off b + str_len (hdr b) <= INT_MAX.
Proof.
  intros Hb Hc. unfold sections_check in Hc. rewrite !andb_true_iff, !bool_decide_eq_true, !forallb_forall in Hc.
  destruct Hc as [[[[[[[[[[[[[[[[[C1 C2] C3] C4] C5] C6] C7] C8] C9] C10] C11] C12] C13] C14] C15] C16] C17] C18].
  apply negb_true_iff in C14. assert (Hlay : btf_layout_of b = None) by (unfold btf_layout_of; by rewrite C12, Hb).
  apply Z.leb_le in C18 as C18'. unfold BTF_MAX_NR_TYPES, type_cnt in C18'. split_and!; [| | lia..].
  - apply (btf_ok_intro b cs); [| | lia | lia | rewrite Hb; lia].
    + split; try done; [lia | | lia | by rewrite Hlay |].
      * rewrite Hlay. apply Forall_forall. intros c Hc. specialize (C4 c ltac:(by apply list_elem_of_In)).
        destruct (type_at c) as [t|] eqn:Ht; [|done]. exists t. split; [done | lia].
      * apply Forall_forall. intros w Hw. specialize (C6 w ltac:(by apply list_elem_of_In)). unfold is_u32b, is_u32 in *. lia.
    + split_and!; [lia | by right | | lia | unfold INT_MAX; lia].
      apply Forall_forall. intros w Hw. specialize (C9 w ltac:(by apply list_elem_of_In)). unfold is_byte. lia.
  - apply rep_ok_unfold. split; [|by rewrite Hb]. split; [lia |]. rewrite C14. split_and!; [|lia | lia].
    destruct C15 as [s Hs]. by exists s.
Qed.

Lemma dedup_check_sound b cs rank : base_btf b = None -> dedup_check b cs rank = true -> dedup_input b rank.
Proof.
  intros Hb Hc. unfold dedup_check in Hc. rewrite !andb_true_iff, !bool_decide_eq_true, !forallb_forall in Hc.
  destruct Hc as [[Hsec Hfirst] Hall]. destruct (sections_check_sound b cs Hb Hsec) as (Hok & Hrep & Hcnt & Hs & Hmax).
  assert (Hat : forall id t, btf_type_by_id b id = Some t -> type_check b rank id = true).
  { intros id t Ht. apply Hall, list_elem_of_In, elem_of_seqZ. pose proof (btf_type_by_id_range b id t Hok Ht). lia. }
  assert (Hstr : forall w s, string_check b w = Some s -> string_at b w s).
  { intros w s (p & Hp & Hcs)%bind_Some. by exists p. }
  unfold type_check in Hat. clear Hall Hsec. split.
  - split; [exact Hok | exact Hcnt |]. intros id t off w Ht Hoff Hw. specialize (Hat id t Ht). rewrite Ht, !andb_true_iff, !forallb_forall in Hat.
    destruct Hat as [[[[Hi _] _] _] _]. specialize (Hi off ltac:(by apply list_elem_of_In)). rewrite Hw in Hi. lia.
  - exact Hrep.
  - intros id t Ht. specialize (Hat id t Ht). rewrite Ht, !andb_true_iff, orb_true_iff, negb_true_iff, bool_decide_eq_false in Hat.
    destruct Hat as [[[_ H1] H2] H3]. split; [lia |]. intros Hk. destruct H3 as [Hn|]; [by destruct (Hn Hk) | lia].
  - intros id t off w Hlt Ht Hoff. pose proof (btf_type_by_id_range b id t Hok Ht). assert (id = 0) as -> by lia.
    rewrite btf_type_by_id_eq in Ht. injection Ht as <-. by apply not_elem_of_nil in Hoff.
  - exact Hmax.
  - intros _. by apply Hstr.
  - by rewrite Hb.
  - intros x t off w _ Ht Hoff Hw. specialize (Hat x t Ht). rewrite Ht, !andb_true_iff, !forallb_forall in Hat.
    destruct Hat as [[[[_ Hi] _] _] _]. specialize (Hi off ltac:(by apply list_elem_of_In)). rewrite Hw in Hi.
    apply bool_decide_eq_true in Hi as [s Hss]. exists s. by apply Hstr.
Qed.

(** ** The objects *)
Definition words_of_strs (l : list String.string) : list Z := mjoin ((fun s => ascii_bytes s ++ [0]) <$> l).

Definition rank_of (ranks : list Z) (id : Z) : Z := default 0 (znth ranks id).

(** Two times an [int], a structure [s] with a pointer to itself and the pointer; and a
    forward declaration of [s] with a pointer to it.  The names are there twice as well. *)
Definition dup_chunks : list (list Z) :=
  [[1; 16777216; 4; 16777248]; [5; 67108866; 16; 7; 1; 0; 9; 3; 64]; [0; 33554432; 2];
   [11; 16777216; 4; 16777248]; [15; 67108866; 16; 17; 4; 0; 19; 6; 64]; [0; 33554432; 5];
   [5; 117440512; 0]; [0; 33554432; 7]].
Definition demo_dup : btf := Eval vm_compute in
  parsed (demo_bytes (mjoin dup_chunks)
    (words_of_strs [String.EmptyString; "int"; "s"; "x"; "n"; "int"; "s"; "x"; "n"]%string)).
Definition dup_rank : Z -> Z := rank_of [0; 0; 0; 1; 0; 0; 1; 0; 1].

Lemma demo_dup_input : dedup_input demo_dup dup_rank.
Proof. apply (dedup_check_sound _ dup_chunks); [reflexivity | vm_compute; reflexivity]. Qed.

(** The same with each string once. *)
Definition shared_chunks : list (list Z) :=
  [[1; 16777216; 4; 16777248]; [5; 67108866; 16; 7; 1; 0; 9; 3; 64]; [0; 33554432; 2];
   [1; 16777216; 4; 16777248]; [5; 67108866; 16; 7; 4; 0; 9; 6; 64]; [0; 33554432; 5];
   [5; 117440512; 0]; [0; 33554432; 7]].
Definition demo_shared : btf := Eval vm_compute in
  parsed (demo_bytes (mjoin shared_chunks) (words_of_strs [String.EmptyString; "int"; "s"; "x"; "n"]%string)).

Lemma demo_shared_input : dedup_input demo_shared dup_rank.
Proof. apply (dedup_check_sound _ shared_chunks); [reflexivity | vm_compute; reflexivity]. Qed.

(** Two definitions of [struct foo], of which [struct h1] and [struct h2] see one, the other
    or only a forward declaration. *)
Definition lossy_chunks : list (list Z) :=
  [[1; 16777216; 4; 16777248]; [5; 67108865; 4; 9; 1; 0]; [0; 33554432; 2]; [16; 67108865; 8; 19; 3; 0];
   [5; 117440512; 0]; [0; 33554432; 5]; [13; 67108865; 8; 19; 6; 0]; [0; 33554432; 11];
   [13; 67108865; 8; 19; 8; 0]; [16; 67108865; 8; 19; 6; 0]; [5; 67108866; 8; 9; 1; 0; 11; 1; 32]].
Definition demo_lossy : btf := Eval vm_compute in
  parsed (demo_bytes (mjoin lossy_chunks) (words_of_strs [String.EmptyString; "int"; "foo"; "a"; "b"; "h1"; "h2"; "p"]%string)).

Lemma demo_lossy_input : dedup_input demo_lossy (rank_of [0; 0; 0; 1; 0; 0; 1; 0; 1; 0; 0; 0]).
Proof. apply (dedup_check_sound _ lossy_chunks); [reflexivity | vm_compute; reflexivity]. Qed.

(** A structure [s] with two fields of type [T], a pointer to itself; and another one in which
    the compiler has written [T] twice. *)
Definition loop_chunks : list (list Z) :=
  [[1; 67108866; 16; 5; 2; 0; 7; 2; 64]; [3; 134217728; 3]; [0; 33554432; 2];
   [1; 67108866; 16; 5; 5; 0; 7; 7; 64]; [3; 134217728; 6]; [0; 33554432; 5]; [3; 134217728; 8]; [0; 33554432; 7]].
Definition loop_strs : list Z := words_of_strs [String.EmptyString; "s"; "T"; "a"; "b"]%string.
Definition demo_loop : btf := Eval vm_compute in parsed (demo_bytes (mjoin loop_chunks) loop_strs).

(** Pointers and modifiers, each there twice. *)
Definition ref_chunks : list (list Z) := [[0; 33554432; 0]; [0; 167772160; 1]; [0; 33554432; 0]; [0; 167772160; 3]].
Definition demo_ref : btf := Eval vm_compute in parsed (demo_bytes (mjoin ref_chunks) (words_of_strs [String.EmptyString]%string)).

Lemma demo_ref_input : dedup_input demo_ref (rank_of [0; 1; 2; 1; 2]).
Proof. apply (dedup_check_sound _ ref_chunks); [reflexivity | vm_compute; reflexivity]. Qed.

(** ** The states in which the passes begin *)
Definition state_of (b : btf) : btf_dedup :=
  match btf_dedup_new b [] with
  | Some (Ok d, _) => d
  | _ => BtfDedup b hashmap__init [] [] [] 0 false None []
  end.

Lemma state_of_fresh b rank :
  dedup_input b rank -> match btf_dedup_new b [] with Some (Ok _, _) => true | _ => false end = true ->
  d_btf (state_of b) = b /\ fresh (state_of b).
Proof.
  intros Hin Hok. unfold state_of. destruct (btf_dedup_new_ok b [] (di_btf _ _ Hin)) as (r & o & Hr & Hcase).
  rewrite Hr in Hok |- *. by destruct r.
Qed.

Definition shared_state : btf_dedup := Eval vm_compute in state_of demo_shared.
Definition ref_state : btf_dedup := Eval vm_compute in state_of demo_ref.

Lemma shared_state_initial : d_btf shared_state = demo_shared /\ initial (C := int_ctx) shared_state.
Proof.
  destruct (state_of_fresh demo_shared dup_rank demo_shared_input) as [Hd Hf]; [vm_compute; reflexivity |].
  change (state_of demo_shared) with shared_state in *. split; [done |]. apply fresh_initial; [|done]. rewrite Hd. apply demo_shared_input.
Qed.

Lemma ref_state_initial : d_btf ref_state = demo_ref /\ initial (C := int_ctx) ref_state.
Proof.
  destruct (state_of_fresh demo_ref _ demo_ref_input) as [Hd Hf]; [vm_compute; reflexivity |].
  change (state_of demo_ref) with ref_state in *. split; [done |]. apply fresh_initial; [|done]. rewrite Hd. apply demo_ref_input.
Qed.

(** An object of reference types only is one before the pass over these. *)
Lemma initial_refs {C : hash_ctx} d :
  initial d -> start_id (d_btf d) = 1 ->
  (forall y u, 1 <= y -> btf_type_by_id (d_btf d) y = Some u -> ref_kind (btf_kind u)) -> before_refs d d.
Proof.
  intros Hi Hs Hall. pose proof (in_state _ Hi) as Hst. pose proof (btf_type_by_id_range (d_btf d)) as Hr.
  assert (H0 : mapped (d_map d) 0) by (exists 0; split; [apply Hst | by cbv]).
  assert (Hpos : forall y, 0 <= y -> ~ mapped (d_map d) y -> 1 <= y).
  { intros y Hy Hn. destruct (decide (y = 0)) as [->|]; [by destruct (Hn H0) | lia]. }
  split; [reflexivity | exact Hst | split | |].
  - intros y u Hu Hn. apply (Hall y u); [|exact Hu]. apply Hpos; [|exact Hn]. apply (Hr y u (db_ok _ (st_btf _ _ Hst)) Hu).
  - intros y Hy Hn. rewrite Hs. apply Hpos; [lia | exact Hn].
  - intros y t Ht Hy Hk Hm. apply (in_own _ Hi y t) in Hm; [|lia | exact Ht | exact Hy]. revert Hk Hm. unfold self_canonical. by destruct (btf_kind t).
  - intros y t Ht Hy. apply exact_known, ref_exact, (Hall y t); [lia | exact Ht].
Qed.

Lemma ref_state_before : before_refs (C := int_ctx) ref_state ref_state.
Proof.
  destruct ref_state_initial as [Hb Hi]. apply initial_refs; [exact Hi | reflexivity |]. intros y u Hy Hu.
  pose proof (btf_type_by_id_range _ _ _ (db_ok _ (st_btf _ _ (in_state _ Hi))) Hu) as Hr. change (type_cnt (d_btf ref_state)) with 5 in Hr.
  assert (Hc : y = 1 \/ y = 2 \/ y = 3 \/ y = 4) by lia.
  destruct Hc as [->|[->|[->| ->]]]; vm_compute in Hu; injection Hu as <-; vm_compute; exact I.
Qed.
