(* ===== verification/DedupSpec.v ===== *)
(** * DedupSpec: what the deduplication guarantees

    The theorems about [btf__dedup] and its passes, applied to the objects of [DedupDemo];
    and two objects on which it does not do what its comments say. *)
From S2P Require Import Prelude Hashmap Mem Strset BtfTypes Btf BtfFind BtfParse BtfRaw BtfWrite BtfBuild CoreDemo DedupTypes Dedup DedupState DedupPrim DedupEquiv DedupSame DedupStruct DedupFwd DedupWrite DedupFields DedupRef DedupStrings DedupCompact DedupInit DedupWhole DedupMerge DedupRun DedupDemo.
Open Scope Z_scope.
Open Scope dedup_scope.

#[local] Opaque kind_of_Z.

(** Two types that are their own representatives and are compared exactly differ. *)
Definition exact_once (d : btf_dedup) : Prop :=
  forall x t y u, self_mapped d x t -> self_mapped d y u -> start_id (d_btf d) <= x -> own_words t = own_words u -> x = y.

(** The type is mapped, to one that may stand for it. *)
Definition represented (d : btf_dedup) (x : Z) (t : btf_type) : Prop :=
  mapped (d_map d) x /\
  exists c tc, resolves (d_map d) x c /\ btf_type_by_id (d_btf d) c = Some tc /\ stands_for (fwd_name (d_btf d)) t tc.

Lemma state_exact_once {C : hash_ctx} d : state_ok 0 d -> exact_once d.
Proof. intros [_ _ _ _ _ _ _ _ _ [_ Hu]]. exact Hu. Qed.

Lemma state_represented {C : hash_ctx} d x t :
  state_ok 0 d -> btf_type_by_id (d_btf d) x = Some t -> mapped (d_map d) x -> represented d x t.
Proof.
  intros Hst Ht Hm. pose proof (btf_type_by_id_range _ _ _ (db_ok _ (st_btf _ _ Hst)) Ht) as Hr. split; [done |].
  destruct (st_resolves Hst x Hr) as [c Hc]. destruct (st_type Hst c (st_resolves_range Hst x c Hc)) as (tc & Htc & _).
  exists c, tc. split_and!; [done | done | exact (st_stands Hst x c t tc Hc Ht Htc)].
Qed.

(** ** The whole *)

(** C2: [btf__dedup] returns, for every outcome of its allocations and with either hash
    function, on objects with valid identifiers and string offsets whose chains of modifiers,
    pointers and typedefs end.  When it succeeds, every type has first got names that denote
    the same strings; then a renaming of identifiers takes every type to a type of the result
    that may stand for it, with its identifiers renamed, the types of the base unchanged and
    every type of the result being reached.  Types that get the same identifier are related by
    a bisimulation: they agree in all words but identifiers, and the identifiers at the same
    places are related again, except where a forward declaration of the same name lets
    enumerations, or structures or unions of the declared kind, be merged.  No two types of the
    result that are compared exactly consist of the same words, forward declarations of
    structures and unions apart.  The result is well formed. *)
Theorem btf__dedup_spec force_collisions b o rank :
  dedup_input b rank ->
  exists r b' o', btf__dedup force_collisions b o = Some (r, b', o') /\ ((r = 0 /\ deduped b b') \/ dedup_error r).
Proof.
  intros Hin. unfold btf__dedup. destruct (btf_dedup_new_ok b o (di_btf _ _ Hin)) as (r & o1 & Hnew & Hr). rewrite Hnew. cbn [mbind option_bind].
  destruct r as [d|e]; [|eexists _, _, _; split; [reflexivity |]; right; unfold dedup_error; tauto].
  destruct Hr as [Hd Hf]. destruct (btf_ensure_modifiable_spec b o1 (db_ok _ (di_btf _ _ Hin)) (di_rep _ _ Hin)) as (r & b1 & o2 & Hmod & V & Hrep & Hcase).
  rewrite Hmod. cbn [mbind option_bind]. destruct (nonzero r) eqn:Hnz.
  { eexists _, _, _. split; [reflexivity |]. right. destruct Hcase as [[-> _]|[[-> _]|[-> _]]]; [done | unfold dedup_error; tauto..]. }
  destruct Hcase as [(-> & Hm & _)|[[-> _]|[-> _]]]; [|done..]. pose proof (dedup_input_view b b1 rank V Hrep Hin) as Hin1.
  set (d1 := set_strs_state d b1 None o2). assert (Hf1 : fresh d1) by (apply fresh_view; [done | by rewrite Hd]).
  destruct (btf_dedup_prep_ok (C := dedup_ctx force_collisions) d1 (di_btf _ _ Hin1) Hf1) as (r & d2 & Hprep & Hp).
  rewrite Hprep. cbn [mbind option_bind]. destruct Hp as [[-> [P1 P2 P3 _]]|He].
  2:{ replace (nonzero r) with true by (destruct He as [->| ->]; reflexivity). eexists _, _, _. split; [reflexivity |]. right. unfold dedup_error. tauto. }
  cbn [nonzero Z.eqb negb]. pose proof (fr_btf _ _ P1) as Hb2. change (d_btf d1) with b1 in *.
  destruct (dedup_passes_ok (C := dedup_ctx force_collisions) d2 rank P2) as (r & d3 & Hrun & Hc).
  - intros y Hy. apply P3. by rewrite <- Hb2.
  - by rewrite Hb2.
  - by rewrite Hb2.
  - rewrite Hrun. cbn [mbind option_bind]. eexists _, _, _. split; [reflexivity |]. destruct Hc as [[-> Hdd]|He]; [left | by right].
    split; [done |]. rewrite Hb2 in Hdd. apply (deduped_view b b1 _ V); [|done]. by eapply ensure_modifiable_deduped.
Qed.

Lemma btf__dedup_spec_witness :
  exists b' o', btf__dedup true demo_dup [] = Some (0, b', o') /\ deduped demo_dup b' /\ nr_types b' = 3.
Proof.
  destruct (btf__dedup_spec true demo_dup [] dup_rank demo_dup_input) as (r & b' & o' & Hr & Hc).
  assert (H0 : match btf__dedup true demo_dup [] with Some (r, b, _) => (r, nr_types b) | None => (1, 0) end = (0, 3))
    by (vm_compute; reflexivity).
  rewrite Hr in H0. injection H0 as -> Hn. exists b', o'. split_and!; [exact Hr | | exact Hn].
  destruct Hc as [[_ Hd]|[H|[H|[H|H]]]]; [exact Hd | discriminate H..].
Defined.

(** ** The passes *)

(** [btf_dedup_prim_types] returns.  It maps every own type of a primitive kind to a type
    that consists of the same words, or of which it is a forward declaration, and leaves no two
    representatives with the same words; it fails only for lack of memory or an unknown kind,
    and never changes the object. *)
Theorem btf_dedup_prim_types_spec {C : hash_ctx} {DC : DedupCtx C} d :
  initial d ->
  exists r d', btf_dedup_prim_types d = Some (r, d') /\ d_btf d' = d_btf d /\
    ((r = 0 /\ exact_once d' /\
      forall x t, start_id (d_btf d) <= x -> btf_type_by_id (d_btf d) x = Some t -> prim_kind (btf_kind t) -> represented d' x t) \/
     r = - ENOMEM \/ r = - EINVAL).
Proof.
  intros Hi. destruct (btf_dedup_prim_types_ok d (in_state _ Hi) (initial_prim d Hi)) as (r & d' & Hrun & Hcase). exists r, d'.
  destruct Hcase as [[-> [F S K M]]|[He F]]; (split_and!; [done | apply F |]); [left | by right].
  split_and!; [done | by apply state_exact_once |]. intros x t Hx Ht Hk. pose proof (fr_btf _ _ F) as Hb.
  apply state_represented; [done | by rewrite Hb |]. apply (M x t Ht). right.
  pose proof (btf_type_by_id_range _ _ _ (db_ok _ (st_btf _ _ (in_state _ Hi))) Ht). split; [lia | done].
Qed.

Lemma btf_dedup_prim_types_spec_witness :
  exists d', btf_dedup_prim_types (C := int_ctx) shared_state = Some (0, d') /\ exact_once d' /\ znth (d_map d') 4 = Some 1.
Proof.
  destruct (btf_dedup_prim_types_spec (C := int_ctx) shared_state (proj2 shared_state_initial)) as (r & d' & Hr & _ & Hc).
  assert (H0 : match btf_dedup_prim_types (C := int_ctx) shared_state with Some (r, d) => (r, znth (d_map d) 4) | None => (1, None) end
    = (0, Some 1)) by (vm_compute; reflexivity).
  rewrite Hr in H0. injection H0 as -> Hm. exists d'. split_and!; [exact Hr | | exact Hm].
  destruct Hc as [(_ & He & _)|[H|H]]; [exact He | discriminate H..].
Defined.

(** C27: [btf_dedup_is_equiv], started with an empty hypothetical map, returns for any two types
    when the chains of modifiers, pointers and typedefs end; it changes neither the object nor
    the canonical map, and it finds two types equivalent only if they are the same: related by
    a bisimulation, given that the canonical map joins only such types.  It does find a
    structure, union or typedef without a representative equivalent to a representative of the
    same words, unless memory runs out. *)
Theorem btf_dedup_is_equiv_spec {C : hash_ctx} {DC : DedupCtx C} d rank x y :
  state_ok 0 d -> chains_end (d_btf d) rank -> links_same (d_btf d) (d_map d) -> (forall c t, ~ entry d c t) ->
  0 <= x < type_cnt (d_btf d) -> 0 <= y < type_cnt (d_btf d) ->
  exists r d', is_equiv x y d = Some (r, d') /\ d_btf d' = d_btf d /\ d_map d' = d_map d /\
    (r = 1 \/ r = 0 \/ r = - ENOMEM \/ r = - EINVAL) /\
    (r = 1 -> same_type (d_btf d) x y) /\
    (forall t u, btf_type_by_id (d_btf d) x = Some t -> btf_type_by_id (d_btf d) y = Some u -> own_words t = own_words u ->
       graph_kind (btf_kind t) -> ~ mapped (d_map d) x -> znth (d_map d) y = Some y -> r = 1 \/ r = - ENOMEM).
Proof.
  intros Hst Hch Hl Hno Hx Hy. pose proof (unentered_length (hypot_map d)) as Hun.
  destruct (is_equiv_ok (S (length (hypot_map d))) rank d x y Hst Hch) as (r & d' & Hrun & He & Hcode & Hrel); [lia | done | done |].
  destruct (he_frame _ _ He) as [H1 _ H3 _]. exists r, d'. split_and!; [exact Hrun | done | done | exact Hcode | |].
  - intros Hr. destruct (Hrel Hr) as [Hxy Hnew]. pose proof (he_state _ _ He) as Hst'. rewrite <- H1, <- H3 in Hl. rewrite <- H1.
    apply (related_same Hst' Hl); [|exact Hxy]. apply (entries_ok_same Hst' Hl).
    intros c z Hcz. destruct (Hnew c z Hcz) as [H|H]; [by destruct (Hno c z) | done].
  - intros t u Ht Hu Hw Hk Hm Hs. destruct (is_equiv_words d x y t u Hst Ht Hu Hw Hk Hm Hs Hno) as (r' & d'' & Hrun' & Hr' & _).
    change (is_equiv x y d = Some (r, d')) in Hrun. rewrite Hrun in Hrun'. by injection Hrun' as <- _.
Qed.

Lemma btf_dedup_is_equiv_spec_witness :
  exists d', is_equiv 5 2 shared_state = Some (1, d') /\ same_type demo_shared 5 2.
Proof.
  destruct shared_state_initial as [Hb Hi].
  destruct (btf_dedup_is_equiv_spec (C := int_ctx) shared_state dup_rank 5 2 (in_state _ Hi)) as (r & d' & Hr & _ & _ & _ & Hs & _).
  - rewrite Hb. apply demo_shared_input.
  - exact (initial_links_same shared_state Hi).
  - intros c t [Hc Hle]. destruct (hypot_vals _ _ _ (st_hypot _ _ (in_state _ Hi)) c t Hc) as [[-> _]|[Hin _]]; [by apply Hle |].
    assert (H0 : hypot_list shared_state = []) by (vm_compute; reflexivity). rewrite H0 in Hin. by apply not_elem_of_nil in Hin.
  - rewrite Hb. split; [discriminate | vm_compute; reflexivity].
  - rewrite Hb. split; [discriminate | vm_compute; reflexivity].
  - assert (H0 : match is_equiv 5 2 shared_state with Some (r, _) => r | None => 0 end = 1) by (vm_compute; reflexivity).
    rewrite Hr in H0. subst r. exists d'. split; [exact Hr |]. rewrite <- Hb. by apply Hs.
Defined.



(** [btf_dedup_resolve_fwds] returns and fails only for lack of memory.  No own forward
    declaration is left as its own representative when there is exactly one structure or union
    of that name among the representatives and it is of the declared kind; those that are mapped
    are mapped to types that may stand for them, and other types are not touched. *)
Theorem btf_dedup_resolve_fwds_spec {C : hash_ctx} {DC : DedupCtx C} d :
  state_ok 0 d ->
  exists r d', btf_dedup_resolve_fwds d = Some (r, d') /\ d_btf d' = d_btf d /\
    (forall x t, btf_type_by_id (d_btf d) x = Some t ->
       (mapped (d_map d) x -> represented d' x t) /\ (btf_kind t <> BTF_KIND_FWD -> znth (d_map d') x = znth (d_map d) x)) /\
    ((r = 0 /\ forall x, start_id (d_btf d) <= x < type_cnt (d_btf d) -> fwd_resolved (d_btf d) (d_map d') x) \/ r = - ENOMEM).
Proof.
  intros Hst. destruct (btf_dedup_resolve_fwds_ok d Hst) as (r & d' & Hrun & [F1 F2 F3 F4 F5 F6 F7 F8] & Hcase). exists r, d'.
  split_and!; [done | done | | done]. intros x t Ht. split; [|by apply F8]. intros Hm. apply state_represented; [done | by rewrite F1 |].
  by apply F7.
Qed.

Lemma btf_dedup_resolve_fwds_spec_witness :
  exists d', btf_dedup_resolve_fwds shared_state = Some (0, d') /\
    forall x, 1 <= x < 9 -> fwd_resolved demo_shared (d_map d') x.
Proof.
  destruct shared_state_initial as [Hb Hi].
  destruct (btf_dedup_resolve_fwds_spec (C := int_ctx) shared_state (in_state _ Hi)) as (r & d' & Hr & _ & _ & Hc).
  assert (H0 : match btf_dedup_resolve_fwds shared_state with Some (r, _) => r | None => 1 end = 0)
    by (vm_compute; reflexivity).
  rewrite Hr in H0. subst r. exists d'. split; [exact Hr |]. destruct Hc as [[_ Hf]|H]; [|discriminate H].
  intros x Hx. rewrite Hb in Hf. apply Hf. exact Hx.
Defined.

(** C15: [btf_dedup_ref_types] returns, on any object: a cycle of reference types gives ELOOP.
    When it succeeds, every type has a representative; the identifiers in the reference types
    are those of the representatives of the types they named, and nothing else in them has
    changed; and no two representatives that are compared exactly have the same words. *)
Theorem btf_dedup_ref_types_spec {C : hash_ctx} {DC : DedupCtx C} d :
  before_refs d d ->
  exists r d', btf_dedup_ref_types d = Some (r, d') /\
    ((r = 0 /\ exact_once d' /\
      (forall x, 0 <= x < type_cnt (d_btf d) -> exists c, canon (d_map d') x c) /\
      forall x t, btf_type_by_id (d_btf d) x = Some t -> exists t', btf_type_by_id (d_btf d') x = Some t' /\
        (~ mapped (d_map d) x -> replaced (d_map d') t t') /\ (mapped (d_map d) x -> own_words t' = own_words t)) \/
     r = - ENOMEM \/ r = - ELOOP).
Proof.
  intros Hbr. destruct (btf_dedup_ref_types_ok d (br_state _ _ Hbr) (br_settled _ _ Hbr)) as (r & d' & Hrun & Hcase). exists r, d'.
  split; [done |]. destruct Hcase as [(-> & d1 & Hrd & ->)|[He _]]; [left | by right]. split; [done |].
  cbn [d_btf d_map set_table]. split_and!.
  - exact (state_exact_once d1 (proj2 (ar_state Hbr Hrd))).
  - intros x Hx. destruct (ar_canon Hbr Hrd x Hx) as (c & Hc & _). by exists c.
  - intros x t Ht. destruct (ar_type Hbr Hrd x t Ht) as (t' & Ht'). exists t'. split_and!; [done | |].
    + exact (ar_replaced Hbr Hrd x t t' Ht Ht').
    + exact (ar_words Hrd x t t' Ht Ht').
Qed.

Lemma btf_dedup_ref_types_spec_witness :
  exists d', btf_dedup_ref_types (C := int_ctx) ref_state = Some (0, d') /\ exact_once d' /\ d_map d' = [0; 1; 2; 1; 2].
Proof.
  destruct (btf_dedup_ref_types_spec (C := int_ctx) ref_state ref_state_before) as (r & d' & Hr & Hc).
  assert (H0 : match btf_dedup_ref_types (C := int_ctx) ref_state with Some (r, d) => (r, d_map d) | None => (1, []) end
    = (0, [0; 1; 2; 1; 2])) by (vm_compute; reflexivity).
  rewrite Hr in H0. injection H0 as -> Hm. exists d'. split_and!; [exact Hr | | exact Hm].
  destruct Hc as [(_ & He & _)|[H|H]]; [exact He | discriminate H..].
Defined.

(** C17: [btf_dedup_strings] returns.  When it succeeds, every string offset in an own type
    denotes the string it denoted before, nothing else in the types has changed, and without a
    base two offsets in types that denote the same string are the same, unless the strings had
    been deduplicated before; otherwise the error is one of memory, room or an unknown kind. *)
Theorem btf_dedup_strings_spec d rank :
  dedup_input (d_btf d) rank -> modifiable (d_btf d) = true ->
  exists r d', btf_dedup_strings d = Some (r, d') /\
    ((r = 0 /\ restrung (d_btf d) (d_btf d') /\ rep_ok (d_btf d') /\ d_map d' = d_map d /\
      (strs_deduped (d_btf d) = false -> base_btf (d_btf d) = None -> strs_unique (d_btf d'))) \/
     r = - ENOMEM \/ r = - EOPNOTSUPP \/ r = - EINVAL).
Proof.
  intros [I1 I2 I3 I4 I5 I6 I7 I8] Hm. destruct (btf_dedup_strings_ok (d_btf d) I1 I2 Hm I5 I6 I7 d eq_refl I8) as (r & d' & Hrun & Hcase).
  exists r, d'. split; [done |]. destruct Hcase as [(-> & Hs & Hu)|He]; [left | right; exact He].
  split_and!; [done | split; apply Hs | apply Hs | apply Hs | exact Hu].
Qed.

Lemma btf_dedup_strings_spec_witness :
  exists b o d', btf_ensure_modifiable demo_dup [] = Some (0, b, o) /\
    btf_dedup_strings (set_strs_state shared_state b None o) = Some (0, d') /\ strs_unique (d_btf d') /\
    zlen (btf_strs_data (d_btf d')) = 11.
Proof.
  destruct (btf_ensure_modifiable_spec demo_dup [] (db_ok _ (di_btf _ _ demo_dup_input)) (di_rep _ _ demo_dup_input))
    as (r & b & o & Hr & Hv & Hrep & Hc).
  assert (H0 : match btf_ensure_modifiable demo_dup [] with
    | Some (r, b, o) => (r, modifiable b, strs_deduped b, match base_btf b with None => true | Some _ => false end,
        match btf_dedup_strings (set_strs_state shared_state b None o) with Some (r, d) => (r, zlen (btf_strs_data (d_btf d))) | None => (1, 0) end)
    | None => (1, false, false, false, (1, 0)) end = (0, true, false, true, (0, 11))) by (vm_compute; reflexivity).
  rewrite Hr in H0. injection H0 as -> Hm Hde Hb H1.
  destruct (btf_dedup_strings_spec (set_strs_state shared_state b None o) dup_rank) as (r' & d' & Hrun & Hcase).
  - apply (dedup_input_view demo_dup b dup_rank Hv Hrep demo_dup_input).
  - exact Hm.
  - rewrite Hrun in H1. injection H1 as -> Hz. exists b, o, d'. split_and!; [exact Hr | exact Hrun | | exact Hz].
    destruct Hcase as [(_ & _ & _ & _ & Hu)|[H|[H|H]]]; [|discriminate H..]. apply Hu; [exact Hde |].
    cbn [d_btf set_strs_state]. destruct (base_btf b); [discriminate Hb | reflexivity].
Defined.

(** C16: [btf_dedup_compact_types] returns and fails only for lack of memory.  The types that
    are their own representatives keep their words and their order and get consecutive
    identifiers from the start of the object on, no others are left, the types of the base and
    the strings stay, and [hypot_map] holds the new identifiers; the object is well formed. *)
Theorem btf_dedup_compact_types_spec d :
  dedup_btf (d_btf d) -> zlen (d_map d) = type_cnt (d_btf d) -> zlen (hypot_map d) = type_cnt (d_btf d) ->
  exists r d', btf_dedup_compact_types d = Some (r, d') /\ (r = 0 \/ r = - ENOMEM) /\
    let new := new_id (d_map d) (start_id (d_btf d)) in
    btf_ok (d_btf d') /\ btf_strs_data (d_btf d') = btf_strs_data (d_btf d) /\ base_btf (d_btf d') = base_btf (d_btf d) /\
    (forall x t, self (d_map d) x -> btf_type_by_id (d_btf d) x = Some t ->
       znth (hypot_map d') x = Some (new x) /\
       exists t', btf_type_by_id (d_btf d') (new x) = Some t' /\ own_words t' = own_words t) /\
    (forall x y, self (d_map d) x -> self (d_map d) y -> new x = new y -> x = y) /\
    (forall y, start_id (d_btf d) <= y < type_cnt (d_btf d') ->
       exists x, start_id (d_btf d) <= x < type_cnt (d_btf d) /\ self (d_map d) x /\ new x = y).
Proof.
  intros Hdb Hm Hh. destruct (btf_ok_unfold _ (db_ok _ Hdb)) as ((cs & Hcs) & _). pose proof (db_start Hdb) as [H1 _].
  destruct (btf_dedup_compact_types_ok d cs Hdb Hcs Hm Hh) as (r & d' & Hrun & Hcp & Hr). exists r, d'. split_and!; [done | done |].
  cbn zeta. split_and!; [apply Hcp | apply Hcp | apply Hcp | | |].
  - intros x t Hs Ht. split; [by apply (cp_ids _ _ _ Hcp) |]. pose proof (btf_type_by_id_range _ _ _ (db_ok _ Hdb) Ht).
    apply (compacted_type Hdb Hcs Hcp); [done | lia | done].
  - intros x y Hx Hy. apply new_id_inj; [lia | done | done].
  - intros y Hy. destruct (compacted_inv Hcs Hcp y) as [|He]; [lia | lia | exact He].
Qed.

Lemma btf_dedup_compact_types_spec_witness :
  let d := set_d_map shared_state [0; 1; 2; 3; 1; 2; 3; 2; 3] in
  exists d', btf_dedup_compact_types d = Some (0, d') /\ btf_ok (d_btf d') /\ nr_types (d_btf d') = 3.
Proof.
  intros d. destruct shared_state_initial as [Hb _].
  destruct (btf_dedup_compact_types_spec d) as (r & d' & Hr & _ & Hok & _);
    [change (dedup_btf (d_btf shared_state)); rewrite Hb; apply demo_shared_input | vm_compute; reflexivity.. |].
  assert (H0 : match btf_dedup_compact_types d with Some (r, d) => (r, nr_types (d_btf d)) | None => (1, 0) end = (0, 3))
    by (vm_compute; reflexivity).
  rewrite Hr in H0. injection H0 as -> Hn. exists d'. split_and!; [exact Hr | exact Hok | exact Hn].
Defined.

(** ** Limits *)

(** The kind, size and number of members are those of [t]. *)
Definition like (t t' : btf_type) : bool :=
  bool_decide (btf_kind t' = btf_kind t) && (t_size t' =? t_size t) && (btf_vlen t' =? btf_vlen t).

Definition has_like (b : btf) (t : btf_type) : bool :=
  existsb (fun id => match btf_type_by_id b id with Some t' => like t t' | None => false end) (seqZ 0 (type_cnt b)).

(** Deduplication may lose a definition.  With two different structures of the same name, a
    forward declaration of that name that is part of two type graphs lets each of them be taken
    for the other: [btf__dedup] succeeds on an object that is what it relies on, and the result
    has no type with the kind, size and number of members of its type 11. *)
Theorem btf__dedup_loses_struct :
  (exists rank, dedup_input demo_lossy rank) /\
  exists t b' o', btf_type_by_id demo_lossy 11 = Some t /\ btf_is_struct t = true /\ has_like demo_lossy t = true /\
    btf__dedup false demo_lossy [] = Some (0, b', o') /\ has_like b' t = false.
Proof.
  split; [eexists; apply demo_lossy_input |].
  assert (H0 : match btf_type_by_id demo_lossy 11, btf__dedup false demo_lossy [] with
    | Some t, Some (r, b, o) => (btf_is_struct t, has_like demo_lossy t, r, has_like b t) | _, _ => (false, false, 1, true) end
    = (true, true, 0, false)) by (vm_compute; reflexivity).
  destruct (btf_type_by_id demo_lossy 11) as [t|]; [|discriminate H0]. destruct (btf__dedup false demo_lossy []) as [[[r b] o]|]; [|discriminate H0].
  injection H0 as H1 H2 -> H3. exists t, b, o. split_and!; [reflexivity | exact H1 | exact H2 | reflexivity | exact H3].
Qed.

Lemma loop_types :
  (exists t u, btf_type_by_id demo_loop 5 = Some t /\ btf_type_by_id demo_loop 7 = Some u /\ btf_kind t = BTF_KIND_TYPEDEF /\
     btf_kind u = BTF_KIND_TYPEDEF /\ info t = info u /\ name_off t = name_off u /\ t_type t = 6 /\ t_type u = 8) /\
  (exists t u, btf_type_by_id demo_loop 6 = Some t /\ btf_type_by_id demo_loop 8 = Some u /\ btf_kind t = BTF_KIND_PTR /\
     btf_kind u = BTF_KIND_PTR /\ info t = info u /\ name_off t = name_off u /\ t_type t = 5 /\ t_type u = 7).
Proof. split; eexists _, _; (split_and!; [vm_compute; reflexivity.. ]). Qed.

Lemma loop_endless fuel depth :
  0 < depth -> btf_dedup_identical_types fuel demo_loop 5 7 depth = None /\ btf_dedup_identical_types fuel demo_loop 6 8 depth = None.
Proof.
  intros Hd. destruct loop_types as [(t & u & Ht & Hu & Hk & Hk' & Hi & Hn & Hx & Hy) (t2 & u2 & Ht2 & Hu2 & Hk2 & Hk2' & Hi2 & Hn2 & Hx2 & Hy2)].
  induction fuel as [|fuel [IH1 IH2]]; [done |]. cbn [btf_dedup_identical_types].
  rewrite Ht, Hu, Ht2, Hu2. cbn [mbind option_bind]. replace (depth <=? 0) with false by lia.
  rewrite Hk, Hk', Hk2, Hk2', Hi, Hi2, Hn, Hn2, !Z.eqb_refl, !bool_decide_eq_true_2 by reflexivity. cbn [negb orb].
  by rewrite Hx, Hy, Hx2, Hy2.
Qed.

(** C28: deduplication may not return.  [btf_dedup_identical_types] follows typedefs and pointers
    without counting them against its depth: on a typedef that is a pointer to itself, which a
    compiler has written twice, no number of steps is enough, and [btf__dedup] gets there from
    an object that [btf_new] accepts. *)
Theorem btf__dedup_endless :
  btf_new (demo_bytes (mjoin loop_chunks) loop_strs) None [] = Some (Ok demo_loop, []) /\
  (forall fuel, btf_dedup_identical_types fuel demo_loop 5 7 16 = None) /\
  btf__dedup false demo_loop [] = None.
Proof.
  split_and!; [vm_compute; reflexivity | intros fuel; by apply loop_endless | vm_compute; reflexivity].
Qed.
