(* ===== verification/Sha256.v ===== *)
(** * Sha256: the hash of [src/src/libbpf_utils.c]

    [libbpf_sha256] with its block function: the rounds are unrolled by eight with the
    registers renamed instead of moved, and the data is hashed in two parts, whole blocks
    in place and the rest with the padding in a buffer.  The theorem: this is SHA-256 as
    FIPS 180-4 defines it, by a message that is padded first, a schedule given by its
    recurrence, rounds that shift eight registers, and constants from the roots of primes.

    [None] is an access outside the data, the buffer or an array. *)
From S2P Require Import Prelude.
Open Scope Z_scope.

(** ** Words *)
Definition ror32 (v bits : Z) : Z := Z.lor (Z.shiftr v bits) (u32 (Z.shiftl v (32 - bits))).

(** The host is little endian. *)
Definition be32_to_cpu (v : Z) : Z := le_combine (rev (le_split 4 v)).

Definition get_unaligned_be32 (data : list Z) (p : Z) : option Z :=
  val ← load data p 4; Some (be32_to_cpu val).

Definition put_unaligned_be32 (val : Z) (out : list Z) (p : Z) : option (list Z) :=
  if (0 <=? p) && (p + 4 <=? zlen out) then Some (memcpy out p (le_split 4 (be32_to_cpu val))) else None.

Definition SHA256_BLOCK_LENGTH : Z := 64.
Definition SHA256_DIGEST_LENGTH : Z := 32.
Definition Ch (x y z : Z) : Z := Z.lxor (Z.land x y) (Z.land (u32 (Z.lnot x)) z).
Definition Maj (x y z : Z) : Z := Z.lxor (Z.lxor (Z.land x y) (Z.land x z)) (Z.land y z).
Definition Sigma_0 (x : Z) : Z := Z.lxor (Z.lxor (ror32 x 2) (ror32 x 13)) (ror32 x 22).
Definition Sigma_1 (x : Z) : Z := Z.lxor (Z.lxor (ror32 x 6) (ror32 x 11)) (ror32 x 25).
Definition sigma_0 (x : Z) : Z := Z.lxor (Z.lxor (ror32 x 7) (ror32 x 18)) (Z.shiftr x 3).
Definition sigma_1 (x : Z) : Z := Z.lxor (Z.lxor (ror32 x 17) (ror32 x 19)) (Z.shiftr x 10).

(** The rows of the source. *)
Definition sha256_K : list Z :=
  [0x428a2f98; 0x71374491; 0xb5c0fbcf; 0xe9b5dba5; 0x3956c25b; 0x59f111f1] ++
  [0x923f82a4; 0xab1c5ed5; 0xd807aa98; 0x12835b01; 0x243185be; 0x550c7dc3] ++
  [0x72be5d74; 0x80deb1fe; 0x9bdc06a7; 0xc19bf174; 0xe49b69c1; 0xefbe4786] ++
  [0x0fc19dc6; 0x240ca1cc; 0x2de92c6f; 0x4a7484aa; 0x5cb0a9dc; 0x76f988da] ++
  [0x983e5152; 0xa831c66d; 0xb00327c8; 0xbf597fc7; 0xc6e00bf3; 0xd5a79147] ++
  [0x06ca6351; 0x14292967; 0x27b70a85; 0x2e1b2138; 0x4d2c6dfc; 0x53380d13] ++
  [0x650a7354; 0x766a0abb; 0x81c2c92e; 0x92722c85; 0xa2bfe8a1; 0xa81a664b] ++
  [0xc24b8b70; 0xc76c51a3; 0xd192e819; 0xd6990624; 0xf40e3585; 0x106aa070] ++
  [0x19a4c116; 0x1e376c08; 0x2748774c; 0x34b0bcb5; 0x391c0cb3; 0x4ed8aa4a] ++
  [0x5b9cca4f; 0x682e6ff3; 0x748f82ee; 0x78a5636f; 0x84c87814; 0x8cc70208] ++
  [0x90befffa; 0xa4506ceb; 0xbef9a3f7; 0xc67178f2].

(** ** Blocks *)

(** The eight registers, and [state]. *)
Record regs := Regs { ra : Z; rb : Z; rc : Z; rd : Z; re : Z; rf : Z; rg : Z; rh : Z }.

(** The new values of [d] and [h]. *)
Definition SHA256_ROUND (w : list Z) (i a b c d e f g h : Z) : option (Z * Z) :=
  k ← znth sha256_K i;
  wi ← znth w i;
  let tmp := u32 (h + Sigma_1 e + Ch e f g + k + wi) in
  Some (u32 (d + tmp), u32 (tmp + Sigma_0 a + Maj a b c)).

(** The body of the loop over the rounds. *)
Definition rounds8 (w : list Z) (i : Z) (s : regs) : option regs :=
  let '(Regs a b c d e f g h) := s in
  '(d, h) ← SHA256_ROUND w (i + 0) a b c d e f g h;
  '(c, g) ← SHA256_ROUND w (i + 1) h a b c d e f g;
  '(b, f) ← SHA256_ROUND w (i + 2) g h a b c d e f;
  '(a, e) ← SHA256_ROUND w (i + 3) f g h a b c d e;
  '(h, d) ← SHA256_ROUND w (i + 4) e f g h a b c d;
  '(g, c) ← SHA256_ROUND w (i + 5) d e f g h a b c;
  '(f, b) ← SHA256_ROUND w (i + 6) c d e f g h a b;
  '(e, a) ← SHA256_ROUND w (i + 7) b c d e f g h a;
  Some (Regs a b c d e f g h).

Fixpoint rounds_loop (n : nat) (w : list Z) (i : Z) (s : regs) : option regs :=
  match n with
  | O => Some s
  | S n => s ← rounds8 w i s; rounds_loop n w (i + 8) s
  end.

(** The first 16 words are those of the block, the others follow from them. *)
Fixpoint w_data (n : nat) (i : Z) (data : list Z) (w : list Z) : option (list Z) :=
  match n with
  | O => Some w
  | S n => x ← get_unaligned_be32 data (4 * i); w_data n (i + 1) data (w ++ [x])
  end.

Fixpoint w_rest (n : nat) (i : Z) (w : list Z) : option (list Z) :=
  match n with
  | O => Some w
  | S n =>
      w2 ← znth w (i - 2);
      w7 ← znth w (i - 7);
      w15 ← znth w (i - 15);
      w16 ← znth w (i - 16);
      w_rest n (i + 1) (w ++ [u32 (sigma_1 w2 + w7 + sigma_0 w15 + w16)])
  end.

Definition add_regs (s t : regs) : regs :=
  Regs (u32 (ra s + ra t)) (u32 (rb s + rb t)) (u32 (rc s + rc t)) (u32 (rd s + rd t))
    (u32 (re s + re t)) (u32 (rf s + rf t)) (u32 (rg s + rg t)) (u32 (rh s + rh t)).

(** The data from the current block on. *)
Fixpoint sha256_blocks (nblocks : nat) (state : regs) (data : list Z) : option regs :=
  match nblocks with
  | O => Some state
  | S nblocks =>
      w ← w_data 16 0 data [];
      w ← w_rest 48 16 w;
      s ← rounds_loop 8 w 0 state;
      sha256_blocks nblocks (add_regs state s) (zdrop SHA256_BLOCK_LENGTH data)
  end.

(** ** The hash *)
Definition sha256_init : regs :=
  Regs 0x6a09e667 0xbb67ae85 0x3c6ef372 0xa54ff53a 0x510e527f 0x9b05688c 0x1f83d9ab 0x5be0cd19.

Definition cpu_to_be64 (v : Z) : Z := le_combine (rev (le_split 8 v)).

Definition roundup (x y : Z) : Z := (x + (y - 1)) / y * y.

(** Bytes written to an array. *)
Definition put (data : list Z) (pos : Z) (bs : list Z) : option (list Z) :=
  if (0 <=? pos) && (pos + zlen bs <=? zlen data) then Some (memcpy data pos bs) else None.

Fixpoint put_state (l : list Z) (i : Z) (out : list Z) : option (list Z) :=
  match l with
  | [] => Some out
  | x :: l => out ← put_unaligned_be32 x out (4 * i); put_state l (i + 1) out
  end.

Definition regs_list (s : regs) : list Z := [ra s; rb s; rc s; rd s; re s; rf s; rg s; rh s].

Definition libbpf_sha256 (data : list Z) (len : Z) (out : list Z) : option (list Z) :=
  let bitcount := cpu_to_be64 (u64 (len * 8)) in
  let final_data := replicate 128 0 in
  let final_len := len mod SHA256_BLOCK_LENGTH in
  state ← sha256_blocks (Z.to_nat (len / SHA256_BLOCK_LENGTH)) sha256_init data;
  rest ← slice data (len - final_len) final_len;
  final_data ← put final_data 0 rest;
  final_data ← put final_data final_len [0x80];
  let final_len := roundup (final_len + 9) SHA256_BLOCK_LENGTH in
  final_data ← put final_data (final_len - 8) (le_split 8 bitcount);
  state ← sha256_blocks (Z.to_nat (final_len / SHA256_BLOCK_LENGTH)) state final_data;
  put_state (regs_list state) 0 out.

(** ** SHA-256 as FIPS 180-4 defines it *)

(** Bytes, most significant first. *)
Definition be_combine (bs : list Z) : Z := le_combine (rev bs).
Definition be_split (n : nat) (v : Z) : list Z := rev (le_split n v).

(** The padded message: a one bit, zeros, and the length in bits as a 64-bit number, up to a
    multiple of 64 bytes. *)
Definition fips_pad (msg : list Z) : list Z :=
  msg ++ [0x80] ++ replicate (Z.to_nat ((55 - zlen msg) mod 64)) 0 ++ be_split 8 (8 * zlen msg).

(** Word [t] of a block, and of its schedule ([fuel] above [t] is enough). *)
Definition block_word (block : list Z) (t : nat) : Z := be_combine (take 4 (drop (4 * t) block)).

Fixpoint schedule (fuel : nat) (block : list Z) (t : nat) : Z :=
  match fuel with
  | O => 0
  | S fuel =>
      if (t <? 16)%nat then block_word block t
      else (sigma_1 (schedule fuel block (t - 2)) + schedule fuel block (t - 7) +
            sigma_0 (schedule fuel block (t - 15)) + schedule fuel block (t - 16)) mod 2 ^ 32
  end.

Definition fips_W (block : list Z) (t : nat) : Z := schedule (S t) block t.

Definition fips_round (s : regs) (k w : Z) : regs :=
  let '(Regs a b c d e f g h) := s in
  let T1 := (h + Sigma_1 e + Ch e f g + k + w) mod 2 ^ 32 in
  let T2 := (Sigma_0 a + Maj a b c) mod 2 ^ 32 in
  Regs ((T1 + T2) mod 2 ^ 32) a b c ((d + T1) mod 2 ^ 32) e f g.

(** The constants: the first 32 bits of the fractional parts of the cube roots of the first 64
    primes, and of the square roots of the first eight. *)
Definition is_prime (n : Z) : bool := forallb (fun d => negb (n mod d =? 0)) (seqZ 2 (n - 2)).
Definition primes : list Z := filter (fun n => is_prime n = true) (seqZ 2 310).

(** The cube root of [x] from its bits below [n] on; [r] has the bits above. *)
Fixpoint cbrt (n : nat) (x r : Z) : Z :=
  match n with
  | O => r
  | S n => let r' := r + 2 ^ Z.of_nat n in cbrt n x (if r' ^ 3 <=? x then r' else r)
  end.

Definition fips_K : list Z := (fun p => cbrt 35 (p * 2 ^ 96) 0 mod 2 ^ 32) <$> primes.

Definition fips_H (i : nat) : Z := Z.sqrt (default 0 (primes !! i) * 2 ^ 64) mod 2 ^ 32.
Definition fips_init : regs := Regs (fips_H 0) (fips_H 1) (fips_H 2) (fips_H 3) (fips_H 4) (fips_H 5) (fips_H 6) (fips_H 7).

Definition fips_step (block : list Z) (s : regs) (t : nat) : regs :=
  fips_round s (default 0 (fips_K !! t)) (fips_W block t).

Definition fips_compress (H : regs) (block : list Z) : regs :=
  add_regs H (foldl (fips_step block) H (seq 0 64)).

Fixpoint blocks (n : nat) (msg : list Z) : list (list Z) :=
  match n with O => [] | S n => ztake 64 msg :: blocks n (zdrop 64 msg) end.

Definition fips_sha256 (msg : list Z) : list Z :=
  let padded := fips_pad msg in
  mjoin (be_split 4 <$> regs_list (foldl fips_compress fips_init (blocks (Z.to_nat (zlen padded / 64)) padded))).

(** ** The constants *)
Lemma primes_count : length primes = 64%nat.
Proof. vm_compute. reflexivity. Qed.

Lemma cbrt_primes : Forall (fun p => cbrt 35 (p * 2 ^ 96) 0 ^ 3 <= p * 2 ^ 96 < (cbrt 35 (p * 2 ^ 96) 0 + 1) ^ 3) primes.
Proof. apply (bool_decide_eq_true_1 _). vm_compute. reflexivity. Qed.

Lemma sha256_K_fips : sha256_K = fips_K.
Proof. vm_compute. reflexivity. Qed.

Lemma sha256_init_fips : sha256_init = fips_init.
Proof. vm_compute. reflexivity. Qed.

(** ** Bytes *)
Lemma be32_bytes v : le_split 4 (be32_to_cpu v) = be_split 4 v.
Proof.
  unfold be32_to_cpu, be_split. pose proof (le_split_combine (rev (le_split 4 v))) as H. rewrite length_rev in H. apply H.
  apply Forall_rev, le_split_bytes.
Qed.

Lemma be64_bytes v : le_split 8 (cpu_to_be64 v) = be_split 8 v.
Proof.
  unfold cpu_to_be64, be_split. pose proof (le_split_combine (rev (le_split 8 v))) as H. rewrite length_rev in H. apply H.
  apply Forall_rev, le_split_bytes.
Qed.

Lemma length_be_split n v : length (be_split n v) = n.
Proof. unfold be_split. rewrite length_rev. pose proof (zlen_le_split n v). unfold zlen in *. lia. Qed.

Lemma get_word data (t : nat) :
  Forall is_byte data -> 4 * Z.of_nat t + 4 <= zlen data -> get_unaligned_be32 data (4 * Z.of_nat t) = Some (block_word data t).
Proof.
  intros Hb Hl. unfold get_unaligned_be32, load, slice. replace (_ && _ && _) with true by lia. cbn [fmap option_fmap option_map mbind option_bind].
  f_equal. unfold block_word, be_combine, be32_to_cpu. f_equal. f_equal. unfold ztake, zdrop. replace (Z.to_nat (4 * Z.of_nat t)) with (4 * t)%nat by lia.
  change (Z.to_nat 4) with 4%nat. set (bs := take 4 (drop (4 * t) data)).
  assert (Hlen : length bs = 4%nat) by (unfold bs; rewrite length_take, length_drop; unfold zlen in Hl; lia).
  rewrite <- Hlen at 1. apply le_split_combine. by apply Forall_take, Forall_drop.
Qed.

(** ** The schedule *)
Lemma schedule_fuel f1 f2 block t : (t < f1)%nat -> (t < f2)%nat -> schedule f1 block t = schedule f2 block t.
Proof.
  revert f2 t. induction f1 as [|f1 IH]; intros [|f2] t H1 H2; [lia.. |]. cbn [schedule]. destruct (t <? 16)%nat eqn:Ht; [done |].
  apply Nat.ltb_ge in Ht. by rewrite !(IH f2) by lia.
Qed.

Lemma fips_W_rest block t :
  (16 <= t)%nat ->
  fips_W block t = u32 (sigma_1 (fips_W block (t - 2)) + fips_W block (t - 7) + sigma_0 (fips_W block (t - 15)) + fips_W block (t - 16)).
Proof.
  intros Ht. unfold fips_W. rewrite (schedule_fuel (S (t - 2)) t), (schedule_fuel (S (t - 7)) t), (schedule_fuel (S (t - 15)) t),
    (schedule_fuel (S (t - 16)) t) by lia. cbn [schedule]. by replace (t <? 16)%nat with false by (symmetry; apply Nat.ltb_ge; lia).
Qed.

(** The schedule is that of the first 64 bytes. *)
Lemma fips_W_block data t : (t < 64)%nat -> fips_W (ztake 64 data) t = fips_W data t.
Proof.
  induction t as [t IH] using lt_wf_ind. intros Ht. destruct (decide (t < 16)%nat) as [Hlt|Hge].
  - unfold fips_W. cbn [schedule]. replace (t <? 16)%nat with true by (symmetry; apply Nat.ltb_lt; lia).
    unfold block_word, ztake. f_equal. change (Z.to_nat 64) with 64%nat. rewrite skipn_firstn_comm, take_take. f_equal. lia.
  - rewrite (fips_W_rest _ t), (fips_W_rest data t) by lia. by rewrite !IH by lia.
Qed.

Definition W_upto (data : list Z) (i : nat) : list Z := fips_W data <$> seq 0 i.

Lemma W_upto_S data i : W_upto data (S i) = W_upto data i ++ [fips_W data i].
Proof. unfold W_upto. by rewrite seq_S, fmap_app. Qed.

Lemma W_upto_znth data i (t : nat) z : z = Z.of_nat t -> (t < i)%nat -> znth (W_upto data i) z = Some (fips_W data t).
Proof.
  intros -> Ht. unfold znth. replace (Z.of_nat t <? 0) with false by lia. rewrite Nat2Z.id. unfold W_upto.
  rewrite list_lookup_fmap, lookup_seq_lt by done. done.
Qed.

Lemma w_data_ok n i data :
  Forall is_byte data -> 64 <= zlen data -> (i + n <= 16)%nat ->
  w_data n (Z.of_nat i) data (W_upto data i) = Some (W_upto data (i + n)).
Proof.
  intros Hb Hl. revert i. induction n as [|n IH]; intros i Hi; cbn [w_data]; [by rewrite Nat.add_0_r |].
  rewrite get_word by (done || lia). cbn [mbind option_bind]. replace (Z.of_nat i + 1) with (Z.of_nat (S i)) by lia.
  assert (Hw : block_word data i = fips_W data i).
  { unfold fips_W. cbn [schedule]. by replace (i <? 16)%nat with true by (symmetry; apply Nat.ltb_lt; lia). }
  rewrite Hw, <- W_upto_S, IH by lia. do 2 f_equal. lia.
Qed.

Lemma w_rest_ok n i data : (16 <= i)%nat -> w_rest n (Z.of_nat i) (W_upto data i) = Some (W_upto data (i + n)).
Proof.
  revert i. induction n as [|n IH]; intros i Hi; cbn [w_rest]; [by rewrite Nat.add_0_r |].
  rewrite (W_upto_znth data i (i - 2) (Z.of_nat i - 2)) by lia. cbn [mbind option_bind].
  rewrite (W_upto_znth data i (i - 7) (Z.of_nat i - 7)) by lia. cbn [mbind option_bind].
  rewrite (W_upto_znth data i (i - 15) (Z.of_nat i - 15)) by lia. cbn [mbind option_bind].
  rewrite (W_upto_znth data i (i - 16) (Z.of_nat i - 16)) by lia. cbn [mbind option_bind].
  rewrite <- (fips_W_rest data i Hi), <- W_upto_S. replace (Z.of_nat i + 1) with (Z.of_nat (S i)) by lia.
  rewrite IH by lia. do 2 f_equal. lia.
Qed.

(** ** The rounds *)
Lemma round_ok data (t : nat) i a b c d e f g h :
  i = Z.of_nat t -> (t < 64)%nat ->
  SHA256_ROUND (W_upto data 64) i a b c d e f g h =
  let s := fips_step data (Regs a b c d e f g h) t in Some (re s, ra s).
Proof.
  intros -> Ht. unfold SHA256_ROUND, fips_step, fips_round. rewrite <- sha256_K_fips.
  assert (Hk : exists k, znth sha256_K (Z.of_nat t) = Some k /\ sha256_K !! t = Some k).
  { destruct (lookup_lt_is_Some_2 sha256_K t Ht) as [k Hk]. exists k. split; [|done].
    unfold znth. replace (Z.of_nat t <? 0) with false by lia. by rewrite Nat2Z.id. }
  destruct Hk as (k & Hk & ->). rewrite Hk, (W_upto_znth data 64 t) by done. cbn [mbind option_bind default re ra]. unfold u32, uwrap.
  f_equal. f_equal. rewrite Zplus_mod_idemp_r, Z.add_assoc. reflexivity.
Qed.

Lemma fips_step_moves data a b c d e f g h t :
  let s := fips_step data (Regs a b c d e f g h) t in s = Regs (ra s) a b c (re s) e f g.
Proof. done. Qed.

Ltac one_round t k := rewrite (round_ok _ (t + k)) by lia; cbn zeta; cbn [mbind option_bind].

Lemma rounds8_ok data (t : nat) s :
  (t + 8 <= 64)%nat -> rounds8 (W_upto data 64) (Z.of_nat t) s = Some (foldl (fips_step data) s (seq t 8)).
Proof.
  intros Ht. destruct s as [a b c d e f g h]. unfold rounds8.
  one_round t 0%nat. one_round t 1%nat. one_round t 2%nat. one_round t 3%nat.
  one_round t 4%nat. one_round t 5%nat. one_round t 6%nat. one_round t 7%nat.
  cbn [seq foldl]. replace (t + 0)%nat with t by lia. replace (t + 1)%nat with (S t) by lia. replace (t + 2)%nat with (S (S t)) by lia.
  replace (t + 3)%nat with (S (S (S t))) by lia. replace (t + 4)%nat with (S (S (S (S t)))) by lia.
  replace (t + 5)%nat with (S (S (S (S (S t))))) by lia. replace (t + 6)%nat with (S (S (S (S (S (S t)))))) by lia.
  replace (t + 7)%nat with (S (S (S (S (S (S (S t))))))) by lia.
  reflexivity.
Qed.

Lemma rounds_loop_ok data n t s :
  (t + 8 * n <= 64)%nat -> rounds_loop n (W_upto data 64) (Z.of_nat t) s = Some (foldl (fips_step data) s (seq t (8 * n))).
Proof.
  revert t s. induction n as [|n IH]; intros t s Ht; [done |]. cbn [rounds_loop]. rewrite rounds8_ok by lia. cbn [mbind option_bind].
  replace (Z.of_nat t + 8) with (Z.of_nat (t + 8)) by lia. rewrite IH by lia. f_equal.
  replace (8 * S n)%nat with (8 + 8 * n)%nat by lia. by rewrite seq_app, foldl_app.
Qed.

Lemma fips_steps_block data s l :
  Forall (fun t => (t < 64)%nat) l -> foldl (fips_step (ztake 64 data)) s l = foldl (fips_step data) s l.
Proof.
  revert s. induction l as [|t l IH]; intros s Hall; [done |]. apply Forall_cons in Hall as [Ht Hall]. cbn [foldl].
  rewrite <- (IH _ Hall). f_equal. unfold fips_step. by rewrite (fips_W_block data t Ht).
Qed.

Lemma fips_compress_block H data : fips_compress H (ztake 64 data) = add_regs H (foldl (fips_step data) H (seq 0 64)).
Proof. unfold fips_compress. rewrite fips_steps_block; [done |]. apply Forall_seq. lia. Qed.

Lemma sha256_blocks_ok n state data :
  Forall is_byte data -> 64 * Z.of_nat n <= zlen data ->
  sha256_blocks n state data = Some (foldl fips_compress state (blocks n data)).
Proof.
  revert state data. induction n as [|n IH]; intros state data Hb Hl; [done |]. cbn [sha256_blocks blocks foldl].
  pose proof (w_data_ok 16 0 data Hb ltac:(lia) ltac:(lia)) as H1. pose proof (w_rest_ok 48 16 data ltac:(lia)) as H2.
  pose proof (rounds_loop_ok data 8 0 state ltac:(lia)) as H3. change (W_upto data 0) with (@nil Z) in H1.
  change (Z.of_nat 0) with 0 in H1, H3. change (Z.of_nat 16) with 16 in H2. change (0 + 16)%nat with 16%nat in H1. change (16 + 48)%nat with 64%nat in H2.
  rewrite H1. cbn [mbind option_bind]. rewrite H2. cbn [mbind option_bind]. rewrite H3. cbn [mbind option_bind]. rewrite fips_compress_block. apply IH.
  - by apply Forall_drop.
  - unfold zdrop, zlen, SHA256_BLOCK_LENGTH in *. rewrite length_drop. lia.
Qed.

(** ** Blocks and padding *)
Lemma blocks_app n k msg : blocks (n + k) msg = blocks n msg ++ blocks k (zdrop (64 * Z.of_nat n) msg).
Proof.
  revert msg. induction n as [|n IH]; intros msg; [done |]. cbn [Nat.add blocks app]. rewrite IH.
  replace (zdrop (64 * Z.of_nat n) (zdrop 64 msg)) with (zdrop (64 * Z.of_nat (S n)) msg); [done |].
  unfold zdrop. rewrite drop_drop. f_equal. lia.
Qed.

Lemma blocks_prefix n msg k : 64 * Z.of_nat n <= zlen msg -> blocks n (msg ++ k) = blocks n msg.
Proof.
  revert msg. induction n as [|n IH]; intros msg Hl; [done |]. cbn [blocks]. unfold ztake, zdrop, zlen in *.
  rewrite take_app_le, drop_app_le by lia. f_equal. apply IH. rewrite length_drop. lia.
Qed.

Lemma put_zeros P n pos bs :
  zlen P = pos -> (length bs <= n)%nat -> put (P ++ replicate n 0) pos bs = Some ((P ++ bs) ++ replicate (n - length bs) 0).
Proof.
  intros Hp Hb. unfold put. rewrite zlen_app. unfold zlen in *. rewrite length_replicate.
  replace (_ && _) with true by lia. f_equal. unfold memcpy, ztake, zdrop, zlen. subst pos.
  rewrite Nat2Z.id, take_app_length, <- app_assoc. do 2 f_equal. rewrite drop_app_ge by lia.
  replace (Z.to_nat (Z.of_nat (length P) + Z.of_nat (length bs)) - length P)%nat with (length bs) by lia. apply drop_replicate.
Qed.

(** Bytes between, that are zero, are skipped. *)
Lemma put_zeros_at P n k pos bs :
  zlen P + Z.of_nat k = pos -> (k + length bs <= n)%nat ->
  put (P ++ replicate n 0) pos bs = Some ((P ++ replicate k 0 ++ bs) ++ replicate (n - k - length bs) 0).
Proof.
  intros Hp Hb. replace n with (k + (n - k))%nat at 1 by lia. rewrite replicate_add, app_assoc.
  rewrite put_zeros; [by rewrite !app_assoc | | lia]. rewrite zlen_app, zlen_replicate. lia.
Qed.

Lemma put_state_ok l i P Q :
  zlen P = 4 * i -> length Q = (4 * length l)%nat -> put_state l i (P ++ Q) = Some (P ++ mjoin (be_split 4 <$> l)).
Proof.
  revert i P Q. induction l as [|x l IH]; intros i P Q Hp Hq; cbn [put_state].
  { cbn in Hq. apply nil_length_inv in Hq as ->. done. }
  unfold put_unaligned_be32. rewrite zlen_app. unfold zlen in *. cbn [length] in Hq. replace (_ && _) with true by lia.
  cbn [mbind option_bind]. rewrite be32_bytes.
  assert (Hm : memcpy (P ++ Q) (4 * i) (be_split 4 x) = (P ++ be_split 4 x) ++ drop 4 Q).
  { unfold memcpy, ztake, zdrop, zlen. rewrite length_be_split. rewrite <- Hp, Nat2Z.id, take_app_length, <- app_assoc. do 2 f_equal.
    rewrite drop_app_ge by lia. f_equal. lia. }
  rewrite Hm, IH; [|rewrite length_app, length_be_split; lia | rewrite length_drop; lia].
  cbn [fmap list_fmap]. by rewrite mjoin_cons, app_assoc.
Qed.

(** The buffer for the last blocks holds the end of the padded message. *)
Lemma final_data_ok rest r bits :
  zlen rest = r -> 0 <= r < 64 -> length bits = 8%nat ->
  let F := roundup (r + 9) 64 in
  (F = 64 \/ F = 128) /\
  exists f1 f2, put (replicate 128 0) 0 rest = Some f1 /\ put f1 r [0x80] = Some f2 /\
    put f2 (F - 8) bits = Some ((rest ++ [0x80] ++ replicate (Z.to_nat (F - r - 9)) 0 ++ bits) ++ replicate (Z.to_nat (128 - F)) 0).
Proof.
  intros Hr Hlt Hb F. assert (HF : (F = 64 /\ r <= 55) \/ (F = 128 /\ 55 < r)) by (unfold F, roundup; lia).
  split; [lia |]. unfold zlen in Hr. eexists _, _. split; [apply (put_zeros [] 128 0 rest eq_refl); lia |]. cbn [app].
  split; [apply (put_zeros rest (128 - length rest) r [0x80]); unfold zlen; cbn [length]; lia |]. cbn [length].
  rewrite (put_zeros_at (rest ++ [0x80]) _ (Z.to_nat (F - r - 9)) (F - 8) bits);
    [|rewrite zlen_app; unfold zlen; cbn [length]; lia | lia].
  rewrite <- !app_assoc. cbn [app]. replace (128 - length rest - 1 - Z.to_nat (F - r - 9) - length bits)%nat with (Z.to_nat (128 - F)) by lia.
  by rewrite <- !app_assoc.
Qed.

Lemma fips_pad_len msg :
  zlen (fips_pad msg) = 64 * (zlen msg / 64) + roundup (zlen msg mod 64 + 9) 64 /\
  (55 - zlen msg) mod 64 = roundup (zlen msg mod 64 + 9) 64 - zlen msg mod 64 - 9.
Proof.
  pose proof (zlen_nonneg msg) as H0. set (len := zlen msg) in *. pose proof (Z.div_mod len 64 ltac:(lia)) as Hd.
  pose proof (Z.mod_pos_bound len 64 ltac:(lia)) as Hm. set (r := len mod 64) in *. set (q := len / 64) in *.
  assert (Hk : (55 - len) mod 64 = roundup (r + 9) 64 - r - 9) by (unfold roundup; lia).
  split; [|done]. pose proof (Z.mod_pos_bound (55 - len) 64 ltac:(lia)). unfold fips_pad. rewrite !zlen_app, zlen_replicate.
  assert (Hb : zlen (be_split 8 (8 * zlen msg)) = 8) by (unfold zlen; by rewrite length_be_split).
  rewrite Hb. change (zlen [128]) with 1. fold len. lia.
Qed.

(** C35: [libbpf_sha256] reads only the [len] bytes of its data, writes the 32 bytes of [out],
    and gives the SHA-256 of FIPS 180-4: unrolled rounds, blocks taken from the data and the
    buffer for the padding together are the compression of the padded message. *)
Theorem libbpf_sha256_spec data len out :
  Forall is_byte data -> 0 <= len <= zlen data -> len < 2 ^ 61 -> zlen out = SHA256_DIGEST_LENGTH ->
  libbpf_sha256 data len out = Some (fips_sha256 (ztake len data)).
Proof.
  intros Hb Hlen Hmax Hout. set (msg := ztake len data).
  assert (Hmsg : zlen msg = len) by (apply zlen_ztake; lia).
  assert (Hdata : data = msg ++ zdrop len data) by (symmetry; apply ztake_zdrop).
  pose proof (Z.div_mod len 64 ltac:(lia)) as Hd. pose proof (Z.mod_pos_bound len 64 ltac:(lia)) as Hm.
  pose proof (Z.div_pos len 64 ltac:(lia) ltac:(lia)) as Hq. destruct (fips_pad_len msg) as [Hpl Hk]. rewrite Hmsg in Hpl, Hk.
  unfold libbpf_sha256, SHA256_BLOCK_LENGTH. set (r := len mod 64) in *. set (q := len / 64) in *. set (F := roundup (r + 9) 64) in *.
  rewrite sha256_blocks_ok by (done || lia). cbn [mbind option_bind].
  replace (len - r) with (64 * q) by lia. set (rest := zdrop (64 * q) msg).
  assert (Hrest : slice data (64 * q) r = Some rest /\ zlen rest = r).
  { assert (Hl : zlen rest = r) by (unfold rest, zdrop, zlen in *; rewrite length_drop; lia). split; [|done].
    unfold slice. replace (_ && _ && _) with true by lia. f_equal. rewrite Hdata. unfold rest, zdrop, ztake, zlen in *.
    rewrite drop_app_le by lia. rewrite take_app_le by lia. apply take_ge. lia. }
  destruct Hrest as [-> Hrl]. cbn [mbind option_bind].
  rewrite be64_bytes. replace (u64 (len * 8)) with (8 * len) by (rewrite u64_small; lia).
  destruct (final_data_ok rest r (be_split 8 (8 * len)) Hrl Hm (length_be_split _ _)) as (HF & f1 & f2 & E1 & E2 & E3). fold F in HF, E3.
  rewrite E1. cbn [mbind option_bind]. rewrite E2. cbn [mbind option_bind]. rewrite E3. cbn [mbind option_bind].
  set (X := [0x80] ++ replicate (Z.to_nat (F - r - 9)) 0 ++ be_split 8 (8 * len)) in *.
  assert (Hpad : fips_pad msg = msg ++ X) by (unfold fips_pad, X; by rewrite Hmsg, Hk).
  assert (HX : zlen (rest ++ X) = F).
  { rewrite Hpad in Hpl. rewrite zlen_app in Hpl |- *. lia. }
  assert (Hbytes : Forall is_byte ((rest ++ X) ++ replicate (Z.to_nat (128 - F)) 0)).
  { assert (Hz : forall n, Forall is_byte (replicate n 0)) by (intros n; apply Forall_replicate; by cbv).
    unfold X, rest, msg. rewrite !Forall_app. split_and!; [apply Forall_drop; by apply Forall_take | | apply Hz | | apply Hz].
    - by repeat constructor.
    - apply Forall_rev, le_split_bytes. }
  rewrite sha256_blocks_ok; [|exact Hbytes | rewrite zlen_app, HX, zlen_replicate; lia]. cbn [mbind option_bind].
  pose proof (put_state_ok (regs_list (foldl fips_compress (foldl fips_compress sha256_init (blocks (Z.to_nat q) data))
    (blocks (Z.to_nat (F / 64)) ((rest ++ X) ++ replicate (Z.to_nat (128 - F)) 0)))) 0 [] out eq_refl) as Hput.
  cbn [app] in Hput. rewrite Hput by (unfold zlen, SHA256_DIGEST_LENGTH in Hout; cbn [length regs_list]; lia). f_equal.
  unfold fips_sha256. rewrite Hpl, <- sha256_init_fips, <- foldl_app. f_equal. f_equal. f_equal. f_equal.
  replace (Z.to_nat ((64 * q + F) / 64)) with (Z.to_nat q + Z.to_nat (F / 64))%nat by lia.
  rewrite blocks_app, Z2Nat.id, Hpad by lia. rewrite Hdata, (blocks_prefix _ (rest ++ X)), (blocks_prefix _ msg X), (blocks_prefix _ msg) by lia. do 2 f_equal.
  unfold rest, zdrop, zlen in *. by rewrite drop_app_le by lia.
Qed.

(** The digest of "abc" in the standard. *)
Lemma libbpf_sha256_spec_witness :
  fips_sha256 [97; 98; 99] =
    mjoin (be_split 4 <$> [0xba7816bf; 0x8f01cfea; 0x414140de; 0x5dae2223; 0xb00361a3; 0x96177a9c; 0xb410ff61; 0xf20015ad]).
Proof.
  assert (H : libbpf_sha256 [97; 98; 99; 0] 3 (replicate 32 0) = Some (fips_sha256 [97; 98; 99])).
  { apply (libbpf_sha256_spec [97; 98; 99; 0] 3 (replicate 32 0)); [repeat constructor; cbv; congruence | by cbv | by cbv | reflexivity]. }
  assert (H' : libbpf_sha256 [97; 98; 99; 0] 3 (replicate 32 0) = Some
    (mjoin (be_split 4 <$> [0xba7816bf; 0x8f01cfea; 0x414140de; 0x5dae2223; 0xb00361a3; 0x96177a9c; 0xb410ff61; 0xf20015ad])))
    by (vm_compute; reflexivity).
  rewrite H in H'. apply (inj Some) in H'. exact H'.
Defined.
