(* ===== verification/ProgSec.v ===== *)
(** * ProgSec: program types by section name ([src/src/libbpf.c])

    The table of section definitions, the handlers that a user registers in addition, and
    the search for the definition of a section name.  A name is compared with a pattern:
    exactly, as the part before a slash ([type+]), or as a prefix ([type/]).

    The theorems: the comparison decides that relation; no section name fits two entries
    of the table, and every entry fits some name, so that their order does not matter; and
    over any sequence of registrations the handlers are those registered and not removed,
    in order, under different identifiers.

    Callbacks are only stored: those of the library are named, those of a user are
    numbers.  [None] is a read outside a string. *)
From Stdlib Require String.
From stdpp Require Import strings.
From S2P Require Import Prelude Hashmap Mem Strset BtfTypes Btf BtfFind BtfParse CoreTypes CoreCompat.
Open Scope Z_scope.

(** ** The enumerations of the uapi header *)
Inductive bpf_prog_type :=
| BPF_PROG_TYPE_UNSPEC | BPF_PROG_TYPE_SOCKET_FILTER | BPF_PROG_TYPE_KPROBE | BPF_PROG_TYPE_SCHED_CLS
| BPF_PROG_TYPE_SCHED_ACT | BPF_PROG_TYPE_TRACEPOINT | BPF_PROG_TYPE_XDP | BPF_PROG_TYPE_PERF_EVENT
| BPF_PROG_TYPE_CGROUP_SKB | BPF_PROG_TYPE_CGROUP_SOCK | BPF_PROG_TYPE_LWT_IN | BPF_PROG_TYPE_LWT_OUT
| BPF_PROG_TYPE_LWT_XMIT | BPF_PROG_TYPE_SOCK_OPS | BPF_PROG_TYPE_SK_SKB | BPF_PROG_TYPE_CGROUP_DEVICE
| BPF_PROG_TYPE_SK_MSG | BPF_PROG_TYPE_RAW_TRACEPOINT | BPF_PROG_TYPE_CGROUP_SOCK_ADDR | BPF_PROG_TYPE_LWT_SEG6LOCAL
| BPF_PROG_TYPE_LIRC_MODE2 | BPF_PROG_TYPE_SK_REUSEPORT | BPF_PROG_TYPE_FLOW_DISSECTOR | BPF_PROG_TYPE_CGROUP_SYSCTL
| BPF_PROG_TYPE_RAW_TRACEPOINT_WRITABLE | BPF_PROG_TYPE_CGROUP_SOCKOPT | BPF_PROG_TYPE_TRACING
| BPF_PROG_TYPE_STRUCT_OPS | BPF_PROG_TYPE_EXT | BPF_PROG_TYPE_LSM | BPF_PROG_TYPE_SK_LOOKUP | BPF_PROG_TYPE_SYSCALL
| BPF_PROG_TYPE_NETFILTER.

Inductive bpf_attach_type :=
| BPF_CGROUP_INET_INGRESS | BPF_CGROUP_INET_EGRESS | BPF_CGROUP_INET_SOCK_CREATE | BPF_CGROUP_SOCK_OPS
| BPF_SK_SKB_STREAM_PARSER | BPF_SK_SKB_STREAM_VERDICT | BPF_CGROUP_DEVICE | BPF_SK_MSG_VERDICT
| BPF_CGROUP_INET4_BIND | BPF_CGROUP_INET6_BIND | BPF_CGROUP_INET4_CONNECT | BPF_CGROUP_INET6_CONNECT
| BPF_CGROUP_INET4_POST_BIND | BPF_CGROUP_INET6_POST_BIND | BPF_CGROUP_UDP4_SENDMSG | BPF_CGROUP_UDP6_SENDMSG
| BPF_LIRC_MODE2 | BPF_FLOW_DISSECTOR | BPF_CGROUP_SYSCTL | BPF_CGROUP_UDP4_RECVMSG | BPF_CGROUP_UDP6_RECVMSG
| BPF_CGROUP_GETSOCKOPT | BPF_CGROUP_SETSOCKOPT | BPF_TRACE_RAW_TP | BPF_TRACE_FENTRY | BPF_TRACE_FEXIT
| BPF_MODIFY_RETURN | BPF_LSM_MAC | BPF_TRACE_ITER | BPF_CGROUP_INET4_GETPEERNAME | BPF_CGROUP_INET6_GETPEERNAME
| BPF_CGROUP_INET4_GETSOCKNAME | BPF_CGROUP_INET6_GETSOCKNAME | BPF_XDP_DEVMAP | BPF_CGROUP_INET_SOCK_RELEASE
| BPF_XDP_CPUMAP | BPF_SK_LOOKUP | BPF_XDP | BPF_SK_SKB_VERDICT | BPF_SK_REUSEPORT_SELECT
| BPF_SK_REUSEPORT_SELECT_OR_MIGRATE | BPF_PERF_EVENT | BPF_TRACE_KPROBE_MULTI | BPF_LSM_CGROUP | BPF_STRUCT_OPS
| BPF_NETFILTER | BPF_TCX_INGRESS | BPF_TCX_EGRESS | BPF_TRACE_UPROBE_MULTI | BPF_CGROUP_UNIX_CONNECT
| BPF_CGROUP_UNIX_SENDMSG | BPF_CGROUP_UNIX_RECVMSG | BPF_CGROUP_UNIX_GETPEERNAME | BPF_CGROUP_UNIX_GETSOCKNAME
| BPF_NETKIT_PRIMARY | BPF_NETKIT_PEER | BPF_TRACE_KPROBE_SESSION | BPF_TRACE_UPROBE_SESSION | BPF_TRACE_FSESSION
| BPF_TRACE_FENTRY_MULTI | BPF_TRACE_FEXIT_MULTI | BPF_TRACE_FSESSION_MULTI.

(** All values in order; the number of a value is its place. *)
Definition prog_types : list bpf_prog_type :=
  [BPF_PROG_TYPE_UNSPEC; BPF_PROG_TYPE_SOCKET_FILTER; BPF_PROG_TYPE_KPROBE; BPF_PROG_TYPE_SCHED_CLS;
   BPF_PROG_TYPE_SCHED_ACT; BPF_PROG_TYPE_TRACEPOINT; BPF_PROG_TYPE_XDP; BPF_PROG_TYPE_PERF_EVENT;
   BPF_PROG_TYPE_CGROUP_SKB; BPF_PROG_TYPE_CGROUP_SOCK; BPF_PROG_TYPE_LWT_IN; BPF_PROG_TYPE_LWT_OUT;
   BPF_PROG_TYPE_LWT_XMIT; BPF_PROG_TYPE_SOCK_OPS; BPF_PROG_TYPE_SK_SKB; BPF_PROG_TYPE_CGROUP_DEVICE;
   BPF_PROG_TYPE_SK_MSG; BPF_PROG_TYPE_RAW_TRACEPOINT; BPF_PROG_TYPE_CGROUP_SOCK_ADDR; BPF_PROG_TYPE_LWT_SEG6LOCAL;
   BPF_PROG_TYPE_LIRC_MODE2; BPF_PROG_TYPE_SK_REUSEPORT; BPF_PROG_TYPE_FLOW_DISSECTOR; BPF_PROG_TYPE_CGROUP_SYSCTL;
   BPF_PROG_TYPE_RAW_TRACEPOINT_WRITABLE; BPF_PROG_TYPE_CGROUP_SOCKOPT; BPF_PROG_TYPE_TRACING;
   BPF_PROG_TYPE_STRUCT_OPS; BPF_PROG_TYPE_EXT; BPF_PROG_TYPE_LSM; BPF_PROG_TYPE_SK_LOOKUP; BPF_PROG_TYPE_SYSCALL;
   BPF_PROG_TYPE_NETFILTER].

Definition attach_types : list bpf_attach_type :=
  [BPF_CGROUP_INET_INGRESS; BPF_CGROUP_INET_EGRESS; BPF_CGROUP_INET_SOCK_CREATE; BPF_CGROUP_SOCK_OPS;
   BPF_SK_SKB_STREAM_PARSER; BPF_SK_SKB_STREAM_VERDICT; BPF_CGROUP_DEVICE; BPF_SK_MSG_VERDICT; BPF_CGROUP_INET4_BIND;
   BPF_CGROUP_INET6_BIND; BPF_CGROUP_INET4_CONNECT; BPF_CGROUP_INET6_CONNECT; BPF_CGROUP_INET4_POST_BIND;
   BPF_CGROUP_INET6_POST_BIND; BPF_CGROUP_UDP4_SENDMSG; BPF_CGROUP_UDP6_SENDMSG; BPF_LIRC_MODE2; BPF_FLOW_DISSECTOR;
   BPF_CGROUP_SYSCTL; BPF_CGROUP_UDP4_RECVMSG; BPF_CGROUP_UDP6_RECVMSG; BPF_CGROUP_GETSOCKOPT; BPF_CGROUP_SETSOCKOPT;
   BPF_TRACE_RAW_TP; BPF_TRACE_FENTRY; BPF_TRACE_FEXIT; BPF_MODIFY_RETURN; BPF_LSM_MAC; BPF_TRACE_ITER;
   BPF_CGROUP_INET4_GETPEERNAME; BPF_CGROUP_INET6_GETPEERNAME; BPF_CGROUP_INET4_GETSOCKNAME;
   BPF_CGROUP_INET6_GETSOCKNAME; BPF_XDP_DEVMAP; BPF_CGROUP_INET_SOCK_RELEASE; BPF_XDP_CPUMAP; BPF_SK_LOOKUP;
   BPF_XDP; BPF_SK_SKB_VERDICT; BPF_SK_REUSEPORT_SELECT; BPF_SK_REUSEPORT_SELECT_OR_MIGRATE; BPF_PERF_EVENT;
   BPF_TRACE_KPROBE_MULTI; BPF_LSM_CGROUP; BPF_STRUCT_OPS; BPF_NETFILTER; BPF_TCX_INGRESS; BPF_TCX_EGRESS;
   BPF_TRACE_UPROBE_MULTI; BPF_CGROUP_UNIX_CONNECT; BPF_CGROUP_UNIX_SENDMSG; BPF_CGROUP_UNIX_RECVMSG;
   BPF_CGROUP_UNIX_GETPEERNAME; BPF_CGROUP_UNIX_GETSOCKNAME; BPF_NETKIT_PRIMARY; BPF_NETKIT_PEER;
   BPF_TRACE_KPROBE_SESSION; BPF_TRACE_UPROBE_SESSION; BPF_TRACE_FSESSION; BPF_TRACE_FENTRY_MULTI;
   BPF_TRACE_FEXIT_MULTI; BPF_TRACE_FSESSION_MULTI].

Definition prog_type_num (t : bpf_prog_type) : nat :=
  match t with
  | BPF_PROG_TYPE_UNSPEC => 0
  | BPF_PROG_TYPE_SOCKET_FILTER => 1
  | BPF_PROG_TYPE_KPROBE => 2
  | BPF_PROG_TYPE_SCHED_CLS => 3
  | BPF_PROG_TYPE_SCHED_ACT => 4
  | BPF_PROG_TYPE_TRACEPOINT => 5
  | BPF_PROG_TYPE_XDP => 6
  | BPF_PROG_TYPE_PERF_EVENT => 7
  | BPF_PROG_TYPE_CGROUP_SKB => 8
  | BPF_PROG_TYPE_CGROUP_SOCK => 9
  | BPF_PROG_TYPE_LWT_IN => 10
  | BPF_PROG_TYPE_LWT_OUT => 11
  | BPF_PROG_TYPE_LWT_XMIT => 12
  | BPF_PROG_TYPE_SOCK_OPS => 13
  | BPF_PROG_TYPE_SK_SKB => 14
  | BPF_PROG_TYPE_CGROUP_DEVICE => 15
  | BPF_PROG_TYPE_SK_MSG => 16
  | BPF_PROG_TYPE_RAW_TRACEPOINT => 17
  | BPF_PROG_TYPE_CGROUP_SOCK_ADDR => 18
  | BPF_PROG_TYPE_LWT_SEG6LOCAL => 19
  | BPF_PROG_TYPE_LIRC_MODE2 => 20
  | BPF_PROG_TYPE_SK_REUSEPORT => 21
  | BPF_PROG_TYPE_FLOW_DISSECTOR => 22
  | BPF_PROG_TYPE_CGROUP_SYSCTL => 23
  | BPF_PROG_TYPE_RAW_TRACEPOINT_WRITABLE => 24
  | BPF_PROG_TYPE_CGROUP_SOCKOPT => 25
  | BPF_PROG_TYPE_TRACING => 26
  | BPF_PROG_TYPE_STRUCT_OPS => 27
  | BPF_PROG_TYPE_EXT => 28
  | BPF_PROG_TYPE_LSM => 29
  | BPF_PROG_TYPE_SK_LOOKUP => 30
  | BPF_PROG_TYPE_SYSCALL => 31
  | BPF_PROG_TYPE_NETFILTER => 32
  end.

Definition attach_type_num (t : bpf_attach_type) : nat :=
  match t with
  | BPF_CGROUP_INET_INGRESS => 0
  | BPF_CGROUP_INET_EGRESS => 1
  | BPF_CGROUP_INET_SOCK_CREATE => 2
  | BPF_CGROUP_SOCK_OPS => 3
  | BPF_SK_SKB_STREAM_PARSER => 4
  | BPF_SK_SKB_STREAM_VERDICT => 5
  | BPF_CGROUP_DEVICE => 6
  | BPF_SK_MSG_VERDICT => 7
  | BPF_CGROUP_INET4_BIND => 8
  | BPF_CGROUP_INET6_BIND => 9
  | BPF_CGROUP_INET4_CONNECT => 10
  | BPF_CGROUP_INET6_CONNECT => 11
  | BPF_CGROUP_INET4_POST_BIND => 12
  | BPF_CGROUP_INET6_POST_BIND => 13
  | BPF_CGROUP_UDP4_SENDMSG => 14
  | BPF_CGROUP_UDP6_SENDMSG => 15
  | BPF_LIRC_MODE2 => 16
  | BPF_FLOW_DISSECTOR => 17
  | BPF_CGROUP_SYSCTL => 18
  | BPF_CGROUP_UDP4_RECVMSG => 19
  | BPF_CGROUP_UDP6_RECVMSG => 20
  | BPF_CGROUP_GETSOCKOPT => 21
  | BPF_CGROUP_SETSOCKOPT => 22
  | BPF_TRACE_RAW_TP => 23
  | BPF_TRACE_FENTRY => 24
  | BPF_TRACE_FEXIT => 25
  | BPF_MODIFY_RETURN => 26
  | BPF_LSM_MAC => 27
  | BPF_TRACE_ITER => 28
  | BPF_CGROUP_INET4_GETPEERNAME => 29
  | BPF_CGROUP_INET6_GETPEERNAME => 30
  | BPF_CGROUP_INET4_GETSOCKNAME => 31
  | BPF_CGROUP_INET6_GETSOCKNAME => 32
  | BPF_XDP_DEVMAP => 33
  | BPF_CGROUP_INET_SOCK_RELEASE => 34
  | BPF_XDP_CPUMAP => 35
  | BPF_SK_LOOKUP => 36
  | BPF_XDP => 37
  | BPF_SK_SKB_VERDICT => 38
  | BPF_SK_REUSEPORT_SELECT => 39
  | BPF_SK_REUSEPORT_SELECT_OR_MIGRATE => 40
  | BPF_PERF_EVENT => 41
  | BPF_TRACE_KPROBE_MULTI => 42
  | BPF_LSM_CGROUP => 43
  | BPF_STRUCT_OPS => 44
  | BPF_NETFILTER => 45
  | BPF_TCX_INGRESS => 46
  | BPF_TCX_EGRESS => 47
  | BPF_TRACE_UPROBE_MULTI => 48
  | BPF_CGROUP_UNIX_CONNECT => 49
  | BPF_CGROUP_UNIX_SENDMSG => 50
  | BPF_CGROUP_UNIX_RECVMSG => 51
  | BPF_CGROUP_UNIX_GETPEERNAME => 52
  | BPF_CGROUP_UNIX_GETSOCKNAME => 53
  | BPF_NETKIT_PRIMARY => 54
  | BPF_NETKIT_PEER => 55
  | BPF_TRACE_KPROBE_SESSION => 56
  | BPF_TRACE_UPROBE_SESSION => 57
  | BPF_TRACE_FSESSION => 58
  | BPF_TRACE_FENTRY_MULTI => 59
  | BPF_TRACE_FEXIT_MULTI => 60
  | BPF_TRACE_FSESSION_MULTI => 61
  end.

Lemma prog_types_num t : prog_types !! prog_type_num t = Some t.
Proof. by destruct t. Qed.

Lemma attach_types_num t : attach_types !! attach_type_num t = Some t.
Proof. by destruct t. Qed.

#[export] Instance bpf_prog_type_eq_dec : EqDecision bpf_prog_type.
Proof.
  intros t u. destruct (decide (prog_type_num t = prog_type_num u)) as [H|H]; [left | right; by intros ->].
  apply (inj Some). by rewrite <- !prog_types_num, H.
Defined.

#[export] Instance bpf_attach_type_eq_dec : EqDecision bpf_attach_type.
Proof.
  intros t u. destruct (decide (attach_type_num t = attach_type_num u)) as [H|H]; [left | right; by intros ->].
  apply (inj Some). by rewrite <- !attach_types_num, H.
Defined.

(** No attach type is zero, the first one. *)
Abbreviation no_attach_type := BPF_CGROUP_INET_INGRESS.

Inductive callback :=
| libbpf_setup_prog_flags | libbpf_prepare_prog_load
| attach_kprobe | attach_uprobe | attach_kprobe_multi | attach_kprobe_session | attach_uprobe_multi | attach_ksyscall
| attach_usdt | attach_tp | attach_raw_tp | attach_trace | attach_tracing_multi | attach_lsm | attach_iter
| user_callback (p : Z).

Record bpf_sec_def := BpfSecDef {
  sec : option (list Z);
  prog_type : bpf_prog_type;
  expected_attach_type : bpf_attach_type;
  cookie : Z;
  handler_id : Z;
  prog_setup_fn : option callback;
  prog_prepare_load_fn : option callback;
  prog_attach_fn : option callback
}.

#[export] Instance callback_eq_dec : EqDecision callback.
Proof. solve_decision. Defined.

#[export] Instance bpf_sec_def_eq_dec : EqDecision bpf_sec_def.
Proof. solve_decision. Defined.

Abbreviation SEC_NONE := 0 (only parsing).
Abbreviation SEC_EXP_ATTACH_OPT := 1 (only parsing).
Abbreviation SEC_ATTACHABLE := 2 (only parsing).
Definition SEC_ATTACHABLE_OPT : Z := Z.lor SEC_ATTACHABLE SEC_EXP_ATTACH_OPT.
Abbreviation SEC_ATTACH_BTF := 4 (only parsing).
Abbreviation SEC_SLEEPABLE := 8 (only parsing).
Abbreviation SEC_XDP_FRAGS := 16 (only parsing).
Abbreviation SEC_USDT := 32 (only parsing).

Definition SEC_DEF (sec_pfx : String.string) (ptype : bpf_prog_type) (atype : bpf_attach_type) (flags : Z) (attach : option callback) : bpf_sec_def :=
  BpfSecDef (Some (ascii_bytes sec_pfx)) ptype atype flags 0 (Some libbpf_setup_prog_flags) (Some libbpf_prepare_prog_load) attach.

(** ** The table *)
Definition section_defs : list bpf_sec_def :=
  [SEC_DEF "socket"%string BPF_PROG_TYPE_SOCKET_FILTER no_attach_type SEC_NONE None;
   SEC_DEF "sk_reuseport/migrate"%string BPF_PROG_TYPE_SK_REUSEPORT BPF_SK_REUSEPORT_SELECT_OR_MIGRATE SEC_ATTACHABLE None;
   SEC_DEF "sk_reuseport"%string BPF_PROG_TYPE_SK_REUSEPORT BPF_SK_REUSEPORT_SELECT SEC_ATTACHABLE None;
   SEC_DEF "kprobe+"%string BPF_PROG_TYPE_KPROBE no_attach_type SEC_NONE (Some attach_kprobe);
   SEC_DEF "uprobe+"%string BPF_PROG_TYPE_KPROBE no_attach_type SEC_NONE (Some attach_uprobe);
   SEC_DEF "uprobe.s+"%string BPF_PROG_TYPE_KPROBE no_attach_type SEC_SLEEPABLE (Some attach_uprobe);
   SEC_DEF "kretprobe+"%string BPF_PROG_TYPE_KPROBE no_attach_type SEC_NONE (Some attach_kprobe);
   SEC_DEF "uretprobe+"%string BPF_PROG_TYPE_KPROBE no_attach_type SEC_NONE (Some attach_uprobe);
   SEC_DEF "uretprobe.s+"%string BPF_PROG_TYPE_KPROBE no_attach_type SEC_SLEEPABLE (Some attach_uprobe);
   SEC_DEF "kprobe.multi+"%string BPF_PROG_TYPE_KPROBE BPF_TRACE_KPROBE_MULTI SEC_NONE (Some attach_kprobe_multi);
   SEC_DEF "kretprobe.multi+"%string BPF_PROG_TYPE_KPROBE BPF_TRACE_KPROBE_MULTI SEC_NONE (Some attach_kprobe_multi);
   SEC_DEF "kprobe.session+"%string BPF_PROG_TYPE_KPROBE BPF_TRACE_KPROBE_SESSION SEC_NONE (Some attach_kprobe_session);
   SEC_DEF "uprobe.multi+"%string BPF_PROG_TYPE_KPROBE BPF_TRACE_UPROBE_MULTI SEC_NONE (Some attach_uprobe_multi);
   SEC_DEF "uretprobe.multi+"%string BPF_PROG_TYPE_KPROBE BPF_TRACE_UPROBE_MULTI SEC_NONE (Some attach_uprobe_multi);
   SEC_DEF "uprobe.session+"%string BPF_PROG_TYPE_KPROBE BPF_TRACE_UPROBE_SESSION SEC_NONE (Some attach_uprobe_multi);
   SEC_DEF "uprobe.multi.s+"%string BPF_PROG_TYPE_KPROBE BPF_TRACE_UPROBE_MULTI SEC_SLEEPABLE (Some attach_uprobe_multi);
   SEC_DEF "uretprobe.multi.s+"%string BPF_PROG_TYPE_KPROBE BPF_TRACE_UPROBE_MULTI SEC_SLEEPABLE (Some attach_uprobe_multi);
   SEC_DEF "uprobe.session.s+"%string BPF_PROG_TYPE_KPROBE BPF_TRACE_UPROBE_SESSION SEC_SLEEPABLE (Some attach_uprobe_multi);
   SEC_DEF "ksyscall+"%string BPF_PROG_TYPE_KPROBE no_attach_type SEC_NONE (Some attach_ksyscall);
   SEC_DEF "kretsyscall+"%string BPF_PROG_TYPE_KPROBE no_attach_type SEC_NONE (Some attach_ksyscall);
   SEC_DEF "usdt+"%string BPF_PROG_TYPE_KPROBE no_attach_type SEC_USDT (Some attach_usdt);
   SEC_DEF "usdt.s+"%string BPF_PROG_TYPE_KPROBE no_attach_type (Z.lor SEC_USDT SEC_SLEEPABLE) (Some attach_usdt);
   SEC_DEF "tc/ingress"%string BPF_PROG_TYPE_SCHED_CLS BPF_TCX_INGRESS SEC_NONE None;
   SEC_DEF "tc/egress"%string BPF_PROG_TYPE_SCHED_CLS BPF_TCX_EGRESS SEC_NONE None;
   SEC_DEF "tcx/ingress"%string BPF_PROG_TYPE_SCHED_CLS BPF_TCX_INGRESS SEC_NONE None;
   SEC_DEF "tcx/egress"%string BPF_PROG_TYPE_SCHED_CLS BPF_TCX_EGRESS SEC_NONE None;
   SEC_DEF "tc"%string BPF_PROG_TYPE_SCHED_CLS no_attach_type SEC_NONE None;
   SEC_DEF "classifier"%string BPF_PROG_TYPE_SCHED_CLS no_attach_type SEC_NONE None;
   SEC_DEF "action"%string BPF_PROG_TYPE_SCHED_ACT no_attach_type SEC_NONE None;
   SEC_DEF "netkit/primary"%string BPF_PROG_TYPE_SCHED_CLS BPF_NETKIT_PRIMARY SEC_NONE None;
   SEC_DEF "netkit/peer"%string BPF_PROG_TYPE_SCHED_CLS BPF_NETKIT_PEER SEC_NONE None;
   SEC_DEF "tracepoint+"%string BPF_PROG_TYPE_TRACEPOINT no_attach_type SEC_NONE (Some attach_tp);
   SEC_DEF "tp+"%string BPF_PROG_TYPE_TRACEPOINT no_attach_type SEC_NONE (Some attach_tp);
   SEC_DEF "tracepoint.s+"%string BPF_PROG_TYPE_TRACEPOINT no_attach_type SEC_SLEEPABLE (Some attach_tp);
   SEC_DEF "tp.s+"%string BPF_PROG_TYPE_TRACEPOINT no_attach_type SEC_SLEEPABLE (Some attach_tp);
   SEC_DEF "raw_tracepoint+"%string BPF_PROG_TYPE_RAW_TRACEPOINT no_attach_type SEC_NONE (Some attach_raw_tp);
   SEC_DEF "raw_tp+"%string BPF_PROG_TYPE_RAW_TRACEPOINT no_attach_type SEC_NONE (Some attach_raw_tp);
   SEC_DEF "raw_tracepoint.s+"%string BPF_PROG_TYPE_RAW_TRACEPOINT no_attach_type SEC_SLEEPABLE (Some attach_raw_tp);
   SEC_DEF "raw_tp.s+"%string BPF_PROG_TYPE_RAW_TRACEPOINT no_attach_type SEC_SLEEPABLE (Some attach_raw_tp);
   SEC_DEF "raw_tracepoint.w+"%string BPF_PROG_TYPE_RAW_TRACEPOINT_WRITABLE no_attach_type SEC_NONE (Some attach_raw_tp);
   SEC_DEF "raw_tp.w+"%string BPF_PROG_TYPE_RAW_TRACEPOINT_WRITABLE no_attach_type SEC_NONE (Some attach_raw_tp);
   SEC_DEF "tp_btf+"%string BPF_PROG_TYPE_TRACING BPF_TRACE_RAW_TP SEC_ATTACH_BTF (Some attach_trace);
   SEC_DEF "tp_btf.s+"%string BPF_PROG_TYPE_TRACING BPF_TRACE_RAW_TP (Z.lor SEC_ATTACH_BTF SEC_SLEEPABLE) (Some attach_trace);
   SEC_DEF "fentry+"%string BPF_PROG_TYPE_TRACING BPF_TRACE_FENTRY SEC_ATTACH_BTF (Some attach_trace);
   SEC_DEF "fmod_ret+"%string BPF_PROG_TYPE_TRACING BPF_MODIFY_RETURN SEC_ATTACH_BTF (Some attach_trace);
   SEC_DEF "fexit+"%string BPF_PROG_TYPE_TRACING BPF_TRACE_FEXIT SEC_ATTACH_BTF (Some attach_trace);
   SEC_DEF "fentry.s+"%string BPF_PROG_TYPE_TRACING BPF_TRACE_FENTRY (Z.lor SEC_ATTACH_BTF SEC_SLEEPABLE) (Some attach_trace);
   SEC_DEF "fmod_ret.s+"%string BPF_PROG_TYPE_TRACING BPF_MODIFY_RETURN (Z.lor SEC_ATTACH_BTF SEC_SLEEPABLE) (Some attach_trace);
   SEC_DEF "fexit.s+"%string BPF_PROG_TYPE_TRACING BPF_TRACE_FEXIT (Z.lor SEC_ATTACH_BTF SEC_SLEEPABLE) (Some attach_trace);
   SEC_DEF "fsession+"%string BPF_PROG_TYPE_TRACING BPF_TRACE_FSESSION SEC_ATTACH_BTF (Some attach_trace);
   SEC_DEF "fsession.s+"%string BPF_PROG_TYPE_TRACING BPF_TRACE_FSESSION (Z.lor SEC_ATTACH_BTF SEC_SLEEPABLE) (Some attach_trace);
   SEC_DEF "fsession.multi+"%string BPF_PROG_TYPE_TRACING BPF_TRACE_FSESSION_MULTI 0 (Some attach_tracing_multi);
   SEC_DEF "fsession.multi.s+"%string BPF_PROG_TYPE_TRACING BPF_TRACE_FSESSION_MULTI SEC_SLEEPABLE (Some attach_tracing_multi);
   SEC_DEF "fentry.multi+"%string BPF_PROG_TYPE_TRACING BPF_TRACE_FENTRY_MULTI 0 (Some attach_tracing_multi);
   SEC_DEF "fexit.multi+"%string BPF_PROG_TYPE_TRACING BPF_TRACE_FEXIT_MULTI 0 (Some attach_tracing_multi);
   SEC_DEF "fentry.multi.s+"%string BPF_PROG_TYPE_TRACING BPF_TRACE_FENTRY_MULTI SEC_SLEEPABLE (Some attach_tracing_multi);
   SEC_DEF "fexit.multi.s+"%string BPF_PROG_TYPE_TRACING BPF_TRACE_FEXIT_MULTI SEC_SLEEPABLE (Some attach_tracing_multi);
   SEC_DEF "freplace+"%string BPF_PROG_TYPE_EXT no_attach_type SEC_ATTACH_BTF (Some attach_trace);
   SEC_DEF "lsm+"%string BPF_PROG_TYPE_LSM BPF_LSM_MAC SEC_ATTACH_BTF (Some attach_lsm);
   SEC_DEF "lsm.s+"%string BPF_PROG_TYPE_LSM BPF_LSM_MAC (Z.lor SEC_ATTACH_BTF SEC_SLEEPABLE) (Some attach_lsm);
   SEC_DEF "lsm_cgroup+"%string BPF_PROG_TYPE_LSM BPF_LSM_CGROUP SEC_ATTACH_BTF None;
   SEC_DEF "iter+"%string BPF_PROG_TYPE_TRACING BPF_TRACE_ITER SEC_ATTACH_BTF (Some attach_iter);
   SEC_DEF "iter.s+"%string BPF_PROG_TYPE_TRACING BPF_TRACE_ITER (Z.lor SEC_ATTACH_BTF SEC_SLEEPABLE) (Some attach_iter);
   SEC_DEF "syscall"%string BPF_PROG_TYPE_SYSCALL no_attach_type SEC_SLEEPABLE None;
   SEC_DEF "xdp.frags/devmap"%string BPF_PROG_TYPE_XDP BPF_XDP_DEVMAP SEC_XDP_FRAGS None;
   SEC_DEF "xdp/devmap"%string BPF_PROG_TYPE_XDP BPF_XDP_DEVMAP SEC_ATTACHABLE None;
   SEC_DEF "xdp.frags/cpumap"%string BPF_PROG_TYPE_XDP BPF_XDP_CPUMAP SEC_XDP_FRAGS None;
   SEC_DEF "xdp/cpumap"%string BPF_PROG_TYPE_XDP BPF_XDP_CPUMAP SEC_ATTACHABLE None;
   SEC_DEF "xdp.frags"%string BPF_PROG_TYPE_XDP BPF_XDP SEC_XDP_FRAGS None;
   SEC_DEF "xdp"%string BPF_PROG_TYPE_XDP BPF_XDP SEC_ATTACHABLE_OPT None;
   SEC_DEF "perf_event"%string BPF_PROG_TYPE_PERF_EVENT no_attach_type SEC_NONE None;
   SEC_DEF "lwt_in"%string BPF_PROG_TYPE_LWT_IN no_attach_type SEC_NONE None;
   SEC_DEF "lwt_out"%string BPF_PROG_TYPE_LWT_OUT no_attach_type SEC_NONE None;
   SEC_DEF "lwt_xmit"%string BPF_PROG_TYPE_LWT_XMIT no_attach_type SEC_NONE None;
   SEC_DEF "lwt_seg6local"%string BPF_PROG_TYPE_LWT_SEG6LOCAL no_attach_type SEC_NONE None;
   SEC_DEF "sockops"%string BPF_PROG_TYPE_SOCK_OPS BPF_CGROUP_SOCK_OPS SEC_ATTACHABLE_OPT None;
   SEC_DEF "sk_skb/stream_parser"%string BPF_PROG_TYPE_SK_SKB BPF_SK_SKB_STREAM_PARSER SEC_ATTACHABLE_OPT None;
   SEC_DEF "sk_skb/stream_verdict"%string BPF_PROG_TYPE_SK_SKB BPF_SK_SKB_STREAM_VERDICT SEC_ATTACHABLE_OPT None;
   SEC_DEF "sk_skb/verdict"%string BPF_PROG_TYPE_SK_SKB BPF_SK_SKB_VERDICT SEC_ATTACHABLE_OPT None;
   SEC_DEF "sk_skb"%string BPF_PROG_TYPE_SK_SKB no_attach_type SEC_NONE None;
   SEC_DEF "sk_msg"%string BPF_PROG_TYPE_SK_MSG BPF_SK_MSG_VERDICT SEC_ATTACHABLE_OPT None;
   SEC_DEF "lirc_mode2"%string BPF_PROG_TYPE_LIRC_MODE2 BPF_LIRC_MODE2 SEC_ATTACHABLE_OPT None;
   SEC_DEF "flow_dissector"%string BPF_PROG_TYPE_FLOW_DISSECTOR BPF_FLOW_DISSECTOR SEC_ATTACHABLE_OPT None;
   SEC_DEF "cgroup_skb/ingress"%string BPF_PROG_TYPE_CGROUP_SKB BPF_CGROUP_INET_INGRESS SEC_ATTACHABLE_OPT None;
   SEC_DEF "cgroup_skb/egress"%string BPF_PROG_TYPE_CGROUP_SKB BPF_CGROUP_INET_EGRESS SEC_ATTACHABLE_OPT None;
   SEC_DEF "cgroup/skb"%string BPF_PROG_TYPE_CGROUP_SKB no_attach_type SEC_NONE None;
   SEC_DEF "cgroup/sock_create"%string BPF_PROG_TYPE_CGROUP_SOCK BPF_CGROUP_INET_SOCK_CREATE SEC_ATTACHABLE None;
   SEC_DEF "cgroup/sock_release"%string BPF_PROG_TYPE_CGROUP_SOCK BPF_CGROUP_INET_SOCK_RELEASE SEC_ATTACHABLE None;
   SEC_DEF "cgroup/sock"%string BPF_PROG_TYPE_CGROUP_SOCK BPF_CGROUP_INET_SOCK_CREATE SEC_ATTACHABLE_OPT None;
   SEC_DEF "cgroup/post_bind4"%string BPF_PROG_TYPE_CGROUP_SOCK BPF_CGROUP_INET4_POST_BIND SEC_ATTACHABLE None;
   SEC_DEF "cgroup/post_bind6"%string BPF_PROG_TYPE_CGROUP_SOCK BPF_CGROUP_INET6_POST_BIND SEC_ATTACHABLE None;
   SEC_DEF "cgroup/bind4"%string BPF_PROG_TYPE_CGROUP_SOCK_ADDR BPF_CGROUP_INET4_BIND SEC_ATTACHABLE None;
   SEC_DEF "cgroup/bind6"%string BPF_PROG_TYPE_CGROUP_SOCK_ADDR BPF_CGROUP_INET6_BIND SEC_ATTACHABLE None;
   SEC_DEF "cgroup/connect4"%string BPF_PROG_TYPE_CGROUP_SOCK_ADDR BPF_CGROUP_INET4_CONNECT SEC_ATTACHABLE None;
   SEC_DEF "cgroup/connect6"%string BPF_PROG_TYPE_CGROUP_SOCK_ADDR BPF_CGROUP_INET6_CONNECT SEC_ATTACHABLE None;
   SEC_DEF "cgroup/connect_unix"%string BPF_PROG_TYPE_CGROUP_SOCK_ADDR BPF_CGROUP_UNIX_CONNECT SEC_ATTACHABLE None;
   SEC_DEF "cgroup/sendmsg4"%string BPF_PROG_TYPE_CGROUP_SOCK_ADDR BPF_CGROUP_UDP4_SENDMSG SEC_ATTACHABLE None;
   SEC_DEF "cgroup/sendmsg6"%string BPF_PROG_TYPE_CGROUP_SOCK_ADDR BPF_CGROUP_UDP6_SENDMSG SEC_ATTACHABLE None;
   SEC_DEF "cgroup/sendmsg_unix"%string BPF_PROG_TYPE_CGROUP_SOCK_ADDR BPF_CGROUP_UNIX_SENDMSG SEC_ATTACHABLE None;
   SEC_DEF "cgroup/recvmsg4"%string BPF_PROG_TYPE_CGROUP_SOCK_ADDR BPF_CGROUP_UDP4_RECVMSG SEC_ATTACHABLE None;
   SEC_DEF "cgroup/recvmsg6"%string BPF_PROG_TYPE_CGROUP_SOCK_ADDR BPF_CGROUP_UDP6_RECVMSG SEC_ATTACHABLE None;
   SEC_DEF "cgroup/recvmsg_unix"%string BPF_PROG_TYPE_CGROUP_SOCK_ADDR BPF_CGROUP_UNIX_RECVMSG SEC_ATTACHABLE None;
   SEC_DEF "cgroup/getpeername4"%string BPF_PROG_TYPE_CGROUP_SOCK_ADDR BPF_CGROUP_INET4_GETPEERNAME SEC_ATTACHABLE None;
   SEC_DEF "cgroup/getpeername6"%string BPF_PROG_TYPE_CGROUP_SOCK_ADDR BPF_CGROUP_INET6_GETPEERNAME SEC_ATTACHABLE None;
   SEC_DEF "cgroup/getpeername_unix"%string BPF_PROG_TYPE_CGROUP_SOCK_ADDR BPF_CGROUP_UNIX_GETPEERNAME SEC_ATTACHABLE None;
   SEC_DEF "cgroup/getsockname4"%string BPF_PROG_TYPE_CGROUP_SOCK_ADDR BPF_CGROUP_INET4_GETSOCKNAME SEC_ATTACHABLE None;
   SEC_DEF "cgroup/getsockname6"%string BPF_PROG_TYPE_CGROUP_SOCK_ADDR BPF_CGROUP_INET6_GETSOCKNAME SEC_ATTACHABLE None;
   SEC_DEF "cgroup/getsockname_unix"%string BPF_PROG_TYPE_CGROUP_SOCK_ADDR BPF_CGROUP_UNIX_GETSOCKNAME SEC_ATTACHABLE None;
   SEC_DEF "cgroup/sysctl"%string BPF_PROG_TYPE_CGROUP_SYSCTL BPF_CGROUP_SYSCTL SEC_ATTACHABLE None;
   SEC_DEF "cgroup/getsockopt"%string BPF_PROG_TYPE_CGROUP_SOCKOPT BPF_CGROUP_GETSOCKOPT SEC_ATTACHABLE None;
   SEC_DEF "cgroup/setsockopt"%string BPF_PROG_TYPE_CGROUP_SOCKOPT BPF_CGROUP_SETSOCKOPT SEC_ATTACHABLE None;
   SEC_DEF "cgroup/dev"%string BPF_PROG_TYPE_CGROUP_DEVICE BPF_CGROUP_DEVICE SEC_ATTACHABLE_OPT None;
   SEC_DEF "struct_ops+"%string BPF_PROG_TYPE_STRUCT_OPS no_attach_type SEC_NONE None;
   SEC_DEF "struct_ops.s+"%string BPF_PROG_TYPE_STRUCT_OPS no_attach_type SEC_SLEEPABLE None;
   SEC_DEF "sk_lookup"%string BPF_PROG_TYPE_SK_LOOKUP BPF_SK_LOOKUP SEC_ATTACHABLE None;
   SEC_DEF "netfilter"%string BPF_PROG_TYPE_NETFILTER BPF_NETFILTER SEC_NONE None].

(** ** Comparison *)
Definition str_has_pfx (str pfx : list Z) : bool := strncmp (length pfx) str pfx =? 0.

Definition sec_def_matches (def : bpf_sec_def) (sec_name : list Z) : option bool :=
  s ← sec def;
  let len := zlen s in
  c ← znth s (len - 1);
  if c =? 47 then Some (str_has_pfx sec_name s) else
  if c =? 43 then
    let len := len - 1 in
    if negb (strncmp (Z.to_nat len) sec_name s =? 0) then Some false else
    x ← znth (sec_name ++ [0]) len;
    Some ((x =? 0) || (x =? 47))
  else Some (strcmp sec_name s =? 0).

(** ** Handlers *)

(** The variables of the library.  The number of handlers is the length of the list. *)
Record handlers := Handlers {
  custom_sec_defs : list bpf_sec_def;
  custom_fallback_def : bpf_sec_def;
  has_custom_fallback_def : bool;
  last_custom_sec_def_handler_id : Z
}.

Definition zero_def : bpf_sec_def := BpfSecDef None BPF_PROG_TYPE_UNSPEC no_attach_type 0 0 None None None.
Definition no_handlers : handlers := Handlers [] zero_def false 0.

(** The options of a registration: the size the caller gives, the fields, and the bytes of
    the caller's structure behind the last field known here. *)
Record libbpf_prog_handler_opts := HandlerOpts {
  opt_sz : Z;
  opt_cookie : Z;
  opt_prog_setup_fn : option callback;
  opt_prog_prepare_load_fn : option callback;
  opt_prog_attach_fn : option callback;
  opt_extra : list Z
}.

(** [p] has the [len] bytes: it is what the caller's structure has behind the fields the
    library knows. *)
Fixpoint libbpf_is_mem_zeroed (p : list Z) (len : Z) : bool :=
  match p with
  | [] => true
  | c :: p => if len <=? 0 then true else if negb (c =? 0) then false else libbpf_is_mem_zeroed p (len - 1)
  end.

(** [opts] are the bytes behind the known part, of [opts_sz] bytes. *)
Definition libbpf_validate_opts (opts : list Z) (opts_sz user_sz : Z) : bool :=
  if user_sz <? 8 then false else libbpf_is_mem_zeroed opts (s64 (user_sz - opts_sz)).

(** The end of each field. *)
Definition end_cookie : Z := 16.
Definition end_prog_setup_fn : Z := 24.
Definition end_prog_prepare_load_fn : Z := 32.
Definition end_prog_attach_fn : Z := 40.

Definition OPTS_VALID (opts : option libbpf_prog_handler_opts) : bool :=
  match opts with
  | None => true
  | Some opts => libbpf_validate_opts (opt_extra opts) end_prog_attach_fn (opt_sz opts)
  end.

Definition OPTS_HAS (opts : option libbpf_prog_handler_opts) (field_end : Z) : bool :=
  match opts with None => false | Some opts => field_end <=? opt_sz opts end.

Definition OPTS_GET {A} (opts : option libbpf_prog_handler_opts) (field : libbpf_prog_handler_opts -> A) (field_end : Z)
  (fallback : A) : A :=
  match opts with
  | Some o => if OPTS_HAS opts field_end then field o else fallback
  | None => fallback
  end.

(** The size of [struct bpf_sec_def]. *)
Definition sizeof_sec_def : Z := 56.

Definition new_def (name : option (list Z)) (ptype : bpf_prog_type) (atype : bpf_attach_type) (id : Z) (opts : option libbpf_prog_handler_opts) : bpf_sec_def :=
  BpfSecDef name ptype atype (OPTS_GET opts opt_cookie end_cookie 0) id
    (OPTS_GET opts opt_prog_setup_fn end_prog_setup_fn None)
    (OPTS_GET opts opt_prog_prepare_load_fn end_prog_prepare_load_fn None)
    (OPTS_GET opts opt_prog_attach_fn end_prog_attach_fn None).

(** The result, the variables afterwards and the rest of the oracle. *)
Definition libbpf_register_prog_handler (name : option (list Z)) (ptype : bpf_prog_type) (exp_attach_type : bpf_attach_type)
  (opts : option libbpf_prog_handler_opts) (g : handlers) (o : oracle) : Z * handlers * oracle :=
  if negb (OPTS_VALID opts) then (- EINVAL, g, o) else
  if last_custom_sec_def_handler_id g =? INT_MAX then (- E2BIG, g, o) else
  let id := last_custom_sec_def_handler_id g + 1 in
  match name with
  | Some s =>
      let '(ok, o) := alloc_array (zlen (custom_sec_defs g) + 1) sizeof_sec_def o in
      if negb ok then (- ENOMEM, g, o) else
      let '(ok, o) := alloc o in
      if negb ok then (- ENOMEM, g, o) else
      (id, Handlers (custom_sec_defs g ++ [new_def (Some s) ptype exp_attach_type id opts]) (custom_fallback_def g)
             (has_custom_fallback_def g) id, o)
  | None =>
      if has_custom_fallback_def g then (- EBUSY, g, o) else
      (id, Handlers (custom_sec_defs g) (new_def None ptype exp_attach_type id opts) true id, o)
  end.

(** The index of the first handler with that identifier. *)
Fixpoint find_handler (l : list bpf_sec_def) (id : Z) (i : nat) : nat :=
  match l with
  | [] => i
  | def :: l => if handler_id def =? id then i else find_handler l id (S i)
  end.

Definition libbpf_unregister_prog_handler (id : Z) (g : handlers) (o : oracle) : Z * handlers * oracle :=
  if id <=? 0 then (- EINVAL, g, o) else
  if has_custom_fallback_def g && (handler_id (custom_fallback_def g) =? id) then
    (0, Handlers (custom_sec_defs g) zero_def false (last_custom_sec_def_handler_id g), o)
  else
  let i := find_handler (custom_sec_defs g) id 0 in
  if (i =? length (custom_sec_defs g))%nat then (- ENOENT, g, o) else
  let defs := take i (custom_sec_defs g) ++ drop (S i) (custom_sec_defs g) in
  let '(_, o) := alloc_array (zlen defs) sizeof_sec_def o in
  (0, Handlers defs (custom_fallback_def g) (has_custom_fallback_def g) (last_custom_sec_def_handler_id g), o).

(** ** The search *)
Fixpoint find_def (l : list bpf_sec_def) (sec_name : list Z) : option (option bpf_sec_def) :=
  match l with
  | [] => Some None
  | def :: l => ok ← sec_def_matches def sec_name; if (ok : bool) then Some (Some def) else find_def l sec_name
  end.

Definition find_sec_def (g : handlers) (sec_name : list Z) : option (option bpf_sec_def) :=
  def ← find_def (custom_sec_defs g) sec_name;
  match def with
  | Some def => Some (Some def)
  | None =>
      def ← find_def section_defs sec_name;
      match def with
      | Some def => Some (Some def)
      | None => Some (if has_custom_fallback_def g then Some (custom_fallback_def g) else None)
      end
  end.

(** ** Patterns *)

(** The names that fit a pattern. *)
Definition sec_fits (pat name : list Z) : Prop :=
  match last pat with
  | Some 47 => pat `prefix_of` name
  | Some 43 => name = removelast pat \/ removelast pat ++ [47] `prefix_of` name
  | _ => name = pat
  end.

Lemma last_snoc_inv {A} (l : list A) x : last l = Some x -> l = removelast l ++ [x].
Proof.
  intros H. destruct l as [|y l _] using rev_ind; [done |]. rewrite last_snoc in H. injection H as ->. by rewrite removelast_last.
Qed.

Lemma znth_last (s : list Z) : znth s (zlen s - 1) = last s.
Proof.
  destruct s as [|x s _] using rev_ind; [done |]. rewrite last_snoc, zlen_app. change (zlen [x]) with 1. unfold znth, zlen.
  replace (_ <? 0) with false by lia. rewrite lookup_app_r by lia. by replace (Z.to_nat (Z.of_nat (length s) + 1 - 1) - length s)%nat with 0%nat by lia.
Qed.

Lemma strncmp_prefix s name n :
  pos_str s -> pos_str name -> (n <= length s)%nat -> strncmp n name s = 0 <-> take n s `prefix_of` name.
Proof.
  intros Hs Hn Hl. rewrite strncmp_eq by done. split.
  - intros H. exists (drop n name). by rewrite <- H, take_drop.
  - intros [r ->]. rewrite take_app_le by (rewrite length_take; lia). by rewrite take_take, Nat.min_id.
Qed.

Lemma sec_def_matches_fits def pat name :
  sec def = Some pat -> pat <> [] -> pos_str pat -> pos_str name ->
  exists b, sec_def_matches def name = Some b /\ (b = true <-> sec_fits pat name).
Proof.
  intros Hd Hne Hp Hn. unfold sec_def_matches, sec_fits. rewrite Hd. cbn [mbind option_bind]. rewrite znth_last.
  destruct (last pat) as [c|] eqn:Hlast; [|by apply last_None in Hlast]. cbn [mbind option_bind].
  pose proof (last_snoc_inv pat c Hlast) as Hpat. destruct (c =? 47) eqn:H47.
  { assert (c = 47) as -> by lia. eexists. split; [done |]. unfold str_has_pfx. rewrite Z.eqb_eq, strncmp_prefix by done. by rewrite firstn_all. }
  destruct (c =? 43) eqn:H43.
  - assert (c = 43) as -> by lia. assert (Hlen : Z.to_nat (zlen pat - 1) = length (removelast pat)).
    { rewrite Hpat at 1. rewrite zlen_app. change (zlen [43]) with 1. unfold zlen. lia. }
    assert (Htake : take (length (removelast pat)) pat = removelast pat) by (rewrite Hpat at 2; by rewrite take_app_length).
    pose proof (strncmp_prefix pat name (length (removelast pat)) Hp Hn) as Hs. rewrite Htake in Hs.
    rewrite Hlen. destruct (strncmp _ name pat =? 0) eqn:Hc; cbn [negb].
    + apply Z.eqb_eq, Hs in Hc as [rest ->]; [|rewrite Hpat at 2; rewrite length_app; lia].
      assert (Hz : znth ((removelast pat ++ rest) ++ [0]) (zlen pat - 1) = (rest ++ [0]) !! 0%nat).
      { unfold znth. replace (_ <? 0) with false by (rewrite Hpat, zlen_app; pose proof (zlen_nonneg (removelast pat)); change (zlen [43]) with 1; lia).
        by rewrite Hlen, <- app_assoc, lookup_app_r, Nat.sub_diag by lia. }
      rewrite Hz. destruct rest as [|x rest]; cbn [app lookup list_lookup mbind option_bind].
      * exists true. split; [done |]. split; [|done]. left. by rewrite app_nil_r.
      * eexists. split; [done |]. apply Forall_app in Hn as [_ Hn]. apply Forall_cons in Hn as [Hx _].
        replace (x =? 0) with false by lia. cbn [orb]. rewrite Z.eqb_eq. split.
        -- intros ->. right. exists rest. by rewrite <- app_assoc.
        -- intros [He|[r He]].
           ++ apply (f_equal length) in He. rewrite length_app in He. cbn in He. lia.
           ++ rewrite <- app_assoc in He. apply app_inv_head in He. by injection He.
    + exists false. split; [done |]. split; [done |]. intros Hf. apply Z.eqb_neq in Hc. exfalso. apply Hc, Hs.
      * rewrite Hpat at 2. rewrite length_app. lia.
      * destruct Hf as [->|[r ->]]; [done |]. rewrite <- app_assoc. by eexists.
  - eexists. split; [done |]. rewrite Z.eqb_eq.
    assert (Hs : strcmp name pat = 0 <-> name = pat).
    { assert (Hnn : forall l, pos_str l -> no_nul l) by (intros l Hl; eapply Forall_impl; [exact Hl | cbn; lia]). split; [by apply strcmp_eq; apply Hnn | intros ->; apply strcmp_refl]. }
    rewrite Hs.
    destruct c as [|p|p]; [done | | done]. do 6 (destruct p as [p|p|]; try done).
Qed.

(** ** The table *)

(** What every name that fits begins with, when a slash is put behind it. *)
Definition sec_key (pat : list Z) : list Z :=
  match last pat with
  | Some 47 => pat
  | Some 43 => removelast pat ++ [47]
  | _ => pat ++ [47]
  end.

Definition sec_exact (pat : list Z) : bool :=
  match last pat with Some 47 | Some 43 => false | _ => true end.

Lemma sec_default {A} c (x y z : A) : c <> 47 -> c <> 43 -> match c with 47 => x | 43 => y | _ => z end = z.
Proof. intros H1 H2. destruct c as [|p|p]; [done | | done]. do 6 (destruct p as [p|p|]; try done). Qed.

Lemma fits_key pat name : sec_fits pat name -> sec_key pat `prefix_of` name ++ [47] /\ (sec_exact pat = true -> name = pat).
Proof.
  unfold sec_fits, sec_key, sec_exact. destruct (last pat) as [c|]; [|by intros ->].
  assert (Hc : c = 47 \/ c = 43 \/ (c <> 47 /\ c <> 43)) by lia. destruct Hc as [->|[->|[H1 H2]]].
  - intros [r ->]. split; [|done]. rewrite <- app_assoc. by eexists.
  - intros [->|[r ->]]; (split; [|done]); [done |]. exists (r ++ [47]). by rewrite <- !app_assoc.
  - rewrite !sec_default by done. by intros ->.
Qed.

(** Patterns that no name fits both. *)
Definition sec_apart (p q : list Z) : bool :=
  if sec_exact p && sec_exact q then negb (bool_decide (p = q))
  else negb (bool_decide (sec_key p `prefix_of` sec_key q)) && negb (bool_decide (sec_key q `prefix_of` sec_key p)).

Lemma sec_apart_sound p q name : sec_apart p q = true -> sec_fits p name -> sec_fits q name -> False.
Proof.
  intros Ha [Hp Hep]%fits_key [Hq Heq]%fits_key. unfold sec_apart in Ha. destruct (sec_exact p && sec_exact q) eqn:He.
  - apply andb_true_iff in He as [H1 H2]. apply negb_true_iff, bool_decide_eq_false in Ha. apply Ha. by rewrite <- (Hep H1), <- (Heq H2).
  - apply andb_true_iff in Ha as [H1 H2]. apply negb_true_iff, bool_decide_eq_false in H1. apply negb_true_iff, bool_decide_eq_false in H2.
    by destruct (prefix_weak_total _ _ _ Hp Hq).
Qed.

(** A name that fits the pattern. *)
Definition sample_name (pat : list Z) : list Z :=
  match last pat with Some 43 => removelast pat | _ => pat end.

Definition pattern (def : bpf_sec_def) : list Z := default [] (sec def).

Definition pattern_ok (def : bpf_sec_def) : bool :=
  bool_decide (is_Some (sec def)) && negb (bool_decide (pattern def = [])) && forallb (Z.ltb 0) (pattern def).

Fixpoint all_apart (l : list (list Z)) : bool :=
  match l with [] => true | p :: l => forallb (sec_apart p) l && all_apart l end.

Lemma all_apart_sound l (i j : nat) p q name :
  all_apart l = true -> l !! i = Some p -> l !! j = Some q -> sec_fits p name -> sec_fits q name -> i = j.
Proof.
  revert i j. induction l as [|x l IH]; intros i j Ha Hi Hj Hp Hq; [done |]. cbn [all_apart] in Ha. apply andb_true_iff in Ha as [Hx Hl].
  rewrite forallb_forall in Hx. destruct i as [|i], j as [|j]; cbn in Hi, Hj.
  - done.
  - injection Hi as ->. exfalso. apply (sec_apart_sound p q name); [|done..]. apply Hx, list_elem_of_In. by eapply list_elem_of_lookup_2.
  - injection Hj as ->. exfalso. apply (sec_apart_sound q p name); [|done..]. apply Hx, list_elem_of_In. by eapply list_elem_of_lookup_2.
  - f_equal. by apply IH.
Qed.

Lemma section_defs_patterns : forallb pattern_ok section_defs = true /\ all_apart (pattern <$> section_defs) = true.
Proof. split; vm_compute; reflexivity. Qed.

Lemma section_def_pattern def : def ∈ section_defs -> sec def = Some (pattern def) /\ pattern def <> [] /\ pos_str (pattern def).
Proof.
  intros Hin. pose proof (proj1 section_defs_patterns) as H. rewrite forallb_forall in H. specialize (H def ltac:(by apply list_elem_of_In)).
  unfold pattern_ok in H. rewrite !andb_true_iff, negb_true_iff, bool_decide_eq_true, bool_decide_eq_false, forallb_forall in H.
  destruct H as [[[s Hs] Hne] Hall]. split_and!; [unfold pattern; by rewrite Hs | done |]. apply Forall_forall. intros x Hx.
  specialize (Hall x ltac:(by apply list_elem_of_In)). lia.
Qed.

(** The entries of the table of section definitions do not compete.  No section name fits
    two of them, so the order in which they are searched does not matter, and each of them is
    what [find_sec_def] gives for some name. *)
Lemma section_defs_unambiguous :
  (forall name i j di dj, pos_str name -> section_defs !! i = Some di -> section_defs !! j = Some dj ->
     sec_def_matches di name = Some true -> sec_def_matches dj name = Some true -> i = j) /\
  (forall def, def ∈ section_defs -> exists name, find_sec_def no_handlers name = Some (Some def)).
Proof.
  assert (Huniq : forall name i j di dj, pos_str name -> section_defs !! i = Some di -> section_defs !! j = Some dj ->
     sec_def_matches di name = Some true -> sec_def_matches dj name = Some true -> i = j).
  { intros name i j di dj Hn Hi Hj Mi Mj.
    assert (Hfit : forall k d, section_defs !! k = Some d -> sec_def_matches d name = Some true ->
      (pattern <$> section_defs) !! k = Some (pattern d) /\ sec_fits (pattern d) name).
    { intros k d Hk Hm. split; [by rewrite list_lookup_fmap, Hk |].
      destruct (section_def_pattern d) as (H1 & H2 & H3); [by eapply list_elem_of_lookup_2 |].
      destruct (sec_def_matches_fits d (pattern d) name H1 H2 H3 Hn) as (b & Hb & Hbf). rewrite Hm in Hb. injection Hb as <-. by apply Hbf. }
    destruct (Hfit i di Hi Mi), (Hfit j dj Hj Mj). by eapply (all_apart_sound _ i j _ _ name (proj2 section_defs_patterns)). }
  split; [exact Huniq |]. intros def Hin. exists (sample_name (pattern def)).
  assert (Hall : forallb (fun def => bool_decide (find_sec_def no_handlers (sample_name (pattern def)) = Some (Some def))) section_defs = true)
    by (vm_compute; reflexivity).
  rewrite forallb_forall in Hall. apply (bool_decide_eq_true_1 _), Hall. by apply list_elem_of_In.
Qed.

(** ** The handlers over time *)

(** The handlers that are registered. *)
Definition live (g : handlers) : list bpf_sec_def :=
  custom_sec_defs g ++ (if has_custom_fallback_def g then [custom_fallback_def g] else []).

Inductive handler_op :=
| Register (name : option (list Z)) (ptype : bpf_prog_type) (atype : bpf_attach_type) (opts : option libbpf_prog_handler_opts)
| Unregister (id : Z).

Definition run_op (op : handler_op) (g : handlers) (o : oracle) : Z * handlers * oracle :=
  match op with
  | Register name ptype atype opts => libbpf_register_prog_handler name ptype atype opts g o
  | Unregister id => libbpf_unregister_prog_handler id g o
  end.

(** The states that calls lead to. *)
Inductive reachable : handlers -> Prop :=
| reach_start : reachable no_handlers
| reach_step g op o r g' o' : reachable g -> run_op op g o = (r, g', o') -> reachable g'.

Record handlers_ok (g : handlers) : Prop := {
  ho_ids : NoDup (handler_id <$> live g);
  ho_range : Forall (fun def => 1 <= handler_id def <= last_custom_sec_def_handler_id g) (live g);
  ho_last : 0 <= last_custom_sec_def_handler_id g <= INT_MAX
}.

(** What a call does: nothing when it fails, otherwise it adds one handler under an identifier
    above all that were ever given, or removes the one of that identifier. *)
Definition op_done (op : handler_op) (g : handlers) (r : Z) (g' : handlers) : Prop :=
  match op with
  | Register name ptype atype opts =>
      (r = last_custom_sec_def_handler_id g + 1 /\ last_custom_sec_def_handler_id g <> INT_MAX /\ last_custom_sec_def_handler_id g' = r /\
       live g' ≡ₚ new_def name ptype atype r opts :: live g) \/
      (g' = g /\ ((r = - EINVAL /\ OPTS_VALID opts = false) \/ (r = - E2BIG /\ last_custom_sec_def_handler_id g = INT_MAX) \/
                  (r = - ENOMEM /\ is_Some name) \/ (r = - EBUSY /\ name = None /\ has_custom_fallback_def g = true)))
  | Unregister id =>
      last_custom_sec_def_handler_id g' = last_custom_sec_def_handler_id g /\
      live g' = filter (fun def => handler_id def <> id) (live g) /\
      (r = 0 <-> id ∈ handler_id <$> live g) /\ (r <> 0 -> g' = g /\ (r = - EINVAL \/ r = - ENOENT))
  end.

Lemma register_done name ptype atype opts g o r g' o' :
  libbpf_register_prog_handler name ptype atype opts g o = (r, g', o') -> op_done (Register name ptype atype opts) g r g'.
Proof.
  unfold libbpf_register_prog_handler. cbn [op_done]. destruct (OPTS_VALID opts); cbn [negb]; [|intros [= <- <- _]; right; auto].
  destruct (_ =? INT_MAX) eqn:Hmax; [intros [= <- <- _]; right; apply Z.eqb_eq in Hmax; auto |]. destruct name as [s|].
  - destruct (alloc_array _ _ o) as [[] o1]; cbn [negb]; [|intros [= <- <- _]; right; eauto 7].
    destruct (alloc o1) as [[] o2]; cbn [negb]; [|intros [= <- <- _]; right; eauto 7]. intros [= <- <- _]. left. split_and!; [done | lia | done |].
    unfold live. cbn [custom_sec_defs has_custom_fallback_def custom_fallback_def]. rewrite <- app_assoc. cbn [app]. by rewrite Permutation_middle.
  - destruct (has_custom_fallback_def g) eqn:Hf; [intros [= <- <- _]; right; auto 8 |]. intros [= <- <- _]. left. split_and!; [done | lia | done |].
    unfold live. cbn [custom_sec_defs has_custom_fallback_def custom_fallback_def]. rewrite Hf, app_nil_r. by rewrite Permutation_app_comm.
Qed.

Lemma find_handler_spec l id k :
  (exists i def, find_handler l id k = (k + i)%nat /\ l !! i = Some def /\ handler_id def = id) \/
  (find_handler l id k = (k + length l)%nat /\ Forall (fun def => handler_id def <> id) l).
Proof.
  revert k. induction l as [|def l IH]; intros k; cbn [find_handler]; [right; split; [cbn; lia | done] |].
  destruct (handler_id def =? id) eqn:He; [left; exists 0%nat, def; split_and!; [lia | done | lia] |].
  destruct (IH (S k)) as [(i & d & Hf & Hi & Hd)|[Hf Hall]].
  - left. exists (S i), d. split_and!; [lia | done | done].
  - right. split; [cbn; lia |]. constructor; [lia | done].
Qed.

Lemma filter_all {A} (P : A -> Prop) `{!forall x, Decision (P x)} l : Forall P l -> filter P l = l.
Proof. induction 1 as [|x l Hx _ IH]; [done |]. rewrite filter_cons_True by done. by rewrite IH. Qed.

(** In a list of different identifiers, removing an element is removing its identifier. *)
Lemma filter_handler l i def :
  NoDup (handler_id <$> l) -> l !! i = Some def -> take i l ++ drop (S i) l = filter (fun d => handler_id d <> handler_id def) l.
Proof.
  intros Hnd Hi. rewrite <- (take_drop_middle l i def Hi) in Hnd |- *. pose proof (lookup_lt_Some _ _ _ Hi) as Hlt.
  rewrite take_app_length' by (rewrite length_take; lia). rewrite drop_app_ge by (rewrite length_take; lia).
  replace (S i - length (take i l))%nat with 1%nat by (rewrite length_take; lia). cbn [drop]. rewrite drop_0.
  rewrite fmap_app, fmap_cons in Hnd. apply NoDup_app in Hnd as (_ & Hd1 & Hd2). apply NoDup_cons in Hd2 as [Hd2 _].
  rewrite filter_app, filter_cons_False by (by intros H).
  rewrite !filter_all; [done | |].
  - apply Forall_forall. intros x Hx He. apply Hd2. rewrite <- He. by apply list_elem_of_fmap_2.
  - apply Forall_forall. intros x Hx He. apply (Hd1 (handler_id x)); [by apply list_elem_of_fmap_2 |]. rewrite He. constructor.
Qed.

Lemma live_split g : NoDup (handler_id <$> live g) -> NoDup (handler_id <$> custom_sec_defs g) /\
  (has_custom_fallback_def g = true -> Forall (fun def => handler_id def <> handler_id (custom_fallback_def g)) (custom_sec_defs g)).
Proof.
  unfold live. rewrite fmap_app. intros (Hc & Hd & _)%NoDup_app. split; [done |]. intros Hf. rewrite Hf in Hd.
  apply Forall_forall. intros def Hin He. apply (Hd (handler_id def)); [by apply list_elem_of_fmap_2 |]. rewrite He. constructor.
Qed.

Lemma unregister_done id g o r g' o' :
  handlers_ok g -> libbpf_unregister_prog_handler id g o = (r, g', o') -> op_done (Unregister id) g r g'.
Proof.
  intros [Hnd Hrange _]. destruct (live_split g Hnd) as [Hc Hfb].
  assert (Hgone : forall r, r <> 0 -> r = - EINVAL \/ r = - ENOENT -> Forall (fun def => handler_id def <> id) (live g) -> op_done (Unregister id) g r g).
  { intros e He Hor Hall. split_and!; [done | by rewrite filter_all | | done]. split; [done |].
    intros (def & -> & Hin)%list_elem_of_fmap. rewrite Forall_forall in Hall. by destruct (Hall def Hin). }
  unfold libbpf_unregister_prog_handler. destruct (id <=? 0) eqn:H0.
  { intros [= <- <- _]. apply Hgone; [done | by left |]. eapply Forall_impl; [exact Hrange | cbn; lia]. }
  destruct (has_custom_fallback_def g) eqn:Hf; cbn [andb].
  1: destruct (handler_id (custom_fallback_def g) =? id) eqn:He.
  { apply Z.eqb_eq in He. intros [= <- <- _]. unfold op_done, live. cbn [custom_sec_defs has_custom_fallback_def last_custom_sec_def_handler_id].
    rewrite Hf, filter_app, filter_cons_False, filter_nil by (by intros H). rewrite <- He, filter_all by auto. split_and!; [done | done | | done].
    split; [|done]. intros _. rewrite fmap_app. apply elem_of_app. right. constructor. }
  all: destruct (find_handler_spec (custom_sec_defs g) id 0) as [(i & def & -> & Hi & Hd)|[-> Hall]]; cbn [Nat.add].
  2: { rewrite Nat.eqb_refl. intros [= <- <- _]. apply Hgone; [done | by right |]. unfold live. rewrite Hf. apply Forall_app. split; [done |]. constructor; [lia | done]. }
  3: { rewrite Nat.eqb_refl. intros [= <- <- _]. apply Hgone; [done | by right |]. unfold live. by rewrite Hf, app_nil_r. }
  all: pose proof (lookup_lt_Some _ _ _ Hi) as Hlt; replace (i =? length _)%nat with false by (symmetry; apply Nat.eqb_neq; lia).
  all: destruct (alloc_array _ _ o) as [ok o1]; intros [= <- <- _]; unfold op_done, live;
       cbn [custom_sec_defs has_custom_fallback_def custom_fallback_def last_custom_sec_def_handler_id].
  all: rewrite ?Hf, filter_app, <- Hd, <- (filter_handler _ i) by done; rewrite Hd; split_and!; [done | | | done].
  all: try (split; [|done]; intros _; rewrite fmap_app; apply elem_of_app; left; rewrite <- Hd; apply list_elem_of_fmap_2; by eapply list_elem_of_lookup_2).
  - rewrite filter_cons_True, filter_nil by lia. done.
  - done.
Qed.

Lemma run_op_done op g o r g' o' : handlers_ok g -> run_op op g o = (r, g', o') -> op_done op g r g'.
Proof. destruct op; [intros _; apply register_done | apply unregister_done]. Qed.

Lemma NoDup_fmap_filter {A B} (f : A -> B) (P : A -> Prop) `{!forall x, Decision (P x)} l : NoDup (f <$> l) -> NoDup (f <$> filter P l).
Proof.
  induction l as [|x l IH]; [done |]. rewrite fmap_cons. intros [Hx Hl]%NoDup_cons. destruct (decide (P x)); [|rewrite filter_cons_False; auto].
  rewrite filter_cons_True, fmap_cons by done. apply NoDup_cons. split; [|auto]. intros (y & Hxy & [_ Hy]%list_elem_of_filter)%list_elem_of_fmap.
  apply Hx. rewrite Hxy. by apply list_elem_of_fmap_2.
Qed.

Lemma op_done_ok op g r g' : handlers_ok g -> op_done op g r g' -> handlers_ok g'.
Proof.
  intros Hok Hop. pose proof Hok as [Hnd Hrange Hlast]. destruct op as [name ptype atype opts|id]; cbn [op_done] in Hop.
  - destruct Hop as [(-> & Hmax & Hl & Hp)|[-> _]]; [|done]. split.
    + rewrite Hp, fmap_cons. apply NoDup_cons. split; [|done]. cbn [new_def handler_id].
      intros (def & He & Hin)%list_elem_of_fmap. rewrite Forall_forall in Hrange. specialize (Hrange def Hin). cbn in Hrange. lia.
    + rewrite Hp. constructor; [cbn; lia |]. eapply Forall_impl; [exact Hrange | cbn; lia].
    + lia.
  - destruct Hop as (Hl & Hf & _). split; rewrite ?Hf, ?Hl; [| |done].
    + eapply NoDup_fmap_filter; exact Hnd.
    + apply Forall_forall. intros def [_ Hin]%list_elem_of_filter. rewrite Forall_forall in Hrange. auto.
Qed.

Lemma reachable_ok g : reachable g -> handlers_ok g.
Proof.
  induction 1 as [|g op o r g' o' _ IH Hr].
  - split; cbn; [constructor | constructor | unfold INT_MAX; lia].
  - eapply op_done_ok; [exact IH | by eapply run_op_done].
Qed.

(** C36: in every state that registrations and removals lead to, in any order and with any
    allocations failing, the registered handlers have different identifiers between 1 and the last one
    given.  A registration that succeeds adds one handler, with the values the options give it, under the next
    identifier; one that fails changes nothing.  A removal removes exactly the handler of the identifier and keeps the
    order of the others, and it fails exactly when no handler has the identifier. *)
Theorem handlers_spec g op o r g' o' :
  reachable g -> run_op op g o = (r, g', o') -> handlers_ok g /\ op_done op g r g' /\ handlers_ok g'.
Proof.
  intros Hg%reachable_ok Hr. pose proof (run_op_done _ _ _ _ _ _ Hg Hr) as Hop. split_and!; [done | done |]. by eapply op_done_ok.
Qed.

Lemma reachable_run op g o : reachable g -> reachable (snd (fst (run_op op g o))).
Proof. intros Hg. destruct (run_op op g o) as [[r g'] o'] eqn:Hr. exact (reach_step g op o r g' o' Hg Hr). Qed.

Definition demo_handlers : handlers :=
  snd (fst (run_op (Register None BPF_PROG_TYPE_XDP BPF_XDP None) (snd (fst (run_op (Register (Some (ascii_bytes "abc+")) BPF_PROG_TYPE_KPROBE no_attach_type None) no_handlers []))) [])).

Lemma handlers_spec_witness :
  op_done (Unregister 1) demo_handlers 0 (snd (fst (libbpf_unregister_prog_handler 1 demo_handlers []))).
Proof.
  refine (proj1 (proj2 (handlers_spec demo_handlers (Unregister 1) [] 0 _ (snd (libbpf_unregister_prog_handler 1 demo_handlers [])) _ _))).
  - exact (reachable_run _ _ _ (reachable_run _ _ _ reach_start)).
  - vm_compute. reflexivity.
Defined.

(** ** The search *)

(** Definitions of which the section is a non-empty string. *)
Definition named (def : bpf_sec_def) : Prop := exists pat, sec def = Some pat /\ pat <> [] /\ pos_str pat.

Definition def_fits (def : bpf_sec_def) (name : list Z) : Prop := exists pat, sec def = Some pat /\ sec_fits pat name.

Lemma named_matches def name : named def -> pos_str name -> exists b, sec_def_matches def name = Some b /\ (b = true <-> def_fits def name).
Proof.
  intros (pat & Hs & Hne & Hp) Hn. destruct (sec_def_matches_fits def pat name Hs Hne Hp Hn) as (b & Hb & Hf). exists b. split; [done |].
  rewrite Hf. split; [intros; by exists pat | by intros (p & Hs' & ?); simplify_eq].
Qed.

Lemma find_def_spec l name : Forall named l -> pos_str name ->
  exists r, find_def l name = Some r /\
    match r with
    | Some def => exists l1 l2, l = l1 ++ def :: l2 /\ def_fits def name /\ Forall (fun d => ~ def_fits d name) l1
    | None => Forall (fun d => ~ def_fits d name) l
    end.
Proof.
  intros Hl Hn. induction Hl as [|def l Hd _ IH]; cbn [find_def]; [by exists None |].
  destruct (named_matches def name Hd Hn) as (b & -> & Hb). cbn [mbind option_bind]. destruct b.
  - exists (Some def). split; [done |]. exists [], l. split_and!; [done | by apply Hb | done].
  - assert (~ def_fits def name) by (intros Hf; apply Hb in Hf; done). destruct IH as (r & -> & Hr). exists r. split; [done |].
    destruct r as [d|]; [|by constructor]. destruct Hr as (l1 & l2 & -> & Hfit & Hno). exists (def :: l1), l2. split_and!; [done | done | by constructor].
Qed.

Lemma section_defs_named : Forall named section_defs.
Proof. apply Forall_forall. intros def Hin. destruct (section_def_pattern def Hin) as (H1 & H2 & H3). by eexists. Qed.

Lemma section_def_fits_unique d d' name :
  pos_str name -> d ∈ section_defs -> d' ∈ section_defs -> def_fits d name -> def_fits d' name -> d = d'.
Proof.
  intros Hn Hd Hd' Hf Hf'. pose proof section_defs_named as Hnamed. rewrite Forall_forall in Hnamed.
  destruct (named_matches d name (Hnamed d Hd) Hn) as (b & Hb & Hbf). destruct (named_matches d' name (Hnamed d' Hd') Hn) as (b' & Hb' & Hbf').
  apply Hbf in Hf. apply Hbf' in Hf'. subst. apply list_elem_of_lookup in Hd as [i Hi]. apply list_elem_of_lookup in Hd' as [j Hj].
  rewrite (proj1 section_defs_unambiguous name i j d d' Hn Hi Hj Hb Hb') in Hi. apply (inj Some). by rewrite <- Hi, <- Hj.
Qed.

(** C37: the search for a section name never reads outside a string, and what it gives is the
    first registered handler that fits the name, else the one entry of the table that fits it,
    else the fallback handler, else nothing.  Every entry of the table is found by some name when no handler is
    registered. *)
Theorem find_sec_def_spec g name : Forall named (custom_sec_defs g) -> pos_str name ->
  (forall def, def ∈ section_defs -> exists name, find_sec_def no_handlers name = Some (Some def)) /\
  exists r, find_sec_def g name = Some r /\
    ((exists def l1 l2, r = Some def /\ custom_sec_defs g = l1 ++ def :: l2 /\ def_fits def name /\
        Forall (fun d => ~ def_fits d name) l1) \/
     (Forall (fun d => ~ def_fits d name) (custom_sec_defs g) /\
      ((exists def, r = Some def /\ forall d, d ∈ section_defs /\ def_fits d name <-> d = def) \/
       (Forall (fun d => ~ def_fits d name) section_defs /\
        r = if has_custom_fallback_def g then Some (custom_fallback_def g) else None)))).
Proof.
  intros Hc Hn. split; [exact (proj2 section_defs_unambiguous) |]. unfold find_sec_def. destruct (find_def_spec _ name Hc Hn) as (r1 & -> & H1). cbn [mbind option_bind].
  destruct r1 as [def|]; [exists (Some def); split; [done |]; left; destruct H1 as (l1 & l2 & ?); by exists def, l1, l2 |].
  destruct (find_def_spec _ name section_defs_named Hn) as (r2 & -> & H2). cbn [mbind option_bind]. destruct r2 as [def|].
  - exists (Some def). split; [done |]. right. split; [done |]. left. exists def. split; [done |].
    destruct H2 as (l1 & l2 & Hl & Hf & _). assert (Hin : def ∈ section_defs) by (rewrite Hl; apply elem_of_app; right; constructor).
    intros d. split; [intros [Hd Hfd]; by eapply section_def_fits_unique | by intros ->].
  - eexists. split; [done |]. right. split; [done |]. right. by split.
Qed.

Lemma find_sec_def_spec_witness :
  exists r, find_sec_def demo_handlers (ascii_bytes "abc/def") = Some r.
Proof.
  destruct (find_sec_def_spec demo_handlers (ascii_bytes "abc/def")) as (_ & r & Hr & _).
  - vm_compute. constructor; [|constructor]. exists (ascii_bytes "abc+"). split; [reflexivity |]. split; [discriminate |].
    repeat (constructor; [vm_compute; split; congruence |]). constructor.
  - repeat (constructor; [vm_compute; split; congruence |]). constructor.
  - exists r. exact Hr.
Defined.
