(* ===== verification/LibUtil.v ===== *)
(** * LibUtil: helpers of [src/src/libbpf.c]

    The matching of names with patterns ([glob_match]), the parsing of lists of processors and
    the count of possible processors, and the size that a ring buffer map is given.

    The theorems: matching always returns and decides the relation that the pattern denotes;
    a list of processors in ascending order, as the kernel prints it, is read as the set it
    denotes; the size of a ring buffer is the smallest that the kernel accepts and that is not
    less than what was asked for. *)
From Stdlib Require String.
From stdpp Require Import strings.
From S2P Require Import Prelude Hashmap Mem Strset BtfTypes Btf BtfFind BtfParse CoreTypes CoreCompat CoreSpec CoreField.
Open Scope Z_scope.

(** ** Patterns *)

(** The first loop: [None] is that a character differs, otherwise where it stops. *)
Fixpoint glob_head (str pat : list Z) : option (list Z * list Z) :=
  match str, pat with
  | c :: str', p :: pat' =>
      if p =? 42 then Some (str, pat) else
      if p =? 63 then glob_head str' pat' else
      if negb (c =? p) then None else glob_head str' pat'
  | _, _ => Some (str, pat)
  end.

Fixpoint skip_stars (pat : list Z) : list Z :=
  match pat with p :: pat' => if p =? 42 then skip_stars pat' else pat | [] => [] end.

(** The second loop, over the ends of the string. *)
Fixpoint glob_tails (rec : list Z -> option bool) (str : list Z) : option bool :=
  match str with
  | [] => Some false
  | _ :: str' => b ← rec str; if (b : bool) then Some true else glob_tails rec str'
  end.

Definition is_nil (l : list Z) : bool := match l with [] => true | _ => false end.

Definition is_star (pat : list Z) : bool := match pat with p :: _ => p =? 42 | [] => false end.

(** Every recursive call takes a star from the pattern, so its length is enough fuel. *)
Fixpoint glob_match_fuel (fuel : nat) (str pat : list Z) : option bool :=
  match fuel with
  | O => None
  | S fuel =>
      match glob_head str pat with
      | None => Some false
      | Some (str, pat) =>
          if is_star pat then
            let pat := skip_stars pat in
            if is_nil pat then Some true else
            b ← glob_tails (fun str => glob_match_fuel fuel str pat) str;
            if (b : bool) then Some true else Some (is_nil pat)
          else Some (is_nil str && is_nil pat)
      end
  end.

Definition glob_match (str pat : list Z) : option bool := glob_match_fuel (S (length pat)) str pat.

(** ** Lists of processors *)

(** [sscanf] with the format [%d%n-%d%n]: the numbers that were read and the rest behind the
    last of them. *)
Definition scan_range (s : list Z) : option (list Z * list Z) :=
  r ← scan_int s;
  match r with
  | None => Some ([], s)
  | Some (start, rest) =>
      match rest with
      | c :: rest' =>
          if c =? 45 then
            r ← scan_int rest';
            match r with
            | None => Some ([start], rest)
            | Some (end_, rest) => Some ([start; end_], rest)
            end
          else Some ([start], rest)
      | [] => Some ([start], rest)
      end
  end.

(** The error code, the mask ([None] is the null pointer), its size and the rest of the
    oracle. *)
Definition mask_result : Type := Z * option (list bool) * Z * oracle.

(** The loop.  A round without a separator reads a number. *)
Fixpoint parse_mask_loop (fuel : nat) (s : list Z) (mask : option (list bool)) (mask_sz : Z) (o : oracle) : option mask_result :=
  match s with
  | [] => if mask_sz =? 0 then Some (- EINVAL, mask, mask_sz, o) else Some (0, mask, mask_sz, o)
  | c :: s' =>
      match fuel with
      | O => None
      | S fuel =>
          if (c =? 44) || (c =? 10) then parse_mask_loop fuel s' mask mask_sz o else
          '(nums, rest) ← scan_range s;
          match nums with
          | start :: nums =>
              let end_ := match nums with e :: _ => e | [] => start end in
              if (start <? 0) || (end_ <? start) then Some (- EINVAL, None, mask_sz, o) else
              if end_ =? INT_MAX then None else
              let '(ok, o) := alloc o in
              if negb ok then Some (- ENOMEM, None, mask_sz, o) else
              if start - mask_sz <? 0 then None else
              let tmp := default [] mask ++ replicate (Z.to_nat (start - mask_sz)) false ++ replicate (Z.to_nat (end_ - start + 1)) true in
              parse_mask_loop fuel rest (Some tmp) (end_ + 1) o
          | [] => Some (- EINVAL, None, mask_sz, o)
          end
      end
  end.

Definition parse_cpu_mask_str (s : list Z) (o : oracle) : option mask_result := parse_mask_loop (length s) s None 0 o.

(** What the system calls on a file give. *)
Inductive file_outcome :=
| OpenFails (errno : Z)
| ReadFails (errno : Z)
| Contents (bytes : list Z).

Definition cpu_buf_size : Z := 128.

(** The string ends at the first zero byte. *)
Fixpoint to_nul (s : list Z) : list Z :=
  match s with c :: s' => if c =? 0 then [] else c :: to_nul s' | [] => [] end.

Definition parse_cpu_mask_file (f : file_outcome) (o : oracle) : option mask_result :=
  match f with
  | OpenFails e => Some (- e, None, 0, o)
  | ReadFails e => Some (- e, None, 0, o)
  | Contents bytes =>
      let buf := take (Z.to_nat cpu_buf_size) bytes in
      let len := zlen buf in
      if len <=? 0 then Some (- EINVAL, None, 0, o) else
      if cpu_buf_size <=? len then Some (- E2BIG, None, 0, o) else
      parse_cpu_mask_str (to_nul buf) o
  end.

Definition count_cpus (mask : list bool) : Z := zlen (filter (fun b => b = true) mask).

(** The result and the variable [cpus] of the library. *)
Definition libbpf_num_possible_cpus (f : file_outcome) (cpus : Z) (o : oracle) : option (Z * Z * oracle) :=
  if 0 <? cpus then Some (cpus, cpus, o) else
  '(err, mask, n, o) ← parse_cpu_mask_file f o;
  if negb (err =? 0) then Some (err, cpus, o) else
  mask ← mask;
  let tmp_cpus := count_cpus (take (Z.to_nat n) mask) in
  Some (tmp_cpus, tmp_cpus, o).

(** ** The size of a ring buffer map *)
Definition is_pow_of_2 (x : Z) : bool := negb (x =? 0) && (Z.land x (u64 (x - 1)) =? 0).

Fixpoint adjust_loop (fuel : nat) (mul page_sz sz : Z) : option Z :=
  match fuel with
  | O => None
  | S fuel =>
      if mul <=? UINT_MAX / page_sz then
        if sz <? u32 (mul * page_sz) then Some (u32 (mul * page_sz))
        else adjust_loop fuel (u32 (Z.shiftl mul 1)) page_sz sz
      else Some sz
  end.

(** A multiplier has 32 bits. *)
Definition adjust_ringbuf_sz (page_sz sz : Z) : option Z :=
  if sz =? 0 then Some 0 else
  if page_sz =? 0 then None else
  if (sz mod page_sz =? 0) && is_pow_of_2 (sz / page_sz) then Some sz else
  adjust_loop 33 1 page_sz sz.

(** ** What a pattern denotes *)

Inductive glob : list Z -> list Z -> Prop :=
| glob_nil : glob [] []
| glob_any c str pat : glob str pat -> glob (c :: str) (63 :: pat)
| glob_char c str pat : c <> 42 -> c <> 63 -> glob str pat -> glob (c :: str) (c :: pat)
| glob_star pre str pat : glob str pat -> glob (pre ++ str) (42 :: pat).

Lemma glob_star_inv str pat : glob str (42 :: pat) <-> exists pre rest, str = pre ++ rest /\ glob rest pat.
Proof. split; [inversion 1; simplify_eq; eauto | intros (pre & rest & -> & H); by constructor]. Qed.

Lemma glob_nil_inv pat : glob [] pat -> pat = [] \/ is_star pat = true.
Proof. inversion 1; subst; auto. Qed.

Lemma glob_head_spec str pat :
  match glob_head str pat with
  | None => ~ glob str pat
  | Some (str', pat') => (glob str pat <-> glob str' pat') /\ (length pat' <= length pat)%nat /\
      (str' = [] \/ pat' = [] \/ is_star pat' = true)
  end.
Proof.
  revert pat. induction str as [|c str IH]; intros pat; [destruct pat; cbn; auto |]. destruct pat as [|p pat]; [cbn; auto |]. cbn [glob_head].
  destruct (p =? 42) eqn:Hs; [cbn; rewrite Hs; auto |]. specialize (IH pat). destruct (p =? 63) eqn:Hq.
  - assert (p = 63) as -> by lia. assert (He : glob (c :: str) (63 :: pat) <-> glob str pat) by (split; [by inversion 1 | by constructor]).
    destruct (glob_head str pat) as [[s' p']|]; [|by rewrite He]. rewrite He. cbn [length]. intuition lia.
  - destruct (c =? p) eqn:Hc; cbn [negb]; [|inversion 1; subst; lia]. assert (c = p) as -> by lia.
    assert (He : glob (p :: str) (p :: pat) <-> glob str pat) by (split; [inversion 1; subst; done || lia | constructor; [lia | lia | done]]).
    destruct (glob_head str pat) as [[s' p']|]; [|by rewrite He]. rewrite He. cbn [length]. intuition lia.
Qed.

Lemma skip_stars_spec pat : is_star pat = true ->
  (length (skip_stars pat) < length pat)%nat /\ is_star (skip_stars pat) = false /\
  forall str, glob str pat <-> exists pre rest, str = pre ++ rest /\ glob rest (skip_stars pat).
Proof.
  induction pat as [|p pat IH]; [done |]. cbn [is_star skip_stars]. intros Hp. rewrite Hp. assert (p = 42) as -> by lia. destruct (is_star pat) eqn:Hs.
  - destruct IH as (Hl & Hn & Hg); [done |]. cbn [length]. split_and!; [lia | done |]. intros str. rewrite glob_star_inv. split.
    + intros (pre & rest & -> & (pre' & rest' & -> & H)%Hg). exists (pre ++ pre'), rest'. by rewrite <- app_assoc.
    + intros (pre & rest & -> & H). exists pre, rest. split; [done |]. apply Hg. by exists [], rest.
  - assert (He : skip_stars pat = pat) by (destruct pat as [|q pat]; [done |]; cbn in *; by rewrite Hs). rewrite He. cbn [length].
    split_and!; [lia | done |]. intros str. apply glob_star_inv.
Qed.

Lemma glob_tails_spec rec P str :
  (forall s, exists b, rec s = Some b /\ (b = true <-> P s)) ->
  exists b, glob_tails rec str = Some b /\ (b = true <-> exists pre rest, str = pre ++ rest /\ rest <> [] /\ P rest).
Proof.
  intros Hrec. induction str as [|c str IH]; cbn [glob_tails].
  - exists false. split; [done |]. split; [done |]. intros ([] & [] & He & Hne & _); done.
  - destruct (Hrec (c :: str)) as (b & -> & Hb). cbn [mbind option_bind]. destruct b.
    + exists true. split; [done |]. split; [|done]. intros _. exists [], (c :: str). split_and!; [done | done | by apply Hb].
    + destruct IH as (b & -> & Hb'). exists b. split; [done |]. rewrite Hb'. split.
      * intros (pre & rest & -> & H). by exists (c :: pre), rest.
      * intros ([|x pre] & rest & He & Hne & HP); [|injection He as -> ->; by exists pre, rest].
        cbn in He. subst rest. apply Hb in HP. done.
Qed.

Lemma glob_match_fuel_spec fuel str pat : (length pat < fuel)%nat ->
  exists b, glob_match_fuel fuel str pat = Some b /\ (b = true <-> glob str pat).
Proof.
  revert str pat. induction fuel as [|fuel IH]; intros str pat Hf; [lia |]. cbn [glob_match_fuel].
  pose proof (glob_head_spec str pat) as Hh. destruct (glob_head str pat) as [[s p]|]; [|exists false; split; [done | split; done]].
  destruct Hh as (Hg & Hl & Hstop). destruct (is_star p) eqn:Hs.
  - destruct (skip_stars_spec p Hs) as (Hl' & Hn & Hsk). destruct (skip_stars p) as [|q p'] eqn:Hp; cbn [is_nil].
    + exists true. split; [done |]. split; [|done]. intros _. apply Hg, Hsk. exists s, []. rewrite app_nil_r. split; [done | constructor].
    + destruct (glob_tails_spec (fun str => glob_match_fuel fuel str (q :: p')) (fun s => glob s (q :: p')) s) as (b & -> & Hb).
      { intros s'. apply IH. lia. }
      exists b. split; [by destruct b |]. rewrite Hb, Hg, Hsk. split; [intros (pre & rest & ? & _ & ?); eauto |].
      intros (pre & rest & -> & H). exists pre, rest. split_and!; [done | | done]. intros ->. apply glob_nil_inv in H as [|]; [done |]. by rewrite Hn in *.
  - eexists. split; [done |]. rewrite Hg. destruct s as [|c s], p as [|q p]; cbn [is_nil andb].
    + split; [constructor | done].
    + split; [done |]. intros H. apply glob_nil_inv in H as [|]; [done |]. by rewrite Hs in *.
    + split; [done | inversion 1].
    + destruct Hstop as [|[|]]; congruence.
Qed.

(** C38: [glob_match] returns for every string and pattern and decides whether the string is one
    that the pattern denotes: a star stands for any characters, a question mark for one, and
    another character for itself. *)
Theorem glob_match_spec str pat : exists b, glob_match str pat = Some b /\ (b = true <-> glob str pat).
Proof. apply glob_match_fuel_spec. lia. Qed.

(** ** Lists of processors in ascending order *)

(** Ranges in ascending order from [lo] on. *)
Fixpoint ascending (lo : Z) (l : list (Z * Z)) : Prop :=
  match l with
  | [] => True
  | (a, b) :: l => lo <= a /\ a <= b < INT_MAX /\ ascending (b + 1) l
  end.

(** How the kernel prints them. *)
Definition print_range (a b : Z) (tail : list Z) : list Z :=
  if a =? b then decimal a tail else decimal a (45 :: decimal b tail).

Fixpoint cpu_list (l : list (Z * Z)) : list Z :=
  match l with
  | [] => [10]
  | [(a, b)] => print_range a b [10]
  | (a, b) :: l => print_range a b (44 :: cpu_list l)
  end.

Fixpoint mask_of (lo : Z) (l : list (Z * Z)) : list bool :=
  match l with
  | [] => []
  | (a, b) :: l => replicate (Z.to_nat (a - lo)) false ++ replicate (Z.to_nat (b - a + 1)) true ++ mask_of (b + 1) l
  end.

Lemma scan_range_print a b c tail : 0 <= a <= b -> b <= INT_MAX -> is_digit c = false -> c <> 45 ->
  exists nums, scan_range (print_range a b (c :: tail)) = Some (a :: nums, c :: tail) /\ b = match nums with e :: _ => e | [] => a end.
Proof.
  intros Ha Hb Hc Hm. unfold print_range, scan_range.
  assert (Hd : forall c' t, c :: tail = c' :: t -> is_digit c' = false) by (by intros c' t [= <- _]).
  destruct (a =? b) eqn:E.
  - rewrite scan_int_decimal by (done || lia). cbn [mbind option_bind]. replace (c =? 45) with false by lia. exists []. split; [done | lia].
  - rewrite scan_int_decimal; [|lia | by intros c' t [= <- _]]. cbn [mbind option_bind]. change (45 =? 45) with true. cbn iota.
    rewrite scan_int_decimal by (done || lia). cbn [mbind option_bind]. by exists [b].
Qed.

Lemma print_range_head a b tail : 0 <= a <= b -> exists c rest, print_range a b tail = c :: rest /\ is_digit c = true.
Proof. intros H. unfold print_range, decimal. case_match; apply digits_head; lia. Qed.

Lemma print_range_length a b tail : (length tail < length (print_range a b tail))%nat.
Proof.
  unfold print_range, decimal. pose proof (digits_length 10 b tail ltac:(lia)). case_match; [apply digits_length; lia |].
  etrans; [|apply digits_length; lia]. cbn [length]. lia.
Qed.

(** One round of the loop. *)
Lemma parse_mask_range fuel a b c tail mask o :
  0 <= a <= b -> b < INT_MAX -> is_digit c = false -> c <> 45 -> zlen (default [] mask) <= a ->
  parse_mask_loop (S fuel) (print_range a b (c :: tail)) mask (zlen (default [] mask)) o =
  (let '(ok, o) := alloc o in
   if negb ok then Some (- ENOMEM, None, zlen (default [] mask), o) else
   parse_mask_loop fuel (c :: tail)
     (Some (default [] mask ++ replicate (Z.to_nat (a - zlen (default [] mask))) false ++ replicate (Z.to_nat (b - a + 1)) true)) (b + 1) o).
Proof.
  intros Ha Hb Hc Hm Hlo. destruct (print_range_head a b (c :: tail) Ha) as (d & rest & Hp & Hd).
  destruct (scan_range_print a b c tail Ha ltac:(lia) Hc Hm) as (nums & Hs & Hb'). rewrite Hp in *. cbn [parse_mask_loop].
  unfold is_digit in Hd. replace ((d =? 44) || (d =? 10)) with false by lia. rewrite Hs. cbn [mbind option_bind]. rewrite <- Hb'.
  replace ((a <? 0) || (b <? a)) with false by lia. replace (b =? INT_MAX) with false by lia.
  destruct (alloc o) as [[] o1]; cbn [negb]; [|done]. by replace (a - _ <? 0) with false by lia.
Qed.

Lemma parse_mask_cpu_list l : forall fuel lo mask o,
  (length (cpu_list l) <= fuel)%nat -> zlen (default [] mask) = lo -> ascending lo l -> l <> [] ->
  exists o' sz, (false ∈ o /\ parse_mask_loop fuel (cpu_list l) mask lo o = Some (- ENOMEM, None, sz, o')) \/
    parse_mask_loop fuel (cpu_list l) mask lo o = Some (0, Some (default [] mask ++ mask_of lo l), sz, o') /\ sz = zlen (default [] mask ++ mask_of lo l).
Proof.
  induction l as [|[a b] l IH]; intros fuel lo mask o Hf Hlo Hasc Hne; [done |]. cbn [ascending] in Hasc. destruct Hasc as (H1 & H2 & H3).
  pose proof (zlen_nonneg (default [] mask)) as Hn.
  assert (Hlist : exists c tail, cpu_list ((a, b) :: l) = print_range a b (c :: tail) /\ is_digit c = false /\ c <> 45 /\
    ((c = 10 /\ l = [] /\ tail = []) \/ (c = 44 /\ l <> [] /\ tail = cpu_list l))).
  { destruct l as [|r l]; [exists 10, [] | exists 44, (cpu_list (r :: l))]; cbn [cpu_list]; destruct (decide (a = b)); eauto 10. }
  destruct Hlist as (c & tail & Hl & Hc & Hm & Hcase). rewrite Hl in *. pose proof (print_range_length a b (c :: tail)) as Hlen.
  cbn [length] in Hlen. destruct fuel as [|[|fuel]]; [lia | lia |].
  rewrite <- Hlo in *. rewrite parse_mask_range by (done || lia).
  destruct (alloc_cases o) as (o1 & Ho & [->|[-> Hfail]]); cbn [negb]; [|exists o1, (zlen (default [] mask)); by left].
  set (m' := default [] mask ++ replicate _ false ++ replicate _ true).
  assert (Hm' : zlen m' = b + 1) by (unfold m'; rewrite !zlen_app; unfold zlen; rewrite !length_replicate; unfold zlen in *; lia).
  assert (Hmask : default [] mask ++ mask_of (zlen (default [] mask)) ((a, b) :: l) = m' ++ mask_of (b + 1) l) by (unfold m'; cbn [mask_of]; by rewrite <- !app_assoc).
  rewrite Hmask. cbn [parse_mask_loop]. destruct Hcase as [(-> & -> & ->)|(-> & Hl' & ->)]; cbn [Z.eqb orb Pos.eqb].
  - exists o1, (b + 1). right. destruct fuel; cbn [parse_mask_loop]; replace (b + 1 =? 0) with false by lia; cbn [mask_of]; by rewrite app_nil_r.
  - specialize (IH fuel (b + 1) (Some m') o1). cbn [default from_option id] in IH.
    destruct IH as (o2 & sz & [[Hin Hrun]|Hrun]); [lia | done | done | done | |]; exists o2, sz; [left; auto | by right].
Qed.

Definition in_range (i : Z) (r : Z * Z) : Prop := fst r <= i <= snd r.

Fixpoint total_cpus (l : list (Z * Z)) : Z :=
  match l with [] => 0 | (a, b) :: l => (b - a + 1) + total_cpus l end.

Lemma mask_of_lookup l : forall lo i, ascending lo l -> mask_of lo l !! i = Some true <-> Exists (in_range (lo + Z.of_nat i)) l.
Proof.
  induction l as [|[a b] l IH]; intros lo i Hasc; cbn [mask_of]; [by rewrite lookup_nil, Exists_nil |].
  destruct Hasc as (H1 & H2 & H3). rewrite Exists_cons. unfold in_range at 1. cbn [fst snd].
  assert (Hlate : forall j, Exists (in_range j) l -> b < j).
  { clear -H3. revert b H3. induction l as [|[c d] l IH]; intros b H3 j Hj; [by apply Exists_nil in Hj |].
    destruct H3 as (Hc & Hd & H3). apply Exists_cons in Hj as [Hj|Hj]; [unfold in_range in Hj; cbn in Hj; lia |]. specialize (IH d H3 j Hj). lia. }
  destruct (decide (Z.of_nat i < a - lo)) as [Hi|Hi].
  { rewrite lookup_app_l by (rewrite length_replicate; lia). rewrite lookup_replicate_2 by lia. split; [done |]. intros [H|H]; [lia |]. apply Hlate in H. lia. }
  rewrite lookup_app_r by (rewrite length_replicate; lia). rewrite length_replicate. destruct (decide (Z.of_nat i <= b - lo)) as [Hi'|Hi'].
  { rewrite lookup_app_l by (rewrite length_replicate; lia). rewrite lookup_replicate_2 by lia. split; [|done]. intros _. left. lia. }
  rewrite lookup_app_r by (rewrite length_replicate; lia). rewrite length_replicate, IH by done.
  replace (b + 1 + _) with (lo + Z.of_nat i) by lia. split; [by right | intros [H|H]; [lia | done]].
Qed.

Lemma count_mask_of l : forall lo, ascending lo l -> count_cpus (mask_of lo l) = total_cpus l.
Proof.
  unfold count_cpus. induction l as [|[a b] l IH]; intros lo Hasc; cbn [mask_of total_cpus]; [done |]. destruct Hasc as (H1 & H2 & H3).
  assert (Hr : forall n (x : bool), filter (fun b => b = true) (replicate n x) = if x then replicate n true else []).
  { intros n x. induction n as [|n IHn]; [by destruct x |]. cbn [replicate].
    destruct x; [by rewrite filter_cons_True, IHn by done | by rewrite filter_cons_False, IHn by done]. }
  rewrite !filter_app, !Hr, !zlen_app, (IH (b + 1) H3). unfold zlen at 1 2. rewrite length_replicate. cbn [length]. lia.
Qed.

Lemma parse_cpu_list l o : ascending 0 l -> l <> [] ->
  (exists sz o', parse_cpu_mask_str (cpu_list l) o = Some (- ENOMEM, None, sz, o') /\ false ∈ o) \/
  (exists o', parse_cpu_mask_str (cpu_list l) o = Some (0, Some (mask_of 0 l), zlen (mask_of 0 l), o')).
Proof.
  intros Hasc Hne. destruct (parse_mask_cpu_list l (length (cpu_list l)) 0 None o) as (o' & sz & [[Ho H]|[H ->]]); [lia | done | done | done | |].
  - left. by exists sz, o'.
  - right. by exists o'.
Qed.

(** C40: ranges of processors in ascending order, printed as the kernel prints them, are parsed
    to the mask in which exactly the processors of the ranges are set, and as many entries
    are set as there are processors, unless an allocation fails. *)
Theorem parse_cpu_mask_str_spec l o : ascending 0 l -> l <> [] ->
  (exists sz o', parse_cpu_mask_str (cpu_list l) o = Some (- ENOMEM, None, sz, o') /\ false ∈ o) \/
  (exists mask o', parse_cpu_mask_str (cpu_list l) o = Some (0, Some mask, zlen mask, o') /\
     (forall i, mask !! i = Some true <-> Exists (in_range (Z.of_nat i)) l) /\ count_cpus mask = total_cpus l).
Proof.
  intros Hasc Hne. destruct (parse_cpu_list l o Hasc Hne) as [H|[o' H]]; [by left |]. right. exists (mask_of 0 l), o'.
  split_and!; [done | intros i; by apply mask_of_lookup | by apply count_mask_of].
Qed.

Lemma parse_cpu_mask_str_spec_witness :
  exists mask o', parse_cpu_mask_str (ascii_bytes "0-3,8"%string ++ [10]) [] = Some (0, Some mask, zlen mask, o') /\ count_cpus mask = 5.
Proof.
  destruct (parse_cpu_mask_str_spec [(0, 3); (8, 8)] []) as [(sz & o' & H)|(mask & o' & H & _ & Hc)].
  - unfold ascending, INT_MAX. lia.
  - discriminate.
  - destruct H as [_ H]. by apply not_elem_of_nil in H.
  - exists mask, o'. split; [exact H | exact Hc].
Defined.

(** The number of processors, which later calls do not read again. *)
Lemma libbpf_num_possible_cpus_spec l o : ascending 0 l -> l <> [] -> Forall (fun c => c <> 0) (cpu_list l) -> zlen (cpu_list l) < cpu_buf_size ->
  exists r cpus o', libbpf_num_possible_cpus (Contents (cpu_list l)) 0 o = Some (r, cpus, o') /\
    ((r = - ENOMEM /\ cpus = 0) \/
     (r = total_cpus l /\ forall f o, libbpf_num_possible_cpus f cpus o = Some (r, cpus, o))).
Proof.
  intros Hasc Hne Hnul Hlen. unfold libbpf_num_possible_cpus at 1. cbn [Z.ltb Z.compare]. unfold parse_cpu_mask_file.
  assert (Hpos : 0 < zlen (cpu_list l)).
  { destruct l as [|[a b] l]; [done |]. unfold zlen. destruct l; cbn [cpu_list];
      match goal with |- context [print_range ?a ?b ?t] => pose proof (print_range_length a b t) end; lia. }
  rewrite take_ge by (unfold zlen in *; lia). replace (zlen _ <=? 0) with false by lia. replace (cpu_buf_size <=? _) with false by lia.
  assert (Hto : to_nul (cpu_list l) = cpu_list l).
  { clear -Hnul. induction Hnul as [|c s Hc _ IH]; [done |]. cbn [to_nul]. replace (c =? 0) with false by lia. by rewrite IH. }
  rewrite Hto. destruct (parse_cpu_list l o Hasc Hne) as [(sz & o' & -> & _)|[o' ->]]; cbn [mbind option_bind].
  - cbn [negb]. change (- ENOMEM =? 0) with false. cbn [negb]. eexists _, _, _. split; [done |]. by left.
  - change (0 =? 0) with true. cbn [negb mbind option_bind]. rewrite take_ge by (unfold zlen; lia). eexists _, _, _. split; [done |]. right.
    rewrite count_mask_of by done. split; [done |]. intros f o2. unfold libbpf_num_possible_cpus.
    assert (0 < total_cpus l).
    { destruct l as [|[a b] l]; [done |]. destruct Hasc as (_ & Hab & Hasc). cbn [total_cpus]. clear -Hab Hasc. assert (0 <= total_cpus l); [|lia].
      generalize dependent b. induction l as [|[c d] l IH]; intros b Hab Hasc; cbn [total_cpus]; [lia |]. destruct Hasc as (? & ? & Hasc).
      assert (0 <= total_cpus l); [|lia]. apply (IH d); [lia | done]. }
    by replace (0 <? total_cpus l) with true by lia.
Qed.

(** With a lower range behind a higher one the length of the first [memset] is negative. *)
Lemma parse_cpu_mask_str_unordered : parse_cpu_mask_str (ascii_bytes "3-4,0-1"%string) [] = None.
Proof. vm_compute. reflexivity. Qed.

(** ** Sizes of ring buffers *)

Lemma is_pow_of_2_spec x : 0 <= x < 2 ^ 64 -> is_pow_of_2 x = true <-> exists j, 0 <= j /\ x = 2 ^ j.
Proof.
  intros Hx. unfold is_pow_of_2. destruct (decide (x = 0)) as [->|Hne].
  { split; [done |]. intros (j & Hj & He). pose proof (Z.pow_pos_nonneg 2 j). lia. }
  replace (x =? 0) with false by lia. cbn [negb andb]. rewrite uwrap_small, Z.eqb_eq by lia. split.
  - intros Hl. exists (Z.log2 x). split; [apply Z.log2_nonneg |]. destruct (Z.log2_spec x) as [H1 H2]; [lia |].
    destruct (decide (x = 2 ^ Z.log2 x)) as [He|He]; [done |]. exfalso.
    assert (Hb : Z.testbit (Z.land x (x - 1)) (Z.log2 x) = true).
    { rewrite Z.land_spec, Z.bit_log2 by lia. replace (Z.log2 x) with (Z.log2 (x - 1)); [apply Z.bit_log2 |].
      - pose proof (Z.pow_pos_nonneg 2 (Z.log2 x) ltac:(lia) (Z.log2_nonneg x)). lia.
      - apply Z.log2_unique; [apply Z.log2_nonneg | lia]. }
    by rewrite Hl, Z.bits_0 in Hb.
  - intros (j & Hj & ->). replace (2 ^ j - 1) with (Z.ones j) by (rewrite Z.ones_equiv; lia). rewrite Z.land_ones by lia.
    apply Z.mod_same. pose proof (Z.pow_pos_nonneg 2 j). lia.
Qed.

Section RingbufSize.
  Context (k sz : Z) (Hk : 1 <= k < 32) (Hsz : 0 < sz < 2 ^ 64).

(** The smallest multiple of the page size by a power of two that is not below [sz]. *)
Definition best_size (r : Z) : Prop :=
  (exists j, 0 <= j /\ r = 2 ^ k * 2 ^ j) /\ sz <= r /\ forall j, 0 <= j -> sz <= 2 ^ k * 2 ^ j -> r <= 2 ^ k * 2 ^ j.

Lemma adjust_loop_spec fuel i :
  0 <= i -> i + Z.of_nat fuel = 33 -> 2 ^ k * 2 ^ i <= 2 ^ 32 -> (forall j, 0 <= j < i -> 2 ^ k * 2 ^ j <= sz) ->
  (forall j, 0 <= j -> sz <> 2 ^ k * 2 ^ j) ->
  exists r, adjust_loop fuel (2 ^ i) (2 ^ k) sz = Some r /\
    (best_size r \/ (r = sz /\ forall j, 0 <= j -> sz <= 2 ^ k * 2 ^ j -> UINT_MAX < 2 ^ k * 2 ^ j)).
Proof using Hk Hsz.
  revert i. induction fuel as [|fuel IH]; intros i Hi Hf Hle Hlow Hne.
  { exfalso. assert (i = 33) as -> by lia. pose proof (Z.pow_pos_nonneg 2 k). change (2 ^ 33) with (2 * 2 ^ 32) in Hle. nia. }
  cbn [adjust_loop]. assert (Hpk : 0 < 2 ^ k) by (apply Z.pow_pos_nonneg; lia). assert (Hpi : 0 < 2 ^ i) by (apply Z.pow_pos_nonneg; lia).
  assert (Hmono : forall j, i <= j -> 2 ^ k * 2 ^ i <= 2 ^ k * 2 ^ j) by (intros j Hj; apply Z.mul_le_mono_nonneg_l; [lia |]; apply Z.pow_le_mono_r; lia).
  destruct (2 ^ i <=? UINT_MAX / 2 ^ k) eqn:Hu.
  - assert (Hsmall : 2 ^ k * 2 ^ i <= UINT_MAX) by (pose proof (Z.mul_div_le UINT_MAX (2 ^ k) Hpk); nia).
    unfold UINT_MAX in Hsmall. rewrite (Z.mul_comm (2 ^ i)), uwrap_small by (change (2 ^ 32) with 4294967296; lia).
    destruct (sz <? 2 ^ k * 2 ^ i) eqn:Hs.
    + exists (2 ^ k * 2 ^ i). split; [done |]. left. split; [by exists i |]. split; [lia |]. intros j Hj Hsj.
      destruct (decide (j < i)); [|apply Hmono; lia]. pose proof (Hlow j). pose proof (Hne j). lia.
    + assert (Hnext : Z.shiftl (2 ^ i) 1 = 2 ^ (i + 1)) by (rewrite Z.shiftl_mul_pow2, Z.pow_add_r by lia; lia).
      assert (Hpow : 2 ^ k * 2 ^ (i + 1) <= 2 ^ 32).
      { rewrite <- Z.pow_add_r in * by lia. apply Z.pow_le_mono_r; [lia |]. assert (2 ^ (k + i) < 2 ^ 32) as H%Z.pow_lt_mono_r_iff by (change (2 ^ 32) with 4294967296; lia); lia. }
      assert (Hlt : 2 ^ (i + 1) < 2 ^ 32).
      { rewrite <- Z.pow_add_r in Hpow by lia. apply Z.pow_le_mono_r_iff in Hpow; [|lia | lia]. apply Z.pow_lt_mono_r; lia. }
      rewrite Hnext, uwrap_small by (split; [apply Z.pow_nonneg |]; lia).
      apply IH; [lia | lia | done | | done]. intros j Hj. destruct (decide (j = i)) as [->|]; [lia | apply Hlow; lia].
  - exists sz. split; [done |]. right. split; [done |]. intros j Hj Hsj.
    assert (Hbig : UINT_MAX < 2 ^ k * 2 ^ i) by (pose proof (Z.mul_succ_div_gt UINT_MAX (2 ^ k) Hpk); nia).
    destruct (decide (j < i)); [|specialize (Hmono j); lia]. pose proof (Hlow j). pose proof (Hne j). lia.
Qed.
End RingbufSize.

(** C39: for pages of [2 ^ k] bytes, the size that [adjust_ringbuf_sz] gives a ring buffer is the
    smallest one that the kernel accepts, a page times a power of two, that is not below what was asked for; only when
    that does not fit in 32 bits and is not what was asked for, the size is left alone, and zero stays zero.  The loop always ends. *)
Theorem adjust_ringbuf_sz_spec k sz : 1 <= k < 32 -> 0 <= sz < 2 ^ 64 ->
  exists r, adjust_ringbuf_sz (2 ^ k) sz = Some r /\
    ((sz = 0 /\ r = 0) \/ (0 < sz /\ best_size k sz r) \/
     (0 < sz /\ r = sz /\ forall j, 0 <= j -> sz <= 2 ^ k * 2 ^ j -> UINT_MAX < 2 ^ k * 2 ^ j)).
Proof.
  intros Hk Hsz. unfold adjust_ringbuf_sz. destruct (sz =? 0) eqn:H0; [exists 0; split; [done |]; left; lia |].
  assert (Hpk : 0 < 2 ^ k) by (apply Z.pow_pos_nonneg; lia). replace (2 ^ k =? 0) with false by lia.
  destruct ((sz mod 2 ^ k =? 0) && is_pow_of_2 (sz / 2 ^ k)) eqn:Hok.
  - exists sz. split; [done |]. right. left. split; [lia |]. apply andb_true_iff in Hok as [Hm Hp].
    apply is_pow_of_2_spec in Hp as (j & Hj & He); [|split; [apply Z.div_pos; lia |]; apply Z.div_lt_upper_bound; nia].
    split; [exists j; split; [done |]; pose proof (Z.div_mod sz (2 ^ k)); rewrite He in *; lia |]. split; [lia | done].
  - change 1 with (2 ^ 0). destruct (adjust_loop_spec k sz Hk ltac:(lia) 33 0) as (r & Hr & Hcase).
    + lia.
    + lia.
    + rewrite Z.mul_1_r. apply Z.pow_le_mono_r; lia.
    + lia.
    + intros j Hj He. rewrite He in Hok. rewrite (Z.mul_comm (2 ^ k)), Z.mod_mul, Z.div_mul in Hok by lia. cbn [Z.eqb andb] in Hok.
      assert (2 ^ j < 2 ^ 64) by (assert (0 < 2 ^ j) by (apply Z.pow_pos_nonneg; lia); nia).
      rewrite (proj2 (is_pow_of_2_spec (2 ^ j) ltac:(split; [apply Z.pow_nonneg; lia | lia]))) in Hok; [done | by exists j].
    + exists r. split; [exact Hr |]. right. destruct Hcase as [|[]]; [left | right]; auto with lia.
Qed.

Lemma adjust_ringbuf_sz_spec_witness : exists r, adjust_ringbuf_sz (2 ^ 12) 10000 = Some r /\ best_size 12 10000 r.
Proof.
  destruct (adjust_ringbuf_sz_spec 12 10000) as (r & Hr & [[H _]|[[_ H]|(_ & _ & H)]]).
  - lia.
  - lia.
  - discriminate H.
  - exists r. split; [exact Hr | exact H].
  - exfalso. specialize (H 2). unfold UINT_MAX in H. change (2 ^ 12 * 2 ^ 2) with 16384 in H. lia.
Defined.
